(* ===== verification/_CoqProject ===== *)
-Q . S2P
Prelude.v
RamList.v
Syspage.v
Strings.v
Asinfo.v
Ram.v
Gpio.v
GpioTables.v
GpioRp1.v
Pinctrl.v
GpioBcm.v
GpioAon.v
Mmu.v
PageTables.v
AddressSpace.v
Driver.v
DwSpi.v
DwSpiXfer.v
DwI2c.v
DwI2cXfer.v
SdioReg.v
SdioConst.v
SdioGate.v
Sdhci.v
SdhciCtl.v
SdhciPio.v
SdioCmd.v
SdioSend.v
SdioCard.v
SdhciEntry.v
SimConst.v
Sim.v
SimReq.v
SimStep.v
SimRw.v
SimDisk.v
SimProp.v
MmcConst.v
MmcBus.v
MmcPlan.v
MmcLink.v
MmcMode.v
MmcEcsd.v
MmcProp.v
MmcSdhci.v
SdConst.v
SdBus.v
SdStep.v
SdLink.v
SdEnds.v
SdCard.v
SdProp.v
SdSdhci.v
Ota.v
OtaText.v
OtaStep.v
OtaSafe.v
OtaKeep.v
OtaBoot.v
OtaCycle.v
OtaProp.v
