(* ===== verification/Prelude.v ===== *)
(** * A verification development of the Raspberry Pi 5 (BCM2712) board support package

    The repository is a QNX board support package: the startup program that
    describes the machine to the kernel (src/hardware/startup), the drivers
    of the buses and of the SD/MMC controller (spi, i2c, devb, devc) and the
    command-line tools of the board (support); beside it is the client that
    updates the system over the air (src/ota).  This library models the parts
    whose work is in the sources and states what makes them correct.

    ** How the parts interact

    Startup registers the RAM of the board, allocates from it, records it in
    the system page and builds the page tables of the kernel; the kernel and
    the drivers then rely on the system page and the tables.  The drivers are
    separate processes that only share the controller they program with
    interrupts and with their clients; the GPIO tools program the same pins
    that the drivers use.  The update client replaces the image that holds
    all of them: the firmware boots the image that config.txt names, and the
    client changes both.

    ** The files

    Prelude.v: machine integers with their wrap-around, tactics, lemmas.

    Startup, from the lists up:
    - RamList.v: the free list and the avoid list of lib/ram.c (add_mem,
      alloc_mem, find_ram, fix_size).
    - Syspage.v: the sections of the system page that grow in place
      (lib/syspage_memory.c, lib/callouts.c).
    - Strings.v: the interned names (lib/strings.c).
    - Asinfo.v: the address-space table (lib/as_*.c).
    - Ram.v: the state of lib/ram.c over these, and the memory map of the
      board (bcm2712_init_raminfo.c).
    - Mmu.v: the page tables (lib/aarch64/aarch64_map.c and its callers);
      PageTables.v: the tree of tables as an invariant of its loops;
      AddressSpace.v: what a call promises, with ram.c as the allocator.

    The GPIO tools (support/bcm2712):
    - Gpio.v: fields of registers, pin lists and options, which the tools
      share; GpioTables.v: their tables; GpioRp1.v: gpio-rp1;
      Pinctrl.v, GpioBcm.v, GpioAon.v: gpio-bcm and gpio-aon-bcm, one
      program over two layouts of the registers.

    The drivers:
    - Driver.v: errno, flag words and a state monad.
    - DwSpi.v: the SPI driver (spi/dwc) on a model of its controller;
      DwSpiXfer.v: its theorems.
    - DwI2c.v: the I2C driver (i2c/dwc) for an arbitrary device;
      DwI2cXfer.v: its theorems.
    - SdioReg.v: the registers of SD and MMC cards (devb/sdmmc/sdiodi).
    - SdioConst.v: the constants of the SD/MMC driver's headers;
      SdioGate.v: the removal of a card while clients use it (the same).
    - Sdhci.v: the host controller driver (sdiodi/hc/sdhci.c) with the scatter
      list and the wait of base.c; SdhciCtl.v: theorems on the clock, the DMA
      descriptors, responses and commands; SdhciPio.v: transfers without DMA.
    - SdioCmd.v: the command layer (base.c, card.c, sd.c, mmc.c) over any
      controller; SdioSend.v: the commands one call issues; SdioCard.v:
      erasing, identifying and powering a card; SdhciEntry.v: sdhci as the
      controller.
    - SimConst.v: the constants of the SCSI layer; Sim.v: the layer that
      turns SCSI requests into commands (devb/sdmmc/sim_sdmmc.c) over any
      library; SimReq.v: its partitions, device controls and dispatch;
      SimStep.v, SimRw.v, SimDisk.v, SimProp.v: its theorems.
    - MmcConst.v: the constants of an eMMC; MmcBus.v: bringing one up, its
      extended CSD and the modes of its bus (sdiodi/mmc.c, whole apart from
      RPMB requests), over any controller; MmcPlan.v: the functions as steps
      of the standard; MmcLink.v: the state of the link after the steps;
      MmcMode.v: the mode flags, bus errors and tuning; MmcEcsd.v: what the
      extended CSD offers; MmcProp.v: the theorems; MmcSdhci.v: sdhci as the
      controller.
    - SdConst.v: the constants of an SD card; SdBus.v: bringing one up, its
      switch functions, the modes of its bus, its lock and its extension
      registers (sdiodi/sd.c), over any controller; SdStep.v: what each step
      does; SdLink.v: the state of the link after the steps; SdEnds.v: that
      nothing gets stuck; SdCard.v: the lock and the registers; SdProp.v: the
      theorems; SdSdhci.v: sdhci as the controller.

    The update client (ota/ota_client.cpp):
    - Ota.v: texts, versions, the files and every function; OtaText.v: lemmas
      on texts; OtaStep.v: what a piece of the client may touch; OtaSafe.v:
      the invariant, and what each act has to keep; OtaKeep.v: that every
      function keeps it; OtaBoot.v: sessions that are cut off, and boots;
      OtaCycle.v: runs where nothing fails; OtaProp.v: its theorems.

    Each definition has the name of the function, struct or macro it models;
    a loop of a function has the function's name with a suffix, and a piece
    of a function a name that says what it does.

    ** How code is modelled

    A pure function is a function.  Static variables and structs are records,
    passed in and returned.  The drivers use the monad [M] of Driver.v, whose
    None is an access outside of a buffer, so that a theorem that a call
    returns Some is also one that it stays inside.  crash() of startup is an
    error value with its message.  Interleavings of threads are a step
    relation (SdioGate.v), with the invariants by rule induction, and so are
    the sessions of the update client and the boots between them (OtaBoot.v).
    Its monad keeps a list of the acts on files with the files before each,
    which is where a loss of power may strike.

    What comes from elsewhere is an argument: the layout constants of QNX
    headers (classes [asinfo_abi], [IoSpi], [I2cStatus] and the constants of
    <aarch64/mmu.h>), libfdt, strtoul's behaviour in the tools, the
    interrupts, and for the update client everything the file system, libcurl,
    OpenSSL, the clocks and the shell answer (classes [World] and [Crypto]).

    Components meet behind interfaces: [StringTable] between the
    address-space table and the names, [Calloc] between the page tables and
    the allocator, [sdio_hc_entry] between the command layer of the SD/MMC
    driver and its controllers, [sdio_lib] between the SCSI layer and the
    command layer.  The laws that a client relies on are classes over these
    ([hc_entry_laws], [bus_laws], [sd_laws], [sd_reads], [sdio_lib_laws]), and
    the implementations are instances: sdhci of the first three
    (SdhciEntry.v, MmcSdhci.v, SdSdhci.v), an example of the others.  The
    fourth says that a read of one block comes back, which the sdhci driver
    cannot promise for a controller that sends more data than it was asked
    for; what SdSdhci.v shows is therefore of the calls that come back.  A
    controller that takes every timing and width is [obedient], which sdhci
    is where it has the timing (it has none for HS400ES).

    ** Hardware

    The registers of the GPIO tools are an abstract file with the laws the
    tools rely on.  The SPI controller is a machine that follows
    docs/SPI_Hardware_Reference.md, runs at an arbitrary speed between any
    two accesses and may report errors; the I2C and the SD host controller
    are any function of the accesses before, so that the theorems hold for a
    broken one too.  For the update client a loss of power keeps the files
    as they are before some act or after the last: a completed write counts
    as on the disk, a rename is done or not, and a write may stop after any
    number of bytes.  The firmware boots the image that the kernel= line of
    config.txt names, and what is in /tmp is gone after a boot.

    ** What the theorems show

    - The RAM lists are the sets of addresses they should be: registering is
      union, allocating is difference, what is found is free (RamList.v,
      Ram.v); the sections of the system page never overlap (Syspage.v);
      interned strings refine an abstract table (Strings.v); a search of the
      address-space table finds the right entries (Asinfo.v).
    - The page tables translate as asked and nothing else changes; calls write
      only in tables, refuse bad arguments and end (AddressSpace.v).
    - The tools parse what they are given and change exactly the pins they
      are told, in the way asked; get shows what set did (Gpio*.v).
    - An SPI transfer exchanges the buffer with the slave for every timing of
      the controller, where no other slave is still selected, and with errors
      stays in its buffer (DwSpiXfer.v); an I2C transaction issues the right
      commands and stays in its buffers, where the level of the receive FIFO
      reads below 65536 (DwI2cXfer.v).
    - No client operation overlaps the removal of a card, and the removal
      waits only for the clients (SdioGate.v); the capacity of a card is what
      its registers say (SdioReg.v).
    - The SD host controller gets the fastest clock that is not above the one
      asked, descriptors of exactly the bytes of the scatter list, and a
      command only when it takes one (with a programmable clock and the preset
      registers enabled the clock is theirs); the long response reaches the parsers
      (SdhciCtl.v).  A transfer without DMA moves the bytes of the list in
      order and ends; its completion can be lost (SdhciPio.v).
    - A command is sent in a bounded number of rounds, each with what has to
      go before it; an erase is for exactly its range; identification ends
      with a selected card or an error (SdioSend.v, SdioCard.v); the sdhci
      driver is a controller that all this holds for (SdhciEntry.v).
    - A SCSI request stays in its buffers and ends; the data command of READ
      and WRITE is the one of the request, for cam_dxfer_len bytes, with the
      partition of the request selected unless a failed interrupt of
      background operations reset the card in between; and after a lost cache
      WRITE(10) never reaches a user partition again, which firmware updates
      and erasing still do (SimProp.v).
    - When the bus of an eMMC was brought up, the mode flags of the driver
      tell what both sides of the link acknowledged, with two exceptions that
      the code has: HS400 is entered although steps of HS200 before it failed,
      and the flag of HS200 is left over when the way from there to HS400
      failed.  The voltage came before the fast modes; a bus error in a fast
      mode gives up the mode, in HS and the low speed it lowers the clock kept
      for it; tuning in HS400 goes through HS200 and returns; and the extended
      CSD gives the device the modes of both sides, for a controller that has
      HS400 if it has HS400ES (MmcProp.v).  The first holds for the sdhci
      driver with a device without HS400ES, and there no timing or width is
      refused (MmcSdhci.v).  MmcBus.v notes what was done to the link and with
      which result; the state of the link is read from these notes, as the
      last setting that each side acknowledged, unknown after a refusal.
    - The same for an SD card: sd_init_bus ends, and the flags tell which mode
      of UHS or which speed the card answered with; the controller is set to
      it, or refused it, since the code drops these results.  A bus error
      gives up the mode or lowers the clock kept for it, except after a failed
      attempt to bring the bus up, where the same mode is tried again; it ends
      with the bus brought up again (SdProp.v).  The flag of a locked card is what
      the card last said, a notified power-off is one the card is ready for,
      and the list of extensions is read inside of its two pages wherever its
      pointers lead (SdCard.v).
    - However the sessions of the update client are cut off and the system
      booted, config.txt names a good image, which nothing touches, and a
      version whose record says that a witness was made is recorded only after
      a boot of its image (for a record cut short or without one this is not
      so); when
      nothing fails, an update arrives.  The parts that decide are right:
      versions are ordered, a record of an update reads back, a boot is told
      from a restart of the client (OtaProp.v).  The safety holds as long as
      the new config.txt is written whole and moved into place and files can
      be removed; OtaProp.v has the runs that go wrong otherwise.

    Lemmas that document a defect of the code (dropped speed, wrong slave,
    wrapping clock, a wrapping FIFO level, a detach during a removal, a write
    that a reset moves to another partition, a configuration cut short) run
    it on an example.

    ** Fuel

    Recursion follows data where it can.  Elsewhere the fuel is the number of
    rounds the code can make: 33 for the shifts of fls, 513 entries for each
    level of a page table, two waits per word for an SPI transfer, 1001 polls
    for dwc_i2c_enable, the given number of interrupts for an I2C wait or an SD
    command, retries + 1 rounds of a command and two levels of commands it needs
    first, 1000 polls of an extension register, one command per group for write
    protection, one piece per sector
    for a reliable write, the length of the search for an SD clock, a block's bytes and
    the list's entries for a block without DMA, one
    round per entry of a list or character of a string for the loops of
    startup and the tools.  The loop of the update client has no end: its
    theorems are for any number of rounds; to_string has 20 digits, as many
    as a 64-bit number can have, and mounting is tried five times.  A theorem
    says that it is enough wherever a result depends on it.

    ** What is not modelled

    Assembly (callouts, entry code, registers of the processor), and code that
    only calls the operating system or libraries whose sources are elsewhere:
    CAM, io-char (the serial driver), resource managers, libfdt, the threads
    and options of the SD/MMC driver; of the update client the progress output
    and the detaching from the terminal.  Not done, though the sources would
    allow it: the power management of SD cards and eMMCs (the sdhci driver
    has no pm entry, so that _sdio_pwrmgnt does nothing for it), an
    instance of [sdio_lib] over the command layer, the interrupt controllers
    of startup, its command line and its output, and the messages to the
    firmware (mailbox). *)
From Stdlib Require Export ZArith Lia.
From stdpp Require Export base list strings sets.

Open Scope Z_scope.

(** ** Machine integers

    A w-bit unsigned integer is a [Z] in [0, 2^w).  Arithmetic of the C code
    is written on [Z] and brought back into range by these casts. *)
Definition u8 (z : Z) : Z := z mod 256.
Definition u16 (z : Z) : Z := z mod 65536.
Definition u32 (z : Z) : Z := z mod 4294967296.
Definition u64 (z : Z) : Z := z mod 18446744073709551616.

(** Two's complement reading of a 32-bit pattern (the C [int]). *)
Definition s32 (z : Z) : Z := (z + 2147483648) mod 4294967296 - 2147483648.

Lemma u8_range z : 0 <= u8 z < 256.
Proof. apply Z.mod_pos_bound; lia. Qed.
Lemma u16_range z : 0 <= u16 z < 65536.
Proof. apply Z.mod_pos_bound; lia. Qed.
Lemma u32_range z : 0 <= u32 z < 4294967296.
Proof. apply Z.mod_pos_bound; lia. Qed.
Lemma u64_range z : 0 <= u64 z < 18446744073709551616.
Proof. apply Z.mod_pos_bound; lia. Qed.

Lemma u8_id z : 0 <= z < 256 -> u8 z = z.
Proof. apply Z.mod_small. Qed.
Lemma u16_id z : 0 <= z < 65536 -> u16 z = z.
Proof. apply Z.mod_small. Qed.
Lemma u32_id z : 0 <= z < 4294967296 -> u32 z = z.
Proof. apply Z.mod_small. Qed.
Lemma u64_id z : 0 <= z < 18446744073709551616 -> u64 z = z.
Proof. apply Z.mod_small. Qed.
Lemma s32_id z : -2147483648 <= z < 2147483648 -> s32 z = z.
Proof. intros. unfold s32. rewrite Z.mod_small; lia. Qed.
Lemma s32_range z : -2147483648 <= s32 z < 2147483648.
Proof. unfold s32. pose proof (Z.mod_pos_bound (z + 2147483648) 4294967296). lia. Qed.

Create HintDb width discriminated.
#[export] Hint Resolve u8_range u16_range u32_range u64_range s32_range : width.

(** Remove every cast whose argument [lia] can place in range. *)
Ltac width_simpl :=
  repeat match goal with
  | |- context [u64 ?x] => rewrite (u64_id x) by lia
  | |- context [u32 ?x] => rewrite (u32_id x) by lia
  | |- context [u16 ?x] => rewrite (u16_id x) by lia
  | |- context [u8 ?x] => rewrite (u8_id x) by lia
  end.
Ltac width_simpl_in H :=
  repeat match type of H with
  | context [u64 ?x] => rewrite (u64_id x) in H by lia
  | context [u32 ?x] => rewrite (u32_id x) in H by lia
  | context [u16 ?x] => rewrite (u16_id x) in H by lia
  | context [u8 ?x] => rewrite (u8_id x) in H by lia
  end.

Ltac width_simpl_all :=
  repeat match goal with
  | H : context [u64 ?x] |- _ => rewrite (u64_id x) in H by lia
  | H : context [u32 ?x] |- _ => rewrite (u32_id x) in H by lia
  | H : context [u16 ?x] |- _ => rewrite (u16_id x) in H by lia
  | H : context [u8 ?x] |- _ => rewrite (u8_id x) in H by lia
  end; width_simpl.

(** Boolean tests of the code as propositions. *)
Ltac zbool :=
  repeat match goal with
  | H : _ && _ = true |- _ => apply andb_true_iff in H; destruct H
  | H : _ || _ = false |- _ => apply orb_false_iff in H; destruct H
  | H : negb _ = true |- _ => apply negb_true_iff in H
  | H : negb _ = false |- _ => apply negb_false_iff in H
  | H : (_ <? _) = true |- _ => apply Z.ltb_lt in H
  | H : (_ <? _) = false |- _ => apply Z.ltb_ge in H
  | H : (_ <=? _) = true |- _ => apply Z.leb_le in H
  | H : (_ <=? _) = false |- _ => apply Z.leb_gt in H
  | H : (_ =? _) = true |- _ => apply Z.eqb_eq in H
  | H : (_ =? _) = false |- _ => apply Z.eqb_neq in H
  end.

(** Case split on the outermost boolean test of the goal, then [zbool]. *)
Ltac zcase :=
  match goal with
  | |- context [if ?b then _ else _] =>
      let E := fresh "E" in destruct b eqn:E; zbool
  end.

(** ** Results of code that can stop the machine

    [crash()] never returns: a function that may call it returns a [res]. *)
Inductive res (A : Type) : Type :=
| Ok (a : A)
| Crash (msg : string).
Arguments Ok {A} a.
Arguments Crash {A} msg.

Definition res_bind {A B} (m : res A) (k : A -> res B) : res B :=
  match m with Ok a => k a | Crash s => Crash s end.

Declare Scope bsp_scope.
Delimit Scope bsp_scope with bsp.
Notation "'let!' x := m 'in' k" := (res_bind m (fun x => k))
  (at level 10, x strict pattern, m at level 200, k at level 200) : bsp_scope.
Open Scope bsp_scope.

Lemma res_bind_Ok {A B} (m : res A) (k : A -> res B) b :
  res_bind m k = Ok b -> exists a, m = Ok a /\ k a = Ok b.
Proof. destruct m; simpl; [eauto|discriminate]. Qed.

Ltac res_inv :=
  repeat match goal with
  | H : res_bind _ _ = Ok _ |- _ =>
      let a := fresh "a" in let E := fresh "E" in
      apply res_bind_Ok in H; destruct H as (a & E & H)
  | H : Ok _ = Ok _ |- _ => injection H as H
  | H : Crash _ = Ok _ |- _ => discriminate H
  end.

(** ** TRUNC, ROUND and NULL_PADDR (lib/public/startup.h)

    64-bit masks, exactly as the macros compute them. *)
Definition TRUNC (x a : Z) : Z := Z.land (u64 x) (u64 (Z.lnot (u64 (u64 a - 1)))).
Definition ROUND (x a : Z) : Z := TRUNC (u64 (u64 x + u64 (u64 a - 1))) (u64 a).

(** The value for "no address". *)
Definition NULL_PADDR : Z := 18446744073709551615.

(** [a] is a power of two that fits the C type [unsigned]. *)
Definition pow2_align (a : Z) : Prop := exists k, 0 <= k < 32 /\ a = 2 ^ k.

Lemma pow2_align_bounds a : pow2_align a -> 1 <= a <= 2147483648.
Proof.
  intros (k & Hk & ->). split.
  - apply (Z.pow_le_mono_r 2 0 k); lia.
  - apply (Z.pow_le_mono_r 2 k 31); lia.
Qed.

Lemma pow2_align_1 : pow2_align 1.
Proof. exists 0; lia. Qed.
Lemma pow2_align_8 : pow2_align 8.
Proof. exists 3; lia. Qed.
Lemma pow2_align_4096 : pow2_align 4096.
Proof. exists 12; lia. Qed.
#[export] Hint Resolve pow2_align_1 pow2_align_8 pow2_align_4096 : width.

Lemma land_lnot_mod x k : 0 <= k -> Z.land x (Z.lnot (2 ^ k - 1)) = x - x mod 2 ^ k.
Proof.
  intros Hk.
  replace (2 ^ k - 1) with (Z.ones k) by (rewrite Z.ones_equiv; lia).
  rewrite <- Z.ldiff_land, Z.ldiff_ones_r by lia.
  rewrite Z.shiftl_mul_pow2, Z.shiftr_div_pow2 by lia.
  pose proof (Z.div_mod x (2 ^ k)). lia.
Qed.

Lemma TRUNC_spec x a :
  0 <= x < 18446744073709551616 -> pow2_align a -> TRUNC x a = x - x mod a.
Proof.
  intros Hx Ha. pose proof (pow2_align_bounds _ Ha). destruct Ha as (k & Hk & ->).
  unfold TRUNC. width_simpl.
  rewrite <- land_lnot_mod by lia.
  unfold u64. change 18446744073709551616 with (2 ^ 64).
  rewrite <- (Z.land_ones _ 64), (Z.land_comm (Z.lnot _)), Z.land_assoc by lia.
  rewrite Z.land_ones, (Z.mod_small x) by lia. reflexivity.
Qed.

(** [ROUND x a] is the least multiple of [a] that is at least [x]. *)
Lemma ROUND_spec x a :
  0 <= x <= 9223372036854775808 -> pow2_align a ->
  ROUND x a mod a = 0 /\ x <= ROUND x a < x + a.
Proof.
  intros Hx Ha. pose proof (pow2_align_bounds _ Ha).
  unfold ROUND. width_simpl.
  rewrite TRUNC_spec by (auto; lia).
  pose proof (Z.mod_pos_bound (x + (a - 1)) a).
  split; [|lia].
  rewrite Zminus_mod_idemp_r, Z.sub_diag. reflexivity.
Qed.

(** ** Opening a gap of zeros in a block of bytes *)
Definition splice {A} (off : nat) (gap l : list A) : list A := take off l ++ gap ++ drop off l.

Lemma splice_before {A} off n o (gap l : list A) :
  (o + n <= off)%nat -> (off <= length l)%nat ->
  take n (drop o (splice off gap l)) = take n (drop o l).
Proof.
  intros H1 H2. unfold splice. rewrite drop_app_le by (rewrite length_take; lia).
  rewrite take_app_le by (rewrite length_drop, length_take; lia).
  rewrite skipn_firstn_comm, take_take. f_equal. lia.
Qed.

Lemma splice_after {A} off o (gap l : list A) :
  (off <= o)%nat -> (off <= length l)%nat ->
  drop (o + length gap) (splice off gap l) = drop o l.
Proof.
  intros H1 H2. unfold splice.
  rewrite drop_app_ge by (rewrite length_take; lia). rewrite length_take, Nat.min_l by lia.
  rewrite drop_app_ge by lia. rewrite drop_drop. f_equal. lia.
Qed.

Lemma splice_at {A} off n o (gap l : list A) :
  (o + n = off)%nat -> (off <= length l)%nat ->
  take (n + length gap) (drop o (splice off gap l)) = take n (drop o l) ++ gap.
Proof.
  intros H1 H2. unfold splice. rewrite drop_app_le by (rewrite length_take; lia).
  rewrite skipn_firstn_comm. replace (off - o)%nat with n by lia.
  rewrite take_app_ge by (rewrite length_take, length_drop; lia).
  rewrite length_take, length_drop, Nat.min_l by lia.
  replace (n + length gap - n)%nat with (length gap) by lia. by rewrite take_app_length.
Qed.

Lemma length_splice {A} off (gap l : list A) :
  (off <= length l)%nat -> length (splice off gap l) = (length l + length gap)%nat.
Proof. intros. unfold splice. rewrite !length_app, length_take, length_drop. lia. Qed.
