(* ===== verification/RamList.v ===== *)
(** * The free-RAM list and the avoid list of lib/ram.c

    The two arrays of ram.c hold entries up to a zero terminator; a list here
    holds the entries before the terminator, so [ram_list_size] is 16 bytes
    per entry plus one terminator.  This file has the operations that touch
    only the two arrays; [Ram.v] adds the rest of the state. *)
From S2P Require Import Prelude.

Record ram_entry := RamEntry { r_addr : Z; r_size : Z }.
Record avoid_entry := AvoidEntry { a_start : Z; a_end : Z }.

#[export] Instance ram_entry_eq_dec : EqDecision ram_entry.
Proof. solve_decision. Defined.
#[export] Instance avoid_entry_eq_dec : EqDecision avoid_entry.
Proof. solve_decision. Defined.

Definition sizeof_ram_entry : Z := 16.
Definition sizeof_avoid_entry : Z := 16.
Definition MAX_RAM_LIST_SIZE : Z := 3 * 1024.
Definition MAX_AVOID_LIST_SIZE : Z := 1 * 1024.

Definition ram_list_size (ram : list ram_entry) : Z :=
  sizeof_ram_entry * (Z.of_nat (length ram) + 1).

(** ** add_mem: insert a range and merge it with its neighbours *)

(** The first loop and the [memmove]: the new entry goes before the first
    entry whose address is greater than [start]. *)
Fixpoint insert_entry (n : ram_entry) (ram : list ram_entry) : list ram_entry :=
  match ram with
  | [] => [n]
  | r :: rest =>
      if r_addr n <? r_addr r then n :: r :: rest else r :: insert_entry n rest
  end.

(** The second loop: [prev] is [r[-1]], the head of the list is [r[0]]. *)
Fixpoint merge_from (prev : ram_entry) (ram : list ram_entry) : list ram_entry :=
  match ram with
  | [] => [prev]
  | r :: rest =>
      let e := u64 (r_addr prev + r_size prev) in
      let s := r_addr r in
      if s <=? e then
        let e := if e <? u64 (s + r_size r) then u64 (s + r_size r) else e in
        merge_from (RamEntry (r_addr prev) (u64 (e - r_addr prev))) rest
      else prev :: merge_from r rest
  end.

Definition merge_all (ram : list ram_entry) : list ram_entry :=
  match ram with [] => [] | r :: rest => merge_from r rest end.

Definition overflow_msg : string := "RAM entry array overflow".

Definition add_mem (start size : Z) (ram : list ram_entry) : res (list ram_entry) :=
  if 0 <? size then
    if MAX_RAM_LIST_SIZE - sizeof_ram_entry <? ram_list_size ram then Crash overflow_msg
    else Ok (merge_all (insert_entry (RamEntry start size) ram))
  else Ok ram.

(** ** fix_size: keep a candidate clear of one avoid range *)
Definition fix_size (s e as_ ae : Z) : option (Z * Z) :=
  if (ae <=? s) || (e <=? as_) then Some (s, e)
  else if as_ <=? s then
    if e <=? ae then None else Some (ae, e)
  else if e <? ae then Some (s, as_)
  else if u64 (e - ae) <? u64 (as_ - s) then Some (s, as_)
  else Some (ae, e).

(** The inner loop of both searches: the avoid list ends at a zero [end]. *)
Fixpoint fix_avoids (avoid : list avoid_entry) (s e : Z) : option (Z * Z) :=
  match avoid with
  | [] => Some (s, e)
  | a :: rest =>
      if a_end a =? 0 then Some (s, e)
      else match fix_size s e (a_start a) (a_end a) with
           | None => None
           | Some (s', e') => fix_avoids rest s' e'
           end
  end.

(** ** find_top_ram_aligned_limit *)
Fixpoint find_top_loop (avoid : list avoid_entry) (size align limit top : Z)
    (ram : list ram_entry) : Z :=
  match ram with
  | [] => top
  | r :: rest =>
      match fix_avoids avoid (r_addr r) (u64 (r_addr r + r_size r)) with
      | None => find_top_loop avoid size align limit top rest
      | Some (s, e) =>
          if size <=? u64 (e - s) then
            let chk := if align =? 0 then u64 (e - size) else TRUNC (u64 (e - size)) align in
            if s <=? chk then
              if top <? chk then
                if limit <=? u64 (chk + size) then
                  let top' := u64 (limit - size) in
                  if top' <? s then top else top'
                else find_top_loop avoid size align limit chk rest
              else find_top_loop avoid size align limit top rest
            else find_top_loop avoid size align limit top rest
          else find_top_loop avoid size align limit top rest
      end
  end.

Definition find_top_ram_aligned_limit (ram : list ram_entry) (avoid : list avoid_entry)
    (size align pagesize limit : Z) : Z :=
  if limit <? size then NULL_PADDR
  else
    let top := find_top_loop avoid (ROUND size pagesize) align limit 0 ram in
    if top =? 0 then NULL_PADDR else top.

(** [~0] is the int -1: converted to [paddr_t] it is all ones. *)
Definition find_top_ram_aligned (ram : list ram_entry) (avoid : list avoid_entry)
    (size align pagesize : Z) : Z :=
  find_top_ram_aligned_limit ram avoid size align pagesize NULL_PADDR.

(** [pagesize] is [lsp.system_private.p->pagesize]. *)
Definition find_top_ram (ram : list ram_entry) (avoid : list avoid_entry)
    (pagesize size : Z) : Z :=
  find_top_ram_aligned ram avoid size 0 pagesize.

(** ** find_ram_in_range, find_ram *)

(** The address of one candidate after alignment, colour and range start.
    [colour] and [mask] are 32-bit: so is [~mask]. *)
Definition candidate_addr (range_start align colour mask s : Z) : Z :=
  let addr := ROUND s align in
  let addr :=
    if Z.land addr mask =? colour then addr
    else
      let incr := u32 (Z.lor (u32 (mask - 1)) mask + 1) in
      Z.lor (Z.land (u64 (addr + incr)) (u32 (Z.lnot mask))) colour in
  if range_start =? 0 then addr
  else if addr <? range_start then range_start else addr.

Fixpoint find_ram_in_range (ram : list ram_entry) (avoid : list avoid_entry)
    (range_start range_end size align colour mask : Z) : Z :=
  match ram with
  | [] => NULL_PADDR
  | r :: rest =>
      let next := find_ram_in_range rest avoid range_start range_end size align colour mask in
      match fix_avoids avoid (r_addr r) (u64 (r_addr r + r_size r)) with
      | None => next
      | Some (s, e) =>
          let addr := candidate_addr range_start align colour mask s in
          let e := if range_end =? 0 then e else if range_end <? e then range_end else e in
          if e <=? addr then next
          else if size <=? u64 (e - addr) then addr
          else next
      end
  end.

(** [NULL_PADDR_STARTUP] is [NULL_PADDR] where [PADDR_T] is 64-bit, so the
    final conversion of find_ram is the identity. *)
Definition find_ram (ram : list ram_entry) (avoid : list avoid_entry)
    (size align colour mask : Z) : Z :=
  find_ram_in_range ram avoid 0 NULL_PADDR size align colour mask.

(** ** alloc_ram: the loop that takes [[addr, fin)] out of the list *)
Definition fuel_msg : string := "out of fuel".

Fixpoint alloc_loop (fuel : nat) (i : nat) (addr fin : Z) (ram : list ram_entry)
    : res (list ram_entry) :=
  match fuel with
  | O => Crash fuel_msg
  | S fuel' =>
      match ram !! i with
      | None => Ok ram
      | Some r =>
          let s := r_addr r in
          let e := u64 (s + r_size r) in
          if ((addr <=? s) && (s <? fin)) || ((s <=? addr) && (addr <? e))
             || ((s <=? fin) && (fin <? e))
          then
            let e := if e <? fin then fin else e in
            let s := if addr <? s then addr else s in
            if (addr =? s) && (fin =? e) then
              alloc_loop fuel' i addr fin (delete i ram)
            else if addr =? s then
              alloc_loop fuel' (S i) addr fin (<[i := RamEntry fin (u64 (e - fin))]> ram)
            else
              let ram := <[i := RamEntry (r_addr r) (u64 (addr - s))]> ram in
              if e =? fin then alloc_loop fuel' (S i) addr fin ram
              else
                let! ram := add_mem fin (u64 (e - fin)) ram in
                alloc_loop fuel' (S i) addr fin ram
          else alloc_loop fuel' (S i) addr fin ram
      end
  end.

(** Every round deletes an entry or moves on; one round may add one. *)
Definition alloc_fuel (ram : list ram_entry) : nat := S (2 * length ram).

Definition alloc_mem (addr size : Z) (ram : list ram_entry) : res (list ram_entry) :=
  alloc_loop (alloc_fuel ram) 0 addr (u64 (addr + size)) ram.

(** ** avoid_ram on a list that exists *)
Definition avoid_list_size (avoid : list avoid_entry) : Z :=
  sizeof_avoid_entry * (Z.of_nat (length avoid) + 1).

Definition avoid_overflow_msg : string := "Avoid RAM entry array overflow".

(** The last entry grows when the new range starts at its end, else the
    range is appended; the size check comes after the write. *)
Definition avoid_append (start size : Z) (avoid : list avoid_entry) : list avoid_entry :=
  let new := avoid ++ [AvoidEntry start (u64 (start + size))] in
  match last avoid with
  | Some a =>
      if a_end a =? start
      then removelast avoid ++ [AvoidEntry (a_start a) (u64 (a_end a + size))]
      else new
  | None => new
  end.

Definition avoid_push (start size : Z) (avoid : list avoid_entry) : res (list avoid_entry) :=
  let avoid := avoid_append start size avoid in
  if MAX_AVOID_LIST_SIZE <? avoid_list_size avoid then Crash avoid_overflow_msg
  else Ok avoid.

(** ** What a list means: the set of addresses it covers *)
Definition in_entry (r : ram_entry) (x : Z) : Prop :=
  r_addr r <= x < r_addr r + r_size r.

Fixpoint covers (ram : list ram_entry) (x : Z) : Prop :=
  match ram with [] => False | r :: rest => in_entry r x \/ covers rest x end.

Definition avoided (avoid : list avoid_entry) (x : Z) : Prop :=
  Exists (fun a => a_start a <= x < a_end a) avoid.

(** Physical addresses stay below [PA_LIMIT]: the architecture has at most
    52 address bits, so no sum of two of them wraps. *)
Definition PA_LIMIT : Z := 9223372036854775808.

(** Well-formed from [lo] on: increasing, non-empty, separated by gaps. *)
Fixpoint wf_from (lo : Z) (ram : list ram_entry) : Prop :=
  match ram with
  | [] => True
  | r :: rest =>
      lo < r_addr r /\ 0 < r_size r /\ r_addr r + r_size r <= PA_LIMIT
      /\ wf_from (r_addr r + r_size r) rest
  end.
Definition ram_wf (ram : list ram_entry) : Prop := wf_from (-1) ram.

Definition avoid_wf (avoid : list avoid_entry) : Prop :=
  Forall (fun a => 0 <= a_start a /\ 0 < a_end a <= PA_LIMIT) avoid.

(** ** Facts about coverage and well-formedness *)
Create HintDb ram discriminated.

Ltac ram_unfold := simpl in *; unfold in_entry, PA_LIMIT in *.

Lemma covers_app l1 l2 x : covers (l1 ++ l2) x <-> covers l1 x \/ covers l2 x.
Proof. induction l1; simpl; tauto. Qed.

Lemma covers_elem l x : covers l x <-> exists r, r ∈ l /\ in_entry r x.
Proof.
  induction l as [|r l IH]; simpl.
  - split; [tauto|]. intros (r & Hr & _). inversion Hr.
  - rewrite IH. setoid_rewrite elem_of_cons. split.
    + intros [?|(r' & ? & ?)]; eauto.
    + intros (r' & [->|?] & ?); eauto.
Qed.

Lemma wf_from_weaken lo lo' l : lo' <= lo -> wf_from lo l -> wf_from lo' l.
Proof. destruct l; simpl; [tauto|]. intros; intuition lia. Qed.

Lemma wf_from_app lo l1 l2 :
  wf_from lo (l1 ++ l2) <->
  wf_from lo l1 /\ wf_from (fold_left (fun _ r => r_addr r + r_size r) l1 lo) l2.
Proof.
  revert lo; induction l1 as [|r l1 IH]; intros lo; simpl; [tauto|].
  rewrite IH. tauto.
Qed.

Lemma wf_from_lower lo l x : wf_from lo l -> covers l x -> lo < x.
Proof.
  revert lo; induction l as [|r l IH]; intros lo; ram_unfold; [tauto|].
  intros (H1 & H2 & H3 & H4) [H|H]; [lia|]. specialize (IH _ H4 H). lia.
Qed.

Lemma wf_from_upper lo l x : wf_from lo l -> covers l x -> x < PA_LIMIT.
Proof.
  revert lo; induction l as [|r l IH]; intros lo; ram_unfold; [tauto|].
  intros (H1 & H2 & H3 & H4) [H|H]; [lia|]. eauto.
Qed.

Lemma wf_from_elem lo l r :
  wf_from lo l -> r ∈ l -> lo < r_addr r /\ 0 < r_size r /\ r_addr r + r_size r <= PA_LIMIT.
Proof.
  revert lo; induction l as [|r' l IH]; intros lo; simpl; [intros _ H; inversion H|].
  rewrite elem_of_cons. intros (H1 & H2 & H3 & H4) [->|H]; [tauto|].
  destruct (IH _ H4 H) as (? & ? & ?). split; [lia|tauto].
Qed.

(** Entries before and after a given one lie strictly on either side. *)
Lemma wf_from_split lo l1 r l2 :
  wf_from lo (l1 ++ r :: l2) ->
  Forall (fun r' => r_addr r' + r_size r' < r_addr r) l1 /\
  Forall (fun r' => r_addr r + r_size r < r_addr r') l2.
Proof.
  revert lo; induction l1 as [|r1 l1 IH]; intros lo; simpl.
  - intros (H1 & H2 & H3 & H4). split; [constructor|].
    apply Forall_forall; intros r' Hr'. destruct (wf_from_elem _ _ _ H4 Hr'); lia.
  - intros (H1 & H2 & H3 & H4). destruct (IH _ H4) as [HF1 HF2].
    split; [|done]. constructor; [|done].
    destruct (wf_from_elem _ _ r H4) as (? & ? & ?); [|lia].
    rewrite elem_of_app, elem_of_cons. auto.
Qed.

(** The representation is canonical: equal coverage means equal lists. *)
Lemma wf_from_canonical lo1 lo2 l1 l2 :
  wf_from lo1 l1 -> wf_from lo2 l2 -> (forall x, covers l1 x <-> covers l2 x) -> l1 = l2.
Proof.
  revert lo1 lo2 l2; induction l1 as [|[a1 n1] l1 IH]; intros lo1 lo2 [|[a2 n2] l2];
    simpl; intros W1 W2 HC; try done.
  - exfalso. apply (HC a2). left. unfold in_entry; simpl. lia.
  - exfalso. apply (HC a1). left. unfold in_entry; simpl. lia.
  - destruct W1 as (H1 & H2 & H3 & W1), W2 as (K1 & K2 & K3 & W2).
    assert (L1 := fun x => wf_from_lower _ _ x W1).
    assert (L2 := fun x => wf_from_lower _ _ x W2).
    unfold in_entry in HC; simpl in *.
    assert (a1 = a2) as ->.
    { destruct (proj1 (HC a1)) as [C|C]; [lia| |apply L2 in C];
      (destruct (proj2 (HC a2)) as [D|D]; [lia| |apply L1 in D]); lia. }
    assert (n1 = n2) as ->.
    { destruct (Z.lt_trichotomy n1 n2) as [Hlt|[Heq|Hlt]]; [|done|].
      - destruct (proj2 (HC (a2 + n1))) as [C|C]; [lia|lia|]. apply L1 in C. lia.
      - destruct (proj1 (HC (a2 + n2))) as [C|C]; [lia|lia|]. apply L2 in C. lia. }
    f_equal. apply (IH _ _ _ W1 W2). intros x. specialize (HC x).
    split; intros C.
    + pose proof (L1 _ C). destruct HC as [[?|?] _]; auto; lia.
    + pose proof (L2 _ C). destruct HC as [_ [?|?]]; auto; lia.
Qed.

(** ** add_mem *)

(** Sorted by address, overlaps allowed: the state between the two loops. *)
Fixpoint sorted_from (lo : Z) (ram : list ram_entry) : Prop :=
  match ram with
  | [] => True
  | r :: rest =>
      lo <= r_addr r /\ 0 < r_size r /\ r_addr r + r_size r <= PA_LIMIT
      /\ sorted_from (r_addr r) rest
  end.

Lemma wf_sorted lo l : wf_from lo l -> sorted_from lo l.
Proof.
  revert lo; induction l as [|r l IH]; intros lo; simpl; [tauto|].
  intros (H1 & H2 & H3 & H4). repeat split; try lia.
  apply IH, (wf_from_weaken (r_addr r + r_size r)); [lia|done].
Qed.

Lemma insert_entry_sorted lo n l :
  lo <= r_addr n -> 0 < r_size n -> r_addr n + r_size n <= PA_LIMIT ->
  sorted_from lo l -> sorted_from lo (insert_entry n l).
Proof.
  revert lo; induction l as [|r l IH]; intros lo; simpl; [tauto|].
  intros ? ? ? (H1 & H2 & H3 & H4). zcase; simpl.
  - repeat split; try lia; done.
  - repeat split; try lia. apply IH; auto; lia.
Qed.

Lemma insert_entry_covers n l x :
  covers (insert_entry n l) x <-> in_entry n x \/ covers l x.
Proof. induction l as [|r l IH]; simpl; [tauto|]. zcase; simpl; tauto. Qed.

Lemma insert_entry_nonempty n l : insert_entry n l <> [].
Proof. destruct l; simpl; [done|]. by zcase. Qed.

Lemma insert_entry_lo n l :
  match insert_entry n l with
  | [] => False
  | r :: _ => r_addr r = r_addr n \/ match l with [] => False | r' :: _ => r = r' end
  end.
Proof. destruct l as [|r l]; simpl; [auto|]. zcase; auto. Qed.

Lemma merge_from_spec lo prev l :
  lo < r_addr prev -> -1 <= lo -> 0 < r_size prev -> r_addr prev + r_size prev <= PA_LIMIT ->
  sorted_from (r_addr prev) l ->
  wf_from lo (merge_from prev l) /\
  (forall x, covers (merge_from prev l) x <-> in_entry prev x \/ covers l x).
Proof.
  revert lo prev; induction l as [|r l IH]; intros lo prev Hlo Hpos Hsz Hmax Hs; simpl in *.
  - split; [tauto|]. tauto.
  - destruct Hs as (H1 & H2 & H3 & H4).
    unfold PA_LIMIT in *. width_simpl. zcase; simpl.
    + set (e := if _ <? _ then _ else _).
      assert (He : e = Z.max (r_addr prev + r_size prev) (r_addr r + r_size r))
        by (unfold e; zcase; lia).
      rewrite He. width_simpl.
      destruct (IH lo (RamEntry (r_addr prev)
        (Z.max (r_addr prev + r_size prev) (r_addr r + r_size r) - r_addr prev)))
        as [IW IC]; simpl; try lia.
      { destruct l as [|r2 l]; simpl in *; [done|]. intuition lia. }
      split; [done|]. intros x. rewrite IC. unfold in_entry; simpl.
      destruct (Z_lt_dec x (r_addr prev + r_size prev)); intuition lia.
    + destruct (IH (r_addr prev + r_size prev) r) as [IW IC]; try lia; try done.
      split; [tauto|]. intros x. rewrite IC. tauto.
Qed.

Lemma merge_insert_spec start size ram :
  0 <= start -> 0 < size -> start + size <= PA_LIMIT -> ram_wf ram ->
  ram_wf (merge_all (insert_entry (RamEntry start size) ram)) /\
  (forall x, covers (merge_all (insert_entry (RamEntry start size) ram)) x
             <-> covers ram x \/ start <= x < start + size).
Proof.
  intros Hst Hsz Hmax W.
  assert (S0 : sorted_from 0 ram).
  { pose proof (wf_sorted _ _ W). destruct ram; simpl in *; [done|]. unfold ram_wf in W.
    simpl in W. intuition lia. }
  pose proof (insert_entry_sorted 0 (RamEntry start size) ram Hst Hsz Hmax S0) as S1.
  pose proof (insert_entry_covers (RamEntry start size) ram) as C1.
  pose proof (insert_entry_nonempty (RamEntry start size) ram) as NE.
  destruct (insert_entry _ ram) as [|r l]; [done|]. simpl in S1.
  destruct S1 as (H1 & H2 & H3 & H4).
  destruct (merge_from_spec (-1) r l) as [IW IC]; try lia; try done.
  split; [done|]. intros x. simpl. rewrite IC. specialize (C1 x). simpl in C1.
  rewrite C1. unfold in_entry at 1; simpl. tauto.
Qed.

(** What add_mem promises: union with the range, or the overflow crash. *)
Lemma add_mem_spec start size ram :
  0 <= start -> 0 <= size -> start + size <= PA_LIMIT -> ram_wf ram ->
  match add_mem start size ram with
  | Ok ram' => ram_wf ram' /\
      (forall x, covers ram' x <-> covers ram x \/ start <= x < start + size)
  | Crash m => m = overflow_msg /\ (192 <= S (length ram))%nat
  end.
Proof.
  intros Hst Hsz Hmax W. unfold add_mem. zcase.
  - unfold MAX_RAM_LIST_SIZE, sizeof_ram_entry, ram_list_size in *.
    destruct (_ <? _) eqn:E1; zbool.
    + split; [done|]. unfold sizeof_ram_entry in *. lia.
    + apply merge_insert_spec; auto; lia.
  - split; [done|]. intros x. split; [tauto|]. intros [?|?]; [done|lia].
Qed.

(** ** The avoid list *)

(** What survives is a non-empty piece of the candidate, clear of the avoid
    range, and the largest such piece. *)
Lemma fix_size_spec s e as_ ae :
  0 <= s < e -> e <= PA_LIMIT -> 0 <= as_ -> 0 <= ae <= PA_LIMIT ->
  match fix_size s e as_ ae with
  | Some (s', e') =>
      s <= s' < e' /\ e' <= e /\ (forall x, s' <= x < e' -> ~ as_ <= x < ae) /\
      e' - s' = Z.max (Z.min e as_ - s) (e - Z.max s ae)
  | None => as_ <= s /\ e <= ae
  end.
Proof.
  unfold PA_LIMIT, fix_size. intros.
  destruct (_ || _) eqn:E1.
  - apply orb_true_iff in E1. destruct E1; zbool; repeat split; lia.
  - repeat (zbool; zcase); zbool; repeat split; try lia.
    all: width_simpl_all; lia.
Qed.

Lemma fix_avoids_spec avoid s e s' e' :
  avoid_wf avoid -> 0 <= s < e -> e <= PA_LIMIT ->
  fix_avoids avoid s e = Some (s', e') ->
  s <= s' < e' /\ e' <= e /\ (forall x, s' <= x < e' -> ~ avoided avoid x).
Proof.
  unfold avoid_wf, avoided.
  intros W; revert s e; induction W as [|a avoid (Ha & Hb) W IH]; intros s e Hse He; simpl.
  - intros [= -> ->]. repeat split; try lia. intros x Hx HE. inversion HE.
  - zcase; [lia|]. pose proof (fix_size_spec s e (a_start a) (a_end a)) as F.
    destruct (fix_size _ _ _ _) as [[s1 e1]|]; [|done].
    intros HA. destruct F as (F1 & F2 & F3 & F4); try lia.
    apply IH in HA as (G1 & G2 & G3); try lia.
    repeat split; try lia. intros x Hx HE.
    inversion HE; subst; [eapply F3; [|eassumption]; lia|eapply G3; eauto].
Qed.

(** ** find_ram_in_range *)
Definition range_free (ram : list ram_entry) (avoid : list avoid_entry) (a n : Z) : Prop :=
  forall x, a <= x < a + n -> covers ram x /\ ~ avoided avoid x.

Lemma range_free_cons r ram avoid a n :
  range_free ram avoid a n -> range_free (r :: ram) avoid a n.
Proof. intros F x Hx. destruct (F x Hx); simpl; auto. Qed.

Lemma range_free_entry r ram avoid s e a n :
  avoid_wf avoid -> 0 <= r_addr r -> 0 < r_size r -> r_addr r + r_size r <= PA_LIMIT ->
  fix_avoids avoid (r_addr r) (u64 (r_addr r + r_size r)) = Some (s, e) ->
  s <= a -> a + n <= e -> range_free (r :: ram) avoid a n.
Proof.
  intros W H1 H2 H3 HF Hs He x Hx. unfold PA_LIMIT in *. width_simpl_in HF.
  apply fix_avoids_spec in HF as (G1 & G2 & G3); try (unfold PA_LIMIT; lia); [|done].
  split; [left; unfold in_entry; lia|]. apply G3. lia.
Qed.

Lemma candidate_addr_spec rs align s :
  pow2_align align -> 0 <= s <= PA_LIMIT ->
  let a := candidate_addr rs align 0 0 s in
  s <= a /\ (rs <> 0 -> rs <= a) /\ (rs = 0 -> a mod align = 0).
Proof.
  intros Ha Hs a. subst a. unfold candidate_addr. rewrite Z.land_0_r. simpl.
  destruct (ROUND_spec s align) as [R1 R2]; [done..|].
  destruct (rs =? 0) eqn:E; zbool; [repeat split; lia|]. zcase; repeat split; lia.
Qed.

Lemma find_ram_in_range_spec ram avoid lo rs re size align a :
  wf_from lo ram -> -1 <= lo -> avoid_wf avoid -> pow2_align align -> 0 <= size -> 0 <= re ->
  find_ram_in_range ram avoid rs re size align 0 0 = a -> a <> NULL_PADDR ->
  range_free ram avoid a size /\ (rs <> 0 -> rs <= a) /\ (re <> 0 -> a + size <= re)
  /\ (rs = 0 -> a mod align = 0) /\ lo < a.
Proof.
  intros W Hlo AW Hal Hsz Hre <-. revert lo W Hlo.
  induction ram as [|r ram IH]; intros lo W Hlo HN; simpl in *; [done|].
  destruct W as (W1 & W2 & W3 & W4).
  specialize (IH _ W4 ltac:(lia)).
  assert (Next : forall a, a <> NULL_PADDR -> find_ram_in_range ram avoid rs re size align 0 0 = a ->
    range_free (r :: ram) avoid a size /\ (rs <> 0 -> rs <= a) /\ (re <> 0 -> a + size <= re)
    /\ (rs = 0 -> a mod align = 0) /\ lo < a).
  { intros b Hb E. rewrite E in IH. destruct (IH Hb) as (I1 & I2 & I3 & I4 & I5).
    split_and!; auto using range_free_cons; lia. }
  clear IH. destruct (fix_avoids _ _ _) as [[s e]|] eqn:HF; [|by apply Next].
  assert (HF' := HF). unfold PA_LIMIT in *. width_simpl_in HF'.
  apply fix_avoids_spec in HF' as (G1 & G2 & G3); unfold PA_LIMIT; try lia; [|done].
  destruct (candidate_addr_spec rs align s Hal) as (C1 & C2 & C3); unfold PA_LIMIT; [lia|].
  set (b := candidate_addr rs align 0 0 s) in *. clearbody b.
  set (e' := if re =? 0 then _ else _) in *.
  assert (He' : e' <= e /\ (re <> 0 -> e' <= re))
    by (unfold e'; destruct (re =? 0) eqn:E0; zbool; [lia|zcase; lia]).
  clearbody e'. revert HN. zcase; [intros; by apply Next|]. zcase; [|intros; by apply Next].
  intros _. width_simpl_in E0. split_and!; auto; try lia.
  - eapply range_free_entry; unfold PA_LIMIT; eauto; lia.
Qed.

(** ** find_top_ram_aligned_limit *)

(** The address one block offers: the top of what the avoid list leaves. *)
Definition top_candidate (avoid : list avoid_entry) (size align : Z) (r : ram_entry)
    : option Z :=
  match fix_avoids avoid (r_addr r) (u64 (r_addr r + r_size r)) with
  | None => None
  | Some (s, e) =>
      if size <=? u64 (e - s) then
        let chk := if align =? 0 then u64 (e - size) else TRUNC (u64 (e - size)) align in
        if s <=? chk then Some chk else None
      else None
  end.

Definition opt_align (align : Z) : Prop := align = 0 \/ pow2_align align.

Lemma top_candidate_spec avoid size align r c :
  avoid_wf avoid -> opt_align align -> 0 < size ->
  0 <= r_addr r -> 0 < r_size r -> r_addr r + r_size r <= PA_LIMIT ->
  top_candidate avoid size align r = Some c ->
  exists s e, fix_avoids avoid (r_addr r) (u64 (r_addr r + r_size r)) = Some (s, e) /\
    r_addr r <= s <= c /\ c + size <= e /\ e <= PA_LIMIT /\ (align <> 0 -> c mod align = 0).
Proof.
  intros AW Hal Hsz H1 H2 H3. unfold top_candidate.
  destruct (fix_avoids _ _ _) as [[s e]|] eqn:HF; [|done].
  assert (HF' := HF). unfold PA_LIMIT in *. width_simpl_in HF'.
  apply fix_avoids_spec in HF' as (G1 & G2 & G3); unfold PA_LIMIT; try lia; [|done].
  zcase; [|done]. width_simpl_all.
  destruct (align =? 0) eqn:E0; zbool.
  - zcase; [|done]. intros [= <-]. exists s, e. split_and!; auto; lia.
  - destruct Hal as [?|Hal]; [done|]. rewrite TRUNC_spec by (auto; lia).
    pose proof (pow2_align_bounds _ Hal). pose proof (Z.mod_pos_bound (e - size) align).
    zcase; [|done]. intros [= <-]. exists s, e. split_and!; auto; try lia.
    intros _. by rewrite Zminus_mod_idemp_r, Z.sub_diag.
Qed.

(** One block of the search, by what it offers. *)
Lemma find_top_loop_cons avoid size align limit top r ram :
  find_top_loop avoid size align limit top (r :: ram) =
  match top_candidate avoid size align r with
  | Some chk =>
      if top <? chk then
        if limit <=? u64 (chk + size) then
          match fix_avoids avoid (r_addr r) (u64 (r_addr r + r_size r)) with
          | Some (s, _) => if u64 (limit - size) <? s then top else u64 (limit - size)
          | None => top
          end
        else find_top_loop avoid size align limit chk ram
      else find_top_loop avoid size align limit top ram
  | None => find_top_loop avoid size align limit top ram
  end.
Proof.
  simpl. unfold top_candidate. destruct (fix_avoids _ _ _) as [[s e]|]; [|done].
  repeat (zcase; try done).
Qed.

(** Whatever the limit, the result is free RAM that ends by the limit; its
    alignment is lost only when the limit cut the block short. *)
Lemma find_top_loop_sound avoid size align limit lo top ram t :
  wf_from lo ram -> -1 <= lo -> avoid_wf avoid -> opt_align align -> 0 < size <= limit ->
  limit <= NULL_PADDR -> find_top_loop avoid size align limit top ram = t ->
  t = top \/ (range_free ram avoid t size /\ t + size <= limit
              /\ (t = limit - size \/ (align <> 0 -> t mod align = 0))).
Proof.
  intros W Hlo AW Hal Hsz Hlim <-. revert lo top W Hlo.
  induction ram as [|r ram IH]; intros lo top W Hlo; [auto|].
  destruct W as (W1 & W2 & W3 & W4). rewrite find_top_loop_cons.
  assert (IH' := fun top => IH (r_addr r + r_size r) top W4 ltac:(lia)). clear IH.
  assert (Next : find_top_loop avoid size align limit top ram = top \/
    (range_free (r :: ram) avoid (find_top_loop avoid size align limit top ram) size /\
     find_top_loop avoid size align limit top ram + size <= limit /\
     (find_top_loop avoid size align limit top ram = limit - size \/
      (align <> 0 -> find_top_loop avoid size align limit top ram mod align = 0)))).
  { destruct (IH' top) as [?|(? & ? & ?)]; auto using range_free_cons. }
  destruct (top_candidate _ _ _ _) as [c|] eqn:HC; [|done].
  apply top_candidate_spec in HC as (s & e & HF & H1 & H2 & H3 & H4); auto; try lia.
  rewrite HF. unfold PA_LIMIT, NULL_PADDR in *. width_simpl.
  zcase; [|done]. zcase.
  - zcase; [auto|]. right. split_and!; auto; try lia.
    eapply range_free_entry; unfold PA_LIMIT; eauto; lia.
  - right. destruct (IH' c) as [Hc|(? & ? & ?)].
    + rewrite Hc. split_and!; auto; try lia.
      eapply range_free_entry; unfold PA_LIMIT; eauto; lia.
    + auto using range_free_cons.
Qed.

(** With a limit no block reaches, the result is the highest offer. *)
Lemma find_top_loop_highest avoid size align limit lo top ram :
  wf_from lo ram -> -1 <= lo -> avoid_wf avoid -> opt_align align -> 0 < size ->
  PA_LIMIT < limit ->
  let t := find_top_loop avoid size align limit top ram in
  top <= t /\ (forall r c, r ∈ ram -> top_candidate avoid size align r = Some c -> c <= t).
Proof.
  intros W Hlo AW Hal Hsz Hlim. revert lo top W Hlo.
  induction ram as [|r ram IH]; intros lo top W Hlo t; subst t.
  { split; [simpl; lia|]. intros r c Hr. inversion Hr. }
  destruct W as (W1 & W2 & W3 & W4). rewrite find_top_loop_cons.
  assert (IH' := fun top => IH (r_addr r + r_size r) top W4 ltac:(lia)). clear IH. simpl in IH'.
  setoid_rewrite elem_of_cons.
  destruct (top_candidate _ _ _ r) as [c|] eqn:HC.
  - assert (HC' := HC).
    apply top_candidate_spec in HC' as (s & e & HF & H1 & H2 & H3 & H4); auto; try lia.
    unfold PA_LIMIT in *. width_simpl. zcase; [zcase; [lia|]|].
    + destruct (IH' c) as [I1 I2]. split; [lia|]. intros r' c' [->|?] ?; eauto.
      assert (c' = c) by congruence. lia.
    + destruct (IH' top) as [I1 I2]. split; [lia|]. intros r' c' [->|?] ?; eauto.
      assert (c' = c) by congruence. lia.
  - destruct (IH' top) as [I1 I2]. split; [lia|]. intros r' c' [->|?] ?; [congruence|eauto].
Qed.

(** ** alloc_ram's loop *)
Lemma lookup_middle {A} (l1 : list A) x l2 : (l1 ++ x :: l2) !! length l1 = Some x.
Proof. rewrite lookup_app_r, Nat.sub_diag by lia. done. Qed.

Lemma insert_middle {A} (l1 : list A) x y l2 :
  <[length l1 := y]> (l1 ++ x :: l2) = l1 ++ y :: l2.
Proof. rewrite insert_app_r_alt, Nat.sub_diag by lia. done. Qed.

Lemma delete_middle' {A} (l1 : list A) x l2 : delete (length l1) (l1 ++ x :: l2) = l1 ++ l2.
Proof. apply delete_middle. Qed.

Definition clear_of (addr fin : Z) (r : ram_entry) : Prop :=
  r_addr r + r_size r <= addr \/ fin <= r_addr r.

(** Entries clear of the range are left as they are (an entry that starts at
    its end is rewritten to itself). *)
Lemma alloc_loop_clear fuel done_ rest addr fin :
  addr <= fin -> wf_from (-1) (done_ ++ rest) -> Forall (clear_of addr fin) rest ->
  (length rest < fuel)%nat ->
  alloc_loop fuel (length done_) addr fin (done_ ++ rest) = Ok (done_ ++ rest).
Proof.
  intros Hle. revert done_ rest; induction fuel as [|fuel IH]; intros done_ rest W HC Hf; [lia|].
  simpl. destruct rest as [|r rest].
  { rewrite app_nil_r, lookup_ge_None_2; done. }
  rewrite lookup_middle. inversion HC as [|? ? Hr HC']; subst.
  destruct (wf_from_elem _ _ r W) as (H1 & H2 & H3).
  { rewrite elem_of_app, elem_of_cons. auto. }
  assert (Step : alloc_loop fuel (S (length done_)) addr fin (done_ ++ r :: rest) =
                 Ok (done_ ++ r :: rest)).
  { specialize (IH (done_ ++ [r]) rest). rewrite length_app in IH. simpl in IH.
    rewrite Nat.add_1_r, <- app_assoc in IH. simpl in IH. apply IH; auto. simpl in Hf. lia. }
  unfold PA_LIMIT, clear_of in *. width_simpl.
  destruct ((addr <=? r_addr r) && (r_addr r <? fin)
    || (r_addr r <=? addr) && (addr <? r_addr r + r_size r)
    || (r_addr r <=? fin) && (fin <? r_addr r + r_size r)) eqn:Cond; [|done].
  assert (fin = r_addr r) as Hfin.
  { destruct (Z.eq_dec fin (r_addr r)); [done|exfalso].
    rewrite !orb_true_iff, !andb_true_iff in Cond. rewrite !Z.leb_le, !Z.ltb_lt in Cond. lia. }
  assert (E1 : (r_addr r + r_size r <? fin) = false) by (apply Z.ltb_ge; lia). rewrite E1.
  assert (E2 : (if addr <? r_addr r then addr else r_addr r) = addr) by (zcase; lia). rewrite E2.
  rewrite Z.eqb_refl. assert (E3 : (fin =? r_addr r + r_size r) = false) by (apply Z.eqb_neq; lia).
  rewrite E3. simpl. width_simpl.
  rewrite insert_middle.
  assert (RamEntry fin (r_addr r + r_size r - fin) = r) as ->; [|done].
  destruct r as [a n]; simpl in *. f_equal; lia.
Qed.

(** Rounds still to come for a list of entries: a split costs one more. *)
Definition splittable (addr fin : Z) (r : ram_entry) : bool :=
  (r_addr r <? addr) && (fin <? r_addr r + r_size r).

Fixpoint rounds (addr fin : Z) (ram : list ram_entry) : nat :=
  match ram with
  | [] => 0
  | r :: rest => (if splittable addr fin r then 2 else 1) + rounds addr fin rest
  end.

Lemma rounds_bound addr fin ram : (rounds addr fin ram <= 2 * length ram)%nat.
Proof. induction ram as [|r ram IH]; simpl; [lia|]. destruct (splittable _ _ _); lia. Qed.

Lemma rounds_length addr fin ram : (length ram <= rounds addr fin ram)%nat.
Proof. induction ram as [|r ram IH]; simpl; [lia|]. destruct (splittable _ _ _); lia. Qed.

(** The contract of the loop: set difference, or the overflow crash. *)
Definition alloc_post (addr fin : Z) (ram : list ram_entry) (out : res (list ram_entry)) : Prop :=
  match out with
  | Ok ram' => ram_wf ram' /\
      (forall x, covers ram' x <-> covers ram x /\ ~ addr <= x < fin)
  | Crash m => m = overflow_msg /\ (191 <= length ram)%nat
  end.

Lemma alloc_loop_clear_at fuel i addr fin ram :
  addr <= fin -> ram_wf ram -> Forall (clear_of addr fin) (drop i ram) ->
  (length ram - i < fuel)%nat -> alloc_loop fuel i addr fin ram = Ok ram.
Proof.
  intros Hle W HC Hf. destruct (decide (i <= length ram)%nat) as [Hi|Hi].
  - pose proof (alloc_loop_clear fuel (take i ram) (drop i ram) addr fin) as L.
    rewrite take_drop, length_take_le, length_drop in L by done. apply L; auto.
  - destruct fuel; [lia|]. simpl. rewrite lookup_ge_None_2 by lia. done.
Qed.

Lemma length_insert_entry n ram : length (insert_entry n ram) = S (length ram).
Proof. induction ram as [|r ram IH]; simpl; [done|]. zcase; simpl; lia. Qed.

Lemma length_merge_from prev ram : (length (merge_from prev ram) <= S (length ram))%nat.
Proof.
  revert prev; induction ram as [|r ram IH]; intros prev; simpl; [done|].
  zcase; simpl; [etrans; [apply IH|lia]|]. apply le_n_S, IH.
Qed.

Lemma length_add_mem start size ram ram' :
  add_mem start size ram = Ok ram' -> (length ram' <= S (length ram))%nat.
Proof.
  unfold add_mem. destruct (0 <? size); [|intros [= <-]; lia].
  destruct (_ <? _); [done|]. intros [= <-].
  pose proof (length_insert_entry (RamEntry start size) ram) as L.
  destruct (insert_entry _ ram) as [|r l]; simpl in *; [lia|].
  etrans; [apply length_merge_from|]. lia.
Qed.

Lemma alloc_post_ext addr fin ram1 ram2 out :
  (forall x, ~ addr <= x < fin -> covers ram1 x <-> covers ram2 x) ->
  (length ram1 <= length ram2)%nat ->
  alloc_post addr fin ram1 out -> alloc_post addr fin ram2 out.
Proof.
  intros HC HL. destruct out as [l|m]; simpl; [|intuition lia].
  intros [W C]. split; [done|]. intros x. rewrite C.
  destruct (decide (addr <= x < fin)); [tauto|]. rewrite HC by done. tauto.
Qed.

(** Splitting one entry around the range: the rest of the loop changes nothing. *)
Lemma alloc_split fuel done_ r rest addr fin :
  ram_wf (done_ ++ r :: rest) -> Forall (clear_of addr fin) done_ ->
  r_addr r < addr <= fin -> fin < r_addr r + r_size r -> (S (length rest) < fuel)%nat ->
  let ram := done_ ++ RamEntry (r_addr r) (addr - r_addr r) :: rest in
  alloc_post addr fin (done_ ++ r :: rest)
    (let! ram := add_mem fin (r_addr r + r_size r - fin) ram in
     alloc_loop fuel (S (length done_)) addr fin ram).
Proof.
  intros W HD Hr Hfin Hf ram. assert (W' := W). unfold ram_wf in W'.
  destruct (wf_from_split _ _ _ _ W') as [_ SR].
  destruct (wf_from_elem _ _ r W') as (H1 & H2 & H3); [rewrite elem_of_app, elem_of_cons; auto|].
  assert (Wram : ram_wf ram).
  { unfold ram_wf, ram in *. rewrite wf_from_app in W' |- *. destruct W' as [WD WR].
    split; [done|]. simpl in *. destruct WR as (? & ? & ? & WR). split_and!; try lia.
    eapply wf_from_weaken; [|exact WR]. lia. }
  pose proof (add_mem_spec fin (r_addr r + r_size r - fin) ram) as A.
  destruct (add_mem _ _ ram) as [l2|m] eqn:EA; simpl.
  2: { destruct A as [-> A]; auto; try lia. split; [done|]. unfold ram in A.
       rewrite length_app in A |- *. simpl in *. lia. }
  destruct A as [W2 C2]; auto; try lia.
  assert (C2' : forall x, covers l2 x <-> covers (done_ ++ r :: rest) x /\ ~ addr <= x < fin).
  { intros x. rewrite C2. unfold ram. rewrite !covers_app. simpl. unfold in_entry; simpl.
    assert (covers done_ x -> ~ addr <= x < fin).
    { rewrite covers_elem. unfold in_entry. intros (q & Hq & ?).
      rewrite Forall_forall in HD. specialize (HD _ Hq). unfold clear_of in HD. lia. }
    assert (covers rest x -> r_addr r + r_size r <= x).
    { rewrite covers_elem. unfold in_entry. intros (q & Hq & ?).
      rewrite Forall_forall in SR. specialize (SR _ Hq). lia. }
    destruct (Z_lt_dec x (r_addr r + r_size r)), (Z_le_dec (r_addr r) x); intuition lia. }
  rewrite alloc_loop_clear_at; [done|lia|done| |].
  - destruct (decide (addr = fin)) as [->|Hne].
    + assert (l2 = done_ ++ r :: rest) as ->.
      { apply (wf_from_canonical (-1) (-1)); auto. intros x. rewrite C2'. intuition lia. }
      rewrite <- (Nat.add_1_r (length done_)), <- drop_drop, drop_app_length.
      simpl. rewrite drop_0. eapply Forall_impl; [exact SR|]. intros q Hq. simpl in Hq.
      right. lia.
    + apply Forall_forall. intros q Hq.
      assert (Hj : q ∈ l2) by (rewrite <- (take_drop (S (length done_)) l2), elem_of_app; auto).
      destruct (wf_from_elem _ _ q W2 Hj) as (Q1 & Q2 & Q3).
      destruct (decide (clear_of addr fin q)) as [?|HN]; [done|exfalso].
      unfold clear_of in HN. apply (C2' (Z.max (r_addr q) addr)); [|lia].
      apply covers_elem. exists q. split; [done|]. unfold in_entry. lia.
  - apply length_add_mem in EA. unfold ram in EA. rewrite length_app in EA. simpl in EA. lia.
Qed.

Lemma alloc_loop_spec fuel done_ rest addr fin :
  0 <= addr <= fin -> fin <= PA_LIMIT -> ram_wf (done_ ++ rest) ->
  Forall (clear_of addr fin) done_ -> (rounds addr fin rest < fuel)%nat ->
  alloc_post addr fin (done_ ++ rest)
    (alloc_loop fuel (length done_) addr fin (done_ ++ rest)).
Proof.
  intros Ha Hfin. revert done_ rest; induction fuel as [|fuel IH]; intros done_ rest W HD Hf; [lia|].
  destruct rest as [|r rest].
  { simpl. rewrite app_nil_r in *. rewrite lookup_ge_None_2 by done. split; [done|].
    intros x. split; [|tauto]. intros HC. split; [done|]. apply covers_elem in HC as (q & Hq & HC).
    rewrite Forall_forall in HD. specialize (HD _ Hq). unfold in_entry, clear_of in *. lia. }
  assert (Step : forall r', ram_wf (done_ ++ r' :: rest) -> clear_of addr fin r' ->
    (forall x, ~ addr <= x < fin -> in_entry r' x <-> in_entry r x) ->
    alloc_post addr fin (done_ ++ r :: rest)
      (alloc_loop fuel (S (length done_)) addr fin (done_ ++ r' :: rest))).
  { intros r' W' HC' HE. specialize (IH (done_ ++ [r']) rest).
    rewrite length_app, Nat.add_1_r, <- app_assoc in IH. simpl in IH.
    eapply alloc_post_ext; [| |apply IH]; auto.
    - intros x Hx. rewrite !covers_app. simpl. rewrite HE by done. tauto.
    - rewrite !length_app. simpl. lia.
    - apply Forall_app; auto.
    - simpl in Hf. destruct (splittable _ _ _); lia. }
  simpl. rewrite lookup_middle. assert (W' := W). unfold ram_wf in W'.
  destruct (wf_from_elem _ _ r W') as (H1 & H2 & H3); [rewrite elem_of_app, elem_of_cons; auto|].
  rewrite wf_from_app in W'. destruct W' as [WD WR]. destruct WR as (R1 & R2 & R3 & WR).
  set (lo := fold_left _ _ _) in *.
  unfold PA_LIMIT in *. width_simpl.
  destruct ((addr <=? r_addr r) && (r_addr r <? fin)
    || (r_addr r <=? addr) && (addr <? r_addr r + r_size r)
    || (r_addr r <=? fin) && (fin <? r_addr r + r_size r)) eqn:Cond.
  2: { apply Step; [done| |done]. unfold clear_of.
       rewrite !orb_false_iff, !andb_false_iff in Cond. rewrite !Z.leb_gt, !Z.ltb_ge in Cond. lia. }
  rewrite !orb_true_iff, !andb_true_iff in Cond. rewrite !Z.leb_le, !Z.ltb_lt in Cond.
  rewrite insert_middle, !insert_middle, delete_middle.
  assert (Ee : (if r_addr r + r_size r <? fin then fin else r_addr r + r_size r) =
               Z.max (r_addr r + r_size r) fin) by (zcase; lia). rewrite Ee.
  assert (Es : (if addr <? r_addr r then addr else r_addr r) = Z.min (r_addr r) addr)
    by (zcase; lia). rewrite Es.
  destruct (addr =? Z.min (r_addr r) addr) eqn:EA; zbool; simpl.
  - destruct (fin =? Z.max (r_addr r + r_size r) fin) eqn:EF; zbool; simpl.
    + eapply alloc_post_ext; [| |apply IH]; auto.
      * intros x Hx. rewrite !covers_app. simpl. unfold in_entry. intuition lia.
      * rewrite !length_app. simpl. lia.
      * unfold ram_wf. apply wf_from_app. split; [done|].
        eapply wf_from_weaken; [|exact WR]. lia.
      * simpl in Hf. destruct (splittable _ _ _); lia.
    + width_simpl. apply Step.
      * unfold ram_wf. apply wf_from_app. split; [done|]. simpl. unfold PA_LIMIT.
        split_and!; try (fold lo; lia). eapply wf_from_weaken; [|exact WR]. lia.
      * right. simpl. lia.
      * intros x Hx. unfold in_entry; simpl. lia.
  - width_simpl. assert (Z.min (r_addr r) addr = r_addr r) as -> by lia.
    destruct (Z.max (r_addr r + r_size r) fin =? fin) eqn:EF; zbool.
    + apply Step.
      * unfold ram_wf. apply wf_from_app. split; [done|]. simpl. unfold PA_LIMIT.
        split_and!; try (fold lo; lia). eapply wf_from_weaken; [|exact WR]. lia.
      * left. simpl. lia.
      * intros x Hx. unfold in_entry; simpl. lia.
    + assert (Z.max (r_addr r + r_size r) fin = r_addr r + r_size r) as -> by lia.
      width_simpl. apply alloc_split; auto; try lia.
      simpl in Hf. unfold splittable in Hf.
      assert (X : (r_addr r <? addr) && (fin <? r_addr r + r_size r) = true).
      { apply andb_true_iff. rewrite !Z.ltb_lt. lia. }
      rewrite X in Hf. pose proof (rounds_length addr fin rest). lia.
Qed.

(** ** Bounds shared by the theorems *)
Lemma alloc_mem_spec addr size ram :
  0 <= addr -> 0 <= size -> addr + size <= PA_LIMIT -> ram_wf ram ->
  alloc_post addr (addr + size) ram (alloc_mem addr size ram).
Proof.
  intros Ha Hs Hm W. unfold alloc_mem, PA_LIMIT in *. width_simpl.
  pose proof (rounds_bound addr (addr + size) ram).
  apply (alloc_loop_spec _ [] ram); unfold PA_LIMIT, alloc_fuel; auto; lia.
Qed.

(** find_ram finds a block whenever one is left with room for an aligned
    address and the size. *)
Lemma find_ram_in_range_none ram avoid lo size align r s e :
  wf_from lo ram -> -1 <= lo -> avoid_wf avoid -> pow2_align align -> 0 < size ->
  find_ram_in_range ram avoid 0 NULL_PADDR size align 0 0 = NULL_PADDR ->
  r ∈ ram -> fix_avoids avoid (r_addr r) (u64 (r_addr r + r_size r)) = Some (s, e) ->
  e < ROUND s align + size.
Proof.
  intros W Hlo AW Hal Hsz. revert lo W Hlo; induction ram as [|r0 ram IH]; intros lo W Hlo.
  { intros _ Hr. inversion Hr. }
  destruct W as (W1 & W2 & W3 & W4). rewrite elem_of_cons. simpl.
  set (next := find_ram_in_range ram _ _ _ _ _ _ _) in *.
  intros Hnone [->|Hr] HF.
  - rewrite HF in Hnone. assert (HF' := HF). unfold PA_LIMIT in *. width_simpl_in HF'.
    apply fix_avoids_spec in HF' as (G1 & G2 & _); unfold PA_LIMIT; try lia; [|done].
    unfold candidate_addr in Hnone. rewrite Z.land_0_r in Hnone. simpl in Hnone.
    destruct (ROUND_spec s align) as [R1 R2]; [lia|done|].
    pose proof (pow2_align_bounds _ Hal). unfold NULL_PADDR in *.
    destruct (18446744073709551615 <? e) eqn:E0; zbool; [lia|].
    destruct (e <=? ROUND s align) eqn:E1; zbool; [lia|]. width_simpl_in Hnone.
    destruct (size <=? e - ROUND s align) eqn:E2; zbool; lia.
  - assert (Hn : next = NULL_PADDR).
    { destruct (fix_avoids _ (r_addr r0) _) as [[s0 e0]|] eqn:HF0; [|done].
      width_simpl_in HF0. revert Hnone. assert (HF' := HF0). unfold PA_LIMIT in *. width_simpl_in HF'.
      apply fix_avoids_spec in HF' as (G1 & G2 & _); unfold PA_LIMIT; try lia; [|done].
      destruct (NULL_PADDR <? e0) eqn:E0; zbool; [unfold NULL_PADDR in *; lia|].
      destruct (candidate_addr 0 align 0 0 s0 =? NULL_PADDR) eqn:EC; zbool.
      - rewrite EC. zcase; [done|]. unfold NULL_PADDR in *. lia.
      - repeat zcase; congruence. }
    exact (IH _ W4 ltac:(lia) Hn Hr HF).
Qed.

(** ** Theorems *)

(** C5 (add_mem is union) Adding a range to a well-formed list gives a
    well-formed list (sorted, non-empty entries, gaps between them) that
    covers exactly the old addresses and the new range; the only other
    outcome is the overflow crash, and that needs 191 entries. *)
Theorem add_mem_union (start size : Z) (ram : list ram_entry) :
  0 <= start -> 0 <= size -> start + size <= PA_LIMIT -> ram_wf ram ->
  match add_mem start size ram with
  | Ok ram' => ram_wf ram' /\
      (forall x, covers ram' x <-> covers ram x \/ start <= x < start + size)
  | Crash m => m = overflow_msg /\ (191 <= length ram)%nat
  end.
Proof.
  intros. pose proof (add_mem_spec start size ram) as A.
  destruct (add_mem start size ram); [by apply A|]. destruct A; auto. split; [done|lia].
Qed.

(** The order of add_mem calls does not matter: two ranges give the same
    list in either order. *)
Theorem add_mem_order (s1 n1 s2 n2 : Z) (ram a b : list ram_entry) :
  0 <= s1 -> 0 <= n1 -> s1 + n1 <= PA_LIMIT -> 0 <= s2 -> 0 <= n2 -> s2 + n2 <= PA_LIMIT ->
  ram_wf ram ->
  (let! r := add_mem s1 n1 ram in add_mem s2 n2 r) = Ok a ->
  (let! r := add_mem s2 n2 ram in add_mem s1 n1 r) = Ok b -> a = b.
Proof.
  intros A1 B1 C1 A2 B2 C2 W HA HB.
  apply res_bind_Ok in HA as (ra & Ea & HA). apply res_bind_Ok in HB as (rb & Eb & HB).
  pose proof (add_mem_spec s1 n1 ram A1 B1 C1 W) as S1. rewrite Ea in S1.
  destruct S1 as [Wa Ca]. pose proof (add_mem_spec s2 n2 ra A2 B2 C2 Wa) as S2.
  rewrite HA in S2. destruct S2 as [W2 C2'].
  pose proof (add_mem_spec s2 n2 ram A2 B2 C2 W) as S3. rewrite Eb in S3.
  destruct S3 as [Wb Cb]. pose proof (add_mem_spec s1 n1 rb A1 B1 C1 Wb) as S4.
  rewrite HB in S4. destruct S4 as [W4 C4].
  apply (wf_from_canonical (-1) (-1)); auto. intros x. rewrite C2', Ca, C4, Cb. tauto.
Qed.

(** C12 (alloc_ram's loop is set difference) Taking [[addr, addr + size)] out
    of a well-formed list ends, keeps it well-formed and removes exactly
    those addresses, whatever part of the range was free; the only other
    outcome is the overflow crash of a split, which needs 191 entries. *)
Theorem alloc_mem_difference (addr size : Z) (ram : list ram_entry) :
  0 <= addr -> 0 <= size -> addr + size <= PA_LIMIT -> ram_wf ram ->
  match alloc_mem addr size ram with
  | Ok ram' => ram_wf ram' /\
      (forall x, covers ram' x <-> covers ram x /\ ~ addr <= x < addr + size)
  | Crash m => m = overflow_msg /\ (191 <= length ram)%nat
  end.
Proof. apply alloc_mem_spec. Qed.

(** Allocate, then give back. Adding back a range that was free before
    it was taken restores the list itself. *)
Theorem alloc_add_roundtrip (addr size : Z) (ram ram1 ram2 : list ram_entry) :
  0 <= addr -> 0 <= size -> addr + size <= PA_LIMIT -> ram_wf ram ->
  (forall x, addr <= x < addr + size -> covers ram x) ->
  alloc_mem addr size ram = Ok ram1 -> add_mem addr size ram1 = Ok ram2 -> ram2 = ram.
Proof.
  intros Ha Hs Hm W HC H1 H2.
  pose proof (alloc_mem_spec addr size ram Ha Hs Hm W) as A. rewrite H1 in A. destruct A as [W1 C1].
  pose proof (add_mem_spec addr size ram1 Ha Hs Hm W1) as B. rewrite H2 in B. destruct B as [W2 C2].
  apply (wf_from_canonical (-1) (-1)); auto. intros x. rewrite C2, C1.
  destruct (Z_le_dec addr x), (Z_lt_dec x (addr + size)); intuition auto with lia.
Qed.

(** Find_ram. Without a colour constraint the search returns an aligned
    address whose [size] bytes are all free RAM and outside the avoid list;
    it gives up only when no block, once the avoid list is taken out of it,
    has room for the size at an aligned address. *)
Theorem find_ram_first_fit (ram : list ram_entry) (avoid : list avoid_entry) (size align : Z) :
  ram_wf ram -> avoid_wf avoid -> pow2_align align -> 0 < size ->
  let a := find_ram ram avoid size align 0 0 in
  (a <> NULL_PADDR -> range_free ram avoid a size /\ a mod align = 0 /\ 0 <= a) /\
  (a = NULL_PADDR -> forall r s e, r ∈ ram ->
     fix_avoids avoid (r_addr r) (u64 (r_addr r + r_size r)) = Some (s, e) ->
     e < ROUND s align + size).
Proof.
  intros W AW Hal Hsz a. split; intros Ha.
  - destruct (find_ram_in_range_spec ram avoid (-1) 0 NULL_PADDR size align a) as
      (F & _ & _ & A & L); auto; try (unfold NULL_PADDR; lia). split; [done|]. split; [auto|lia].
  - intros r s e. by apply (find_ram_in_range_none ram avoid (-1)).
Qed.

(** From the top. The search from the top returns free RAM at the wanted
    alignment that ends inside the RAM, and no block offers a higher
    address; it gives up only when no block offers an address above zero. *)
Theorem find_top_ram_aligned_highest (ram : list ram_entry) (avoid : list avoid_entry)
    (size align pagesize : Z) :
  ram_wf ram -> avoid_wf avoid -> opt_align align -> pow2_align pagesize ->
  0 < size < PA_LIMIT ->
  let n := ROUND size pagesize in
  let t := find_top_ram_aligned ram avoid size align pagesize in
  (t <> NULL_PADDR -> range_free ram avoid t n /\ (align <> 0 -> t mod align = 0) /\
     forall r c, r ∈ ram -> top_candidate avoid n align r = Some c -> c <= t) /\
  (t = NULL_PADDR -> forall r c, r ∈ ram -> top_candidate avoid n align r = Some c -> c <= 0).
Proof.
  intros W AW Hal Hpg Hsz n t. pose proof (pow2_align_bounds _ Hpg).
  destruct (ROUND_spec size pagesize) as [_ R]; [unfold PA_LIMIT in *; lia|done|]. fold n in R.
  pose proof (find_top_loop_sound avoid n align NULL_PADDR (-1) 0 ram _ W ltac:(lia) AW Hal
    ltac:(unfold NULL_PADDR, PA_LIMIT in *; lia) ltac:(lia) eq_refl) as S.
  destruct (find_top_loop_highest avoid n align NULL_PADDR (-1) 0 ram) as [H0 HH]; auto;
    try (unfold NULL_PADDR, PA_LIMIT in *; lia).
  unfold t, find_top_ram_aligned, find_top_ram_aligned_limit. fold n.
  assert (E : (NULL_PADDR <? size) = false)
    by (apply Z.ltb_ge; unfold NULL_PADDR, PA_LIMIT in *; lia). rewrite E.
  set (top := find_top_loop _ _ _ _ _ _) in *. destruct (top =? 0) eqn:E0; zbool.
  - split; [done|]. intros _ r c Hr Hc. specialize (HH r c Hr Hc). lia.
  - split; [|intros Ht r c Hr Hc; exfalso].
    + intros _. destruct S as [?|(S1 & S2 & [S3|S3])]; [done| |auto].
      exfalso. unfold NULL_PADDR in *. destruct (S1 (top + n - 1) ltac:(lia)) as [C _].
      apply (wf_from_upper (-1)) in C; [|done]. unfold PA_LIMIT in *. lia.
    + destruct S as [?|(S1 & _)]; [done|]. destruct (S1 top ltac:(lia)) as [C _].
      apply (wf_from_upper (-1)) in C; [|done]. unfold NULL_PADDR, PA_LIMIT in *. lia.
Qed.

(** Avoid ranges leave the larger piece. One avoid range takes away a
    candidate only when it covers it; otherwise what is left lies inside the
    candidate, is clear of the avoid range, and is as long as the longer of
    the two pieces on its sides. *)
Theorem fix_size_larger_piece (s e as_ ae : Z) :
  0 <= s < e -> e <= PA_LIMIT -> 0 <= as_ -> 0 <= ae <= PA_LIMIT ->
  match fix_size s e as_ ae with
  | Some (s', e') =>
      s <= s' < e' /\ e' <= e /\ (forall x, s' <= x < e' -> ~ as_ <= x < ae) /\
      e' - s' = Z.max (Z.min e as_ - s) (e - Z.max s ae)
  | None => as_ <= s /\ e <= ae
  end.
Proof. apply fix_size_spec. Qed.

(** Page colours work only below 4 GiB. [~mask] is a 32-bit pattern, so a
    colour adjustment clears the upper half of the address: find_ram with a
    colour can return an address below the RAM it was given. *)
Theorem find_ram_colour_truncates :
  let ram := [RamEntry 4294967296 1073741824] in
  ram_wf ram /\ find_ram ram [] 4096 4096 4096 12288 = 20480 /\ ~ covers ram 20480.
Proof.
  split; [unfold ram_wf; simpl; unfold PA_LIMIT; lia|]. split; [by vm_compute|].
  unfold covers, in_entry; simpl. lia.
Qed.

(** ** The theorems at a board's memory map: RAM from 512 KiB and a block at
    1 GiB, with one avoided page. *)
Definition example_ram : list ram_entry :=
  [RamEntry 524288 1072693248; RamEntry 1073807360 1048576].
Definition example_avoid : list avoid_entry := [AvoidEntry 524288 528384].

Lemma example_ram_wf : ram_wf example_ram.
Proof. unfold ram_wf, example_ram, PA_LIMIT; simpl; unfold PA_LIMIT. lia. Qed.

Lemma example_avoid_wf : avoid_wf example_avoid.
Proof. repeat constructor; simpl; unfold PA_LIMIT; lia. Qed.

Lemma add_mem_union_witness :
  exists r, add_mem 1073741824 65536 example_ram = Ok r /\ ram_wf r /\ covers r 1073741824.
Proof.
  pose proof (add_mem_union 1073741824 65536 example_ram ltac:(lia) ltac:(lia)
    ltac:(unfold PA_LIMIT; lia) example_ram_wf) as A.
  destruct (add_mem 1073741824 65536 example_ram) as [r|m] eqn:E.
  - exists r. destruct A as [W C]. split; [reflexivity|]. split; [exact W|].
    rewrite C. lia.
  - exfalso. destruct A as [_ A]. simpl in A. lia.
Defined.

Lemma add_mem_order_witness :
  [RamEntry 524288 1074331648] = [RamEntry 524288 1074331648].
Proof.
  apply (add_mem_order 1073217536 524288 1073741824 65536 example_ram);
    [lia|lia|unfold PA_LIMIT; lia|lia|lia|unfold PA_LIMIT; lia|exact example_ram_wf| |];
    vm_compute; reflexivity.
Defined.

Lemma alloc_mem_difference_witness :
  exists r, alloc_mem 1048576 4096 example_ram = Ok r /\ ram_wf r /\ ~ covers r 1048576.
Proof.
  pose proof (alloc_mem_difference 1048576 4096 example_ram ltac:(lia) ltac:(lia)
    ltac:(unfold PA_LIMIT; lia) example_ram_wf) as A.
  destruct (alloc_mem 1048576 4096 example_ram) as [r|m] eqn:E.
  - exists r. destruct A as [W C]. split; [reflexivity|]. split; [exact W|].
    rewrite C. lia.
  - exfalso. destruct A as [_ A]. simpl in A. lia.
Defined.

Lemma alloc_add_roundtrip_witness : example_ram = example_ram.
Proof.
  apply (alloc_add_roundtrip 1048576 4096 example_ram
    [RamEntry 524288 524288; RamEntry 1052672 1072164864; RamEntry 1073807360 1048576]);
    [lia|lia|unfold PA_LIMIT; lia|exact example_ram_wf| | |].
  - intros x Hx. left. unfold in_entry; simpl. lia.
  - vm_compute; reflexivity.
  - vm_compute; reflexivity.
Defined.

Lemma find_ram_first_fit_witness :
  find_ram example_ram example_avoid 4096 8192 0 0 = 532480 /\
  range_free example_ram example_avoid 532480 4096.
Proof.
  destruct (find_ram_first_fit example_ram example_avoid 4096 8192 example_ram_wf
    example_avoid_wf) as [A _]; [exists 13; lia|lia|].
  assert (E : find_ram example_ram example_avoid 4096 8192 0 0 = 532480) by (vm_compute; reflexivity).
  split; [exact E|]. rewrite E in A. apply A. unfold NULL_PADDR. lia.
Defined.

Lemma find_top_ram_aligned_highest_witness :
  range_free example_ram example_avoid 1074851840 4096.
Proof.
  destruct (find_top_ram_aligned_highest example_ram example_avoid 100 4096 4096 example_ram_wf
    example_avoid_wf) as [A _]; [right; exists 12; lia|exists 12; lia|unfold PA_LIMIT; lia|].
  assert (E : find_top_ram_aligned example_ram example_avoid 100 4096 4096 = 1074851840)
    by (vm_compute; reflexivity).
  assert (R : ROUND 100 4096 = 4096) by (vm_compute; reflexivity).
  rewrite E, R in A. apply A. unfold NULL_PADDR. lia.
Defined.

Lemma fix_size_larger_piece_witness :
  fix_size 0 100 10 20 = Some (20, 100) /\ 100 - 20 = Z.max (Z.min 100 10 - 0) (100 - Z.max 0 20).
Proof.
  pose proof (fix_size_larger_piece 0 100 10 20 ltac:(lia) ltac:(unfold PA_LIMIT; lia) ltac:(lia)
    ltac:(unfold PA_LIMIT; lia)) as A.
  assert (E : fix_size 0 100 10 20 = Some (20, 100)) by reflexivity.
  rewrite E in A. destruct A as (_ & _ & _ & A). split; [exact E|exact A].
Defined.
