(* ===== verification/Syspage.v ===== *)
(** * The system page under construction (lib/syspage_memory.c)

    The page is one block of bytes that starts with the [syspage_entry]
    header and in which every section is a window [[s_p, s_p + s_size)].  A
    section grows in place: everything above its end moves up, and so do the
    pointers to what moved.  The bytes of the header itself are not given a
    meaning here, except its [total_size] and [size] fields, which are fields
    of the model; the section order is that of [struct local_syspage], with
    section 0 the header. *)
From S2P Require Import Prelude.

Definition byte := Ascii.ascii.
Definition NUL : byte := Ascii.zero.

Record section := Sect { s_p : Z; s_size : Z }.

(** [patch_data] of callouts.c: the registered owner addresses with their data. *)
Record syspage := Syspage {
  sp_mem : list byte;          (* the [total_size] bytes from [lsp.syspage.p] *)
  sp_total_size : Z;           (* lsp.syspage.p->total_size *)
  sp_max_size : Z;             (* lsp.syspage.p->size: the limit while building *)
  sp_sects : list section;     (* struct local_syspage *)
  sp_fixed_size : Z;           (* fixed_size *)
  sp_patch_data : list (Z * Z)
}.

Definition syspage_p (st : syspage) : Z :=
  match sp_sects st with s :: _ => s_p s | [] => 0 end.

(** callouts.c, callout_reloc_data: owners inside the moved block follow it. *)
Definition callout_reloc_data (base len diff : Z) (pd : list (Z * Z)) : list (Z * Z) :=
  map (fun '(owner, data) =>
         if (base <=? owner) && (owner <? base + len) then (owner + diff, data)
         else (owner, data)) pd.

Definition request_msg : string := "Syspage memory request exceeds maximum".

Definition grow_syspage_section (k : nat) (add : Z) (st : syspage) : res syspage :=
  if 0 <? add then
    match sp_sects st !! k with
    | None => Crash "not a section"
    | Some sect =>
        let add := u32 (ROUND add 8) in
        let new_size := u32 (sp_total_size st + add) in
        if sp_max_size st <? new_size then Crash request_msg
        else
          let bottom := s_p sect + s_size sect in
          let sects := imap (fun j s =>
            if bool_decide (j <> k) && (bottom <=? s_p s) then Sect (s_p s + add) (s_size s)
            else s) (sp_sects st) in
          let off := bottom - syspage_p st in
          let len := sp_total_size st - off in
          Ok {| sp_mem := take (Z.to_nat off) (sp_mem st) ++ replicate (Z.to_nat add) NUL
                          ++ drop (Z.to_nat off) (sp_mem st);
                sp_total_size := new_size;
                sp_max_size := sp_max_size st;
                sp_sects := <[k := Sect (s_p sect) (s_size sect + add)]> sects;
                sp_fixed_size := sp_fixed_size st;
                sp_patch_data := callout_reloc_data bottom len add (sp_patch_data st) |}
    end
  else Ok st.

Definition set_syspage_section (k : nat) (size : Z) (st : syspage) : res syspage :=
  match sp_sects st !! k with
  | None => Crash "not a section"
  | Some sect =>
      let size := u32 (ROUND size 8) in
      grow_syspage_section k size
        {| sp_mem := sp_mem st; sp_total_size := sp_total_size st;
           sp_max_size := sp_max_size st;
           sp_sects := <[k := Sect (syspage_p st + sp_fixed_size st) (s_size sect)]> (sp_sects st);
           sp_fixed_size := u32 (sp_fixed_size st + size);
           sp_patch_data := sp_patch_data st |}
  end.

Definition reloc_syspage_memory (base max_size : Z) (st : syspage) : syspage :=
  let diff := base - syspage_p st in
  {| sp_mem := sp_mem st;
     sp_total_size := sp_total_size st;
     sp_max_size := max_size;
     sp_sects := map (fun s => Sect (s_p s + diff) (s_size s)) (sp_sects st);
     sp_fixed_size := sp_fixed_size st;
     sp_patch_data := callout_reloc_data (syspage_p st) (sp_total_size st) diff
                        (sp_patch_data st) |}.

(** ** What a section holds *)
Definition view (st : syspage) (s : section) : list byte :=
  take (Z.to_nat (s_size s)) (drop (Z.to_nat (s_p s - syspage_p st)) (sp_mem st)).

Definition section_bytes (st : syspage) (k : nat) : option (list byte) :=
  view st <$> sp_sects st !! k.

(** Windows that do not overlap; an empty one may touch any other. *)
Definition separated (s1 s2 : section) : Prop :=
  s_p s1 + s_size s1 <= s_p s2 \/ s_p s2 + s_size s2 <= s_p s1.

Record syspage_wf (st : syspage) : Prop := {
  sw_total : sp_total_size st = Z.of_nat (length (sp_mem st));
  sw_max : sp_max_size st < 2147483648;
  sw_fits : sp_total_size st <= sp_max_size st;
  sw_inside : forall k s, sp_sects st !! k = Some s ->
    syspage_p st <= s_p s /\ 0 <= s_size s /\
    s_p s + s_size s <= syspage_p st + sp_total_size st;
  sw_sep : forall j k s1 s2, j <> k -> sp_sects st !! j = Some s1 ->
    sp_sects st !! k = Some s2 -> separated s1 s2;
  sw_header : forall s0 k s, sp_sects st !! 0%nat = Some s0 -> k <> 0%nat ->
    sp_sects st !! k = Some s -> 0 < s_size s0 /\ s_p s0 + s_size s0 <= s_p s
}.

(** ** grow_syspage_section *)
Section grow.
Context (k : nat) (add : Z) (st : syspage) (sect : section).
Hypothesis wf : syspage_wf st.
Hypothesis add_range : 0 < add < 2147483648.
Hypothesis sect_k : sp_sects st !! k = Some sect.

Let a := ROUND add 8.
Let bottom := s_p sect + s_size sect.

Lemma grow_amount : a mod 8 = 0 /\ add <= a <= 2147483648.
Proof.
  destruct (ROUND_spec add 8) as [R1 R2]; [lia|auto with width|]. fold a in R1, R2.
  pose proof (Z.div_mod a 8). split; lia.
Qed.

(** The state after a successful growth, without the casts. *)
Definition grown : syspage :=
  {| sp_mem := splice (Z.to_nat (bottom - syspage_p st)) (replicate (Z.to_nat a) NUL) (sp_mem st);
     sp_total_size := sp_total_size st + a;
     sp_max_size := sp_max_size st;
     sp_sects := <[k := Sect (s_p sect) (s_size sect + a)]>
       (imap (fun j s => if bool_decide (j <> k) && (bottom <=? s_p s)
                         then Sect (s_p s + a) (s_size s) else s) (sp_sects st));
     sp_fixed_size := sp_fixed_size st;
     sp_patch_data := callout_reloc_data bottom
       (sp_total_size st - (bottom - syspage_p st)) a (sp_patch_data st) |}.

Lemma grow_syspage_section_eq :
  grow_syspage_section k add st =
  if sp_max_size st <? sp_total_size st + a then Crash request_msg else Ok grown.
Proof.
  destruct grow_amount as [_ GA]. destruct wf as [WT WM WF WI WS WH].
  unfold grow_syspage_section. assert (E : (0 <? add) = true) by (apply Z.ltb_lt; lia).
  rewrite E, sect_k. fold a. cbv zeta. width_simpl. reflexivity.
Qed.

Lemma grown_lookup_other j s :
  j <> k -> sp_sects st !! j = Some s ->
  sp_sects grown !! j = Some (if bottom <=? s_p s then Sect (s_p s + a) (s_size s) else s).
Proof.
  intros Hj Hs. unfold grown; simpl. rewrite list_lookup_insert_ne by done.
  rewrite list_lookup_imap, Hs. simpl. rewrite bool_decide_true by done. done.
Qed.

Lemma grown_lookup_k : sp_sects grown !! k = Some (Sect (s_p sect) (s_size sect + a)).
Proof.
  unfold grown; simpl. apply list_lookup_insert_eq.
  rewrite length_imap. by eapply lookup_lt_Some.
Qed.

Lemma grown_syspage_p : syspage_p grown = syspage_p st.
Proof.
  assert (H0 : forall s, sp_sects st !! 0%nat = Some s -> syspage_p st = s_p s).
  { intros s. unfold syspage_p. destruct (sp_sects st); simpl; congruence. }
  assert (H1 : forall st s, sp_sects st !! 0%nat = Some s -> syspage_p st = s_p s).
  { intros st' s. unfold syspage_p. destruct (sp_sects st'); simpl; congruence. }
  destruct (sp_sects st !! 0%nat) as [s0|] eqn:E0.
  2: { apply lookup_ge_None in E0. apply lookup_lt_Some in sect_k. lia. }
  rewrite (H0 _ eq_refl). destruct (decide (k = 0%nat)) as [Hk|Hk].
  - pose proof grown_lookup_k as G. rewrite Hk in G. rewrite (H1 _ _ G). simpl. congruence.
  - pose proof (grown_lookup_other 0 s0 ltac:(done) E0) as G. rewrite (H1 _ _ G).
    destruct wf as [WT WM WF WI WS WH].
    destruct (WH _ _ _ E0 Hk sect_k). destruct (WI _ _ sect_k). simpl. unfold bottom.
    destruct (_ <=? _) eqn:E; zbool; [lia|done].
Qed.

Lemma grown_view_other j s :
  j <> k -> sp_sects st !! j = Some s -> section_bytes grown j = section_bytes st j.
Proof.
  intros Hj Hs. unfold section_bytes. rewrite (grown_lookup_other _ _ Hj Hs), Hs. simpl. f_equal.
  destruct wf as [WT WM WF WI WS WH]. destruct (WI _ _ sect_k) as (K1 & K2 & K3).
  destruct (WI _ _ Hs) as (J1 & J2 & J3). destruct grow_amount as [_ GA].
  unfold view. rewrite grown_syspage_p. unfold grown; simpl. fold bottom in K3.
  assert (bottom = s_p sect + s_size sect) by done.
  zcase; simpl.
  - f_equal. rewrite <- (splice_after (Z.to_nat (bottom - syspage_p st))
      (Z.to_nat (s_p s - syspage_p st)) (replicate (Z.to_nat a) NUL) (sp_mem st)) by lia.
    f_equal. rewrite length_replicate. lia.
  - apply splice_before; [|lia]. destruct (WS _ _ _ _ Hj Hs sect_k); lia.
Qed.

Lemma grown_view_k :
  section_bytes grown k = Some (view st sect ++ replicate (Z.to_nat a) NUL).
Proof.
  unfold section_bytes. rewrite grown_lookup_k. simpl. f_equal.
  destruct wf as [WT WM WF WI WS WH]. destruct (WI _ _ sect_k) as (K1 & K2 & K3).
  destruct grow_amount as [_ GA]. unfold view. rewrite grown_syspage_p. unfold grown; simpl.
  replace (Z.to_nat (s_size sect + a)) with
    (Z.to_nat (s_size sect) + length (replicate (Z.to_nat a) NUL))%nat
    by (rewrite length_replicate; lia).
  apply splice_at; unfold bottom; lia.
Qed.

Lemma grown_wf : sp_total_size st + a <= sp_max_size st -> syspage_wf grown.
Proof.
  intros Hfit. assert (wf' := wf). destruct wf' as [WT WM WF WI WS WH].
  destruct (WI _ _ sect_k) as (K1 & K2 & K3). destruct grow_amount as [_ GA].
  assert (Inv : forall j s, sp_sects grown !! j = Some s ->
    (j = k /\ s = Sect (s_p sect) (s_size sect + a)) \/
    (j <> k /\ exists s0, sp_sects st !! j = Some s0 /\
      s = if bottom <=? s_p s0 then Sect (s_p s0 + a) (s_size s0) else s0)).
  { intros j s Hj. destruct (decide (j = k)) as [->|Hne].
    - left. rewrite grown_lookup_k in Hj. by injection Hj as <-.
    - right. split; [done|]. destruct (sp_sects st !! j) as [s0|] eqn:E0.
      + exists s0. rewrite (grown_lookup_other _ _ Hne E0) in Hj. by injection Hj as <-.
      + apply lookup_ge_None in E0. apply lookup_lt_Some in Hj. unfold grown in Hj; simpl in Hj.
        rewrite length_insert, length_imap in Hj. lia. }
  assert (bottom = s_p sect + s_size sect) by done.
  constructor; rewrite ?grown_syspage_p; simpl; try done.
  - rewrite length_splice, length_replicate by lia. lia.
  - intros j s Hj. apply Inv in Hj as [[-> ->]|(Hne & s0 & E0 & ->)]; simpl; [lia|].
    destruct (WI _ _ E0) as (J1 & J2 & J3). zcase; simpl; lia.
  - intros i j s1 s2 Hij H1 H2. unfold separated.
    apply Inv in H1 as [[-> ->]|(Hn1 & t1 & E1 & ->)];
    apply Inv in H2 as [[-> ->]|(Hn2 & t2 & E2 & ->)]; [done| | |]; simpl.
    + pose proof (WS _ _ _ _ Hij sect_k E2) as S. unfold separated in S. zcase; simpl; lia.
    + pose proof (WS _ _ _ _ Hij E1 sect_k) as S. unfold separated in S. zcase; simpl; lia.
    + pose proof (WS _ _ _ _ Hij E1 E2) as S. unfold separated in S.
      destruct (WI _ _ E1) as (? & ? & ?), (WI _ _ E2) as (? & ? & ?).
      pose proof (WS _ _ _ _ Hn1 E1 sect_k) as S1. pose proof (WS _ _ _ _ Hn2 E2 sect_k) as S2.
      unfold separated in S1, S2. repeat zcase; simpl; lia.
  - intros s0 j s Hs0 Hj Hs.
    apply Inv in Hs0 as [[Hk ->]|(Hn0 & t0 & E0 & ->)];
    apply Inv in Hs as [[Hjk ->]|(Hn & t & E & ->)]; simpl; try congruence.
    + rewrite <- Hk in sect_k. destruct (WH _ _ _ sect_k Hj E). zcase; simpl; lia.
    + rewrite Hjk in Hj. destruct (WH _ _ _ E0 Hj sect_k). zcase; simpl; lia.
    + destruct (WH _ _ _ E0 Hj E). destruct (WI _ _ E0) as (? & ? & ?).
      pose proof (WH _ _ _ E0 (not_eq_sym Hn0) sect_k).
      repeat zcase; simpl; lia.
Qed.
End grow.

(** ** Writing inside one section *)
Definition overwrite {A} (i : nat) (w l : list A) : list A :=
  take i l ++ w ++ drop (i + length w) l.

Lemma length_overwrite {A} i (w l : list A) :
  (i + length w <= length l)%nat -> length (overwrite i w l) = length l.
Proof. intros. unfold overwrite. rewrite !length_app, length_take, length_drop. lia. Qed.

Lemma overwrite_same {A} i (w l : list A) :
  (i + length w <= length l)%nat -> take (length w) (drop i (overwrite i w l)) = w.
Proof.
  intros. unfold overwrite. rewrite drop_app_ge by (rewrite length_take; lia).
  rewrite length_take, Nat.min_l, Nat.sub_diag, drop_0 by lia. by rewrite take_app_length.
Qed.

Lemma overwrite_other {A} i (w l : list A) o n :
  (i + length w <= length l)%nat -> (o + n <= i \/ i + length w <= o)%nat ->
  take n (drop o (overwrite i w l)) = take n (drop o l).
Proof.
  intros Hl [H|H]; unfold overwrite.
  - rewrite drop_app_le by (rewrite length_take; lia).
    rewrite take_app_le by (rewrite length_drop, length_take; lia).
    rewrite skipn_firstn_comm, take_take. f_equal. lia.
  - rewrite drop_app_ge by (rewrite length_take; lia).
    rewrite length_take, Nat.min_l by lia. rewrite drop_app_ge by lia.
    rewrite drop_drop. do 2 f_equal. lia.
Qed.

Definition write_section (k : nat) (w : list byte) (st : syspage) : syspage :=
  match sp_sects st !! k with
  | None => st
  | Some s =>
      {| sp_mem := overwrite (Z.to_nat (s_p s - syspage_p st)) w (sp_mem st);
         sp_total_size := sp_total_size st; sp_max_size := sp_max_size st;
         sp_sects := sp_sects st; sp_fixed_size := sp_fixed_size st;
         sp_patch_data := sp_patch_data st |}
  end.

(** ** The interface the string code needs from its section *)
Class CharSection (S : Type) := {
  cs_wf : S -> Prop;
  cs_bytes : S -> list byte;
  cs_write : list byte -> S -> S;
  cs_grow : Z -> S -> res S;
  cs_size_bound s : cs_wf s -> Z.of_nat (length (cs_bytes s)) < 2147483648;
  cs_write_spec s w : cs_wf s -> length w = length (cs_bytes s) ->
    cs_wf (cs_write w s) /\ cs_bytes (cs_write w s) = w;
  cs_grow_spec s add s' : cs_wf s -> 0 < add < 2147483648 -> cs_grow add s = Ok s' ->
    cs_wf s' /\
    cs_bytes s' = cs_bytes s ++ replicate (Z.to_nat (ROUND add 8)) NUL
}.

Definition section_wf (k : nat) (st : syspage) : Prop :=
  syspage_wf st /\ is_Some (sp_sects st !! k).

Lemma length_view st k s :
  syspage_wf st -> sp_sects st !! k = Some s -> length (view st s) = Z.to_nat (s_size s).
Proof.
  intros [WT WM WF WI WS WH] Hs. destruct (WI _ _ Hs) as (H1 & H2 & H3).
  unfold view. rewrite length_take, length_drop. lia.
Qed.

Lemma write_section_other k j w st :
  section_wf k st -> length w = length (default [] (section_bytes st k)) -> j <> k ->
  section_bytes (write_section k w st) j = section_bytes st j.
Proof.
  intros [W [s Hs]] Hw Hj. unfold section_bytes in *. rewrite Hs in Hw. simpl in Hw.
  rewrite (length_view _ _ _ W Hs) in Hw. unfold write_section. rewrite Hs. simpl.
  destruct (sp_sects st !! j) as [t|] eqn:Ht; simpl; [|done]. f_equal. unfold view; simpl.
  destruct W as [WT WM WF WI WS WH].
  destruct (WI _ _ Hs) as (? & ? & ?), (WI _ _ Ht) as (? & ? & ?).
  change (syspage_p {| sp_mem := _ |}) with (syspage_p st).
  apply overwrite_other; [lia|]. destruct (WS _ _ _ _ Hj Ht Hs); lia.
Qed.

Lemma section_size_bound k st :
  section_wf k st -> Z.of_nat (length (default [] (section_bytes st k))) < 2147483648.
Proof.
  intros [W [s Hs]]. unfold section_bytes. rewrite Hs. simpl. rewrite (length_view _ _ _ W Hs).
  destruct W as [WT WM WF WI WS WH]. destruct (WI _ _ Hs) as (? & ? & ?). lia.
Qed.

Lemma section_write_spec k st w :
  section_wf k st -> length w = length (default [] (section_bytes st k)) ->
  section_wf k (write_section k w st) /\
  default [] (section_bytes (write_section k w st) k) = w.
Proof.
  intros [W [s Hs]] Hw. unfold section_bytes in *. rewrite Hs in Hw. simpl in Hw.
  rewrite (length_view _ _ _ W Hs) in Hw. unfold section_wf, write_section. rewrite Hs. simpl.
  rewrite Hs. simpl. destruct W as [WT WM WF WI WS WH]. destruct (WI _ _ Hs) as (? & ? & ?).
  split.
  - split; [|eauto]. constructor; simpl; auto.
    rewrite length_overwrite; lia.
  - unfold view; simpl. rewrite <- Hw.
    change (syspage_p {| sp_mem := _ |}) with (syspage_p st). apply overwrite_same. lia.
Qed.

Lemma section_grow_spec k st add st' :
  section_wf k st -> 0 < add < 2147483648 -> grow_syspage_section k add st = Ok st' ->
  section_wf k st' /\
  default [] (section_bytes st' k) =
    default [] (section_bytes st k) ++ replicate (Z.to_nat (ROUND add 8)) NUL.
Proof.
  intros [W [s Hs]] Ha. rewrite (grow_syspage_section_eq k add st s) by done.
  destruct (_ <? _) eqn:E; [done|]. zbool. intros [= <-]. split.
  - split; [apply grown_wf; auto|]. rewrite grown_lookup_k by done. eauto.
  - rewrite grown_view_k by done. simpl. unfold section_bytes. rewrite Hs. done.
Qed.

(** Any section of a system page implements the interface. *)
Definition syspage_CharSection (k : nat) : CharSection syspage := {|
  cs_wf := section_wf k;
  cs_bytes st := default [] (section_bytes st k);
  cs_write := write_section k;
  cs_grow := grow_syspage_section k;
  cs_size_bound := section_size_bound k;
  cs_write_spec := section_write_spec k;
  cs_grow_spec := section_grow_spec k
|}.

(** *** Theorem *)
(** Growing a section: a request that is not refused leaves every other
    section's bytes as they were, gives the section its old bytes followed by
    zeros, keeps all windows disjoint and inside the page, and never passes
    the page's limit; it is refused exactly when the limit would be passed. *)
Theorem grow_syspage_section_correct (k : nat) (add : Z) (st : syspage) (sect : section) :
  syspage_wf st -> 0 < add < 2147483648 -> sp_sects st !! k = Some sect ->
  match grow_syspage_section k add st with
  | Ok st' =>
      syspage_wf st' /\
      section_bytes st' k = Some (view st sect ++ replicate (Z.to_nat (ROUND add 8)) NUL) /\
      (forall j s, j <> k -> sp_sects st !! j = Some s -> section_bytes st' j = section_bytes st j) /\
      sp_total_size st' = sp_total_size st + ROUND add 8 /\
      sp_total_size st' <= sp_max_size st'
  | Crash _ => sp_max_size st < sp_total_size st + ROUND add 8
  end.
Proof.
  intros W Ha Hs. rewrite (grow_syspage_section_eq k add st sect) by done.
  destruct (_ <? _) eqn:E; zbool; [done|]. split_and!.
  - apply grown_wf; auto.
  - by apply grown_view_k.
  - intros j s Hj Hjs. by eapply grown_view_other.
  - done.
  - simpl. lia.
Qed.

(** ** A small page: the header, one section of 8 bytes and an empty one *)
Definition example_page : syspage := {|
  sp_mem := replicate 16 NUL; sp_total_size := 16; sp_max_size := 4096;
  sp_sects := [Sect 65536 8; Sect 65544 8; Sect 65552 0];
  sp_fixed_size := 8; sp_patch_data := []
|}.

Lemma example_page_wf : syspage_wf example_page.
Proof.
  constructor; [reflexivity|simpl; lia|simpl; lia| | |].
  - intros k s Hs. do 3 (destruct k as [|k]; [injection Hs as <-; unfold syspage_p; simpl; lia|]). done.
  - intros j k s1 s2 Hjk H1 H2. unfold separated.
    do 3 (destruct j as [|j]; [injection H1 as <-;
      do 3 (destruct k as [|k]; [injection H2 as <-; simpl; lia|]); done|]). done.
  - intros s0 k s H0 Hk Hs. injection H0 as <-.
    do 3 (destruct k as [|k]; [injection Hs as <-; unfold syspage_p; simpl; lia|]). done.
Qed.

Lemma grow_syspage_section_correct_witness :
  exists st', grow_syspage_section 1 5 example_page = Ok st' /\ syspage_wf st' /\
    section_bytes st' 1 = Some (replicate 16 NUL).
Proof.
  pose proof (grow_syspage_section_correct 1 5 example_page (Sect 65544 8) example_page_wf
    ltac:(lia) eq_refl) as G.
  destruct (grow_syspage_section 1 5 example_page) as [st'|m] eqn:E.
  - exists st'. destruct G as (G1 & G2 & _). split; [reflexivity|]. split; [exact G1|].
    rewrite G2. vm_compute. reflexivity.
  - vm_compute in E. discriminate E.
Defined.
