(* ===== verification/Strings.v ===== *)
(** * The string section of the system page (lib/strings.c, hwi_alloc.c)

    Names are interned: [add_string] returns the offset of an equal string
    when there is one and appends otherwise.  The code runs against any
    section with the [CharSection] interface; [Syspage.v] has the section of
    the system page itself. *)
From S2P Require Import Prelude Syspage.

Definition cname (s : string) : list byte := String.list_ascii_of_string s.

(** [strlen]: the bytes before the first NUL, if there is one. *)
Fixpoint strlen (l : list byte) : option nat :=
  match l with
  | [] => None
  | c :: l' => if bool_decide (c = NUL) then Some 0%nat else S <$> strlen l'
  end.

(** The C string at an offset. *)
Definition c_string (p : list byte) (i : nat) : option (list byte) :=
  n ← strlen (drop i p); Some (take n (drop i p)).

Definition oob_msg : string := "read past the end of the section".

(** [strlcpy(&p[i], name, n)]: at most [n - 1] characters and a NUL. *)
Definition c_strlcpy (i : nat) (name : list byte) (n : Z) (p : list byte) : list byte :=
  if n <=? 0 then p else overwrite i (take (Z.to_nat (n - 1)) name ++ [NUL]) p.

Section strings.
Context {S : Type} `{CharSection S}.

Fixpoint add_string_loop (fuel : nat) (name p : list byte) (i : nat) : res (bool * nat) :=
  match fuel with
  | O => Crash oob_msg
  | Datatypes.S fuel' =>
      match c_string p i with
      | None => Crash oob_msg
      | Some str =>
          if bool_decide (str = []) then Ok (false, i)
          else if bool_decide (name = str) then Ok (true, i)
          else add_string_loop fuel' name p (i + length str + 1)
      end
  end.

(** Every round consumes at least two bytes of the section. *)
Definition add_string (name : list byte) (st : S) : res (S * Z) :=
  let p := cs_bytes st in
  let! (found, i) := add_string_loop (Datatypes.S (length p)) name p 0 in
  if found : bool then Ok (st, Z.of_nat i)
  else
    let len := u32 (Z.of_nat (length name) + 2) in
    let spare := u32 (Z.of_nat (length p) - Z.of_nat i) in
    let! st :=
      if spare <? len then cs_grow (u32 (ROUND (len - spare) 128)) st else Ok st in
    let p := cs_bytes st in
    Ok (cs_write (c_strlcpy i name (Z.of_nat (length p) - Z.of_nat i) p) st, Z.of_nat i).

(** hwi_alloc.c, __hwi_find_string: the string at an offset. *)
Definition hwi_find_string (off : Z) (st : S) : option (list byte) :=
  c_string (cs_bytes st) (Z.to_nat off).
End strings.

(** ** The abstract table: distinct non-empty names in order of insertion *)
Definition good_name (n : list byte) : Prop :=
  n <> [] /\ (NUL ∉ n) /\ Z.of_nat (length n) < 1073741824.

Definition pack (tbl : list (list byte)) : list byte := flat_map (fun n => n ++ [NUL]) tbl.

(** The section holds a table: its strings, then nothing but zeros. *)
Definition holds (p : list byte) (tbl : list (list byte)) : Prop :=
  Forall good_name tbl /\ exists m, p = pack tbl ++ replicate (Datatypes.S m) NUL.

(** Where the table keeps a name. *)
Fixpoint name_offset (name : list byte) (tbl : list (list byte)) : nat :=
  match tbl with
  | [] => 0
  | n :: rest => if bool_decide (name = n) then 0 else length n + 1 + name_offset name rest
  end.

Definition intern (name : list byte) (tbl : list (list byte)) : list (list byte) :=
  if bool_decide (name ∈ tbl) then tbl else tbl ++ [name].

Lemma strlen_name n r : NUL ∉ n -> strlen (n ++ NUL :: r) = Some (length n).
Proof.
  induction n as [|c n IH]; intros HN; simpl; [done|].
  rewrite not_elem_of_cons in HN. destruct HN as [Hc HN].
  rewrite bool_decide_false by congruence. by rewrite IH.
Qed.

Lemma c_string_name q n r : NUL ∉ n -> c_string (q ++ n ++ NUL :: r) (length q) = Some n.
Proof.
  intros HN. unfold c_string. rewrite drop_app_length, strlen_name by done. simpl.
  by rewrite take_app_length.
Qed.

Lemma pack_app t1 t2 : pack (t1 ++ t2) = pack t1 ++ pack t2.
Proof. unfold pack. by rewrite flat_map_app. Qed.

Lemma pack_elem tbl name :
  name ∈ tbl -> exists t1 t2, tbl = t1 ++ name :: t2 /\ length (pack t1) = name_offset name tbl.
Proof.
  induction tbl as [|n tbl IH]; intros HE; [inversion HE|]. simpl.
  destruct (decide (name = n)) as [->|Hne].
  - rewrite bool_decide_true by done. by exists [], tbl.
  - rewrite bool_decide_false by done. apply elem_of_cons in HE as [?|HE]; [done|].
    destruct (IH HE) as (t1 & t2 & -> & HL). exists (n :: t1), t2. split; [done|].
    unfold pack in *. simpl. rewrite !length_app. simpl. rewrite HL. lia.
Qed.

Lemma name_offset_notin tbl name : name ∉ tbl -> name_offset name tbl = length (pack tbl).
Proof.
  induction tbl as [|n tbl IH]; intros HE; [done|]. simpl.
  rewrite not_elem_of_cons in HE. destruct HE as [Hne HE]. rewrite bool_decide_false by done.
  rewrite IH by done. unfold pack. simpl. rewrite !length_app. simpl. lia.
Qed.

(** A name of the table is read back at its offset. *)
Lemma holds_read p tbl name :
  holds p tbl -> name ∈ tbl -> c_string p (name_offset name tbl) = Some name.
Proof.
  intros [G [m ->]] HE. destruct (pack_elem _ _ HE) as (t1 & t2 & -> & <-).
  rewrite pack_app, <- app_assoc. simpl. unfold pack at 2. simpl.
  rewrite <- !app_assoc. apply c_string_name.
  rewrite Forall_forall in G. apply G. set_solver.
Qed.

(** The search loop follows the table. *)
Lemma add_string_loop_holds fuel name t1 t2 m :
  good_name name -> Forall good_name t2 -> (length t2 < fuel)%nat ->
  name ∉ t1 ->
  add_string_loop fuel name (pack t1 ++ pack t2 ++ replicate (Datatypes.S m) NUL)
    (length (pack t1)) =
  Ok (bool_decide (name ∈ t2), (length (pack t1) + name_offset name t2)%nat).
Proof.
  intros HN. revert t1 t2; induction fuel as [|fuel IH]; intros t1 t2 G Hf Hnot; [lia|].
  destruct t2 as [|n t2].
  - pose proof (c_string_name (pack t1) [] (replicate m NUL) ltac:(set_solver)) as C.
    cbn [add_string_loop]. change (pack []) with (@nil byte). simpl app in *. rewrite C.
    rewrite (bool_decide_true (@nil byte = [])) by done.
    rewrite (bool_decide_false (name ∈ _)) by set_solver. by rewrite Nat.add_0_r.
  - inversion G as [|? ? Gn G']; subst.
    assert (CS : c_string (pack t1 ++ pack (n :: t2) ++ replicate (Datatypes.S m) NUL)
      (length (pack t1)) = Some n).
    { change (pack (n :: t2)) with ((n ++ [NUL]) ++ pack t2). rewrite <- !app_assoc. simpl.
      apply c_string_name, Gn. }
    cbn [add_string_loop]. rewrite CS, (bool_decide_false (n = [])) by apply Gn.
    cbn [name_offset]. destruct (decide (name = n)) as [->|Hne].
    + rewrite !bool_decide_true by set_solver. rewrite Nat.add_0_r. done.
    + rewrite (bool_decide_false (name = n)) by done.
      assert (HP : pack t1 ++ pack (n :: t2) ++ replicate (Datatypes.S m) NUL =
        pack (t1 ++ [n]) ++ pack t2 ++ replicate (Datatypes.S m) NUL).
      { rewrite pack_app, (pack_app [n] t2 : pack (n :: t2) = _), <- !app_assoc. done. }
      assert (HL : length (pack (t1 ++ [n])) = (length (pack t1) + length n + 1)%nat).
      { rewrite pack_app, length_app. unfold pack at 2. simpl.
        rewrite app_nil_r, length_app. simpl. lia. }
      rewrite HP, <- HL, IH by (auto; try (simpl in Hf; lia); set_solver).
      rewrite HL. do 2 f_equal; [|lia]. apply bool_decide_ext. set_solver.
Qed.

Lemma length_pack_ge tbl : Forall good_name tbl -> (length tbl <= length (pack tbl))%nat.
Proof.
  induction 1 as [|n tbl (Hn & _) _ IH]; [done|]. unfold pack in *. simpl.
  rewrite !length_app. simpl. lia.
Qed.

(** Writing a name over the zeros that end the table adds it. *)
Lemma strlcpy_append tbl name m :
  good_name name -> Forall good_name tbl -> (length name + 1 <= m)%nat ->
  holds (c_strlcpy (length (pack tbl)) name (Z.of_nat (Datatypes.S m))
           (pack tbl ++ replicate (Datatypes.S m) NUL)) (tbl ++ [name]).
Proof.
  intros HN G Hm. split; [by apply Forall_app; auto|].
  exists (m - length name - 1)%nat. unfold c_strlcpy.
  destruct (_ <=? 0) eqn:E; zbool; [lia|].
  rewrite take_ge by lia. unfold overwrite.
  assert (HP : pack (tbl ++ [name]) = pack tbl ++ name ++ [NUL]).
  { rewrite pack_app. f_equal. unfold pack. simpl. by rewrite app_nil_r. }
  rewrite HP, take_app_length, drop_app_ge, <- !app_assoc by lia. f_equal. f_equal. f_equal.
  rewrite drop_replicate, length_app. f_equal. simpl. lia.
Qed.

Lemma length_strlcpy i name n p :
  n = Z.of_nat (length p) - Z.of_nat i -> (i + length name + 1 <= length p)%nat ->
  length (c_strlcpy i name n p) = length p.
Proof.
  intros -> HL. unfold c_strlcpy. destruct (_ <=? 0); [done|].
  apply length_overwrite. rewrite length_app, length_take. simpl. lia.
Qed.

Section strings_spec.
Context {S : Type} `{CharSection S}.

(** What add_string promises of any section that grows as the interface says. *)
Lemma add_string_spec name st st' off tbl :
  cs_wf st -> holds (cs_bytes st) tbl -> good_name name ->
  add_string name st = Ok (st', off) ->
  cs_wf st' /\ holds (cs_bytes st') (intern name tbl) /\
  off = Z.of_nat (name_offset name (intern name tbl)) /\ (name ∈ tbl -> st' = st).
Proof.
  intros W HH HN. assert (HL := proj2 (proj2 HN)). unfold add_string.
  destruct HH as [G [m Hp]]. pose proof (cs_size_bound st W) as B.
  assert (Hlen : length (cs_bytes st) = (length (pack tbl) + Datatypes.S m)%nat)
    by (rewrite Hp, length_app, length_replicate; done).
  pose proof (add_string_loop_holds (Datatypes.S (length (cs_bytes st))) name [] tbl m HN G) as L.
  change (pack []) with (@nil byte) in L. rewrite app_nil_l, <- Hp in L.
  change (length (@nil byte)) with 0%nat in L.
  rewrite L by (try set_solver; pose proof (length_pack_ge _ G); lia). clear L. simpl.
  unfold intern. destruct (bool_decide (name ∈ tbl)) eqn:E.
  { apply bool_decide_eq_true in E. intros [= <- <-]. split_and!; auto.
    split; eauto. }
  apply bool_decide_eq_false in E. rewrite (name_offset_notin _ _ E).
  assert (Hoff : name_offset name (tbl ++ [name]) = length (pack tbl)).
  { clear -E. induction tbl as [|n tbl IH]; simpl; [by rewrite bool_decide_true|].
    rewrite not_elem_of_cons in E. destruct E as [Hne E]. rewrite bool_decide_false by done.
    rewrite IH by done. unfold pack. simpl. rewrite !length_app. simpl. lia. }
  intros HB. apply res_bind_Ok in HB as (st1 & Hgrow & HB). injection HB as <- <-.
  assert (exists m1, cs_wf st1 /\ cs_bytes st1 = pack tbl ++ replicate (Datatypes.S m1) NUL /\
    (length name + 1 <= m1)%nat) as (m1 & W1 & Hp1 & Hm1).
  { rewrite Hlen in Hgrow. rewrite !(u32_id (_ + 2)), !(u32_id (_ - _)) in Hgrow by lia.
    destruct (_ <? _) eqn:ES in Hgrow; zbool.
    2: { injection Hgrow as <-. exists m. split_and!; auto. lia. }
    set (need := Z.of_nat (length name) + 2 -
      (Z.of_nat (length (pack tbl) + Datatypes.S m) - Z.of_nat (length (pack tbl)))) in *.
    destruct (ROUND_spec need 128) as [_ R]; [lia|by exists 7|].
    rewrite (u32_id (ROUND _ _)) in Hgrow by lia.
    apply cs_grow_spec in Hgrow as [W1 Hg]; [|done|lia].
    destruct (ROUND_spec (ROUND need 128) 8) as [_ R8]; [lia|by exists 3|].
    exists (m + Z.to_nat (ROUND (ROUND need 128) 8))%nat. split_and!; auto; [|lia].
    rewrite Hg, Hp, <- app_assoc, <- replicate_add. done. }
  assert (Hlen1 : length (cs_bytes st1) = (length (pack tbl) + Datatypes.S m1)%nat)
    by (rewrite Hp1, length_app, length_replicate; done).
  destruct (cs_write_spec st1 (c_strlcpy (length (pack tbl)) name
    (Z.of_nat (length (cs_bytes st1)) - Z.of_nat (length (pack tbl))) (cs_bytes st1)) W1)
    as [W2 Hb2].
  { apply length_strlcpy; [done|lia]. }
  split_and!; [done| |by rewrite Hoff|set_solver].
  rewrite Hb2, Hlen1, Hp1.
  replace (_ - _) with (Z.of_nat (Datatypes.S m1)) by lia.
  by apply strlcpy_append.
Qed.
End strings_spec.

Lemma name_offset_intern name n tbl :
  n ∈ tbl -> name_offset n (intern name tbl) = name_offset n tbl.
Proof.
  intros HE. unfold intern. destruct (bool_decide _); [done|].
  induction tbl as [|n' tbl IH]; [inversion HE|]. simpl.
  destruct (decide (n = n')) as [->|Hne]; [by rewrite !bool_decide_true|].
  rewrite !bool_decide_false by done. rewrite IH; [done|set_solver].
Qed.

Lemma elem_of_intern name n tbl : n ∈ intern name tbl <-> n = name \/ n ∈ tbl.
Proof. unfold intern. destruct (bool_decide _) eqn:E; [apply bool_decide_eq_true in E|]; set_solver. Qed.

(** ** The interface the address-space code needs *)
Class StringTable (T : Type) := {
  tb_wf : T -> Prop;
  tb_at : T -> list byte -> Z -> Prop;        (* the name is kept at the offset *)
  tb_add : list byte -> T -> res (T * Z);     (* add_string *)
  tb_find : Z -> T -> option (list byte);     (* __hwi_find_string *)
  tb_grow : T -> res T;                       (* room for one more asinfo entry *)
  tb_add_spec t n t' off : tb_wf t -> good_name n -> tb_add n t = Ok (t', off) ->
    tb_wf t' /\ tb_at t' n off /\ (forall m o, tb_at t m o -> tb_at t' m o);
  tb_find_spec t n off : tb_at t n off -> tb_find off t = Some n;
  tb_grow_spec t t' : tb_wf t -> tb_grow t = Ok t' ->
    tb_wf t' /\ (forall m o, tb_at t m o -> tb_at t' m o)
}.

Definition interned_at {S} `{CharSection S} (st : S) (n : list byte) (off : Z) : Prop :=
  exists tbl, holds (cs_bytes st) tbl /\ n ∈ tbl /\ off = Z.of_nat (name_offset n tbl).

Lemma add_string_interned {S} `{CharSection S} (st st' : S) n off :
  (cs_wf st /\ exists tbl, holds (cs_bytes st) tbl) -> good_name n ->
  add_string n st = Ok (st', off) ->
  (cs_wf st' /\ exists tbl, holds (cs_bytes st') tbl) /\ interned_at st' n off /\
  (forall m o, interned_at st m o -> interned_at st' m o).
Proof.
  intros [W [tbl HH]] HN HA.
  destruct (add_string_spec _ _ _ _ _ W HH HN HA) as (W' & HH' & Hoff & _). split; [eauto|split].
  - exists (intern n tbl). split; [done|]. split; [apply elem_of_intern; auto|done].
  - intros m o (tbl1 & H1 & Hm & ->).
    destruct (add_string_spec _ _ _ _ _ W H1 HN HA) as (_ & H1' & _ & _).
    exists (intern n tbl1). split; [done|]. split; [apply elem_of_intern; auto|].
    by rewrite name_offset_intern.
Qed.

Lemma interned_find {S} `{CharSection S} (st : S) n off :
  interned_at st n off -> hwi_find_string off st = Some n.
Proof.
  intros (tbl & HH & Hn & ->). unfold hwi_find_string. rewrite Nat2Z.id.
  by apply holds_read.
Qed.

(** The strings section [ks] and the asinfo section [ka] of one system page. *)
Section syspage_table.
Context (ks ka : nat) (sizeof_asinfo : Z).
Hypothesis distinct : ks <> ka.
Hypothesis sizeof_range : 0 < sizeof_asinfo < 2147483648.

Local Instance strings_section : CharSection syspage := syspage_CharSection ks.

Lemma syspage_grow_interned (st st' : syspage) :
  (cs_wf st /\ exists tbl, holds (cs_bytes st) tbl) ->
  grow_syspage_section ka sizeof_asinfo st = Ok st' ->
  (cs_wf st' /\ exists tbl, holds (cs_bytes st') tbl) /\
  (forall m o, interned_at st m o -> interned_at st' m o).
Proof.
  intros [[W [s Hs]] HH] HG.
  destruct (sp_sects st !! ka) as [sa|] eqn:Ha.
  2: { unfold grow_syspage_section in HG. rewrite Ha in HG.
       assert (E : (0 <? sizeof_asinfo) = true) by (apply Z.ltb_lt; lia).
       rewrite E in HG. done. }
  rewrite (grow_syspage_section_eq ka sizeof_asinfo st sa) in HG by done.
  destruct (_ <? _) eqn:E in HG; [done|]. zbool. injection HG as <-.
  assert (HB : cs_bytes (grown ka sizeof_asinfo st sa) = cs_bytes st).
  { simpl. rewrite (grown_view_other _ _ _ _ W sizeof_range Ha ks s); done. }
  split.
  - split; [|by rewrite HB]. split; [by apply grown_wf|].
    rewrite (grown_lookup_other _ _ _ _ _ _ distinct Hs). eauto.
  - unfold interned_at. by rewrite HB.
Qed.

Definition syspage_StringTable : StringTable syspage := {|
  tb_wf st := cs_wf st /\ exists tbl, holds (cs_bytes st) tbl;
  tb_at := interned_at;
  tb_add := add_string;
  tb_find := hwi_find_string;
  tb_grow := grow_syspage_section ka sizeof_asinfo;
  tb_add_spec t n t' off := add_string_interned t t' n off;
  tb_find_spec := interned_find;
  tb_grow_spec := syspage_grow_interned
|}.
End syspage_table.

(** *** Theorem *)
(** add_string refines the abstract intern table: the
    section afterwards holds the table with the name in it once, the result
    is the name's offset, reading there gives the name back, and every name
    interned before is still read at the offset it was given. *)
Theorem add_string_refines_intern {S : Type} `{CharSection S}
    (name : list byte) (st st' : S) (off : Z) (tbl : list (list byte)) :
  cs_wf st -> holds (cs_bytes st) tbl -> good_name name ->
  add_string name st = Ok (st', off) ->
  cs_wf st' /\ holds (cs_bytes st') (intern name tbl) /\
  hwi_find_string off st' = Some name /\ (name ∈ tbl -> st' = st) /\
  (forall n, n ∈ tbl -> hwi_find_string (Z.of_nat (name_offset n tbl)) st' = Some n).
Proof.
  intros W HH HN HA.
  destruct (add_string_spec _ _ _ _ _ W HH HN HA) as (W' & HH' & -> & Hsame).
  unfold hwi_find_string. split_and!; auto.
  - rewrite Nat2Z.id. eapply holds_read; eauto. apply elem_of_intern. auto.
  - intros n Hn. rewrite Nat2Z.id, <- (name_offset_intern name) by done.
    eapply holds_read; eauto. apply elem_of_intern. auto.
Qed.

(** ** Names in the small page of [Syspage.v]: section 1 holds the strings *)
Lemma example_names_hold :
  cs_wf (CharSection := syspage_CharSection 1) example_page /\
  holds (cs_bytes (CharSection := syspage_CharSection 1) example_page) [].
Proof.
  split; [split; [exact example_page_wf|by eexists]|].
  split; [by constructor|]. by exists 7%nat.
Qed.

Lemma good_cname_ram : good_name (cname "ram").
Proof. split; [done|]. split; [|simpl; lia]. unfold cname; simpl. rewrite !elem_of_cons, elem_of_nil. intuition done. Qed.

Lemma add_string_refines_intern_witness :
  exists st' off, add_string (cname "ram") (H := syspage_CharSection 1) example_page = Ok (st', off) /\
    hwi_find_string (H := syspage_CharSection 1) off st' = Some (cname "ram").
Proof.
  destruct (add_string (cname "ram") (H := syspage_CharSection 1) example_page) as [[st' off]|m] eqn:E.
  - exists st', off. split; [reflexivity|].
    exact (proj1 (proj2 (proj2 (@add_string_refines_intern syspage (syspage_CharSection 1)
      (cname "ram") example_page st' off [] (proj1 example_names_hold) (proj2 example_names_hold)
      good_cname_ram E)))).
  - vm_compute in E. discriminate E.
Defined.
