(* ===== verification/Asinfo.v ===== *)
(** * The address-space section of the system page (lib/as_*.c)

    [asinfo] is an array of entries identified by their byte offset in the
    section; each has an owner entry (or none), so the entries form a tree.
    Names live in a string table, used through the [StringTable] interface.
    The layout constants of <sys/syspage.h>, which is not part of the
    repository, are the fields of [asinfo_abi]. *)
From S2P Require Import Prelude Syspage Strings.

Record asinfo_entry := Asinfo {
  as_start : Z; as_end : Z; as_owner : Z; as_name : Z; as_attr : Z; as_priority : Z
}.

#[export] Instance asinfo_entry_eq_dec : EqDecision asinfo_entry.
Proof. solve_decision. Defined.

(** <sys/syspage.h>: sizeof(struct asinfo_entry), AS_NULL_OFF,
    AS_ATTR_CONTINUED, AS_ATTR_KIDS and AS_PRIORITY_DEFAULT. *)
Class asinfo_abi := {
  sizeof_asinfo : Z;
  AS_NULL_OFF : Z;
  AS_ATTR_CONTINUED : Z;
  AS_ATTR_KIDS : Z;
  AS_PRIORITY_DEFAULT : Z;
  sizeof_asinfo_range : 0 < sizeof_asinfo < 2147483648;
  sizeof_asinfo_aligned : sizeof_asinfo mod 8 = 0;
  AS_NULL_OFF_range : 0 <= AS_NULL_OFF < 4294967296
}.

Definition AS_OVERLAY_IO : Z := 2147483648.
Definition AS_ATTR_RAM : Z := 0.

Definition bad_offset_msg : string := "asinfo offset outside the section".
Definition cycle_msg : string := "asinfo owner cycle".

Section asinfo.
Context {T : Type} `{StringTable T} `{abi : asinfo_abi}.

Record as_state := AsState { as_tab : list asinfo_entry; as_strs : T }.

(** as_off2info and as_info2off: an offset names the entry it points at; an
    offset the array does not have is an access outside the section. *)
Definition as_info2off (i : nat) : Z := Z.of_nat i * sizeof_asinfo.

Definition as_off2info (off : Z) (tab : list asinfo_entry) : option nat :=
  if (0 <=? off) && (off mod sizeof_asinfo =? 0)
     && (off / sizeof_asinfo <? Z.of_nat (length tab))
  then Some (Z.to_nat (off / sizeof_asinfo)) else None.

Definition as_get (off : Z) (tab : list asinfo_entry) : res asinfo_entry :=
  match as_off2info off tab with
  | Some i => match tab !! i with Some e => Ok e | None => Crash bad_offset_msg end
  | None => Crash bad_offset_msg
  end.

Definition as_update (off : Z) (f : asinfo_entry -> asinfo_entry) (tab : list asinfo_entry)
    : res (list asinfo_entry) :=
  match as_off2info off tab with
  | Some i => Ok (alter f i tab)
  | None => Crash bad_offset_msg
  end.

Definition set_attr (a : Z) (e : asinfo_entry) : asinfo_entry :=
  Asinfo (as_start e) (as_end e) (as_owner e) (as_name e) a (as_priority e).
Definition set_start (s : Z) (e : asinfo_entry) : asinfo_entry :=
  Asinfo s (as_end e) (as_owner e) (as_name e) (as_attr e) (as_priority e).
Definition set_end (n : Z) (e : asinfo_entry) : asinfo_entry :=
  Asinfo (as_start e) n (as_owner e) (as_name e) (as_attr e) (as_priority e).

Definition has_attr (bit : Z) (e : asinfo_entry) : bool := negb (Z.land (as_attr e) bit =? 0).

(** ** as_add64 *)

(** The body up to the overlay test. *)
Definition as_add_entry (start end_ attr : Z) (name : list byte) (owner : Z) (st : as_state)
    : res (as_state * Z) :=
  let! (strs, name_off) := tb_add name (as_strs st) in
  let! strs := tb_grow strs in
  let e := Asinfo start end_ owner name_off (Z.land attr 65535) AS_PRIORITY_DEFAULT in
  let tab := as_tab st ++ [e] in
  let! tab :=
    if owner =? AS_NULL_OFF then Ok tab
    else as_update owner (fun o => set_attr (Z.lor (as_attr o) AS_ATTR_KIDS) o) tab in
  Ok (AsState tab strs, as_info2off (length (as_tab st))).

(** The recursive call clears the overlay bit, so it recurses no further. *)
Definition as_add64 (start end_ attr : Z) (name : list byte) (owner : Z) (st : as_state)
    : res (as_state * Z) :=
  let! (st, off) := as_add_entry start end_ attr name owner st in
  if Z.land attr AS_OVERLAY_IO =? 0 then Ok (st, off)
  else
    let! (st, _) := as_add_entry start end_ (Z.land attr (u32 (Z.lnot AS_OVERLAY_IO)))
                      (cname "io") off st in
    Ok (st, off).

(** as_add: the same, [paddr_t] being 64-bit. *)
Definition as_add := as_add64.

(** ** as_find: match a path of names, innermost last *)
Definition str_is (name : list byte) (off : Z) (strs : T) : res bool :=
  match tb_find off strs with
  | Some s => Ok (bool_decide (s = name))
  | None => Crash oob_msg
  end.

(** [path] is the argument list in reverse: the entry's own name first. *)
Fixpoint match_item (e : asinfo_entry) (path : list (list byte)) (st : as_state) : res bool :=
  match path with
  | [] => Crash "as_find: NULL name argument"
  | name :: prev =>
      let! same := str_is name (as_name e) (as_strs st) in
      if same : bool then
        match prev with
        | [] => Ok true
        | _ =>
            if as_owner e =? AS_NULL_OFF then Ok false
            else let! o := as_get (as_owner e) (as_tab st) in match_item o prev st
        end
      else Ok false
  end.

(** The scan from index [i]. *)
Fixpoint scan (test : asinfo_entry -> res bool) (i : nat) (tab : list asinfo_entry) : res Z :=
  match tab with
  | [] => Ok AS_NULL_OFF
  | e :: rest =>
      let! hit := test e in
      if hit : bool then Ok (as_info2off i) else scan test (S i) rest
  end.

(** The scan starts at the entry after the given one. *)
Definition scan_from (off : Z) : nat :=
  if off =? AS_NULL_OFF then 0 else S (Z.to_nat (off / sizeof_asinfo)).

Definition as_find (start : Z) (names : list (list byte)) (st : as_state) : res Z :=
  match names with
  | [] => Crash "as_find: NULL name argument"
  | _ => scan (fun e => match_item e (reverse names) st) (scan_from start)
           (drop (scan_from start) (as_tab st))
  end.

(** ** as_find_containing *)

(** Up the owner chain; the fuel is the number of entries. *)
Fixpoint match_name (fuel : nat) (e : asinfo_entry) (name : list byte) (st : as_state)
    : res bool :=
  match fuel with
  | O => Crash cycle_msg
  | S fuel' =>
      let! same := str_is name (as_name e) (as_strs st) in
      if same : bool then Ok true
      else if as_owner e =? AS_NULL_OFF then Ok false
      else let! o := as_get (as_owner e) (as_tab st) in match_name fuel' o name st
  end.

Definition overlaps (start end_ : Z) (e : asinfo_entry) : bool :=
  ((as_start e <=? start) && (start <=? as_end e))
  || ((as_start e <=? end_) && (end_ <=? as_end e))
  || ((start <=? as_start e) && (as_end e <=? end_)).

Definition containing_test (start end_ : Z) (container : list byte) (st : as_state)
    (e : asinfo_entry) : res bool :=
  let! m := match_name (S (length (as_tab st))) e container st in
  if m : bool then Ok (overlaps start end_ e) else Ok false.

Definition as_find_containing (off start end_ : Z) (container : list byte) (st : as_state)
    : res Z :=
  scan (containing_test start end_ container st) (scan_from off)
    (drop (scan_from off) (as_tab st)).

(** ** as_set_priority: an entry and the ones it continues with *)
Fixpoint set_priority_at (i : nat) (priority : Z) (tab : list asinfo_entry)
    : res (list asinfo_entry) :=
  match tab, i with
  | [], _ => Crash bad_offset_msg
  | e :: rest, O =>
      let e' := Asinfo (as_start e) (as_end e) (as_owner e) (as_name e) (as_attr e) priority in
      if has_attr AS_ATTR_CONTINUED e then
        let! rest := set_priority_at O priority rest in Ok (e' :: rest)
      else Ok (e' :: rest)
  | e :: rest, S i' => let! rest := set_priority_at i' priority rest in Ok (e :: rest)
  end.

Definition as_set_priority (off priority : Z) (st : as_state) : res as_state :=
  match as_off2info off (as_tab st) with
  | None => Crash bad_offset_msg
  | Some i =>
      let! tab := set_priority_at i priority (as_tab st) in Ok (AsState tab (as_strs st))
  end.

(** ** as_add_containing *)
Record as_range := AsRange { ar_start : Z; ar_end : Z; ar_owner : Z }.

(** The inner loop: [list_owner] walks the list of pieces. *)
Fixpoint insert_piece (n : as_range) (pieces : list as_range) : list as_range :=
  match pieces with
  | [] => [n]
  | curr :: rest =>
      if (ar_start curr <=? ar_start n) && (ar_start n <=? ar_end curr) then
        if (ar_start curr =? ar_start n) && (ar_end curr =? ar_end n) then
          AsRange (ar_start curr) (ar_end curr) (ar_owner n) :: rest
        else if ar_start curr =? ar_start n then
          n :: AsRange (u64 (ar_end n + 1)) (ar_end curr) (ar_owner curr) :: rest
        else
          AsRange (ar_start curr) (u64 (ar_start n - 1)) (ar_owner curr) :: n ::
          (if ar_end curr =? ar_end n then rest
           else AsRange (u64 (ar_end n + 1)) (ar_end curr) (ar_owner curr) :: rest)
      else curr :: insert_piece n rest
  end.

(** The piece of [[start, end_]] that lies in an entry. *)
Definition piece_of (start end_ : Z) (owner : Z) (e : asinfo_entry) : as_range :=
  AsRange (if start <? as_start e then as_start e else start)
          (if as_end e <? end_ then as_end e else end_) owner.

(** The outer loop: every containing entry after [owner], in order. *)
Fixpoint collect_pieces (fuel : nat) (owner start end_ : Z) (container : list byte)
    (st : as_state) (pieces : list as_range) : res (list as_range) :=
  match fuel with
  | O => Crash "out of fuel"
  | S fuel' =>
      let! owner := as_find_containing owner start end_ container st in
      if owner =? AS_NULL_OFF then Ok pieces
      else
        let! e := as_get owner (as_tab st) in
        collect_pieces fuel' owner start end_ container st
          (insert_piece (piece_of start end_ owner e) pieces)
  end.

(** One entry per non-empty piece; the offsets of the first and the last. *)
Fixpoint add_pieces (pieces : list as_range) (attr : Z) (name : list byte) (start_off off : Z)
    (st : as_state) : res (as_state * Z * Z) :=
  match pieces with
  | [] => Ok (st, start_off, off)
  | p :: rest =>
      if ar_start p <=? ar_end p then
        let! (st, off) := as_add (ar_start p) (ar_end p) attr name (ar_owner p) st in
        add_pieces rest attr name (if start_off =? AS_NULL_OFF then off else start_off) off st
      else add_pieces rest attr name start_off off st
  end.

(** The overlay loop, from [off] to the entry that does not continue. *)
Fixpoint add_overlays (fuel : nat) (off attr : Z) (name : list byte) (st : as_state)
    : res as_state :=
  match fuel with
  | O => Crash "out of fuel"
  | S fuel' =>
      let! e := as_get off (as_tab st) in
      let! (st, _) := as_add (as_start e) (as_end e) attr name off st in
      let! e := as_get off (as_tab st) in
      if has_attr AS_ATTR_CONTINUED e then add_overlays fuel' (off + sizeof_asinfo) attr name st
      else Ok st
  end.

Definition as_add_containing (start end_ attr : Z) (name container : list byte) (st : as_state)
    : res (as_state * Z) :=
  let! pieces := collect_pieces (S (length (as_tab st))) AS_NULL_OFF start end_ container st [] in
  let plain := Z.land attr (u32 (Z.lnot AS_OVERLAY_IO)) in
  let! (st, start_off, off) :=
    add_pieces pieces (Z.lor plain AS_ATTR_CONTINUED) name AS_NULL_OFF 0 st in
  if start_off =? AS_NULL_OFF then Ok (st, start_off)
  else
    let! tab := as_update off
      (fun e => set_attr (Z.land (as_attr e) (u32 (Z.lnot AS_ATTR_CONTINUED))) e) (as_tab st) in
    let st := AsState tab (as_strs st) in
    if Z.land attr AS_OVERLAY_IO =? 0 then Ok (st, start_off)
    else
      let! st := add_overlays (S (length (as_tab st))) start_off plain name st in
      Ok (st, start_off).
End asinfo.
Arguments as_state T : clear implicits.

(** ** Well-formed tables *)
Section asinfo_spec.
Context {T : Type} `{StringTable T} `{abi : asinfo_abi}.
Implicit Types st : as_state T.

(** An entry without its attribute bits. *)
Definition shape (e : asinfo_entry) : asinfo_entry := set_attr 0 e.

(** The name is kept in the table, the range is not empty, and the owner,
    if any, is an earlier entry. *)
Definition entry_ok (strs : T) (i : nat) (e : asinfo_entry) : Prop :=
  (exists n, tb_at strs n (as_name e)) /\ as_start e <= as_end e /\
  (as_owner e = AS_NULL_OFF \/ exists j, (j < i)%nat /\ as_owner e = as_info2off j).

Record as_wf st : Prop := {
  wf_strs : tb_wf (as_strs st);
  wf_room : as_info2off (length (as_tab st)) <= AS_NULL_OFF;
  wf_entries : forall i e, as_tab st !! i = Some e -> entry_ok (as_strs st) i e
}.

Lemma as_info2off_lt i j : as_info2off i < as_info2off j <-> (i < j)%nat.
Proof. unfold as_info2off. pose proof sizeof_asinfo_range. nia. Qed.

Lemma as_off2info_info2off i tab :
  (i < length tab)%nat -> as_off2info (as_info2off i) tab = Some i.
Proof.
  intros Hi. unfold as_off2info, as_info2off. pose proof sizeof_asinfo_range.
  rewrite Z.mod_mul, Z.div_mul by lia.
  assert (0 <= Z.of_nat i * sizeof_asinfo) by nia.
  assert (E1 : (0 <=? Z.of_nat i * sizeof_asinfo) = true) by (apply Z.leb_le; done).
  assert (E2 : (Z.of_nat i <? Z.of_nat (length tab)) = true) by (apply Z.ltb_lt; lia).
  rewrite E1, E2. simpl. by rewrite Nat2Z.id.
Qed.

Lemma as_get_info2off i tab e : tab !! i = Some e -> as_get (as_info2off i) tab = Ok e.
Proof.
  intros He. unfold as_get. rewrite as_off2info_info2off by (by eapply lookup_lt_Some).
  by rewrite He.
Qed.

Lemma as_info2off_not_null st i :
  as_wf st -> (i < length (as_tab st))%nat -> as_info2off i <> AS_NULL_OFF.
Proof. intros W Hi. pose proof (wf_room _ W). apply as_info2off_lt in Hi. lia. Qed.

(** ** The owner chain *)
Inductive named_under (st : as_state T) (name : list byte) : nat -> Prop :=
| nu_here i e : as_tab st !! i = Some e -> tb_find (as_name e) (as_strs st) = Some name ->
    named_under st name i
| nu_up i j e : as_tab st !! i = Some e -> as_owner e = as_info2off j ->
    as_owner e <> AS_NULL_OFF -> named_under st name j -> named_under st name i.

(** match_name terminates on a well-formed table and decides the relation. *)
Lemma match_name_spec st fuel i e name :
  as_wf st -> as_tab st !! i = Some e -> (i < fuel)%nat ->
  exists b, match_name fuel e name st = Ok b /\ (b = true <-> named_under st name i).
Proof.
  intros W. revert i e; induction fuel as [|fuel IH]; intros i e He Hf; [lia|].
  destruct (wf_entries _ W _ _ He) as ((n & Hn) & _ & Hown). simpl.
  unfold str_is. rewrite (tb_find_spec _ _ _ Hn). simpl.
  destruct (decide (n = name)) as [->|Hne].
  { rewrite bool_decide_true by done. exists true. split; [done|]. split; [|done].
    intros _. eapply nu_here; [done|]. by apply tb_find_spec. }
  rewrite bool_decide_false by done.
  assert (Hhere : tb_find (as_name e) (as_strs st) <> Some name).
  { rewrite (tb_find_spec _ _ _ Hn). congruence. }
  destruct (as_owner e =? AS_NULL_OFF) eqn:E; zbool.
  { exists false. split; [done|]. split; [done|]. intros U.
    inversion U as [? e' He' Hn'|? j e' He' Ho Hnn U']; subst; simplify_eq; done. }
  destruct Hown as [?|(j & Hj & Ho)]; [done|].
  assert (is_Some (as_tab st !! j)) as [o Hoj].
  { apply lookup_lt_is_Some. apply lookup_lt_Some in He. lia. }
  rewrite Ho, (as_get_info2off _ _ _ Hoj). simpl.
  destruct (IH j o Hoj ltac:(lia)) as (b & Hb & Hiff). exists b. split; [done|].
  rewrite Hiff. split.
  - intros U. eapply nu_up; eauto.
  - intros U. inversion U as [? e' He' Hn'|? j' e' He' Ho' Hnn U']; subst; simplify_eq.
    assert (j' = j) as ->; [|done]. rewrite Ho in Ho'. unfold as_info2off in Ho'.
    pose proof sizeof_asinfo_range. nia.
Qed.

Definition meets (start end_ : Z) (e : asinfo_entry) : Prop :=
  exists x, start <= x <= end_ /\ as_start e <= x <= as_end e.

Lemma overlaps_spec start end_ e :
  start <= end_ -> as_start e <= as_end e ->
  overlaps start end_ e = true <-> meets start end_ e.
Proof.
  intros. unfold overlaps, meets.
  rewrite !orb_true_iff, !andb_true_iff, !Z.leb_le. split.
  - intros ?. exists (Z.max start (as_start e)). lia.
  - intros (x & ? & ?). lia.
Qed.

(** Entry [i] is a container of part of the range. *)
Definition hit st (start end_ : Z) (container : list byte) (i : nat) : Prop :=
  named_under st container i /\ exists e, as_tab st !! i = Some e /\ meets start end_ e.

Lemma containing_test_spec st start end_ container i e :
  as_wf st -> start <= end_ -> as_tab st !! i = Some e ->
  exists b, containing_test start end_ container st e = Ok b /\
            (b = true <-> hit st start end_ container i).
Proof.
  intros W Hle He. destruct (wf_entries _ W _ _ He) as (_ & Hse & _).
  unfold containing_test.
  destruct (match_name_spec st (S (length (as_tab st))) i e container W He) as (b & -> & Hb).
  { apply lookup_lt_Some in He. lia. }
  unfold hit. simpl. destruct b.
  - eexists; split; [done|]. rewrite overlaps_spec by done. split; [|naive_solver].
    split; [by apply Hb|eauto].
  - eexists; split; [done|]. split; [done|]. intros [U _]. by apply Hb.
Qed.

Lemma scan_spec st (P : nat -> Prop) test i tab :
  (forall j e, tab !! j = Some e -> exists b, test e = Ok b /\ (b = true <-> P (i + j)%nat)) ->
  exists r, scan test i tab = Ok r /\
    ((r = AS_NULL_OFF /\ forall j, (j < length tab)%nat -> ~ P (i + j)%nat) \/
     (exists j, (j < length tab)%nat /\ r = as_info2off (i + j)%nat /\ P (i + j)%nat /\
        forall k, (k < j)%nat -> ~ P (i + k)%nat)).
Proof.
  revert i; induction tab as [|e tab IH]; intros i HT; simpl.
  { eexists; split; [done|]. left. split; [done|]. intros; lia. }
  destruct (HT 0%nat e eq_refl) as (b & -> & Hb). rewrite Nat.add_0_r in Hb. simpl. destruct b.
  { eexists; split; [done|]. right. exists 0%nat. rewrite Nat.add_0_r.
    split_and!; [lia|done|naive_solver|intros; lia]. }
  destruct (IH (S i)) as (r & -> & Hr).
  { intros j e' Hj. destruct (HT (S j) e' Hj) as (b & ? & ?). exists b.
    by rewrite Nat.add_succ_l, <- Nat.add_succ_r. }
  eexists; split; [done|]. destruct Hr as [[-> HN]|(j & Hj & -> & HP & HN)].
  - left. split; [done|]. intros [|j] Hj; [rewrite Nat.add_0_r; naive_solver|].
    rewrite Nat.add_succ_r, <- Nat.add_succ_l. apply HN. lia.
  - right. exists (S j). rewrite Nat.add_succ_r, <- Nat.add_succ_l.
    split_and!; [lia|done|done|]. intros [|k] Hk; [rewrite Nat.add_0_r; naive_solver|].
    rewrite Nat.add_succ_r, <- Nat.add_succ_l. apply HN. lia.
Qed.

(** First container after [off], or none: as_find_containing is total and exact. *)
Lemma as_find_containing_spec st off start end_ container :
  as_wf st -> start <= end_ ->
  exists r, as_find_containing off start end_ container st = Ok r /\
    ((r = AS_NULL_OFF /\ forall j, (scan_from off <= j)%nat -> ~ hit st start end_ container j) \/
     (exists j, (scan_from off <= j < length (as_tab st))%nat /\ r = as_info2off j /\
        hit st start end_ container j /\
        forall k, (scan_from off <= k < j)%nat -> ~ hit st start end_ container k)).
Proof.
  intros W Hle. unfold as_find_containing. set (i := scan_from off).
  destruct (scan_spec st (hit st start end_ container)
    (containing_test start end_ container st) i (drop i (as_tab st))) as (r & -> & Hr).
  { intros j e He. rewrite lookup_drop in He. by apply containing_test_spec. }
  eexists; split; [done|]. rewrite length_drop in Hr.
  destruct Hr as [[-> HN]|(j & Hj & -> & HP & HN)].
  - left. split; [done|]. intros j Hj HH. assert (HH' := HH).
    destruct HH' as (_ & e & He & _). apply lookup_lt_Some in He.
    apply (HN (j - i)%nat); [lia|]. by replace (i + (j - i))%nat with j by lia.
  - right. exists (i + j)%nat. split_and!; [lia|lia|done|done|].
    intros k Hk HH. apply (HN (k - i)%nat); [lia|]. by replace (i + (k - i))%nat with k by lia.
Qed.

(** ** as_add: one more entry at the end *)
Definition keeps (strs strs' : T) : Prop := forall m o, tb_at strs m o -> tb_at strs' m o.

Lemma keeps_trans s1 s2 s3 : keeps s1 s2 -> keeps s2 s3 -> keeps s1 s3.
Proof. unfold keeps. auto. Qed.

Definition owner_ok (n : nat) (owner : Z) : Prop :=
  owner = AS_NULL_OFF \/ exists j, (j < n)%nat /\ owner = as_info2off j.

Lemma alter_set_attr_shape f i (tab : list asinfo_entry) :
  shape <$> alter (fun e => set_attr (f e) e) i tab = shape <$> tab.
Proof.
  revert i; induction tab as [|e tab IH]; intros [|i]; try done.
  change (shape e :: (shape <$> alter (fun e => set_attr (f e) e) i tab)
    = shape e :: (shape <$> tab)). by rewrite IH.
Qed.

Lemma as_update_attr off f (tab tab' : list asinfo_entry) :
  as_update off (fun e => set_attr (f e) e) tab = Ok tab' -> shape <$> tab' = shape <$> tab.
Proof.
  unfold as_update. destruct (as_off2info off tab); [|done]. intros [= <-].
  apply alter_set_attr_shape.
Qed.

Lemma as_update_info2off i f (tab : list asinfo_entry) :
  (i < length tab)%nat -> as_update (as_info2off i) f tab = Ok (alter f i tab).
Proof. intros Hi. unfold as_update. by rewrite as_off2info_info2off. Qed.

Lemma shape_lookup (tab1 tab2 : list asinfo_entry) i e :
  shape <$> tab1 = shape <$> tab2 -> tab1 !! i = Some e ->
  exists e', tab2 !! i = Some e' /\ shape e = shape e'.
Proof.
  intros HS He. assert (HL : (shape <$> tab2) !! i = Some (shape e)).
  { rewrite <- HS, list_lookup_fmap, He. done. }
  rewrite list_lookup_fmap in HL. destruct (tab2 !! i) as [e'|]; [|done].
  exists e'. split; [done|]. simpl in HL. congruence.
Qed.

Lemma shape_fields e e' : shape e = shape e' ->
  as_start e = as_start e' /\ as_end e = as_end e' /\ as_owner e = as_owner e' /\
  as_name e = as_name e' /\ as_priority e = as_priority e'.
Proof. destruct e, e'; unfold shape, set_attr; simpl. intros [=]; subst. auto 10. Qed.

(** Well-formedness does not depend on attributes, and a table may change
    its strings as long as it keeps them. *)
Lemma as_wf_shape st tab :
  as_wf st -> shape <$> tab = shape <$> as_tab st -> as_wf (AsState tab (as_strs st)).
Proof.
  intros [W1 W2 W3] HS. assert (HL := f_equal length HS). rewrite !length_fmap in HL.
  constructor; simpl; [done|by rewrite HL|]. intros i e He.
  destruct (shape_lookup _ _ _ _ HS He) as (e' & He' & HE).
  apply shape_fields in HE as (E1 & E2 & E3 & E4 & _). unfold entry_ok.
  rewrite E1, E2, E3, E4. by apply W3.
Qed.

Definition new_entry (start end_ owner no : Z) : asinfo_entry :=
  Asinfo start end_ owner no 0 AS_PRIORITY_DEFAULT.

(** What one call of the body does to the table. *)
Definition appended st st' (start end_ owner : Z) (name : list byte) : Prop :=
  as_wf st' /\ keeps (as_strs st) (as_strs st') /\
  exists no, tb_at (as_strs st') name no /\
    shape <$> as_tab st' = (shape <$> as_tab st) ++ [new_entry start end_ owner no].

Lemma as_add_entry_spec st st' start end_ attr name owner off :
  as_wf st -> good_name name -> start <= end_ -> owner_ok (length (as_tab st)) owner ->
  as_info2off (S (length (as_tab st))) <= AS_NULL_OFF ->
  as_add_entry start end_ attr name owner st = Ok (st', off) ->
  appended st st' start end_ owner name /\ off = as_info2off (length (as_tab st)).
Proof.
  intros W HN Hle Hown Hroom. unfold as_add_entry. intros HA.
  apply res_bind_Ok in HA as ([s1 no] & H1 & HA). apply res_bind_Ok in HA as (s2 & H2 & HA).
  apply res_bind_Ok in HA as (tab & H3 & HA). injection HA as <- <-.
  destruct (tb_add_spec _ _ _ _ (wf_strs _ W) HN H1) as (W1 & A1 & K1).
  destruct (tb_grow_spec _ _ W1 H2) as (W2 & K2). split; [|done].
  set (e := Asinfo start end_ owner no (Z.land attr 65535) AS_PRIORITY_DEFAULT) in *.
  assert (HS : shape <$> tab = shape <$> (as_tab st ++ [e])).
  { destruct (owner =? AS_NULL_OFF); [by injection H3 as <-|].
    revert H3. apply as_update_attr. }
  assert (WA : as_wf (AsState (as_tab st ++ [e]) s2)).
  { constructor; simpl; [done|by rewrite length_app, Nat.add_1_r|]. intros i x Hx.
    assert (KK : keeps (as_strs st) s2) by (eapply keeps_trans; eauto).
    apply lookup_app_Some in Hx as [Hx|[Hi Hx]].
    - destruct (wf_entries _ W _ _ Hx) as ((n & ?) & ? & ?). split_and!; eauto.
    - apply list_lookup_singleton_Some in Hx as [Hi' <-]. split_and!; simpl; eauto.
      destruct Hown as [->|(j & ? & ->)]; [auto|]. right. exists j. split; [lia|done]. }
  split; [exact (as_wf_shape _ tab WA HS)|]. split; [eapply keeps_trans; eauto|].
  exists no. split; [by apply K2|]. simpl. rewrite HS, fmap_app. done.
Qed.

Lemma appended_length st st' start end_ owner name :
  appended st st' start end_ owner name -> length (as_tab st') = S (length (as_tab st)).
Proof.
  intros (_ & _ & no & _ & HS). apply (f_equal length) in HS.
  rewrite length_app, !length_fmap in HS. simpl in HS. lia.
Qed.

(** Without the overlay bit as_add is its body. *)
Lemma as_add_plain start end_ attr name owner st :
  Z.land attr AS_OVERLAY_IO = 0 ->
  as_add start end_ attr name owner st = as_add_entry start end_ attr name owner st.
Proof.
  intros HO. unfold as_add, as_add64. rewrite HO. simpl.
  destruct (as_add_entry _ _ _ _ _ _) as [[? ?]|]; done.
Qed.

(** ** Pieces *)
Definition in_piece (p : as_range) (x : Z) : Prop := ar_start p <= x <= ar_end p.
Definition piece_cover (ps : list as_range) (x : Z) : Prop := Exists (fun p => in_piece p x) ps.
Definition piece_bounded (p : as_range) : Prop :=
  0 <= ar_start p <= 9223372036854775808 /\ 0 <= ar_end p < 9223372036854775808.

(** A new piece adds its range and loses none of the others'. *)
Lemma insert_piece_cover n ps x :
  piece_bounded n -> ar_start n <= ar_end n -> Forall piece_bounded ps ->
  piece_cover (insert_piece n ps) x <-> in_piece n x \/ piece_cover ps x.
Proof.
  intros Bn Nn. unfold piece_bounded in *. induction 1 as [|p ps Bp _ IH]; simpl.
  { unfold piece_cover. rewrite Exists_cons, Exists_nil. tauto. }
  unfold piece_cover in *. unfold in_piece in *.
  repeat zcase; rewrite !Exists_cons; simpl; width_simpl; rewrite ?IH;
    try tauto; set (R := Exists _ ps); clearbody R;
    destruct (Z_le_dec (ar_start n) x), (Z_le_dec x (ar_end n)),
      (Z_le_dec (ar_start p) x), (Z_le_dec x (ar_end p)); intuition lia.
Qed.

(** A property of (start, end, owner) that passes to smaller ranges holds
    of every non-empty piece. *)
Lemma insert_piece_Forall (Q : Z -> Z -> Z -> Prop) n ps :
  (forall s e s' e' o, Q s e o -> s <= s' -> s' <= e' -> e' <= e -> Q s' e' o) ->
  piece_bounded n -> ar_start n <= ar_end n -> Forall piece_bounded ps ->
  let ok p := ar_start p <= ar_end p -> Q (ar_start p) (ar_end p) (ar_owner p) in
  ok n -> Forall ok ps -> Forall ok (insert_piece n ps).
Proof.
  intros Mono Bn Nn Bps ok On. induction Bps as [|p ps Bp Bps IH]; intros HF; simpl; [auto|].
  inversion HF as [|? ? Op HF']; subst. unfold piece_bounded in *.
  repeat zcase; repeat constructor; auto; unfold ok in *; simpl; width_simpl.
  1: intros Hle; replace (ar_start p) with (ar_start n) by congruence;
     replace (ar_end p) with (ar_end n) by congruence; apply On; lia.
  all: intros Hle; eapply Mono; [apply Op| | |]; lia.
Qed.

Lemma insert_piece_bounded n ps :
  piece_bounded n -> Forall piece_bounded ps -> Forall piece_bounded (insert_piece n ps).
Proof.
  intros Bn. induction 1 as [|p ps Bp Bps IH]; simpl; [auto|].
  repeat zcase; rewrite ?Forall_cons; unfold piece_bounded in *; simpl; width_simpl;
    split_and!; auto; try lia.
Qed.

(** ** as_add_containing *)

(** What every piece satisfies: inside the request, inside its owner, and
    the owner is under the container's name. *)
Definition piece_ok st (start end_ : Z) (container : list byte) (s e o : Z) : Prop :=
  start <= s /\ e <= end_ /\ exists i x, as_tab st !! i = Some x /\ o = as_info2off i /\
    as_start x <= s /\ e <= as_end x /\ named_under st container i.

Definition pieces_ok st (start end_ : Z) (container : list byte) (ps : list as_range) : Prop :=
  Forall piece_bounded ps /\
  Forall (fun p => ar_start p <= ar_end p ->
            piece_ok st start end_ container (ar_start p) (ar_end p) (ar_owner p)) ps.

Lemma piece_ok_mono st start end_ container s e s' e' o :
  piece_ok st start end_ container s e o -> s <= s' -> s' <= e' -> e' <= e ->
  piece_ok st start end_ container s' e' o.
Proof.
  intros (? & ? & i & x & ? & ? & ? & ? & ?) ? ? ?. split_and!; [lia|lia|].
  exists i, x. split_and!; auto; lia.
Qed.

(** Entries hold addresses of the physical address space. *)
Definition ranges_bounded st : Prop :=
  Forall (fun e => 0 <= as_start e /\ as_end e < 9223372036854775808) (as_tab st).

(** The union the pieces must reach: the part of the request that lies in
    the containers from index [k] on. *)
Definition contained st (start end_ : Z) (container : list byte) (k : nat) (x : Z) : Prop :=
  start <= x <= end_ /\ exists i e, (k <= i)%nat /\ as_tab st !! i = Some e /\
    named_under st container i /\ as_start e <= x <= as_end e.

Lemma piece_of_spec st start end_ container i e :
  ranges_bounded st -> 0 <= start <= end_ -> end_ < 9223372036854775808 ->
  as_tab st !! i = Some e -> hit st start end_ container i ->
  let p := piece_of start end_ (as_info2off i) e in
  piece_bounded p /\ ar_start p <= ar_end p /\
  piece_ok st start end_ container (ar_start p) (ar_end p) (ar_owner p) /\
  forall x, in_piece p x <-> start <= x <= end_ /\ as_start e <= x <= as_end e.
Proof.
  intros RB Hs He Hi (U & e' & He' & y & Hy1 & Hy2) p. simplify_eq.
  unfold ranges_bounded in RB. rewrite Forall_lookup in RB. specialize (RB _ _ Hi).
  unfold p, piece_of, piece_bounded, in_piece, piece_ok; simpl.
  repeat zcase; split_and!; try lia; try (exists i, e; split_and!; auto; lia); intros; lia.
Qed.

Lemma scan_from_info2off i : as_info2off i <> AS_NULL_OFF -> scan_from (as_info2off i) = S i.
Proof.
  intros HN. unfold scan_from. destruct (_ =? _) eqn:E; zbool; [done|]. f_equal.
  unfold as_info2off. pose proof sizeof_asinfo_range. rewrite Z.div_mul by lia. lia.
Qed.

Lemma contained_step st start end_ container k j e x :
  (k <= j)%nat -> as_tab st !! j = Some e -> hit st start end_ container j ->
  (forall i, (k <= i < j)%nat -> ~ hit st start end_ container i) ->
  contained st start end_ container k x <->
  (start <= x <= end_ /\ as_start e <= x <= as_end e) \/ contained st start end_ container (S j) x.
Proof.
  intros Hkj He HH HN. unfold contained. split.
  - intros (Hx & i & e' & Hi & He' & U & Hx'). destruct (decide (i = j)) as [->|Hne].
    + left. simplify_eq. auto.
    + right. split; [done|]. exists i, e'. split_and!; auto; try lia.
      destruct (decide (i < j)%nat) as [?|?]; [exfalso|lia].
      apply (HN i); [lia|]. split; [done|]. exists e'. split; [done|]. by exists x.
  - intros [[Hx Hx']|(Hx & i & e' & Hi & He' & U & Hx')].
    + split; [done|]. exists j, e. split_and!; auto; try lia. apply HH.
    + split; [done|]. exists i, e'. split_and!; auto; lia.
Qed.

Lemma collect_pieces_spec st fuel off start end_ container ps :
  as_wf st -> ranges_bounded st -> 0 <= start <= end_ -> end_ < 9223372036854775808 ->
  (length (as_tab st) < fuel + scan_from off)%nat -> (scan_from off <= length (as_tab st))%nat ->
  pieces_ok st start end_ container ps ->
  exists ps', collect_pieces fuel off start end_ container st ps = Ok ps' /\
    pieces_ok st start end_ container ps' /\
    forall x, piece_cover ps' x <->
              piece_cover ps x \/ contained st start end_ container (scan_from off) x.
Proof.
  intros W RB Hs He. revert off ps; induction fuel as [|fuel IH]; intros off ps Hf Hoff [PB PO];
    [lia|]. simpl.
  destruct (as_find_containing_spec st off start end_ container W) as (r & -> & Hr); [lia|].
  simpl. destruct Hr as [[-> HN]|(j & Hj & -> & HH & HN)].
  - rewrite Z.eqb_refl. exists ps. split; [done|]. split; [done|]. intros x.
    split; [auto|]. intros [?|(Hx & i & e & Hi & He' & U & Hx')]; [done|exfalso].
    apply (HN i Hi). split; [done|]. exists e. split; [done|]. by exists x.
  - pose proof (as_info2off_not_null st j W ltac:(lia)) as NN.
    assert (EN : (as_info2off j =? AS_NULL_OFF) = false) by (by apply Z.eqb_neq). rewrite EN.
    assert (is_Some (as_tab st !! j)) as [e Hje] by (apply lookup_lt_is_Some; lia).
    rewrite (as_get_info2off _ _ _ Hje). simpl.
    destruct (piece_of_spec st start end_ container j e RB Hs He Hje HH) as (B & NE & OK & IN).
    set (p := piece_of start end_ (as_info2off j) e) in *. clearbody p.
    destruct (IH (as_info2off j) (insert_piece p ps)) as (ps' & -> & PO' & CV).
    + rewrite scan_from_info2off by done. lia.
    + rewrite scan_from_info2off by done. lia.
    + split; [by apply insert_piece_bounded|].
      apply (insert_piece_Forall (piece_ok st start end_ container)); auto.
      intros; eapply piece_ok_mono; eauto.
    + exists ps'. split; [done|]. split; [done|]. intros x. rewrite CV.
      rewrite insert_piece_cover, IN, scan_from_info2off by done.
      rewrite (contained_step st start end_ container (scan_from off) j e x); auto; [tauto|lia].
Qed.

(** The only way to fail is that the system page has no room left. *)
Definition table_failure (m : string) : Prop :=
  (exists n t, tb_add n t = Crash m) \/ (exists t, tb_grow (T := T) t = Crash m).

Lemma as_add_entry_total st start end_ attr name owner :
  owner_ok (length (as_tab st)) owner ->
  match as_add_entry start end_ attr name owner st with
  | Ok (st', _) => length (as_tab st') = S (length (as_tab st))
  | Crash m => table_failure m
  end.
Proof.
  intros HO. unfold as_add_entry.
  destruct (tb_add name (as_strs st)) as [[s1 no]|m] eqn:E1; simpl; [|left; eauto].
  destruct (tb_grow s1) as [s2|m] eqn:E2; simpl; [|right; eauto].
  destruct (owner =? AS_NULL_OFF) eqn:EO; zbool; simpl; [by rewrite length_app, Nat.add_1_r|].
  destruct HO as [?|(j & Hj & ->)]; [done|].
  rewrite as_update_info2off by (rewrite length_app; lia). simpl.
  rewrite length_alter, length_app, Nat.add_1_r. done.
Qed.

Definition nonempty_piece (p : as_range) : bool := ar_start p <=? ar_end p.

Definition entry_of_piece (strs : T) (name : list byte) (p : as_range) (e : asinfo_entry) : Prop :=
  as_start e = ar_start p /\ as_end e = ar_end p /\ as_owner e = ar_owner p /\
  tb_at strs name (as_name e).

Lemma owner_ok_mono n m owner : (n <= m)%nat -> owner_ok n owner -> owner_ok m owner.
Proof. intros Hn [->|(j & ? & ->)]; [by left|]. right. exists j. split; [lia|done]. Qed.

Lemma add_pieces_length ps attr name so off st st' so' off' :
  Z.land attr AS_OVERLAY_IO = 0 ->
  Forall (fun p => ar_start p <= ar_end p -> owner_ok (length (as_tab st)) (ar_owner p)) ps ->
  add_pieces ps attr name so off st = Ok (st', so', off') ->
  (length (as_tab st) <= length (as_tab st'))%nat.
Proof.
  intros HA. revert so off st; induction ps as [|p ps IH]; intros so off st HF; simpl.
  { by intros [= -> _ _]. }
  inversion HF as [|? ? Hp HF']; subst. destruct (_ <=? _) eqn:E; zbool; [|by apply IH].
  rewrite as_add_plain by done. intros HB. apply res_bind_Ok in HB as ([s1 o1] & H1 & HB).
  pose proof (as_add_entry_total st (ar_start p) (ar_end p) attr name (ar_owner p) (Hp E)) as L.
  rewrite H1 in L. etrans; [|eapply IH; [|exact HB]]; [lia|].
  eapply Forall_impl; [exact HF'|]. intros q Hq Hle.
  eapply owner_ok_mono; [|by apply Hq]. lia.
Qed.

Lemma add_pieces_crash ps attr name so off st m :
  Z.land attr AS_OVERLAY_IO = 0 ->
  Forall (fun p => ar_start p <= ar_end p -> owner_ok (length (as_tab st)) (ar_owner p)) ps ->
  add_pieces ps attr name so off st = Crash m -> table_failure m.
Proof.
  intros HA. revert so off st; induction ps as [|p ps IH]; intros so off st HF; simpl; [done|].
  inversion HF as [|? ? Hp HF']; subst. destruct (_ <=? _) eqn:E; zbool; [|by apply IH].
  rewrite as_add_plain by done. specialize (Hp E).
  pose proof (as_add_entry_total st (ar_start p) (ar_end p) attr name (ar_owner p) Hp) as L.
  destruct (as_add_entry _ _ _ _ _ _) as [[s2 o2]|m2]; [|by intros [= <-]].
  cbn [res_bind]. apply IH. eapply Forall_impl; [exact HF'|]. intros x Hx Hle.
  eapply owner_ok_mono; [|by apply Hx]. lia.
Qed.

Lemma add_pieces_spec ps attr name so off st :
  as_wf st -> good_name name -> Z.land attr AS_OVERLAY_IO = 0 ->
  Forall (fun p => ar_start p <= ar_end p -> owner_ok (length (as_tab st)) (ar_owner p)) ps ->
  match add_pieces ps attr name so off st with
  | Ok (st', so', off') =>
      as_info2off (length (as_tab st')) <= AS_NULL_OFF ->
      as_wf st' /\ keeps (as_strs st) (as_strs st') /\
      exists news, shape <$> as_tab st' = (shape <$> as_tab st) ++ news /\
        Forall2 (entry_of_piece (as_strs st') name)
          (List.filter nonempty_piece ps) news /\
        so' = (if so =? AS_NULL_OFF
               then match news with [] => AS_NULL_OFF | _ => as_info2off (length (as_tab st)) end
               else so)
  | Crash m => table_failure m
  end.
Proof.
  intros W HN HA. revert so off st W; induction ps as [|p ps IH]; intros so off st W HF.
  { simpl. intros _. split; [done|]. split; [by intros ? ?|]. exists []. rewrite app_nil_r.
    split_and!; [done|constructor|]. by destruct (so =? AS_NULL_OFF) eqn:E; zbool. }
  inversion HF as [|? ? Hp HF']; subst. cbn [add_pieces List.filter]. unfold nonempty_piece.
  destruct (_ <=? _) eqn:E; zbool; [|by apply IH].
  rewrite as_add_plain by done. specialize (Hp E).
  pose proof (as_add_entry_total st (ar_start p) (ar_end p) attr name (ar_owner p) Hp) as L.
  destruct (as_add_entry _ _ _ _ _ _) as [[s1 o1]|m] eqn:H1; [|done]. cbn [res_bind].
  assert (HF1 : Forall (fun p => ar_start p <= ar_end p ->
    owner_ok (length (as_tab s1)) (ar_owner p)) ps).
  { eapply Forall_impl; [exact HF'|]. intros q Hq Hle.
    eapply owner_ok_mono; [|by apply Hq]. lia. }
  set (so1 := if so =? AS_NULL_OFF then o1 else so).
  destruct (add_pieces ps attr name so1 o1 s1) as [[[s2 so2] o2]|m] eqn:H2.
  - intros Hroom. pose proof (add_pieces_length _ _ _ _ _ _ _ _ _ HA HF1 H2) as L2.
    destruct (as_add_entry_spec st s1 (ar_start p) (ar_end p) attr name (ar_owner p) o1)
      as [(W1 & K1 & no & Hno & S1) Ho]; auto.
    { assert (as_info2off (S (length (as_tab st))) <= as_info2off (length (as_tab s2))).
      { unfold as_info2off. pose proof sizeof_asinfo_range. nia. } lia. }
    specialize (IH so1 o1 s1 W1 HF1). rewrite H2 in IH.
    destruct (IH Hroom) as (W2 & K2 & news & S2 & F2 & ->).
    split; [done|]. split; [by eapply keeps_trans|].
    exists (new_entry (ar_start p) (ar_end p) (ar_owner p) no :: news).
    rewrite S2, S1, <- app_assoc. split; [done|]. split.
    + constructor; [|done]. unfold entry_of_piece; simpl. auto.
    + unfold so1. destruct (so =? AS_NULL_OFF) eqn:E2; zbool; [|by rewrite (proj2 (Z.eqb_neq _ _) E2)].
      rewrite Ho. assert (NN : as_info2off (length (as_tab st)) <> AS_NULL_OFF).
      { apply (as_info2off_not_null s1); [done|lia]. }
      by rewrite (proj2 (Z.eqb_neq _ _) NN).
  - by eapply add_pieces_crash.
Qed.

(** The offset of the last piece added is an entry of the table. *)
Definition last_ok st (so off : Z) : Prop :=
  so = AS_NULL_OFF \/ exists j, (j < length (as_tab st))%nat /\ off = as_info2off j.

Lemma add_pieces_last ps attr name so off st st' so' off' :
  Z.land attr AS_OVERLAY_IO = 0 ->
  Forall (fun p => ar_start p <= ar_end p -> owner_ok (length (as_tab st)) (ar_owner p)) ps ->
  last_ok st so off ->
  add_pieces ps attr name so off st = Ok (st', so', off') -> last_ok st' so' off'.
Proof.
  intros HA. revert so off st; induction ps as [|p ps IH]; intros so off st HF HL; simpl.
  { by intros [= -> -> ->]. }
  inversion HF as [|? ? Hp HF']; subst. destruct (_ <=? _) eqn:E; zbool; [|by apply IH].
  rewrite as_add_plain by done. intros HB. apply res_bind_Ok in HB as ([s1 o1] & H1 & HB).
  pose proof (as_add_entry_total st (ar_start p) (ar_end p) attr name (ar_owner p) (Hp E)) as L.
  rewrite H1 in L. revert HB. apply IH.
  - eapply Forall_impl; [exact HF'|]. intros q Hq Hle.
    eapply owner_ok_mono; [|by apply Hq]. lia.
  - right. exists (length (as_tab st)). split; [lia|].
    revert H1. unfold as_add_entry. intros H1.
    apply res_bind_Ok in H1 as ([s2 no] & _ & H1). apply res_bind_Ok in H1 as (s3 & _ & H1).
    apply res_bind_Ok in H1 as (tab & _ & H1). by injection H1.
Qed.

Definition entry_covers (e : asinfo_entry) (x : Z) : Prop := as_start e <= x <= as_end e.

Lemma entries_cover ps news strs name x :
  Forall2 (entry_of_piece strs name) (List.filter nonempty_piece ps) news ->
  Exists (fun e => entry_covers e x) news <-> piece_cover ps x.
Proof.
  revert news; induction ps as [|p ps IH]; intros news; simpl.
  { intros F. inversion F; subst. unfold piece_cover. by rewrite !Exists_nil. }
  unfold nonempty_piece at 1. destruct (_ <=? _) eqn:E; zbool.
  - intros F. inversion F as [|? e ? news' Hpe F']; subst. unfold piece_cover.
    rewrite !Exists_cons. fold (piece_cover ps x). rewrite (IH _ F').
    destruct Hpe as (H1 & H2 & _). unfold entry_covers, in_piece. rewrite H1, H2. tauto.
  - intros F. rewrite (IH _ F). unfold piece_cover. rewrite Exists_cons. fold (piece_cover ps x).
    unfold in_piece. intuition lia.
Qed.

Lemma pieces_owner_ok st start end_ container ps :
  pieces_ok st start end_ container ps ->
  Forall (fun p => ar_start p <= ar_end p -> owner_ok (length (as_tab st)) (ar_owner p)) ps.
Proof.
  intros [_ P]. eapply Forall_impl; [exact P|]. intros p Hp Hle.
  destruct (Hp Hle) as (_ & _ & i & x & Hi & -> & _). right. exists i.
  split; [by eapply lookup_lt_Some|done].
Qed.

(** One new entry: named, and inside an owner under the container's name. *)
Definition placed st (strs' : T) (name container : list byte) (e : asinfo_entry) : Prop :=
  tb_find (as_name e) strs' = Some name /\
  exists i o, as_tab st !! i = Some o /\ as_owner e = as_info2off i /\
    as_start o <= as_start e /\ as_end e <= as_end o /\ named_under st container i.

Lemma entries_placed st strs' start end_ name container ps news :
  pieces_ok st start end_ container ps ->
  Forall2 (entry_of_piece strs' name) (List.filter nonempty_piece ps) news ->
  Forall (placed st strs' name container) news.
Proof.
  intros [_ P]. revert news; induction P as [|p ps Hp P IH]; intros news; simpl.
  { intros F. inversion F; constructor. }
  destruct (nonempty_piece p) eqn:E; [|apply IH]. intros F.
  inversion F as [|? e ? news' Hpe F']; subst. constructor; [|by apply IH].
  destruct Hpe as (H1 & H2 & H3 & H4). unfold nonempty_piece in E. zbool.
  destruct (Hp E) as (_ & _ & i & o & Ho & Hi & ? & ? & ?).
  split; [by apply tb_find_spec|]. exists i, o. rewrite H1, H2, H3. auto 6.
Qed.
End asinfo_spec.

(** ** Theorems *)
Section asinfo_theorems.
Context {T : Type} `{StringTable T} `{abi : asinfo_abi}.

(** Searching the tree. On a well-formed table the search for a
    container ends and returns exactly the first entry after the given
    offset that has the name, itself or through an owner, and meets the
    range; AS_NULL_OFF means there is none. *)
Theorem as_find_containing_first (st : as_state T) (off start end_ : Z) (container : list byte) :
  as_wf st -> start <= end_ ->
  exists r, as_find_containing off start end_ container st = Ok r /\
    ((r = AS_NULL_OFF /\ forall j, (scan_from off <= j)%nat -> ~ hit st start end_ container j) \/
     (exists j, (scan_from off <= j < length (as_tab st))%nat /\ r = as_info2off j /\
        hit st start end_ container j /\
        forall k, (scan_from off <= k < j)%nat -> ~ hit st start end_ container k)).
Proof. apply as_find_containing_spec. Qed.

(** Adding a range to its containers. as_add_containing leaves the old
    entries' ranges, names and owners alone and appends entries whose union
    is exactly the part of the range that lies in containers of that name;
    every new entry has the given name and lies inside its owner, the
    result is the first of them (AS_NULL_OFF if there is none), and the
    only failure is a system page without room. *)
Theorem as_add_containing_exact (st : as_state T) (start end_ attr : Z)
    (name container : list byte) :
  as_wf st -> ranges_bounded st -> 0 <= start <= end_ -> end_ < 9223372036854775808 ->
  Z.land attr AS_OVERLAY_IO = 0 -> good_name name -> Z.land AS_ATTR_CONTINUED AS_OVERLAY_IO = 0 ->
  match as_add_containing start end_ attr name container st with
  | Ok (st', r) =>
      as_info2off (length (as_tab st')) <= AS_NULL_OFF ->
      as_wf st' /\ exists news,
        shape <$> as_tab st' = (shape <$> as_tab st) ++ news /\
        (forall x, Exists (fun e => entry_covers e x) news <->
                   contained st start end_ container 0 x) /\
        Forall (placed st (as_strs st') name container) news /\
        r = match news with [] => AS_NULL_OFF | _ => as_info2off (length (as_tab st)) end
  | Crash m => table_failure (T := T) m
  end.
Proof.
  intros W RB Hs He HA HN HC. unfold as_add_containing.
  destruct (collect_pieces_spec st (S (length (as_tab st))) AS_NULL_OFF start end_ container [])
    as (ps & -> & PO & CV); auto; [unfold scan_from; rewrite Z.eqb_refl; lia..|by split|].
  assert (H0 : scan_from AS_NULL_OFF = 0%nat) by (unfold scan_from; by rewrite Z.eqb_refl).
  rewrite H0 in CV. cbn [res_bind].
  assert (HA' : Z.land (Z.lor (Z.land attr (u32 (Z.lnot AS_OVERLAY_IO))) AS_ATTR_CONTINUED)
                  AS_OVERLAY_IO = 0).
  { rewrite Z.land_lor_distr_l, HC, Z.lor_0_r, <- Z.land_assoc, (Z.land_comm (u32 _)),
      Z.land_assoc, HA. done. }
  pose proof (add_pieces_spec ps (Z.lor (Z.land attr (u32 (Z.lnot AS_OVERLAY_IO)))
    AS_ATTR_CONTINUED) name AS_NULL_OFF 0 st W HN HA' (pieces_owner_ok _ _ _ _ _ PO)) as AP.
  destruct (add_pieces _ _ _ _ _ _) as [[[st1 so] off]|m] eqn:EP; [|done]. cbn [res_bind].
  rewrite Z.eqb_refl in AP. rewrite HA.
  assert (Fin : forall st', shape <$> as_tab st' = shape <$> as_tab st1 ->
    as_strs st' = as_strs st1 -> as_info2off (length (as_tab st')) <= AS_NULL_OFF ->
    as_wf st' /\ exists news, shape <$> as_tab st' = (shape <$> as_tab st) ++ news /\
      (forall x, Exists (fun e => entry_covers e x) news <-> contained st start end_ container 0 x) /\
      Forall (placed st (as_strs st') name container) news /\
      so = match news with [] => AS_NULL_OFF | _ => as_info2off (length (as_tab st)) end).
  { intros st' HS HT Hroom. assert (HL := f_equal length HS). rewrite !length_fmap in HL.
    rewrite HL in Hroom. destruct (AP Hroom) as (W1 & K1 & news & S1 & F1 & Hso).
    split. { destruct st' as [tab strs]; simpl in *. subst strs. by apply as_wf_shape. }
    exists news. rewrite HS, HT. split; [done|]. split; [|split; [|done]].
    - intros x. rewrite (entries_cover _ _ _ _ _ F1), CV. unfold piece_cover at 1.
      rewrite Exists_nil. tauto.
    - eapply entries_placed; eauto. }
  destruct (so =? AS_NULL_OFF) eqn:ES; [apply Fin; auto|].
  destruct (as_update off _ (as_tab st1)) as [tab|m] eqn:EU; cbn [res_bind].
  - rewrite Z.eqb_refl. apply (Fin (AsState tab (as_strs st1))); [by apply as_update_attr in EU|done].
  - exfalso. revert EU. unfold as_update. destruct (as_off2info off (as_tab st1)) eqn:EO; [done|].
    intros _. destruct (add_pieces_last _ _ _ _ _ _ _ _ _ HA' (pieces_owner_ok _ _ _ _ _ PO)
      (or_introl eq_refl) EP) as [Hso|(j & Hj & ->)]; [zbool; done|].
    by rewrite as_off2info_info2off in EO.
Qed.
End asinfo_theorems.

(** ** A table in the small page of [Syspage.v], with one entry "memory" *)
Definition example_abi : asinfo_abi.
Proof.
  refine {| sizeof_asinfo := 48; AS_NULL_OFF := 65535; AS_ATTR_CONTINUED := 1;
            AS_ATTR_KIDS := 2; AS_PRIORITY_DEFAULT := 100 |}; [lia|reflexivity|lia].
Defined.

Definition example_table : StringTable syspage.
Proof. refine (syspage_StringTable 1 2 48 _ _); [discriminate|lia]. Defined.

Section example.
Local Existing Instance example_abi.
Local Existing Instance example_table.

Definition empty_asinfo : as_state syspage := AsState [] example_page.

Lemma empty_asinfo_wf : as_wf empty_asinfo.
Proof.
  constructor; [|simpl; unfold as_info2off; simpl; lia|done].
  destruct example_names_hold as [W N]. split; [exact W|by exists []].
Qed.

Definition example_asinfo : as_state syspage :=
  match as_add 0 68719476735 0 (cname "memory") AS_NULL_OFF empty_asinfo with
  | Ok (a, _) => a
  | Crash _ => empty_asinfo
  end.

Lemma good_cname_memory : good_name (cname "memory").
Proof.
  split; [done|]. split; [|simpl; lia].
  unfold cname; simpl. rewrite !elem_of_cons, elem_of_nil. intuition done.
Qed.

Lemma example_asinfo_wf : as_wf example_asinfo.
Proof.
  unfold example_asinfo. rewrite as_add_plain by reflexivity.
  destruct (as_add_entry _ _ _ _ _ _) as [[a off]|m] eqn:E; [|exact empty_asinfo_wf].
  apply as_add_entry_spec in E as [[W _] _]; auto.
  - exact empty_asinfo_wf.
  - exact good_cname_memory.
  - lia.
  - by left.
  - unfold as_info2off; simpl. lia.
Qed.

Lemma example_asinfo_tab : as_tab example_asinfo = [Asinfo 0 68719476735 65535 0 0 100].
Proof. vm_compute. reflexivity. Qed.

Lemma as_find_containing_first_witness :
  as_find_containing AS_NULL_OFF 4096 8191 (cname "memory") example_asinfo = Ok 0 /\
  hit example_asinfo 4096 8191 (cname "memory") 0.
Proof.
  destruct (as_find_containing_first example_asinfo AS_NULL_OFF 4096 8191 (cname "memory")
    example_asinfo_wf ltac:(lia)) as (r & Hr & HH).
  assert (E : as_find_containing AS_NULL_OFF 4096 8191 (cname "memory") example_asinfo = Ok 0)
    by (vm_compute; reflexivity).
  split; [exact E|]. rewrite E in Hr. injection Hr as <-.
  destruct HH as [[HN _]|(j & Hj & Hoff & HH & _)]; [vm_compute in HN; discriminate HN|].
  rewrite example_asinfo_tab in Hj. simpl in Hj. replace j with 0%nat in HH by lia. exact HH.
Defined.

Lemma as_add_containing_exact_witness :
  exists st' r, as_add_containing 4096 8191 0 (cname "ram") (cname "memory") example_asinfo
    = Ok (st', r) /\ as_wf st' /\ length (as_tab st') = 2%nat.
Proof.
  pose proof (as_add_containing_exact example_asinfo 4096 8191 0 (cname "ram") (cname "memory")
    example_asinfo_wf ltac:(unfold ranges_bounded; rewrite example_asinfo_tab; repeat constructor;
      simpl; lia) ltac:(lia) ltac:(lia) eq_refl good_cname_ram eq_refl) as A.
  destruct (as_add_containing _ _ _ _ _ _) as [[st' r]|m] eqn:E.
  - assert (L : length (as_tab st') = 2%nat) by (vm_compute in E; injection E as <- <-; reflexivity).
    exists st', r. split; [reflexivity|]. split; [|exact L]. apply A.
    rewrite L. unfold as_info2off; simpl. lia.
  - vm_compute in E. discriminate E.
Defined.
End example.
