(* ===== verification/Ram.v ===== *)
(** * The RAM allocator of startup (lib/ram.c) and the board's use of it

    The state of ram.c's static variables over the two lists of [RamList] and
    the address-space table of [Asinfo]: working storage, allocation with the
    "sysram" bookkeeping, the registration of RAM with its watchers, and the
    memory map the board registers (boards/bcm/bcm2712/bcm2712_init_raminfo.c).
    [MAKE_1TO1_PTR] is the identity. *)
From S2P Require Import Prelude RamList Syspage Strings Asinfo.

Definition KILO (k : Z) : Z := k * 1024.
Definition MEG (m : Z) : Z := m * (1024 * 1024).
Definition GIG (m : Z) : Z := m * (1024 * 1024 * 1024).

Definition TEMP_SYSPAGE_SIZE : Z := KILO 48.
Definition sizeof_watch_entry : Z := 16.

(** boards/bcm/bcm2712/bcm2712_init_raminfo.c *)
Definition BCM2712_DRAM_BASE : Z := 0.
Definition BCM2712_DRAM_STUB_SIZE : Z := KILO 512.
Definition BCM2712_DRAM_BASE_1 : Z := 4294967296.
Definition BCM2712_DRAM_BASE_2 : Z := 8589934592.

(** init_board_type.c, get_memory_size: megabytes by the revision code. *)
Definition memory_sizes : list Z := [256; 512; 1024; 2048; 4096; 8192; 16384].
Definition get_memory_size (board_rev : Z) : Z :=
  default 0 (memory_sizes !! Z.to_nat (Z.land (Z.shiftr board_rev 20) 7)).

Definition null_lists_msg : string := "ram_list is NULL".
Definition whole_sysram_msg : string := "Can't remove whole sysram entry".
Definition reserve_top_msg : string := "Could not reserve bytes from top of memory".
Definition reserve_msg : string := "Could not reserve bytes of memory".
Definition watcher_msg : string := "No memory for watcher".

(** The image startup was loaded with and the machine it runs on. *)
Record machine := Machine {
  full_ram_paddr : Z;
  shdr_ram_size : Z;
  shdr_startup_size : Z;
  secure_system : bool;
  page_size : Z;               (* __PAGESIZE *)
  id_aa64mmfr0 : Z             (* the register as_default reads *)
}.

Section ram.
Context {T : Type} `{StringTable T} `{abi : asinfo_abi}.
Context (hw : machine) (reloc : Z -> Z -> T -> T).

(** [ws_lists] is None until ws_init has made the two arrays; the watchers
    are function pointers, named by their addresses. *)
Record ram_state := RamState {
  sysram_added : bool;
  ws_early_next : Z;
  temp_syspage : Z;
  ws_lists : option (list avoid_entry * list ram_entry);
  watch_list : list Z;
  asinfo : as_state T;
  zeroed : list (Z * Z);            (* memset calls: (address, size) *)
  watched : list (Z * Z * Z)        (* watcher calls: (watcher, start, size) *)
}.

Definition with_lists (l : option (list avoid_entry * list ram_entry)) (st : ram_state)
    : ram_state :=
  RamState (sysram_added st) (ws_early_next st) (temp_syspage st) l (watch_list st)
    (asinfo st) (zeroed st) (watched st).
Definition with_asinfo (a : as_state T) (st : ram_state) : ram_state :=
  RamState (sysram_added st) (ws_early_next st) (temp_syspage st) (ws_lists st)
    (watch_list st) a (zeroed st) (watched st).
Definition with_zeroed (z : list (Z * Z)) (st : ram_state) : ram_state :=
  RamState (sysram_added st) (ws_early_next st) (temp_syspage st) (ws_lists st)
    (watch_list st) (asinfo st) z (watched st).
Definition with_watched (w : list (Z * Z * Z)) (st : ram_state) : ram_state :=
  RamState (sysram_added st) (ws_early_next st) (temp_syspage st) (ws_lists st)
    (watch_list st) (asinfo st) (zeroed st) w.

(** ** ws_init, avoid_ram, ws_alloc *)

(** The avoid list is allocated first and its first entry covers it; the
    RAM list comes from ws_alloc while it does not exist, so from
    [ws_early_next]; the image itself is avoided last. *)
Definition ws_init (st : ram_state) : res ram_state :=
  let base := ROUND (u64 (full_ram_paddr hw + shdr_ram_size hw)) 8 in
  let next := u64 (base + ROUND MAX_AVOID_LIST_SIZE 8) in
  let size := ROUND MAX_RAM_LIST_SIZE 8 in
  let! avoid := avoid_push next size [AvoidEntry base next] in
  let! avoid := avoid_push (full_ram_paddr hw) (shdr_startup_size hw) avoid in
  Ok (RamState (sysram_added st) (u64 (next + size)) (temp_syspage st) (Some (avoid, []))
        (watch_list st) (asinfo st) (zeroed st) (watched st)).

Definition ensure_ws (st : ram_state) : res ram_state :=
  match ws_lists st with None => ws_init st | Some _ => Ok st end.

Definition avoid_ram (start size : Z) (st : ram_state) : res ram_state :=
  let! st := ensure_ws st in
  match ws_lists st with
  | None => Crash null_lists_msg
  | Some (avoid, ram) =>
      let! avoid := avoid_push start size avoid in
      Ok (with_lists (Some (avoid, ram)) st)
  end.

(** The result is NULL_PADDR for a NULL pointer. *)
Definition ws_alloc (size : Z) (st : ram_state) : res (ram_state * Z) :=
  let! st := ensure_ws st in
  let size := ROUND size 8 in
  match ws_lists st with
  | None => Crash null_lists_msg
  | Some (avoid, ram) =>
      if ram_list_size ram <=? sizeof_ram_entry then
        let paddr := ws_early_next st in
        let st := RamState (sysram_added st) (u64 (paddr + size)) (temp_syspage st)
          (ws_lists st) (watch_list st) (asinfo st) (zeroed st) (watched st) in
        let! st := avoid_ram paddr size st in Ok (st, paddr)
      else
        let paddr := find_ram ram avoid size 8 0 0 in
        if paddr =? NULL_PADDR then Ok (st, NULL_PADDR)
        else let! st := avoid_ram paddr size st in Ok (st, paddr)
  end.

(** ** alloc_ram *)

(** The asinfo part: the "sysram" entries lose [[addr, last]]. *)
Definition cut_sysram (off addr last : Z) (a : as_state T) : res (as_state T) :=
  let! x := as_get off (as_tab a) in
  let s := as_start x in
  let e := as_end x in
  let e' := if e <? last then last else e in
  let s' := if addr <? s then addr else s in
  if (addr =? s') && (last =? e') then Crash whole_sysram_msg
  else if addr =? s' then
    let! tab := as_update off (set_start (u64 (last + 1))) (as_tab a) in
    Ok (AsState tab (as_strs a))
  else
    let! tab := as_update off (set_end (u64 (addr - 1))) (as_tab a) in
    let a := AsState tab (as_strs a) in
    if e' =? last then Ok a
    else
      let! (a, _) := as_add (u64 (last + 1)) e' AS_ATTR_RAM (cname "sysram") (as_owner x) a in
      Ok a.

Fixpoint sysram_loop (fuel : nat) (off addr last : Z) (a : as_state T) : res (as_state T) :=
  match fuel with
  | O => Crash fuel_msg
  | S fuel' =>
      let! off := as_find_containing off addr last (cname "sysram") a in
      if off =? AS_NULL_OFF then Ok a
      else let! a := cut_sysram off addr last a in sysram_loop fuel' off addr last a
  end.

Definition take_ram (addr size : Z) (st : ram_state) : res ram_state :=
  match ws_lists st with
  | None => Crash null_lists_msg
  | Some (avoid, ram) =>
      let! ram := alloc_mem addr size ram in
      let st := with_lists (Some (avoid, ram)) st in
      if sysram_added st then
        let! a := sysram_loop (S (length (as_tab (asinfo st)))) AS_NULL_OFF addr
                    (u64 (addr + size - 1)) (asinfo st) in
        Ok (with_asinfo a st)
      else Ok st
  end.

(** On a secure system the block is zeroed through a 32-bit address. *)
Definition alloc_ram (addr size align : Z) (st : ram_state) : res (ram_state * Z) :=
  if addr =? NULL_PADDR then
    match ws_lists st with
    | None => Crash null_lists_msg
    | Some (avoid, ram) =>
        let a := find_ram ram avoid size align 0 0 in
        if a =? NULL_PADDR then Ok (st, NULL_PADDR)
        else
          let st := if secure_system hw then with_zeroed (zeroed st ++ [(u32 a, size)]) st
                    else st in
          let! st := take_ram a size st in Ok (st, a)
    end
  else let! st := take_ram addr size st in Ok (st, addr).

Definition calloc_ram (size align : Z) (st : ram_state) : res (ram_state * Z) :=
  let! (st, a) := alloc_ram NULL_PADDR size align st in
  if negb (a =? NULL_PADDR) && negb (secure_system hw)
  then Ok (with_zeroed (zeroed st ++ [(a, size)]) st, a)
  else Ok (st, a).

(** ** add_ram *)

(** lib/aarch64/as_default.c *)
Definition pa_bits : list Z := [32; 36; 40; 42; 44; 48; 48; 48].
Definition as_default (a : as_state T) : res (as_state T * Z) :=
  let bits := default 32 (pa_bits !! Z.to_nat (Z.land (id_aa64mmfr0 hw) 7)) in
  as_add 0 (u64 (Z.shiftl 1 bits - 1)) 0 (cname "memory") AS_NULL_OFF a.

(** boards/bcm/bcm2712/init_asinfo.c: the board adds nothing. *)
Definition init_asinfo (mem : Z) (a : as_state T) : res (as_state T) := Ok a.

Definition first_asinfo (a : as_state T) : res (as_state T) :=
  match as_tab a with
  | [] =>
      let! (a, mem) := as_default a in
      let! (a, _) := as_add 0 (GIG 4 - 1) 0 (cname "below4G") mem a in
      init_asinfo mem a
  | _ => Ok a
  end.

(** The temporary system page moves to RAM as soon as there is some. *)
Definition place_syspage (st : ram_state) : res ram_state :=
  if temp_syspage st =? NULL_PADDR then
    match ws_lists st with
    | None => Crash null_lists_msg
    | Some (avoid, ram) =>
        let p := find_ram ram avoid TEMP_SYSPAGE_SIZE (page_size hw) 0 0 in
        let st := RamState (sysram_added st) (ws_early_next st) p (ws_lists st)
          (watch_list st) (asinfo st) (zeroed st) (watched st) in
        if p =? NULL_PADDR then Ok st
        else
          let! st := avoid_ram p TEMP_SYSPAGE_SIZE st in
          Ok (with_asinfo (AsState (as_tab (asinfo st))
                            (reloc p TEMP_SYSPAGE_SIZE (as_strs (asinfo st)))) st)
    end
  else Ok st.

Definition call_watchers (start size : Z) (st : ram_state) : ram_state :=
  with_watched (watched st ++ ((fun w => (w, start, size)) <$> watch_list st)) st.

Definition add_ram (start size : Z) (st : ram_state) : res ram_state :=
  let! a := first_asinfo (asinfo st) in
  let! (a, _) := as_add_containing start (u64 (start + size - 1)) AS_ATTR_RAM
                   (cname "ram") (cname "memory") a in
  let st := with_asinfo a st in
  match ws_lists st with
  | None => Crash null_lists_msg
  | Some (avoid, ram) =>
      let! ram := add_mem start size ram in
      let st := with_lists (Some (avoid, ram)) st in
      let! (st, _) := alloc_ram (u64 (full_ram_paddr hw + shdr_startup_size hw))
                        (u64 (shdr_ram_size hw - shdr_startup_size hw)) 1 st in
      let! st := place_syspage st in
      Ok (call_watchers start size st)
  end.

(** ** add_sysram, watch_add_ram, reserve_ram *)
Fixpoint add_sysram_entries (ram : list ram_entry) (a : as_state T) : res (as_state T) :=
  match ram with
  | [] => Ok a
  | r :: rest =>
      let! (a, _) := as_add_containing (r_addr r) (u64 (r_addr r + r_size r - 1)) AS_ATTR_RAM
                       (cname "sysram") (cname "ram") a in
      add_sysram_entries rest a
  end.

Definition add_sysram (st : ram_state) : res ram_state :=
  let st := call_watchers 0 0 st in
  match ws_lists st with
  | None => Crash null_lists_msg
  | Some (_, ram) =>
      let! a := add_sysram_entries ram (asinfo st) in
      Ok (RamState true (ws_early_next st) (temp_syspage st) (ws_lists st)
            (watch_list st) a (zeroed st) (watched st))
  end.

Definition watch_add_ram (func : Z) (st : ram_state) : res ram_state :=
  let! (st, new) := ws_alloc sizeof_watch_entry st in
  if new =? NULL_PADDR then Crash watcher_msg
  else Ok (RamState (sysram_added st) (ws_early_next st) (temp_syspage st) (ws_lists st)
             (func :: watch_list st) (asinfo st) (zeroed st) (watched st)).

(** [name] is None for NULL. *)
Definition reserve_ram (size align : Z) (name : option (list byte)) (pagesize : Z)
    (low_region : bool) (st : ram_state) : res ram_state :=
  if size =? 0 then Ok st
  else
    let align := if align =? 0 then pagesize else align in
    match ws_lists st with
    | None => Crash null_lists_msg
    | Some (avoid, ram) =>
        let! reserved :=
          if low_region then Ok NULL_PADDR
          else
            let top := find_top_ram_aligned ram avoid size align pagesize in
            if top =? NULL_PADDR then Crash reserve_top_msg else Ok top in
        let! (st, reserved) := alloc_ram reserved size align st in
        if reserved =? NULL_PADDR then Crash reserve_msg
        else
          let name := match name with None | Some [] => cname "reserved" | Some n => n end in
          let! (a, _) := as_add_containing reserved (u64 (reserved + size - 1)) AS_ATTR_RAM
                           name (cname "ram") (asinfo st) in
          Ok (with_asinfo a st)
    end.

(** ** bcm2712_init_raminfo

    [vcram_size] and [rev] are what the firmware reports. *)
Definition add_board_ram (ramsize : Z) (st : ram_state) : res ram_state :=
  if GIG 4 <=? ramsize then
    let! st := add_ram BCM2712_DRAM_BASE (GIG 4 - MEG 64) st in
    let! st := if GIG 8 <=? ramsize then add_ram BCM2712_DRAM_BASE_1 (GIG 4) st else Ok st in
    if GIG 16 <=? ramsize then add_ram BCM2712_DRAM_BASE_2 (GIG 8) st else Ok st
  else add_ram BCM2712_DRAM_BASE ramsize st.

Definition board_ramsize (rev : Z) : Z :=
  let ramsize := MEG (get_memory_size rev) in
  if ramsize =? 0 then MEG 256 else ramsize.

Definition bcm2712_init_raminfo (vcram_size rev : Z) (st : ram_state) : res ram_state :=
  let vcram_start := u64 (GIG 1 - vcram_size) in
  let! st := avoid_ram BCM2712_DRAM_BASE BCM2712_DRAM_STUB_SIZE st in
  let! st := avoid_ram vcram_start vcram_size st in
  let ramsize := board_ramsize rev in
  let! st := add_board_ram ramsize st in
  let! (st, _) := alloc_ram vcram_start vcram_size 0 st in
  let! (a, _) := as_add_containing vcram_start (u64 (vcram_start + vcram_size - 1)) AS_ATTR_RAM
                   (cname "vcram") (cname "ram") (asinfo st) in
  let st := with_asinfo a st in
  if GIG 1 <? ramsize then
    let! (a, _) := as_add_containing BCM2712_DRAM_BASE (u64 (vcram_start - 1)) AS_ATTR_RAM
                     (cname "below1G") (cname "ram") (asinfo st) in
    Ok (with_asinfo a st)
  else Ok st.
End ram.
Arguments ram_state T : clear implicits.

(** ** The tree seen by name: what survives a change of ranges *)
Section tree.
Context {T : Type} `{StringTable T} `{abi : asinfo_abi}.
Implicit Types a : as_state T.

(** Addresses of the entries under a name. *)
Definition region a (name : list byte) (x : Z) : Prop :=
  exists i e, as_tab a !! i = Some e /\ named_under a name i /\ as_start e <= x <= as_end e.

(** The entries of [a] keep their names and owners in [a']. *)
Definition same_tree a a' : Prop :=
  keeps (as_strs a) (as_strs a') /\
  forall i e, as_tab a !! i = Some e -> exists e', as_tab a' !! i = Some e' /\
    as_owner e' = as_owner e /\ as_name e' = as_name e.

Lemma same_tree_trans a b c : same_tree a b -> same_tree b c -> same_tree a c.
Proof.
  intros [K1 T1] [K2 T2]. split; [by eapply keeps_trans|]. intros i e He.
  destruct (T1 _ _ He) as (e1 & H1 & O1 & N1). destruct (T2 _ _ H1) as (e2 & H2 & O2 & N2).
  exists e2. split_and!; [done|congruence|congruence].
Qed.

Lemma same_tree_find a a' e e' i :
  as_wf a -> same_tree a a' -> as_tab a !! i = Some e -> as_name e' = as_name e ->
  tb_find (as_name e') (as_strs a') = tb_find (as_name e) (as_strs a).
Proof.
  intros W [K _] He ->. destruct (wf_entries _ W _ _ He) as ((n & Hn) & _).
  rewrite (tb_find_spec _ _ _ Hn). by apply tb_find_spec, K.
Qed.

Lemma named_under_same a a' name i :
  as_wf a -> same_tree a a' -> (i < length (as_tab a))%nat ->
  named_under a' name i <-> named_under a name i.
Proof.
  intros W S Hi. split.
  - intros U. revert Hi. induction U as [i e' He' Hn|i j e' He' Ho Hnn U IH]; intros Hi;
      apply lookup_lt_is_Some in Hi as [e He];
      destruct (proj2 S _ _ He) as (e2 & He2 & O2 & N2); simplify_eq.
    + eapply nu_here; [done|]. by erewrite <- same_tree_find.
    + rewrite O2 in Ho, Hnn. eapply nu_up; [done|done|done|]. apply IH.
      destruct (wf_entries _ W _ _ He) as (_ & _ & [?|(k & Hk & Hk')]); [done|].
      rewrite Ho in Hk'. apply lookup_lt_Some in He.
      assert (j = k) as ->; [|lia]. unfold as_info2off in Hk'.
      pose proof sizeof_asinfo_range. nia.
  - intros U. induction U as [i e He Hn|i j e He Ho Hnn U IH];
      destruct (proj2 S _ _ He) as (e2 & He2 & O2 & N2).
    + eapply nu_here; [done|]. by erewrite same_tree_find.
    + rewrite <- O2 in Ho, Hnn. eapply nu_up; [done|done|done|]. apply IH.
      pose proof (lookup_lt_Some _ _ _ He).
      destruct (wf_entries _ W _ _ He) as (_ & _ & [?|(k & Hk & Hk')]).
      * congruence.
      * rewrite <- O2, Ho in Hk'. assert (j = k) as ->; [|lia]. unfold as_info2off in Hk'.
        pose proof sizeof_asinfo_range. nia.
Qed.

(** Changing one entry's range. *)
Definition keeps_links (f : asinfo_entry -> asinfo_entry) : Prop :=
  forall e, as_owner (f e) = as_owner e /\ as_name (f e) = as_name e.

Lemma update_same_tree a i f :
  keeps_links f -> same_tree a (AsState (alter f i (as_tab a)) (as_strs a)).
Proof.
  intros F. split; [by intros ? ?|]. simpl. intros j e He. rewrite list_lookup_alter.
  destruct (decide (i = j)) as [->|?]; rewrite He; simpl; eexists; (split; [done|]).
  - apply F.
  - done.
Qed.

Lemma update_wf a i f e :
  as_wf a -> keeps_links f -> as_tab a !! i = Some e -> as_start (f e) <= as_end (f e) ->
  as_wf (AsState (alter f i (as_tab a)) (as_strs a)).
Proof.
  intros [W1 W2 W3] F He Hf. constructor; simpl; [done|by rewrite length_alter|].
  intros j x. rewrite list_lookup_alter. destruct (decide (i = j)) as [->|?]; [|by apply W3].
  rewrite He. simpl. intros [= <-]. destruct (F e) as [F1 F2]. unfold entry_ok.
  rewrite F1, F2. destruct (W3 _ _ He) as (? & _ & ?). auto.
Qed.
End tree.

(** ** The sysram part of alloc_ram *)
Section sysram.
Context {T : Type} `{StringTable T} `{abi : asinfo_abi}.
Implicit Types a : as_state T.

Definition SYSRAM : list byte := cname "sysram".

Lemma good_sysram : good_name SYSRAM.
Proof. split; [done|]. split; [|simpl; lia]. unfold SYSRAM, cname; simpl. set_solver. Qed.

(** The region without one entry's own range. *)
Definition region_but a (name : list byte) (i : nat) (x : Z) : Prop :=
  exists j e, j <> i /\ as_tab a !! j = Some e /\ named_under a name j /\
    as_start e <= x <= as_end e.

Lemma region_split a i e name x :
  as_tab a !! i = Some e -> named_under a name i ->
  region a name x <-> as_start e <= x <= as_end e \/ region_but a name i x.
Proof.
  intros He U. split.
  - intros (j & e' & He' & U' & Hx). destruct (decide (j = i)) as [->|Hne].
    + left. by simplify_eq.
    + right. exists j, e'. auto.
  - intros [Hx|(j & e' & _ & He' & U' & Hx)]; [by exists i, e|by exists j, e'].
Qed.

Lemma region_but_alter a i f name x :
  as_wf a -> keeps_links f ->
  region_but (AsState (alter f i (as_tab a)) (as_strs a)) name i x <-> region_but a name i x.
Proof.
  intros W F. pose proof (update_same_tree a i f F) as S. unfold region_but. simpl.
  split; intros (j & e & Hj & He & U & Hx); exists j, e;
    [rewrite list_lookup_alter_ne in He by done|rewrite list_lookup_alter_ne by done];
    (split; [done|]; split; [done|]; split; [|done]);
    apply lookup_lt_Some in He; by apply (named_under_same _ _ name j W S He).
Qed.

Lemma appended_same_tree a a' start end_ owner name :
  appended a a' start end_ owner name -> same_tree a a'.
Proof.
  intros (_ & K & no & _ & S). split; [done|]. intros i e He.
  assert (HL : (shape <$> as_tab a') !! i = Some (shape e)).
  { rewrite S, lookup_app_l, list_lookup_fmap, He; [done|].
    rewrite length_fmap. by eapply lookup_lt_Some. }
  rewrite list_lookup_fmap in HL. destruct (as_tab a' !! i) as [e'|]; [|done].
  simpl in HL. injection HL. intros. exists e'. auto.
Qed.

Lemma appended_lookup a a' start end_ owner name j e' :
  appended a a' start end_ owner name -> as_tab a' !! j = Some e' ->
  (exists e, as_tab a !! j = Some e /\ as_start e' = as_start e /\ as_end e' = as_end e) \/
  (j = length (as_tab a) /\ as_start e' = start /\ as_end e' = end_ /\
   tb_find (as_name e') (as_strs a') = Some name).
Proof.
  intros (_ & _ & no & Hno & S) He'.
  assert (HL : (shape <$> as_tab a') !! j = Some (shape e'))
    by (by rewrite list_lookup_fmap, He').
  rewrite S in HL. apply lookup_app_Some in HL as [HL|[Hj HL]].
  - left. rewrite list_lookup_fmap in HL. destruct (as_tab a !! j) as [e|]; [|done].
    exists e. simpl in HL. injection HL. intros. auto.
  - right. rewrite length_fmap in *. apply list_lookup_singleton_Some in HL as [Hj' HE].
    injection HE as E1 E2 E3 E4 _. split; [lia|]. split; [done|]. split; [done|].
    rewrite <- E4. by apply tb_find_spec.
Qed.

Lemma region_append a a' start end_ owner name x :
  as_wf a -> appended a a' start end_ owner name ->
  region a' name x <-> region a name x \/ start <= x <= end_.
Proof.
  intros W A. pose proof (appended_same_tree _ _ _ _ _ _ A) as S. split.
  - intros (j & e' & He' & U & Hx).
    destruct (appended_lookup _ _ _ _ _ _ _ _ A He') as [(e & He & E1 & E2)|(_ & E1 & E2 & _)].
    + left. exists j, e. split; [done|]. split; [|lia].
      by apply (named_under_same _ _ name j W S (lookup_lt_Some _ _ _ He)).
    + right. lia.
  - intros [(j & e & He & U & Hx)|Hx].
    + destruct (proj2 S _ _ He) as (e' & He' & _). exists j, e'. split; [done|]. split.
      * by apply (named_under_same _ _ name j W S (lookup_lt_Some _ _ _ He)).
      * destruct (appended_lookup _ _ _ _ _ _ _ _ A He') as [(e2 & He2 & E1 & E2)|(Hj & _)].
        -- simplify_eq. lia.
        -- apply lookup_lt_Some in He. lia.
    + pose proof (appended_length _ _ _ _ _ _ A) as L.
      assert (is_Some (as_tab a' !! length (as_tab a))) as [e' He'].
      { apply lookup_lt_is_Some. lia. }
      exists (length (as_tab a)), e'. split; [done|].
      destruct (appended_lookup _ _ _ _ _ _ _ _ A He') as [(e2 & He2 & _)|(_ & E1 & E2 & E3)].
      * apply lookup_lt_Some in He2. lia.
      * split; [by eapply nu_here|lia].
Qed.

(** What one cut leaves: entry [i] is clear of the range, the other old
    entries keep their ranges, a new one is clear too, and outside the
    range the region is what it was. *)
Definition cut_post a a' (i : nat) (addr last : Z) : Prop :=
  as_wf a' /\ ranges_bounded a' /\ same_tree a a' /\
  (length (as_tab a) <= length (as_tab a') <= S (length (as_tab a)))%nat /\
  (forall j e', as_tab a' !! j = Some e' -> meets addr last e' ->
     j <> i /\ exists e, as_tab a !! j = Some e /\ as_start e' = as_start e /\ as_end e' = as_end e) /\
  (forall x, ~ addr <= x <= last -> region a' SYSRAM x <-> region a SYSRAM x).

Lemma cut_alter a i e f addr last :
  as_wf a -> ranges_bounded a -> as_tab a !! i = Some e -> named_under a SYSRAM i ->
  keeps_links f -> 0 <= as_start (f e) <= as_end (f e) -> as_end (f e) < PA_LIMIT ->
  (forall x, as_start (f e) <= x <= as_end (f e) -> ~ addr <= x <= last) ->
  let a' := AsState (alter f i (as_tab a)) (as_strs a) in
  as_wf a' /\ ranges_bounded a' /\ same_tree a a' /\
  (forall j e', as_tab a' !! j = Some e' -> meets addr last e' ->
     j <> i /\ exists e, as_tab a !! j = Some e /\ as_start e' = as_start e /\ as_end e' = as_end e) /\
  (forall x, region a' SYSRAM x <-> as_start (f e) <= x <= as_end (f e) \/ region_but a SYSRAM i x).
Proof.
  intros W RB He U F Hf Hm HC a'. pose proof (update_same_tree a i f F) as S.
  assert (Hi : alter f i (as_tab a) !! i = Some (f e)) by (by rewrite list_lookup_alter_eq, He).
  split; [by eapply update_wf; [..|apply Hf]|]. split.
  { unfold ranges_bounded in *. rewrite Forall_lookup in *. simpl. intros j x.
    rewrite list_lookup_alter. destruct (decide (i = j)) as [->|?]; [|by apply RB].
    rewrite He. simpl. intros [= <-]. unfold PA_LIMIT in *. lia. }
  split; [done|]. split.
  { simpl. intros j e' Hj Hme. destruct (decide (i = j)) as [->|Hne].
    - rewrite Hi in Hj. injection Hj as <-. destruct Hme as (x & ? & ?). exfalso. eapply HC; eauto.
    - rewrite list_lookup_alter_ne in Hj by done. split; [done|]. eauto. }
  intros x. rewrite (region_split a' i (f e)); [|done|].
  - unfold a'. rewrite region_but_alter by done. done.
  - by apply (named_under_same _ _ _ i W S (lookup_lt_Some _ _ _ He)).
Qed.

Lemma keeps_links_start s : keeps_links (set_start s).
Proof. by intros []. Qed.
Lemma keeps_links_end n : keeps_links (set_end n).
Proof. by intros []. Qed.

Lemma as_add_entry_fail start end_ attr name owner a m :
  owner_ok (length (as_tab a)) owner ->
  as_add_entry start end_ attr name owner a = Crash m -> table_failure (T := T) m.
Proof.
  intros HO E. pose proof (as_add_entry_total a start end_ attr name owner HO) as L.
  by rewrite E in L.
Qed.

Lemma cut_sysram_spec a i e addr last :
  as_wf a -> ranges_bounded a -> 0 <= addr <= last -> last < PA_LIMIT ->
  as_tab a !! i = Some e -> named_under a SYSRAM i -> meets addr last e ->
  as_info2off (S (length (as_tab a))) <= AS_NULL_OFF ->
  match cut_sysram (as_info2off i) addr last a with
  | Ok a' => cut_post a a' i addr last
  | Crash m => (m = whole_sysram_msg /\ addr <= as_start e /\ as_end e <= last)
               \/ table_failure (T := T) m
  end.
Proof.
  intros W RB Ha Hl He U (y & Hy1 & Hy2) Hroom. assert (Hi := lookup_lt_Some _ _ _ He).
  assert (RBe : 0 <= as_start e /\ as_end e < 9223372036854775808).
  { unfold ranges_bounded in RB. rewrite Forall_lookup in RB. by apply (RB i). }
  unfold cut_sysram. rewrite (as_get_info2off _ _ _ He). simpl.
  assert (Ee : (if as_end e <? last then last else as_end e) = Z.max (as_end e) last)
    by (zcase; lia).
  assert (Es : (if addr <? as_start e then addr else as_start e) = Z.min (as_start e) addr)
    by (zcase; lia).
  rewrite Ee, Es. unfold PA_LIMIT in *.
  destruct (addr =? Z.min (as_start e) addr) eqn:EA; zbool; simpl.
  - destruct (last =? Z.max (as_end e) last) eqn:EF; zbool; simpl; [left; split_and!; auto; lia|].
    rewrite as_update_info2off by done. simpl. width_simpl.
    destruct (cut_alter a i e (set_start (last + 1)) addr last) as (W' & RB' & S' & N' & R');
      simpl; auto using keeps_links_start; unfold PA_LIMIT; try lia.
    unfold cut_post. split; [done|]. split; [done|]. split; [done|].
    split; [simpl; rewrite length_alter; lia|]. split; [done|].
    intros x Hx. rewrite R', (region_split a i e) by done. simpl.
    intuition lia.
  - rewrite as_update_info2off by done. simpl. width_simpl.
    destruct (cut_alter a i e (set_end (addr - 1)) addr last) as (W' & RB' & S' & N' & R');
      simpl; auto using keeps_links_end; unfold PA_LIMIT; try lia.
    destruct (Z.max (as_end e) last =? last) eqn:EF; zbool.
    { unfold cut_post. split; [done|]. split; [done|]. split; [done|].
    split; [simpl; rewrite length_alter; lia|]. split; [done|].
      intros x Hx. rewrite R', (region_split a i e) by done. simpl.
      intuition lia. }
    assert (HO : owner_ok (length (as_tab a)) (as_owner e)).
    { destruct (wf_entries _ W _ _ He) as (_ & _ & [->|(j & ? & ->)]); [by left|].
      right. exists j. split; [lia|done]. }
    rewrite as_add_plain by done. width_simpl.
    assert (Z.max (as_end e) last = as_end e) as -> by lia.
    set (a1 := AsState _ _) in *.
    assert (L1 : length (as_tab a1) = length (as_tab a)) by (unfold a1; simpl; by rewrite length_alter).
    destruct (as_add_entry _ _ _ _ _ a1) as [[a2 off]|m] eqn:EQ; simpl.
    2: { right. eapply as_add_entry_fail; [|exact EQ]. by rewrite L1. }
    apply as_add_entry_spec in EQ as [A _]; auto using good_sysram; try lia;
      [|by rewrite L1|by rewrite L1].
    pose proof (appended_length _ _ _ _ _ _ A) as L2.
    split; [apply A|]. split.
    { unfold ranges_bounded in *. rewrite Forall_lookup in *. intros j x Hx.
      destruct (appended_lookup _ _ _ _ _ _ _ _ A Hx) as [(e2 & He2 & -> & ->)|(_ & -> & -> & _)].
      - by apply (RB' j).
      - lia. }
    split; [eapply same_tree_trans; [exact S'|by eapply appended_same_tree]|].
    split; [lia|]. split.
    + intros j x Hx Hm.
      destruct (appended_lookup _ _ _ _ _ _ _ _ A Hx) as [(e2 & He2 & E1 & E2)|(_ & E1 & E2 & _)].
      * destruct (N' j e2 He2) as (? & e3 & ? & ? & ?); [destruct Hm as (z & ? & ?); exists z; lia|].
        split; [done|]. exists e3. split_and!; [done|congruence|congruence].
      * exfalso. destruct Hm as (z & ? & ?). lia.
    + intros x Hx. rewrite (region_append _ _ _ _ _ _ _ W' A), R', (region_split a i e) by done.
      simpl. intuition lia.
Qed.

Lemma cut_post_hit a a' i addr last j :
  as_wf a -> cut_post a a' i addr last -> hit a' addr last SYSRAM j ->
  j <> i /\ hit a addr last SYSRAM j.
Proof.
  intros W (W' & _ & S & _ & N & _) (U & e' & He' & Hm).
  destruct (N _ _ He' Hm) as (Hj & e & He & E1 & E2). split; [done|]. split.
  - by apply (named_under_same _ _ _ j W S (lookup_lt_Some _ _ _ He)).
  - exists e. split; [done|]. destruct Hm as (z & ? & ?). exists z. lia.
Qed.

(** Part of the range keeps a whole "sysram" entry of the original table. *)
Definition whole_entry a (addr last : Z) : Prop :=
  exists i e, as_tab a !! i = Some e /\ named_under a SYSRAM i /\
    addr <= as_start e /\ as_end e <= last.

Lemma sysram_loop_spec fuel n0 off addr last a :
  as_wf a -> ranges_bounded a -> 0 <= addr <= last -> last < PA_LIMIT ->
  (forall j, hit a addr last SYSRAM j -> (scan_from off <= j < n0)%nat) ->
  (scan_from off <= n0 < fuel + scan_from off)%nat ->
  as_info2off (length (as_tab a) + (n0 - scan_from off)) <= AS_NULL_OFF ->
  match sysram_loop fuel off addr last a with
  | Ok a' => as_wf a' /\ ranges_bounded a' /\
      (forall x, region a' SYSRAM x <-> region a SYSRAM x /\ ~ addr <= x <= last)
  | Crash m => (m = whole_sysram_msg /\ whole_entry a addr last) \/ table_failure (T := T) m
  end.
Proof.
  intros W RB Ha Hl. revert off a W RB; induction fuel as [|fuel IH];
    intros off a W RB Hhit Hf Hroom; [lia|]. cbn [sysram_loop]. fold SYSRAM.
  destruct (as_find_containing_spec a off addr last SYSRAM W) as (r & -> & Hr); [lia|].
  cbn [res_bind]. destruct Hr as [[-> HN]|(j & Hj & -> & HH & HN)].
  { rewrite Z.eqb_refl. split; [done|]. split; [done|]. intros x. split; [|by intros []].
    intros R. split; [done|]. destruct R as (i & e & He & U & Hx). intros Hr.
    assert (HI : hit a addr last SYSRAM i) by (split; [done|]; exists e; split; [done|by exists x]).
    apply (HN i); [by apply Hhit|done]. }
  pose proof (as_info2off_not_null a j W ltac:(lia)) as NN.
  assert (EN : (as_info2off j =? AS_NULL_OFF) = false) by (by apply Z.eqb_neq). rewrite EN.
  assert (Hjn := Hhit _ HH). destruct HH as (U & e & He & Hm).
  pose proof (cut_sysram_spec a j e addr last W RB Ha Hl He U Hm) as C.
  assert (HR1 : as_info2off (S (length (as_tab a))) <= AS_NULL_OFF).
  { etrans; [|exact Hroom]. unfold as_info2off. pose proof sizeof_asinfo_range. nia. }
  specialize (C HR1). destruct (cut_sysram _ _ _ _) as [a1|m]; cbn [res_bind].
  2: { destruct C as [(-> & ? & ?)|?]; [left|by right]. split; [done|]. by exists j, e. }
  assert (CP := C). destruct C as (W1 & RB1 & S1 & L1 & N1 & R1).
  specialize (IH (as_info2off j) a1 W1 RB1). rewrite !scan_from_info2off in IH by done.
  assert (IH' := IH ltac:(intros k Hk; destruct (cut_post_hit _ _ _ _ _ _ W CP Hk) as [Hne Hk'];
    specialize (Hhit _ Hk'); destruct (decide (k < j)%nat) as [Hlt|?]; [exfalso; by apply (HN k); [lia|]|lia])
    ltac:(lia)). clear IH.
  assert (HR2 : as_info2off (length (as_tab a1) + (n0 - S j)) <= AS_NULL_OFF).
  { etrans; [|exact Hroom]. unfold as_info2off. pose proof sizeof_asinfo_range. nia. }
  specialize (IH' HR2). destruct (sysram_loop _ _ _ _ _) as [a2|m].
  - destruct IH' as (W2 & RB2 & R2). split; [done|]. split; [done|]. intros x. rewrite R2.
    destruct (decide (addr <= x <= last)); [tauto|]. rewrite R1 by done. done.
  - destruct IH' as [(-> & i & x & Hx & Ux & Hx1 & Hx2)|?]; [left|by right]. split; [done|].
    pose proof (wf_entries _ W1 _ _ Hx) as (_ & Hse & _).
    destruct (cut_post_hit a a1 j addr last i W CP) as [Hne (Ui & x0 & Hx0 & _)].
    { split; [done|]. exists x. split; [done|]. exists (as_start x). lia. }
    destruct (N1 _ _ Hx) as (_ & x3 & Hx3 & E1 & E2); [exists (as_start x); lia|].
    exists i, x3. split_and!; [done|done|lia|lia].
Qed.
End sysram.

(** ** The avoid list *)
Definition avoid_ok (avoid : list avoid_entry) : Prop :=
  Forall (fun a => 0 <= a_start a <= a_end a /\ 0 < a_end a <= PA_LIMIT) avoid.

Lemma avoid_ok_wf avoid : avoid_ok avoid -> avoid_wf avoid.
Proof. intros A. eapply Forall_impl; [exact A|]. simpl. lia. Qed.

Lemma avoided_app l1 l2 x : avoided (l1 ++ l2) x <-> avoided l1 x \/ avoided l2 x.
Proof. unfold avoided. by rewrite Exists_app. Qed.

Lemma avoided_one a x : avoided [a] x <-> a_start a <= x < a_end a.
Proof. unfold avoided. rewrite Exists_cons, Exists_nil. tauto. Qed.

(** The list, whether it grew its last entry or took a new one, avoids the
    old addresses and the new range. *)
Lemma avoid_append_spec start size avoid :
  avoid_ok avoid -> 0 <= start -> 0 < size -> start + size <= PA_LIMIT ->
  let avoid' := avoid_append start size avoid in
  avoid_ok avoid' /\ (length avoid <= length avoid' <= S (length avoid))%nat /\
  forall x, avoided avoid' x <-> avoided avoid x \/ start <= x < start + size.
Proof.
  unfold PA_LIMIT. intros A Hs Hz Hm. cbv zeta. unfold avoid_append.
  assert (New : avoid_ok (avoid ++ [AvoidEntry start (u64 (start + size))]) /\
    (length avoid <= length (avoid ++ [AvoidEntry start (u64 (start + size))]) <= S (length avoid))%nat /\
    forall x, avoided (avoid ++ [AvoidEntry start (u64 (start + size))]) x <->
      avoided avoid x \/ start <= x < start + size).
  { width_simpl. split; [|split].
    - apply Forall_app. split; [done|]. repeat constructor; simpl; unfold PA_LIMIT; lia.
    - rewrite length_app. simpl. lia.
    - intros x. rewrite avoided_app, avoided_one. simpl. done. }
  destruct (last avoid) as [a|] eqn:EL; [|done]. zcase; [|done].
  apply last_Some in EL as [l ->]. rewrite removelast_last.
  apply Forall_app in A as [A1 A2]. rewrite Forall_singleton in A2. unfold PA_LIMIT in *.
  width_simpl. split; [|split].
  - apply Forall_app. split; [done|]. repeat constructor; simpl; unfold PA_LIMIT; lia.
  - rewrite !length_app. simpl. lia.
  - intros x. rewrite !avoided_app, !avoided_one. simpl.
    assert (a_start a <= x < a_end a + size <->
      a_start a <= x < a_end a \/ start <= x < start + size) as -> by lia. tauto.
Qed.

(** ** The allocator's state *)
Section ram_spec.
Context {T : Type} `{StringTable T} `{abi : asinfo_abi}.
Context (hw : machine) (reloc : Z -> Z -> T -> T).
Implicit Types st : ram_state T.

Lemma take_ram_spec addr size st avoid ram :
  ws_lists st = Some (avoid, ram) -> sysram_added st = false -> ram_wf ram ->
  0 <= addr -> 0 <= size -> addr + size <= PA_LIMIT ->
  match take_ram addr size st with
  | Ok st' => exists ram', st' = with_lists (Some (avoid, ram')) st /\ ram_wf ram' /\
      forall x, covers ram' x <-> covers ram x /\ ~ addr <= x < addr + size
  | Crash m => m = overflow_msg
  end.
Proof.
  intros HL HS W Ha Hs Hm. unfold take_ram. rewrite HL.
  pose proof (alloc_mem_spec addr size ram Ha Hs Hm W) as A.
  destruct (alloc_mem addr size ram) as [ram'|m]; simpl; [|by destruct A].
  rewrite HS. exists ram'. destruct A. auto.
Qed.

(** The free addresses of a state. *)
Definition free st (x : Z) : Prop :=
  match ws_lists st with Some (_, ram) => covers ram x | None => False end.
Definition lists_wf st : Prop :=
  match ws_lists st with Some (_, ram) => ram_wf ram | None => True end.

(** The state in which the block at [a] is cleared on a secure system. *)
Definition zeroed_block (a size : Z) st : ram_state T :=
  if secure_system hw then with_zeroed (zeroed st ++ [(u32 a, size)]) st else st.

(** Taking the block find_ram found. *)
Lemma alloc_ram_spec size align st avoid ram :
  ws_lists st = Some (avoid, ram) -> sysram_added st = false -> ram_wf ram ->
  avoid_wf avoid -> pow2_align align -> 0 < size < PA_LIMIT ->
  let a := find_ram ram avoid size align 0 0 in
  match alloc_ram hw NULL_PADDR size align st with
  | Ok (st', a') => a' = a /\
      if decide (a = NULL_PADDR) then st' = st
      else a mod align = 0 /\ range_free ram avoid a size /\
        exists ram', st' = with_lists (Some (avoid, ram')) (zeroed_block a size st) /\
          ram_wf ram' /\ forall x, covers ram' x <-> covers ram x /\ ~ a <= x < a + size
  | Crash m => m = overflow_msg
  end.
Proof.
  intros HL HS W AW Hal Hsz a. unfold alloc_ram. rewrite Z.eqb_refl, HL. fold a.
  destruct (a =? NULL_PADDR) eqn:EA; zbool; [by rewrite decide_True|].
  destruct (find_ram_in_range_spec ram avoid (-1) 0 NULL_PADDR size align a W)
    as (F & _ & _ & A & L); auto; try (unfold NULL_PADDR; lia).
  assert (Hend : a + size <= PA_LIMIT).
  { destruct (F (a + size - 1) ltac:(lia)) as [C _]. apply (wf_from_upper (-1)) in C; [lia|done]. }
  fold (zeroed_block a size st). set (st1 := zeroed_block a size st).
  assert (H1 : ws_lists st1 = Some (avoid, ram)) by (unfold st1, zeroed_block; by destruct (secure_system hw)).
  assert (S1 : sysram_added st1 = false) by (unfold st1, zeroed_block; by destruct (secure_system hw)).
  pose proof (take_ram_spec a size st1 avoid ram H1 S1 W ltac:(lia) ltac:(lia) Hend) as TR.
  destruct (take_ram a size st1) as [st2|m]; simpl; [|done].
  destruct TR as (ram' & -> & W' & C). rewrite decide_False by done. eauto 8.
Qed.

(** [st'] frees what [P] says and still registers no sysram. *)
Definition steps_to st st' (P : Z -> Prop) : Prop :=
  lists_wf st' /\ sysram_added st' = false /\ (forall x, free st' x <-> P x).

Lemma ensure_ws_free st st' :
  lists_wf st -> sysram_added st = false -> ensure_ws hw st = Ok st' ->
  steps_to st st' (free st) /\ ws_lists st' <> None.
Proof.
  unfold ensure_ws, ws_init, steps_to, lists_wf, free.
  destruct (ws_lists st) as [[avoid ram]|] eqn:E; intros W HS HE.
  - injection HE as <-. rewrite E. auto.
  - apply res_bind_Ok in HE as (av1 & _ & HE). apply res_bind_Ok in HE as (av2 & _ & HE).
    injection HE as <-. simpl. split; [|done]. split_and!; auto.
Qed.

Lemma avoid_ram_free start size st st' :
  lists_wf st -> sysram_added st = false -> avoid_ram hw start size st = Ok st' ->
  steps_to st st' (free st) /\ ws_lists st' <> None.
Proof.
  intros W HS HA. unfold avoid_ram in HA. apply res_bind_Ok in HA as (st1 & H1 & HA).
  destruct (ensure_ws_free _ _ W HS H1) as [(W1 & S1 & F1) N1].
  unfold steps_to, lists_wf, free in *. destruct (ws_lists st1) as [[avoid ram]|]; [|done].
  apply res_bind_Ok in HA as (av & _ & HA). injection HA as <-. simpl. auto.
Qed.

Lemma alloc_at_free addr size align st st' a :
  lists_wf st -> sysram_added st = false -> addr <> NULL_PADDR ->
  0 <= addr -> 0 <= size -> addr + size <= PA_LIMIT ->
  alloc_ram hw addr size align st = Ok (st', a) ->
  steps_to st st' (fun x => free st x /\ ~ addr <= x < addr + size) /\ ws_lists st' <> None.
Proof.
  intros W HS HN Ha Hs Hm HA. unfold alloc_ram in HA.
  rewrite (proj2 (Z.eqb_neq _ _) HN) in HA. apply res_bind_Ok in HA as (st1 & H1 & HA).
  injection HA as <- _. unfold steps_to, lists_wf, free in *.
  destruct (ws_lists st) as [[avoid ram]|] eqn:E.
  - pose proof (take_ram_spec addr size st avoid ram E HS W Ha Hs Hm) as A. rewrite H1 in A.
    destruct A as (ram' & -> & W' & C). simpl. auto.
  - unfold take_ram in H1. rewrite E in H1. done.
Qed.

Lemma place_syspage_free st st' :
  lists_wf st -> sysram_added st = false -> place_syspage hw reloc st = Ok st' ->
  ws_lists st <> None -> steps_to st st' (free st) /\ ws_lists st' <> None.
Proof.
  intros W HS HP HL. unfold place_syspage in HP. destruct (_ =? NULL_PADDR).
  2: { injection HP as <-. unfold steps_to. auto. }
  destruct (ws_lists st) as [[avoid ram]|] eqn:E; [|done].
  set (st1 := RamState _ _ _ _ _ _ _ _) in *.
  assert (E1 : ws_lists st1 = ws_lists st) by (simpl; congruence).
  assert (W1 : lists_wf st1) by (unfold lists_wf; by rewrite E1).
  assert (F1 : forall x, free st1 x <-> free st x) by (intros x; unfold free; by rewrite E1).
  destruct (_ =? NULL_PADDR).
  - injection HP as <-. split; [|rewrite E1, E; done]. unfold steps_to. auto.
  - apply res_bind_Ok in HP as (st2 & H2 & HP).
    apply avoid_ram_free in H2 as [(W2 & S2 & F2) N2]; auto. injection HP as <-.
    split; [|done]. unfold steps_to, free, lists_wf in *. simpl. split_and!; auto.
    intros x. by rewrite F2, F1.
Qed.

(** The part of the image above startup: it is never free. *)
Definition image_tail (x : Z) : Prop :=
  full_ram_paddr hw + shdr_startup_size hw <= x < full_ram_paddr hw + shdr_ram_size hw.

Hypothesis image_ok : 0 <= full_ram_paddr hw /\ 0 <= shdr_startup_size hw <= shdr_ram_size hw /\
  full_ram_paddr hw + shdr_ram_size hw <= PA_LIMIT.

Lemma add_ram_free start size st st' :
  lists_wf st -> sysram_added st = false ->
  0 <= start -> 0 <= size -> start + size <= PA_LIMIT ->
  add_ram hw reloc start size st = Ok st' ->
  steps_to st st' (fun x => (free st x \/ start <= x < start + size) /\ ~ image_tail x)
  /\ ws_lists st' <> None.
Proof.
  intros W HS Hst Hsz Hm HA. unfold add_ram in HA.
  apply res_bind_Ok in HA as (a1 & _ & HA). apply res_bind_Ok in HA as ([a2 r] & _ & HA).
  unfold lists_wf, free, steps_to in *. simpl in HA.
  destruct (ws_lists st) as [[avoid ram]|] eqn:E; [|done].
  apply res_bind_Ok in HA as (ram1 & H1 & HA). apply res_bind_Ok in HA as ([st2 x2] & H2 & HA).
  apply res_bind_Ok in HA as (st3 & H3 & HA). injection HA as <-.
  pose proof (add_mem_spec start size ram Hst Hsz Hm W) as A. rewrite H1 in A.
  destruct A as [W1 C1]. unfold PA_LIMIT in *. width_simpl_in H2.
  apply alloc_at_free in H2 as [(W2 & S2 & F2) N2]; unfold PA_LIMIT; auto;
    try (unfold NULL_PADDR; lia).
  apply place_syspage_free in H3 as [(W3 & S3 & F3) N3]; auto.
  split; [|done]. split; [exact W3|]. split; [exact S3|].
  intros x. change (free st3 x <-> (covers ram x \/ start <= x < start + size) /\ ~ image_tail x).
  rewrite F3, F2. unfold free at 1; simpl. rewrite C1. unfold image_tail.
  assert (full_ram_paddr hw + shdr_startup_size hw +
    (shdr_ram_size hw - shdr_startup_size hw) = full_ram_paddr hw + shdr_ram_size hw) as -> by lia.
  done.
Qed.

(** The RAM of a board with [ramsize] bytes, around the peripherals. *)
Definition board_dram (ramsize x : Z) : Prop :=
  if GIG 4 <=? ramsize then
    0 <= x < GIG 4 - MEG 64 \/ (GIG 8 <= ramsize /\ GIG 4 <= x < GIG 8)
    \/ (GIG 16 <= ramsize /\ GIG 8 <= x < GIG 16)
  else 0 <= x < ramsize.

Lemma add_board_ram_free ramsize st st' :
  lists_wf st -> sysram_added st = false -> 0 <= ramsize ->
  (forall x, free st x -> False) -> add_board_ram hw reloc ramsize st = Ok st' ->
  steps_to st st' (fun x => board_dram ramsize x /\ ~ image_tail x) /\ ws_lists st' <> None.
Proof.
  intros W HS Hr HE HA. unfold add_board_ram in HA. unfold board_dram.
  destruct (GIG 4 <=? ramsize) eqn:E4; zbool.
  2: { apply add_ram_free in HA as [(W1 & S1 & F1) N1]; auto;
         try (unfold BCM2712_DRAM_BASE, PA_LIMIT, GIG in *; lia).
       split; [|done]. split_and!; auto. intros x. rewrite F1. unfold BCM2712_DRAM_BASE.
       specialize (HE x). tauto. }
  apply res_bind_Ok in HA as (st1 & H1 & HA). apply res_bind_Ok in HA as (st2 & H2 & HA).
  unfold BCM2712_DRAM_BASE, BCM2712_DRAM_BASE_1, BCM2712_DRAM_BASE_2, GIG, MEG in *.
  apply add_ram_free in H1 as [(W1 & S1 & F1) N1]; auto; try (unfold PA_LIMIT; lia).
  assert (St2 : steps_to st st2 (fun x => (0 <= x < 4 * (1024 * 1024 * 1024) - 64 * (1024 * 1024)
      \/ (8 * (1024 * 1024 * 1024) <= ramsize /\
          4 * (1024 * 1024 * 1024) <= x < 8 * (1024 * 1024 * 1024))) /\ ~ image_tail x)
      /\ ws_lists st2 <> None).
  { destruct (8 * (1024 * 1024 * 1024) <=? ramsize) eqn:E8; zbool.
    - apply add_ram_free in H2 as [(W2 & S2 & F2) N2]; auto; try (unfold PA_LIMIT; lia).
      split; [|done]. split_and!; auto. intros x. rewrite F2, F1. specialize (HE x).
      intuition lia.
    - injection H2 as <-. split; [|done]. split_and!; auto. intros x. rewrite F1.
      specialize (HE x). intuition lia. }
  destruct St2 as [(W2 & S2 & F2) N2].
  destruct (16 * (1024 * 1024 * 1024) <=? ramsize) eqn:E16; zbool.
  - apply add_ram_free in HA as [(W3 & S3 & F3) N3]; auto; try (unfold PA_LIMIT; lia).
    split; [|done]. split_and!; auto. intros x. rewrite F3, F2. intuition lia.
  - injection HA as <-. split; [|done]. split_and!; auto. intros x. rewrite F2. intuition lia.
Qed.

Lemma board_ramsize_range rev : 0 <= board_ramsize rev <= GIG 16.
Proof.
  unfold board_ramsize, get_memory_size.
  assert (HB : forall i, 0 <= default 0 (memory_sizes !! i) <= 16384).
  { intros i. do 8 (destruct i as [|i]; [simpl; lia|]). simpl. lia. }
  specialize (HB (Z.to_nat (Z.land (Z.shiftr rev 20) 7))).
  unfold MEG, GIG in *. destruct (_ =? 0); lia.
Qed.
End ram_spec.

(** ** Theorems *)
Section ram_theorems.
Context {T : Type} `{StringTable T} `{abi : asinfo_abi}.
Context (hw : machine) (reloc : Z -> Z -> T -> T).

(** C10 (a fresh block) alloc_ram without an address hands out aligned
    bytes that were free RAM outside the avoid list, and takes exactly them
    out of the free list; it returns NULL_PADDR and changes nothing only
    when no block has room; the only crash is the overflow of the list. *)
Theorem alloc_ram_fresh (size align : Z) (st : ram_state T)
    (avoid : list avoid_entry) (ram : list ram_entry) :
  ws_lists st = Some (avoid, ram) -> sysram_added st = false -> ram_wf ram ->
  avoid_wf avoid -> pow2_align align -> 0 < size < PA_LIMIT ->
  match alloc_ram hw NULL_PADDR size align st with
  | Ok (st', a) =>
      (a = NULL_PADDR /\ st' = st /\
        forall r s e, r ∈ ram ->
          fix_avoids avoid (r_addr r) (u64 (r_addr r + r_size r)) = Some (s, e) ->
          e < ROUND s align + size) \/
      (a <> NULL_PADDR /\ a mod align = 0 /\ range_free ram avoid a size /\
        exists ram', ws_lists st' = Some (avoid, ram') /\ ram_wf ram' /\
          forall x, covers ram' x <-> covers ram x /\ ~ a <= x < a + size)
  | Crash m => m = overflow_msg
  end.
Proof.
  intros HL HS W AW Hal Hsz. pose proof (alloc_ram_spec hw size align st avoid ram HL HS W AW Hal Hsz) as A.
  cbv zeta in A. destruct (alloc_ram hw NULL_PADDR size align st) as [[st' a]|m]; [|done].
  destruct A as [-> A]. destruct (decide _) as [EA|NA].
  - left. split_and!; [done..|]. intros r s e Hr HF.
    apply (find_ram_in_range_none ram avoid (-1) size align r); auto; lia.
  - right. destruct A as (Am & F & ram' & -> & W' & C). split_and!; [done..|]. exists ram'.
    by destruct (secure_system hw).
Qed.

(** Sysram follows allocations. After add_sysram, an allocation takes
    its range, and nothing else, out of the addresses that the "sysram"
    entries describe; the loop ends, and fails only when one entry would
    vanish whole or the system page has no room for a split. *)
Theorem sysram_loop_exact (a : as_state T) (addr last : Z) :
  as_wf a -> ranges_bounded a -> 0 <= addr <= last -> last < PA_LIMIT ->
  as_info2off (2 * length (as_tab a)) <= AS_NULL_OFF ->
  match sysram_loop (S (length (as_tab a))) AS_NULL_OFF addr last a with
  | Ok a' => as_wf a' /\ ranges_bounded a' /\
      (forall x, region a' SYSRAM x <-> region a SYSRAM x /\ ~ addr <= x <= last)
  | Crash m => (m = whole_sysram_msg /\ whole_entry a addr last) \/ table_failure (T := T) m
  end.
Proof.
  intros W RB Ha Hl Hroom.
  assert (H0 : scan_from AS_NULL_OFF = 0%nat) by (unfold scan_from; by rewrite Z.eqb_refl).
  apply (sysram_loop_spec (S (length (as_tab a))) (length (as_tab a))); auto.
  - intros j (_ & e & He & _). rewrite H0. apply lookup_lt_Some in He. lia.
  - rewrite H0. lia.
  - rewrite H0. etrans; [|exact Hroom]. unfold as_info2off. pose proof sizeof_asinfo_range. nia.
Qed.

(** C35 (the board's memory map) Whatever the revision code, once
    bcm2712_init_raminfo returns, the free list is well-formed and covers
    exactly the board's RAM below and above the peripherals, less the
    VideoCore's block under 1 GiB and the image's own pages. *)
Theorem bcm2712_init_raminfo_map (vcram_size rev : Z) (st st' : ram_state T) :
  0 <= full_ram_paddr hw -> 0 <= shdr_startup_size hw <= shdr_ram_size hw ->
  full_ram_paddr hw + shdr_ram_size hw <= PA_LIMIT ->
  0 <= vcram_size <= GIG 1 -> sysram_added st = false ->
  (ws_lists st = None \/ exists avoid, ws_lists st = Some (avoid, [])) ->
  bcm2712_init_raminfo hw reloc vcram_size rev st = Ok st' ->
  lists_wf st' /\
  forall x, free st' x <->
    board_dram (board_ramsize rev) x /\ ~ GIG 1 - vcram_size <= x < GIG 1 /\ ~ image_tail hw x.
Proof.
  intros I1 I2 I3 Hv HS HL HB. unfold bcm2712_init_raminfo in HB.
  apply res_bind_Ok in HB as (st1 & H1 & HB). apply res_bind_Ok in HB as (st2 & H2 & HB).
  apply res_bind_Ok in HB as (st3 & H3 & HB). apply res_bind_Ok in HB as ([st4 x4] & H4 & HB).
  apply res_bind_Ok in HB as ([a5 x5] & H5 & HB).
  assert (W : lists_wf st /\ forall x, free st x -> False).
  { unfold lists_wf, free. destruct HL as [->|(av & ->)]; done. }
  destruct W as [W E].
  apply avoid_ram_free in H1 as [(W1 & S1 & F1) _]; auto.
  apply avoid_ram_free in H2 as [(W2 & S2 & F2) _]; auto.
  apply (add_board_ram_free hw reloc (conj I1 (conj I2 I3))) in H3 as [(W3 & S3 & F3) _]; auto;
    [|apply board_ramsize_range|intros x; rewrite F2, F1; apply E].
  unfold GIG in Hv. assert (Hu : u64 (GIG 1 - vcram_size) = GIG 1 - vcram_size)
    by (unfold GIG; width_simpl; lia). rewrite Hu in H4.
  apply alloc_at_free in H4 as [(W4 & S4 & F4) _]; auto;
    try (unfold GIG, PA_LIMIT, NULL_PADDR; lia).
  assert (Fin : lists_wf st4 /\ forall x, free st4 x <->
    board_dram (board_ramsize rev) x /\ ~ GIG 1 - vcram_size <= x < GIG 1 /\ ~ image_tail hw x).
  { split; [done|]. intros x. rewrite F4, F3.
    assert (GIG 1 - vcram_size + vcram_size = GIG 1) as -> by lia. tauto. }
  destruct (GIG 1 <? board_ramsize rev); [|injection HB as <-; exact Fin].
  apply res_bind_Ok in HB as ([a6 x6] & H6 & HB). injection HB as <-. exact Fin.
Qed.

(** Working storage stays reserved: A block from ws_alloc is avoided
    from then on, together with everything avoided before, so no later
    search can return it; before any RAM is known it is the next bytes
    after the image, afterwards it is free RAM; the only crash is the
    overflow of the avoid list, which needs 63 entries. *)
Theorem ws_alloc_reserved (size : Z) (st : ram_state T)
    (avoid : list avoid_entry) (ram : list ram_entry) :
  ws_lists st = Some (avoid, ram) -> ram_wf ram -> avoid_ok avoid -> 0 < size < 2147483648 ->
  0 <= ws_early_next st -> ws_early_next st + ROUND size 8 <= PA_LIMIT ->
  match ws_alloc hw size st with
  | Ok (st', p) => (p = NULL_PADDR /\ st' = st) \/
      exists avoid', ws_lists st' = Some (avoid', ram) /\ avoid_ok avoid' /\
        (forall x, avoided avoid' x <-> avoided avoid x \/ p <= x < p + ROUND size 8) /\
        (ram = [] -> p = ws_early_next st /\ ws_early_next st' = p + ROUND size 8) /\
        (ram <> [] -> p mod 8 = 0 /\ range_free ram avoid p (ROUND size 8) /\
           ws_early_next st' = ws_early_next st)
  | Crash m => m = avoid_overflow_msg /\ (63 <= length avoid)%nat
  end.
Proof.
  intros HL W A Hsz He Hm. destruct (ROUND_spec size 8) as [_ R]; [lia|auto with width|].
  set (n := ROUND size 8) in *.
  assert (Push : forall p (s : ram_state T), ws_lists s = Some (avoid, ram) ->
    0 <= p -> p + n <= PA_LIMIT ->
    match avoid_ram hw p n s with
    | Ok s' => exists avoid', s' = with_lists (Some (avoid', ram)) s /\ avoid_ok avoid' /\
        (forall x, avoided avoid' x <-> avoided avoid x \/ p <= x < p + n)
    | Crash m => m = avoid_overflow_msg /\ (63 <= length avoid)%nat
    end).
  { intros p s Hs Hp Hpn. unfold avoid_ram, ensure_ws. rewrite Hs. simpl. rewrite Hs.
    destruct (avoid_append_spec p n avoid A Hp ltac:(lia) Hpn) as (A' & L & C).
    unfold avoid_push. destruct (_ <? _) eqn:E; zbool; simpl.
    - split; [done|]. unfold MAX_AVOID_LIST_SIZE, avoid_list_size, sizeof_avoid_entry in E. lia.
    - eauto. }
  unfold ws_alloc, ensure_ws. rewrite HL. simpl. rewrite HL. fold n.
  destruct (_ <=? sizeof_ram_entry) eqn:ER; zbool.
  - assert (ram = []) as Hnil.
    { destruct ram; [done|]. unfold ram_list_size, sizeof_ram_entry in ER. simpl in ER. lia. }
    set (st1 := RamState _ _ _ _ _ _ _ _).
    specialize (Push (ws_early_next st) st1 eq_refl He Hm).
    destruct (avoid_ram _ _ _ st1) as [s'|m]; simpl; [|done]. right.
    destruct Push as (avoid' & -> & A' & C). exists avoid'. simpl. unfold PA_LIMIT in *.
    width_simpl. split_and!; auto; done.
  - assert (ram <> []) as Hne.
    { intros ->. unfold ram_list_size, sizeof_ram_entry in ER. simpl in ER. lia. }
    destruct (_ =? NULL_PADDR) eqn:EN; zbool; [auto|].
    set (p := find_ram ram avoid n 8 0 0) in *.
    destruct (find_ram_in_range_spec ram avoid (-1) 0 NULL_PADDR n 8 p W)
      as (F & _ & _ & Al & L); auto using avoid_ok_wf with width; try (unfold NULL_PADDR; lia).
    assert (Hend : p + n <= PA_LIMIT).
    { destruct (F (p + n - 1) ltac:(lia)) as [C _]. apply (wf_from_upper (-1)) in C; [lia|done]. }
    specialize (Push p st HL ltac:(lia) Hend).
    destruct (avoid_ram _ _ _ st) as [s'|m]; simpl; [|done]. right.
    destruct Push as (avoid' & -> & A' & C). exists avoid'. simpl.
    split_and!; auto; done.
Qed.
End ram_theorems.

(** ** A board: an image of 8 MiB at 512 KiB, 8 GiB of RAM *)
Section example.
Local Existing Instance example_abi.
Local Existing Instance example_table.

Definition example_hw : machine := Machine 524288 8388608 262144 false 4096 2.

Definition example_boot : ram_state syspage :=
  RamState false 0 NULL_PADDR None [] empty_asinfo [] [].

Definition example_state : ram_state syspage :=
  RamState false 0 NULL_PADDR (Some (example_avoid, example_ram)) [] empty_asinfo [] [].

Lemma alloc_ram_fresh_witness :
  exists st', alloc_ram example_hw NULL_PADDR 4096 4096 example_state = Ok (st', 528384) /\
    range_free example_ram example_avoid 528384 4096.
Proof.
  pose proof (alloc_ram_fresh example_hw 4096 4096 example_state example_avoid example_ram
    eq_refl eq_refl example_ram_wf example_avoid_wf pow2_align_4096
    ltac:(unfold PA_LIMIT; lia)) as A.
  destruct (alloc_ram _ _ _ _ _) as [[st' a]|m] eqn:E; [|vm_compute in E; discriminate E].
  assert (Ha : a = 528384) by (vm_compute in E; injection E as _ <-; reflexivity). subst a.
  exists st'. split; [reflexivity|].
  destruct A as [(HN & _)|(_ & _ & F & _)]; [discriminate HN|exact F].
Defined.

(** "memory" and one "sysram" entry under it. *)
Definition example_sysram : as_state syspage :=
  match as_add 1048576 2097151 0 (cname "sysram") 0 example_asinfo with
  | Ok (a, _) => a
  | Crash _ => example_asinfo
  end.

Lemma example_sysram_tab : as_tab example_sysram =
  [Asinfo 0 68719476735 65535 0 2 100; Asinfo 1048576 2097151 0 7 0 100].
Proof. vm_compute. reflexivity. Qed.

Lemma example_sysram_wf : as_wf example_sysram.
Proof.
  unfold example_sysram. rewrite as_add_plain by reflexivity.
  destruct (as_add_entry _ _ _ _ _ _) as [[a off]|m] eqn:E; [|exact example_asinfo_wf].
  apply as_add_entry_spec in E as [[W _] _]; auto.
  - exact example_asinfo_wf.
  - exact good_sysram.
  - lia.
  - rewrite example_asinfo_tab. right. exists 0%nat. split; [simpl; lia|reflexivity].
  - rewrite example_asinfo_tab. unfold as_info2off; simpl. lia.
Qed.

Lemma sysram_loop_exact_witness :
  exists a', sysram_loop 3 AS_NULL_OFF 1052672 1056767 example_sysram = Ok a' /\
    as_wf a' /\ ~ region a' SYSRAM 1052672.
Proof.
  pose proof (sysram_loop_exact example_sysram 1052672 1056767 example_sysram_wf
    ltac:(unfold ranges_bounded; rewrite example_sysram_tab; repeat constructor; simpl; lia)
    ltac:(lia) ltac:(unfold PA_LIMIT; lia)
    ltac:(rewrite example_sysram_tab; unfold as_info2off; simpl; lia)) as A.
  rewrite example_sysram_tab in A. simpl length in A.
  destruct (sysram_loop _ _ _ _ _) as [a'|m] eqn:E; [|vm_compute in E; discriminate E].
  exists a'. destruct A as (W & _ & R). split; [reflexivity|]. split; [exact W|].
  rewrite R. lia.
Defined.

(** Revision 0xd04170: an 8 GiB board (memory code 5). *)
Definition example_revision : Z := 13648240.

Lemma bcm2712_init_raminfo_map_witness :
  exists st', bcm2712_init_raminfo example_hw reloc_syspage_memory 67108864 example_revision
    example_boot = Ok st' /\ lists_wf st' /\ free st' 4294967296 /\ ~ free st' 1073741823.
Proof.
  destruct (bcm2712_init_raminfo example_hw reloc_syspage_memory 67108864 example_revision
    example_boot) as [st'|m] eqn:E.
  - exists st'. split; [reflexivity|].
    destruct (bcm2712_init_raminfo_map example_hw reloc_syspage_memory 67108864 example_revision
      example_boot st' ltac:(simpl; lia) ltac:(simpl; lia) ltac:(simpl; unfold PA_LIMIT; lia)
      ltac:(unfold GIG; lia) eq_refl (or_introl eq_refl) E) as [W F].
    split; [exact W|]. split; rewrite F.
    + assert (B : board_ramsize example_revision = 8589934592) by (vm_compute; reflexivity).
      rewrite B. unfold board_dram, GIG, MEG, image_tail; simpl. lia.
    + unfold GIG. lia.
  - vm_compute in E. discriminate E.
Defined.

Lemma ws_alloc_reserved_witness :
  exists st' p, ws_alloc example_hw 16 example_state = Ok (st', p) /\ p mod 8 = 0.
Proof.
  pose proof (ws_alloc_reserved example_hw 16 example_state example_avoid example_ram eq_refl
    example_ram_wf ltac:(repeat constructor; simpl; unfold PA_LIMIT; lia) ltac:(lia)
    ltac:(simpl; lia) ltac:(vm_compute; discriminate)) as A.
  destruct (ws_alloc _ _ _) as [[st' p]|m] eqn:E; [|vm_compute in E; discriminate E].
  exists st', p. split; [reflexivity|].
  destruct A as [(HN & _)|(av & _ & _ & _ & _ & A)].
  - vm_compute in E. injection E as _ <-. discriminate HN.
  - apply A. discriminate.
Defined.
End example.
