(* ===== verification/Gpio.v ===== *)
(** * What the three GPIO tools of support/bcm2712 share

    Device registers behind [in32] and [out32], bit fields in them, the pin
    list argument ("3,5-9") and the pin option arguments of the tools, and
    the C library calls they use: sscanf's [%u%n], strtoul and printf's
    padding. *)
From Stdlib Require Export Ascii.
From stdpp Require Export pretty.
From S2P Require Import Prelude.

(** ** Registers *)

(** A device whose 32-bit registers are read and written by address. *)
Class Mmio (D : Type) := {
  in32 : Z -> D -> Z;
  out32 : Z -> Z -> D -> D
}.

(** Registers [P] hold what was written, and a write reaches no other. *)
Record plain_registers {D} `{Mmio D} (P : Z -> Prop) : Prop := {
  plain_range a d : P a -> 0 <= in32 a d < 4294967296;
  plain_same a v d : P a -> 0 <= v < 4294967296 -> in32 a (out32 a v d) = v;
  plain_other a b v d : P a -> P b -> a <> b -> in32 b (out32 a v d) = in32 b d
}.

(** ** Bit fields *)
Definition field_mask (w : Z) : Z := Z.ones w.
Definition field_get (o w v : Z) : Z := Z.land (Z.shiftr v o) (field_mask w).
Definition field_put (o w x v : Z) : Z :=
  Z.lor (Z.land v (u32 (Z.lnot (u32 (Z.shiftl (field_mask w) o))))) (u32 (Z.shiftl x o)).

Lemma testbit_u32 z i : Z.testbit (u32 z) i = (i <? 32) && Z.testbit z i.
Proof.
  unfold u32. change 4294967296 with (2 ^ 32). destruct (decide (0 <= i)).
  - rewrite Z.testbit_mod_pow2 by lia. done.
  - rewrite !Z.testbit_neg_r by lia. by rewrite andb_false_r.
Qed.

Lemma testbit_range_u32 z i : 0 <= z < 4294967296 -> 32 <= i -> Z.testbit z i = false.
Proof. intros Hz Hi. rewrite <- (u32_id z Hz), testbit_u32. by rewrite (proj2 (Z.ltb_ge _ _)). Qed.

Lemma testbit_field_put o w x v i :
  0 <= o -> 0 < w -> o + w <= 32 -> 0 <= x < 2 ^ w -> 0 <= v < 4294967296 -> 0 <= i ->
  Z.testbit (field_put o w x v) i =
  if (o <=? i) && (i <? o + w) then Z.testbit x (i - o) else Z.testbit v i.
Proof.
  intros Ho Hw How Hx Hv Hi. unfold field_put, field_mask.
  rewrite Z.lor_spec, Z.land_spec, !testbit_u32, Z.lnot_spec, testbit_u32 by lia.
  rewrite !Z.shiftl_spec by lia. rewrite Z.testbit_ones by lia.
  destruct (i <? 32) eqn:E32; zbool; cbn [andb].
  2: { rewrite (testbit_range_u32 v i) by lia. rewrite (proj2 (Z.ltb_ge i (o + w))) by lia.
       by destruct (o <=? i). }
  destruct (o <=? i) eqn:E1; zbool.
  - rewrite (proj2 (Z.leb_le 0 (i - o))) by lia. cbn [andb].
    destruct (i <? o + w) eqn:E2; zbool.
    + rewrite (proj2 (Z.ltb_lt (i - o) w)) by lia. cbn [negb]. by rewrite andb_false_r.
    + rewrite (proj2 (Z.ltb_ge (i - o) w)) by lia. cbn [negb]. rewrite andb_true_r.
      assert (Z.testbit x (i - o) = false) as ->; [|by rewrite orb_false_r].
      apply Z.bits_above_log2; [lia|]. destruct (decide (x = 0)) as [->|?]; [simpl; lia|].
      apply Z.log2_lt_pow2; [lia|].
      assert (2 ^ w <= 2 ^ (i - o)) by (apply Z.pow_le_mono_r; lia). lia.
  - rewrite (proj2 (Z.leb_gt 0 (i - o))) by lia. cbn [andb negb].
    rewrite andb_true_r, (Z.testbit_neg_r x) by lia. by rewrite orb_false_r.
Qed.

Lemma testbit_field_get o w v i : 0 <= o -> 0 < w -> 0 <= i ->
  Z.testbit (field_get o w v) i = (i <? w) && Z.testbit v (i + o).
Proof.
  intros. unfold field_get, field_mask. rewrite Z.land_spec, Z.shiftr_spec, Z.testbit_ones by lia.
  rewrite (proj2 (Z.leb_le 0 i)) by lia. cbn [andb]. apply andb_comm.
Qed.

(** A field reads back what was put there, and fields with no common bit do
    not disturb each other. *)
Lemma field_get_put o w x v :
  0 <= o -> 0 < w -> o + w <= 32 -> 0 <= x < 2 ^ w -> 0 <= v < 4294967296 ->
  field_get o w (field_put o w x v) = x.
Proof.
  intros. apply Z.bits_inj'. intros i Hi. rewrite testbit_field_get by lia.
  rewrite testbit_field_put by lia. rewrite (proj2 (Z.leb_le o (i + o))) by lia.
  destruct (i <? w) eqn:E; zbool; cbn [andb].
  - rewrite (proj2 (Z.ltb_lt (i + o) (o + w))) by lia. f_equal. lia.
  - symmetry. apply Z.bits_above_log2; [lia|].
    destruct (decide (x = 0)) as [->|?]; [simpl; lia|]. apply Z.log2_lt_pow2; [lia|].
    assert (2 ^ w <= 2 ^ i) by (apply Z.pow_le_mono_r; lia). lia.
Qed.

Lemma field_get_put_other o w x v o2 w2 :
  0 <= o -> 0 < w -> o + w <= 32 -> 0 <= x < 2 ^ w -> 0 <= v < 4294967296 ->
  0 <= o2 -> 0 < w2 -> (o + w <= o2 \/ o2 + w2 <= o) ->
  field_get o2 w2 (field_put o w x v) = field_get o2 w2 v.
Proof.
  intros. apply Z.bits_inj'. intros i Hi. rewrite !testbit_field_get by lia.
  destruct (i <? w2) eqn:E; zbool; cbn [andb]; [|done].
  rewrite testbit_field_put by lia.
  destruct (o <=? i + o2) eqn:E1, (i + o2 <? o + w) eqn:E2; zbool; cbn [andb]; try done. lia.
Qed.

Lemma field_put_range o w x v :
  0 <= v < 4294967296 -> 0 <= field_put o w x v < 4294967296.
Proof.
  intros Hv. unfold field_put.
  set (a := Z.land v _). set (b := u32 (Z.shiftl x o)).
  assert (0 <= a < 4294967296).
  { unfold a. rewrite Z.land_comm. pose proof (u32_range (Z.lnot (u32 (Z.shiftl (field_mask w) o)))).
    split; [apply Z.land_nonneg; lia|].
    pose proof (Z.land_nonneg (u32 (Z.lnot (u32 (Z.shiftl (field_mask w) o)))) v).
    destruct (decide (Z.land (u32 (Z.lnot (u32 (Z.shiftl (field_mask w) o)))) v = 0)) as [->|?]; [lia|].
    change 4294967296 with (2 ^ 32). apply Z.log2_lt_pow2; [lia|].
    eapply Z.le_lt_trans; [apply Z.log2_land; lia|]. apply Z.min_lt_iff. right.
    destruct (decide (v = 0)) as [->|?]; [simpl; lia|]. apply Z.log2_lt_pow2; lia. }
  assert (0 <= b < 4294967296) by apply u32_range. clearbody a b.
  split; [apply Z.lor_nonneg; lia|].
  destruct (decide (Z.lor a b = 0)) as [->|?]; [lia|].
  change 4294967296 with (2 ^ 32). apply Z.log2_lt_pow2; [pose proof (proj2 (Z.lor_nonneg a b)); lia|].
  rewrite Z.log2_lor by lia. apply Z.max_lub_lt.
  - destruct (decide (a = 0)) as [->|?]; [simpl; lia|]. apply Z.log2_lt_pow2; lia.
  - destruct (decide (b = 0)) as [->|?]; [simpl; lia|]. apply Z.log2_lt_pow2; lia.
Qed.

(** Equality of bitwise expressions, bit by bit. *)
Ltac bits :=
  apply Z.bits_inj'; intros ? ?;
  repeat (rewrite Z.land_spec || rewrite Z.lor_spec || rewrite Z.ldiff_spec);
  repeat match goal with |- context [Z.testbit ?a ?i] => destruct (Z.testbit a i) end; reflexivity.

(** A test of one bit. *)
Lemma land_pow2_test v o : 0 <= o -> negb (Z.land v (2 ^ o) =? 0) = Z.testbit v o.
Proof.
  intros Ho. destruct (Z.land v (2 ^ o) =? 0) eqn:E; zbool; simpl.
  - apply (f_equal (fun z => Z.testbit z o)) in E.
    by rewrite Z.land_spec, Z.pow2_bits_true, andb_true_r, Z.bits_0 in E by lia.
  - destruct (Z.testbit v o) eqn:T; [done|]. exfalso. apply E, Z.bits_inj'. intros i Hi.
    rewrite Z.land_spec, Z.pow2_bits_eqb, Z.bits_0 by lia.
    destruct (o =? i) eqn:EO; zbool; [subst; by rewrite T|by rewrite andb_false_r].
Qed.

Lemma field_get_bit o v : 0 <= o -> field_get o 1 v = Z.b2z (Z.testbit v o).
Proof.
  intros Ho. apply Z.bits_inj'. intros i Hi. rewrite testbit_field_get by lia.
  destruct (decide (i = 0)) as [->|Hne].
  - rewrite Z.b2z_bit0. done.
  - rewrite (proj2 (Z.ltb_ge i 1)) by lia. symmetry. cbn [andb].
    destruct (Z.testbit v o); cbn [Z.b2z]; [|apply Z.bits_0].
    rewrite <- (Z.pow_0_r 2). apply Z.pow2_bits_false. lia.
Qed.

(** ** The C library calls of the tools *)
Definition chars := list Ascii.ascii.

Definition is_space (c : Ascii.ascii) : bool :=
  let n := Ascii.nat_of_ascii c in (n =? 32)%nat || ((9 <=? n)%nat && (n <=? 13)%nat).

Definition digit_of (c : Ascii.ascii) : option Z :=
  let n := Ascii.nat_of_ascii c in
  if (48 <=? n)%nat && (n <=? 57)%nat then Some (Z.of_nat n - 48) else None.

Fixpoint skip_spaces (l : chars) : chars :=
  match l with c :: l' => if is_space c then skip_spaces l' else l | [] => [] end.

(** The digits at the front, as a number, and what follows them. *)
Fixpoint scan_digits (acc : Z) (l : chars) : Z * chars :=
  match l with
  | c :: l' => match digit_of c with Some d => scan_digits (acc * 10 + d) l' | None => (acc, l) end
  | [] => (acc, [])
  end.

Definition sign_of (l : chars) : bool * chars :=
  match l with
  | "-"%char :: l' => (true, l')
  | "+"%char :: l' => (false, l')
  | _ => (false, l)
  end.

(** Blanks, a sign and at least one digit: the sign, the number and the rest. *)
Definition scan_number (l : chars) : option (bool * Z * chars) :=
  let '(neg, l1) := sign_of (skip_spaces l) in
  match l1 with
  | c :: _ => match digit_of c with
              | Some _ => let '(v, rest) := scan_digits 0 l1 in Some (neg, v, rest)
              | None => None
              end
  | [] => None
  end.

Definition ULONG_MAX : Z := 18446744073709551615.

(** strtoul's value: clamped on overflow, else negated modulo 2^64. *)
Definition ulong_value (neg : bool) (v : Z) : Z :=
  if ULONG_MAX <? v then ULONG_MAX else if neg then u64 (- v) else v.

Inductive errno_t := EOK | EINVAL | ERANGE.

(** strtoul with base 10: value, rest of the text, errno.  A C library may
    or may not report EINVAL when there is no digit. *)
Definition strtoul (einval : bool) (l : chars) : Z * chars * errno_t :=
  match scan_number l with
  | None => (0, l, if einval then EINVAL else EOK)
  | Some (neg, v, rest) => (ulong_value neg v, rest, if ULONG_MAX <? v then ERANGE else EOK)
  end.

(** sscanf of an unsigned int with the length consumed. *)
Definition sscanf_u (l : chars) : option (Z * chars) :=
  match scan_number l with
  | None => None
  | Some (neg, v, rest) => Some (u32 (ulong_value neg v), rest)
  end.

Definition spaces (n : nat) : string := String.string_of_list_ascii (replicate n " "%char).

(** printf's [%-*s] and [%*s]: padding, never truncation. *)
Definition pad_right (n : nat) (s : string) : string := s +:+ spaces (n - String.length s).
Definition pad_left (n : nat) (s : string) : string := spaces (n - String.length s) +:+ s.

(** snprintf of [s] into [size] bytes: what the buffer holds as a string. *)
Definition snprintf_s (size : nat) (s : string) : string := String.substring 0 (size - 1) s.

(** ** The pin list *)

(** [while (pin <= pin2) mask |= 1UL << pin++]. *)
Fixpoint set_bits (n : nat) (pin mask : Z) : Z :=
  match n with
  | O => mask
  | S n' => set_bits n' (pin + 1) (Z.lor mask (Z.shiftl 1 pin))
  end.
Definition set_pins (pin pin2 mask : Z) : Z := set_bits (Z.to_nat (pin2 - pin + 1)) pin mask.

Section pin_list.
Context (read_pin : chars -> option (Z * chars)).

Definition pin_fuel_msg : string := "out of fuel".

(** The loop over the second argument: [Ok None] is the error exit. *)
Fixpoint parse_pins (fuel : nat) (p : chars) (mask : Z) : res (option Z) :=
  match fuel with
  | O => Crash pin_fuel_msg
  | S fuel' =>
      match read_pin p with
      | None => Ok None
      | Some (pin, p) =>
          match
            match p with
            | "-"%char :: p' =>
                match read_pin p' with
                | None => None
                | Some (pin2, p') => Some (if pin2 <? pin then (pin2, pin) else (pin, pin2), p')
                end
            | _ => Some ((pin, pin), p)
            end
          with
          | None => Ok None
          | Some ((lo, hi), p) =>
              let mask := set_pins lo hi mask in
              match p with
              | [] => Ok (Some mask)
              | ","%char :: p' => parse_pins fuel' p' mask
              | _ => Ok None
              end
          end
      end
  end.

Definition parse_pin_list (p : chars) : res (option Z) := parse_pins (S (length p)) p 0.
End pin_list.

(** gpio-rp1 reads with sscanf, the others with strtoul. *)
Definition read_pin_sscanf (gpio_max : Z) (p : chars) : option (Z * chars) :=
  match sscanf_u p with
  | Some (pin, p) => if gpio_max <=? pin then None else Some (pin, p)
  | None => None
  end.

Definition read_pin_strtoul (einval : bool) (gpio_max : Z) (p : chars) : option (Z * chars) :=
  let '(pin, p, errno) := strtoul einval p in
  match errno with
  | EINVAL => if pin =? 0 then None else Some (pin, p)
  | ERANGE => None
  | EOK => if gpio_max <=? pin then None else Some (pin, p)
  end.

(** ** The options of "set" *)
Definition DRIVE_UNSET : Z := 4294967295.
Definition DRIVE_LOW : Z := 0.
Definition DRIVE_HIGH : Z := 1.
Definition PULL_UNSET : Z := 4294967295.
Definition PULL_NONE : Z := 0.
Definition PULL_DOWN : Z := 1.
Definition PULL_UP : Z := 2.
Definition FUNC_UNSET : Z := 4294967295.
Definition FUNC_IP : Z := 20.
Definition FUNC_OP : Z := 21.
Definition FUNC_GP : Z := 22.
Definition FUNC_NO : Z := 23.
Definition FUNC_NULL : Z := 31.

Record settings := Settings { st_func : Z; st_drive : Z; st_pull : Z }.
Definition unset : settings := Settings FUNC_UNSET DRIVE_UNSET PULL_UNSET.

Definition with_func (f : Z) (s : settings) := Settings f (st_drive s) (st_pull s).
Definition with_drive (d : Z) (s : settings) := Settings (st_func s) d (st_pull s).
Definition with_pull (p : Z) (s : settings) := Settings (st_func s) (st_drive s) p.

Definition parse_option (arg : string) (s : settings) : option settings :=
  if String.eqb arg "dh" then Some (with_drive DRIVE_HIGH s)
  else if String.eqb arg "dl" then Some (with_drive DRIVE_LOW s)
  else if String.eqb arg "gp" then Some (with_func FUNC_GP s)
  else if String.eqb arg "ip" then Some (with_func FUNC_IP s)
  else if String.eqb arg "op" then Some (with_func FUNC_OP s)
  else if String.eqb arg "no" then Some (with_func FUNC_NO s)
  else if String.eqb arg "a0" then Some (with_func 0 s)
  else if String.eqb arg "a1" then Some (with_func 1 s)
  else if String.eqb arg "a2" then Some (with_func 2 s)
  else if String.eqb arg "a3" then Some (with_func 3 s)
  else if String.eqb arg "a4" then Some (with_func 4 s)
  else if String.eqb arg "a5" then Some (with_func 5 s)
  else if String.eqb arg "a6" then Some (with_func 6 s)
  else if String.eqb arg "a7" then Some (with_func 7 s)
  else if String.eqb arg "a8" then Some (with_func 8 s)
  else if String.eqb arg "pu" then Some (with_pull PULL_UP s)
  else if String.eqb arg "pd" then Some (with_pull PULL_DOWN s)
  else if String.eqb arg "pn" then Some (with_pull PULL_NONE s)
  else None.

Fixpoint parse_options (args : list string) (s : settings) : option settings :=
  match args with
  | [] => Some s
  | a :: rest => match parse_option a s with Some s => parse_options rest s | None => None end
  end.

(** What the arguments after the program's name ask for. *)
Inductive command :=
| CmdError                                   (* message and EXIT_FAILURE *)
| CmdFuncs (all_pins : bool) (mask : Z)
| CmdGet (all_pins : bool) (mask : Z)
| CmdSet (all_pins : bool) (mask : Z) (s : settings).

(** main's argument parsing, up to the end of it. *)
Definition parse_args (read_pin : chars -> option (Z * chars)) (args : list string) : res command :=
  match args with
  | [] => Ok CmdError
  | cmd :: args =>
      let get := String.eqb cmd "get" in
      let set := String.eqb cmd "set" in
      let funcs := String.eqb cmd "funcs" in
      if negb set && negb get && negb funcs then Ok CmdError
      else if (get || funcs) && (2 <=? length args)%nat then Ok CmdError
      else if set && (length args <? 2)%nat then Ok CmdError
      else
        let! mask := match args with
                     | [] => Ok (Some 0)
                     | pins :: _ => parse_pin_list read_pin (String.list_ascii_of_string pins)
                     end in
        match mask with
        | None => Ok CmdError
        | Some mask =>
            let all := mask =? 0 in
            if set then
              match parse_options (drop 1 args) unset with
              | None => Ok CmdError
              | Some s => Ok (CmdSet all mask s)
              end
            else if funcs then Ok (CmdFuncs all mask)
            else Ok (CmdGet all mask)
        end
  end.

(** ** The pin list: what it means *)
Definition digit_char (d : Z) : Ascii.ascii := Ascii.ascii_of_nat (48 + Z.to_nat d).

(** A number below 100, as a user writes it. *)
Definition dec (n : Z) : chars :=
  if n <? 10 then [digit_char n] else [digit_char (n / 10); digit_char (n mod 10)].

Lemma digit_char_spec d : 0 <= d < 10 ->
  digit_of (digit_char d) = Some d /\ is_space (digit_char d) = false /\
  digit_char d <> "-"%char /\ digit_char d <> "+"%char.
Proof.
  intros Hd. replace d with (Z.of_nat (Z.to_nat d)) by lia.
  assert (Hn : (Z.to_nat d < 10)%nat) by lia. set (n := Z.to_nat d) in *. clearbody n.
  do 10 (destruct n as [|n]; [repeat split; try reflexivity; discriminate|]). lia.
Qed.

Lemma sign_of_other c l : c <> "-"%char -> c <> "+"%char -> sign_of (c :: l) = (false, c :: l).
Proof.
  intros H1 H2. unfold sign_of.
  destruct c as [[] [] [] [] [] [] [] []]; try reflexivity; congruence.
Qed.

Definition no_digit (l : chars) : Prop := match l with c :: _ => digit_of c = None | [] => True end.

Lemma scan_digits_stop acc l : no_digit l -> scan_digits acc l = (acc, l).
Proof. destruct l as [|c l]; simpl; [done|]. by intros ->. Qed.

Lemma scan_number_dec n rest :
  0 <= n < 100 -> no_digit rest -> scan_number (dec n ++ rest) = Some (false, n, rest).
Proof.
  intros Hn HR. unfold dec. destruct (n <? 10) eqn:E; zbool.
  - destruct (digit_char_spec n) as (D & Sp & M & P); [lia|]. unfold scan_number.
    cbn [app skip_spaces]. rewrite Sp, sign_of_other by done. rewrite D.
    cbn [scan_digits]. rewrite D, scan_digits_stop by done. do 3 f_equal.
  - assert (0 <= n / 10 < 10) by (split; [apply Z.div_pos; lia|apply Z.div_lt_upper_bound; lia]).
    pose proof (Z.mod_pos_bound n 10).
    destruct (digit_char_spec (n / 10)) as (D & Sp & M & P); [lia|].
    destruct (digit_char_spec (n mod 10)) as (D2 & _); [lia|]. unfold scan_number.
    cbn [app skip_spaces]. rewrite Sp, sign_of_other by done. rewrite D.
    cbn [scan_digits]. rewrite D, D2, scan_digits_stop by done. do 3 f_equal.
    pose proof (Z.div_mod n 10). lia.
Qed.

(** What the parser needs of the number reader. *)
Record pin_reader (read_pin : chars -> option (Z * chars)) (gpio_max : Z) : Prop := {
  reads_dec n rest : 0 <= n < gpio_max -> no_digit rest -> read_pin (dec n ++ rest) = Some (n, rest);
  read_shrinks l n rest : read_pin l = Some (n, rest) -> (length rest <= length l)%nat;
  read_bound l n rest : read_pin l = Some (n, rest) -> n < gpio_max
}.

Lemma length_skip_spaces l : (length (skip_spaces l) <= length l)%nat.
Proof. induction l as [|c l IH]; simpl; [done|]. destruct (is_space c); simpl; lia. Qed.

Lemma length_scan_digits acc l : (length (snd (scan_digits acc l)) <= length l)%nat.
Proof.
  revert acc; induction l as [|c l IH]; intros acc; simpl; [done|].
  destruct (digit_of c); simpl; [|done]. etrans; [apply IH|lia].
Qed.

Lemma length_sign_of l : (length (snd (sign_of l)) <= length l)%nat.
Proof.
  destruct l as [|c l]; simpl; [done|].
  destruct c as [[] [] [] [] [] [] [] []]; simpl; lia.
Qed.

Lemma length_scan_number l b v rest :
  scan_number l = Some (b, v, rest) -> (length rest <= length l)%nat.
Proof.
  unfold scan_number. pose proof (length_skip_spaces l) as L1.
  pose proof (length_sign_of (skip_spaces l)) as L2. destruct (sign_of _) as [neg l1]. simpl in L2.
  destruct l1 as [|c l1]; [done|]. destruct (digit_of c); [|done].
  pose proof (length_scan_digits 0 (c :: l1)) as L3. destruct (scan_digits 0 (c :: l1)).
  simpl in *. intros [= _ _ <-]. lia.
Qed.

Lemma sscanf_pin_reader gpio_max : gpio_max <= 100 -> pin_reader (read_pin_sscanf gpio_max) gpio_max.
Proof.
  intros Hm. unfold read_pin_sscanf, sscanf_u. constructor.
  - intros n rest Hn HR. rewrite scan_number_dec by (auto; lia). unfold ulong_value.
    unfold ULONG_MAX. rewrite (proj2 (Z.ltb_ge _ n)) by lia. width_simpl.
    rewrite (proj2 (Z.leb_gt gpio_max n)) by lia. done.
  - intros l n rest. destruct (scan_number l) as [[[b v] r]|] eqn:E; [|done].
    zcase; [done|]. intros [= _ <-]. by apply length_scan_number in E.
  - intros l n rest. destruct (scan_number l) as [[[b v] r]|] eqn:E; [|done].
    zcase; [done|]. intros [= <- _]. done.
Qed.

Lemma strtoul_pin_reader einval gpio_max :
  0 < gpio_max <= 100 -> pin_reader (read_pin_strtoul einval gpio_max) gpio_max.
Proof.
  intros Hm. unfold read_pin_strtoul, strtoul. constructor.
  - intros n rest Hn HR. rewrite scan_number_dec by (auto; lia). unfold ulong_value.
    unfold ULONG_MAX. rewrite (proj2 (Z.ltb_ge _ n)) by lia.
    rewrite (proj2 (Z.leb_gt gpio_max n)) by lia. done.
  - intros l n rest. destruct (scan_number l) as [[[b v] r]|] eqn:E.
    + destruct (ULONG_MAX <? v); [done|]. zcase; [done|]. intros [= _ <-].
      by apply length_scan_number in E.
    + destruct einval; simpl; [done|]. zcase; [done|]. by intros [= _ <-].
  - intros l n rest. destruct (scan_number l) as [[[b v] r]|] eqn:E.
    + destruct (ULONG_MAX <? v); [done|]. zcase; [done|]. by intros [= <- _].
    + destruct einval; simpl; [done|]. zcase; [done|]. intros [= <- _]. lia.
Qed.

(** One item of the list: a pin, or a range with its ends in any order. *)
Record pin_item := PinItem { pi_first : Z; pi_second : option Z }.

Definition item_ok (gpio_max : Z) (i : pin_item) : Prop :=
  0 <= pi_first i < gpio_max /\ match pi_second i with Some b => 0 <= b < gpio_max | None => True end.

Definition item_has (i : pin_item) (x : Z) : bool :=
  match pi_second i with
  | None => x =? pi_first i
  | Some b => (Z.min (pi_first i) b <=? x) && (x <=? Z.max (pi_first i) b)
  end.

Definition render_item (i : pin_item) : chars :=
  dec (pi_first i) ++ match pi_second i with Some b => "-"%char :: dec b | None => [] end.

Fixpoint render (i : pin_item) (items : list pin_item) : chars :=
  match items with
  | [] => render_item i
  | j :: rest => render_item i ++ ","%char :: render j rest
  end.

Lemma testbit_set_bits n pin mask x : 0 <= pin -> 0 <= x ->
  Z.testbit (set_bits n pin mask) x = Z.testbit mask x || ((pin <=? x) && (x <? pin + Z.of_nat n)).
Proof.
  revert pin mask; induction n as [|n IH]; intros pin mask Hp Hx; cbn [set_bits].
  - destruct (pin <=? x) eqn:E1, (x <? pin + Z.of_nat 0) eqn:E2; zbool; try lia;
      by rewrite orb_false_r.
  - rewrite IH by lia. rewrite Z.lor_spec, Z.shiftl_1_l, Z.pow2_bits_eqb by lia.
    rewrite <- orb_assoc. f_equal.
    destruct (pin =? x) eqn:E1, (pin + 1 <=? x) eqn:E2, (x <? pin + 1 + Z.of_nat n) eqn:E3,
      (pin <=? x) eqn:E4, (x <? pin + Z.of_nat (S n)) eqn:E5; zbool; try done; lia.
Qed.

Lemma testbit_set_pins lo hi mask x : 0 <= lo <= hi -> 0 <= x ->
  Z.testbit (set_pins lo hi mask) x = Z.testbit mask x || ((lo <=? x) && (x <=? hi)).
Proof.
  intros. unfold set_pins. rewrite testbit_set_bits by lia. f_equal. f_equal.
  destruct (x <? _) eqn:E1, (x <=? hi) eqn:E2; zbool; try done; lia.
Qed.

Section parse.
Context (read_pin : chars -> option (Z * chars)) (gpio_max : Z).
Hypothesis reader : pin_reader read_pin gpio_max.

(** Every round but the last one consumes its comma. *)
Lemma parse_pins_total fuel p mask m :
  (length p < fuel)%nat -> parse_pins read_pin fuel p mask <> Crash m.
Proof.
  revert p mask; induction fuel as [|fuel IH]; intros p mask Hf; [lia|]. simpl.
  destruct (read_pin p) as [[pin p1]|] eqn:E1; [|done].
  pose proof (read_shrinks _ _ reader _ _ _ E1) as L1.
  assert (Tail : forall lo hi p2, (length p2 <= length p)%nat ->
    match p2 with
    | [] => Ok (Some (set_pins lo hi mask))
    | ","%char :: p' => parse_pins read_pin fuel p' (set_pins lo hi mask)
    | _ => Ok None
    end <> Crash m).
  { intros lo hi [|c p2] L2; [done|]. simpl in L2.
    destruct c as [[] [] [] [] [] [] [] []]; try done. apply IH. lia. }
  destruct p1 as [|c p1]; [done|].
  destruct (ascii_dec c "-"%char) as [->|Hne].
  - destruct (read_pin p1) as [[pin2 p2]|] eqn:E2; [|done].
    pose proof (read_shrinks _ _ reader _ _ _ E2) as L2. simpl in L1.
    destruct (pin2 <? pin); apply Tail; lia.
  - specialize (Tail pin pin (c :: p1) L1).
    destruct c as [[] [] [] [] [] [] [] []]; try exact Tail; congruence.
Qed.

(** One item, followed by the end of the text or a comma. *)
Lemma parse_pins_item fuel i tail mask :
  item_ok gpio_max i -> (tail = [] \/ exists t, tail = ","%char :: t) ->
  exists lo hi, 0 <= lo <= hi /\
    (forall x, (lo <=? x) && (x <=? hi) = item_has i x) /\
    parse_pins read_pin (S fuel) (render_item i ++ tail) mask =
    match tail with
    | [] => Ok (Some (set_pins lo hi mask))
    | _ :: t => parse_pins read_pin fuel t (set_pins lo hi mask)
    end.
Proof.
  intros [H1 H2] HT. destruct i as [a b]; simpl in *. unfold render_item, item_has; simpl.
  assert (NT : no_digit tail) by (destruct HT as [->|(t & ->)]; done).
  destruct b as [b|].
  - exists (Z.min a b), (Z.max a b). split; [lia|]. split; [done|].
    rewrite <- app_assoc. rewrite (reads_dec _ _ reader a) by done. simpl.
    rewrite (reads_dec _ _ reader b) by done.
    destruct (b <? a) eqn:E; zbool.
    + rewrite Z.min_r, Z.max_l by lia. destruct HT as [->|(t & ->)]; done.
    + rewrite Z.min_l, Z.max_r by lia. destruct HT as [->|(t & ->)]; done.
  - exists a, a. split; [lia|]. split.
    { intros x. destruct (x =? a) eqn:E, (a <=? x) eqn:E1, (x <=? a) eqn:E2; zbool; try done; lia. }
    rewrite app_nil_r, (reads_dec _ _ reader a) by done.
    destruct HT as [->|(t & ->)]; done.
Qed.

Lemma length_dec_pos n : (0 < length (dec n))%nat.
Proof. unfold dec. destruct (n <? 10); simpl; lia. Qed.

Lemma parse_pins_render items fuel i mask :
  Forall (item_ok gpio_max) (i :: items) -> (length (render i items) < fuel)%nat ->
  exists m, parse_pins read_pin fuel (render i items) mask = Ok (Some m) /\
    forall x, 0 <= x -> Z.testbit m x = Z.testbit mask x || existsb (fun j => item_has j x) (i :: items).
Proof.
  revert fuel i mask; induction items as [|j items IH]; intros fuel i mask HF Hf;
    inversion HF as [|? ? Hi HF']; subst; (destruct fuel as [|fuel]; [lia|]).
  - destruct (parse_pins_item fuel i [] mask Hi) as (lo & hi & Hlh & HH & HP); [auto|].
    rewrite app_nil_r in HP. cbn [render]. rewrite HP. eexists; split; [done|].
    intros x Hx. rewrite testbit_set_pins, HH by done. cbn [existsb]. by rewrite orb_false_r.
  - cbn [render] in *.
    destruct (parse_pins_item fuel i (","%char :: render j items) mask Hi)
      as (lo & hi & Hlh & HH & HP); [eauto|]. rewrite HP.
    destruct (IH fuel j (set_pins lo hi mask) HF') as (m & Hm & HB).
    { rewrite length_app in Hf. simpl in Hf. lia. }
    exists m. split; [done|]. intros x Hx. rewrite HB, testbit_set_pins, HH by done.
    cbn [existsb]. by rewrite <- orb_assoc.
Qed.
End parse.

(** ** Theorems *)

(** C38 (the pin list) Written as numbers and ranges separated by commas, a
    list of pins and ranges (ends in any order) is accepted and sets exactly
    the bits of the pins it names; on any other text the parser ends too,
    with a mask or the error exit. *)
Theorem parse_pin_list_exact (read_pin : chars -> option (Z * chars)) (gpio_max : Z)
    (i : pin_item) (items : list pin_item) :
  pin_reader read_pin gpio_max -> Forall (item_ok gpio_max) (i :: items) ->
  (exists m, parse_pin_list read_pin (render i items) = Ok (Some m) /\
     forall x, 0 <= x -> Z.testbit m x = existsb (fun j => item_has j x) (i :: items)) /\
  (forall p, exists r, parse_pin_list read_pin p = Ok r).
Proof.
  intros R HF. unfold parse_pin_list. split.
  - destruct (parse_pins_render read_pin gpio_max R items (S (length (render i items))) i 0 HF)
      as (m & Hm & HB); [lia|]. exists m. split; [done|]. intros x Hx.
    rewrite HB, Z.bits_0 by done. done.
  - intros p. destruct (parse_pins read_pin (S (length p)) p 0) as [r|m] eqn:E; [eauto|].
    exfalso. revert E. apply (parse_pins_total read_pin gpio_max R). lia.
Qed.

(** The list 3,7-5. *)
Lemma parse_pin_list_exact_witness :
  parse_pin_list (read_pin_sscanf 54) (String.list_ascii_of_string "3,7-5") = Ok (Some 232).
Proof.
  assert (HF : Forall (item_ok 54) [PinItem 3 None; PinItem 7 (Some 5)])
    by (repeat constructor; simpl; lia).
  destruct (parse_pin_list_exact (read_pin_sscanf 54) 54 (PinItem 3 None) [PinItem 7 (Some 5)]
    (sscanf_pin_reader 54 ltac:(lia)) HF) as [(m & Hm & HB) _].
  assert (E : parse_pin_list (read_pin_sscanf 54) (render (PinItem 3 None) [PinItem 7 (Some 5)])
    = Ok (Some 232)) by (vm_compute; reflexivity).
  rewrite E in Hm. injection Hm as <-. exact E.
Defined.

(** ** The options a tool accepts *)
Definition settings_ok (s : settings) : Prop :=
  0 <= st_func s < 4294967296 /\ (st_pull s = PULL_UNSET \/ 0 <= st_pull s <= 2) /\
  (st_drive s = DRIVE_UNSET \/ st_drive s = DRIVE_LOW \/ st_drive s = DRIVE_HIGH).

Lemma parse_option_ok arg s s' : settings_ok s -> parse_option arg s = Some s' -> settings_ok s'.
Proof.
  intros (F & P & Dr). unfold parse_option, settings_ok, with_func, with_drive, with_pull.
  repeat (match goal with |- context [if String.eqb arg ?x then _ else _] => destruct (String.eqb arg x) end;
    [intros [= <-]; simpl;
     unfold FUNC_IP, FUNC_OP, FUNC_GP, FUNC_NO, PULL_NONE, PULL_DOWN, PULL_UP; auto with lia|]).
  done.
Qed.

Lemma parse_options_ok args s s' : settings_ok s -> parse_options args s = Some s' -> settings_ok s'.
Proof.
  revert s; induction args as [|a args IH]; intros s H; simpl; [by intros [= <-]|].
  destruct (parse_option a s) as [s1|] eqn:E; [|done]. apply IH. by eapply parse_option_ok.
Qed.

Lemma unset_ok : settings_ok unset.
Proof. unfold settings_ok, unset, FUNC_UNSET, PULL_UNSET, DRIVE_UNSET; simpl. lia. Qed.

Lemma parse_args_set_ok read_pin args all mask s :
  parse_args read_pin args = Ok (CmdSet all mask s) -> settings_ok s /\ all = (mask =? 0).
Proof.
  destruct args as [|cmd args]; [done|]. cbn [parse_args].
  destruct (_ && _); [done|]. destruct (_ && _); [done|]. destruct (_ && _); [done|].
  intros HB. apply res_bind_Ok in HB as ([m|] & _ & HB); [|done].
  destruct (String.eqb cmd "set").
  - destruct (parse_options _ _) as [s1|] eqn:E; [|done]. injection HB as <- <- <-.
    split; [|done]. by eapply parse_options_ok; [apply unset_ok|].
  - by destruct (String.eqb cmd "funcs").
Qed.
