(* ===== verification/GpioTables.v ===== *)
(** * The name and conversion tables of the three GPIO tools

    Transcribed from gpio-rp1/gpio.c, gpio-bcm/gpio.c and gpio-aon-bcm/gpio.c
    of support/bcm2712, in the order of the code: the names of the alternate
    functions, row by row, the names of the pins, and the pin numbers of the
    C0 stepping for the pins of the D0 stepping. *)
From S2P Require Import Prelude.

Definition GPIO_UNKNOWN : Z := 4294967295.

Definition rp1_gpio_fsel_names : list string :=
  ["SPI0_SIO3 "; "DPI_PCLK     "; "TXD1         "; "SDA0         "; "-            "; "SYS_RIO00 "; "PROC_RIO00 "; "PIO0       "; "SPI2_CE0 ";
   "SPI0_SIO2 "; "DPI_DE       "; "RXD1         "; "SCL0         "; "-            "; "SYS_RIO01 "; "PROC_RIO01 "; "PIO1       "; "SPI2_SIO1";
   "SPI0_CE3  "; "DPI_VSYNC    "; "CTS1         "; "SDA1         "; "IR_RX0       "; "SYS_RIO02 "; "PROC_RIO02 "; "PIO2       "; "SPI2_SIO0";
   "SPI0_CE2  "; "DPI_HSYNC    "; "RTS1         "; "SCL1         "; "IR_TX0       "; "SYS_RIO03 "; "PROC_RIO03 "; "PIO3       "; "SPI2_SCLK";
   "GPCLK0    "; "DPI_D0       "; "TXD2         "; "SDA2         "; "RI0          "; "SYS_RIO04 "; "PROC_RIO04 "; "PIO4       "; "SPI3_CE0 ";
   "GPCLK1    "; "DPI_D1       "; "RXD2         "; "SCL2         "; "DTR0         "; "SYS_RIO05 "; "PROC_RIO05 "; "PIO5       "; "SPI3_SIO1";
   "GPCLK2    "; "DPI_D2       "; "CTS2         "; "SDA3         "; "DCD0         "; "SYS_RIO06 "; "PROC_RIO06 "; "PIO6       "; "SPI3_SIO0";
   "SPI0_CE1  "; "DPI_D3       "; "RTS2         "; "SCL3         "; "DSR0         "; "SYS_RIO07 "; "PROC_RIO07 "; "PIO7       "; "SPI3_SCLK";
   "SPI0_CE0  "; "DPI_D4       "; "TXD3         "; "SDA0         "; "-            "; "SYS_RIO08 "; "PROC_RIO08 "; "PIO8       "; "SPI4_CE0 ";
   "SPI0_MISO "; "DPI_D5       "; "RXD3         "; "SCL0         "; "-            "; "SYS_RIO09 "; "PROC_RIO09 "; "PIO9       "; "SPI4_SIO0";
   "SPI0_MOSI "; "DPI_D6       "; "CTS3         "; "SDA1         "; "-            "; "SYS_RIO010"; "PROC_RIO010"; "PIO10      "; "SPI4_SIO1";
   "SPI0_SCLK "; "DPI_D7       "; "RTS3         "; "SCL1         "; "-            "; "SYS_RIO011"; "PROC_RIO011"; "PIO11      "; "SPI4_SCLK";
   "PWM0_CHAN0"; "DPI_D8       "; "TXD4         "; "SDA2         "; "AAUD_LEFT    "; "SYS_RIO012"; "PROC_RIO012"; "PIO12      "; "SPI5_CE0 ";
   "PWM0_CHAN1"; "DPI_D9       "; "RXD4         "; "SCL2         "; "AAUD_RIGHT   "; "SYS_RIO013"; "PROC_RIO013"; "PIO13      "; "SPI5_SIO1";
   "PWM0_CHAN2"; "DPI_D10      "; "CTS4         "; "SDA3         "; "TXD0         "; "SYS_RIO014"; "PROC_RIO014"; "PIO14      "; "SPI5_SIO0";
   "PWM0_CHAN3"; "DPI_D11      "; "RTS4         "; "SCL3         "; "RXD0         "; "SYS_RIO015"; "PROC_RIO015"; "PIO15      "; "SPI5_SCLK";
   "SPI1_CE2  "; "DPI_D12      "; "DSI0_TE_EXT  "; "-            "; "CTS0         "; "SYS_RIO016"; "PROC_RIO016"; "PIO16      "; "-        ";
   "SPI1_CE1  "; "DPI_D13      "; "DSI1_TE_EXT  "; "-            "; "RTS0         "; "SYS_RIO017"; "PROC_RIO017"; "PIO17      "; "-        ";
   "SPI1_CE0  "; "DPI_D14      "; "I2S0_SCLK    "; "PWM0_CHAN2   "; "I2S1_SCLK    "; "SYS_RIO018"; "PROC_RIO018"; "PIO18      "; "GPCLK1   ";
   "SPI1_MISO "; "DPI_D15      "; "I2S0_WS      "; "PWM0_CHAN3   "; "I2S1_WS      "; "SYS_RIO019"; "PROC_RIO019"; "PIO19      "; "-        ";
   "SPI1_MOSI "; "DPI_D16      "; "I2S0_SDI0    "; "GPCLK0       "; "I2S1_SDI0    "; "SYS_RIO020"; "PROC_RIO020"; "PIO20      "; "-        ";
   "SPI1_SCLK "; "DPI_D17      "; "I2S0_SDO0    "; "GPCLK1       "; "I2S1_SDO0    "; "SYS_RIO021"; "PROC_RIO021"; "PIO21      "; "-        ";
   "SD0CLK    "; "DPI_D18      "; "I2S0_SDI1    "; "SDA3         "; "I2S1_SDI1    "; "SYS_RIO022"; "PROC_RIO022"; "PIO22      "; "-        ";
   "SD0_CMD   "; "DPI_D19      "; "I2S0_SDO1    "; "SCL3         "; "I2S1_SDO1    "; "SYS_RIO023"; "PROC_RIO023"; "PIO23      "; "-        ";
   "SD0_DAT0  "; "DPI_D20      "; "I2S0_SDI2    "; "-            "; "I2S1_SDI2    "; "SYS_RIO024"; "PROC_RIO024"; "PIO24      "; "SPI2_CE1 ";
   "SD0_DAT1  "; "DPI_D21      "; "I2S0_SDO2    "; "MIC_CLK      "; "I2S1_SDO2    "; "SYS_RIO025"; "PROC_RIO025"; "PIO25      "; "SPI3_CE1 ";
   "SD0_DAT2  "; "DPI_D22      "; "I2S0_SDI3    "; "MIC_DAT0     "; "I2S1_SDI3    "; "SYS_RIO026"; "PROC_RIO026"; "PIO26      "; "SPI5_CE1 ";
   "SD0_DAT3  "; "DPI_D23      "; "I2S0_SDO3    "; "MIC_DAT1     "; "I2S1_SDO3    "; "SYS_RIO027"; "PROC_RIO027"; "PIO27      "; "SPI1_CE1 ";
   "SD1CLK    "; "SDA4         "; "I2S2_SCLK    "; "SPI6_MISO    "; "VBUS_EN0     "; "SYS_RIO10 "; "PROC_RIO10 "; "-          "; "-        ";
   "SD1_CMD   "; "SCL4         "; "I2S2_WS      "; "SPI6_MOSI    "; "VBUS_OC0     "; "SYS_RIO11 "; "PROC_RIO11 "; "-          "; "-        ";
   "SD1_DAT0  "; "SDA5         "; "I2S2_SDI0    "; "SPI6_SCLK    "; "TXD5         "; "SYS_RIO12 "; "PROC_RIO12 "; "-          "; "-        ";
   "SD1_DAT1  "; "SCL5         "; "I2S2_SDO0    "; "SPI6_CE0     "; "RXD5         "; "SYS_RIO13 "; "PROC_RIO13 "; "-          "; "-        ";
   "SD1_DAT2  "; "GPCLK3       "; "I2S2_SDI1    "; "SPI6_CE1     "; "CTS5         "; "SYS_RIO14 "; "PROC_RIO14 "; "-          "; "-        ";
   "SD1_DAT3  "; "GPCLK4       "; "I2S2_SDO1    "; "SPI6_CE2     "; "RTS5         "; "SYS_RIO15 "; "PROC_RIO15 "; "-          "; "-        ";
   "PWM1_CHAN2"; "GPCLK3       "; "VBUS_EN0     "; "SDA4         "; "MIC_CLK      "; "SYS_RIO20 "; "PROC_RIO20 "; "-          "; "-        ";
   "SPI8_CE1  "; "PWM1_CHAN0   "; "VBUS_OC0     "; "SCL4         "; "MIC_DAT0     "; "SYS_RIO21 "; "PROC_RIO21 "; "-          "; "-        ";
   "SPI8_CE0  "; "TXD5         "; "PCIE_CLKREQ_N"; "SDA5         "; "MIC_DAT1     "; "SYS_RIO22 "; "PROC_RIO22 "; "-          "; "-        ";
   "SPI8_MISO "; "RXD5         "; "MIC_CLK      "; "SCL5         "; "PCIE_CLKREQ_N"; "SYS_RIO23 "; "PROC_RIO23 "; "-          "; "-        ";
   "SPI8_MOSI "; "RTS5         "; "MIC_DAT0     "; "SDA6         "; "AAUD_LEFT    "; "SYS_RIO24 "; "PROC_RIO24 "; "DSI0_TE_EXT"; "-        ";
   "SPI8_SCLK "; "CTS5         "; "MIC_DAT1     "; "SCL6         "; "AAUD_RIGHT   "; "SYS_RIO25 "; "PROC_RIO25 "; "DSI1_TE_EXT"; "-        ";
   "PWM1_CHAN1"; "TXD5         "; "SDA4         "; "SPI6_MISO    "; "AAUD_LEFT    "; "SYS_RIO26 "; "PROC_RIO26 "; "-          "; "-        ";
   "PWM1_CHAN2"; "RXD5         "; "SCL4         "; "SPI6_MOSI    "; "AAUD_RIGHT   "; "SYS_RIO27 "; "PROC_RIO27 "; "-          "; "-        ";
   "GPCLK5    "; "RTS5         "; "VBUS_EN1     "; "SPI6_SCLK    "; "I2S2_SCLK    "; "SYS_RIO28 "; "PROC_RIO28 "; "-          "; "-        ";
   "GPCLK4    "; "CTS5         "; "VBUS_OC1     "; "SPI6_CE0     "; "I2S2_WS      "; "SYS_RIO29 "; "PROC_RIO29 "; "-          "; "-        ";
   "GPCLK5    "; "SDA5         "; "PWM1_CHAN0   "; "SPI6_CE1     "; "I2S2_SDI0    "; "SYS_RIO210"; "PROC_RIO210"; "-          "; "-        ";
   "PWM1_CHAN3"; "SCL5         "; "SPI7_CE0     "; "SPI6_CE2     "; "I2S2_SDO0    "; "SYS_RIO211"; "PROC_RIO211"; "-          "; "-        ";
   "GPCLK3    "; "SDA4         "; "SPI7_MOSI    "; "MIC_CLK      "; "I2S2_SDI1    "; "SYS_RIO212"; "PROC_RIO212"; "DSI0_TE_EXT"; "-        ";
   "GPCLK5    "; "SCL4         "; "SPI7_MISO    "; "MIC_DAT0     "; "I2S2_SDO1    "; "SYS_RIO213"; "PROC_RIO213"; "DSI1_TE_EXT"; "-        ";
   "PWM1_CHAN0"; "PCIE_CLKREQ_N"; "SPI7_SCLK    "; "MIC_DAT1     "; "TXD5         "; "SYS_RIO214"; "PROC_RIO214"; "-          "; "-        ";
   "SPI8_SCLK "; "SPI7_SCLK    "; "SDA5         "; "AAUD_LEFT    "; "RXD5         "; "SYS_RIO215"; "PROC_RIO215"; "-          "; "-        ";
   "SPI8_MISO "; "SPI7_MOSI    "; "SCL5         "; "AAUD_RIGHT   "; "VBUS_EN2     "; "SYS_RIO216"; "PROC_RIO216"; "-          "; "-        ";
   "SPI8_MOSI "; "SPI7_MISO    "; "SDA6         "; "AAUD_LEFT    "; "VBUS_OC2     "; "SYS_RIO217"; "PROC_RIO217"; "-          "; "-        ";
   "SPI8_CE0  "; "-            "; "SCL6         "; "AAUD_RIGHT   "; "VBUS_EN3     "; "SYS_RIO218"; "PROC_RIO218"; "-          "; "-        ";
   "SPI8_CE1  "; "SPI7_CE0     "; "-            "; "PCIE_CLKREQ_N"; "VBUS_OC3     "; "SYS_RIO219"; "PROC_RIO219"; "-          "; "-        "]%string.

Definition rp1_gpio_fdt_names : list string :=
  ["ID_SDA           "; "ID_SCL           "; "-                ";
   "-                "; "-                "; "-                ";
   "-                "; "-                "; "-                ";
   "-                "; "-                "; "-                ";
   "-                "; "-                "; "-                ";
   "-                "; "-                "; "-                ";
   "-                "; "-                "; "-                ";
   "-                "; "-                "; "-                ";
   "-                "; "-                "; "-                ";
   "-                "; "PCIE_RP1_WAKE    "; "FAN_TACH         ";
   "HOST_SDA         "; "HOST_SCL         "; "ETH_RST_N        ";
   "-                "; "CD0_IO0_MICCLK   "; "CD0_IO0_MICDAT0  ";
   "RP1_PCIE_CLKREQ_N"; "-                "; "CD0_SDA          ";
   "CD0_SCL          "; "CD1_SDA          "; "CD1_SCL          ";
   "USB_VBUS_EN      "; "USB_OC_N         "; "RP1_STAT_LED     ";
   "FAN_PWM          "; "CD1_IO0_MICCLK   "; "2712_WAKE        ";
   "CD1_IO1_MICDAT1  "; "EN_MAX_USB_CUR   "; "-                ";
   "-                "; "-                "; "-                "]%string.

Definition gpio_bcm_fsel_names : list string :=
  ["BSC_M3_SDA             "; "VC_SDA0          "; "GPCLK0           "; "ENET0_LINK        "; "VC_PWM1_0             "; "VC_SPI0_CE1_N         "; "IR_IN          "; "-             ";
   "BSC_M3_SCL             "; "VC_SCL0          "; "GPCLK1           "; "ENET0_ACTIVITY    "; "VC_PWM1_1             "; "SR_EDM_SENSE          "; "VC_SPI0_CE0_N  "; "VC_TXD3       ";
   "PDM_CLK                "; "I2S_CLK0_IN      "; "GPCLK2           "; "VC_SPI4_CE1_N     "; "PKT_CLK0              "; "VC_SPI0_MISO          "; "VC_RXD3        "; "-             ";
   "PDM_DATA0              "; "I2S_LR0_IN       "; "VC_SPI4_CE0_N    "; "PKT_SYNC0         "; "VC_SPI0_MOSI          "; "VC_CTS3               "; "-              "; "-             ";
   "PDM_DATA1              "; "I2S_DATA0_IN     "; "ARM_RTCK         "; "VC_SPI4_MISO      "; "PKT_DATA0             "; "VC_SPI0_SCLK          "; "VC_RTS3        "; "-             ";
   "PDM_DATA2              "; "VC_SCL3          "; "ARM_TRST         "; "SD_CARD_LED_E     "; "VC_SPI4_MOSI          "; "PKT_CLK1              "; "VC_PCM_CLK     "; "VC_SDA5       ";
   "PDM_DATA3              "; "VC_SDA3          "; "ARM_TCK          "; "SD_CARD_WPROT_E   "; "VC_SPI4_SCLK          "; "PKT_SYNC1             "; "VC_PCM_FS      "; "VC_SCL5       ";
   "I2S_CLK0_OUT           "; "SPDIF_OUT        "; "ARM_TDI          "; "SD_CARD_PRES_E    "; "VC_SDA3               "; "ENET0_RGMII_START_STOP"; "VC_PCM_DIN     "; "VC_SPI4_CE1_N ";
   "I2S_LR0_OUT            "; "AUD_FS_CLK0      "; "ARM_TMS          "; "SD_CARD_VOLT_E    "; "VC_SCL3               "; "ENET0_MII_TX_ERR      "; "VC_PCM_DOUT    "; "VC_SPI4_CE0_N ";
   "I2S_DATA0_OUT          "; "AUD_FS_CLK0      "; "ARM_TDO          "; "SD_CARD_PWR0_E    "; "ENET0_MII_RX_ERR      "; "SD_CARD_VOLT_C        "; "VC_SPI4_SCLK   "; "-             ";
   "BSC_M3_SCL             "; "MTSIF_DATA4_ALT1 "; "I2S_CLK0_IN      "; "I2S_CLK0_OUT      "; "VC_SPI5_CE1_N         "; "ENET0_MII_CRS         "; "SD_CARD_PWR0_C "; "VC_SPI4_MOSI  ";
   "BSC_M3_SDA             "; "MTSIF_DATA5_ALT1 "; "I2S_LR0_IN       "; "I2S_LR0_OUT       "; "VC_SPI5_CE0_N         "; "ENET0_MII_COL         "; "SD_CARD_PRES_C "; "VC_SPI4_MISO  ";
   "SPI_S_SS0B             "; "MTSIF_DATA6_ALT1 "; "I2S_DATA0_IN     "; "I2S_DATA0_OUT     "; "VC_SPI5_MISO          "; "VC_I2CSL_MOSI         "; "SD0_CLK        "; "SD_CARD_VOLT_D";
   "SPI_S_MISO             "; "MTSIF_DATA7_ALT1 "; "I2S_DATA1_OUT    "; "USB_VBUS_PRESENT  "; "VC_SPI5_MOSI          "; "VC_I2CSL_CE_N         "; "SD0_CMD        "; "SD_CARD_PWR0_D";
   "SPI_S_MOSI_OR_BSC_S_SDA"; "VC_I2CSL_SCL_SCLK"; "ENET0_RGMII_RX_OK"; "ARM_TCK           "; "VC_SPI5_SCLK          "; "VC_PWM0_0             "; "VC_SDA4        "; "SD_CARD_PRES_D";
   "SPI_S_SCK_OR_BSC_S_SCL "; "VC_I2CSL_SDA_MISO"; "VC_SPI3_CE1_N    "; "ARM_TMS           "; "VC_PWM0_1             "; "VC_SCL4               "; "GPCLK0         "; "-             ";
   "SD_CARD_PRES_B         "; "I2S_CLK0_OUT     "; "VC_SPI3_CE0_N    "; "I2S_CLK0_IN       "; "SD0_DAT0              "; "ENET0_RGMII_MDIO      "; "GPCLK1         "; "-             ";
   "SD_CARD_WPROT_B        "; "I2S_LR0_OUT      "; "VC_SPI3_MISO     "; "I2S_LR0_IN        "; "EXT_SC_CLK            "; "SD0_DAT1              "; "ENET0_RGMII_MDC"; "GPCLK2        ";
   "SD_CARD_LED_B          "; "I2S_DATA0_OUT    "; "VC_SPI3_MOSI     "; "I2S_DATA0_IN      "; "SD0_DAT2              "; "ENET0_RGMII_IRQ       "; "VC_PWM1_0      "; "-             ";
   "SD_CARD_VOLT_B         "; "USB_PWRFLT       "; "VC_SPI3_SCLK     "; "PKT_DATA1         "; "SPDIF_OUT             "; "SD0_DAT3              "; "IR_IN          "; "VC_PWM1_1     ";
   "SD_CARD_PWR0_B         "; "UUI_TXD          "; "VC_TXD0          "; "ARM_TMS           "; "UART_TXD_2            "; "USB_PWRON             "; "VC_PCM_CLK     "; "VC_TXD4       ";
   "USB_PWRFLT             "; "UUI_RXD          "; "VC_RXD0          "; "ARM_TCK           "; "UART_RXD_2            "; "SD_CARD_VOLT_B        "; "VC_PCM_FS      "; "VC_RXD4       ";
   "USB_PWRON              "; "ENET0_LINK       "; "VC_CTS0          "; "MTSIF_ATS_RST     "; "UART_RTS_2            "; "USB_VBUS_PRESENT      "; "VC_PCM_DIN     "; "VC_SDA5       ";
   "USB_VBUS_PRESENT       "; "ENET0_ACTIVITY   "; "VC_RTS0          "; "MTSIF_ATS_INC     "; "UART_CTS_2            "; "I2S_DATA2_OUT         "; "VC_PCM_DOUT    "; "VC_SCL5       ";
   "MTSIF_ATS_RST          "; "PKT_CLK0         "; "UART_RTS_0       "; "ENET0_RGMII_RX_CLK"; "ENET0_RGMII_START_STOP"; "VC_SDA4               "; "VC_TXD3        "; "-             ";
   "MTSIF_ATS_INC          "; "PKT_SYNC0        "; "SC0_CLK          "; "UART_CTS_0        "; "ENET0_RGMII_RX_EN_CTL "; "ENET0_RGMII_RX_OK     "; "VC_SCL4        "; "VC_RXD3       ";
   "MTSIF_DATA1            "; "PKT_DATA0        "; "SC0_IO           "; "UART_TXD_0        "; "ENET0_RGMII_RXD_00    "; "VC_TXD4               "; "VC_SPI5_CE0_N  "; "-             ";
   "MTSIF_DATA2            "; "PKT_CLK1         "; "SC0_AUX1         "; "UART_RXD_0        "; "ENET0_RGMII_RXD_01    "; "VC_RXD4               "; "VC_SPI5_SCLK   "; "-             ";
   "MTSIF_CLK              "; "PKT_SYNC1        "; "SC0_AUX2         "; "ENET0_RGMII_RXD_02"; "VC_CTS                "; "VC_SPI5_MOSI          "; "-              "; "-             ";
   "MTSIF_DATA0            "; "PKT_DATA1        "; "SC0_PRES         "; "ENET0_RGMII_RXD_03"; "VC_RTS4               "; "VC_SPI5_MISO          "; "-              "; "-             ";
   "MTSIF_SYNC             "; "PKT_CLK2         "; "SC0_RST          "; "SD2_CLK           "; "ENET0_RGMII_TX_CLK    "; "GPCLK0                "; "VC_PWM0_0      "; "-             ";
   "MTSIF_DATA3            "; "PKT_SYNC2        "; "SC0_VCC          "; "SD2_CMD           "; "ENET0_RGMII_TX_EN_CTL "; "VC_SPI3_CE1_N         "; "VC_PWM0_1      "; "-             ";
   "MTSIF_DATA4            "; "PKT_DATA2        "; "SC0_VPP          "; "SD2_DAT0          "; "ENET0_RGMII_TXD_00    "; "VC_SPI3_CE0_N         "; "VC_TXD3        "; "-             ";
   "MTSIF_DATA5            "; "PKT_CLK3         "; "SD2_DAT1         "; "ENET0_RGMII_TXD_01"; "VC_SPI3_SCLK          "; "VC_RXD3               "; "-              "; "-             ";
   "MTSIF_DATA6            "; "PKT_SYNC3        "; "EXT_SC_CLK       "; "SD2_DAT2          "; "ENET0_RGMII_TXD_02    "; "VC_SPI3_MOSI          "; "VC_SDA5        "; "-             ";
   "MTSIF_DATA7            "; "PKT_DATA3        "; "SD2_DAT3         "; "ENET0_RGMII_TXD_03"; "VC_SPI3_MISO          "; "VC_SCL5               "; "-              "; "-             "]%string.

Definition gpio_bcm_d0_fsel_names : list string :=
  ["-                      "; "-                "; "-                "; "-                 "; "-                     "; "-                     "; "-              "; "-             ";
   "VC_SCL0                "; "USB_PWRFLT       "; "GPCLK0           "; "SD_CARD_LED_E     "; "VC_SPI3_CE1_N         "; "SR_EDM_SENSE          "; "VC_SPI0_CE0_N  "; "VC_TXD0       ";
   "VC_SDA0                "; "USB_PWRON        "; "GPCLK1           "; "SD_CARD_WPROT_E   "; "VC_SPI3_CE0_N         "; "CLK_OBSERVE           "; "VC_SPI0_MISO   "; "VC_RXD0       ";
   "VC_SCL3                "; "USB_VBUS_PRESENT "; "GPCLK2           "; "SD_CARD_PRES_E    "; "VC_SPI3_MISO          "; "VC_SPI0_MOSI          "; "VC_CTS0        "; "-             ";
   "VC_SDA3                "; "VC_PWM1_1        "; "VC_SPI3_CE0_N    "; "SD_CARD_VOLT_E    "; "VC_SPI3_MOSI          "; "VC_SPI0_SCLK          "; "VC_RTS0        "; "-             ";
   "-                      "; "-                "; "-                "; "-                 "; "-                     "; "-                     "; "-              "; "-             ";
   "-                      "; "-                "; "-                "; "-                 "; "-                     "; "-                     "; "-              "; "-             ";
   "-                      "; "-                "; "-                "; "-                 "; "-                     "; "-                     "; "-              "; "-             ";
   "-                      "; "-                "; "-                "; "-                 "; "-                     "; "-                     "; "-              "; "-             ";
   "-                      "; "-                "; "-                "; "-                 "; "-                     "; "-                     "; "-              "; "-             ";
   "BSC_M3_SCL             "; "VC_PWM1_0        "; "VC_SPI3_CE1_N    "; "SD_CARD_PWR0_E    "; "VC_SPI3_SCLK          "; "GPCLK0                "; "-              "; "-             ";
   "BSC_M3_SDA             "; "VC_SPI3_MISO     "; "CLK_OBSERVE      "; "SD_CARD_PRES_C    "; "GPCLK1                "; "-                     "; "-              "; "-             ";
   "SPI_S_SS0B             "; "VC_SPI3_MOSI     "; "SD_CARD_PWR0_C   "; "SD_CARD_VOLT_D    "; "-                     "; "-                     "; "-              "; "-             ";
   "SPI_S_MISO             "; "VC_SPI3_SCLK     "; "SD_CARD_PRES_C   "; "SD_CARD_PWR0_D    "; "-                     "; "-                     "; "-              "; "-             ";
   "SPI_S_MOSI_OR_BSC_S_SDA"; "UUI_TXD          "; "ARM_TCK          "; "VC_PWM0_0         "; "VC_SDA0"; "SD_CARD_PRES_D        "; "-              "; "-             ";
   "SPI_S_SCK_OR_BSC_S_SCL"; "UUI_RXD          "; "ARM_TMS          "; "VC_PWM0_1         "; "VC_SCL0"; "GPCLK0                "; "-              "; "-             ";
   "-                      "; "-                "; "-                "; "-                 "; "-                     "; "-                     "; "-              "; "-             ";
   "-                      "; "-                "; "-                "; "-                 "; "-                     "; "-                     "; "-              "; "-             ";
   "SD_CARD_PRES_F         "; "VC_PWM1_0        "; "-                "; "-                 "; "-                     "; "-                     "; "-              "; "-             ";
   "SD_CARD_PWR0_F         "; "USB_PWRFLT       "; "VC_PWM1_1        "; "-                 "; "-                     "; "-                     "; "-              "; "-             ";
   "VC_SDA3                "; "UUI_TXD          "; "VC_TXD0          "; "ARM_TMS           "; "VC_TXD2"; "-                     "; "-              "; "-             ";
   "VC_SCL3                "; "UUI_RXD          "; "VC_RXD0          "; "ARM_TCK           "; "VC_RXD2"; "-                     "; "-              "; "-             ";
   "SD_CARD_PRES_F         "; "VC_CTS0          "; "VC_SDA3          "; "-                 "; "-                     "; "-                     "; "-              "; "-             ";
   "VC_RTS0                "; "VC_SCL3          "; "-                "; "-                 "; "-                     "; "-                     "; "-              "; "-             ";
   "SD_CARD_PRES_B         "; "VC_SPI0_CE1_N    "; "ARM_TRST         "; "UART_RTS_0        "; "USB_PWRFLT            "; "VC_RTS2               "; "VC_TXD0        "; "-             ";
   "SD_CARD_WPROT_B        "; "VC_SPI0_CE0_N    "; "ARM_TCK          "; "UART_CTS_0        "; "USB_PWRON             "; "VC_CTS2               "; "VC_RXD0        "; "-             ";
   "SD_CARD_LED_B          "; "VC_SPI0_MISO     "; "ARM_TDI          "; "UART_TXD_0        "; "USB_VBUS_PRESENT      "; "VC_TXD2               "; "VC_SPI0_CE0_N  "; "-             ";
   "SD_CARD_VOLT_B         "; "VC_SPI0_MOSI     "; "ARM_TMS          "; "UART_RXD_0        "; "VC_RXD2               "; "VC_SPI0_SCLK          "; "-             "; "-             ";
   "SD_CARD_PWR0_B         "; "VC_SPI0_SCLK     "; "ARM_TDO          "; "VC_SDA0           "; "VC_SPI0_MOSI          "; "-                     "; "-              "; "-             ";
   "ARM_RTCK               "; "VC_SCL0          "; "VC_SPI0_MISO     "; "-                 "; "-                     "; "-                     "; "-              "; "-             ";
   "SD2_CLK                "; "GPCLK0           "; "VC_PWM0_0        "; "-                 "; "-                     "; "-                     "; "-              "; "-             ";
   "SD2_CMD                "; "VC_SPI3_CE1_N    "; "VC_PWM0_1        "; "-                 "; "-                     "; "-                     "; "-              "; "-             ";
   "SD2_DAT0               "; "VC_SPI3_CE0_N    "; "VC_TXD3          "; "-                 "; "-                     "; "-                     "; "-              "; "-             ";
   "SD2_DAT1               "; "VC_SPI3_SCLK     "; "VC_RXD3          "; "-                 "; "-                     "; "-                     "; "-              "; "-             ";
   "SD2_DAT2               "; "VC_SPI3_MOSI     "; "VC_SDA5          "; "-                 "; "-                     "; "-                     "; "-              "; "-             ";
   "SD2_DAT3               "; "VC_SPI3_MISO     "; "VC_SCL5          "; "-                 "; "-                     "; "-                     "; "-              "; "-             "]%string.

Definition bcm2712_gpio_fdt_names : list string :=
  ["-             "; "2712_BOOT_CS_N"; "2712_BOOT_MISO";
   "2712_BOOT_MOSI"; "2712_BOOT_SCLK"; "-             ";
   "-             "; "-             "; "-             ";
   "-             "; "-             "; "-             ";
   "-             "; "-             "; "PCIE_SDA      ";
   "PCIE_SCL      "; "-             "; "-             ";
   "-             "; "-             "; "PWR_GPIO      ";
   "2712_G21_FS   "; "-             "; "-             ";
   "BT_RTS        "; "BT_CTS        "; "BT_TXD        ";
   "BT_RXD        "; "WL_ON         "; "BT_ON         ";
   "WIFI_SDIO_CLK "; "WIFI_SDIO_CMD "; "WIFI_SDIO_D0  ";
   "WIFI_SDIO_D1  "; "WIFI_SDIO_D2  "; "WIFI_SDIO_D3  "]%string.

Definition bcm2712_d0_gpio_fdt_names : list string :=
  ["-             "; "2712_BOOT_CS_N"; "2712_BOOT_MISO";
   "2712_BOOT_MOSI"; "2712_BOOT_SCLK"; "-             ";
   "-             "; "-             "; "-             ";
   "-             "; "-             "; "-             ";
   "-             "; "-             "; "-             ";
   "-             "; "-             "; "-             ";
   "-             "; "-             "; "PWR_GPIO      ";
   "2712_G21_FS   "; "-             "; "-             ";
   "BT_RTS        "; "BT_CTS        "; "BT_TXD        ";
   "BT_RXD        "; "WL_ON         "; "BT_ON         ";
   "WIFI_SDIO_CLK "; "WIFI_SDIO_CMD "; "WIFI_SDIO_D0  ";
   "WIFI_SDIO_D1  "; "WIFI_SDIO_D2  "; "WIFI_SDIO_D3  "]%string.

Definition gpio_bcm_d0_to_c0 : list Z :=
  [GPIO_UNKNOWN; 0; 1; 2; 3; GPIO_UNKNOWN; GPIO_UNKNOWN; GPIO_UNKNOWN; GPIO_UNKNOWN; GPIO_UNKNOWN; 4; 5; 6; 7; 8; 9; GPIO_UNKNOWN; GPIO_UNKNOWN; 10; 11; 12; 13; 14; 15; 16; 17; 18; 19; 20; 21; 22; 23; 24; 25; 26; 27].

Definition bcm2712_aon_gpio_fsel_names : list string :=
  ["IR_IN           "; "VC_SPI0_CE1_N        "; "VC_TXD3          "; "VC_SDA3           "; "TE0           "; "VC_SDA0         "; "-             "; "-             ";
   "VC_PWM0_0       "; "VC_SPI0_CE0_N        "; "VC_RXD3          "; "VC_SCL3           "; "TE1           "; "AON_PWM0        "; "VC_SCL0       "; "VC_PWM1_0     ";
   "VC_PWM0_1       "; "VC_SPI0_MISO         "; "VC_CTS3          "; "CTL_HDMI_5V       "; "FL0           "; "AON_PWM1        "; "IR_IN         "; "VC_PWM1_1     ";
   "IR_IN           "; "VC_SPI0_MOSI         "; "VC_RTS3          "; "AON_FP_4SEC_RESETB"; "FL1           "; "SD_CARD_VOLT_G  "; "AON_GPCLK     "; "-             ";
   "GPCLK0          "; "VC_SPI0_SCLK         "; "VC_I2CSL_SCL_SCLK"; "AON_GPCLK         "; "PM_LED_OUT    "; "AON_PWM0        "; "SD_CARD_PWR0_G"; "VC_PWM0_0     ";
   "GPCLK1          "; "IR_IN                "; "VC_I2CSL_SDA_MISO"; "CLK_OBSERVE       "; "AON_PWM1      "; "SD_CARD_PRES_G  "; "VC_PWM0_1     "; "-             ";
   "UART_TXD_1      "; "VC_TXD4              "; "GPCLK2           "; "CTL_HDMI_5V       "; "VC_TXD0       "; "VC_SPI3_CE0_N   "; "-             "; "-             ";
   "UART_RXD_1      "; "VC_RXD4              "; "GPCLK0           "; "AON_PWM0          "; "VC_RXD0       "; "VC_SPI3_SCLK    "; "-             "; "-             ";
   "UART_RTS_1      "; "VC_RTS4              "; "VC_I2CSL_MOSI    "; "CTL_HDMI_5V       "; "VC_RTS0       "; "VC_SPI3_MOSI    "; "-             "; "-             ";
   "UART_CTS_1      "; "VC_CTS4              "; "VC_I2CSL_CE_N    "; "AON_PWM1          "; "VC_CTS0       "; "VC_SPI3_MISO    "; "-             "; "-             ";
   "TSIO_CLK_OUT    "; "CTL_HDMI_5V          "; "SC0_AUX1         "; "SPDIF_OUT         "; "VC_SPI5_CE1_N "; "USB_PWRFLT      "; "AON_GPCLK     "; "SD_CARD_VOLT_F";
   "TSIO_DATA_IN    "; "UART_RTS_0           "; "SC0_AUX2         "; "AUD_FS_CLK0       "; "VC_SPI5_CE0_N "; "USB_VBUS_PRESENT"; "VC_RTS2       "; "SD_CARD_PWR0_F";
   "TSIO_DATA_OUT   "; "UART_CTS_0           "; "VC_RTS0          "; "TSIO_VCTRL        "; "VC_SPI5_MISO  "; "USB_PWRON       "; "VC_CTS2       "; "SD_CARD_PRES_F";
   "BSC_M1_SDA      "; "UART_TXD_0           "; "VC_TXD0          "; "UUI_TXD           "; "VC_SPI5_MOSI  "; "ARM_TMS         "; "VC_TXD2       "; "VC_SDA3       ";
   "BSC_M1_SCL      "; "UART_RXD_0           "; "VC_RXD0          "; "UUI_RXD           "; "VC_SPI5_SCLK  "; "ARM_TCK         "; "VC_RXD2       "; "VC_SCL3       ";
   "IR_IN           "; "AON_FP_4SEC_RESETB   "; "VC_CTS0          "; "PM_LED_OUT        "; "CTL_HDMI_5V   "; "AON_PWM0        "; "AON_GPCLK     "; "-             ";
   "AON_CPU_STANDBYB"; "GPCLK0               "; "PM_LED_OUT       "; "CTL_HDMI_5V       "; "VC_PWM0_0     "; "USB_PWRON       "; "AUD_FS_CLK0   "; "-             ";
   "-               "; "-                    "; "-                "; "-                 "; "-             "; "-               "; "-             "; "-             ";
   "-               "; "-                    "; "-                "; "-                 "; "-             "; "-               "; "-             "; "-             ";
   "-               "; "-                    "; "-                "; "-                 "; "-             "; "-               "; "-             "; "-             ";
   "-               "; "-                    "; "-                "; "-                 "; "-             "; "-               "; "-             "; "-             ";
   "-               "; "-                    "; "-                "; "-                 "; "-             "; "-               "; "-             "; "-             ";
   "-               "; "-                    "; "-                "; "-                 "; "-             "; "-               "; "-             "; "-             ";
   "-               "; "-                    "; "-                "; "-                 "; "-             "; "-               "; "-             "; "-             ";
   "-               "; "-                    "; "-                "; "-                 "; "-             "; "-               "; "-             "; "-             ";
   "-               "; "-                    "; "-                "; "-                 "; "-             "; "-               "; "-             "; "-             ";
   "-               "; "-                    "; "-                "; "-                 "; "-             "; "-               "; "-             "; "-             ";
   "-               "; "-                    "; "-                "; "-                 "; "-             "; "-               "; "-             "; "-             ";
   "-               "; "-                    "; "-                "; "-                 "; "-             "; "-               "; "-             "; "-             ";
   "-               "; "-                    "; "-                "; "-                 "; "-             "; "-               "; "-             "; "-             ";
   "-               "; "-                    "; "-                "; "-                 "; "-             "; "-               "; "-             "; "-             ";
   "-               "; "-                    "; "-                "; "-                 "; "-             "; "-               "; "-             "; "-             ";
   "HDMI_TX0_BSC_SCL"; "HDMI_TX0_AUTO_I2C_SCL"; "BSC_M0_SCL       "; "VC_SCL0           "; "-             "; "-               "; "-             "; "-             ";
   "HDMI_TX0_BSC_SDA"; "HDMI_TX0_AUTO_I2C_SDA"; "BSC_M0_SDA       "; "VC_SDA0           "; "-             "; "-               "; "-             "; "-             ";
   "HDMI_TX1_BSC_SCL"; "HDMI_TX1_AUTO_I2C_SCL"; "BSC_M1_SCL       "; "VC_SCL4           "; "CTL_HDMI_5V   "; "-               "; "-             "; "-             ";
   "HDMI_TX1_BSC_SDA"; "HDMI_TX1_AUTO_I2C_SDA"; "BSC_M1_SDA       "; "VC_SDA4           "; "-             "; "-               "; "-             "; "-             ";
   "AVS_PMU_BSC_SCL "; "BSC_M2_SCL           "; "VC_SCL5          "; "CTL_HDMI_5V       "; "-             "; "-               "; "-             "; "-             ";
   "AVS_PMU_BSC_SDA "; "BSC_M2_SDA           "; "VC_SDA5          "; "-                 "; "-             "; "-               "; "-             "; "-             "]%string.

Definition bcm2712_d0_aon_gpio_fsel_names : list string :=
  ["IR_IN           "; "VC_SPI0_CE1_N        "; "VC_TXD0          "; "VC_SDA3           "; "UART_TXD_0    "; "VC_SDA0         "; "-             "; "-             ";
   "VC_PWM0_0       "; "VC_SPI0_CE0_N        "; "VC_RXD0          "; "VC_SCL3           "; "UART_RXD_0    "; "AON_PWM0        "; "VC_SCL0       "; "VC_PWM1_0     ";
   "VC_PWM0_1       "; "VC_SPI0_MISO         "; "VC_CTS0          "; "CTL_HDMI_5V       "; "UART_CTS_0    "; "AON_PWM1        "; "IR_IN         "; "VC_PWM1_1     ";
   "IR_IN           "; "VC_SPI0_MOSI         "; "VC_RTS0          "; "UART_RTS_0        "; "SD_CARD_VOLT_G"; "AON_GPCLK       "; "-             "; "-             ";
   "GPCLK0          "; "VC_SPI0_SCLK         "; "PM_LED_OUT       "; "AON_PWM0          "; "SD_CARD_PWR0_G"; "VC_PWM0_0       "; "-             "; "-             ";
   "GPCLK1          "; "IR_IN                "; "AON_PWM1         "; "SD_CARD_PRES_G    "; "VC_PWM0_1     "; "-               "; "-             "; "-             ";
   "UART_TXD_1      "; "VC_TXD2              "; "CTL_HDMI_5V      "; "GPCLK2            "; "VC_SPI3_CE0_N "; "-               "; "-             "; "-             ";
   "-               "; "-                    "; "-                "; "-                 "; "-             "; "-               "; "-             "; "-             ";
   "UART_RTS_1      "; "VC_RTS2              "; "CTL_HDMI_5V      "; "VC_SPI0_CE1_N     "; "VC_SPI3_SCLK  "; "-               "; "-             "; "-             ";
   "UART_CTS_1      "; "VC_CTS2              "; "VC_CTS0          "; "AON_PWM1          "; "VC_SPI0_CE0_N "; "VC_RTS2         "; "VC_SPI3_MOSI  "; "-             ";
   "-               "; "-                    "; "-                "; "-                 "; "-             "; "-               "; "-             "; "-             ";
   "-               "; "-                    "; "-                "; "-                 "; "-             "; "-               "; "-             "; "-             ";
   "UART_RXD_1      "; "VC_RXD2              "; "VC_RTS0          "; "VC_SPI0_MISO      "; "USB_PWRON     "; "VC_CTS2         "; "VC_SPI3_MISO  "; "-             ";
   "BSC_M1_SDA      "; "VC_TXD0              "; "UUI_TXD          "; "VC_SPI0_MOSI      "; "ARM_TMS       "; "VC_TXD2         "; "VC_SDA3       "; "-             ";
   "BSC_M1_SCL      "; "AON_GPCLK            "; "VC_RXD0          "; "UUI_RXD           "; "VC_SPI0_SCLK  "; "ARM_TCK         "; "VC_RXD2       "; "VC_SCL3       ";
   "-               "; "-                    "; "-                "; "-                 "; "-             "; "-               "; "-             "; "-             ";
   "-               "; "-                    "; "-                "; "-                 "; "-             "; "-               "; "-             "; "-             ";
   "-               "; "-                    "; "-                "; "-                 "; "-             "; "-               "; "-             "; "-             ";
   "-               "; "-                    "; "-                "; "-                 "; "-             "; "-               "; "-             "; "-             ";
   "-               "; "-                    "; "-                "; "-                 "; "-             "; "-               "; "-             "; "-             ";
   "-               "; "-                    "; "-                "; "-                 "; "-             "; "-               "; "-             "; "-             ";
   "-               "; "-                    "; "-                "; "-                 "; "-             "; "-               "; "-             "; "-             ";
   "-               "; "-                    "; "-                "; "-                 "; "-             "; "-               "; "-             "; "-             ";
   "-               "; "-                    "; "-                "; "-                 "; "-             "; "-               "; "-             "; "-             ";
   "-               "; "-                    "; "-                "; "-                 "; "-             "; "-               "; "-             "; "-             ";
   "-               "; "-                    "; "-                "; "-                 "; "-             "; "-               "; "-             "; "-             ";
   "-               "; "-                    "; "-                "; "-                 "; "-             "; "-               "; "-             "; "-             ";
   "-               "; "-                    "; "-                "; "-                 "; "-             "; "-               "; "-             "; "-             ";
   "-               "; "-                    "; "-                "; "-                 "; "-             "; "-               "; "-             "; "-             ";
   "-               "; "-                    "; "-                "; "-                 "; "-             "; "-               "; "-             "; "-             ";
   "-               "; "-                    "; "-                "; "-                 "; "-             "; "-               "; "-             "; "-             ";
   "-               "; "-                    "; "-                "; "-                 "; "-             "; "-               "; "-             "; "-             ";
   "HDMI_TX0_BSC_SCL"; "HDMI_TX0_AUTO_I2C_SCL"; "BSC_M0_SCL       "; "VC_SCL0           "; "-             "; "-               "; "-             "; "-             ";
   "HDMI_TX0_BSC_SDA"; "HDMI_TX0_AUTO_I2C_SDA"; "BSC_M0_SDA       "; "VC_SDA0           "; "-             "; "-               "; "-             "; "-             ";
   "HDMI_TX1_BSC_SCL"; "HDMI_TX1_AUTO_I2C_SCL"; "BSC_M1_SCL       "; "VC_SCL0           "; "CTL_HDMI_5V   "; "-               "; "-             "; "-             ";
   "HDMI_TX1_BSC_SDA"; "HDMI_TX1_AUTO_I2C_SDA"; "BSC_M1_SDA       "; "VC_SDA0           "; "-             "; "-               "; "-             "; "-             ";
   "AVS_PMU_BSC_SCL "; "BSC_M2_SCL           "; "VC_SCL3          "; "CTL_HDMI_5V       "; "-             "; "-               "; "-             "; "-             ";
   "AVS_PMU_BSC_SDA "; "BSC_M2_SDA           "; "VC_SDA3          "; "-                 "; "-             "; "-               "; "-             "; "-             "]%string.

Definition bcm2712_aon_gpio_fdt_names : list string :=
  ["RP1_SDA      "; "RP1_SCL      "; "RP1_RUN      ";
   "SD_IOVDD_SEL "; "SD_PWR_ON    "; "SD_CDET_N    ";
   "SD_FLG_N     "; "-            "; "2712_WAKE    ";
   "2712_STAT_LED"; "-            "; "-            ";
   "PMIC_INT     "; "UART_TX_FS   "; "UART_RX_FS   ";
   "-            "; "-            "; "-            ";
   "-            "; "-            "; "-            ";
   "-            "; "-            "; "-            ";
   "-            "; "-            "; "-            ";
   "-            "; "-            "; "-            ";
   "-            "; "-            "; "HDMI0_SCL    ";
   "HDMI0_SDA    "; "HDMI1_SCL    "; "HDMI1_SDA    ";
   "PMIC_SCL     "; "PMIC_SDA     "]%string.

Definition gpio_aon_bcm_d0_to_c0 : list Z :=
  [0; 1; 2; 3; 4; 5; 6; GPIO_UNKNOWN; 7; 8; GPIO_UNKNOWN; GPIO_UNKNOWN; 9; 10; 11; GPIO_UNKNOWN; GPIO_UNKNOWN; GPIO_UNKNOWN; GPIO_UNKNOWN; GPIO_UNKNOWN; GPIO_UNKNOWN; GPIO_UNKNOWN; GPIO_UNKNOWN; GPIO_UNKNOWN; GPIO_UNKNOWN; GPIO_UNKNOWN; GPIO_UNKNOWN; GPIO_UNKNOWN; GPIO_UNKNOWN; GPIO_UNKNOWN; GPIO_UNKNOWN; GPIO_UNKNOWN; 32; 33; 34; 35; 36; 37].
