(* ===== verification/GpioRp1.v ===== *)
(** * The RP1 GPIO tool (support/bcm2712/gpio-rp1/gpio.c)

    Every operation of the tool over an abstract register file: function
    select, direction, drive, pull and level of a pin, the lines it prints
    and its main.  [debug] is the constant 0, so the debug lines are left
    out.  The device is a parameter; [rp1_device] states what the tool relies
    on: the control, pad and output registers hold what is written, and the
    set and clear aliases of the output-enable registers set and clear bits. *)
From S2P Require Import Prelude Gpio GpioTables.
Open Scope Z_scope.

Definition RP1_IO_BANK0_OFFSET : Z := 0.
Definition RP1_IO_BANK1_OFFSET : Z := 16384.        (* 0x4000 *)
Definition RP1_IO_BANK2_OFFSET : Z := 32768.        (* 0x8000 *)
Definition RP1_SYS_RIO_BANK0_OFFSET : Z := 65536.   (* 0x10000 *)
Definition RP1_SYS_RIO_BANK1_OFFSET : Z := 81920.   (* 0x14000 *)
Definition RP1_SYS_RIO_BANK2_OFFSET : Z := 98304.   (* 0x18000 *)
Definition RP1_PADS_BANK0_OFFSET : Z := 131072.     (* 0x20000 *)
Definition RP1_PADS_BANK1_OFFSET : Z := 147456.     (* 0x24000 *)
Definition RP1_PADS_BANK2_OFFSET : Z := 163840.     (* 0x28000 *)

Definition NUM_ALT_FUNCS : Z := 9.
Definition RP1_FSEL_SYS_RIO : Z := 5.
Definition GPIO_MAX : Z := 54.
Definition BLOCK_SIZE : Z := 180224.                (* 0x2c000 *)

Definition RP1_SET_OFFSET : Z := 8192.
Definition RP1_CLR_OFFSET : Z := 12288.

Definition RP1_GPIO_IO_REG_CTRL_OFFSET (offset : Z) : Z := (offset * 2 + 1) * 4.
Definition RP1_GPIO_PADS_REG_OFFSET (offset : Z) : Z := 4 + offset * 4.
Definition RP1_GPIO_SYS_RIO_REG_OUT_OFFSET : Z := 0.
Definition RP1_GPIO_SYS_RIO_REG_OE_OFFSET : Z := 4.
Definition RP1_GPIO_SYS_RIO_REG_SYNC_IN_OFFSET : Z := 8.

(** Pad register bits: output disable, input enable, pull up, pull down. *)
Definition RP1_PADS_OD_SET : Z := 128.
Definition RP1_PADS_IE_SET : Z := 64.
Definition RP1_PADS_PUE_SET : Z := 8.
Definition RP1_PADS_PDE_SET : Z := 4.
Definition FUNC_SEL_MASK : Z := 31.

Definition rp1_bank_base : list Z := [0; 28; 34].
Definition gpio_io_bank_offset : list Z :=
  [RP1_IO_BANK0_OFFSET; RP1_IO_BANK1_OFFSET; RP1_IO_BANK2_OFFSET].
Definition gpio_pads_bank_offset : list Z :=
  [RP1_PADS_BANK0_OFFSET; RP1_PADS_BANK1_OFFSET; RP1_PADS_BANK2_OFFSET].
Definition gpio_sys_rio_bank_offset : list Z :=
  [RP1_SYS_RIO_BANK0_OFFSET; RP1_SYS_RIO_BANK1_OFFSET; RP1_SYS_RIO_BANK2_OFFSET].

Definition invalid_gpio_msg : string := "Invalid gpio number".
Definition nthZ (l : list Z) (i : Z) : Z := default 0 (l !! Z.to_nat i).

(** Bank and offset of a pin; an invalid pin exits the tool. *)
Definition rp1_gpio_get_bank_offset (gpio : Z) : res (Z * Z) :=
  if GPIO_MAX <=? gpio then Crash invalid_gpio_msg
  else
    let bank := if gpio <? nthZ rp1_bank_base 1 then 0
                else if gpio <? nthZ rp1_bank_base 2 then 1 else 2 in
    Ok (bank, gpio - nthZ rp1_bank_base bank).

(** Bit operations of the tool on 32-bit values. *)
Definition bit (offset : Z) : Z := u32 (Z.shiftl 1 offset).
Definition clear_bits (v m : Z) : Z := Z.land v (u32 (Z.lnot m)).

Section rp1.
Context {D : Type} `{Mmio D} (gpio_base : Z).

Definition io_reg (bank offset : Z) : Z :=
  gpio_base + nthZ gpio_io_bank_offset bank + RP1_GPIO_IO_REG_CTRL_OFFSET offset.
Definition pad_reg (bank offset : Z) : Z :=
  gpio_base + nthZ gpio_pads_bank_offset bank + RP1_GPIO_PADS_REG_OFFSET offset.
Definition rio_reg (bank reg : Z) : Z :=
  gpio_base + nthZ gpio_sys_rio_bank_offset bank + reg.

Definition set_gpio_dir (gpio dir : Z) (d : D) : res D :=
  let! (bank, offset) := rp1_gpio_get_bank_offset gpio in
  if dir =? FUNC_IP then
    Ok (out32 (rio_reg bank (RP1_GPIO_SYS_RIO_REG_OE_OFFSET + RP1_CLR_OFFSET)) (bit offset) d)
  else if dir =? FUNC_OP then
    Ok (out32 (rio_reg bank (RP1_GPIO_SYS_RIO_REG_OE_OFFSET + RP1_SET_OFFSET)) (bit offset) d)
  else Ok d.

Definition get_gpio_dir (gpio : Z) (d : D) : res Z :=
  let! (bank, offset) := rp1_gpio_get_bank_offset gpio in
  let sys_rio_oe_read := in32 (rio_reg bank RP1_GPIO_SYS_RIO_REG_OE_OFFSET) d in
  Ok (if negb (Z.land sys_rio_oe_read (bit offset) =? 0) then FUNC_OP else FUNC_IP).

Definition get_gpio_fsel (gpio : Z) (d : D) : res Z :=
  let! (bank, offset) := rp1_gpio_get_bank_offset gpio in
  let io_val := Z.land (in32 (io_reg bank offset) d) FUNC_SEL_MASK in
  if io_val =? RP1_FSEL_SYS_RIO then get_gpio_dir gpio d else Ok io_val.

(** The value for the function select field. *)
Definition fsel_of (func_sel : Z) : Z :=
  if (func_sel =? FUNC_IP) || (func_sel =? FUNC_OP) || (func_sel =? FUNC_GP) then RP1_FSEL_SYS_RIO
  else if func_sel =? FUNC_NO then FUNC_NULL
  else func_sel.

Definition pad_for (fsel pad_val : Z) : Z :=
  if fsel =? FUNC_NULL then Z.lor (clear_bits pad_val RP1_PADS_IE_SET) RP1_PADS_OD_SET
  else clear_bits (Z.lor pad_val RP1_PADS_IE_SET) RP1_PADS_OD_SET.

Definition set_gpio_fsel (gpio func_sel : Z) (d : D) : res D :=
  let! (bank, offset) := rp1_gpio_get_bank_offset gpio in
  let! d := if (func_sel =? FUNC_IP) || (func_sel =? FUNC_OP) then set_gpio_dir gpio func_sel d
            else Ok d in
  let fsel := fsel_of func_sel in
  let io_ctrl_val := in32 (io_reg bank offset) d in
  let io_ctrl_val := clear_bits io_ctrl_val FUNC_SEL_MASK in
  let io_ctrl_val := Z.lor io_ctrl_val (Z.land fsel FUNC_SEL_MASK) in
  let d := out32 (io_reg bank offset) io_ctrl_val d in
  let orig_pad_val := in32 (pad_reg bank offset) d in
  let pad_val := pad_for fsel orig_pad_val in
  if pad_val =? orig_pad_val then Ok d else Ok (out32 (pad_reg bank offset) pad_val d).

(** -1 when the pad's input is off. *)
Definition get_gpio_level (gpio : Z) (d : D) : res Z :=
  let! (bank, offset) := rp1_gpio_get_bank_offset gpio in
  let pad_val := in32 (pad_reg bank offset) d in
  if Z.land pad_val RP1_PADS_IE_SET =? 0 then Ok (-1)
  else
    let v := in32 (rio_reg bank RP1_GPIO_SYS_RIO_REG_SYNC_IN_OFFSET) d in
    Ok (if negb (Z.land v (bit offset) =? 0) then 1 else 0).

Definition set_gpio_drive (gpio drive : Z) (d : D) : res D :=
  let! (bank, offset) := rp1_gpio_get_bank_offset gpio in
  let v := in32 (rio_reg bank RP1_GPIO_SYS_RIO_REG_OUT_OFFSET) d in
  let v := if drive =? DRIVE_HIGH then Z.lor v (bit offset)
           else if drive =? DRIVE_LOW then clear_bits v (bit offset) else v in
  Ok (out32 (rio_reg bank RP1_GPIO_SYS_RIO_REG_OUT_OFFSET) v d).

Definition gpio_set_pull (gpio type : Z) (d : D) : res D :=
  if type <=? PULL_UP then
    let! (bank, offset) := rp1_gpio_get_bank_offset gpio in
    let pad_val := in32 (pad_reg bank offset) d in
    let pad_val := clear_bits pad_val (Z.lor RP1_PADS_PDE_SET RP1_PADS_PUE_SET) in
    let pad_val := if type =? PULL_UP then Z.lor pad_val RP1_PADS_PUE_SET
                   else if type =? PULL_DOWN then Z.lor pad_val RP1_PADS_PDE_SET else pad_val in
    Ok (out32 (pad_reg bank offset) pad_val d)
  else Ok d.

Definition get_gpio_pull (gpio : Z) (d : D) : res Z :=
  let! (bank, offset) := rp1_gpio_get_bank_offset gpio in
  let pad_val := in32 (pad_reg bank offset) d in
  Ok (if negb (Z.land pad_val RP1_PADS_PUE_SET =? 0) then PULL_UP
      else if negb (Z.land pad_val RP1_PADS_PDE_SET =? 0) then PULL_DOWN
      else PULL_NONE).

(** The name written to the buffer, or None for -1. *)
Definition gpio_fsel_to_namestr (gpio fsel : Z) : option string :=
  if GPIO_MAX <=? gpio then None
  else if fsel =? FUNC_GP then Some "GPIO"%string
  else if fsel =? FUNC_IP then Some "INPUT"%string
  else if fsel =? FUNC_OP then Some "OUTPUT"%string
  else if (0 <=? fsel) && (fsel <=? 8) then
    rp1_gpio_fsel_names !! Z.to_nat (gpio * NUM_ALT_FUNCS + fsel)
  else if fsel =? FUNC_NULL then Some "none"%string
  else None.

Definition gpio_pull_names : list string := ["NONE"; "DOWN"; "UP"; "?"]%string.

(** The line gpio_get prints, if it prints one. *)
Definition gpio_get (pinnum : Z) (d : D) : res (option string) :=
  let! level := get_gpio_level pinnum d in
  let! pull := get_gpio_pull pinnum d in
  let! fsel := get_gpio_fsel pinnum d in
  Ok (match gpio_fsel_to_namestr pinnum fsel with
      | None => None
      | Some funcname =>
          let head := ("GPIO " +:+ pad_left 2 (pretty pinnum) +:+ ":level=" +:+ pretty level)%string in
          let pull_name := default EmptyString (gpio_pull_names !! Z.to_nat pull) in
          Some
            (if fsel <? NUM_ALT_FUNCS then
               if pull <=? PULL_UP then
                 (head +:+ " pull=" +:+ pull_name +:+ " func=a" +:+ pretty fsel +:+ " " +:+ funcname)%string
               else (head +:+ " pull=? fsel=a" +:+ pretty fsel +:+ " " +:+ funcname)%string
             else
               if pull <=? PULL_UP then (head +:+ " pull=" +:+ pull_name +:+ " func=" +:+ funcname)%string
               else (head +:+ " pull=? func=" +:+ funcname)%string)
      end).

(** The device afterwards, and the complaint if the pin is no output. *)
Definition gpio_set (pinnum func_sel drive pull : Z) (d : D) : res (D * option string) :=
  let! d := if func_sel =? FUNC_UNSET then Ok d else set_gpio_fsel pinnum func_sel d in
  let! (d, msg) :=
    if drive =? DRIVE_UNSET then Ok (d, None)
    else
      let! f := get_gpio_fsel pinnum d in
      if f =? FUNC_OP then let! d := set_gpio_drive pinnum drive d in Ok (d, None)
      else Ok (d, Some ("Can't set pin value, not an output: " +:+ pretty pinnum)%string) in
  let! d := if pull =? PULL_UNSET then Ok d else gpio_set_pull pinnum pull d in
  Ok (d, msg).

(** One row per pin: number, name, the nine function names. *)
Definition alt_width (alt : nat) : nat :=
  match alt with 0 => 10 | 1 => 13 | 2 => 13 | 3 => 13 | 4 => 13 | 5 => 10 | 6 => 11 | 7 => 11 | _ => 9 end%nat.

Definition func_row (pin : nat) : string :=
  (pad_right 4 (pretty (Z.of_nat pin)) +:+ " " +:+ pad_left 17 (default EmptyString (rp1_gpio_fdt_names !! pin)) +:+
   foldr (fun alt s => " " +:+ pad_left (alt_width alt)
            (default EmptyString (rp1_gpio_fsel_names !! (pin * Z.to_nat NUM_ALT_FUNCS + alt)%nat)) +:+ s)
     EmptyString (seq 0 (Z.to_nat NUM_ALT_FUNCS)))%string.

Definition funcs_header : list string :=
  ["GPIO Name              ALT0       ALT1          ALT2          ALT3          ALT4          ALT5       ALT6        ALT7        ALT8     ";
   "---- ----------------- ---------- ------------- ------------- ------------- ------------- ---------- ----------- ----------- ---------"]%string.

Definition print_funcs (all_pins : bool) (pin_mask : Z) : list string :=
  funcs_header ++
  (func_row <$> List.filter (fun pin => all_pins || Z.testbit pin_mask (Z.of_nat pin))
                  (seq 0 (Z.to_nat GPIO_MAX))).

Definition bank_line (pin : Z) : list string :=
  if pin =? nthZ rp1_bank_base 0 then ["BANK0 (GPIO 0 to 27):"%string]
  else if pin =? nthZ rp1_bank_base 1 then ["BANK1 (GPIO 28 to 33):"%string]
  else if pin =? nthZ rp1_bank_base 2 then ["BANK2 (GPIO 34 to 54):"%string]
  else [].

(** The loop over the pins, from [pin] on. *)
Fixpoint pin_loop (n : nat) (pin : Z) (all_pins : bool) (pin_mask : Z) (set : option settings)
    (d : D) (out : list string) : res (D * list string) :=
  match n with
  | O => Ok (d, out)
  | S n' =>
      if negb all_pins && (Z.land pin_mask (Z.shiftl 1 pin) =? 0) then
        pin_loop n' (pin + 1) all_pins pin_mask set d out
      else
        let out := out ++ (if all_pins then bank_line pin else []) in
        match set with
        | None =>
            let! line := gpio_get pin d in
            pin_loop n' (pin + 1) all_pins pin_mask set d (out ++ option_list line)
        | Some s =>
            let! (d, line) := gpio_set pin (st_func s) (st_drive s) (st_pull s) d in
            pin_loop n' (pin + 1) all_pins pin_mask set d (out ++ option_list line)
        end
  end.

Inductive exit_code := EXIT_SUCCESS | EXIT_FAILURE.

(** [mapped] tells whether mmap_device_memory succeeds. *)
Definition main (mapped : bool) (args : list string) (d : D) : res (D * list string * exit_code) :=
  let! cmd := parse_args (read_pin_sscanf GPIO_MAX) args in
  let run all mask set :=
    if mapped : bool then
      let! (d, out) := pin_loop (Z.to_nat GPIO_MAX) 0 all mask set d [] in Ok (d, out, EXIT_SUCCESS)
    else Ok (d, [], EXIT_FAILURE) in
  match cmd with
  | CmdError => Ok (d, [], EXIT_FAILURE)
  | CmdFuncs all mask => Ok (d, print_funcs all mask, EXIT_SUCCESS)
  | CmdGet all mask => run all mask None
  | CmdSet all mask s => run all mask (Some s)
  end.
End rp1.

(** ** Bit algebra *)
Lemma clear_bits_ldiff v m :
  0 <= v < 4294967296 -> 0 <= m < 4294967296 -> clear_bits v m = Z.ldiff v m.
Proof.
  intros Hv Hm. unfold clear_bits. apply Z.bits_inj'. intros i Hi.
  rewrite Z.land_spec, Z.ldiff_spec, testbit_u32, Z.lnot_spec by lia.
  destruct (i <? 32) eqn:E; zbool; [done|]. by rewrite (testbit_range_u32 v i).
Qed.

Lemma testbit_lor_in v m i : 0 <= i -> Z.testbit m i = true -> Z.testbit (Z.lor v m) i = true.
Proof. intros Hi Hm. by rewrite Z.lor_spec, Hm, orb_true_r. Qed.
Lemma testbit_lor_out v m i : 0 <= i -> Z.testbit m i = false -> Z.testbit (Z.lor v m) i = Z.testbit v i.
Proof. intros Hi Hm. by rewrite Z.lor_spec, Hm, orb_false_r. Qed.
Lemma testbit_ldiff_in v m i : 0 <= i -> Z.testbit m i = true -> Z.testbit (Z.ldiff v m) i = false.
Proof. intros Hi Hm. by rewrite Z.ldiff_spec, Hm, andb_false_r. Qed.
Lemma testbit_ldiff_out v m i : 0 <= i -> Z.testbit m i = false -> Z.testbit (Z.ldiff v m) i = Z.testbit v i.
Proof. intros Hi Hm. by rewrite Z.ldiff_spec, Hm, andb_true_r. Qed.

Lemma bit_pow2 o : 0 <= o < 32 -> bit o = 2 ^ o.
Proof.
  intros Ho. unfold bit. rewrite Z.shiftl_1_l. apply u32_id. split; [lia|].
  apply (Z.pow_lt_mono_r 2 o 32); lia.
Qed.

Lemma bit_range o : 0 <= bit o < 4294967296.
Proof. apply u32_range. Qed.

Lemma lor_range a b : 0 <= a < 4294967296 -> 0 <= b < 4294967296 -> 0 <= Z.lor a b < 4294967296.
Proof.
  intros Ha Hb. split; [apply Z.lor_nonneg; lia|].
  destruct (decide (Z.lor a b = 0)) as [->|?]; [lia|].
  change 4294967296 with (2 ^ 32). apply Z.log2_lt_pow2; [pose proof (proj2 (Z.lor_nonneg a b)); lia|].
  rewrite Z.log2_lor by lia. apply Z.max_lub_lt;
    [destruct (decide (a = 0)) as [->|?]|destruct (decide (b = 0)) as [->|?]]; try (simpl; lia);
    apply Z.log2_lt_pow2; lia.
Qed.

Lemma ldiff_range a b : 0 <= a < 4294967296 -> 0 <= b -> 0 <= Z.ldiff a b < 4294967296.
Proof.
  intros Ha Hb. split; [apply Z.ldiff_nonneg; lia|].
  rewrite <- (u32_id a Ha). unfold u32. change 4294967296 with (2 ^ 32).
  rewrite <- Z.land_ones by lia.
  assert (Z.ldiff (Z.land a (Z.ones 32)) b = Z.land (Z.ldiff a b) (Z.ones 32)) as -> by bits.
  rewrite Z.land_ones by lia. by apply Z.mod_pos_bound.
Qed.

(** ** The tool's contract: what a pin is and what each option does to it *)

(** The state of one pin: function field, output enable, output value, pull
    up, pull down, input enable, output disable. *)
Record pin_state := PinState {
  p_sel : Z; p_oe : bool; p_out : bool; p_up : bool; p_dn : bool; p_ie : bool; p_od : bool
}.

Definition spec_dir (dir : Z) (s : pin_state) : pin_state :=
  let oe := if dir =? FUNC_IP then false else if dir =? FUNC_OP then true else p_oe s in
  PinState (p_sel s) oe (p_out s) (p_up s) (p_dn s) (p_ie s) (p_od s).

(** What the function field selects: input, output and gpio are the processor's
    own output (5), no function is the null function (31), an alternate
    function is its number, of which the field has five bits.  The null
    function turns the pad off, any other function turns it on. *)
Definition spec_sel (func : Z) : Z :=
  if bool_decide (func ∈ [FUNC_IP; FUNC_OP; FUNC_GP]) then 5
  else if bool_decide (func ∈ [FUNC_NO; FUNC_NULL]) then 31 else func mod 32.
Definition spec_fsel (func : Z) (s : pin_state) : pin_state :=
  let s := spec_dir func s in
  let off := bool_decide (func ∈ [FUNC_NO; FUNC_NULL]) in
  PinState (spec_sel func) (p_oe s) (p_out s) (p_up s) (p_dn s) (negb off) off.
Lemma fsel_selects func : spec_sel func = Z.land (fsel_of func) 31 /\
  bool_decide (func ∈ [FUNC_NO; FUNC_NULL]) = (fsel_of func =? FUNC_NULL).
Proof.
  unfold spec_sel, fsel_of. change 31 with (Z.ones 5) at 2. rewrite Z.land_ones by lia.
  destruct (Z.eqb_spec func FUNC_IP) as [->|]; [done|]. destruct (Z.eqb_spec func FUNC_OP) as [->|]; [done|].
  destruct (Z.eqb_spec func FUNC_GP) as [->|]; [done|]. destruct (Z.eqb_spec func FUNC_NO) as [->|]; [done|]. cbn [orb].
  rewrite bool_decide_eq_false_2 by set_solver. destruct (Z.eqb_spec func FUNC_NULL) as [->|]; [done|].
  by rewrite bool_decide_eq_false_2 by set_solver.
Qed.

Definition spec_drive (drive : Z) (s : pin_state) : pin_state :=
  let out := if drive =? DRIVE_HIGH then true else if drive =? DRIVE_LOW then false else p_out s in
  PinState (p_sel s) (p_oe s) out (p_up s) (p_dn s) (p_ie s) (p_od s).

Definition spec_pull (pull : Z) (s : pin_state) : pin_state :=
  PinState (p_sel s) (p_oe s) (p_out s) (pull =? PULL_UP) (pull =? PULL_DOWN) (p_ie s) (p_od s).

(** What get reports. *)
Definition fsel_shown (s : pin_state) : Z :=
  if p_sel s =? RP1_FSEL_SYS_RIO then if p_oe s then FUNC_OP else FUNC_IP else p_sel s.
Definition pull_shown (s : pin_state) : Z :=
  if p_up s then PULL_UP else if p_dn s then PULL_DOWN else PULL_NONE.

Definition spec_set (func drive pull : Z) (s : pin_state) : pin_state :=
  let s := if func =? FUNC_UNSET then s else spec_fsel func s in
  let s := if (drive =? DRIVE_UNSET) || negb (fsel_shown s =? FUNC_OP) then s
           else spec_drive drive s in
  if pull =? PULL_UNSET then s else spec_pull pull s.

(** A drive value is refused when the pin is not an output. *)
Definition drive_refused (func drive : Z) (s : pin_state) : bool :=
  let s := if func =? FUNC_UNSET then s else spec_fsel func s in
  negb (drive =? DRIVE_UNSET) && negb (fsel_shown s =? FUNC_OP).

Section rp1_spec.
Context {D : Type} `{Mmio D} (gpio_base : Z).

Abbreviation io_reg := (io_reg gpio_base).
Abbreviation pad_reg := (pad_reg gpio_base).
Abbreviation rio_reg := (rio_reg gpio_base).
Definition oe_reg (bank : Z) : Z := rio_reg bank RP1_GPIO_SYS_RIO_REG_OE_OFFSET.
Definition out_reg (bank : Z) : Z := rio_reg bank RP1_GPIO_SYS_RIO_REG_OUT_OFFSET.

Definition valid_loc (b o : Z) : Prop := 0 <= b <= 2 /\ 0 <= o < 28.

Definition plain_reg (a : Z) : Prop :=
  exists b o, valid_loc b o /\ (a = io_reg b o \/ a = pad_reg b o \/ a = out_reg b).

(** The set and clear aliases of the output-enable registers. *)
Definition alias_reg (b r : Z) : Z := rio_reg b (RP1_GPIO_SYS_RIO_REG_OE_OFFSET + r).

(** What the tool relies on in the device. *)
Record rp1_device : Prop := {
  dev_plain : plain_registers plain_reg;
  dev_oe_range b d : 0 <= b <= 2 -> 0 <= in32 (oe_reg b) d < 4294967296;
  dev_oe_plain a b v d : plain_reg a -> 0 <= b <= 2 ->
    in32 (oe_reg b) (out32 a v d) = in32 (oe_reg b) d;
  dev_oe_set b v d : 0 <= b <= 2 -> 0 <= v < 4294967296 ->
    in32 (oe_reg b) (out32 (alias_reg b RP1_SET_OFFSET) v d) = Z.lor (in32 (oe_reg b) d) v;
  dev_oe_clr b v d : 0 <= b <= 2 -> 0 <= v < 4294967296 ->
    in32 (oe_reg b) (out32 (alias_reg b RP1_CLR_OFFSET) v d) = Z.ldiff (in32 (oe_reg b) d) v;
  dev_alias a b r v d : 0 <= b <= 2 -> r = RP1_SET_OFFSET \/ r = RP1_CLR_OFFSET ->
    plain_reg a \/ (exists b', 0 <= b' <= 2 /\ b' <> b /\ a = oe_reg b') ->
    in32 a (out32 (alias_reg b r) v d) = in32 a d
}.

Definition view (b o : Z) (d : D) : pin_state :=
  let pad := in32 (pad_reg b o) d in
  PinState (Z.land (in32 (io_reg b o) d) 31) (Z.testbit (in32 (oe_reg b) d) o)
    (Z.testbit (in32 (out_reg b) d) o) (Z.testbit pad 3) (Z.testbit pad 2) (Z.testbit pad 6)
    (Z.testbit pad 7).

Hypothesis dev : rp1_device.

Lemma plain_io b o : valid_loc b o -> plain_reg (io_reg b o).
Proof. intros. exists b, o. auto. Qed.
Lemma plain_pad b o : valid_loc b o -> plain_reg (pad_reg b o).
Proof. intros. exists b, o. auto. Qed.
Lemma plain_out b o : valid_loc b o -> plain_reg (out_reg b).
Proof. intros. exists b, o. auto. Qed.

Lemma bank_cases b : 0 <= b <= 2 -> b = 0 \/ b = 1 \/ b = 2.
Proof. lia. Qed.

(** Registers of different kinds, or of different pins, are different. *)
Ltac addresses :=
  repeat match goal with
  | V : valid_loc _ _ |- _ => destruct V
  | B : 0 <= ?b <= 2 |- _ => apply bank_cases in B; destruct B as [?|[?|?]]; subst b
  end;
  unfold oe_reg, out_reg, GpioRp1.io_reg, GpioRp1.pad_reg, GpioRp1.rio_reg,
    RP1_GPIO_IO_REG_CTRL_OFFSET, RP1_GPIO_PADS_REG_OFFSET, RP1_GPIO_SYS_RIO_REG_OUT_OFFSET,
    RP1_GPIO_SYS_RIO_REG_OE_OFFSET, nthZ; simpl;
  unfold RP1_IO_BANK0_OFFSET, RP1_IO_BANK1_OFFSET, RP1_IO_BANK2_OFFSET, RP1_SYS_RIO_BANK0_OFFSET,
    RP1_SYS_RIO_BANK1_OFFSET, RP1_SYS_RIO_BANK2_OFFSET, RP1_PADS_BANK0_OFFSET,
    RP1_PADS_BANK1_OFFSET, RP1_PADS_BANK2_OFFSET in *; try lia.

Lemma io_pad b o b' o' : valid_loc b o -> valid_loc b' o' -> io_reg b o <> pad_reg b' o'.
Proof. intros. addresses. Qed.
Lemma io_out b o b' : valid_loc b o -> 0 <= b' <= 2 -> io_reg b o <> out_reg b'.
Proof. intros. addresses. Qed.
Lemma pad_out b o b' : valid_loc b o -> 0 <= b' <= 2 -> pad_reg b o <> out_reg b'.
Proof. intros. addresses. Qed.
Lemma io_inj b o b' o' : valid_loc b o -> valid_loc b' o' -> (b, o) <> (b', o') ->
  io_reg b o <> io_reg b' o'.
Proof. intros V V' N E. apply N. revert E. addresses; intros; f_equal; lia. Qed.
Lemma pad_inj b o b' o' : valid_loc b o -> valid_loc b' o' -> (b, o) <> (b', o') ->
  pad_reg b o <> pad_reg b' o'.
Proof. intros V V' N E. apply N. revert E. addresses; intros; f_equal; lia. Qed.
Lemma out_inj b b' : 0 <= b <= 2 -> 0 <= b' <= 2 -> b <> b' -> out_reg b <> out_reg b'.
Proof. intros. addresses. Qed.

(** ** The effect of one register write on every pin *)
Lemma view_write_io b o v d b' o' :
  valid_loc b o -> valid_loc b' o' -> 0 <= v < 4294967296 ->
  view b' o' (out32 (io_reg b o) v d) =
  let s := view b' o' d in
  if decide ((b', o') = (b, o)) then
    PinState (Z.land v 31) (p_oe s) (p_out s) (p_up s) (p_dn s) (p_ie s) (p_od s)
  else s.
Proof.
  intros V V' Hv. assert (Vb := proj1 V). assert (Vb' := proj1 V'). pose proof (dev_plain dev) as P.
  unfold view. rewrite (dev_oe_plain dev) by auto using plain_io.
  rewrite (plain_other _ P (io_reg b o) (out_reg b')) by eauto using plain_io, plain_out, io_out.
  rewrite (plain_other _ P (io_reg b o) (pad_reg b' o')) by auto using plain_io, plain_pad, io_pad.
  destruct (decide _) as [[= -> ->]|N].
  - rewrite (plain_same _ P) by auto using plain_io. done.
  - rewrite (plain_other _ P (io_reg b o) (io_reg b' o')); auto using plain_io.
    apply io_inj; auto.
Qed.

Lemma view_write_pad b o v d b' o' :
  valid_loc b o -> valid_loc b' o' -> 0 <= v < 4294967296 ->
  view b' o' (out32 (pad_reg b o) v d) =
  let s := view b' o' d in
  if decide ((b', o') = (b, o)) then
    PinState (p_sel s) (p_oe s) (p_out s) (Z.testbit v 3) (Z.testbit v 2) (Z.testbit v 6)
      (Z.testbit v 7)
  else s.
Proof.
  intros V V' Hv. assert (Vb := proj1 V). assert (Vb' := proj1 V'). pose proof (dev_plain dev) as P.
  unfold view. rewrite (dev_oe_plain dev) by auto using plain_pad.
  rewrite (plain_other _ P (pad_reg b o) (out_reg b')) by eauto using plain_pad, plain_out, pad_out.
  rewrite (plain_other _ P (pad_reg b o) (io_reg b' o'))
    by (auto using plain_pad, plain_io; intros E; symmetry in E; revert E; by apply io_pad).
  destruct (decide _) as [[= -> ->]|N].
  - rewrite (plain_same _ P) by auto using plain_pad. done.
  - rewrite (plain_other _ P (pad_reg b o) (pad_reg b' o')); auto using plain_pad.
    apply pad_inj; auto.
Qed.

(** The value written differs from the old one in the bit of one pin. *)
Definition flips_only (o : Z) (old new : Z) : Prop :=
  forall i, 0 <= i -> i <> o -> Z.testbit new i = Z.testbit old i.

Lemma view_write_out b o v d b' o' :
  valid_loc b o -> valid_loc b' o' -> 0 <= v < 4294967296 ->
  flips_only o (in32 (out_reg b) d) v ->
  view b' o' (out32 (out_reg b) v d) =
  let s := view b' o' d in
  if decide ((b', o') = (b, o)) then
    PinState (p_sel s) (p_oe s) (Z.testbit v o) (p_up s) (p_dn s) (p_ie s) (p_od s)
  else s.
Proof.
  intros V V' Hv HF. assert (Vb := proj1 V). assert (Vb' := proj1 V').
  pose proof (dev_plain dev) as P. assert (Po := plain_out _ _ V). assert (Po' := plain_out _ _ V').
  unfold view. rewrite (dev_oe_plain dev) by auto.
  rewrite (plain_other _ P (out_reg b) (pad_reg b' o'))
    by (auto using plain_pad; intros E; symmetry in E; revert E; by apply pad_out).
  rewrite (plain_other _ P (out_reg b) (io_reg b' o'))
    by (auto using plain_io; intros E; symmetry in E; revert E; by apply io_out).
  destruct (decide (b' = b)) as [->|Hb].
  - rewrite (plain_same _ P) by auto. destruct (decide _) as [[= ->]|N]; [done|].
    simpl. f_equal. apply HF; [destruct V'; lia|congruence].
  - rewrite (plain_other _ P (out_reg b) (out_reg b')) by (auto; apply out_inj; auto).
    rewrite decide_False by congruence. done.
Qed.

Lemma view_write_oe b o r d b' o' :
  valid_loc b o -> valid_loc b' o' -> r = RP1_SET_OFFSET \/ r = RP1_CLR_OFFSET ->
  view b' o' (out32 (alias_reg b r) (bit o) d) =
  let s := view b' o' d in
  if decide ((b', o') = (b, o)) then
    PinState (p_sel s) (r =? RP1_SET_OFFSET) (p_out s) (p_up s) (p_dn s) (p_ie s) (p_od s)
  else s.
Proof.
  intros V V' Hr. assert (Vb := proj1 V). assert (Vb' := proj1 V'). destruct V as [_ Ho].
  unfold view. rewrite (dev_alias dev (io_reg b' o') b r) by auto using plain_io.
  rewrite (dev_alias dev (pad_reg b' o') b r) by auto using plain_pad.
  rewrite (dev_alias dev (out_reg b') b r) by eauto using plain_out.
  destruct (decide (b' = b)) as [->|Hb].
  - assert (HB : Z.testbit (in32 (oe_reg b) (out32 (alias_reg b r) (bit o) d)) o' =
      if decide (o' = o) then r =? RP1_SET_OFFSET else Z.testbit (in32 (oe_reg b) d) o').
    { rewrite bit_pow2 by lia. assert (Hp : 0 <= 2 ^ o < 4294967296)
        by (rewrite <- bit_pow2 by lia; apply bit_range). destruct V' as [_ Ho'].
      destruct Hr as [->| ->]; [rewrite (dev_oe_set dev) by done|rewrite (dev_oe_clr dev) by done];
        destruct (decide (o' = o)) as [->|N].
      - rewrite testbit_lor_in; [done|lia|]. rewrite Z.pow2_bits_true by lia. done.
      - rewrite testbit_lor_out; [done|lia|]. apply Z.pow2_bits_false. lia.
      - rewrite testbit_ldiff_in; [done|lia|]. rewrite Z.pow2_bits_true by lia. done.
      - rewrite testbit_ldiff_out; [done|lia|]. apply Z.pow2_bits_false. lia. }
    rewrite HB. destruct (decide (o' = o)) as [->|N].
    + rewrite decide_True by done. done.
    + by rewrite decide_False by congruence.
  - rewrite (dev_alias dev (oe_reg b') b r); auto; [|right; exists b'; auto].
    rewrite decide_False by congruence. done.
Qed.

(** [d'] is [d] with one pin changed by [f]. *)
Definition acts (b o : Z) (d d' : D) (f : pin_state -> pin_state) : Prop :=
  forall b' o', valid_loc b' o' ->
    view b' o' d' = if decide ((b', o') = (b, o)) then f (view b' o' d) else view b' o' d.

Lemma acts_id b o d : acts b o d d (fun s => s).
Proof. intros b' o' V. by destruct (decide _). Qed.

Lemma acts_trans b o d1 d2 d3 f g :
  acts b o d1 d2 f -> acts b o d2 d3 g -> acts b o d1 d3 (fun s => g (f s)).
Proof.
  intros A B b' o' V. rewrite B, A by done. destruct (decide ((b', o') = (b, o))) as [E|]; done.
Qed.

Lemma acts_ext b o d d' f g :
  valid_loc b o -> acts b o d d' f -> f (view b o d) = g (view b o d) -> acts b o d d' g.
Proof.
  intros V A E b' o' V'. rewrite A by done. destruct (decide _) as [[= -> ->]|]; [|done]. done.
Qed.

(** ** The operations *)
Section pin.
Context (gpio b o : Z).
Hypothesis loc : rp1_gpio_get_bank_offset gpio = Ok (b, o).
Hypothesis valid : valid_loc b o.

Let pad_range d : 0 <= in32 (pad_reg b o) d < 4294967296.
Proof. apply (plain_range _ (dev_plain dev)), plain_pad, valid. Qed.
Let io_range d : 0 <= in32 (io_reg b o) d < 4294967296.
Proof. apply (plain_range _ (dev_plain dev)), plain_io, valid. Qed.
Let out_range d : 0 <= in32 (out_reg b) d < 4294967296.
Proof. apply (plain_range _ (dev_plain dev)), (plain_out b o), valid. Qed.

Lemma rp1_get_dir_view d :
  get_gpio_dir gpio_base gpio d = Ok (if p_oe (view b o d) then FUNC_OP else FUNC_IP).
Proof.
  unfold get_gpio_dir. rewrite loc. simpl. destruct valid as [_ Ho].
  rewrite bit_pow2, land_pow2_test by lia. done.
Qed.

Lemma rp1_get_fsel_view d : get_gpio_fsel gpio_base gpio d = Ok (fsel_shown (view b o d)).
Proof.
  unfold get_gpio_fsel, fsel_shown. rewrite loc. simpl.
  destruct (_ =? RP1_FSEL_SYS_RIO); [apply rp1_get_dir_view|done].
Qed.

Lemma rp1_get_pull_view d : get_gpio_pull gpio_base gpio d = Ok (pull_shown (view b o d)).
Proof.
  unfold get_gpio_pull, pull_shown. rewrite loc. simpl.
  change RP1_PADS_PUE_SET with (2 ^ 3). change RP1_PADS_PDE_SET with (2 ^ 2).
  rewrite !land_pow2_test by lia. done.
Qed.

Lemma rp1_set_dir_acts dir d :
  exists d', set_gpio_dir gpio_base gpio dir d = Ok d' /\ acts b o d d' (spec_dir dir).
Proof.
  unfold set_gpio_dir, spec_dir. rewrite loc. simpl.
  destruct (dir =? FUNC_IP) eqn:E1; zbool.
  { eexists; split; [done|]. intros b' o' V'.
    by apply (view_write_oe b o RP1_CLR_OFFSET d b' o' valid V' (or_intror eq_refl)). }
  destruct (dir =? FUNC_OP) eqn:E2; zbool.
  { eexists; split; [done|]. intros b' o' V'.
    by apply (view_write_oe b o RP1_SET_OFFSET d b' o' valid V' (or_introl eq_refl)). }
  eexists; split; [done|]. eapply acts_ext; [done|apply acts_id|]. by destruct (view b o d).
Qed.

Lemma pad_for_spec fsel v :
  0 <= v < 4294967296 ->
  let off := fsel =? FUNC_NULL in
  0 <= pad_for fsel v < 4294967296 /\
  Z.testbit (pad_for fsel v) 3 = Z.testbit v 3 /\ Z.testbit (pad_for fsel v) 2 = Z.testbit v 2 /\
  Z.testbit (pad_for fsel v) 6 = negb off /\ Z.testbit (pad_for fsel v) 7 = off.
Proof.
  intros Hv off. unfold pad_for. fold off. unfold RP1_PADS_IE_SET, RP1_PADS_OD_SET.
  destruct off; cbn [negb]; rewrite clear_bits_ldiff by (try apply lor_range; lia).
  - split; [apply lor_range; [apply ldiff_range; lia|lia]|].
    rewrite !Z.lor_spec, !Z.ldiff_spec. simpl (Z.testbit 64 _). simpl (Z.testbit 128 _).
    rewrite !orb_false_r, !andb_true_r, !andb_false_r, orb_true_r. done.
  - split; [apply ldiff_range; [apply lor_range; lia|lia]|].
    rewrite !Z.ldiff_spec, !Z.lor_spec. simpl (Z.testbit 64 _). simpl (Z.testbit 128 _).
    rewrite !orb_false_r, !andb_true_r, !andb_false_r, orb_true_r. done.
Qed.

Lemma rp1_set_fsel_acts func d : 0 <= func < 4294967296 ->
  exists d', set_gpio_fsel gpio_base gpio func d = Ok d' /\ acts b o d d' (spec_fsel func).
Proof.
  intros Hf. unfold spec_fsel. destruct (fsel_selects func) as [-> ->]. unfold set_gpio_fsel. rewrite loc. cbn [res_bind].
  assert (Dir : exists d1, (if (func =? FUNC_IP) || (func =? FUNC_OP)
    then set_gpio_dir gpio_base gpio func d else Ok d) = Ok d1 /\ acts b o d d1 (spec_dir func)).
  { destruct ((func =? FUNC_IP) || (func =? FUNC_OP)) eqn:E; [apply rp1_set_dir_acts|]. zbool.
    eexists; split; [done|]. eapply acts_ext; [done|apply acts_id|].
    unfold spec_dir. rewrite !(proj2 (Z.eqb_neq _ _)) by done. by destruct (view b o d). }
  destruct Dir as (d1 & -> & A1). cbn [res_bind].
  set (io := Z.lor _ _). set (d2 := out32 (io_reg b o) io d1).
  assert (Hfs : 0 <= fsel_of func).
  { unfold fsel_of. repeat zcase; unfold RP1_FSEL_SYS_RIO, FUNC_NULL; lia. }
  assert (Hio : 0 <= io < 4294967296 /\ Z.land io 31 = Z.land (fsel_of func) 31).
  { unfold io, FUNC_SEL_MASK. rewrite clear_bits_ldiff by (auto; lia). split.
    - apply lor_range; [apply ldiff_range; [auto|lia]|].
      change 31 with (Z.ones 5). rewrite Z.land_ones by lia.
      pose proof (Z.mod_pos_bound (fsel_of func) (2 ^ 5)). lia.
    - bits. }
  destruct Hio as [Hio Eio].
  assert (A2 : acts b o d d2 (fun s => PinState (Z.land (fsel_of func) 31) (p_oe (spec_dir func s))
    (p_out (spec_dir func s)) (p_up (spec_dir func s)) (p_dn (spec_dir func s))
    (p_ie (spec_dir func s)) (p_od (spec_dir func s)))).
  { rewrite <- Eio. apply (acts_trans b o d d1 d2 (spec_dir func) (fun s =>
      PinState (Z.land io 31) (p_oe s) (p_out s) (p_up s) (p_dn s) (p_ie s) (p_od s))); [done|].
    intros b' o' V'. by apply (view_write_io b o io d1 b' o' valid V' Hio). }
  destruct (pad_for_spec (fsel_of func) (in32 (pad_reg b o) d2) (pad_range d2))
    as (Hp & P3 & P2 & P6 & P7).
  destruct (_ =? in32 (pad_reg b o) d2) eqn:EP; zbool.
  - exists d2. split; [done|]. eapply acts_ext; [done|exact A2|].
    specialize (A2 b o valid). rewrite decide_True in A2 by done.
    assert (I6 : p_ie (view b o d2) = negb (fsel_of func =? FUNC_NULL))
      by (rewrite <- P6, EP; done).
    assert (I7 : p_od (view b o d2) = (fsel_of func =? FUNC_NULL)) by (rewrite <- P7, EP; done).
    rewrite A2 in I6, I7. cbn [p_ie p_od] in I6, I7. by rewrite <- I6, <- I7.
  - exists (out32 (pad_reg b o) (pad_for (fsel_of func) (in32 (pad_reg b o) d2)) d2).
    split; [done|].
    refine (acts_trans b o d d2 _ _ (fun s => PinState (p_sel s) (p_oe s) (p_out s) (p_up s)
      (p_dn s) (negb (fsel_of func =? FUNC_NULL)) (fsel_of func =? FUNC_NULL)) A2 _).
    intros b' o' V'. rewrite (view_write_pad b o _ d2 b' o' valid V' Hp). cbv zeta.
    destruct (decide _) as [[= -> ->]|]; [|done]. by rewrite P3, P2, P6, P7.
Qed.

Lemma rp1_set_drive_acts drive d :
  exists d', set_gpio_drive gpio_base gpio drive d = Ok d' /\ acts b o d d' (spec_drive drive).
Proof.
  unfold set_gpio_drive. rewrite loc. cbn [res_bind]. destruct valid as [Hb Ho].
  change (rio_reg b RP1_GPIO_SYS_RIO_REG_OUT_OFFSET) with (out_reg b). cbv zeta.
  set (v := if drive =? DRIVE_HIGH then _ else _).
  assert (Hv : 0 <= v < 4294967296 /\ flips_only o (in32 (out_reg b) d) v /\
    Z.testbit v o = p_out (spec_drive drive (view b o d))).
  { unfold v, spec_drive, flips_only; cbn [p_out view]. rewrite bit_pow2 by lia.
    assert (0 <= 2 ^ o < 4294967296) by (rewrite <- bit_pow2 by lia; apply bit_range).
    destruct (drive =? DRIVE_HIGH); [|destruct (drive =? DRIVE_LOW)].
    - split; [by apply lor_range|]. split.
      + intros i Hi Hne. apply testbit_lor_out; [done|]. apply Z.pow2_bits_false. lia.
      + apply testbit_lor_in; [lia|]. apply Z.pow2_bits_true. lia.
    - rewrite clear_bits_ldiff by auto. split; [apply ldiff_range; [auto|lia]|]. split.
      + intros i Hi Hne. apply testbit_ldiff_out; [done|]. apply Z.pow2_bits_false. lia.
      + apply testbit_ldiff_in; [lia|]. apply Z.pow2_bits_true. lia.
    - auto. }
  destruct Hv as (Hv & HF & HT). eexists; split; [done|]. intros b' o' V'.
  rewrite (view_write_out b o v d b' o' valid V' Hv HF). cbv zeta.
  destruct (decide _) as [[= -> ->]|]; [|done]. by rewrite HT.
Qed.

Lemma rp1_set_pull_acts pull d : 0 <= pull <= 2 ->
  exists d', gpio_set_pull gpio_base gpio pull d = Ok d' /\ acts b o d d' (spec_pull pull).
Proof.
  intros Hp. unfold gpio_set_pull, PULL_UP at 1. rewrite (proj2 (Z.leb_le pull 2)) by lia.
  rewrite loc. cbn [res_bind]. unfold RP1_PADS_PDE_SET, RP1_PADS_PUE_SET.
  change (Z.lor 4 8) with 12. rewrite clear_bits_ldiff by (auto; lia).
  set (p0 := in32 (pad_reg b o) d). assert (R0 := pad_range d). fold p0 in R0.
  set (v := if pull =? PULL_UP then _ else _).
  assert (Hv : 0 <= v < 4294967296 /\ Z.testbit v 3 = (pull =? PULL_UP) /\
    Z.testbit v 2 = (pull =? PULL_DOWN) /\ Z.testbit v 6 = Z.testbit p0 6 /\
    Z.testbit v 7 = Z.testbit p0 7).
  { unfold v. assert (0 <= Z.ldiff p0 12 < 4294967296) by (apply ldiff_range; lia).
    assert (pull = 0 \/ pull = 1 \/ pull = 2) as [->|[->| ->]] by lia; simpl (_ =? _); cbn iota;
      (split; [try apply lor_range; lia|]);
      rewrite ?Z.lor_spec, !Z.ldiff_spec; simpl (Z.testbit 12 _); simpl (Z.testbit 8 _);
      simpl (Z.testbit 4 _); rewrite ?andb_true_r, ?andb_false_r, ?orb_false_r; done. }
  destruct Hv as (Hv & H3 & H2 & H6 & H7). eexists; split; [done|]. intros b' o' V'.
  rewrite (view_write_pad b o v d b' o' valid V' Hv). cbv zeta.
  destruct (decide _) as [[= -> ->]|]; [|done]. by rewrite H3, H2, H6, H7.
Qed.
End pin.

(** ** Pins *)
Definition pin_view (gpio : Z) (d : D) : pin_state :=
  match rp1_gpio_get_bank_offset gpio with
  | Ok (b, o) => view b o d
  | Crash _ => PinState 0 false false false false false false
  end.

Lemma bank_offset_spec gpio : 0 <= gpio < 54 ->
  exists b o, rp1_gpio_get_bank_offset gpio = Ok (b, o) /\ valid_loc b o.
Proof.
  intros Hg. unfold rp1_gpio_get_bank_offset, GPIO_MAX. rewrite (proj2 (Z.leb_gt 54 gpio)) by lia.
  unfold nthZ; simpl. destruct (gpio <? 28) eqn:E1; zbool.
  { eexists _, _; split; [done|]. split; simpl; lia. }
  destruct (gpio <? 34) eqn:E2; zbool; eexists _, _; (split; [done|]); split; simpl; lia.
Qed.

Lemma bank_offset_inj g h p :
  0 <= g < 54 -> 0 <= h < 54 -> rp1_gpio_get_bank_offset g = Ok p ->
  rp1_gpio_get_bank_offset h = Ok p -> g = h.
Proof.
  intros Hg Hh. unfold rp1_gpio_get_bank_offset, GPIO_MAX.
  rewrite !(proj2 (Z.leb_gt 54 _)) by lia. unfold nthZ; simpl.
  destruct (g <? 28) eqn:E1, (h <? 28) eqn:E2, (g <? 34) eqn:E3, (h <? 34) eqn:E4; zbool; simpl;
    intros [= <-] [=]; lia.
Qed.

(** One pin of the device changed by [f], the other 53 as they were. *)
Definition pin_acts (gpio : Z) (d d' : D) (f : pin_state -> pin_state) : Prop :=
  pin_view gpio d' = f (pin_view gpio d) /\
  forall h, 0 <= h < 54 -> h <> gpio -> pin_view h d' = pin_view h d.

Lemma acts_pin gpio b o d d' f :
  0 <= gpio < 54 -> rp1_gpio_get_bank_offset gpio = Ok (b, o) -> valid_loc b o ->
  acts b o d d' f -> pin_acts gpio d d' f.
Proof.
  intros Hg HL V A. unfold pin_acts, pin_view. split.
  - rewrite HL, A by done. by rewrite decide_True.
  - intros h Hh Hne. destruct (bank_offset_spec h Hh) as (b' & o' & HL' & V'). rewrite HL', A by done.
    rewrite decide_False; [done|]. intros [= -> ->]. apply Hne. by eapply bank_offset_inj.
Qed.

Lemma rp1_gpio_set_acts gpio func drive pull d :
  0 <= gpio < 54 -> 0 <= func < 4294967296 -> pull = PULL_UNSET \/ 0 <= pull <= 2 ->
  exists d' msg, gpio_set gpio_base gpio func drive pull d = Ok (d', msg) /\
    pin_acts gpio d d' (spec_set func drive pull) /\
    (msg = None <-> drive_refused func drive (pin_view gpio d) = false).
Proof.
  intros Hg Hf Hp. destruct (bank_offset_spec gpio Hg) as (b & o & HL & V).
  assert (EV : pin_view gpio d = view b o d) by (unfold pin_view; by rewrite HL). rewrite EV.
  unfold gpio_set, drive_refused.
  assert (S1 : exists d1, (if func =? FUNC_UNSET then Ok d else set_gpio_fsel gpio_base gpio func d)
    = Ok d1 /\ acts b o d d1 (fun s => if func =? FUNC_UNSET then s else spec_fsel func s)).
  { destruct (func =? FUNC_UNSET); [eexists; split; [done|apply acts_id]|].
    by apply (rp1_set_fsel_acts gpio b o HL V). }
  destruct S1 as (d1 & -> & A1). cbn [res_bind].
  set (s1 := if func =? FUNC_UNSET then view b o d else spec_fsel func (view b o d)).
  assert (V1 : view b o d1 = s1) by (rewrite A1 by done; rewrite decide_True by done; done).
  assert (S2 : exists d2 msg, (if drive =? DRIVE_UNSET then Ok (d1, None)
    else let! f := get_gpio_fsel gpio_base gpio d1 in
         if f =? FUNC_OP then let! d := set_gpio_drive gpio_base gpio drive d1 in Ok (d, None)
         else Ok (d1, Some ("Can't set pin value, not an output: " +:+ pretty gpio)%string))
      = Ok (d2, msg) /\
    acts b o d1 d2 (fun s => if (drive =? DRIVE_UNSET) || negb (fsel_shown s =? FUNC_OP) then s
                             else spec_drive drive s) /\
    (msg = None <-> negb (drive =? DRIVE_UNSET) && negb (fsel_shown s1 =? FUNC_OP) = false)).
  { destruct (drive =? DRIVE_UNSET); [eexists _, _; split; [done|]; split; [apply acts_id|done]|].
    rewrite (rp1_get_fsel_view gpio b o HL V). cbn [res_bind orb negb andb]. rewrite V1.
    destruct (fsel_shown s1 =? FUNC_OP) eqn:EO.
    - destruct (rp1_set_drive_acts gpio b o HL V drive d1) as (d2 & -> & A2). eexists _, _.
      split; [done|]. split; [|done]. eapply acts_ext; [done|exact A2|]. by rewrite V1, EO.
    - eexists _, _. split; [done|]. split; [|done]. eapply acts_ext; [done|apply acts_id|].
      by rewrite V1, EO. }
  destruct S2 as (d2 & msg & -> & A2 & HM). cbn [res_bind].
  assert (S3 : exists d3, (if pull =? PULL_UNSET then Ok d2 else gpio_set_pull gpio_base gpio pull d2)
    = Ok d3 /\ acts b o d2 d3 (fun s => if pull =? PULL_UNSET then s else spec_pull pull s)).
  { destruct (pull =? PULL_UNSET) eqn:EP; zbool; [eexists; split; [done|apply acts_id]|].
    apply (rp1_set_pull_acts gpio b o HL V). destruct Hp; [done|lia]. }
  destruct S3 as (d3 & -> & A3). cbn [res_bind]. exists d3, msg. split; [done|]. split; [|done].
  eapply (acts_pin gpio b o); [done|done|done|].
  exact (acts_trans _ _ _ _ _ _ _ (acts_trans _ _ _ _ _ _ _ A1 A2) A3).
Qed.

(** The loop of a "set" command, from pin [pin] on. *)
Lemma rp1_pin_loop_set n pin all mask s d out :
  settings_ok s -> 0 <= pin -> pin + Z.of_nat n = 54 ->
  exists d' out', pin_loop gpio_base n pin all mask (Some s) d out = Ok (d', out') /\
    forall h, 0 <= h < 54 ->
      pin_view h d' =
      if (pin <=? h) && (all || Z.testbit mask h)
      then spec_set (st_func s) (st_drive s) (st_pull s) (pin_view h d) else pin_view h d.
Proof.
  intros (Hf & Hpl & _). revert pin d out; induction n as [|n IH]; intros pin d out Hp Hn.
  { eexists _, _; split; [done|]. intros h Hh. by rewrite (proj2 (Z.leb_gt pin h)) by lia. }
  cbn [pin_loop].
  assert (EB : (Z.land mask (Z.shiftl 1 pin) =? 0) = negb (Z.testbit mask pin)).
  { rewrite Z.shiftl_1_l, <- land_pow2_test, negb_involutive by lia. done. }
  rewrite EB. destruct (negb all && negb (Z.testbit mask pin)) eqn:ES.
  - destruct (IH (pin + 1) d out ltac:(lia) ltac:(lia)) as (d' & out' & -> & HV).
    exists d', out'. split; [done|]. intros h Hh. rewrite HV by done.
    destruct (decide (h = pin)) as [->|Hne].
    + rewrite (proj2 (Z.leb_gt (pin + 1) pin)), Z.leb_refl by lia. cbn [andb].
      apply andb_true_iff in ES as [E1 E2]. zbool. by rewrite E1, E2.
    + destruct (pin <=? h) eqn:E1, (pin + 1 <=? h) eqn:E2; zbool; try done; lia.
  - cbv zeta.
    destruct (rp1_gpio_set_acts pin (st_func s) (st_drive s) (st_pull s) d ltac:(lia) Hf Hpl)
      as (d1 & msg & -> & [A1 A2] & _). cbn [res_bind].
    match goal with |- context [pin_loop _ n _ _ _ _ d1 ?out1] =>
      destruct (IH (pin + 1) d1 out1 ltac:(lia) ltac:(lia)) as (d' & out' & -> & HV) end.
    exists d', out'. split; [done|]. intros h Hh. rewrite HV by done.
    destruct (decide (h = pin)) as [->|Hne].
    + rewrite (proj2 (Z.leb_gt (pin + 1) pin)), Z.leb_refl by lia. cbn [andb]. rewrite A1.
      assert (all || Z.testbit mask pin = true) as ->; [|done].
      by destruct all, (Z.testbit mask pin).
    + rewrite A2 by done.
      destruct (pin <=? h) eqn:E1, (pin + 1 <=? h) eqn:E2; zbool; try done; lia.
Qed.
End rp1_spec.

(** ** Addresses and names *)
Definition pins54 : list nat := seq 0 54.

Definition pin_addresses (base : Z) (gpio : nat) : list Z :=
  match rp1_gpio_get_bank_offset (Z.of_nat gpio) with
  | Ok (b, o) => [io_reg base b o; pad_reg base b o; rio_reg base b RP1_GPIO_SYS_RIO_REG_OUT_OFFSET;
                  rio_reg base b RP1_GPIO_SYS_RIO_REG_OE_OFFSET;
                  rio_reg base b RP1_GPIO_SYS_RIO_REG_SYNC_IN_OFFSET;
                  rio_reg base b (RP1_GPIO_SYS_RIO_REG_OE_OFFSET + RP1_SET_OFFSET);
                  rio_reg base b (RP1_GPIO_SYS_RIO_REG_OE_OFFSET + RP1_CLR_OFFSET)]
  | Crash _ => []
  end.

Lemma forall_pins (P : nat -> Prop) (b : nat -> bool) :
  forallb b pins54 = true -> (forall i, b i = true -> P i) -> forall i, (i < 54)%nat -> P i.
Proof.
  intros HF HB i Hi. apply HB. rewrite forallb_forall in HF. apply HF, in_seq. lia.
Qed.

(** Evaluate the bank tables at a known bank. *)
Ltac bank_tables :=
  unfold nthZ; repeat match goal with
  | |- context [default 0 (?l !! Z.to_nat ?k)] =>
      let v := eval vm_compute in (default 0 (l !! Z.to_nat k)) in
      change (default 0 (l !! Z.to_nat k)) with v
  end.

(** ** Theorems *)
Section rp1_theorems.
Context {D : Type} `{Mmio D} (gpio_base : Z).
Hypothesis dev : rp1_device gpio_base.

(** C39 (one pin) gpio_set does to its pin exactly what the contract says
    for the function, drive and pull options, complains exactly when a drive
    value is refused, and leaves the other 53 pins alone. *)
Theorem rp1_gpio_set_refines (gpio func drive pull : Z) (d : D) :
  0 <= gpio < 54 -> 0 <= func < 4294967296 -> pull = PULL_UNSET \/ 0 <= pull <= 2 ->
  exists d' msg, gpio_set gpio_base gpio func drive pull d = Ok (d', msg) /\
    pin_view gpio_base gpio d' = spec_set func drive pull (pin_view gpio_base gpio d) /\
    (forall h, 0 <= h < 54 -> h <> gpio -> pin_view gpio_base h d' = pin_view gpio_base h d) /\
    (msg = None <-> drive_refused func drive (pin_view gpio_base gpio d) = false).
Proof.
  intros Hg Hf Hp.
  destruct (rp1_gpio_set_acts gpio_base dev gpio func drive pull d Hg Hf Hp) as (d' & msg & E & [A1 A2] & M).
  exists d', msg. auto.
Qed.

(** A "set" command. When the arguments parse as a "set" command, main
    succeeds and every pin of the list, and no other, ends up as the options
    say. *)
Theorem rp1_main_set (args : list string) (all : bool) (mask : Z) (s : settings) (d : D) :
  parse_args (read_pin_sscanf GPIO_MAX) args = Ok (CmdSet all mask s) ->
  exists d' out, main gpio_base true args d = Ok (d', out, EXIT_SUCCESS) /\
    forall pin, 0 <= pin < 54 ->
      pin_view gpio_base pin d' =
      if all || Z.testbit mask pin
      then spec_set (st_func s) (st_drive s) (st_pull s) (pin_view gpio_base pin d)
      else pin_view gpio_base pin d.
Proof.
  intros HA. destruct (parse_args_set_ok _ _ _ _ _ HA) as [Hs _]. unfold main. rewrite HA.
  cbn [res_bind].
  destruct (rp1_pin_loop_set gpio_base dev 54 0 all mask s d [] Hs ltac:(lia) ltac:(lia))
    as (d' & out' & E & HV).
  change (Z.to_nat GPIO_MAX) with 54%nat. rewrite E. cbn [res_bind].
  exists d', out'. split; [done|]. intros pin Hpin. rewrite HV by done.
  by rewrite (proj2 (Z.leb_le 0 pin)) by lia.
Qed.

(** Get shows what set did: After setting a function and a pull, the
    tool reports them: the direction for "ip" and "op", none for "no", the
    pin's direction for "gp" and "a5", else the alternate function. *)
Theorem rp1_set_get_roundtrip (gpio func pull : Z) (d : D) :
  0 <= gpio < 54 -> (0 <= func <= 8 \/ func = FUNC_IP \/ func = FUNC_OP \/ func = FUNC_GP \/ func = FUNC_NO) ->
  0 <= pull <= 2 ->
  exists d' dir, gpio_set gpio_base gpio func DRIVE_UNSET pull d = Ok (d', None) /\
    get_gpio_dir gpio_base gpio d = Ok dir /\
    get_gpio_pull gpio_base gpio d' = Ok pull /\
    get_gpio_fsel gpio_base gpio d' =
      Ok (if func =? FUNC_NO then FUNC_NULL
          else if (func =? FUNC_GP) || (func =? 5) then dir else func).
Proof.
  intros Hg Hf Hp. assert (Hf' : 0 <= func < 4294967296)
    by (unfold FUNC_IP, FUNC_OP, FUNC_GP, FUNC_NO in Hf; lia).
  destruct (rp1_gpio_set_acts gpio_base dev gpio func DRIVE_UNSET pull d Hg Hf' (or_intror Hp))
    as (d' & msg & E & [A1 _] & M).
  assert (msg = None) as -> by (apply M; unfold drive_refused; by rewrite Z.eqb_refl).
  destruct (bank_offset_spec gpio Hg) as (b & o & HL & V).
  exists d', (if p_oe (view gpio_base b o d) then FUNC_OP else FUNC_IP). split; [done|].
  split; [by apply rp1_get_dir_view|].
  unfold pin_view in A1. rewrite HL in A1.
  rewrite (rp1_get_pull_view gpio_base gpio b o HL), (rp1_get_fsel_view gpio_base gpio b o HL V), A1.
  destruct (view gpio_base b o d) as [sel oe out up dn ie od].
  assert (Hpu : pull = 0 \/ pull = 1 \/ pull = 2) by lia.
  unfold FUNC_IP, FUNC_OP, FUNC_GP, FUNC_NO in Hf.
  assert (func = 0 \/ func = 1 \/ func = 2 \/ func = 3 \/ func = 4 \/ func = 5 \/ func = 6 \/
    func = 7 \/ func = 8 \/ func = 20 \/ func = 21 \/ func = 22 \/ func = 23) as Hfs by lia.
  clear -Hpu Hfs. destruct Hpu as [->|[->| ->]];
    repeat (destruct Hfs as [->|Hfs]; [split; by destruct oe|]); subst func; split; by destruct oe.
Qed.

(** Registers and names: Every register of every pin lies in the mapped
    block, word-aligned; a pin that exists never exits the tool; and the
    function name of any pin fits the 24-byte buffer of gpio_get. *)
Theorem rp1_registers_and_names (gpio fsel : Z) :
  0 <= gpio < 54 ->
  (exists b o, rp1_gpio_get_bank_offset gpio = Ok (b, o)) /\
  Forall (fun a => gpio_base <= a /\ a + 4 <= gpio_base + BLOCK_SIZE /\ (a - gpio_base) mod 4 = 0)
    (pin_addresses gpio_base (Z.to_nat gpio)) /\
  (forall name, gpio_fsel_to_namestr gpio fsel = Some name -> (String.length name < 24)%nat) /\
  (0 <= fsel <= 8 -> is_Some (gpio_fsel_to_namestr gpio fsel)).
Proof.
  intros Hg. destruct (bank_offset_spec gpio Hg) as (b & o & HL & V). split; [eauto|]. split.
  { unfold pin_addresses. rewrite Z2Nat.id by lia. rewrite HL.
    destruct V as [Vb Vo]. apply bank_cases in Vb.
    unfold io_reg, pad_reg, rio_reg, RP1_GPIO_IO_REG_CTRL_OFFSET, RP1_GPIO_PADS_REG_OFFSET,
      RP1_GPIO_SYS_RIO_REG_OUT_OFFSET, RP1_GPIO_SYS_RIO_REG_OE_OFFSET,
      RP1_GPIO_SYS_RIO_REG_SYNC_IN_OFFSET, RP1_SET_OFFSET, RP1_CLR_OFFSET, BLOCK_SIZE.
    destruct Vb as [->|[->| ->]]; bank_tables;
      repeat (apply Forall_cons_2; [split; [lia|split; [lia|]];
        Z.to_euclidean_division_equations; lia|]); apply Forall_nil_2. }
  assert (Tab : forall k, (k < 486)%nat -> exists name, rp1_gpio_fsel_names !! k = Some name /\
    (String.length name < 24)%nat).
  { intros k Hk. assert (HL2 : length rp1_gpio_fsel_names = 486%nat) by reflexivity.
    destruct (lookup_lt_is_Some_2 rp1_gpio_fsel_names k ltac:(lia)) as [n Hn]. exists n. split; [done|].
    assert (HF : forallb (fun s => (String.length s <? 24)%nat) rp1_gpio_fsel_names = true)
      by (vm_compute; reflexivity).
    rewrite forallb_forall in HF. apply Nat.ltb_lt, HF. apply list_elem_of_In.
    by eapply list_elem_of_lookup_2. }
  unfold gpio_fsel_to_namestr, GPIO_MAX. rewrite (proj2 (Z.leb_gt 54 gpio)) by lia.
  unfold FUNC_GP, FUNC_IP, FUNC_OP, FUNC_NULL, NUM_ALT_FUNCS. split.
  - intros name. repeat zcase; try (intros [= <-]; simpl; lia); try done.
    destruct (Tab (Z.to_nat (gpio * 9 + fsel)) ltac:(lia)) as (n & -> & Hn). by intros [= <-].
  - intros Hfs. rewrite !(proj2 (Z.eqb_neq _ _)) by lia.
    rewrite (proj2 (Z.leb_le 0 fsel)), (proj2 (Z.leb_le fsel 8)) by lia. cbn [andb].
    destruct (Tab (Z.to_nat (gpio * 9 + fsel)) ltac:(lia)) as (n & -> & Hn). by eexists.
Qed.
End rp1_theorems.

(** ** A simulated device at base 0, to run the tool *)
Definition sim_oe (k : Z) : Z := 65540 + 16384 * k.

(** The output-enable register an alias address stands for, and whether it
    sets or clears. *)
Definition sim_alias (a : Z) : option (Z * bool) :=
  if a =? sim_oe 0 + 8192 then Some (sim_oe 0, true)
  else if a =? sim_oe 1 + 8192 then Some (sim_oe 1, true)
  else if a =? sim_oe 2 + 8192 then Some (sim_oe 2, true)
  else if a =? sim_oe 0 + 12288 then Some (sim_oe 0, false)
  else if a =? sim_oe 1 + 12288 then Some (sim_oe 1, false)
  else if a =? sim_oe 2 + 12288 then Some (sim_oe 2, false)
  else None.

#[local] Instance rp1_sim : Mmio (Z -> Z) := {
  in32 a m := u32 (m a);
  out32 a v m :=
    match sim_alias a with
    | Some (r, set) => fun x => if x =? r then (if set then Z.lor (u32 (m r)) v
                                                else Z.ldiff (u32 (m r)) v) else m x
    | None => fun x => if x =? a then v else m x
    end
}.

Lemma sim_reg_values b : 0 <= b <= 2 ->
  oe_reg 0 b = sim_oe b /\ out_reg 0 b = sim_oe b - 4 /\
  (forall r, alias_reg 0 b r = sim_oe b + r) /\
  (forall o, io_reg 0 b o = 16384 * b + (o * 2 + 1) * 4) /\
  (forall o, pad_reg 0 b o = 131072 + 16384 * b + (4 + o * 4)).
Proof.
  intros Hb. apply bank_cases in Hb.
  unfold oe_reg, out_reg, alias_reg, rio_reg, io_reg, pad_reg, RP1_GPIO_IO_REG_CTRL_OFFSET,
    RP1_GPIO_PADS_REG_OFFSET, RP1_GPIO_SYS_RIO_REG_OUT_OFFSET, RP1_GPIO_SYS_RIO_REG_OE_OFFSET, sim_oe.
  destruct Hb as [->|[->| ->]]; bank_tables; repeat split; intros; lia.
Qed.

Lemma sim_plain a : plain_reg 0 a ->
  sim_alias a = None /\ forall b, 0 <= b <= 2 -> a <> oe_reg 0 b.
Proof.
  intros (b & o & [Hb Ho] & Ha). destruct (sim_reg_values b Hb) as (_ & E2 & _ & E3 & E4).
  rewrite E2, E3, E4 in Ha.
  assert (N : forall k, 0 <= k <= 2 -> a <> sim_oe k /\ a <> sim_oe k + 8192 /\ a <> sim_oe k + 12288)
    by (unfold sim_oe in *; intros; lia).
  split.
  - unfold sim_alias. rewrite !(proj2 (Z.eqb_neq a _)) by (apply N; lia). done.
  - intros b' Hb'. destruct (sim_reg_values b' Hb') as (-> & _). by apply N.
Qed.

Lemma sim_alias_at b r : 0 <= b <= 2 -> r = RP1_SET_OFFSET \/ r = RP1_CLR_OFFSET ->
  sim_alias (alias_reg 0 b r) = Some (oe_reg 0 b, r =? RP1_SET_OFFSET).
Proof.
  intros Hb Hr. apply bank_cases in Hb.
  destruct Hb as [->|[->| ->]], Hr as [->| ->]; vm_compute; reflexivity.
Qed.

Lemma rp1_sim_device : rp1_device (D := Z -> Z) 0.
Proof.
  constructor.
  - constructor.
    + intros a d _. apply u32_range.
    + intros a v d Ha Hv. destruct (sim_plain a Ha) as [E _]. simpl. rewrite E, Z.eqb_refl.
      by apply u32_id.
    + intros a b v d Ha Hb Hne. destruct (sim_plain a Ha) as [E _]. simpl. rewrite E.
      by rewrite (proj2 (Z.eqb_neq b a)) by auto.
  - intros b d _. apply u32_range.
  - intros a b v d Ha Hb. destruct (sim_plain a Ha) as [E N]. simpl. rewrite E.
    rewrite (proj2 (Z.eqb_neq (oe_reg 0 b) a)); [done|]. intros E'. by apply (N b Hb).
  - intros b v d Hb Hv. simpl. rewrite sim_alias_at by auto. rewrite !Z.eqb_refl.
    apply u32_id. apply lor_range; [apply u32_range|done].
  - intros b v d Hb Hv. simpl. rewrite sim_alias_at by auto. rewrite Z.eqb_refl.
    change (RP1_CLR_OFFSET =? RP1_SET_OFFSET) with false. cbn iota.
    apply u32_id. apply ldiff_range; [apply u32_range|lia].
  - intros a b r v d Hb Hr Ha. simpl. rewrite sim_alias_at by auto.
    assert (Hne : a <> oe_reg 0 b).
    { destruct Ha as [Ha|(b' & Hb' & Hne & ->)]; [by apply (proj2 (sim_plain a Ha))|].
      destruct (sim_reg_values b' Hb') as (-> & _), (sim_reg_values b Hb) as (-> & _).
      unfold sim_oe. lia. }
    by rewrite (proj2 (Z.eqb_neq _ _) Hne).
Qed.

Definition sim_reset : Z -> Z := fun _ => 0.

Lemma rp1_gpio_set_refines_witness :
  exists d', gpio_set 0 17 FUNC_OP DRIVE_HIGH PULL_UP sim_reset = Ok (d', None) /\
    pin_view 0 17 d' = PinState 5 true true true false true false.
Proof.
  destruct (rp1_gpio_set_refines 0 rp1_sim_device 17 FUNC_OP DRIVE_HIGH PULL_UP sim_reset
    ltac:(lia) ltac:(unfold FUNC_OP; lia) ltac:(right; unfold PULL_UP; lia))
    as (d' & msg & E & V & _ & M).
  assert (msg = None) as -> by (apply M; vm_compute; reflexivity).
  exists d'. split; [exact E|]. rewrite V. vm_compute. reflexivity.
Defined.

Lemma rp1_main_set_witness :
  exists d' out, main 0 true ["set"; "3,5-6"; "op"; "dh"]%string sim_reset = Ok (d', out, EXIT_SUCCESS) /\
    p_out (pin_view 0 6 d') = true /\ p_out (pin_view 0 4 d') = false.
Proof.
  destruct (rp1_main_set 0 rp1_sim_device ["set"; "3,5-6"; "op"; "dh"]%string false 104
    (Settings FUNC_OP DRIVE_HIGH PULL_UNSET) sim_reset ltac:(vm_compute; reflexivity))
    as (d' & out & E & V).
  exists d', out. split; [exact E|]. rewrite !V by lia. vm_compute. split; reflexivity.
Defined.

Lemma rp1_set_get_roundtrip_witness :
  exists d', gpio_set 0 40 FUNC_NO DRIVE_UNSET PULL_DOWN sim_reset = Ok (d', None) /\
    get_gpio_fsel 0 40 d' = Ok FUNC_NULL /\ get_gpio_pull 0 40 d' = Ok PULL_DOWN.
Proof.
  destruct (rp1_set_get_roundtrip 0 rp1_sim_device 40 FUNC_NO PULL_DOWN sim_reset ltac:(lia)
    ltac:(auto) ltac:(unfold PULL_DOWN; lia)) as (d' & dir & E & _ & P & F).
  exists d'. split; [exact E|]. split; [exact F|exact P].
Defined.

Lemma rp1_registers_and_names_witness :
  gpio_fsel_to_namestr 2 4 = Some "IR_RX0       "%string /\
  (String.length "IR_RX0       " < 24)%nat.
Proof.
  destruct (rp1_registers_and_names 0 2 4 ltac:(lia)) as (_ & _ & N & _).
  assert (E : gpio_fsel_to_namestr 2 4 = Some "IR_RX0       "%string) by (vm_compute; reflexivity).
  split; [exact E|exact (N _ E)].
Defined.
