(* ===== verification/Pinctrl.v ===== *)
(** * The pin controllers of the BCM2712 (gpio-bcm/gpio.c, gpio-aon-bcm/gpio.c)

    The two tools are one program over two register layouts.  Here is the
    program, with the layout as a record: which bits of which register hold
    the function and the pull of a pin, the widths of the banks, the name
    tables.  [GpioBcm.v] and [GpioAon.v] give the layouts as the sources
    compute them.  [debug] is the constant 0: its lines are left out. *)
From S2P Require Import Prelude Gpio GpioTables.
Open Scope Z_scope.

(** The stepping of the SoC; it decides layouts and names. *)
Inductive stepping := STEPPING_C1 | STEPPING_D0.

#[export] Instance stepping_eq_dec : EqDecision stepping.
Proof. solve_decision. Defined.

(** libfdt, a library: [F] is a device tree; a property is its length in
    bytes with its data as 32-bit cells. *)
Class Libfdt (F : Type) := {
  fdt_node_offset_by_compatible : F -> Z -> string -> Z;
  fdt_get_property : F -> Z -> string -> option (Z * list Z)
}.

Definition GPIO_BANK_NUM : Z := 2.
Definition BCM2712_GIO_DATA : Z := 4.
Definition BCM2712_GIO_IODIR : Z := 8.
Definition DIR_UNSET : Z := 4294967295.
Definition DIR_INPUT : Z := 0.
Definition DIR_OUTPUT : Z := 1.
Definition NUM_ALT_FUNCS : Z := 8.
Definition FSEL_COUNT : Z := 8.
Definition FUNC_NAME_MAX_LEN : nat := 30.

(** A layout for one stepping: offsets of a register from its base, with the
    bit offset of the field, or None for a pin without the register. *)
Record pinctrl := Pinctrl {
  gpio_max : Z;
  gpio_bank_widths : list Z;
  gpio_size : Z;
  pinmux_size : Z;
  pinmux_field : Z -> option (Z * Z);
  pad_field : Z -> option (Z * Z);
  fsel_names : list string;
  (* the pin's name in "funcs" rows, its name in "get" lines *)
  funcs_names : list string;
  get_names : list string;
  (* is the pin undefined in this stepping? *)
  pin_unknown : Z -> bool;
  funcs_header : list string;
  funcs_name_width : nat;
  funcs_alt_widths : list nat
}.

Section pinctrl.
Context (pc : pinctrl) {D : Type} `{Mmio D} (gpio_base_g pinmux_base_g : Z).

Definition bank_width (bank : Z) : Z := default 0 (gpio_bank_widths pc !! Z.to_nat bank).

Definition in_bank (gpio : Z) : bool :=
  (gpio / 32 <? GPIO_BANK_NUM) && (gpio mod 32 <? bank_width (gpio / 32)).

Definition get_gpio_base (gpio : Z) : option (Z * Z) :=
  if in_bank gpio then Some (gpio_base_g + gpio / 32 * 32, gpio mod 32) else None.

Definition get_pinmux_base (gpio : Z) : option (Z * Z) :=
  (fun '(a, o) => (pinmux_base_g + a, o)) <$> pinmux_field pc gpio.

Definition get_pad_base (gpio : Z) : option (Z * Z) :=
  (fun '(a, o) => (pinmux_base_g + a, o)) <$> pad_field pc gpio.

Definition set_dir (gpio dir : Z) (d : D) : D :=
  match get_gpio_base gpio with
  | None => d
  | Some (base, offset) =>
      let gpio_val := in32 (base + BCM2712_GIO_IODIR) d in
      out32 (base + BCM2712_GIO_IODIR)
        (field_put offset 1 (if dir =? DIR_INPUT then 1 else 0) gpio_val) d
  end.

Definition get_dir (gpio : Z) (d : D) : Z :=
  match get_gpio_base gpio with
  | None => DIR_UNSET
  | Some (base, offset) =>
      if negb (Z.land (in32 (base + BCM2712_GIO_IODIR) d) (u32 (Z.shiftl 1 offset)) =? 0)
      then DIR_INPUT else DIR_OUTPUT
  end.

Definition get_fsel (gpio : Z) (d : D) : Z :=
  match get_pinmux_base gpio with
  | None => FUNC_NULL
  | Some (base, offset) =>
      let fsel_val := field_get offset 4 (in32 base d) in
      if fsel_val =? 0 then if get_dir gpio d =? DIR_OUTPUT then FUNC_OP else FUNC_IP
      else if fsel_val <=? NUM_ALT_FUNCS then fsel_val
      else FUNC_NULL
  end.

Definition set_fsel (gpio func_type : Z) (d : D) : D :=
  match get_pinmux_base gpio with
  | None => d
  | Some (base, offset) =>
      if (func_type =? FUNC_IP) || (func_type =? FUNC_OP) || (func_type =? FUNC_GP) then
        let d := if func_type =? FUNC_IP then set_dir gpio DIR_INPUT d else d in
        let d := if func_type =? FUNC_OP then set_dir gpio DIR_OUTPUT d else d in
        out32 base (field_put offset 4 0 (in32 base d)) d
      else if func_type <=? NUM_ALT_FUNCS then
        out32 base (field_put offset 4 func_type (in32 base d)) d
      else d
  end.

Definition get_level (gpio : Z) (d : D) : Z :=
  match get_gpio_base gpio with
  | None => 0
  | Some (base, offset) =>
      if negb (Z.land (in32 (base + BCM2712_GIO_DATA) d) (u32 (Z.shiftl 1 offset)) =? 0)
      then 1 else 0
  end.

Definition set_drive (gpio drive : Z) (d : D) : D :=
  match get_gpio_base gpio with
  | None => d
  | Some (base, offset) =>
      out32 (base + BCM2712_GIO_DATA)
        (field_put offset 1 drive (in32 (base + BCM2712_GIO_DATA) d)) d
  end.

(** The text snprintf puts into a buffer of [name_size] bytes; None is -1. *)
Definition gpio_fsel_to_namestr (gpio fsel : Z) (name_size : nat) : option string :=
  if gpio_max pc <=? gpio then None
  else if (fsel =? FUNC_GP) || (fsel =? 0) then Some (snprintf_s name_size "GPIO")
  else if fsel =? FUNC_IP then Some (snprintf_s name_size "INPUT")
  else if fsel =? FUNC_OP then Some (snprintf_s name_size "OUTPUT")
  else if (1 <=? fsel) && (fsel <=? 8) then
    match fsel_names pc !! Z.to_nat (gpio * FSEL_COUNT + fsel - 1) with
    | Some name => Some (snprintf_s name_size ("ALT" +:+ pretty fsel +:+ " = " +:+ name)%string)
    | None => None
    end
  else if fsel =? FUNC_NULL then Some (snprintf_s name_size "none")
  else None.

Definition set_pull (gpio pull_type : Z) (d : D) : D :=
  match get_pad_base gpio with
  | None => d
  | Some (base, offset) =>
      if (pull_type =? PULL_NONE) || (pull_type =? PULL_DOWN) || (pull_type =? PULL_UP)
      then out32 base (field_put offset 2 pull_type (in32 base d)) d
      else d
  end.

Definition get_pull (gpio : Z) (d : D) : Z :=
  match get_pad_base gpio with
  | None => PULL_UNSET
  | Some (base, offset) =>
      let v := field_get offset 2 (in32 base d) in
      if v =? 0 then PULL_NONE else if v =? 1 then PULL_DOWN else if v =? 2 then PULL_UP
      else PULL_UNSET
  end.

Definition gpio_pull_names : list string := ["pn"; "pd"; "pu"; "p?"]%string.

(** The line gpio_get prints. *)
Definition gpio_get (pinnum : Z) (d : D) : option string :=
  if (pinnum <? gpio_max pc) && in_bank pinnum then
    let head := ("GPIO" +:+ pad_right 2 (pretty pinnum) +:+ "/" +:+
                 default EmptyString (get_names pc !! Z.to_nat pinnum))%string in
    if pin_unknown pc pinnum then Some (head +:+ ": pull=-- level=-- func=--")%string
    else
      let func_name := default EmptyString
        (gpio_fsel_to_namestr pinnum (get_fsel pinnum d) FUNC_NAME_MAX_LEN) in
      let level := get_level pinnum d in
      let pull := get_pull pinnum d in
      let pullstr := if pull =? PULL_UNSET then "--"%string
                     else default EmptyString (gpio_pull_names !! Z.to_nat (Z.land pull 3)) in
      Some (head +:+ ": pull=" +:+ pullstr +:+ " level=" +:+
            (if Z.eqb level 1 then "hi" else "lo") +:+ " func=" +:+ func_name)%string
  else None.

(** A refused drive value ends the function: the pull is not set then. *)
Definition gpio_set (pinnum func_sel drive pull : Z) (d : D) : D * option string :=
  if negb (in_bank pinnum) then (d, None)
  else
    let d := if func_sel =? FUNC_UNSET then d else set_fsel pinnum func_sel d in
    if negb (drive =? DRIVE_UNSET) && negb (get_fsel pinnum d =? FUNC_OP) then
      (d, Some ("Can't set pin value, not an output: " +:+ pretty pinnum)%string)
    else
      let d := if drive =? DRIVE_UNSET then d else set_drive pinnum drive d in
      (if pull =? PULL_UNSET then d else set_pull pinnum pull d, None).

Definition func_row (pin : nat) : string :=
  (pad_right 4 (pretty (Z.of_nat pin)) +:+ " " +:+
   pad_left (funcs_name_width pc) (default EmptyString (funcs_names pc !! pin)) +:+
   foldr (fun alt s => " " +:+ pad_left (default 0%nat (funcs_alt_widths pc !! alt))
            (default EmptyString (fsel_names pc !! (pin * Z.to_nat FSEL_COUNT + alt)%nat)) +:+ s)
     EmptyString (seq 0 (Z.to_nat FSEL_COUNT)))%string.

Definition print_funcs (all_pins : bool) (pin_mask : Z) : list string :=
  funcs_header pc ++
  (func_row <$> List.filter
     (fun pin => in_bank (Z.of_nat pin) && (all_pins || Z.testbit pin_mask (Z.of_nat pin)))
     (seq 0 (Z.to_nat (gpio_max pc)))).

Fixpoint pin_loop (n : nat) (pin : Z) (all_pins : bool) (pin_mask : Z) (set : option settings)
    (d : D) (out : list string) : D * list string :=
  match n with
  | O => (d, out)
  | S n' =>
      if all_pins || negb (Z.land pin_mask (Z.shiftl 1 pin) =? 0) then
        match set with
        | None => pin_loop n' (pin + 1) all_pins pin_mask set d (out ++ option_list (gpio_get pin d))
        | Some s =>
            let '(d, line) := gpio_set pin (st_func s) (st_drive s) (st_pull s) d in
            pin_loop n' (pin + 1) all_pins pin_mask set d (out ++ option_list line)
        end
      else pin_loop n' (pin + 1) all_pins pin_mask set d out
  end.

Inductive exit_code := EXIT_SUCCESS | EXIT_FAILURE.

(** [gpio_mapped], [pinmux_mapped]: do the two mmap_device_memory calls
    succeed?  [einval]: see strtoul. *)
Definition main (einval gpio_mapped pinmux_mapped : bool) (args : list string) (d : D)
    : res (D * list string * exit_code) :=
  let! cmd := parse_args (read_pin_strtoul einval (gpio_max pc)) args in
  let run all mask set :=
    if gpio_mapped && pinmux_mapped then
      let '(d, out) := pin_loop (Z.to_nat (gpio_max pc)) 0 all mask set d [] in
      Ok (d, out, EXIT_SUCCESS)
    else Ok (d, [], EXIT_FAILURE) in
  match cmd with
  | CmdError => Ok (d, [], EXIT_FAILURE)
  | CmdFuncs all mask => Ok (d, print_funcs all mask, EXIT_SUCCESS)
  | CmdGet all mask => run all mask None
  | CmdSet all mask s => run all mask (Some s)
  end.
End pinctrl.

(** ** The contract: the four fields of a pin, and what a "set" does to them *)

(** A field is None where the pin does not have it. *)
Record pin_state := PinState {
  p_sel : option Z; p_dir : option Z; p_data : option Z; p_pull : option Z
}.

Inductive reg := RSel | RDir | RData | RPull.

#[export] Instance reg_eq_dec : EqDecision reg.
Proof. solve_decision. Defined.

Definition put (r : reg) (x : Z) (s : pin_state) : pin_state :=
  match r with
  | RSel => PinState ((fun _ => x) <$> p_sel s) (p_dir s) (p_data s) (p_pull s)
  | RDir => PinState (p_sel s) ((fun _ => x) <$> p_dir s) (p_data s) (p_pull s)
  | RData => PinState (p_sel s) (p_dir s) ((fun _ => x) <$> p_data s) (p_pull s)
  | RPull => PinState (p_sel s) (p_dir s) (p_data s) ((fun _ => x) <$> p_pull s)
  end.

(** Direction bit: 1 is input. *)
Definition spec_fsel (func : Z) (s : pin_state) : pin_state :=
  match p_sel s with
  | None => s
  | Some _ =>
      if func =? FUNC_IP then put RSel 0 (put RDir 1 s)
      else if func =? FUNC_OP then put RSel 0 (put RDir 0 s)
      else if func =? FUNC_GP then put RSel 0 s
      else if func <=? NUM_ALT_FUNCS then put RSel func s
      else s
  end.

Definition fsel_shown (s : pin_state) : Z :=
  match p_sel s with
  | None => FUNC_NULL
  | Some v =>
      if v =? 0 then match p_dir s with Some 0 => FUNC_OP | _ => FUNC_IP end
      else if v <=? NUM_ALT_FUNCS then v else FUNC_NULL
  end.

Definition pull_shown (s : pin_state) : Z :=
  match p_pull s with
  | None => PULL_UNSET
  | Some v => if v =? 0 then PULL_NONE else if v =? 1 then PULL_DOWN
              else if v =? 2 then PULL_UP else PULL_UNSET
  end.

Definition drive_refused (func drive : Z) (s : pin_state) : bool :=
  let s := if func =? FUNC_UNSET then s else spec_fsel func s in
  negb (drive =? DRIVE_UNSET) && negb (fsel_shown s =? FUNC_OP).

Definition spec_set (func drive pull : Z) (s : pin_state) : pin_state :=
  let s' := if func =? FUNC_UNSET then s else spec_fsel func s in
  if drive_refused func drive s then s'
  else
    let s' := if drive =? DRIVE_UNSET then s' else put RData drive s' in
    if pull =? PULL_UNSET then s' else put RPull pull s'.

(** ** Slots: where a field of a pin lies *)
Record slot := Slot { sl_addr : Z; sl_off : Z; sl_width : Z }.

Definition slot_valid (s : slot) : Prop := 0 <= sl_off s /\ 0 < sl_width s /\ sl_off s + sl_width s <= 32.

(** No bit in common. *)
Definition slots_apart (s t : slot) : Prop :=
  sl_addr s <> sl_addr t \/ sl_off s + sl_width s <= sl_off t \/ sl_off t + sl_width t <= sl_off s.

(** *** The layout check

    Every field inside the mapped block, word-aligned, inside its word, and
    apart from every other field of the block. *)
Definition rel_slot (pc : pinctrl) (g : Z) (pad : bool) : option slot :=
  if pad then (fun '(a, o) => Slot a o 2) <$> pad_field pc g
  else (fun '(a, o) => Slot a o 4) <$> pinmux_field pc g.

Definition slot_inside (size : Z) (s : slot) : bool :=
  (0 <=? sl_addr s) && (sl_addr s + 4 <=? size) && (sl_addr s mod 4 =? 0)
  && (0 <=? sl_off s) && (0 <? sl_width s) && (sl_off s + sl_width s <=? 32).

Definition apartb (s t : slot) : bool :=
  negb (sl_addr s =? sl_addr t) || (sl_off s + sl_width s <=? sl_off t)
  || (sl_off t + sl_width t <=? sl_off s).

Definition pins (pc : pinctrl) : list Z := Z.of_nat <$> seq 0 (Z.to_nat (gpio_max pc)).

Definition layout_ok (pc : pinctrl) : bool :=
  forallb (fun '(g, k) => match rel_slot pc g k with
                          | None => true
                          | Some s => slot_inside (pinmux_size pc) s &&
      forallb (fun '(h, l) => bool_decide ((g, k) = (h, l)) ||
                 match rel_slot pc h l with None => true | Some t => apartb s t end)
        (list_prod (pins pc) [false; true])
                          end)
    (list_prod (pins pc) [false; true])
  && (gpio_max pc <=? 64) && (64 <=? gpio_size pc)
  && (0 <=? bank_width pc 0) && (bank_width pc 0 <=? 32) && (bank_width pc 1 <=? 32).

Lemma elem_pins pc g : 0 <= g < gpio_max pc -> In g (pins pc).
Proof.
  intros Hg. apply in_map_iff. exists (Z.to_nat g). split; [lia|]. apply in_seq. lia.
Qed.

Lemma layout_ok_slot pc g k s :
  layout_ok pc = true -> 0 <= g < gpio_max pc -> rel_slot pc g k = Some s ->
  slot_valid s /\ 0 <= sl_addr s /\ sl_addr s + 4 <= pinmux_size pc /\ sl_addr s mod 4 = 0.
Proof.
  intros L Hg Hs. unfold layout_ok in L. zbool.
  match goal with L : forallb _ (list_prod _ _) = true |- _ => rename L into LF end.
  rewrite forallb_forall in LF. specialize (LF (g, k)). cbv beta iota in LF. rewrite Hs in LF.
  assert (HI : In (g, k) (list_prod (pins pc) [false; true])).
  { apply in_prod; [by apply elem_pins|]. destruct k; simpl; auto. }
  specialize (LF HI). unfold slot_inside in LF. zbool. unfold slot_valid. lia.
Qed.

Lemma layout_ok_apart pc g k s h l t :
  layout_ok pc = true -> 0 <= g < gpio_max pc -> 0 <= h < gpio_max pc ->
  rel_slot pc g k = Some s -> rel_slot pc h l = Some t -> (g, k) <> (h, l) -> slots_apart s t.
Proof.
  intros L Hg Hh Hs Ht Hne. unfold layout_ok in L. zbool.
  match goal with L : forallb _ (list_prod _ _) = true |- _ => rename L into LF end.
  assert (In2 : forall p (q : bool), 0 <= p < gpio_max pc -> In (p, q) (list_prod (pins pc) [false; true])).
  { intros p q Hp. apply in_prod; [by apply elem_pins|]. destruct q; simpl; auto. }
  rewrite forallb_forall in LF. specialize (LF (g, k) (In2 g k Hg)). cbv beta iota in LF. rewrite Hs in LF.
  apply andb_true_iff in LF as [_ LF]. rewrite forallb_forall in LF.
  specialize (LF (h, l) (In2 h l Hh)). cbv beta iota in LF. rewrite Ht in LF.
  rewrite bool_decide_false in LF by done. cbn [orb] in LF. unfold apartb in LF.
  rewrite !orb_true_iff, negb_true_iff, Z.eqb_neq, !Z.leb_le in LF. unfold slots_apart. tauto.
Qed.

(** ** The operations write slots *)
Section spec.
Context (pc : pinctrl) {D : Type} `{Mmio D} (gpio_base_g pinmux_base_g : Z).

Abbreviation get_gpio_base := (get_gpio_base pc gpio_base_g).

(** The registers of the two mapped blocks. *)
Definition mapped_reg (a : Z) : Prop :=
  (gpio_base_g <= a /\ a + 4 <= gpio_base_g + gpio_size pc /\ (a - gpio_base_g) mod 4 = 0) \/
  (pinmux_base_g <= a /\ a + 4 <= pinmux_base_g + pinmux_size pc /\ (a - pinmux_base_g) mod 4 = 0).

(** What the tool relies on: the blocks do not overlap and their registers
    hold what is written. *)
Record pinctrl_device : Prop := {
  blocks_apart : gpio_base_g + gpio_size pc <= pinmux_base_g \/
                 pinmux_base_g + pinmux_size pc <= gpio_base_g;
  registers_plain : plain_registers mapped_reg
}.

Definition slot_of (g : Z) (r : reg) : option slot :=
  match r with
  | RSel => (fun '(a, o) => Slot a o 4) <$> get_pinmux_base pc pinmux_base_g g
  | RPull => (fun '(a, o) => Slot a o 2) <$> get_pad_base pc pinmux_base_g g
  | RDir => (fun '(a, o) => Slot (a + BCM2712_GIO_IODIR) o 1) <$> get_gpio_base g
  | RData => (fun '(a, o) => Slot (a + BCM2712_GIO_DATA) o 1) <$> get_gpio_base g
  end.

Definition read_slot (s : slot) (d : D) : Z := field_get (sl_off s) (sl_width s) (in32 (sl_addr s) d).
Definition write_slot (s : slot) (x : Z) (d : D) : D :=
  out32 (sl_addr s) (field_put (sl_off s) (sl_width s) x (in32 (sl_addr s) d)) d.

Definition field_of (g : Z) (r : reg) (d : D) : option Z := (fun s => read_slot s d) <$> slot_of g r.

Definition pin_view (g : Z) (d : D) : pin_state :=
  PinState (field_of g RSel d) (field_of g RDir d) (field_of g RData d) (field_of g RPull d).

Hypothesis dev : pinctrl_device.
Hypothesis layout : layout_ok pc = true.

Lemma layout_sizes : gpio_max pc <= 64 /\ 64 <= gpio_size pc /\ bank_width pc 0 <= 32 /\ bank_width pc 1 <= 32.
Proof. unfold layout_ok in layout. zbool. lia. Qed.

Lemma get_gpio_base_spec g a o : 0 <= g -> get_gpio_base g = Some (a, o) ->
  exists b, (b = 0 \/ b = 1) /\ a = gpio_base_g + b * 32 /\ 0 <= o < 32 /\ g = 32 * b + o.
Proof.
  intros Hg. unfold Pinctrl.get_gpio_base, in_bank, GPIO_BANK_NUM. destruct (_ && _) eqn:E; [|done].
  zbool. intros [= <- <-]. exists (g / 32). pose proof (Z.div_mod g 32). pose proof (Z.mod_pos_bound g 32).
  assert (0 <= g / 32) by (apply Z.div_pos; lia). lia.
Qed.

Lemma slot_of_valid g r s : 0 <= g < gpio_max pc -> slot_of g r = Some s ->
  slot_valid s /\ mapped_reg (sl_addr s).
Proof.
  intros Hg Hs. pose proof layout_sizes as (_ & G & _ & _). unfold mapped_reg.
  assert (Pinmux : forall k t, rel_slot pc g k = Some t ->
    s = Slot (pinmux_base_g + sl_addr t) (sl_off t) (sl_width t) -> slot_valid s /\ mapped_reg (sl_addr s)).
  { intros k t Ht ->. destruct (layout_ok_slot pc g k t layout Hg Ht) as (V & ? & ? & ?).
    split; [exact V|]. right. simpl. replace (_ - pinmux_base_g) with (sl_addr t) by lia. lia. }
  destruct r; simpl in Hs.
  - unfold get_pinmux_base in Hs. destruct (pinmux_field pc g) as [[a o]|] eqn:E; [|done].
    injection Hs as <-. apply (Pinmux false (Slot a o 4)); [simpl; by rewrite E|done].
  - destruct (get_gpio_base g) as [[a o]|] eqn:E; [|done]. injection Hs as <-.
    apply get_gpio_base_spec in E as (b & Hb & -> & Ho & _); [|lia]. unfold BCM2712_GIO_IODIR.
    split; [unfold slot_valid; simpl; lia|]. left. simpl.
    destruct Hb as [->| ->]; (split; [lia|split; [lia|]]); Z.to_euclidean_division_equations; lia.
  - destruct (get_gpio_base g) as [[a o]|] eqn:E; [|done]. injection Hs as <-.
    apply get_gpio_base_spec in E as (b & Hb & -> & Ho & _); [|lia]. unfold BCM2712_GIO_DATA.
    split; [unfold slot_valid; simpl; lia|]. left. simpl.
    destruct Hb as [->| ->]; (split; [lia|split; [lia|]]); Z.to_euclidean_division_equations; lia.
  - unfold get_pad_base in Hs. destruct (pad_field pc g) as [[a o]|] eqn:E; [|done].
    injection Hs as <-. apply (Pinmux true (Slot a o 2)); [simpl; by rewrite E|done].
Qed.

(** The shape of a slot by its kind. *)
Definition pinmux_kind (r : reg) : option bool :=
  match r with RSel => Some false | RPull => Some true | _ => None end.

Lemma slot_of_pinmux g r k s : pinmux_kind r = Some k -> slot_of g r = Some s ->
  exists t, rel_slot pc g k = Some t /\ s = Slot (pinmux_base_g + sl_addr t) (sl_off t) (sl_width t).
Proof.
  intros Hk Hs. destruct r; simpl in Hk; try done; injection Hk as <-; simpl in *;
    unfold get_pinmux_base, get_pad_base in Hs.
  - destruct (pinmux_field pc g) as [[a o]|]; [|done]. injection Hs as <-. by eexists.
  - destruct (pad_field pc g) as [[a o]|]; [|done]. injection Hs as <-. by eexists.
Qed.

Lemma slot_of_gpio g r s : pinmux_kind r = None -> 0 <= g -> slot_of g r = Some s ->
  exists b o, (b = 0 \/ b = 1) /\ 0 <= o < 32 /\ g = 32 * b + o /\
    s = Slot (gpio_base_g + b * 32 + (if decide (r = RDir) then 8 else 4)) o 1.
Proof.
  intros Hk Hg Hs. destruct r; simpl in Hk; try done; simpl in Hs;
    (destruct (get_gpio_base g) as [[a o]|] eqn:E; [|done]); injection Hs as <-;
    apply get_gpio_base_spec in E as (b & Hb & -> & Ho & Hgo); auto; exists b, o; auto.
Qed.

Lemma slots_of_apart g r s h q t :
  0 <= g < gpio_max pc -> 0 <= h < gpio_max pc -> slot_of g r = Some s -> slot_of h q = Some t ->
  (g, r) <> (h, q) -> slots_apart s t.
Proof.
  intros Hg Hh Hs Ht Hne. pose proof layout_sizes as (_ & GS & _ & _).
  destruct (pinmux_kind r) as [k|] eqn:Kr, (pinmux_kind q) as [l|] eqn:Kq.
  - destruct (slot_of_pinmux g r k s Kr Hs) as (s' & Hs' & ->).
    destruct (slot_of_pinmux h q l t Kq Ht) as (t' & Ht' & ->).
    assert (A : slots_apart s' t').
    { apply (layout_ok_apart pc g k s' h l t' layout Hg Hh Hs' Ht'). intros [= -> ->].
      apply Hne. f_equal. destruct r, q; simpl in *; congruence. }
    unfold slots_apart in *; simpl. lia.
  - destruct (slot_of_pinmux g r k s Kr Hs) as (s' & Hs' & ->).
    destruct (slot_of_gpio h q t Kq ltac:(lia) Ht) as (b & o & Hb & Ho & _ & ->).
    destruct (layout_ok_slot pc g k s' layout Hg Hs') as (_ & ? & ? & _).
    left. simpl. pose proof (blocks_apart dev). destruct (decide _); lia.
  - destruct (slot_of_gpio g r s Kr ltac:(lia) Hs) as (b & o & Hb & Ho & _ & ->).
    destruct (slot_of_pinmux h q l t Kq Ht) as (t' & Ht' & ->).
    destruct (layout_ok_slot pc h l t' layout Hh Ht') as (_ & ? & ? & _).
    left. simpl. pose proof (blocks_apart dev). destruct (decide _); lia.
  - destruct (slot_of_gpio g r s Kr ltac:(lia) Hs) as (b & o & Hb & Ho & -> & ->).
    destruct (slot_of_gpio h q t Kq ltac:(lia) Ht) as (b' & o' & Hb' & Ho' & -> & ->).
    unfold slots_apart; simpl.
    destruct (decide (b = b')) as [->|?]; [destruct (decide (o = o')) as [->|?]|].
    + destruct r, q; simpl in *; try discriminate; simpl; try (exfalso; apply Hne; reflexivity); lia.
    + lia.
    + destruct (decide (r = RDir)), (decide (q = RDir)); lia.
Qed.

(** One write changes one field of one pin. *)
Definition width_of (r : reg) : Z := match r with RSel => 4 | RPull => 2 | _ => 1 end.

Lemma slot_of_width g r s : slot_of g r = Some s -> sl_width s = width_of r.
Proof.
  destruct r; simpl; intros Hs;
    match type of Hs with _ <$> ?o = _ => destruct o as [[? ?]|]; [|done] end; by injection Hs as <-.
Qed.

Lemma read_write_slot g r s x d :
  0 <= g < gpio_max pc -> slot_of g r = Some s -> 0 <= x < 2 ^ width_of r ->
  read_slot s (write_slot s x d) = x.
Proof.
  intros Hg Hs Hx. destruct (slot_of_valid g r s Hg Hs) as [(V1 & V2 & V3) M].
  rewrite <- (slot_of_width _ _ _ Hs) in Hx. pose proof (registers_plain dev) as P.
  pose proof (plain_range _ P (sl_addr s) d M). unfold read_slot, write_slot.
  rewrite (plain_same _ P) by (auto using field_put_range). by apply field_get_put.
Qed.

Lemma read_write_other g r s h q t x d :
  0 <= g < gpio_max pc -> 0 <= h < gpio_max pc -> slot_of g r = Some s -> slot_of h q = Some t ->
  (g, r) <> (h, q) -> 0 <= x < 2 ^ width_of r ->
  read_slot t (write_slot s x d) = read_slot t d.
Proof.
  intros Hg Hh Hs Ht Hne Hx. pose proof (slots_of_apart g r s h q t Hg Hh Hs Ht Hne) as A.
  destruct (slot_of_valid g r s Hg Hs) as [(V1 & V2 & V3) M].
  destruct (slot_of_valid h q t Hh Ht) as [(U1 & U2 & U3) N].
  rewrite <- (slot_of_width _ _ _ Hs) in Hx. pose proof (registers_plain dev) as P.
  pose proof (plain_range _ P (sl_addr s) d M). unfold read_slot, write_slot.
  destruct (Z.eq_dec (sl_addr s) (sl_addr t)) as [E|E].
  - rewrite <- E. rewrite (plain_same _ P) by (auto using field_put_range).
    apply field_get_put_other; auto. destruct A as [?|A]; [congruence|lia].
  - by rewrite (plain_other _ P (sl_addr s) (sl_addr t)).
Qed.

(** [d'] is [d] with one pin changed by [f]. *)
Definition pin_acts (g : Z) (d d' : D) (f : pin_state -> pin_state) : Prop :=
  pin_view g d' = f (pin_view g d) /\
  forall h, 0 <= h < gpio_max pc -> h <> g -> pin_view h d' = pin_view h d.

Lemma pin_acts_id g d : pin_acts g d d (fun s => s).
Proof. by split. Qed.

Lemma pin_acts_trans g d1 d2 d3 f k :
  pin_acts g d1 d2 f -> pin_acts g d2 d3 k -> pin_acts g d1 d3 (fun s => k (f s)).
Proof.
  intros [A1 A2] [B1 B2]. split; [by rewrite B1, A1|]. intros h Hh Hne. by rewrite B2, A2.
Qed.

Lemma pin_acts_ext g d d' f k :
  pin_acts g d d' f -> f (pin_view g d) = k (pin_view g d) -> pin_acts g d d' k.
Proof. intros [A1 A2] E. split; [by rewrite A1|done]. Qed.

Lemma write_slot_acts g r s x d :
  0 <= g < gpio_max pc -> slot_of g r = Some s -> 0 <= x < 2 ^ width_of r ->
  pin_acts g d (write_slot s x d) (put r x).
Proof.
  intros Hg Hs Hx.
  assert (F : forall h q, 0 <= h < gpio_max pc ->
    field_of h q (write_slot s x d) = if decide ((h, q) = (g, r)) then Some x else field_of h q d).
  { intros h q Hh. unfold field_of. destruct (decide _) as [[= -> ->]|Hne].
    - rewrite Hs. simpl. by rewrite (read_write_slot g r).
    - destruct (slot_of h q) as [t|] eqn:Et; [|done]. simpl. f_equal.
      apply (read_write_other g r s h q t); auto. }
  assert (S : is_Some (field_of g r d)) by (unfold field_of; rewrite Hs; by eexists).
  split.
  - unfold pin_view. rewrite !F by done. destruct S as [v S].
    destruct r; cbn [put p_sel p_dir p_data p_pull]; rewrite S;
      repeat match goal with |- context [decide ?P] => destruct (decide P); try congruence end; done.
  - intros h Hh Hne. unfold pin_view. rewrite !F by done.
    by rewrite !decide_False by congruence.
Qed.

(** ** The operations on a pin *)
Section pin.
Context (g : Z).
Hypothesis pin_ok : 0 <= g < gpio_max pc.

Lemma put_missing r x s :
  match r with RSel => p_sel s | RDir => p_dir s | RData => p_data s | RPull => p_pull s end = None ->
  put r x s = s.
Proof. destruct r, s; simpl; by intros ->. Qed.

Lemma get_dir_view d : (get_dir pc gpio_base_g g d =? DIR_OUTPUT) =
  match p_dir (pin_view g d) with Some 0 => true | _ => false end.
Proof.
  unfold get_dir, pin_view, field_of; cbn [p_dir slot_of].
  destruct (get_gpio_base g) as [[a o]|] eqn:E; [|done]. cbn.
  apply get_gpio_base_spec in E as (b & _ & _ & Ho & _); [|lia].
  unfold read_slot; cbn [sl_addr sl_off sl_width]. rewrite field_get_bit by lia.
  assert (2 ^ o < 4294967296) by (apply (Z.pow_lt_mono_r 2 o 32); lia).
  rewrite Z.shiftl_1_l, u32_id, land_pow2_test by lia.
  by destruct (Z.testbit _ o).
Qed.

Lemma get_fsel_view d : get_fsel pc gpio_base_g pinmux_base_g g d = fsel_shown (pin_view g d).
Proof.
  unfold get_fsel, fsel_shown. rewrite get_dir_view.
  assert (E : p_sel (pin_view g d) =
    (fun '(a, o) => field_get o 4 (in32 a d)) <$> get_pinmux_base pc pinmux_base_g g).
  { unfold pin_view, field_of; cbn [p_sel slot_of]. by destruct (get_pinmux_base _ _ _) as [[a o]|]. }
  rewrite E. destruct (get_pinmux_base _ _ _) as [[a o]|]; [|done].
  by destruct (p_dir (pin_view g d)) as [[]|].
Qed.

Lemma get_pull_view d : get_pull pc pinmux_base_g g d = pull_shown (pin_view g d).
Proof.
  unfold get_pull, pull_shown, pin_view, field_of; cbn [p_pull slot_of].
  by destruct (get_pad_base _ _ _) as [[a o]|].
Qed.

Lemma set_dir_acts dir d :
  pin_acts g d (set_dir pc gpio_base_g g dir d) (put RDir (if dir =? DIR_INPUT then 1 else 0)).
Proof.
  unfold set_dir. destruct (get_gpio_base g) as [[a o]|] eqn:E.
  - apply (write_slot_acts g RDir (Slot (a + BCM2712_GIO_IODIR) o 1)); auto.
    + simpl. by rewrite E.
    + simpl. destruct (dir =? DIR_INPUT); lia.
  - eapply pin_acts_ext; [apply pin_acts_id|]. rewrite put_missing; [done|].
    unfold pin_view, field_of; simpl. by rewrite E.
Qed.

Lemma set_drive_acts drive d : 0 <= drive <= 1 ->
  pin_acts g d (set_drive pc gpio_base_g g drive d) (put RData drive).
Proof.
  intros Hd. unfold set_drive. destruct (get_gpio_base g) as [[a o]|] eqn:E.
  - apply (write_slot_acts g RData (Slot (a + BCM2712_GIO_DATA) o 1)); auto.
    + simpl. by rewrite E.
    + simpl. lia.
  - eapply pin_acts_ext; [apply pin_acts_id|]. rewrite put_missing; [done|].
    unfold pin_view, field_of; simpl. by rewrite E.
Qed.

Lemma set_pull_acts pull d : 0 <= pull <= 2 ->
  pin_acts g d (set_pull pc pinmux_base_g g pull d) (put RPull pull).
Proof.
  intros Hp. unfold set_pull. destruct (get_pad_base pc pinmux_base_g g) as [[a o]|] eqn:E.
  - assert ((pull =? PULL_NONE) || (pull =? PULL_DOWN) || (pull =? PULL_UP) = true) as ->.
    { assert (pull = 0 \/ pull = 1 \/ pull = 2) as [->|[->| ->]] by lia; done. }
    apply (write_slot_acts g RPull (Slot a o 2)); auto.
    + simpl. by rewrite E.
    + simpl. lia.
  - eapply pin_acts_ext; [apply pin_acts_id|]. rewrite put_missing; [done|].
    unfold pin_view, field_of; simpl. by rewrite E.
Qed.

Lemma write_sel_acts a o x d : get_pinmux_base pc pinmux_base_g g = Some (a, o) -> 0 <= x < 16 ->
  pin_acts g d (out32 a (field_put o 4 x (in32 a d)) d) (put RSel x).
Proof.
  intros E Hx. apply (write_slot_acts g RSel (Slot a o 4)); auto. simpl. by rewrite E.
Qed.

Lemma set_fsel_acts func d : 0 <= func ->
  pin_acts g d (set_fsel pc gpio_base_g pinmux_base_g g func d) (spec_fsel func).
Proof.
  intros Hf. unfold set_fsel.
  assert (HS : p_sel (pin_view g d) =
    (fun '(a, o) => field_get o 4 (in32 a d)) <$> get_pinmux_base pc pinmux_base_g g).
  { unfold pin_view, field_of; cbn [p_sel slot_of]. by destruct (get_pinmux_base _ _ _) as [[a o]|]. }
  destruct (get_pinmux_base pc pinmux_base_g g) as [[a o]|] eqn:E.
  2: { eapply pin_acts_ext; [apply pin_acts_id|]. unfold spec_fsel. by rewrite HS. }
  change (p_sel (pin_view g d) = Some (field_get o 4 (in32 a d))) in HS.
  pose proof (fun x d Hx => write_sel_acts a o x d E Hx) as WS.
  destruct (func =? FUNC_IP) eqn:E1; zbool; [subst func|].
  { cbn [orb]. change (FUNC_IP =? FUNC_OP) with false. cbv iota.
    eapply pin_acts_ext; [eapply (pin_acts_trans g d _ _ (put RDir 1)); [apply (set_dir_acts DIR_INPUT)|apply WS; lia]|].
    unfold spec_fsel. rewrite HS. by rewrite Z.eqb_refl. }
  destruct (func =? FUNC_OP) eqn:E2; zbool; [subst func|].
  { cbn [orb]. eapply pin_acts_ext;
      [eapply (pin_acts_trans g d _ _ (put RDir 0)); [apply (set_dir_acts DIR_OUTPUT)|apply WS; lia]|].
    unfold spec_fsel. rewrite HS. done. }
  cbn [orb]. unfold spec_fsel. apply Z.eqb_neq in E1, E2.
  destruct (func =? FUNC_GP) eqn:E3; [|destruct (func <=? NUM_ALT_FUNCS) eqn:E4].
  - eapply pin_acts_ext; [apply WS; lia|]. by rewrite HS, E1, E2.
  - eapply pin_acts_ext; [apply WS; unfold NUM_ALT_FUNCS in E4; lia|]. by rewrite HS, E1, E2.
  - eapply pin_acts_ext; [apply pin_acts_id|]. by rewrite HS, E1, E2.
Qed.

Lemma gpio_set_acts func drive pull d :
  0 <= func -> pull = PULL_UNSET \/ 0 <= pull <= 2 -> drive = DRIVE_UNSET \/ 0 <= drive <= 1 ->
  let '(d', msg) := gpio_set pc gpio_base_g pinmux_base_g g func drive pull d in
  pin_acts g d d' (fun s => if in_bank pc g then spec_set func drive pull s else s) /\
  (msg = None <-> in_bank pc g && drive_refused func drive (pin_view g d) = false).
Proof.
  intros Hf Hp Hd. unfold gpio_set. destruct (in_bank pc g); cbn [negb andb];
    [|by split; [apply pin_acts_id|]].
  set (d1 := if func =? FUNC_UNSET then d else _).
  assert (A1 : pin_acts g d d1 (fun s => if func =? FUNC_UNSET then s else spec_fsel func s)).
  { unfold d1. destruct (func =? FUNC_UNSET); [apply pin_acts_id|by apply set_fsel_acts]. }
  clearbody d1. rewrite get_fsel_view. unfold spec_set, drive_refused. destruct (A1) as [V1 _].
  rewrite V1. destruct (negb (drive =? DRIVE_UNSET) && _) eqn:ER.
  { split; [|done]. eapply pin_acts_ext; [exact A1|]. cbv beta. by rewrite ER. }
  split; [|done].
  set (d2 := if drive =? DRIVE_UNSET then d1 else _).
  assert (A2 : pin_acts g d1 d2 (fun s => if drive =? DRIVE_UNSET then s else put RData drive s)).
  { unfold d2. destruct (drive =? DRIVE_UNSET) eqn:EU; zbool; [apply pin_acts_id|].
    apply set_drive_acts. destruct Hd; [done|lia]. }
  set (d3 := if pull =? PULL_UNSET then d2 else _).
  assert (A3 : pin_acts g d2 d3 (fun s => if pull =? PULL_UNSET then s else put RPull pull s)).
  { unfold d3. destruct (pull =? PULL_UNSET) eqn:EU; zbool; [apply pin_acts_id|].
    apply set_pull_acts. destruct Hp; [done|lia]. }
  eapply pin_acts_ext; [exact (pin_acts_trans _ _ _ _ _ _ (pin_acts_trans _ _ _ _ _ _ A1 A2) A3)|].
  cbv beta. by rewrite ER.
Qed.
End pin.

(** ** The loop and the command *)
Lemma mask_bit mask pin : 0 <= pin ->
  negb (Z.land mask (Z.shiftl 1 pin) =? 0) = Z.testbit mask pin.
Proof. intros Hp. rewrite Z.shiftl_1_l. by apply land_pow2_test. Qed.

(** What a "set" command does to a pin. *)
Definition set_pin (all : bool) (mask : Z) (s : settings) (pin : Z) (p : pin_state) : pin_state :=
  if in_bank pc pin && (all || Z.testbit mask pin)
  then spec_set (st_func s) (st_drive s) (st_pull s) p else p.

Lemma pin_loop_set n pin all mask s d out :
  settings_ok s -> 0 <= pin -> pin + Z.of_nat n = gpio_max pc ->
  forall h, 0 <= h < gpio_max pc ->
    pin_view h (fst (pin_loop pc gpio_base_g pinmux_base_g n pin all mask (Some s) d out)) =
    if pin <=? h then set_pin all mask s h (pin_view h d) else pin_view h d.
Proof.
  intros (Hf & Hpl & Hd).
  assert (Hdr : st_drive s = DRIVE_UNSET \/ 0 <= st_drive s <= 1)
    by (unfold DRIVE_LOW, DRIVE_HIGH in Hd; destruct Hd as [?|[->| ->]]; [by left|right; lia..]).
  revert pin d out; induction n as [|n IH]; intros pin d out Hp Hn h Hh.
  { simpl. by rewrite (proj2 (Z.leb_gt pin h)) by lia. }
  cbn [pin_loop]. rewrite mask_bit by done.
  destruct (all || Z.testbit mask pin) eqn:ES.
  - pose proof (gpio_set_acts pin ltac:(lia) (st_func s) (st_drive s) (st_pull s) d ltac:(lia) Hpl Hdr) as A.
    destruct (gpio_set _ _ _ pin _ _ _ d) as [d1 msg]. destruct A as [[A1 A2] _].
    rewrite IH by lia. destruct (decide (h = pin)) as [->|Hne].
    + rewrite (proj2 (Z.leb_gt (pin + 1) pin)), Z.leb_refl, A1 by lia.
      unfold set_pin. by rewrite ES, andb_true_r.
    + rewrite A2 by done. destruct (pin <=? h) eqn:E1, (pin + 1 <=? h) eqn:E2; zbool; try done; lia.
  - rewrite IH by lia. destruct (decide (h = pin)) as [->|Hne].
    + rewrite (proj2 (Z.leb_gt (pin + 1) pin)), Z.leb_refl by lia.
      unfold set_pin. by rewrite ES, andb_false_r.
    + destruct (pin <=? h) eqn:E1, (pin + 1 <=? h) eqn:E2; zbool; try done; lia.
Qed.

Lemma main_set_spec einval args all mask s d :
  0 <= gpio_max pc ->
  parse_args (read_pin_strtoul einval (gpio_max pc)) args = Ok (CmdSet all mask s) ->
  exists d' out, main pc gpio_base_g pinmux_base_g einval true true args d = Ok (d', out, EXIT_SUCCESS) /\
    forall pin, 0 <= pin < gpio_max pc -> pin_view pin d' = set_pin all mask s pin (pin_view pin d).
Proof.
  intros Hmax HA. destruct (parse_args_set_ok _ _ _ _ _ HA) as [Hs _]. unfold main. rewrite HA.
  cbn [res_bind andb].
  pose proof (pin_loop_set (Z.to_nat (gpio_max pc)) 0 all mask s d [] Hs ltac:(lia) ltac:(lia)) as L.
  destruct (pin_loop _ _ _ _ _ _ _ _ _ _) as [d' out]. exists d', out. split; [done|].
  intros pin Hpin. specialize (L pin Hpin). simpl in L. by rewrite (proj2 (Z.leb_le 0 pin)) in L by lia.
Qed.

(** ** "get" shows what "set" did *)
Lemma set_get_spec g func pull d :
  0 <= g < gpio_max pc -> in_bank pc g = true ->
  (0 <= func <= 8 \/ func = FUNC_IP \/ func = FUNC_OP \/ func = FUNC_GP) -> 0 <= pull <= 2 ->
  let d' := fst (gpio_set pc gpio_base_g pinmux_base_g g func DRIVE_UNSET pull d) in
  get_fsel pc gpio_base_g pinmux_base_g g d' =
    match pinmux_field pc g with
    | None => FUNC_NULL
    | Some _ => if (func =? 0) || (func =? FUNC_GP)
                then if get_dir pc gpio_base_g g d =? DIR_OUTPUT then FUNC_OP else FUNC_IP
                else func
    end /\
  get_pull pc pinmux_base_g g d' =
    match pad_field pc g with None => PULL_UNSET | Some _ => pull end.
Proof.
  intros Hg HB Hf Hp d'.
  assert (Hf' : 0 <= func) by (unfold FUNC_IP, FUNC_OP, FUNC_GP in Hf; lia).
  pose proof (gpio_set_acts g Hg func DRIVE_UNSET pull d Hf' (or_intror Hp) (or_introl eq_refl)) as A.
  subst d'. destruct (gpio_set _ _ _ _ _ _ _ _) as [d' msg]. destruct A as [[A1 _] _]. simpl.
  rewrite get_fsel_view, get_pull_view, get_dir_view, A1, HB by done.
  assert (ES : is_Some (p_sel (pin_view g d)) <-> is_Some (pinmux_field pc g)).
  { unfold pin_view, field_of; cbn [p_sel slot_of]. unfold get_pinmux_base. by rewrite !fmap_is_Some. }
  assert (EP : is_Some (p_pull (pin_view g d)) <-> is_Some (pad_field pc g)).
  { unfold pin_view, field_of; cbn [p_pull slot_of]. unfold get_pad_base. by rewrite !fmap_is_Some. }
  assert (ED : p_dir (pin_view g d) <> None).
  { unfold pin_view, field_of; cbn [p_dir slot_of]. unfold Pinctrl.get_gpio_base. by rewrite HB. }
  destruct (pin_view g d) as [sel [dir|] dat pl]; [clear ED|done]. cbn [p_sel p_pull p_dir] in *.
  assert (Hpu : pull = 0 \/ pull = 1 \/ pull = 2) by lia.
  unfold FUNC_IP, FUNC_OP, FUNC_GP in Hf.
  assert (func = 0 \/ func = 1 \/ func = 2 \/ func = 3 \/ func = 4 \/ func = 5 \/ func = 6 \/
    func = 7 \/ func = 8 \/ func = 20 \/ func = 21 \/ func = 22) as Hfs by lia.
  destruct sel as [sel|]; [destruct (proj1 ES ltac:(by eexists)) as [? ->]
    |destruct (pinmux_field pc g); [by destruct (proj2 ES ltac:(by eexists))|]];
  (destruct pl as [pl|]; [destruct (proj1 EP ltac:(by eexists)) as [? ->]
    |destruct (pad_field pc g); [by destruct (proj2 EP ltac:(by eexists))|]]);
  clear -Hpu Hfs; (destruct Hpu as [->|[->| ->]]);
    repeat (destruct Hfs as [->|Hfs]; [split; by destruct dir|]); subst func; split; by destruct dir.
Qed.
End spec.
