(* ===== verification/GpioBcm.v ===== *)
(** * gpio-bcm/gpio.c: the main pin controller of the BCM2712

    The layout of its registers on the C1 and D0 steppings, as get_pinmux_base
    and get_pad_base compute it, for the program of [Pinctrl.v]; then the
    tool's operations and its theorems. *)
From S2P Require Import Prelude Gpio GpioTables Pinctrl.
Open Scope Z_scope.

Definition BCM2712_GPIO_BASE : Z := 70821905664.
Definition BCM2712_GPIO_SIZE : Z := 64.
Definition BCM2712_GPIO_NUM : Z := 36.
Definition BCM2712_PINMUX_BASE : Z := 70821888256.
Definition BCM2712_PINMUX_SIZE : Z := 48.
Definition BCM2712D0_PINMUX_SIZE : Z := 32.
Definition gpio_bank_widths : list Z := [32; 4].

(** [fdt]: the device tree of the asinfo entry "fdt", when it is there, can be
    mapped and its header is good. *)
Definition check_bcm2712_stepping {F} `{Libfdt F} (fdt : option F) : stepping :=
  match fdt with
  | None => STEPPING_C1
  | Some f =>
      if 0 <=? fdt_node_offset_by_compatible f 0 "brcm,bcm2712d0-pinctrl"
      then STEPPING_D0 else STEPPING_C1
  end.

Definition pinmux_size (st : stepping) : Z :=
  match st with STEPPING_D0 => BCM2712D0_PINMUX_SIZE | STEPPING_C1 => BCM2712_PINMUX_SIZE end.

(** The number of the pin in the C0 numbering of the pinmux and pad registers. *)
Definition gpio_new (st : stepping) (gpio : Z) : Z :=
  match st with
  | STEPPING_D0 => default GPIO_UNKNOWN (gpio_bcm_d0_to_c0 !! Z.to_nat gpio)
  | STEPPING_C1 => gpio
  end.

Definition new_in_bank (st : stepping) (gpio : Z) : bool :=
  if gpio_new st gpio =? GPIO_UNKNOWN then false
  else if GPIO_BANK_NUM <=? gpio_new st gpio / 32 then false
  else gpio_new st gpio mod 32 <? default 0 (gpio_bank_widths !! Z.to_nat (gpio_new st gpio / 32)).

(** get_pinmux_base: the register's offset in the block, the field's in it. *)
Definition pinmux_field (st : stepping) (gpio : Z) : option (Z * Z) :=
  if new_in_bank st gpio then
    let bank := gpio_new st gpio / 32 in
    let gpio_offset := gpio_new st gpio mod 32 in
    Some (bank * 4 * 4 + gpio_offset / 8 * 4, gpio_offset mod 8 * 4)
  else None.

(** get_pad_base, likewise. *)
Definition pad_field (st : stepping) (gpio : Z) : option (Z * Z) :=
  if new_in_bank st gpio then
    let gpio_offset := gpio_new st gpio + match st with STEPPING_D0 => 65 | STEPPING_C1 => 112 end in
    Some (gpio_offset / 15 * 4, gpio_offset mod 15 * 2)
  else None.

Definition fsel_names (st : stepping) : list string :=
  match st with STEPPING_D0 => gpio_bcm_d0_fsel_names | STEPPING_C1 => gpio_bcm_fsel_names end.

(** The rows of print_funcs name a D0 pin from the C1 table and a C1 pin from
    the D0 table. *)
Definition funcs_names (st : stepping) : list string :=
  match st with STEPPING_D0 => bcm2712_gpio_fdt_names | STEPPING_C1 => bcm2712_d0_gpio_fdt_names end.

Definition get_names (st : stepping) : list string :=
  match st with STEPPING_D0 => bcm2712_d0_gpio_fdt_names | STEPPING_C1 => bcm2712_gpio_fdt_names end.

(** gpio_get's test for a pin D0 does not have. *)
Definition pin_unknown (st : stepping) (pinnum : Z) : bool :=
  match st with
  | STEPPING_D0 => default 0 (gpio_bcm_d0_to_c0 !! Z.to_nat pinnum) =? GPIO_UNKNOWN
  | STEPPING_C1 => false
  end.

Definition funcs_header : list string := [
  "GPIO Name           ALT1                    ALT2              ALT3              ALT4               ALT5                   ALT6                   ALT7            ALT8          ";
  "---- -------------- ----------------------- ----------------- ----------------- ------------------ ---------------------- ---------------------- --------------- --------------"
]%string.

Definition bcm (st : stepping) : pinctrl := {|
  gpio_max := BCM2712_GPIO_NUM;
  Pinctrl.gpio_bank_widths := gpio_bank_widths;
  gpio_size := BCM2712_GPIO_SIZE;
  Pinctrl.pinmux_size := pinmux_size st;
  Pinctrl.pinmux_field := pinmux_field st;
  Pinctrl.pad_field := pad_field st;
  Pinctrl.fsel_names := fsel_names st;
  Pinctrl.funcs_names := funcs_names st;
  Pinctrl.get_names := get_names st;
  Pinctrl.pin_unknown := pin_unknown st;
  Pinctrl.funcs_header := funcs_header;
  funcs_name_width := 14;
  funcs_alt_widths := [23; 17; 17; 18; 22; 22; 15; 14]%nat
|}.

(** ** The operations of the tool *)
Section tool.
Context (st : stepping) {D : Type} `{Mmio D} (gpio_base_g pinmux_base_g : Z).

Definition get_gpio_base (gpio : Z) : option (Z * Z) := Pinctrl.get_gpio_base (bcm st) gpio_base_g gpio.
Definition get_pinmux_base (gpio : Z) : option (Z * Z) := Pinctrl.get_pinmux_base (bcm st) pinmux_base_g gpio.
Definition get_pad_base (gpio : Z) : option (Z * Z) := Pinctrl.get_pad_base (bcm st) pinmux_base_g gpio.
Definition set_dir (gpio dir : Z) (d : D) : D := Pinctrl.set_dir (bcm st) gpio_base_g gpio dir d.
Definition get_dir (gpio : Z) (d : D) : Z := Pinctrl.get_dir (bcm st) gpio_base_g gpio d.
Definition get_fsel (gpio : Z) (d : D) : Z := Pinctrl.get_fsel (bcm st) gpio_base_g pinmux_base_g gpio d.
Definition set_fsel (gpio func_type : Z) (d : D) : D :=
  Pinctrl.set_fsel (bcm st) gpio_base_g pinmux_base_g gpio func_type d.
Definition get_level (gpio : Z) (d : D) : Z := Pinctrl.get_level (bcm st) gpio_base_g gpio d.
Definition set_drive (gpio drive : Z) (d : D) : D := Pinctrl.set_drive (bcm st) gpio_base_g gpio drive d.
Definition gpio_fsel_to_namestr (gpio fsel : Z) (name_size : nat) : option string :=
  Pinctrl.gpio_fsel_to_namestr (bcm st) gpio fsel name_size.
Definition set_pull (gpio pull_type : Z) (d : D) : D :=
  Pinctrl.set_pull (bcm st) pinmux_base_g gpio pull_type d.
Definition get_pull (gpio : Z) (d : D) : Z := Pinctrl.get_pull (bcm st) pinmux_base_g gpio d.
Definition gpio_get (pinnum : Z) (d : D) : option string :=
  Pinctrl.gpio_get (bcm st) gpio_base_g pinmux_base_g pinnum d.
Definition gpio_set (pinnum func_sel drive pull : Z) (d : D) : D * option string :=
  Pinctrl.gpio_set (bcm st) gpio_base_g pinmux_base_g pinnum func_sel drive pull d.
Definition print_funcs (all_pins : bool) (pin_mask : Z) : list string :=
  Pinctrl.print_funcs (bcm st) all_pins pin_mask.
End tool.

(** check_bcm2712_stepping runs once the pin list is parsed; nothing before it
    depends on the stepping.  The initial stepping is C1. *)
Definition main {D F : Type} `{Mmio D} `{Libfdt F} (fdt : option F) (gpio_base_g pinmux_base_g : Z)
    (einval gpio_mapped pinmux_mapped : bool) (args : list string) (d : D)
    : res (D * list string * exit_code) :=
  Pinctrl.main (bcm (check_bcm2712_stepping fdt)) gpio_base_g pinmux_base_g
    einval gpio_mapped pinmux_mapped args d.

(** ** Layouts *)
Lemma bcm_layout st : layout_ok (bcm st) = true.
Proof. destruct st; vm_compute; reflexivity. Qed.

Lemma bcm_max st : gpio_max (bcm st) = 36.
Proof. done. Qed.

(** ** Theorems *)
Section theorems.
Context {D : Type} `{Mmio D} (gpio_base_g pinmux_base_g : Z).

(** One pin, gpio-bcm: On both steppings gpio_set does to its pin exactly
    what the contract says for the function, drive and pull options; it
    complains exactly when a drive value is refused, and then leaves the pull
    alone; a number that is no pin changes nothing; and the other pins of the
    register are never disturbed. *)
Theorem bcm_gpio_set_refines (st : stepping) (gpio func drive pull : Z) (d : D) :
  pinctrl_device (bcm st) gpio_base_g pinmux_base_g -> 0 <= gpio < 36 -> 0 <= func ->
  pull = PULL_UNSET \/ 0 <= pull <= 2 -> drive = DRIVE_UNSET \/ 0 <= drive <= 1 ->
  let view := pin_view (bcm st) gpio_base_g pinmux_base_g in
  let '(d', msg) := gpio_set st gpio_base_g pinmux_base_g gpio func drive pull d in
  view gpio d' = (if in_bank (bcm st) gpio then spec_set func drive pull (view gpio d)
                  else view gpio d) /\
  (forall h, 0 <= h < 36 -> h <> gpio -> view h d' = view h d) /\
  (msg = None <-> in_bank (bcm st) gpio && drive_refused func drive (view gpio d) = false).
Proof.
  intros Dev Hg Hf Hp Hd. cbv zeta. unfold gpio_set.
  pose proof (gpio_set_acts _ _ _ Dev (bcm_layout st) gpio Hg func drive pull d Hf Hp Hd) as A.
  destruct (Pinctrl.gpio_set _ _ _ _ _ _ _ _) as [d' msg]. destruct A as [[A1 A2] A3]. auto.
Qed.

(** A "set" command, gpio-bcm: When the arguments parse as a "set" command,
    and the two blocks can be mapped, main succeeds, and on the stepping the
    device tree shows every pin of the list that exists, and no other, ends up
    as the options say. *)
Theorem bcm_main_set {F} `{Libfdt F} (fdt : option F) (einval : bool) (args : list string)
    (all : bool) (mask : Z) (s : settings) (d : D) :
  let st := check_bcm2712_stepping fdt in
  pinctrl_device (bcm st) gpio_base_g pinmux_base_g ->
  parse_args (read_pin_strtoul einval 36) args = Ok (CmdSet all mask s) ->
  exists d' out,
    main fdt gpio_base_g pinmux_base_g einval true true args d = Ok (d', out, EXIT_SUCCESS) /\
    forall pin, 0 <= pin < 36 ->
      pin_view (bcm st) gpio_base_g pinmux_base_g pin d' =
      set_pin (bcm st) all mask s pin (pin_view (bcm st) gpio_base_g pinmux_base_g pin d).
Proof.
  intros st Dev HA. unfold main. fold st.
  by apply (main_set_spec _ _ _ Dev (bcm_layout st)).
Qed.

(** Get shows what set did, gpio-bcm. After a function and a pull are set on
    a pin, the tool reports that function (the pin's direction for "gp" and
    "a0") and that pull; on a pin the stepping does not have it reports none. *)
Theorem bcm_set_get_roundtrip (st : stepping) (gpio func pull : Z) (d : D) :
  pinctrl_device (bcm st) gpio_base_g pinmux_base_g -> 0 <= gpio < 36 ->
  in_bank (bcm st) gpio = true ->
  (0 <= func <= 8 \/ func = FUNC_IP \/ func = FUNC_OP \/ func = FUNC_GP) -> 0 <= pull <= 2 ->
  let d' := fst (gpio_set st gpio_base_g pinmux_base_g gpio func DRIVE_UNSET pull d) in
  get_fsel st gpio_base_g pinmux_base_g gpio d' =
    match pinmux_field st gpio with
    | None => FUNC_NULL
    | Some _ => if (func =? 0) || (func =? FUNC_GP)
                then if get_dir st gpio_base_g gpio d =? DIR_OUTPUT then FUNC_OP else FUNC_IP
                else func
    end /\
  get_pull st pinmux_base_g gpio d' =
    match pad_field st gpio with None => PULL_UNSET | Some _ => pull end.
Proof. intros Dev Hg. by apply set_get_spec; [|apply bcm_layout|]. Qed.

(** The layout, gpio-bcm: On both steppings the function field and the
    pull field of every pin lie in the mapped block, in a word-aligned register
    and inside its word, and no two of them have a bit in common. *)
Theorem bcm_fields_apart (st : stepping) (g h : Z) (k l : bool) (s t : slot) :
  0 <= g < 36 -> 0 <= h < 36 ->
  rel_slot (bcm st) g k = Some s -> rel_slot (bcm st) h l = Some t ->
  (slot_valid s /\ 0 <= sl_addr s /\ sl_addr s + 4 <= pinmux_size st /\ sl_addr s mod 4 = 0) /\
  ((g, k) <> (h, l) -> slots_apart s t).
Proof.
  intros Hg Hh Hs Ht. split.
  - exact (layout_ok_slot _ g k s (bcm_layout st) Hg Hs).
  - exact (layout_ok_apart _ g k s h l t (bcm_layout st) Hg Hh Hs Ht).
Qed.
End theorems.

(** ** A device: two blocks of plain registers, and a device tree with one
    node per compatible string *)
#[local] Instance plain_sim : Mmio (Z -> Z) := {
  in32 a m := u32 (m a);
  out32 a v m := fun x => if x =? a then v else m x
}.

#[local] Instance list_fdt : Libfdt (list string) := {
  fdt_node_offset_by_compatible f from name :=
    if existsb (String.eqb name) f then 8 else -1;
  fdt_get_property f node name := None
}.

Lemma bcm_sim_device st : pinctrl_device (D := Z -> Z) (bcm st) BCM2712_GPIO_BASE BCM2712_PINMUX_BASE.
Proof.
  constructor.
  - right. destruct st; vm_compute; discriminate.
  - constructor.
    + intros a d _. apply u32_range.
    + intros a v d _ Hv. simpl. rewrite Z.eqb_refl. by apply u32_id.
    + intros a b v d _ _ Hne. simpl. by rewrite (proj2 (Z.eqb_neq b a)) by auto.
Qed.

Definition sim_reset : Z -> Z := fun _ => 0.

Lemma bcm_gpio_set_refines_witness :
  let '(d', msg) := gpio_set STEPPING_D0 BCM2712_GPIO_BASE BCM2712_PINMUX_BASE 20 FUNC_OP DRIVE_HIGH PULL_UP sim_reset in
  msg = None /\ pin_view (bcm STEPPING_D0) BCM2712_GPIO_BASE BCM2712_PINMUX_BASE 20 d' =
    PinState (Some 0) (Some 0) (Some 1) (Some 2).
Proof.
  pose proof (bcm_gpio_set_refines BCM2712_GPIO_BASE BCM2712_PINMUX_BASE STEPPING_D0 20 FUNC_OP DRIVE_HIGH PULL_UP
    sim_reset (bcm_sim_device STEPPING_D0) ltac:(lia) ltac:(unfold FUNC_OP; lia)
    ltac:(right; unfold PULL_UP; lia) ltac:(right; unfold DRIVE_HIGH; lia)) as A.
  cbv zeta in A. destruct (gpio_set _ _ _ _ _ _ _ _) as [d' msg]. destruct A as (V & _ & M).
  split; [apply M; vm_compute; reflexivity|]. rewrite V. vm_compute. reflexivity.
Defined.

Lemma bcm_main_set_witness :
  exists d' out, main (Some ["brcm,bcm2712d0-pinctrl"]%string) BCM2712_GPIO_BASE BCM2712_PINMUX_BASE
      false true true ["set"; "20-22,33"; "op"; "pd"]%string sim_reset = Ok (d', out, EXIT_SUCCESS) /\
    p_pull (pin_view (bcm STEPPING_D0) BCM2712_GPIO_BASE BCM2712_PINMUX_BASE 20 d') = Some 1 /\
    p_pull (pin_view (bcm STEPPING_D0) BCM2712_GPIO_BASE BCM2712_PINMUX_BASE 1 d') = Some 0.
Proof.
  destruct (bcm_main_set BCM2712_GPIO_BASE BCM2712_PINMUX_BASE (Some ["brcm,bcm2712d0-pinctrl"]%string) false
    ["set"; "20-22,33"; "op"; "pd"]%string false 8597274624 (Settings FUNC_OP DRIVE_UNSET PULL_DOWN)
    sim_reset (bcm_sim_device _) ltac:(vm_compute; reflexivity)) as (d' & out & E & V).
  exists d', out. split; [exact E|].
  change (check_bcm2712_stepping (Some ["brcm,bcm2712d0-pinctrl"]%string)) with STEPPING_D0 in V.
  rewrite !V by lia. vm_compute. split; reflexivity.
Defined.

Lemma bcm_set_get_roundtrip_witness :
  let d' := fst (gpio_set STEPPING_C1 BCM2712_GPIO_BASE BCM2712_PINMUX_BASE 33 3 DRIVE_UNSET PULL_DOWN sim_reset) in
  get_fsel STEPPING_C1 BCM2712_GPIO_BASE BCM2712_PINMUX_BASE 33 d' = 3 /\
  get_pull STEPPING_C1 BCM2712_PINMUX_BASE 33 d' = PULL_DOWN.
Proof.
  exact (bcm_set_get_roundtrip BCM2712_GPIO_BASE BCM2712_PINMUX_BASE STEPPING_C1 33 3 PULL_DOWN sim_reset
    (bcm_sim_device STEPPING_C1) ltac:(lia) ltac:(vm_compute; reflexivity) ltac:(lia)
    ltac:(unfold PULL_DOWN; lia)).
Defined.

Lemma bcm_fields_apart_witness :
  slots_apart (Slot 20 4 2) (Slot 20 6 2).
Proof.
  apply (bcm_fields_apart STEPPING_D0 20 21 true true (Slot 20 4 2) (Slot 20 6 2));
    [lia|lia|vm_compute; reflexivity|vm_compute; reflexivity|discriminate].
Defined.
