(* ===== verification/GpioAon.v ===== *)
(** * gpio-aon-bcm/gpio.c: the always-on pin controller of the BCM2712

    The layout of its registers on the C1 and D0 steppings, for the program of
    [Pinctrl.v]; then the tool's operations and its theorems.  The second bank
    has no pads, and its last two pins a pinmux register each. *)
From S2P Require Import Prelude Gpio GpioTables Pinctrl.
Open Scope Z_scope.

Definition BCM2712_AON_GPIO_BASE : Z := 70821968896.
Definition BCM2712_AON_GPIO_SIZE : Z := 64.
Definition BCM2712_AON_GPIO_NUM : Z := 38.
Definition BCM2712D0_AON_GPIO_BANK0_GPIO : Z := 15.
Definition BCM2712_AON_PINMUX_BASE : Z := 70821938944.
Definition BCM2712_AON_PINMUX_SIZE : Z := 520.
Definition BCM2712D0_AON_PINMUX_SIZE : Z := 456.

(** check_bcm2712_stepping narrows the first bank when it finds a D0. *)
Definition gpio_bank_widths (st : stepping) : list Z :=
  [match st with STEPPING_D0 => BCM2712D0_AON_GPIO_BANK0_GPIO | STEPPING_C1 => 17 end; 6].

(** The first cell of a property of two cells. *)
Definition cell_pair {F} `{Libfdt F} (f : F) (node : Z) (name : string) : option Z :=
  match fdt_get_property f node name with
  | Some (8, c :: _) => Some c
  | _ => None
  end.

(** The loop over the "brcm,brcmstb-gpio" nodes. *)
Fixpoint find_d0_gpio {F} `{Libfdt F} (f : F) (n : nat) (node_offset : Z) : bool :=
  match n with
  | O => false
  | S n' =>
      let node_offset := fdt_node_offset_by_compatible f node_offset "brcm,brcmstb-gpio" in
      (0 <=? node_offset)
      && bool_decide (cell_pair f node_offset "reg" = Some (u32 BCM2712_AON_GPIO_BASE))
      && bool_decide (cell_pair f node_offset "brcm,gpio-bank-widths" = Some 15)
      || find_d0_gpio f n' node_offset
  end.

(** [fdt]: the device tree of the asinfo entry "fdt", when it is there, can be
    mapped and its header is good. *)
Definition check_bcm2712_stepping {F} `{Libfdt F} (fdt : option F) : stepping :=
  match fdt with
  | None => STEPPING_C1
  | Some f =>
      if (0 <=? fdt_node_offset_by_compatible f 0 "brcm,bcm2712d0-aon-pinctrl")
         || find_d0_gpio f 2 (-1)
      then STEPPING_D0 else STEPPING_C1
  end.

Definition pinmux_size (st : stepping) : Z :=
  match st with STEPPING_D0 => BCM2712D0_AON_PINMUX_SIZE | STEPPING_C1 => BCM2712_AON_PINMUX_SIZE end.

(** The number of the pin in the C0 numbering of the pinmux and pad registers. *)
Definition gpio_new (st : stepping) (gpio : Z) : Z :=
  match st with
  | STEPPING_D0 => default GPIO_UNKNOWN (gpio_aon_bcm_d0_to_c0 !! Z.to_nat gpio)
  | STEPPING_C1 => gpio
  end.

Definition new_in_bank (st : stepping) (gpio : Z) : bool :=
  if gpio_new st gpio =? GPIO_UNKNOWN then false
  else if GPIO_BANK_NUM <=? gpio_new st gpio / 32 then false
  else gpio_new st gpio mod 32 <? default 0 (gpio_bank_widths st !! Z.to_nat (gpio_new st gpio / 32)).

(** get_pinmux_base: the register's offset in the block, the field's in it. *)
Definition pinmux_field (st : stepping) (gpio : Z) : option (Z * Z) :=
  if new_in_bank st gpio then
    let gpio_offset := gpio_new st gpio mod 32 in
    if gpio_new st gpio / 32 =? 1 then
      if gpio_offset =? 4 then Some (4, 0)
      else if gpio_offset =? 5 then Some (2 * 4, 0)
      else Some (0, gpio_offset * 4)
    else Some (3 * 4 + gpio_offset / 8 * 4, gpio_offset mod 8 * 4)
  else None.

(** get_pad_base, likewise: no pad in the second bank. *)
Definition pad_field (st : stepping) (gpio : Z) : option (Z * Z) :=
  if new_in_bank st gpio && (gpio_new st gpio / 32 =? 0) then
    let gpio_offset := gpio_new st gpio + match st with STEPPING_D0 => 84 | STEPPING_C1 => 100 end in
    Some (gpio_offset / 15 * 4, gpio_offset mod 15 * 2)
  else None.

Definition fsel_names (st : stepping) : list string :=
  match st with
  | STEPPING_D0 => bcm2712_d0_aon_gpio_fsel_names
  | STEPPING_C1 => bcm2712_aon_gpio_fsel_names
  end.

(** gpio_get's test for a pin D0 does not have. *)
Definition pin_unknown (st : stepping) (pinnum : Z) : bool :=
  match st with
  | STEPPING_D0 => default 0 (gpio_aon_bcm_d0_to_c0 !! Z.to_nat pinnum) =? GPIO_UNKNOWN
  | STEPPING_C1 => false
  end.

Definition funcs_header : list string := [
  "GPIO Name          ALT1             ALT2                  ALT3              ALT4               ALT5           ALT6             ALT7           ALT8         ";
  "---- ------------- ---------------- --------------------- ----------------- ------------------ -------------- ---------------- -------------- -------------"
]%string.

Definition aon (st : stepping) : pinctrl := {|
  gpio_max := BCM2712_AON_GPIO_NUM;
  Pinctrl.gpio_bank_widths := gpio_bank_widths st;
  gpio_size := BCM2712_AON_GPIO_SIZE;
  Pinctrl.pinmux_size := pinmux_size st;
  Pinctrl.pinmux_field := pinmux_field st;
  Pinctrl.pad_field := pad_field st;
  Pinctrl.fsel_names := fsel_names st;
  funcs_names := bcm2712_aon_gpio_fdt_names;
  get_names := bcm2712_aon_gpio_fdt_names;
  Pinctrl.pin_unknown := pin_unknown st;
  Pinctrl.funcs_header := funcs_header;
  funcs_name_width := 13;
  funcs_alt_widths := [16; 21; 17; 18; 14; 16; 14; 13]%nat
|}.

(** ** The operations of the tool *)
Section tool.
Context (st : stepping) {D : Type} `{Mmio D} (gpio_base_g pinmux_base_g : Z).

Definition get_gpio_base (gpio : Z) : option (Z * Z) := Pinctrl.get_gpio_base (aon st) gpio_base_g gpio.
Definition get_pinmux_base (gpio : Z) : option (Z * Z) := Pinctrl.get_pinmux_base (aon st) pinmux_base_g gpio.
Definition get_pad_base (gpio : Z) : option (Z * Z) := Pinctrl.get_pad_base (aon st) pinmux_base_g gpio.
Definition set_dir (gpio dir : Z) (d : D) : D := Pinctrl.set_dir (aon st) gpio_base_g gpio dir d.
Definition get_dir (gpio : Z) (d : D) : Z := Pinctrl.get_dir (aon st) gpio_base_g gpio d.
Definition get_fsel (gpio : Z) (d : D) : Z := Pinctrl.get_fsel (aon st) gpio_base_g pinmux_base_g gpio d.
Definition set_fsel (gpio func_type : Z) (d : D) : D :=
  Pinctrl.set_fsel (aon st) gpio_base_g pinmux_base_g gpio func_type d.
Definition get_level (gpio : Z) (d : D) : Z := Pinctrl.get_level (aon st) gpio_base_g gpio d.
Definition set_drive (gpio drive : Z) (d : D) : D := Pinctrl.set_drive (aon st) gpio_base_g gpio drive d.
Definition gpio_fsel_to_namestr (gpio fsel : Z) (name_size : nat) : option string :=
  Pinctrl.gpio_fsel_to_namestr (aon st) gpio fsel name_size.
Definition set_pull (gpio pull_type : Z) (d : D) : D :=
  Pinctrl.set_pull (aon st) pinmux_base_g gpio pull_type d.
Definition get_pull (gpio : Z) (d : D) : Z := Pinctrl.get_pull (aon st) pinmux_base_g gpio d.
Definition gpio_get (pinnum : Z) (d : D) : option string :=
  Pinctrl.gpio_get (aon st) gpio_base_g pinmux_base_g pinnum d.
Definition gpio_set (pinnum func_sel drive pull : Z) (d : D) : D * option string :=
  Pinctrl.gpio_set (aon st) gpio_base_g pinmux_base_g pinnum func_sel drive pull d.
Definition print_funcs (all_pins : bool) (pin_mask : Z) : list string :=
  Pinctrl.print_funcs (aon st) all_pins pin_mask.
End tool.

(** check_bcm2712_stepping runs once the pin list is parsed; nothing before it
    depends on the stepping.  The initial stepping is C1. *)
Definition main {D F : Type} `{Mmio D} `{Libfdt F} (fdt : option F) (gpio_base_g pinmux_base_g : Z)
    (einval gpio_mapped pinmux_mapped : bool) (args : list string) (d : D)
    : res (D * list string * exit_code) :=
  Pinctrl.main (aon (check_bcm2712_stepping fdt)) gpio_base_g pinmux_base_g
    einval gpio_mapped pinmux_mapped args d.

(** ** Layouts *)
Lemma aon_layout st : layout_ok (aon st) = true.
Proof. destruct st; vm_compute; reflexivity. Qed.

Lemma aon_max st : gpio_max (aon st) = 38.
Proof. done. Qed.

(** ** Theorems *)
Section theorems.
Context {D : Type} `{Mmio D} (gpio_base_g pinmux_base_g : Z).

(** One pin, gpio-aon-bcm. On both steppings gpio_set does to its pin exactly
    what the contract says for the function, drive and pull options; it
    complains exactly when a drive value is refused, and then leaves the pull
    alone; a number that is no pin changes nothing; and the other pins of the
    register are never disturbed. *)
Theorem aon_gpio_set_refines (st : stepping) (gpio func drive pull : Z) (d : D) :
  pinctrl_device (aon st) gpio_base_g pinmux_base_g -> 0 <= gpio < 38 -> 0 <= func ->
  pull = PULL_UNSET \/ 0 <= pull <= 2 -> drive = DRIVE_UNSET \/ 0 <= drive <= 1 ->
  let view := pin_view (aon st) gpio_base_g pinmux_base_g in
  let '(d', msg) := gpio_set st gpio_base_g pinmux_base_g gpio func drive pull d in
  view gpio d' = (if in_bank (aon st) gpio then spec_set func drive pull (view gpio d)
                  else view gpio d) /\
  (forall h, 0 <= h < 38 -> h <> gpio -> view h d' = view h d) /\
  (msg = None <-> in_bank (aon st) gpio && drive_refused func drive (view gpio d) = false).
Proof.
  intros Dev Hg Hf Hp Hd. cbv zeta. unfold gpio_set.
  pose proof (gpio_set_acts _ _ _ Dev (aon_layout st) gpio Hg func drive pull d Hf Hp Hd) as A.
  destruct (Pinctrl.gpio_set _ _ _ _ _ _ _ _) as [d' msg]. destruct A as [[A1 A2] A3]. auto.
Qed.

(** A "set" command, gpio-aon-bcm. When the arguments parse as a "set" command,
    and the two blocks can be mapped, main succeeds, and on the stepping the
    device tree shows every pin of the list that exists, and no other, ends up
    as the options say. *)
Theorem aon_main_set {F} `{Libfdt F} (fdt : option F) (einval : bool) (args : list string)
    (all : bool) (mask : Z) (s : settings) (d : D) :
  let st := check_bcm2712_stepping fdt in
  pinctrl_device (aon st) gpio_base_g pinmux_base_g ->
  parse_args (read_pin_strtoul einval 38) args = Ok (CmdSet all mask s) ->
  exists d' out,
    main fdt gpio_base_g pinmux_base_g einval true true args d = Ok (d', out, EXIT_SUCCESS) /\
    forall pin, 0 <= pin < 38 ->
      pin_view (aon st) gpio_base_g pinmux_base_g pin d' =
      set_pin (aon st) all mask s pin (pin_view (aon st) gpio_base_g pinmux_base_g pin d).
Proof.
  intros st Dev HA. unfold main. fold st.
  by apply (main_set_spec _ _ _ Dev (aon_layout st)).
Qed.

(** Get shows what set did, gpio-aon-bcm: After a function and a pull are set on
    a pin, the tool reports that function (the pin's direction for "gp" and
    "a0") and that pull; on a pin the stepping does not have it reports none. *)
Theorem aon_set_get_roundtrip (st : stepping) (gpio func pull : Z) (d : D) :
  pinctrl_device (aon st) gpio_base_g pinmux_base_g -> 0 <= gpio < 38 ->
  in_bank (aon st) gpio = true ->
  (0 <= func <= 8 \/ func = FUNC_IP \/ func = FUNC_OP \/ func = FUNC_GP) -> 0 <= pull <= 2 ->
  let d' := fst (gpio_set st gpio_base_g pinmux_base_g gpio func DRIVE_UNSET pull d) in
  get_fsel st gpio_base_g pinmux_base_g gpio d' =
    match pinmux_field st gpio with
    | None => FUNC_NULL
    | Some _ => if (func =? 0) || (func =? FUNC_GP)
                then if get_dir st gpio_base_g gpio d =? DIR_OUTPUT then FUNC_OP else FUNC_IP
                else func
    end /\
  get_pull st pinmux_base_g gpio d' =
    match pad_field st gpio with None => PULL_UNSET | Some _ => pull end.
Proof. intros Dev Hg. by apply set_get_spec; [|apply aon_layout|]. Qed.

(** The layout, gpio-aon-bcm: On both steppings the function field and the
    pull field of every pin lie in the mapped block, in a word-aligned register
    and inside its word, and no two of them have a bit in common. *)
Theorem aon_fields_apart (st : stepping) (g h : Z) (k l : bool) (s t : slot) :
  0 <= g < 38 -> 0 <= h < 38 ->
  rel_slot (aon st) g k = Some s -> rel_slot (aon st) h l = Some t ->
  (slot_valid s /\ 0 <= sl_addr s /\ sl_addr s + 4 <= pinmux_size st /\ sl_addr s mod 4 = 0) /\
  ((g, k) <> (h, l) -> slots_apart s t).
Proof.
  intros Hg Hh Hs Ht. split.
  - exact (layout_ok_slot _ g k s (aon_layout st) Hg Hs).
  - exact (layout_ok_apart _ g k s h l t (aon_layout st) Hg Hh Hs Ht).
Qed.
End theorems.

(** ** A device: two blocks of plain registers, and a device tree with one
    node per compatible string *)
#[local] Instance plain_sim : Mmio (Z -> Z) := {
  in32 a m := u32 (m a);
  out32 a v m := fun x => if x =? a then v else m x
}.

#[local] Instance list_fdt : Libfdt (list string) := {
  fdt_node_offset_by_compatible f from name :=
    if existsb (String.eqb name) f then 8 else -1;
  fdt_get_property f node name := None
}.

Lemma aon_sim_device st : pinctrl_device (D := Z -> Z) (aon st) BCM2712_AON_GPIO_BASE BCM2712_AON_PINMUX_BASE.
Proof.
  constructor.
  - right. destruct st; vm_compute; discriminate.
  - constructor.
    + intros a d _. apply u32_range.
    + intros a v d _ Hv. simpl. rewrite Z.eqb_refl. by apply u32_id.
    + intros a b v d _ _ Hne. simpl. by rewrite (proj2 (Z.eqb_neq b a)) by auto.
Qed.

Definition sim_reset : Z -> Z := fun _ => 0.

Lemma aon_gpio_set_refines_witness :
  let '(d', msg) := gpio_set STEPPING_D0 BCM2712_AON_GPIO_BASE BCM2712_AON_PINMUX_BASE 12 FUNC_OP DRIVE_HIGH PULL_UP sim_reset in
  msg = None /\ pin_view (aon STEPPING_D0) BCM2712_AON_GPIO_BASE BCM2712_AON_PINMUX_BASE 12 d' =
    PinState (Some 0) (Some 0) (Some 1) (Some 2).
Proof.
  pose proof (aon_gpio_set_refines BCM2712_AON_GPIO_BASE BCM2712_AON_PINMUX_BASE STEPPING_D0 12 FUNC_OP DRIVE_HIGH PULL_UP
    sim_reset (aon_sim_device STEPPING_D0) ltac:(lia) ltac:(unfold FUNC_OP; lia)
    ltac:(right; unfold PULL_UP; lia) ltac:(right; unfold DRIVE_HIGH; lia)) as A.
  cbv zeta in A. destruct (gpio_set _ _ _ _ _ _ _ _) as [d' msg]. destruct A as (V & _ & M).
  split; [apply M; vm_compute; reflexivity|]. rewrite V. vm_compute. reflexivity.
Defined.

Lemma aon_main_set_witness :
  exists d' out, main (Some ["brcm,bcm2712d0-aon-pinctrl"]%string) BCM2712_AON_GPIO_BASE BCM2712_AON_PINMUX_BASE
      false true true ["set"; "12-14,33"; "op"; "pd"]%string sim_reset = Ok (d', out, EXIT_SUCCESS) /\
    p_pull (pin_view (aon STEPPING_D0) BCM2712_AON_GPIO_BASE BCM2712_AON_PINMUX_BASE 12 d') = Some 1 /\
    p_pull (pin_view (aon STEPPING_D0) BCM2712_AON_GPIO_BASE BCM2712_AON_PINMUX_BASE 1 d') = Some 0.
Proof.
  destruct (aon_main_set BCM2712_AON_GPIO_BASE BCM2712_AON_PINMUX_BASE (Some ["brcm,bcm2712d0-aon-pinctrl"]%string) false
    ["set"; "12-14,33"; "op"; "pd"]%string false 8589963264 (Settings FUNC_OP DRIVE_UNSET PULL_DOWN)
    sim_reset (aon_sim_device _) ltac:(vm_compute; reflexivity)) as (d' & out & E & V).
  exists d', out. split; [exact E|].
  change (check_bcm2712_stepping (Some ["brcm,bcm2712d0-aon-pinctrl"]%string)) with STEPPING_D0 in V.
  rewrite !V by lia. vm_compute. split; reflexivity.
Defined.

Lemma aon_set_get_roundtrip_witness :
  let d' := fst (gpio_set STEPPING_C1 BCM2712_AON_GPIO_BASE BCM2712_AON_PINMUX_BASE 36 3 DRIVE_UNSET PULL_DOWN sim_reset) in
  get_fsel STEPPING_C1 BCM2712_AON_GPIO_BASE BCM2712_AON_PINMUX_BASE 36 d' = 3 /\
  get_pull STEPPING_C1 BCM2712_AON_PINMUX_BASE 36 d' = PULL_UNSET.
Proof.
  exact (aon_set_get_roundtrip BCM2712_AON_GPIO_BASE BCM2712_AON_PINMUX_BASE STEPPING_C1 36 3 PULL_DOWN sim_reset
    (aon_sim_device STEPPING_C1) ltac:(lia) ltac:(vm_compute; reflexivity) ltac:(lia)
    ltac:(unfold PULL_DOWN; lia)).
Defined.

Lemma aon_fields_apart_witness :
  slots_apart (Slot 24 6 2) (Slot 24 8 2).
Proof.
  apply (aon_fields_apart STEPPING_D0 12 13 true true (Slot 24 6 2) (Slot 24 8 2));
    [lia|lia|vm_compute; reflexivity|vm_compute; reflexivity|discriminate].
Defined.
