(* ===== verification/Mmu.v ===== *)
(** * The page tables startup builds (lib/aarch64/aarch64_map.c and callers)

    Startup runs with the MMU off, so a table is reached by its physical
    address: memory is a map from addresses to 64-bit words.  The constants and
    index macros of <aarch64/mmu.h> are parameters; RAM comes from an allocator
    behind the interface [Calloc].  The theorems are for the 4K page size. *)
From S2P Require Import Prelude.
Open Scope Z_scope.

(** ** What the code gets from elsewhere *)

(** <aarch64/mmu.h>: attribute bits, address-space bounds, slots and indexes. *)
Class mmu_abi := {
  PTE_VALID : Z; PTE_AF : Z; PTE_URW : Z; PTE_KRW : Z; PTE_URO : Z; PTE_KRO : Z;
  PTE_UXN : Z; PTE_PXN : Z; PTE_SODEV : Z; PTE_DEV : Z; PTE_NC : Z; PTE_WBWA : Z;
  PTE_ISH : Z; PTE_nG : Z; PTE_CONTIG : Z;
  PTP_VALID : Z; PTP_TYPE : Z -> Z; PTP_BLOCK : Z;
  AARCH64_USER_END : Z; AARCH64_STARTUP_BASE : Z; AARCH64_STARTUP_BASE_64K : Z;
  L1_L1_IDX : Z; L1_L2_IDX : Z; L2_L2_IDX : Z;
  L1_IDX : Z -> Z; L2_IDX : Z -> Z; L3_IDX : Z -> Z;
  L2_IDX_64K : Z -> Z; L3_IDX_64K : Z -> Z;
  L1_VOFF : Z -> Z; L2_VOFF : Z -> Z; L3_VOFF : Z -> Z;
  L2_VOFF_64K : Z -> Z; L3_VOFF_64K : Z -> Z;
  PROCESSORS_MAX : Z
}.

(** calloc_ram: the new allocator state, the address, and the memset calls. *)
Class Calloc (A : Type) := calloc_ram : Z -> Z -> A -> res (A * Z * list (Z * Z)).

(** The PROT_* bits of a [flags] argument that the code tests. *)
Record prot := Prot {
  p_write : bool; p_user : bool; p_exec : bool; p_device : bool; p_nocache : bool
}.

(** The image header's flag, the page size, and what set_pte looks at. *)
Record mmu_config := MmuConfig {
  flags1_virtual : bool;
  page_size : Z;
  num_cpu : Z;
  meltdown_active : Z
}.

Definition pt_alloc_msg : string := "pt_alloc: calloc_ram failed".
Definition alignment_msg : string := "aarch64_map: bad alignment".
Definition wrap_msg : string := "aarch64_map: end < va".
Definition user_end_msg : string := "aarch64_map: end >= user end".
Definition base_msg : string := "aarch64_map: va < base".
Definition bad_address_msg : string := "elf_vaddr_to_paddr: bad address".
Definition loop_fuel_msg : string := "out of fuel".

Section mmu.
Context `{abi : mmu_abi} {A : Type} `{Calloc A} (cfg : mmu_config).

Abbreviation PAGESIZE := (page_size cfg).

Definition CONTIG_PAGES : Z := 16.
Definition CONTIG_PAGES_64K : Z := 32.

Definition PTP_PADDR (ptp : Z) : Z := Z.land (Z.land ptp 281474976706560) (u64 (Z.lnot (PAGESIZE - 1))).
Definition USE_CONTIG (v p s c : Z) : bool := (c <=? s) && (Z.land (Z.lor v p) (c - 1) =? 0).
Definition USE_LARGE_PAGE : bool := 4096 <? PAGESIZE.
Definition NPTE_PTBL : Z := PAGESIZE / 8.
Definition TRUNCPG (x : Z) : Z := TRUNC x PAGESIZE.
Definition ROUNDPG (x : Z) : Z := ROUND x PAGESIZE.

(** The variables of aarch64_map.c and init_mmu.c, memory, the allocator. *)
Record mmu := Mmu {
  mem : Z -> Z;
  L1_ttbr0 : Z;
  L1_ttbr1 : Z;
  free_vaddr : Z;
  ttbr0 : Z;
  ttbr1 : list Z;
  L0_vaddr : Z;
  ram : A
}.

Definition with_mem (m : Z -> Z) (st : mmu) : mmu :=
  Mmu m (L1_ttbr0 st) (L1_ttbr1 st) (free_vaddr st) (ttbr0 st) (ttbr1 st) (L0_vaddr st) (ram st).
Definition with_ram (a : A) (st : mmu) : mmu :=
  Mmu (mem st) (L1_ttbr0 st) (L1_ttbr1 st) (free_vaddr st) (ttbr0 st) (ttbr1 st) (L0_vaddr st) a.
Definition with_free_vaddr (v : Z) (st : mmu) : mmu :=
  Mmu (mem st) (L1_ttbr0 st) (L1_ttbr1 st) v (ttbr0 st) (ttbr1 st) (L0_vaddr st) (ram st).
Definition with_ttbr0 (t l1 : Z) (st : mmu) : mmu :=
  Mmu (mem st) l1 (L1_ttbr1 st) (free_vaddr st) t (ttbr1 st) (L0_vaddr st) (ram st).
Definition with_L1_ttbr1 (l1 : Z) (st : mmu) : mmu :=
  Mmu (mem st) (L1_ttbr0 st) l1 (free_vaddr st) (ttbr0 st) (ttbr1 st) (L0_vaddr st) (ram st).
Definition with_L0 (l0 : Z) (st : mmu) : mmu :=
  Mmu (mem st) (L1_ttbr0 st) (L1_ttbr1 st) (free_vaddr st) (ttbr0 st) (ttbr1 st) l0 (ram st).
Definition with_ttbr1 (l : list Z) (st : mmu) : mmu :=
  Mmu (mem st) (L1_ttbr0 st) (L1_ttbr1 st) (free_vaddr st) (ttbr0 st) l (L0_vaddr st) (ram st).

(** [p[i]] and [p[i] = v] for a table at address [p]. *)
Definition entry (p i : Z) : Z := p + 8 * i.
Definition rd (p i : Z) (st : mmu) : Z := mem st (entry p i).
Definition wr (p i v : Z) (st : mmu) : mmu :=
  with_mem (fun x => if x =? entry p i then v else mem st x) st.

(** memset of [size] bytes to 0. *)
Definition memset0 (m : Z -> Z) (b : Z * Z) : Z -> Z :=
  fun x => if (fst b <=? x) && (x <? fst b + snd b) then 0 else m x.

Definition calloc (size align : Z) (st : mmu) : res (mmu * Z) :=
  let! (a, p, zeroed) := calloc_ram size align (ram st) in
  Ok (with_mem (fold_left memset0 zeroed (mem st)) (with_ram a st), p).

Definition set_pte (paddr : Z) (flags : prot) : Z :=
  let pte := Z.lor (Z.lor paddr PTE_VALID) PTE_AF in
  let pte := Z.lor pte (if p_write flags then if p_user flags then PTE_URW else PTE_KRW
                        else if p_user flags then PTE_URO else PTE_KRO) in
  let pte := if p_exec flags then pte else Z.lor pte (Z.lor PTE_UXN PTE_PXN) in
  let pte := if p_device flags then Z.lor pte (if p_nocache flags then PTE_SODEV else PTE_DEV)
             else
               let pte := Z.lor pte (if p_nocache flags then PTE_NC else PTE_WBWA) in
               if 1 <? num_cpu cfg then Z.lor pte PTE_ISH else pte in
  if 0 <? meltdown_active cfg then Z.lor pte PTE_nG else pte.

Definition PROT_RW : prot := Prot true false false false false.

Definition pt_alloc (st : mmu) : res (mmu * Z) :=
  let! (st, pa) := calloc PAGESIZE PAGESIZE st in
  if pa =? NULL_PADDR then Crash pt_alloc_msg else Ok (st, set_pte pa PROT_RW).

(** The three loops of aarch64_map carry [va] and [pte] along. *)
Record cursor := Cursor { c_va : Z; c_pte : Z }.

(** [for (i = 0; i < n; i++)]: the entries of one page or one contiguous run. *)
Fixpoint write_ptes (n : nat) (L3 L3i : Z) (c : cursor) (st : mmu) : Z * cursor * mmu :=
  match n with
  | O => (L3i, c, st)
  | S n' => write_ptes n' L3 (L3i + 1)
              (Cursor (u64 (c_va c + PAGESIZE)) (u64 (c_pte c + PAGESIZE))) (wr L3 L3i (c_pte c) st)
  end.

Definition contig_pages : Z := if USE_LARGE_PAGE then CONTIG_PAGES_64K else CONTIG_PAGES.

Fixpoint map_l3 (fuel : nat) (L3 L3i end_ : Z) (c : cursor) (st : mmu) : res (cursor * mmu) :=
  match fuel with
  | O => Crash loop_fuel_msg
  | S fuel' =>
      if (L3i <? NPTE_PTBL) && (c_va c <? end_) then
        let contig := USE_CONTIG (c_va c) (TRUNCPG (c_pte c)) (u64 (end_ - c_va c))
                        (contig_pages * PAGESIZE) in
        let pte := if contig then Z.lor (c_pte c) PTE_CONTIG else c_pte c in
        let n := if contig then contig_pages else 1 in
        let '(L3i, c, st) := write_ptes (Z.to_nat n) L3 L3i (Cursor (c_va c) pte) st in
        let c := if n =? contig_pages
                 then Cursor (c_va c) (Z.land (c_pte c) (u64 (Z.lnot PTE_CONTIG))) else c in
        map_l3 fuel' L3 L3i end_ c st
      else Ok (c, st)
  end.

(** [if (T[i] == 0) T[i] = pt_alloc();] *)
Definition ensure_table (T i : Z) (st : mmu) : res mmu :=
  if rd T i st =? 0 then let! (st, pte) := pt_alloc st in Ok (wr T i pte st) else Ok st.

Fixpoint map_l2 (fuel : nat) (L2 L2i end_ : Z) (c : cursor) (st : mmu) : res (cursor * mmu) :=
  match fuel with
  | O => Crash loop_fuel_msg
  | S fuel' =>
      if (L2i <? NPTE_PTBL) && (c_va c <? end_) then
        let! st := ensure_table L2 L2i st in
        let L3 := PTP_PADDR (rd L2 L2i st) in
        let L3i := if USE_LARGE_PAGE then L3_IDX_64K (c_va c) else L3_IDX (c_va c) in
        let! (c, st) := map_l3 (S (Z.to_nat NPTE_PTBL)) L3 L3i end_ c st in
        map_l2 fuel' L2 (L2i + 1) end_ c st
      else Ok (c, st)
  end.

Fixpoint map_l1 (fuel : nat) (L1 L1i end_ : Z) (c : cursor) (st : mmu) : res (cursor * mmu) :=
  match fuel with
  | O => Crash loop_fuel_msg
  | S fuel' =>
      if (L1i <? NPTE_PTBL) && (c_va c <? end_) then
        let! (c, st) :=
          if USE_LARGE_PAGE then map_l2 (S (Z.to_nat NPTE_PTBL)) L1 (L2_IDX_64K (c_va c)) end_ c st
          else
            let! st := ensure_table L1 L1i st in
            map_l2 (S (Z.to_nat NPTE_PTBL)) (PTP_PADDR (rd L1 L1i st)) (L2_IDX (c_va c)) end_ c st in
        map_l1 fuel' L1 (L1i + 1) end_ c st
      else Ok (c, st)
  end.

Definition startup_base : Z :=
  if USE_LARGE_PAGE then AARCH64_STARTUP_BASE_64K else AARCH64_STARTUP_BASE.

(** Which L1 table: startup's or the kernel's. *)
Definition choose_L1 (va end_ : Z) (st : mmu) : res Z :=
  if va <? AARCH64_USER_END then
    if AARCH64_USER_END <=? end_ then Crash user_end_msg else Ok (L1_ttbr0 st)
  else if va <? startup_base then Crash base_msg else Ok (L1_ttbr1 st).

(** [vaddr] of all ones asks for an address. *)
Definition aarch64_map (vaddr paddr size : Z) (flags : prot) (st : mmu) : res (mmu * Z) :=
  if negb (flags1_virtual cfg) then Ok (st, paddr)
  else
    let off := Z.land paddr (PAGESIZE - 1) in
    let paddr := Z.land paddr (u64 (Z.lnot (PAGESIZE - 1))) in
    let size := ROUNDPG (u64 (size + off)) in
    let! (st, vaddr) :=
      if vaddr =? 18446744073709551615
      then Ok (with_free_vaddr (u64 (free_vaddr st + size)) st, free_vaddr st)
      else if negb (Z.land vaddr (PAGESIZE - 1) =? off) then Crash alignment_msg
      else Ok (st, vaddr) in
    let va := TRUNCPG vaddr in
    let end_ := u64 (va + size) in
    if end_ <? va then Crash wrap_msg
    else
      let! L1 := choose_L1 va end_ st in
      let L1i := if USE_LARGE_PAGE then 0 else L1_IDX va in
      let! (_, st) := map_l1 (S (Z.to_nat NPTE_PTBL)) L1 L1i end_ (Cursor va (set_pte paddr flags)) st in
      Ok (st, u64 (vaddr + off)).

(** The translation the MMU will make, as the boot loader asks for it. *)
Definition elf_vaddr_to_paddr (vaddr : Z) (st : mmu) : res Z :=
  let! L1 :=
    if vaddr <? AARCH64_USER_END then Ok (L1_ttbr0 st)
    else if vaddr <? startup_base then Crash bad_address_msg else Ok (L1_ttbr1 st) in
  let level3 (L3 : Z) : res Z :=
    let pa := rd L3 (if USE_LARGE_PAGE then L3_IDX_64K vaddr else L3_IDX vaddr) st in
    if negb (Z.land pa PTE_VALID =? PTE_VALID) then Ok NULL_PADDR
    else Ok (Z.lor (PTP_PADDR pa) (if USE_LARGE_PAGE then L3_VOFF_64K vaddr else L3_VOFF vaddr)) in
  let level2 (L2 : Z) : res Z :=
    let pa := rd L2 (if USE_LARGE_PAGE then L2_IDX_64K vaddr else L2_IDX vaddr) st in
    if Z.land pa PTP_VALID =? 0 then Ok NULL_PADDR
    else if PTP_TYPE pa =? PTP_BLOCK
    then Ok (Z.lor (PTP_PADDR pa) (if USE_LARGE_PAGE then L2_VOFF_64K vaddr else L2_VOFF vaddr))
    else level3 (PTP_PADDR pa) in
  if USE_LARGE_PAGE then level2 L1
  else
    let pa := rd L1 (L1_IDX vaddr) st in
    if Z.land pa PTP_VALID =? 0 then Ok NULL_PADDR
    else if PTP_TYPE pa =? PTP_BLOCK then Ok (Z.lor (PTP_PADDR pa) (L1_VOFF vaddr))
    else level2 (PTP_PADDR pa).

(** Each cpu's L0 slots: [ttbr1[i] = L0; L0[1] = L1pte]. *)
Fixpoint init_L0 (n : nat) (L0 L1pte : Z) (st : mmu) : mmu :=
  match n with
  | O => st
  | S n' => init_L0 n' (L0 + 64) L1pte (wr L0 1 L1pte (with_ttbr1 (ttbr1 st ++ [L0]) st))
  end.

Definition aarch64_map_init (st : mmu) : res mmu :=
  let! (st, t0) := calloc PAGESIZE PAGESIZE st in
  let st := with_ttbr0 t0 (PTP_PADDR t0) st in
  let! (st, L1pte) := pt_alloc st in
  let st := with_L1_ttbr1 (PTP_PADDR L1pte) st in
  let st := wr (L1_ttbr1 st) L1_L1_IDX L1pte st in
  let! st :=
    if USE_LARGE_PAGE then Ok (with_free_vaddr AARCH64_STARTUP_BASE_64K st)
    else
      let! (st, L2pte) := pt_alloc st in
      let st := wr (L1_ttbr1 st) L1_L2_IDX L2pte st in
      let st := wr (PTP_PADDR L2pte) L2_L2_IDX L1pte st in
      Ok (with_free_vaddr AARCH64_STARTUP_BASE st) in
  let l0size := ROUNDPG (64 * PROCESSORS_MAX) in
  let! (st, L0_paddr) := calloc l0size PAGESIZE st in
  let! (st, l0) := aarch64_map 18446744073709551615 L0_paddr l0size PROT_RW st in
  Ok (init_L0 (Z.to_nat PROCESSORS_MAX) L0_paddr L1pte (with_L0 l0 st)).

(** elf_map.c, map_callout_io.c and map_callout_mem.c *)
Definition elf_map (vaddr paddr size : Z) (pf_w pf_x : bool) (st : mmu) : res mmu :=
  let! (st, _) := aarch64_map vaddr paddr size (Prot pf_w false pf_x false false) st in Ok st.

Definition callout_io_map (size phys : Z) (st : mmu) : res (mmu * Z) :=
  aarch64_map 18446744073709551615 phys size (Prot true false false true true) st.

Definition callout_memory_map (size phys : Z) (flags : prot) (st : mmu) : res (mmu * Z) :=
  aarch64_map 18446744073709551615 phys size flags st.

(** The end of init_mmu: the tables, then startup mapped to itself. *)
Definition init_mmu_tables (full_image_paddr startup_size : Z) (st : mmu) : res mmu :=
  let! st := aarch64_map_init st in
  let start := TRUNCPG full_image_paddr in
  let end_ := ROUNDPG (u64 (full_image_paddr + startup_size)) in
  let! (st, _) := aarch64_map start start (u64 (end_ - start)) (Prot true false true false false) st in
  Ok st.
End mmu.
