(* ===== verification/PageTables.v ===== *)
(** * The page tables of Mmu.v: proofs for the 4K page size

    What the model takes from the architecture and from the allocator, the
    tree of tables as an invariant, each loop of aarch64_map as a step of that
    tree, and the theorems: what a call maps, what it leaves alone, how the
    tables start. *)
From S2P Require Import Prelude Mmu.
Open Scope Z_scope.

(** ** What the proofs rely on *)

(** RAM ends two pages below the 48-bit limit of physical addresses, so that
    the address after a block still has a descriptor. *)
Definition RAM_END : Z := 2 ^ 48 - 8192.

(** The output address field of a descriptor: bits 12 to 47. *)
Definition ADDR : Z := 281474976706560.

Definition attr_bits_of `{mmu_abi} : list Z :=
  [PTE_AF; PTE_URW; PTE_KRW; PTE_URO; PTE_KRO; PTE_UXN; PTE_PXN; PTE_SODEV; PTE_DEV; PTE_NC;
   PTE_WBWA; PTE_ISH; PTE_nG].

(** The descriptor format of the Arm architecture, and the address space as
    the comments of aarch64_map_init and init_mmu give it: 39 bits for each
    table, the kernel's at the top. *)
Record mmu_abi_ok `{mmu_abi} : Prop := {
  abi_valid : PTE_VALID = 3;
  abi_table : PTP_VALID = 1 /\ PTP_BLOCK = 1 /\ forall x, PTP_TYPE x = Z.land x 3;
  abi_contig : PTE_CONTIG = 2 ^ 52;
  abi_attr a : In a attr_bits_of ->
    0 <= a < 18446744073709551616 /\ Z.land a (Z.lor (Z.lor ADDR 3) (2 ^ 52)) = 0;
  abi_l1 va : L1_IDX va = va / 2 ^ 30 mod 512;
  abi_l2 va : L2_IDX va = va / 2 ^ 21 mod 512;
  abi_l3 va : L3_IDX va = va / 4096 mod 512;
  abi_voff va : L3_VOFF va = va mod 4096;
  abi_user : 0 < AARCH64_USER_END <= 2 ^ 39;
  abi_base : 2 ^ 64 - 2 ^ 39 <= AARCH64_STARTUP_BASE < 2 ^ 64;
  abi_slots : 0 <= L1_L1_IDX < 512 /\ 0 <= L1_L2_IDX < 512 /\ 0 <= L2_L2_IDX < 512 /\
    L1_L1_IDX <> L1_L2_IDX
}.

(** What calloc_ram promises: an aligned block of free addresses, cleared by
    one memset and free no longer; or NULL_PADDR. *)
Record calloc_ok {A} `{Calloc A} (good : A -> Prop) (free : A -> Z -> Prop) : Prop := {
  calloc_spec size align a a' p zeroed :
    good a -> pow2_align align -> 0 < size < 2 ^ 48 ->
    calloc_ram size align a = Ok (a', p, zeroed) ->
    good a' /\ (forall x, free a' x -> free a x) /\
    (p <> NULL_PADDR -> p mod align = 0 /\ zeroed = [(p, size)] /\
       forall x, p <= x < p + size -> free a x /\ ~ free a' x)
}.

(** ** Descriptors *)
Definition addr_ok (p : Z) : Prop := 0 <= p < 2 ^ 48 /\ p mod 4096 = 0.
Definition attr_ok (a : Z) : Prop := 0 <= a < 18446744073709551616 /\ Z.land a ADDR = 0.

Lemma addr_land p : addr_ok p -> Z.land p ADDR = p.
Proof.
  intros [Hp Hm]. assert (p = Z.shiftl (p / 4096) 12) as ->.
  { rewrite Z.shiftl_mul_pow2 by lia. change (2 ^ 12) with 4096. pose proof (Z.div_mod p 4096). lia. }
  change ADDR with (Z.shiftl (Z.ones 36) 12). rewrite <- Z.shiftl_land. f_equal.
  rewrite Z.land_ones by lia. apply Z.mod_small. change (2 ^ 36) with 68719476736.
  change (2 ^ 48) with 281474976710656 in Hp. Z.to_euclidean_division_equations; lia.
Qed.

Lemma addr_attr p a : addr_ok p -> attr_ok a -> Z.land p a = 0.
Proof.
  intros Hp [_ Ha]. rewrite <- (addr_land p Hp), <- Z.land_assoc, (Z.land_comm ADDR), Ha.
  apply Z.land_0_r.
Qed.

Lemma lor_u64 a b : 0 <= a < 18446744073709551616 -> 0 <= b < 18446744073709551616 ->
  0 <= Z.lor a b < 18446744073709551616.
Proof.
  intros Ha Hb. assert (0 <= Z.lor a b) by (apply Z.lor_nonneg; lia). split; [done|].
  destruct (decide (Z.lor a b = 0)) as [->|]; [lia|].
  apply (Z.log2_lt_pow2 _ 64); [lia|]. rewrite Z.log2_lor by lia.
  assert (forall c, 0 <= c < 18446744073709551616 -> Z.log2 c < 64).
  { intros c Hc. destruct (decide (c = 0)) as [->|]; [done|]. apply Z.log2_lt_pow2; lia. }
  apply Z.max_lub_lt; auto.
Qed.

Lemma lor_add a b : Z.land a b = 0 -> Z.lor a b = a + b.
Proof. intros E. rewrite Z.add_nocarry_lxor, Z.lxor_lor by done. done. Qed.

(** Descriptor arithmetic: the next page, the same attributes. *)
Lemma next_pte p a : addr_ok p -> p + 4096 < 2 ^ 48 -> attr_ok a ->
  u64 (Z.lor p a + 4096) = Z.lor (p + 4096) a.
Proof.
  intros Hp Hn Ha. assert (Hp' : addr_ok (p + 4096)).
  { destruct Hp as [? Hm]. split; [lia|]. rewrite <- Z.add_mod_idemp_r, Z.mod_same, Z.add_0_r by lia. done. }
  pose proof (addr_attr p a Hp Ha). pose proof (addr_attr _ a Hp' Ha).
  assert (0 <= Z.lor (p + 4096) a < 18446744073709551616).
  { destruct Hp', Ha. change (2 ^ 48) with 281474976710656 in *. apply lor_u64; lia. }
  rewrite lor_add in * by done. rewrite (lor_add (p + 4096)) in * by done.
  rewrite u64_id by lia. lia.
Qed.

Section attrs.
Context `{abi : mmu_abi} (cfg : mmu_config).
Hypothesis abi_good : mmu_abi_ok.
Hypothesis page_4k : page_size cfg = 4096.

Lemma use_large_4k : USE_LARGE_PAGE cfg = false.
Proof. unfold USE_LARGE_PAGE. by rewrite page_4k. Qed.
Lemma npte_4k : NPTE_PTBL cfg = 512.
Proof. unfold NPTE_PTBL. by rewrite page_4k. Qed.
Lemma contig_4k : contig_pages cfg = 16.
Proof. unfold contig_pages. by rewrite use_large_4k. Qed.

Lemma ptp_paddr x : PTP_PADDR cfg x = Z.land x ADDR.
Proof.
  unfold PTP_PADDR. rewrite page_4k, <- Z.land_assoc. f_equal.
Qed.

Definition attrs (flags : prot) : Z := set_pte cfg 0 flags.

Lemma set_pte_attrs p flags : set_pte cfg p flags = Z.lor p (attrs flags).
Proof.
  unfold attrs, set_pte. cbv zeta.
  destruct (p_exec flags), (p_device flags), (1 <? num_cpu cfg), (0 <? meltdown_active cfg);
    rewrite Z.lor_0_l, <- !Z.lor_assoc; reflexivity.
Qed.

(** Attributes other than the two type bits. *)
Definition free_bits (a : Z) : Prop :=
  0 <= a < 18446744073709551616 /\ Z.land a (Z.lor (Z.lor ADDR 3) (2 ^ 52)) = 0.

Lemma free_bits_lor a b : free_bits a -> free_bits b -> free_bits (Z.lor a b).
Proof.
  intros [A1 A2] [B1 B2]. split; [by apply lor_u64|]. by rewrite Z.land_lor_distr_l, A2, B2.
Qed.

Lemma attr_free a : In a attr_bits_of -> free_bits a.
Proof. apply (abi_attr abi_good). Qed.

Lemma attrs_split flags : exists r, attrs flags = Z.lor 3 r /\ free_bits r.
Proof.
  assert (F : forall a, In a attr_bits_of -> free_bits a) by apply attr_free.
  unfold attr_bits_of in F. unfold attrs, set_pte. cbv zeta. rewrite Z.lor_0_l, (abi_valid abi_good).
  destruct (p_exec flags), (p_device flags), (1 <? num_cpu cfg), (0 <? meltdown_active cfg);
    rewrite <- !Z.lor_assoc; (eexists; split; [reflexivity|]);
    repeat apply free_bits_lor; destruct (p_write flags), (p_user flags), (p_nocache flags);
    apply F; simpl; tauto.
Qed.

Lemma free_bits_land a m : free_bits a -> Z.land (Z.lor (Z.lor ADDR 3) (2 ^ 52)) m = m -> Z.land a m = 0.
Proof. intros [_ E] <-. by rewrite Z.land_assoc, E. Qed.

Lemma attrs_ok flags :
  attr_ok (attrs flags) /\ Z.land (attrs flags) 3 = 3 /\ Z.land (attrs flags) (2 ^ 52) = 0.
Proof.
  destruct (attrs_split flags) as (r & -> & F). pose proof F as [R _].
  rewrite !Z.land_lor_distr_l. split; [split|].
  - apply lor_u64; lia.
  - rewrite Z.land_lor_distr_l, (free_bits_land r ADDR F) by reflexivity. reflexivity.
  - split; [rewrite (free_bits_land r 3 F) by reflexivity; reflexivity|].
    rewrite (free_bits_land r (2 ^ 52) F) by reflexivity. reflexivity.
Qed.

Lemma attrs_contig_ok flags : attr_ok (Z.lor (attrs flags) PTE_CONTIG).
Proof.
  destruct (attrs_ok flags) as ([A1 A2] & _). rewrite (abi_contig abi_good). split.
  - apply lor_u64; [done|]. change (2 ^ 52) with 4503599627370496. lia.
  - by rewrite Z.land_lor_distr_l, A2.
Qed.

(** Dropping the contiguous bit again. *)
Lemma clear_contig p flags : addr_ok p ->
  Z.land (Z.lor p (Z.lor (attrs flags) PTE_CONTIG)) (u64 (Z.lnot PTE_CONTIG)) = Z.lor p (attrs flags).
Proof.
  intros Hp. destruct (attrs_ok flags) as ([A1 A2] & _ & A3). rewrite (abi_contig abi_good).
  assert (U : u64 (Z.lnot (2 ^ 52)) = Z.ldiff (Z.ones 64) (2 ^ 52)) by reflexivity. rewrite U.
  assert (K : forall x, 0 <= x < 18446744073709551616 -> Z.land x (2 ^ 52) = 0 ->
    Z.land x (Z.ldiff (Z.ones 64) (2 ^ 52)) = x).
  { intros x Hx E. rewrite Z.ldiff_land, Z.land_assoc, Z.land_ones, Z.mod_small by lia.
    apply Z.bits_inj'. intros i Hi.
    apply (f_equal (fun z => Z.testbit z i)) in E. rewrite Z.land_spec, Z.bits_0 in E.
    rewrite Z.land_spec, Z.lnot_spec by lia. by destruct (Z.testbit x i), (Z.testbit (2 ^ 52) i). }
  rewrite !Z.land_lor_distr_l, K; [rewrite K by done|..].
  - change (Z.land (2 ^ 52) (Z.ldiff (Z.ones 64) (2 ^ 52))) with 0. by rewrite Z.lor_0_r.
  - destruct Hp. change (2 ^ 48) with 281474976710656 in *. lia.
  - rewrite <- (addr_land p Hp), <- Z.land_assoc. apply Z.land_0_r.
Qed.

Lemma pte_paddr p a : addr_ok p -> attr_ok a -> PTP_PADDR cfg (Z.lor p a) = p.
Proof.
  intros Hp [_ Ha]. rewrite ptp_paddr, Z.land_lor_distr_l, Ha, Z.lor_0_r. by apply addr_land.
Qed.

(** The type bits of a descriptor. *)
Lemma pte_type p flags : addr_ok p -> Z.land (set_pte cfg p flags) 3 = 3.
Proof.
  intros Hp. rewrite set_pte_attrs, Z.land_lor_distr_l. destruct (attrs_ok flags) as (_ & -> & _).
  rewrite <- (addr_land p Hp), <- Z.land_assoc. by rewrite Z.land_0_r.
Qed.
End attrs.

(** ** The tree of tables *)
Section tree.
Context `{abi : mmu_abi} {A : Type} `{Calloc A} (cfg : mmu_config).
Context (good : A -> Prop) (free : A -> Z -> Prop).
Implicit Types st : mmu (A := A).

Fixpoint walk (m : Z -> Z) (t : Z) (p : list Z) : option Z :=
  match p with
  | [] => Some t
  | i :: p' => if m (entry t i) =? 0 then None else walk m (PTP_PADDR cfg (m (entry t i))) p'
  end.

(** [k] is true for the kernel's tables, false for startup's. *)
Definition root st (k : bool) : Z := if k then L1_ttbr1 st else L1_ttbr0 st.
Definition tab st (k : bool) (p : list Z) : option Z := walk (mem st) (root st k) p.

(** The slots through which the kernel's tables map themselves. *)
Definition recursive (k : bool) (p : list Z) : bool :=
  k && match p with
       | i :: p' => (i =? L1_L1_IDX) ||
                    ((i =? L1_L2_IDX) && match p' with j :: _ => j =? L2_L2_IDX | [] => false end)
       | [] => false
       end.

(** The tables of the tree proper: a root, or one or two indexes below it. *)
Definition slot (k : bool) (p : list Z) : Prop :=
  (length p <= 2)%nat /\ Forall (fun i => 0 <= i < 512) p /\ recursive k p = false.

(** Page number [N] of a half: its table and its place there. *)
Definition path (N : Z) : list Z := [N / 262144; N / 512 mod 512].
Definition leaf st (k : bool) (N : Z) : Z :=
  match tab st k (path N) with Some t => rd t (N mod 512) st | None => 0 end.

Record pt_wf st : Prop := {
  wf_tab k p a : slot k p -> tab st k p = Some a ->
    addr_ok a /\ forall x, a <= x < a + 4096 -> ~ free (ram st) x;
  wf_inj k p k' p' a : slot k p -> slot k' p' -> tab st k p = Some a -> tab st k' p' = Some a ->
    k = k' /\ p = p';
  wf_entry k p i t : slot k (p ++ [i]) -> tab st k p = Some t -> rd t i st <> 0 ->
    Z.land (rd t i st) 3 = 3;
  wf_free x : free (ram st) x -> 0 <= x < RAM_END;
  wf_ram : good (ram st)
}.

Lemma walk_app m t p q : walk m t (p ++ q) = walk m t p ≫= fun t' => walk m t' q.
Proof.
  revert t; induction p as [|i p IH]; intros t; simpl; [done|]. by destruct (_ =? 0).
Qed.

Lemma tab_snoc st k p i : tab st k (p ++ [i]) =
  tab st k p ≫= fun t => if rd t i st =? 0 then None else Some (PTP_PADDR cfg (rd t i st)).
Proof. unfold tab. rewrite walk_app. by destruct (walk _ _ p). Qed.

Lemma recursive_app k p q : recursive k p = true -> recursive k (p ++ q) = true.
Proof.
  unfold recursive. destruct k; [|done]. destruct p as [|i p]; [done|]. simpl.
  destruct (i =? L1_L1_IDX), (i =? L1_L2_IDX); simpl; try done. by destruct p.
Qed.

Lemma slot_prefix k p q : slot k (p ++ q) -> slot k p.
Proof.
  intros (L & F & R). rewrite length_app in L. apply Forall_app in F as [F _].
  split; [lia|]. split; [done|].
  destruct (recursive k p) eqn:E; [|done]. by rewrite (recursive_app k p q E) in R.
Qed.

Lemma slot_root k : slot k [].
Proof. split; [simpl; lia|]. split; [constructor|]. by destruct k. Qed.

Lemma slot_index k p i : slot k (p ++ [i]) -> 0 <= i < 512 /\ (length p < 2)%nat.
Proof.
  intros (L & F & _). rewrite length_app in L. simpl in L. apply Forall_app in F as [_ F].
  apply Forall_cons in F as [F _]. split; [done|lia].
Qed.

(** Two entries of page-aligned tables are the same only as table and index. *)
Lemma entry_inj a b i j : addr_ok a -> addr_ok b -> 0 <= i < 512 -> 0 <= j < 512 ->
  entry a i = entry b j -> a = b /\ i = j.
Proof.
  intros [_ Ha] [_ Hb] Hi Hj E. unfold entry in E. Z.to_euclidean_division_equations. lia.
Qed.

Lemma entry_in a i : 0 <= i < 512 -> a <= entry a i < a + 4096.
Proof. unfold entry. lia. Qed.

(** Tables stay put when the entries on the way to them do. *)
Lemma tab_frame st st' k p :
  root st' k = root st k ->
  (forall q j t, slot k (q ++ [j]) -> tab st k q = Some t -> rd t j st' = rd t j st) ->
  slot k p -> tab st' k p = tab st k p.
Proof.
  intros HR HE. induction p as [|j q IH] using rev_ind; intros HS.
  { unfold tab. simpl. by rewrite HR. }
  rewrite !tab_snoc, (IH (slot_prefix _ _ _ HS)).
  destruct (tab st k q) as [t|] eqn:E; [|done]. simpl. by rewrite (HE q j t).
Qed.

(** [st'] differs from [st] in memory and in the allocator only. *)
Definition same_vars st st' : Prop := st' = with_mem (mem st') (with_ram (ram st') st).

(** One stretch of work on table [k]: the pages from [lo] up to [hi] get the
    descriptors [f], everything else is translated as before, only tables are
    written, and no table moves. *)
Record step (f : Z -> Z) st st' (k : bool) (lo hi : Z) : Prop := {
  step_wf : pt_wf st';
  step_vars : same_vars st st';
  step_keep k' p a : slot k' p -> tab st k' p = Some a -> tab st' k' p = Some a;
  step_free x : free (ram st') x -> free (ram st) x;
  step_new k' p a : slot k' p -> tab st' k' p = Some a ->
    tab st k' p = Some a \/ forall x, a <= x < a + 4096 -> free (ram st) x;
  step_frame x : mem st' x <> mem st x ->
    exists k' p a, slot k' p /\ tab st' k' p = Some a /\ a <= x < a + 4096;
  step_leaf k' N : slot k' (path N) ->
    leaf st' k' N = if decide (k' = k /\ lo <= N < hi) then f N else leaf st k' N
}.

Lemma step_refl f st k lo : pt_wf st -> step f st st k lo lo.
Proof.
  intros W. constructor; auto.
  - by destruct st.
  - intros x []. done.
  - intros k' N _. by rewrite decide_False by lia.
Qed.

Lemma same_vars_trans st1 st2 st3 : same_vars st1 st2 -> same_vars st2 st3 -> same_vars st1 st3.
Proof. unfold same_vars. intros E1 E2. rewrite E2, E1. done. Qed.

Lemma same_vars_root st st' k : same_vars st st' -> root st' k = root st k.
Proof. intros E. rewrite E. by destruct k. Qed.

Lemma step_trans f st1 st2 st3 k lo mid hi :
  lo <= mid <= hi -> step f st1 st2 k lo mid -> step f st2 st3 k mid hi -> step f st1 st3 k lo hi.
Proof.
  intros Hm [W1 V1 K1 F1 T1 M1 L1] [W2 V2 K2 F2 T2 M2 L2]. constructor; auto.
  - by apply (same_vars_trans _ st2).
  - intros k' p a S HT. destruct (T2 k' p a S HT) as [HT1|HF]; [by apply T1|]. right. auto.
  - intros x Hx. destruct (decide (mem st3 x = mem st2 x)) as [E|E]; [|by apply M2].
    rewrite E in Hx. destruct (M1 x Hx) as (k' & p & a & S & T & R). exists k', p, a. auto.
  - intros k' N S. rewrite L2, L1 by done.
    destruct (decide (k' = k)) as [->|Hk]; [|by rewrite !decide_False by tauto].
    destruct (decide (k = k /\ mid <= N < hi)) as [[_ ?]|H1], (decide (k = k /\ lo <= N < mid)) as [[_ ?]|H2].
    + by rewrite decide_True by (split; [done|lia]).
    + by rewrite decide_True by (split; [done|lia]).
    + by rewrite decide_True by (split; [done|lia]).
    + rewrite decide_False; [done|]. intros [_ ?]. destruct (decide (N < mid)); [apply H2|apply H1]; (split; [done|lia]).
Qed.

(** *** Writing a page descriptor *)
Lemma rd_wr st t i v u j : addr_ok t -> addr_ok u -> 0 <= i < 512 -> 0 <= j < 512 ->
  rd u j (wr t i v st) = if decide (u = t /\ j = i) then v else rd u j st.
Proof.
  intros Ht Hu Hi Hj. unfold rd, wr; simpl. destruct (decide _) as [[-> ->]|Hne].
  - by rewrite Z.eqb_refl.
  - rewrite (proj2 (Z.eqb_neq _ _)); [done|]. intros E. apply Hne.
    by apply (entry_inj u t j i).
Qed.

Lemma path_inj N M : path N = path M -> N mod 512 = M mod 512 -> N = M.
Proof.
  unfold path. intros [= E1 E2] E3. Z.to_euclidean_division_equations; lia.
Qed.

Lemma step_write f st k N t :
  pt_wf st -> slot k (path N) -> tab st k (path N) = Some t ->
  step f st (wr t (N mod 512) (f N) st) k N (N + 1).
Proof.
  intros W S T. set (i := N mod 512). assert (Hi : 0 <= i < 512) by (apply Z.mod_pos_bound; lia).
  destruct (wf_tab _ W k _ t S T) as [At Ft].
  set (st' := wr t i (f N) st).
  assert (HE : forall k' q j u, slot k' (q ++ [j]) -> tab st k' q = Some u -> rd u j st' = rd u j st).
  { intros k' q j u Sq Tq. destruct (slot_index _ _ _ Sq) as [Hj Lq].
    pose proof (slot_prefix _ _ _ Sq) as Sq'. destruct (wf_tab _ W k' q u Sq' Tq) as [Au _].
    unfold st'. rewrite rd_wr by done. rewrite decide_False; [done|]. intros [-> _].
    destruct (wf_inj _ W k' q k (path N) t Sq' S Tq T) as [_ E]. rewrite E in Lq. simpl in Lq. lia. }
  assert (HT : forall k' p, slot k' p -> tab st' k' p = tab st k' p).
  { intros k' p. apply tab_frame; [by destruct k'|apply HE]. }
  constructor.
  - constructor.
    + intros k' p a Sp. rewrite (HT k' p Sp). apply (wf_tab _ W k' p a Sp).
    + intros k1 p1 k2 p2 a S1 S2. rewrite !HT by done. by apply (wf_inj _ W).
    + intros k' p j u Sp Tp. pose proof (slot_prefix _ _ _ Sp) as Sp'. rewrite (HT k' p Sp') in Tp.
      rewrite (HE k' p j u Sp Tp). by apply (wf_entry _ W k' p).
    + apply (wf_free _ W).
    + apply (wf_ram _ W).
  - by destruct st.
  - intros k' p a Sp Tp. by rewrite HT.
  - done.
  - intros k' p a Sp. rewrite HT by done. by left.
  - intros x Hx. exists k, (path N), t. rewrite HT by done. split; [done|]. split; [done|].
    unfold st', wr in Hx; simpl in Hx. destruct (x =? entry t i) eqn:E; zbool; [|done].
    subst x. by apply entry_in.
  - intros k' M SM. unfold leaf. rewrite (HT k' _ SM).
    destruct (tab st k' (path M)) as [u|] eqn:Tu.
    + destruct (wf_tab _ W k' _ u SM Tu) as [Au _]. unfold st'.
      rewrite rd_wr by (auto; apply Z.mod_pos_bound; lia).
      destruct (decide (u = t /\ _)) as [[-> Hm]|Hne].
      * destruct (wf_inj _ W k' _ k _ t SM S Tu T) as [-> E]. 
        assert (M = N) as -> by (by apply path_inj).
        by rewrite decide_True by (split; [done|lia]).
      * rewrite decide_False; [done|]. intros [-> HM]. assert (M = N) as -> by lia.
        apply Hne. split; [congruence|done].
    + rewrite decide_False; [done|]. intros [-> HM]. assert (M = N) as -> by lia. congruence.
Qed.

(** *** Allocating a table *)
Hypothesis abi_good : mmu_abi_ok.
Hypothesis page_4k : page_size cfg = 4096.
Hypothesis alloc_good : calloc_ok good free.

(** The ways pt_alloc stops the machine. *)
Definition alloc_crash (m : string) : Prop :=
  m = pt_alloc_msg \/ exists size align a, calloc_ram size align a = Crash m.

(** [st'] is [st] with a fresh, cleared block at [p]. *)
Definition fresh_block st st' (p size : Z) : Prop :=
  same_vars st st' /\ good (ram st') /\ (forall x, free (ram st') x -> free (ram st) x) /\
  addr_ok p /\ (forall x, p <= x < p + size -> free (ram st) x /\ ~ free (ram st') x) /\
  forall x, mem st' x = if (p <=? x) && (x <? p + size) then 0 else mem st x.

Lemma calloc_block size st :
  good (ram st) -> (forall x, free (ram st) x -> 0 <= x < RAM_END) -> 0 < size < 2 ^ 48 ->
  match calloc size (page_size cfg) st with
  | Ok (st', p) => p = NULL_PADDR \/ fresh_block st st' p size
  | Crash m => alloc_crash m
  end.
Proof.
  intros G F48 Hs. unfold calloc. rewrite page_4k.
  destruct (calloc_ram size 4096 (ram st)) as [[[a' p] zeroed]|m] eqn:E; simpl; [|right; eauto].
  destruct (decide (p = NULL_PADDR)) as [|EN]; [by left|right].
  destruct (calloc_spec _ _ alloc_good size 4096 _ _ _ _ G pow2_align_4096 Hs E)
    as (G' & F' & P). destruct (P EN) as (Pm & -> & Pf).
  split; [done|]. split_and!; auto.
  destruct (Pf p ltac:(lia)) as [Fp _]. specialize (F48 p Fp). unfold RAM_END in F48.
  split; [lia|done].
Qed.

Lemma pt_alloc_spec st : good (ram st) -> (forall x, free (ram st) x -> 0 <= x < RAM_END) ->
  match pt_alloc cfg st with
  | Ok (st', pte) => exists p, pte = set_pte cfg p PROT_RW /\ fresh_block st st' p 4096
  | Crash m => alloc_crash m
  end.
Proof.
  intros G F48. unfold pt_alloc.
  pose proof (calloc_block (page_size cfg) st G F48 ltac:(rewrite page_4k; lia)) as C.
  destruct (calloc _ _ st) as [[st' p]|m]; cbn [res_bind]; [|done].
  destruct (p =? NULL_PADDR) eqn:EN; zbool; [by left|]. destruct C as [?|FB]; [done|].
  rewrite page_4k in FB. eauto.
Qed.

(** *** Linking a fresh page into the tree *)
Section link.
Context st st1 (k : bool) (p : list Z) (i t q pte : Z).
Hypothesis W : pt_wf st.
Hypothesis S : slot k (p ++ [i]).
Hypothesis T : tab st k p = Some t.
Hypothesis unlinked : rd t i st = 0.
Hypothesis fresh : fresh_block st st1 q 4096.
Hypothesis pte_addr : PTP_PADDR cfg pte = q.
Hypothesis pte_bits : Z.land pte 3 = 3.

Let st' := wr t i pte st1.

Lemma link_nonzero : (pte =? 0) = false.
Proof. apply Z.eqb_neq. intros E. by rewrite E in pte_bits. Qed.

Lemma link_parent : slot k p /\ 0 <= i < 512 /\ (length p < 2)%nat /\ addr_ok t /\
  forall x, t <= x < t + 4096 -> ~ free (ram st) x.
Proof.
  pose proof (slot_prefix _ _ _ S) as Sp. destruct (slot_index _ _ _ S) as [Hi Lp].
  destruct (wf_tab _ W k p t Sp T). auto.
Qed.

Lemma link_used x : q <= x < q + 4096 -> free (ram st) x.
Proof. intros Hx. by apply fresh. Qed.

Lemma link_page : addr_ok q.
Proof. apply fresh. Qed.

Lemma link_rd u j : addr_ok u -> (forall x, u <= x < u + 4096 -> ~ free (ram st) x) ->
  0 <= j < 512 -> rd u j st' = if decide (u = t /\ j = i) then pte else rd u j st.
Proof.
  destruct link_parent as (_ & Hi & _ & At & _). intros Au Fu Hj. unfold st'.
  rewrite rd_wr by done. destruct (decide _) as [_|_]; [done|].
  pose proof fresh as (_ & _ & _ & _ & Fq & M1). unfold rd. rewrite M1.
  destruct ((q <=? entry u j) && _) eqn:EQ; [|done]. zbool.
  pose proof (entry_in u j Hj). exfalso. apply (Fu (entry u j)); [lia|]. apply Fq. lia.
Qed.

Lemma link_entry k' r j u : slot k' (r ++ [j]) -> tab st k' r = Some u ->
  rd u j st' = if decide (k' = k /\ r ++ [j] = p ++ [i]) then pte else rd u j st.
Proof.
  intros Sr Tr. destruct link_parent as (Sp & _). pose proof (slot_prefix _ _ _ Sr) as Sr'.
  destruct (slot_index _ _ _ Sr) as [Hj _]. destruct (wf_tab _ W k' r u Sr' Tr) as [Au Fu].
  rewrite link_rd by done. destruct (decide (u = t /\ j = i)) as [[-> ->]|N1].
  - destruct (wf_inj _ W k' r k p t Sr' Sp Tr T) as [-> ->]. by rewrite decide_True.
  - rewrite decide_False; [done|]. intros [-> E]. apply app_inj_tail in E as [-> ->].
    apply N1. split; [congruence|done].
Qed.

Lemma link_clear j : 0 <= j < 512 -> rd q j st' = 0.
Proof.
  intros Hj. destruct link_parent as (_ & Hi & _ & At & Ft). unfold st'.
  rewrite rd_wr by (auto using link_page). rewrite decide_False.
  - pose proof fresh as (_ & _ & _ & _ & _ & M1). unfold rd. rewrite M1. pose proof (entry_in q j Hj).
    by rewrite (proj2 (Z.leb_le _ _)), (proj2 (Z.ltb_lt _ _)) by lia.
  - intros [Eq _]. apply (Ft t); [lia|]. apply link_used. lia.
Qed.

Lemma link_root k' : root st' k' = root st k'.
Proof.
  transitivity (root st1 k'); [by destruct k'|]. apply same_vars_root. apply fresh.
Qed.

Lemma link_none : tab st k (p ++ [i]) = None.
Proof. rewrite tab_snoc, T. cbn [mbind option_bind]. by rewrite unlinked. Qed.

Lemma link_tab k' r : slot k' r ->
  tab st' k' r = if decide (k' = k /\ r = p ++ [i]) then Some q else tab st k' r.
Proof.
  induction r as [|j r IH] using rev_ind; intros Sr.
  { rewrite decide_False by (intros [_ E]; by destruct p). unfold tab. simpl. by rewrite link_root. }
  pose proof (slot_prefix _ _ _ Sr) as Sr'. rewrite !tab_snoc, (IH Sr').
  destruct (slot_index _ _ _ Sr) as [Hj Lr].
  destruct (decide (k' = k /\ r = p ++ [i])) as [[-> ->]|Nr].
  - cbn [mbind option_bind]. rewrite link_clear by done. rewrite decide_False.
    + by rewrite link_none.
    + intros [_ E]. apply app_inj_tail in E as [E _]. apply (f_equal length) in E.
      rewrite length_app in E. simpl in E. lia.
  - destruct (tab st k' r) as [u|] eqn:Tr; cbn [mbind option_bind].
    + rewrite (link_entry k' r j u Sr Tr). destruct (decide (k' = k /\ r ++ [j] = p ++ [i])) as [_|_]; [|done].
      by rewrite link_nonzero, pte_addr.
    + rewrite decide_False; [done|]. intros [-> E]. apply app_inj_tail in E as [-> _]. congruence.
Qed.

Lemma link_new k' r : slot k' r -> tab st k' r <> Some q.
Proof.
  intros Sr Tr. destruct (wf_tab _ W k' r q Sr Tr) as [_ Fr]. apply (Fr q); [lia|]. apply link_used. lia.
Qed.

Lemma link_wf : pt_wf st'.
Proof.
  pose proof fresh as (V1 & G1 & F1 & Aq & Fq & M1). constructor.
  - intros k' r a Sr. rewrite link_tab by done. destruct (decide _) as [_|_].
    + intros [= <-]. split; [done|]. intros x Hx. by apply Fq.
    + intros Ta. destruct (wf_tab _ W k' r a Sr Ta) as [Aa Fa]. split; [done|].
      intros x Hx Fx. apply (Fa x Hx). by apply F1.
  - intros k1 r1 k2 r2 a S1 S2. rewrite !link_tab by done.
    destruct (decide (k1 = k /\ _)) as [[-> ->]|], (decide (k2 = k /\ _)) as [[-> ->]|]; try done.
    + intros [= <-] T2. by destruct (link_new k2 r2).
    + intros T1 [= <-]. by destruct (link_new k1 r1).
    + by apply (wf_inj _ W).
  - intros k' r j u Sr. pose proof (slot_prefix _ _ _ Sr) as Sr'. destruct (slot_index _ _ _ Sr) as [Hj _].
    rewrite link_tab by done. destruct (decide _) as [_|_].
    + intros [= <-]. by rewrite link_clear.
    + intros Tu. rewrite (link_entry k' r j u Sr Tu). destruct (decide _) as [_|_]; [done|].
      by apply (wf_entry _ W k' r).
  - intros x Fx. apply (wf_free _ W), F1, Fx.
  - done.
Qed.

Lemma link_leaf k' N : slot k' (path N) -> leaf st' k' N = leaf st k' N.
Proof.
  intros SM. destruct link_parent as (Sp & _ & Lp & _). unfold leaf. rewrite link_tab by done.
  assert (HM : 0 <= N mod 512 < 512) by (apply Z.mod_pos_bound; lia).
  destruct (decide (k' = k /\ path N = p ++ [i])) as [[-> ->]|NM].
  - by rewrite link_none, link_clear.
  - destruct (tab st k' (path N)) as [u|] eqn:Tu; [|done].
    destruct (wf_tab _ W k' _ u SM Tu) as [Au Fu]. rewrite link_rd by done.
    rewrite decide_False; [done|]. intros [-> _].
    destruct (wf_inj _ W k' _ k p t SM Sp Tu T) as [_ E]. rewrite <- E in Lp. simpl in Lp. lia.
Qed.

Lemma link_step f N : step f st st' k N N /\ tab st' k (p ++ [i]) = Some q.
Proof.
  destruct link_parent as (Sp & Hi & Lp & At & Ft). pose proof fresh as (V1 & G1 & F1 & Aq & Fq & M1).
  split; [|by rewrite link_tab, decide_True]. constructor.
  - apply link_wf.
  - unfold st', wr. rewrite V1. done.
  - intros k' r a Sr Ta. rewrite link_tab by done. rewrite decide_False; [done|]. intros [-> ->].
    by rewrite link_none in Ta.
  - apply F1.
  - intros k' r a Sr. rewrite link_tab by done. destruct (decide _) as [_|_]; [|by left].
    intros [= <-]. right. apply link_used.
  - intros x Hx. destruct (x =? entry t i) eqn:Ex; zbool.
    + exists k, p, t. rewrite link_tab by done. rewrite decide_False.
      * split; [done|]. split; [done|]. subst x. by apply entry_in.
      * intros [_ E]. apply (f_equal length) in E. rewrite length_app in E. simpl in E. lia.
    + exists k, (p ++ [i]), q. rewrite link_tab, decide_True by done. split; [done|]. split; [done|].
      unfold st', wr in Hx; simpl in Hx. rewrite (proj2 (Z.eqb_neq _ _)), M1 in Hx by done.
      destruct ((q <=? x) && _) eqn:EQ; [zbool; lia|done].
  - intros k' M SM. rewrite decide_False by lia. by apply link_leaf.
Qed.
End link.

Lemma ensure_table_spec f st k p i t :
  pt_wf st -> slot k (p ++ [i]) -> tab st k p = Some t ->
  match ensure_table cfg t i st with
  | Ok st' => (forall N, step f st st' k N N) /\
      tab st' k (p ++ [i]) = Some (PTP_PADDR cfg (rd t i st'))
  | Crash m => alloc_crash m
  end.
Proof.
  intros W S T. unfold ensure_table. destruct (rd t i st =? 0) eqn:E0; zbool.
  2: { split; [intros N; by apply step_refl|]. rewrite tab_snoc, T. simpl.
       by rewrite (proj2 (Z.eqb_neq _ _)). }
  pose proof (pt_alloc_spec st (wf_ram _ W) (wf_free _ W)) as PA.
  destruct (pt_alloc cfg st) as [[st1 pte]|m]; cbn [res_bind]; [|done].
  destruct PA as (q & -> & FP). pose proof FP as (_ & _ & _ & Aq & _).
  assert (Epte : PTP_PADDR cfg (set_pte cfg q PROT_RW) = q).
  { rewrite set_pte_attrs. apply pte_paddr; [done..|]. by apply attrs_ok. }
  pose proof (link_step st st1 k p i t q _ W S T E0 FP Epte ltac:(by apply pte_type) f) as L.
  split; [intros N; apply L|]. destruct (L 0) as [_ ->]. f_equal.
  destruct (slot_index _ _ _ S) as [Hi _]. destruct (wf_tab _ W k p t (slot_prefix _ _ _ S) T) as [At _].
  by rewrite rd_wr, decide_True.
Qed.

(** *** The loops

    One call maps the pages [N0] up to [E] of table [k] to the frames from
    [P0] on. *)
Definition base (k : bool) : Z := if k then 2 ^ 64 - 2 ^ 39 else 0.
Definition vaddr_of (k : bool) (N : Z) : Z := base k + N * 4096.

(** The indexes of an address of a half. *)
Lemma indexes_at k N o : 0 <= N < 134217728 -> 0 <= o < 4096 ->
  L1_IDX (vaddr_of k N + o) = N / 262144 /\ L2_IDX (vaddr_of k N + o) = N / 512 mod 512 /\
  L3_IDX (vaddr_of k N + o) = N mod 512 /\ L3_VOFF (vaddr_of k N + o) = o.
Proof.
  intros HN Ho. rewrite (abi_l1 abi_good), (abi_l2 abi_good), (abi_l3 abi_good), (abi_voff abi_good).
  change (2 ^ 30) with 1073741824. change (2 ^ 21) with 2097152. unfold vaddr_of, base.
  change (2 ^ 64 - 2 ^ 39) with 18446743523953737728.
  destruct k; (split; [|split; [|split]]); Z.to_euclidean_division_equations; lia.
Qed.

Lemma indexes k N : 0 <= N < 134217728 ->
  L1_IDX (vaddr_of k N) = N / 262144 /\ L2_IDX (vaddr_of k N) = N / 512 mod 512 /\
  L3_IDX (vaddr_of k N) = N mod 512.
Proof.
  intros HN. pose proof (indexes_at k N 0 HN ltac:(lia)) as I. rewrite Z.add_0_r in I. tauto.
Qed.

Section loops.
Context (k : bool) (P0 N0 E : Z) (flags : prot).
Hypothesis pages_ok : 0 <= N0 <= E /\ E < 134217728.
Hypothesis frames_ok : addr_ok P0 /\ P0 + (E - N0) * 4096 < 2 ^ 48.
Hypothesis slots_ok : forall M, N0 <= M < E -> slot k (path M).

Definition paddr_of (N : Z) : Z := P0 + (N - N0) * 4096.

(** Is page [N] in a run of 16 pages, aligned on both sides, inside the call? *)
Definition in_run (N : Z) : bool :=
  let b := N - N mod 16 in
  (N0 <=? b) && (b + 16 <=? E) && (paddr_of b mod 65536 =? 0).

(** The descriptor of page [N]. *)
Definition desc (N : Z) : Z :=
  Z.lor (paddr_of N) (if in_run N then Z.lor (attrs cfg flags) PTE_CONTIG else attrs cfg flags).

Definition cursor_at (N a : Z) : cursor := Cursor (vaddr_of k N) (Z.lor (paddr_of N) a).

Lemma paddr_of_ok N : N0 <= N <= E -> addr_ok (paddr_of N).
Proof.
  intros HN. destruct frames_ok as [[? ?] ?]. unfold paddr_of. split; [lia|].
  rewrite Z.add_mod, Z.mod_mul by lia. by rewrite H1.
Qed.

Lemma vaddr_ltb N M : (vaddr_of k N <? vaddr_of k M) = (N <? M).
Proof.
  unfold vaddr_of. destruct (N <? M) eqn:EE; zbool; [apply Z.ltb_lt|apply Z.ltb_ge]; lia.
Qed.

Lemma next_vaddr N : N0 <= N < E -> u64 (vaddr_of k N + page_size cfg) = vaddr_of k (N + 1).
Proof.
  intros HN. rewrite page_4k. unfold vaddr_of, base. destruct k; rewrite u64_id by lia; lia.
Qed.

Lemma next_cursor N a : N0 <= N < E -> attr_ok a ->
  Cursor (u64 (c_va (cursor_at N a) + page_size cfg)) (u64 (c_pte (cursor_at N a) + page_size cfg)) =
  cursor_at (N + 1) a.
Proof.
  intros HN Ha. unfold cursor_at; simpl. rewrite next_vaddr by done. f_equal.
  rewrite page_4k. pose proof (paddr_of_ok N ltac:(lia)) as Hp.
  rewrite next_pte; [|done| |done].
  - f_equal. unfold paddr_of. lia.
  - unfold paddr_of. lia.
Qed.

Lemma path_next N : N mod 512 + 1 < 512 -> path (N + 1) = path N.
Proof. intros Hm. unfold path. f_equal; [|f_equal]; Z.to_euclidean_division_equations; lia. Qed.

Lemma write_ptes_spec n N a t st :
  pt_wf st -> attr_ok a -> N0 <= N -> N + Z.of_nat n <= E -> N mod 512 + Z.of_nat n <= 512 ->
  (n = O \/ tab st k (path N) = Some t) ->
  (forall M, N <= M < N + Z.of_nat n -> desc M = Z.lor (paddr_of M) a) ->
  exists st', write_ptes cfg n t (N mod 512) (cursor_at N a) st =
      (N mod 512 + Z.of_nat n, cursor_at (N + Z.of_nat n) a, st') /\
    step desc st st' k N (N + Z.of_nat n).
Proof.
  intros W Ha. revert N st W; induction n as [|n IH]; intros N st W HN HE Hm HT HD.
  { exists st. simpl. rewrite !Z.add_0_r. split; [done|]. by apply step_refl. }
  destruct HT as [?|HT]; [done|]. cbn [write_ptes]. rewrite next_cursor by (auto; lia).
  pose proof (step_write desc st k N t W (slots_ok N ltac:(lia)) HT) as S1.
  rewrite (HD N) in S1 by lia.
  change (c_pte (cursor_at N a)) with (Z.lor (paddr_of N) a).
  set (st1 := wr t (N mod 512) _ st) in *.
  destruct (decide (n = O)) as [->|Hn].
  { exists st1. cbn [write_ptes]. split; [|done]. repeat f_equal. }
  assert (Hm1 : (N + 1) mod 512 = N mod 512 + 1) by (Z.to_euclidean_division_equations; lia).
  destruct (IH (N + 1) st1) as (st' & Ew & S2).
  - by destruct S1.
  - lia.
  - lia.
  - lia.
  - right. rewrite path_next by lia. by apply (step_keep _ _ _ _ _ _ S1); [apply slots_ok; lia|].
  - intros M HM. apply HD. lia.
  - rewrite Hm1 in Ew. exists st'. rewrite Ew.
    replace (N mod 512 + 1 + Z.of_nat n) with (N mod 512 + Z.of_nat (S n)) by lia.
    replace (N + 1 + Z.of_nat n) with (N + Z.of_nat (S n)) in * by lia. split; [done|].
    by apply (step_trans _ _ st1 _ _ _ (N + 1)); [lia|..].
Qed.

Lemma land_ones_zero x n : 0 <= n -> Z.land x (2 ^ n - 1) = x mod 2 ^ n.
Proof. intros Hn. rewrite <- Z.land_ones, Z.ones_equiv by done. f_equal. Qed.

(** The frame's low 16 bits, seen through the truncated descriptor. *)
Lemma trunc_pte_low p a : addr_ok p -> attr_ok a ->
  Z.land (TRUNCPG cfg (Z.lor p a)) 65535 = p mod 65536.
Proof.
  intros Hp Ha. unfold TRUNCPG. rewrite page_4k.
  assert (0 <= Z.lor p a < 18446744073709551616).
  { destruct Hp, Ha. change (2 ^ 48) with 281474976710656 in *. apply lor_u64; lia. }
  unfold TRUNC. rewrite (u64_id (Z.lor p a)) by done.
  change (u64 (Z.lnot (u64 (u64 4096 - 1)))) with 18446744073709547520.
  rewrite <- Z.land_assoc. change (Z.land 18446744073709547520 65535) with (Z.land ADDR 65535).
  rewrite Z.land_assoc, Z.land_lor_distr_l. destruct Ha as [_ ->].
  rewrite Z.lor_0_r, (addr_land p Hp). apply (land_ones_zero p 16). lia.
Qed.

Lemma use_contig N : N0 <= N < E ->
  USE_CONTIG (vaddr_of k N) (TRUNCPG cfg (Z.lor (paddr_of N) (attrs cfg flags)))
    (u64 (vaddr_of k E - vaddr_of k N)) (contig_pages cfg * page_size cfg) =
  (N + 16 <=? E) && (N mod 16 =? 0) && (paddr_of N mod 65536 =? 0).
Proof.
  intros HN. unfold USE_CONTIG. rewrite (contig_4k cfg page_4k), page_4k.
  assert (vaddr_of k E - vaddr_of k N = (E - N) * 4096) as -> by (unfold vaddr_of; lia).
  rewrite u64_id by lia. change (16 * 4096 - 1) with 65535.
  rewrite Z.land_lor_distr_l, trunc_pte_low by (first [apply paddr_of_ok; lia | by apply attrs_ok]).
  assert (Z.land (vaddr_of k N) 65535 = N mod 16 * 4096) as ->.
  { change 65535 with (2 ^ 16 - 1). rewrite land_ones_zero by lia. change (2 ^ 16) with 65536.
    unfold vaddr_of, base. destruct k; Z.to_euclidean_division_equations; lia. }
  assert (B1 : (16 * 4096 <=? (E - N) * 4096) = (N + 16 <=? E)).
  { destruct (N + 16 <=? E) eqn:EE; zbool; [apply Z.leb_le|apply Z.leb_gt]; lia. }
  rewrite B1, <- andb_assoc. f_equal. pose proof (Z.mod_pos_bound N 16).
  pose proof (Z.mod_pos_bound (paddr_of N) 65536).
  destruct (N mod 16 =? 0) eqn:E1, (paddr_of N mod 65536 =? 0) eqn:E2; zbool; simpl.
  - rewrite E1, E2. done.
  - rewrite E1. simpl. by apply Z.eqb_neq.
  - apply Z.eqb_neq. rewrite Z.lor_eq_0_iff. lia.
  - apply Z.eqb_neq. rewrite Z.lor_eq_0_iff. lia.
Qed.

(** A page inside a run of the call is reached only from the run's start. *)
Definition run_start (N : Z) : Prop := N < E -> N mod 16 = 0 \/ in_run N = false.

Lemma in_run_block N M : N - N mod 16 = M - M mod 16 -> in_run N = in_run M.
Proof. intros EB. unfold in_run. by rewrite EB. Qed.

Lemma run_start_aligned N : N mod 16 = 0 -> run_start N.
Proof. intros Hm _. by left. Qed.

Lemma run_start_first : run_start N0.
Proof.
  intros _. destruct (decide (N0 mod 16 = 0)) as [|Hm]; [by left|right].
  unfold in_run. rewrite (proj2 (Z.leb_gt _ _)); [done|]. pose proof (Z.mod_pos_bound N0 16). lia.
Qed.

Definition table_path (T : Z) : list Z := [T / 512; T mod 512].

Lemma path_table N T : N / 512 = T -> path N = table_path T.
Proof.
  intros <-. unfold path, table_path. by rewrite Z.div_div by lia.
Qed.

Lemma map_l3_spec fuel T N t st :
  pt_wf st -> N0 <= N <= E -> T * 512 <= N <= (T + 1) * 512 -> run_start N ->
  (T + 1) * 512 - N < Z.of_nat fuel ->
  (N < E -> tab st k (table_path T) = Some t) ->
  exists st', map_l3 cfg fuel t (N - T * 512) (vaddr_of k E) (cursor_at N (attrs cfg flags)) st =
      Ok (cursor_at (Z.min E ((T + 1) * 512)) (attrs cfg flags), st') /\
    step desc st st' k N (Z.min E ((T + 1) * 512)).
Proof.
  revert N st; induction fuel as [|fuel IH]; intros N st W HN HT HR HF Ht; [lia|].
  cbn [map_l3]. rewrite (npte_4k cfg page_4k).
  change (c_va (cursor_at N (attrs cfg flags))) with (vaddr_of k N).
  rewrite vaddr_ltb. destruct ((N - T * 512 <? 512) && (N <? E)) eqn:EC.
  2: { exists st. apply andb_false_iff in EC.
       assert (Z.min E ((T + 1) * 512) = N) as -> by (destruct EC; zbool; lia).
       split; [done|]. by apply step_refl. }
  zbool. specialize (Ht ltac:(lia)).
  assert (HP : path N = table_path T) by (apply path_table; Z.to_euclidean_division_equations; lia).
  assert (Hm : N - T * 512 = N mod 512) by (Z.to_euclidean_division_equations; lia).
  change (c_pte (cursor_at N (attrs cfg flags))) with (Z.lor (paddr_of N) (attrs cfg flags)).
  rewrite use_contig by lia.
  (* [n] pages with attributes [a] *)
  assert (Go : forall n a, attr_ok a -> (0 < n)%nat -> N + Z.of_nat n <= E ->
    N mod 512 + Z.of_nat n <= 512 -> run_start (N + Z.of_nat n) ->
    (forall M, N <= M < N + Z.of_nat n -> desc M = Z.lor (paddr_of M) a) ->
    exists st1, write_ptes cfg n t (N mod 512) (cursor_at N a) st =
        (N mod 512 + Z.of_nat n, cursor_at (N + Z.of_nat n) a, st1) /\
      exists st', map_l3 cfg fuel t (N mod 512 + Z.of_nat n) (vaddr_of k E)
          (cursor_at (N + Z.of_nat n) (attrs cfg flags)) st1 =
        Ok (cursor_at (Z.min E ((T + 1) * 512)) (attrs cfg flags), st') /\
        step desc st st' k N (Z.min E ((T + 1) * 512))).
  { intros n a Ha Hn HnE Hn512 Hrs HD.
    destruct (write_ptes_spec n N a t st W Ha ltac:(lia) HnE Hn512) as (st1 & Ew & S1);
      [right; by rewrite HP|done|]. exists st1. split; [done|].
    destruct (IH (N + Z.of_nat n) st1) as (st' & Em & S2); [by destruct S1|lia|lia|done|lia|..].
    - intros _. apply (step_keep _ _ _ _ _ _ S1); [|done]. rewrite <- HP. apply slots_ok. lia.
    - exists st'. replace (N mod 512 + Z.of_nat n) with (N + Z.of_nat n - T * 512) by lia.
      split; [done|]. by apply (step_trans _ _ st1 _ _ _ (N + Z.of_nat n)); [lia|..]. }
  rewrite Hm. destruct ((N + 16 <=? E) && (N mod 16 =? 0) && (paddr_of N mod 65536 =? 0)) eqn:EU; zbool.
  - (* a contiguous run *)
    rewrite (contig_4k cfg page_4k). change (Z.to_nat 16) with 16%nat. cbn [Z.eqb Pos.eqb].
    assert (HB : forall M, N <= M < N + 16 -> in_run M = true).
    { intros M HM. rewrite (in_run_block M N) by (Z.to_euclidean_division_equations; lia).
      unfold in_run. rewrite (proj2 (Z.eqb_eq _ _)) by (replace (N - N mod 16) with N by lia; done).
      rewrite !(proj2 (Z.leb_le _ _)) by lia. done. }
    destruct (Go 16%nat (Z.lor (attrs cfg flags) PTE_CONTIG)) as (st1 & Ew & st' & Em & S); auto.
    + by apply attrs_contig_ok.
    + lia.
    + Z.to_euclidean_division_equations; lia.
    + apply run_start_aligned. Z.to_euclidean_division_equations; lia.
    + intros M HM. unfold desc. by rewrite HB by lia.
    + exists st'. unfold cursor_at in Ew at 1. rewrite <- Z.lor_assoc, Ew.
      unfold cursor_at in Em at 1. unfold cursor_at at 1 2. cbn [c_va c_pte].
      rewrite clear_contig by (auto; apply paddr_of_ok; lia). done.
  - (* a single page *)
    assert (HI : in_run N = false).
    { destruct (HR ltac:(lia)) as [H16|?]; [|done]. unfold in_run.
      replace (N - N mod 16) with N by lia. rewrite (proj2 (Z.leb_le N0 N)) by lia.
      rewrite H16, Z.eqb_refl in EU. destruct (N + 16 <=? E); [|done]. exact EU. }
    rewrite (contig_4k cfg page_4k). change (Z.to_nat 1) with 1%nat. cbn [Z.eqb Pos.eqb].
    destruct (Go 1%nat (attrs cfg flags)) as (st1 & Ew & st' & Em & S); auto.
    + by apply attrs_ok.
    + lia.
    + lia.
    + intros HNE. destruct (decide ((N + 1) mod 16 = 0)) as [|Hne]; [by left|]. right.
      rewrite (in_run_block _ N); [done|]. Z.to_euclidean_division_equations; lia.
    + intros M HM. replace M with N by lia. unfold desc. by rewrite HI.
    + exists st'. unfold cursor_at in Ew at 1. rewrite Ew. done.
Qed.

(** What a loop does to the pages from [N] up to [N']. *)
Definition maps_to (N N' : Z) st (r : res (cursor * mmu)) : Prop :=
  match r with
  | Ok (c, st') => c = cursor_at N' (attrs cfg flags) /\ step desc st st' k N N'
  | Crash m => alloc_crash m
  end.

Lemma maps_to_trans N N1 N2 st st1 (r : res (cursor * mmu)) :
  N <= N1 <= N2 -> step desc st st1 k N N1 -> maps_to N1 N2 st1 r -> maps_to N N2 st r.
Proof.
  intros HN S1 M. destruct r as [[c st2]|m]; [|done]. destruct M as [-> S2]. split; [done|].
  by apply (step_trans _ _ st1 _ _ _ N1).
Qed.

Lemma map_l2_spec fuel i j N t st :
  pt_wf st -> N0 <= N <= E -> N <= (i + 1) * 262144 -> run_start N ->
  (N < E -> N / 512 = i * 512 + j) -> 0 <= j <= 512 -> 512 - j < Z.of_nat fuel ->
  (N < E -> tab st k [i] = Some t) ->
  maps_to N (Z.min E ((i + 1) * 262144)) st
    (map_l2 cfg fuel t j (vaddr_of k E) (cursor_at N (attrs cfg flags)) st).
Proof.
  revert j N st; induction fuel as [|fuel IH]; intros j N st W HN HM HR HJ Hj HF Ht; [lia|].
  cbn [map_l2]. rewrite (npte_4k cfg page_4k).
  change (c_va (cursor_at N (attrs cfg flags))) with (vaddr_of k N).
  rewrite vaddr_ltb. destruct ((j <? 512) && (N <? E)) eqn:EC.
  2: { assert (Z.min E ((i + 1) * 262144) = N) as ->; [|split; [done|by apply step_refl]].
       apply andb_false_iff in EC. destruct (decide (N < E)) as [L|]; [|lia].
       specialize (HJ L). destruct EC; zbool; [|lia]. Z.to_euclidean_division_equations; lia. }
  zbool. specialize (HJ ltac:(lia)). specialize (Ht ltac:(lia)).
  set (T := i * 512 + j) in *.
  assert (HP : path N = [i] ++ [j])
    by (unfold path; simpl; f_equal; [|f_equal]; Z.to_euclidean_division_equations; lia).
  assert (HS : slot k ([i] ++ [j])) by (rewrite <- HP; apply slots_ok; lia).
  pose proof (ensure_table_spec desc st k [i] j t W HS Ht) as ET.
  destruct (ensure_table cfg t j st) as [st1|m]; cbn [res_bind]; [|done]. destruct ET as [S1 Tt].
  rewrite (use_large_4k cfg page_4k). destruct (indexes k N ltac:(lia)) as (_ & _ & ->).
  assert (N mod 512 = N - T * 512) as -> by (Z.to_euclidean_division_equations; lia).
  assert (HTN : T * 512 <= N < (T + 1) * 512) by (Z.to_euclidean_division_equations; lia).
  destruct (map_l3_spec (S (Z.to_nat 512)) T N (PTP_PADDR cfg (rd t j st1)) st1)
    as (st2 & -> & S2); [by destruct (S1 N)|lia|lia|done|lia|..].
  { intros _. rewrite <- (path_table N T HJ), HP. exact Tt. }
  cbn [res_bind]. set (N1 := Z.min E ((T + 1) * 512)) in *.
  pose proof (step_trans _ _ _ _ _ N N N1 ltac:(lia) (S1 N) S2) as S12.
  apply (maps_to_trans N N1 _ st st2); [lia|done|].
  assert (HN1 : N1 < E -> N1 = (T + 1) * 512) by lia.
  apply IH; [by destruct S2|lia|lia| | |lia|lia|].
  - intros L. left. rewrite (HN1 L). Z.to_euclidean_division_equations; lia.
  - intros L. rewrite (HN1 L). Z.to_euclidean_division_equations; lia.
  - intros L. apply (step_keep _ _ _ _ _ _ S12); [|done]. by apply (slot_prefix k [i] [j]).
Qed.

Lemma map_l1_spec fuel i N t st :
  pt_wf st -> N0 <= N <= E -> run_start N -> (N < E -> N / 262144 = i) -> 0 <= i <= 512 ->
  512 - i < Z.of_nat fuel -> tab st k [] = Some t ->
  maps_to N E st (map_l1 cfg fuel t i (vaddr_of k E) (cursor_at N (attrs cfg flags)) st).
Proof.
  revert i N st; induction fuel as [|fuel IH]; intros i N st W HN HR HI Hi HF Ht; [lia|].
  cbn [map_l1]. rewrite (npte_4k cfg page_4k).
  change (c_va (cursor_at N (attrs cfg flags))) with (vaddr_of k N).
  rewrite vaddr_ltb. destruct ((i <? 512) && (N <? E)) eqn:EC.
  2: { assert (N = E) as <-; [|split; [done|by apply step_refl]].
       apply andb_false_iff in EC. destruct (decide (N < E)) as [L|]; [|lia].
       specialize (HI L). destruct EC; zbool; [|lia]. Z.to_euclidean_division_equations; lia. }
  zbool. specialize (HI ltac:(lia)). subst i.
  assert (HS : slot k ([] ++ [N / 262144])).
  { apply (slot_prefix k [N / 262144] [N / 512 mod 512]). apply slots_ok. lia. }
  rewrite (use_large_4k cfg page_4k).
  pose proof (ensure_table_spec desc st k [] _ t W HS Ht) as ET.
  destruct (ensure_table cfg t _ st) as [st1|m]; cbn [res_bind]; [|done]. destruct ET as [S1 Tt].
  destruct (indexes k N ltac:(lia)) as (_ & -> & _).
  assert (HJ : N / 512 = N / 262144 * 512 + N / 512 mod 512)
    by (Z.to_euclidean_division_equations; lia).
  assert (HB : N / 262144 * 262144 <= N < (N / 262144 + 1) * 262144)
    by (Z.to_euclidean_division_equations; lia).
  set (i := N / 262144) in *.
  pose proof (map_l2_spec (S (Z.to_nat 512)) i (N / 512 mod 512) N (PTP_PADDR cfg (rd t i st1)) st1
    ltac:(by destruct (S1 N)) HN ltac:(lia) HR
    ltac:(intros _; exact HJ)
    ltac:(pose proof (Z.mod_pos_bound (N / 512) 512); lia)
    ltac:(pose proof (Z.mod_pos_bound (N / 512) 512); lia) ltac:(done)) as M2.
  destruct (map_l2 _ _ _ _ _ _ _) as [[c st2]|m]; cbn [res_bind]; [|done]. destruct M2 as [-> S2].
  set (N1 := Z.min E ((i + 1) * 262144)) in *.
  pose proof (step_trans _ _ _ _ _ N N N1 ltac:(lia) (S1 N) S2) as S12.
  apply (maps_to_trans N N1 _ st st2); [lia|done|].
  assert (HN1 : N1 < E -> N1 = (i + 1) * 262144) by lia.
  apply IH; [by destruct S2|lia| | |lia|lia|].
  - intros L. left. rewrite (HN1 L). Z.to_euclidean_division_equations; lia.
  - intros L. rewrite (HN1 L). Z.to_euclidean_division_equations; lia.
  - apply (step_keep _ _ _ _ _ _ S12); [apply slot_root|done].
Qed.
End loops.

(** ** Addresses *)

(** The half an address lies in and its page there. *)
Definition half_of (x : Z) : bool := negb (x <? AARCH64_USER_END).
Definition page_of (x : Z) : Z := (x - base (half_of x)) / 4096.

Definition in_halves (x : Z) : Prop :=
  0 <= x < AARCH64_USER_END \/ AARCH64_STARTUP_BASE <= x < 18446744073709551616.

(** An address the tables translate, outside the recursive slots. *)
Definition plain_addr (x : Z) : Prop := in_halves x /\ slot (half_of x) (path (page_of x)).

Lemma in_halves_page x : in_halves x ->
  0 <= page_of x < 134217728 /\ x = vaddr_of (half_of x) (page_of x) + x mod 4096.
Proof.
  intros Hx. pose proof (abi_user abi_good) as U. pose proof (abi_base abi_good) as B.
  change (2 ^ 39) with 549755813888 in *. change (2 ^ 64) with 18446744073709551616 in B.
  unfold vaddr_of, page_of, half_of, base. change (2 ^ 64 - 2 ^ 39) with 18446743523953737728.
  destruct (x <? AARCH64_USER_END) eqn:E; zbool; cbn [negb];
    (destruct Hx as [Hx|Hx]; [|]); try lia; split; Z.to_euclidean_division_equations; lia.
Qed.

Lemma vaddr_half k N o : 0 <= N < 134217728 -> 0 <= o < 4096 -> in_halves (vaddr_of k N + o) ->
  half_of (vaddr_of k N + o) = k /\ page_of (vaddr_of k N + o) = N.
Proof.
  intros HN Ho Hx. pose proof (abi_user abi_good) as U. pose proof (abi_base abi_good) as B.
  change (2 ^ 39) with 549755813888 in *. change (2 ^ 64) with 18446744073709551616 in B.
  assert (HK : half_of (vaddr_of k N + o) = k).
  { unfold half_of, vaddr_of, base in *. change (2 ^ 64 - 2 ^ 39) with 18446743523953737728 in *.
    destruct k.
    - rewrite (proj2 (Z.ltb_ge _ _)); [done|]. lia.
    - rewrite (proj2 (Z.ltb_lt _ _)); [done|]. destruct Hx; lia. }
  split; [done|]. unfold page_of. rewrite HK. unfold vaddr_of.
  Z.to_euclidean_division_equations; lia.
Qed.

(** What a page descriptor translates an offset to. *)
Definition translate (pte o : Z) : Z :=
  if Z.land pte 3 =? 3 then Z.lor (Z.land pte ADDR) o else NULL_PADDR.

Lemma elf_translate x st : pt_wf st -> plain_addr x ->
  elf_vaddr_to_paddr cfg x st = Ok (translate (leaf st (half_of x) (page_of x)) (x mod 4096)).
Proof.
  intros W [Hx S]. destruct (in_halves_page x Hx) as [HN EX].
  set (k := half_of x) in *. set (N := page_of x) in *.
  destruct (indexes_at k N (x mod 4096) HN ltac:(apply Z.mod_pos_bound; lia)) as (I1 & I2 & I3 & IO).
  rewrite <- EX in I1, I2, I3, IO.
  unfold elf_vaddr_to_paddr. rewrite (use_large_4k cfg page_4k).
  assert ((if x <? AARCH64_USER_END then Ok (L1_ttbr0 st)
           else if x <? startup_base cfg then Crash bad_address_msg else Ok (L1_ttbr1 st)) =
          Ok (root st k)) as ->.
  { unfold root, k, half_of, startup_base. rewrite (use_large_4k cfg page_4k).
    destruct (x <? AARCH64_USER_END) eqn:E1; [done|]. zbool. destruct Hx; [lia|].
    by rewrite (proj2 (Z.ltb_ge _ _)) by lia. }
  cbn [res_bind]. rewrite I1, I2, I3, IO, (abi_valid abi_good), !ptp_paddr by done.
  destruct (abi_table abi_good) as (-> & -> & TT). rewrite !TT.
  assert (Lv : forall p i t, slot k (p ++ [i]) -> tab st k p = Some t ->
    (rd t i st = 0 /\ tab st k (p ++ [i]) = None) \/
    (Z.land (rd t i st) 3 = 3 /\ Z.land (rd t i st) 1 = 1 /\
     tab st k (p ++ [i]) = Some (Z.land (rd t i st) ADDR))).
  { intros p i t Sp Tp. rewrite tab_snoc, Tp. cbn [mbind option_bind].
    destruct (rd t i st =? 0) eqn:E0; zbool; [by left|right].
    pose proof (wf_entry _ W k p i t Sp Tp E0) as E3. rewrite ptp_paddr by done.
    split; [done|]. split; [|done].
    change 1 with (Z.land 3 1) at 1. by rewrite Z.land_assoc, E3. }
  set (i1 := N / 262144) in *. set (i2 := N / 512 mod 512) in *.
  change (path N) with ([i1] ++ [i2]) in S.
  pose proof (slot_prefix k [i1] [i2] S) as S1.
  unfold leaf. change (path N) with ([i1] ++ [i2]).
  destruct (Lv [] i1 (root st k) S1 eq_refl) as [[E0 T0]|(E3 & E1 & T1)].
  { assert (TN : tab st k ([i1] ++ [i2]) = None) by (rewrite tab_snoc; change (tab st k [i1]) with (tab st k ([] ++ [i1])); by rewrite T0).
    rewrite E0, TN. done. }
  rewrite E1, E3. change (1 =? 0) with false. change (3 =? 1) with false. cbn iota.
  destruct (Lv [i1] i2 _ S T1) as [[F0 T2]|(F3 & F1 & T2)].
  { rewrite F0, T2. done. }
  rewrite F1, F3, T2. change (1 =? 0) with false. change (3 =? 1) with false. cbn iota.
  unfold translate. by destruct (_ =? 3).
Qed.

(** ** aarch64_map *)

(** [n] pages from [va] on that one call may map. *)
Definition region_ok (va n : Z) : Prop :=
  va mod 4096 = 0 /\ 0 <= n /\
  ((0 <= va /\ va + n * 4096 < AARCH64_USER_END) \/
   (AARCH64_STARTUP_BASE <= va /\ va + n * 4096 < 18446744073709551616)) /\
  forall x, va <= x < va + n * 4096 -> plain_addr x.

Lemma region_half va n : region_ok va n ->
  let k := half_of va in let N := page_of va in
  va = vaddr_of k N /\ 0 <= N /\ N + n < 134217728 /\
  forall M, N <= M < N + n -> slot k (path M).
Proof.
  intros (Hva & Hn & HR & HP) k N. pose proof (abi_user abi_good) as U. pose proof (abi_base abi_good) as B.
  change (2 ^ 39) with 549755813888 in *. change (2 ^ 64) with 18446744073709551616 in B.
  assert (IH : in_halves va) by (unfold in_halves; lia).
  destruct (in_halves_page va IH) as [HN EV]. fold k N in HN, EV. rewrite Hva, Z.add_0_r in EV.
  assert (HNn : N + n < 134217728).
  { unfold vaddr_of, base in EV. change (2 ^ 64 - 2 ^ 39) with 18446743523953737728 in EV.
    destruct k; [|destruct HR]; lia. }
  split_and!; [done|lia|done|]. intros M HM.
  assert (HPM : plain_addr (vaddr_of k M + 0)) by (apply HP; unfold vaddr_of in *; lia).
  destruct HPM as [IM SM]. destruct (vaddr_half k M 0 ltac:(lia) ltac:(lia) IM) as [EK EM].
  by rewrite EK, EM in SM.
Qed.

Lemma wf_free_vaddr v st : pt_wf st -> pt_wf (with_free_vaddr v st).
Proof. intros [W1 W2 W3 W4 W5]. constructor; [exact W1|exact W2|exact W3|exact W4|exact W5]. Qed.

Lemma choose_L1_region va n st : region_ok va n ->
  choose_L1 cfg va (va + n * 4096) st = Ok (root st (half_of va)).
Proof.
  intros (_ & Hn & HR & _). pose proof (abi_user abi_good) as U. pose proof (abi_base abi_good) as B.
  change (2 ^ 39) with 549755813888 in *. change (2 ^ 64) with 18446744073709551616 in B.
  unfold choose_L1, root, half_of, startup_base. rewrite (use_large_4k cfg page_4k).
  destruct (va <? AARCH64_USER_END) eqn:E; zbool; destruct HR as [HR|HR]; try lia; cbn [negb].
  - by rewrite (proj2 (Z.leb_gt _ _)) by lia.
  - by rewrite (proj2 (Z.ltb_ge _ _)) by lia.
Qed.

Definition offset_of (paddr : Z) : Z := paddr mod 4096.
Definition pages_of (paddr size : Z) : Z := (size + offset_of paddr + 4095) / 4096.

(** The argument sizes of a call: physical addresses have 48 bits. *)
Definition frames_in_range (paddr size : Z) : Prop :=
  0 <= paddr /\ 0 <= size /\ paddr + size + 4096 < 2 ^ 48.

Lemma map_arguments paddr size : frames_in_range paddr size ->
  Z.land paddr (page_size cfg - 1) = offset_of paddr /\
  Z.land paddr (u64 (Z.lnot (page_size cfg - 1))) = paddr - offset_of paddr /\
  ROUNDPG cfg (u64 (size + offset_of paddr)) = pages_of paddr size * 4096 /\
  addr_ok (paddr - offset_of paddr) /\ 0 <= pages_of paddr size /\
  paddr - offset_of paddr + pages_of paddr size * 4096 < 2 ^ 48.
Proof.
  intros (Hp & Hs & Hm). change (2 ^ 48) with 281474976710656 in *. rewrite page_4k.
  unfold ROUNDPG, addr_ok, pages_of, offset_of. rewrite page_4k.
  change (2 ^ 48) with 281474976710656.
  pose proof (Z.mod_pos_bound paddr 4096). pose proof (Z.div_mod paddr 4096).
  assert (L : Z.land paddr (4096 - 1) = paddr mod 4096) by (apply (land_ones_zero paddr 12); lia).
  split_and!; auto.
  - rewrite <- (TRUNC_spec paddr 4096) by (auto with width; lia).
    unfold TRUNC. rewrite (u64_id paddr) by lia. reflexivity.
  - rewrite u64_id by lia.
    destruct (ROUND_spec (size + paddr mod 4096) 4096 ltac:(lia) pow2_align_4096) as [R1 R2].
    Z.to_euclidean_division_equations; lia.
  - lia.
  - Z.to_euclidean_division_equations; lia.
  - Z.to_euclidean_division_equations; lia.
  - Z.to_euclidean_division_equations; lia.
  - Z.to_euclidean_division_equations; lia.
Qed.

(** Where a call puts its pages: at the next free address, or as told. *)
Definition target (vaddr : Z) st (paddr va : Z) : Prop :=
  (vaddr = 18446744073709551615 /\ free_vaddr st = va) \/
  (vaddr <> 18446744073709551615 /\ vaddr = va + offset_of paddr).

Definition after_target (vaddr va n : Z) st : mmu :=
  if vaddr =? 18446744073709551615 then with_free_vaddr (va + n * 4096) st else st.

(** The address space a call works in. *)
Lemma region_bounds va n : region_ok va n -> 0 <= va /\ va + n * 4096 < 18446744073709551616.
Proof.
  intros (_ & _ & HR & _). pose proof (abi_user abi_good). pose proof (abi_base abi_good) as B.
  change (2 ^ 39) with 549755813888 in *. change (2 ^ 64) with 18446744073709551616 in B. lia.
Qed.

(** The address part of a call: where the pages go. *)
Lemma map_target vaddr paddr size st va :
  frames_in_range paddr size -> target vaddr st paddr va -> region_ok va (pages_of paddr size) ->
  let n := pages_of paddr size in
  let va0 := if vaddr =? 18446744073709551615 then va else vaddr in
  (if vaddr =? 18446744073709551615
   then Ok (with_free_vaddr (u64 (free_vaddr st + n * 4096)) st, free_vaddr st)
   else if negb (Z.land vaddr (page_size cfg - 1) =? offset_of paddr) then Crash alignment_msg
   else Ok (st, vaddr)) = Ok (after_target vaddr va n st, va0) /\ TRUNCPG cfg va0 = va.
Proof.
  intros HF HT HR n va0. pose proof (region_bounds va n HR) as Hend. assert (Hn : 0 <= n) by apply HR.
  assert (Hva : va mod 4096 = 0) by apply HR.
  assert (Hoff : 0 <= offset_of paddr < 4096) by (apply Z.mod_pos_bound; lia).
  unfold after_target, TRUNCPG, va0. rewrite page_4k. destruct HT as [[-> EF]|[HNE EF]].
  - rewrite Z.eqb_refl, EF, u64_id by lia. split; [done|].
    rewrite TRUNC_spec by (auto with width; lia). lia.
  - rewrite (proj2 (Z.eqb_neq _ _)) by done.
    assert (Z.land vaddr (4096 - 1) = offset_of paddr) as ->.
    { change (4096 - 1) with (2 ^ 12 - 1). rewrite land_ones_zero by lia. change (2 ^ 12) with 4096.
      subst vaddr. Z.to_euclidean_division_equations; lia. }
    rewrite Z.eqb_refl. split; [done|]. assert (vaddr < 18446744073709551616).
    { destruct (decide (n = 0)) as [En|]; [|lia]. unfold n, pages_of in En.
      assert (offset_of paddr = 0); [|lia]. destruct HF as (_ & ? & _). Z.to_euclidean_division_equations; lia. }
    rewrite TRUNC_spec by (auto with width; lia). subst vaddr. Z.to_euclidean_division_equations; lia.
Qed.

(** A call that passes the tests is its loop over the L1 entries. *)
Lemma aarch64_map_loop vaddr paddr size flags st va :
  flags1_virtual cfg = true -> frames_in_range paddr size ->
  target vaddr st paddr va -> region_ok va (pages_of paddr size) ->
  let n := pages_of paddr size in
  let off := offset_of paddr in
  let k := half_of va in
  let st0 := after_target vaddr va n st in
  aarch64_map cfg vaddr paddr size flags st =
    let! (_, st') := map_l1 cfg (S (Z.to_nat 512)) (root st0 k) (page_of va / 262144)
        (vaddr_of k (page_of va + n))
        (cursor_at k (paddr - off) (page_of va) (page_of va) (attrs cfg flags)) st0 in
    Ok (st', u64 ((if vaddr =? 18446744073709551615 then va else vaddr) + off)).
Proof.
  intros HV HF HT HR n off k st0. destruct (map_arguments paddr size HF) as (A1 & A2 & A3 & _).
  fold n off in A1, A2, A3. destruct (region_half va n HR) as (EV & HN & HNn & _).
  destruct (map_target vaddr paddr size st va HF HT HR) as [Er ET].
  pose proof (region_bounds va n HR) as Hend. assert (0 <= n) by apply HR.
  unfold aarch64_map. rewrite HV. cbn [negb]. cbv zeta. rewrite A1, A2, A3. unfold off at 1, n at 1.
  rewrite Er. cbn [res_bind]. rewrite ET, u64_id by lia.
  rewrite (proj2 (Z.ltb_ge _ _)) by lia. rewrite (choose_L1_region va n _ HR). cbn [res_bind].
  rewrite (use_large_4k cfg page_4k), (npte_4k cfg page_4k), set_pte_attrs.
  destruct (indexes (half_of va) (page_of va) ltac:(lia)) as (I1 & _ & _). rewrite <- EV in I1. rewrite I1.
  assert (EC : Cursor va (Z.lor (paddr - off) (attrs cfg flags)) =
    cursor_at k (paddr - off) (page_of va) (page_of va) (attrs cfg flags)).
  { unfold cursor_at, paddr_of, k. rewrite <- EV. do 2 f_equal. lia. }
  assert (EE : va + n * 4096 = vaddr_of k (page_of va + n)) by (unfold vaddr_of, k in *; lia).
  by rewrite EC, EE.
Qed.

Lemma aarch64_map_step vaddr paddr size flags st va :
  flags1_virtual cfg = true -> pt_wf st -> frames_in_range paddr size ->
  target vaddr st paddr va -> region_ok va (pages_of paddr size) ->
  let n := pages_of paddr size in
  let off := offset_of paddr in
  match aarch64_map cfg vaddr paddr size flags st with
  | Ok (st', ret) =>
      ret = u64 ((if vaddr =? 18446744073709551615 then va else vaddr) + off) /\
      step (desc (paddr - off) (page_of va) (page_of va + n) flags)
        (after_target vaddr va n st) st' (half_of va) (page_of va) (page_of va + n)
  | Crash m => alloc_crash m
  end.
Proof.
  intros HV W HF HT HR n off. destruct (map_arguments paddr size HF) as (_ & _ & _ & A4 & A5 & A6).
  fold n off in A4, A5, A6. destruct (region_half va n HR) as (EV & HN & HNn & HS).
  rewrite (aarch64_map_loop vaddr paddr size flags st va HV HF HT HR). cbv zeta. fold n off.
  set (st0 := after_target vaddr va n st).
  assert (W0 : pt_wf st0).
  { unfold st0, after_target. destruct (_ =? _); [by apply wf_free_vaddr|done]. }
  pose proof (map_l1_spec (half_of va) (paddr - off) (page_of va) (page_of va + n) flags
    ltac:(lia) ltac:(split; [done|lia]) ltac:(intros M HM; apply HS; lia)
    (S (Z.to_nat 512)) (page_of va / 262144) (page_of va) (root st0 (half_of va)) st0 W0
    ltac:(lia) (run_start_first _ _ _) ltac:(done)
    ltac:(Z.to_euclidean_division_equations; lia) ltac:(Z.to_euclidean_division_equations; lia)
    eq_refl) as ML.
  destruct (map_l1 _ _ _ _ _ _ _) as [[c st']|m]; cbn [res_bind]; [|done].
  by destruct ML as [_ S].
Qed.

(** ** Writes that no table sees *)

(** [st'] has the tables of [st]. *)
Definition same_tables st st' : Prop :=
  pt_wf st' /\ forall k p, slot k p -> tab st' k p = tab st k p.

Lemma same_entries st st' :
  pt_wf st -> (forall k, root st' k = root st k) ->
  good (ram st') -> (forall x, free (ram st') x -> free (ram st) x) ->
  (forall k q j t, slot k (q ++ [j]) -> tab st k q = Some t -> rd t j st' = rd t j st) ->
  same_tables st st'.
Proof.
  intros W HR G F HE.
  assert (HT : forall k p, slot k p -> tab st' k p = tab st k p)
    by (intros k p; apply tab_frame; [apply HR|apply HE]).
  split; [|done]. constructor.
  - intros k p a Sp. rewrite HT by done. intros Ta. destruct (wf_tab _ W k p a Sp Ta) as [Aa Fa].
    split; [done|]. intros x Hx Fx. apply (Fa x Hx). by apply F.
  - intros k1 p1 k2 p2 a S1 S2. rewrite !HT by done. by apply (wf_inj _ W).
  - intros k p j t Sp. rewrite HT by (by apply (slot_prefix _ _ [j])). intros Tp.
    rewrite (HE k p j t Sp Tp). by apply (wf_entry _ W k p).
  - intros x Fx. apply (wf_free _ W), F, Fx.
  - done.
Qed.

(** Memory outside the tables. *)
Definition foreign st (x : Z) : Prop :=
  forall k p a, slot k p -> tab st k p = Some a -> ~ a <= x < a + 4096.

Lemma foreign_writes st st' :
  pt_wf st -> (forall k, root st' k = root st k) ->
  good (ram st') -> (forall x, free (ram st') x -> free (ram st) x) ->
  (forall x, ~ foreign st x -> mem st' x = mem st x) ->
  same_tables st st' /\ forall k N, slot k (path N) -> leaf st' k N = leaf st k N.
Proof.
  intros W HR G F HM.
  assert (HE : forall k p j t, slot k p -> tab st k p = Some t -> 0 <= j < 512 ->
    rd t j st' = rd t j st).
  { intros k p j t Sp Tp Hj. apply HM. intros HF. apply (HF k p t Sp Tp). by apply entry_in. }
  assert (ST : same_tables st st').
  { apply same_entries; auto. intros k q j t Sq Tq. destruct (slot_index _ _ _ Sq).
    by apply (HE k q); [apply (slot_prefix _ _ [j])|..]. }
  split; [done|]. intros k N SN. unfold leaf. rewrite (proj2 ST) by done.
  destruct (tab st k (path N)) as [t|] eqn:T; [|done]. apply (HE k (path N)); auto.
  apply Z.mod_pos_bound. lia.
Qed.

Lemma free_foreign st x : pt_wf st -> free (ram st) x -> foreign st x.
Proof. intros W Fx k p a Sp Tp Hx. by apply (proj2 (wf_tab _ W k p a Sp Tp) x Hx). Qed.

Lemma fresh_block_tables st st' p size :
  pt_wf st -> fresh_block st st' p size ->
  same_tables st st' /\ forall k N, slot k (path N) -> leaf st' k N = leaf st k N.
Proof.
  intros W (V & G & F & _ & Fp & HM). apply foreign_writes; auto.
  - intros k. by apply same_vars_root.
  - intros x HF. rewrite HM. destruct ((p <=? x) && (x <? p + size)) eqn:E; [|done]. zbool.
    exfalso. apply HF. apply free_foreign; [done|]. apply Fp. lia.
Qed.

(** Writing one of the recursive slots. *)
Lemma recursive_write st k p i t v :
  pt_wf st -> slot k p -> (length p < 2)%nat -> 0 <= i < 512 -> tab st k p = Some t ->
  recursive k (p ++ [i]) = true ->
  same_tables st (wr t i v st) /\ forall k' N, slot k' (path N) -> leaf (wr t i v st) k' N = leaf st k' N.
Proof.
  intros W Sp Lp Hi Tp HR. destruct (wf_tab _ W k p t Sp Tp) as [At _].
  assert (ST : same_tables st (wr t i v st)).
  { apply same_entries; [done|by intros []|apply (wf_ram _ W)|done|]. intros k' q j u Sq Tq.
    pose proof (slot_prefix _ _ _ Sq) as Sq'. destruct (slot_index _ _ _ Sq) as [Hj _].
    destruct (wf_tab _ W k' q u Sq' Tq) as [Au _]. rewrite rd_wr by done.
    rewrite decide_False; [done|]. intros [-> ->].
    destruct (wf_inj _ W k' q k p t Sq' Sp Tq Tp) as [-> ->]. destruct Sq as (_ & _ & R). congruence. }
  split; [done|]. intros k' N SN. unfold leaf. rewrite (proj2 ST) by done.
  destruct (tab st k' (path N)) as [u|] eqn:Tu; [|done].
  destruct (wf_tab _ W k' _ u SN Tu) as [Au _]. rewrite rd_wr by (auto; apply Z.mod_pos_bound; lia).
  rewrite decide_False; [done|]. intros [-> _].
  destruct (wf_inj _ W k' _ k p t SN Sp Tu Tp) as [_ E]. rewrite <- E in Lp. simpl in Lp. lia.
Qed.

(** Two roots, empty but for the slot that maps the kernel's root itself. *)
Lemma roots_wf st :
  good (ram st) -> (forall x, free (ram st) x -> 0 <= x < RAM_END) ->
  (forall k, addr_ok (root st k) /\ forall x, root st k <= x < root st k + 4096 -> ~ free (ram st) x) ->
  L1_ttbr0 st <> L1_ttbr1 st ->
  (forall k i, 0 <= i < 512 -> recursive k [i] = false -> rd (root st k) i st = 0) ->
  pt_wf st /\ forall k p, slot k p -> tab st k p = if decide (p = []) then Some (root st k) else None.
Proof.
  intros G F48 HR HN HZ.
  assert (HT : forall k p, slot k p -> tab st k p = if decide (p = []) then Some (root st k) else None).
  { intros k [|i p] Sp; [done|]. destruct (slot_prefix k [i] p Sp) as (_ & Fi & Ri).
    apply Forall_cons in Fi as [Hi _]. unfold tab. cbn [walk].
    change (mem st (entry (root st k) i)) with (rd (root st k) i st). by rewrite HZ. }
  split; [|done]. constructor; auto.
  - intros k p a Sp. rewrite HT by done. destruct (decide _); [|done]. intros [= <-]. apply HR.
  - intros k p k' p' a Sp Sp'. rewrite !HT by done.
    destruct (decide _) as [->|], (decide _) as [->|]; try done. intros [= <-] [=].
    split; [|done]. destruct k, k'; simpl in *; congruence.
  - intros k p i t Si. rewrite HT by (by apply (slot_prefix _ _ [i])).
    destruct (decide _) as [->|]; [|done]. intros [= <-] Hne. destruct Si as (_ & Fi & Ri).
    apply Forall_cons in Fi as [Hi _]. by rewrite HZ in Hne.
Qed.

(** ** What a call does to translations *)
Lemma translate_desc P0 N0 E flags N o :
  addr_ok (paddr_of P0 N0 N) -> 0 <= o < 4096 ->
  translate (desc P0 N0 E flags N) o = paddr_of P0 N0 N + o.
Proof.
  intros HP Ho. unfold translate, desc. set (a := if in_run _ _ _ _ then _ else _).
  assert (HA : attr_ok a /\ Z.land a 3 = 3).
  { unfold a. destruct (attrs_ok cfg abi_good flags) as (A1 & A2 & _).
    destruct (in_run _ _ _ _); [|done]. split; [by apply attrs_contig_ok|].
    by rewrite Z.land_lor_distr_l, A2, (abi_contig abi_good). }
  destruct HA as [[A0 A1] A2]. rewrite !Z.land_lor_distr_l, A1, A2, (addr_land _ HP), Z.lor_0_r.
  rewrite <- (addr_land _ HP) at 1. rewrite <- Z.land_assoc, Z.land_0_r. simpl.
  apply lor_add. rewrite <- (addr_land _ HP), <- Z.land_assoc.
  assert (Z.land ADDR o = 0) as ->; [|by rewrite Z.land_0_r].
  rewrite Z.land_comm, <- (Z.mod_small o (2 ^ 12)), <- (Z.land_ones o 12), <- Z.land_assoc by lia.
  apply Z.land_0_r.
Qed.

Lemma step_translates va n paddr flags st st' :
  region_ok va n -> pt_wf st -> addr_ok paddr -> paddr + n * 4096 < 2 ^ 48 ->
  step (desc paddr (page_of va) (page_of va + n) flags) st st' (half_of va) (page_of va) (page_of va + n) ->
  forall x, plain_addr x ->
  elf_vaddr_to_paddr cfg x st' =
    if decide (va <= x < va + n * 4096) then Ok (paddr + (x - va)) else elf_vaddr_to_paddr cfg x st.
Proof.
  intros HR W HP Hm S x Hx. rewrite !elf_translate by (done || by destruct S).
  destruct (region_half va n HR) as (EV & HN & HNn & _). destruct Hx as [Ix Sx].
  destruct (in_halves_page x Ix) as [HX EX]. rewrite (step_leaf _ _ _ _ _ _ S) by done.
  pose proof (Z.mod_pos_bound x 4096) as Ho.
  destruct (decide (va <= x < va + n * 4096)) as [Hin|Hout].
  - assert (Ex : x = vaddr_of (half_of va) ((x - va) / 4096 + page_of va) + x mod 4096).
    { unfold vaddr_of in *. destruct HR as (Hva & _). Z.to_euclidean_division_equations; lia. }
    destruct (vaddr_half (half_of va) ((x - va) / 4096 + page_of va) (x mod 4096)) as [K1 K2];
      [Z.to_euclidean_division_equations; lia|lia|by rewrite <- Ex|]. rewrite <- Ex in K1, K2.
    rewrite K1, K2, decide_True by (split; [done|Z.to_euclidean_division_equations; lia]).
    rewrite translate_desc; [|by apply paddr_of_ok with (E := page_of va + n);
      [split; [done|lia]|Z.to_euclidean_division_equations; lia]|lia].
    f_equal. unfold paddr_of. destruct HR as (Hva & _). Z.to_euclidean_division_equations; lia.
  - rewrite decide_False; [done|]. intros [EK EN]. apply Hout. rewrite EK in EX.
    unfold vaddr_of in *. lia.
Qed.

(** ** Initialisation *)

(** The translation registers' values, which no mapping changes. *)
Definition regs st : Z * list Z := (ttbr0 st, ttbr1 st).

Lemma write_ptes_regs n L3 i c st : regs (snd (write_ptes cfg n L3 i c st)) = regs st.
Proof. revert i c st; induction n as [|n IH]; intros i c st; [done|]. cbn [write_ptes]. by rewrite IH. Qed.

Lemma map_l3_regs fuel L3 i e c st c' st' :
  map_l3 cfg fuel L3 i e c st = Ok (c', st') -> regs st' = regs st.
Proof.
  revert i c st; induction fuel as [|fuel IH]; intros i c st; cbn [map_l3]; [done|].
  destruct (_ && _); [|by intros [= <- <-]].
  match goal with |- context [write_ptes ?a ?b ?c ?d ?e ?f] =>
    pose proof (write_ptes_regs b c d e f) as R; destruct (write_ptes a b c d e f) as [[i1 c1] st1] end.
  intros E. by rewrite (IH _ _ _ E).
Qed.

Lemma calloc_regs size align st st' p : calloc size align st = Ok (st', p) -> regs st' = regs st.
Proof. unfold calloc. destruct (calloc_ram _ _ _) as [[[a q] z]|]; simpl; [|done]. by intros [= <- <-]. Qed.

Lemma pt_alloc_regs st st' p : pt_alloc cfg st = Ok (st', p) -> regs st' = regs st.
Proof.
  unfold pt_alloc. destruct (calloc _ _ _) as [[st1 q]|] eqn:E; simpl; [|done].
  destruct (_ =? _); [done|]. intros [= <- <-]. by apply (calloc_regs _ _ _ _ _ E).
Qed.

Lemma ensure_regs t i st st' : ensure_table cfg t i st = Ok st' -> regs st' = regs st.
Proof.
  unfold ensure_table. destruct (_ =? _); [|by intros [= <-]].
  destruct (pt_alloc cfg st) as [[st1 q]|] eqn:E; simpl; [|done]. intros [= <-].
  by rewrite <- (pt_alloc_regs _ _ _ E).
Qed.

Lemma map_l2_regs fuel L2 i e c st c' st' :
  map_l2 cfg fuel L2 i e c st = Ok (c', st') -> regs st' = regs st.
Proof.
  revert i c st; induction fuel as [|fuel IH]; intros i c st; cbn [map_l2]; [done|].
  destruct (_ && _); [|by intros [= <- <-]].
  destruct (ensure_table _ _ _ _) as [st1|] eqn:E1; cbn [res_bind]; [|done].
  destruct (map_l3 _ _ _ _ _ _ _) as [[c2 st2]|] eqn:E2; cbn [res_bind]; [|done].
  intros E. by rewrite (IH _ _ _ E), (map_l3_regs _ _ _ _ _ _ _ _ E2), (ensure_regs _ _ _ _ E1).
Qed.

Lemma map_l1_regs fuel L1 i e c st c' st' :
  map_l1 cfg fuel L1 i e c st = Ok (c', st') -> regs st' = regs st.
Proof.
  revert i c st; induction fuel as [|fuel IH]; intros i c st; cbn [map_l1]; [done|].
  destruct (_ && _); [|by intros [= <- <-]]. rewrite (use_large_4k cfg page_4k).
  destruct (ensure_table _ _ _ _) as [st1|] eqn:E1; cbn [res_bind]; [|done].
  destruct (map_l2 _ _ _ _ _ _ _) as [[c2 st2]|] eqn:E2; cbn [res_bind]; [|done].
  intros E. by rewrite (IH _ _ _ E), (map_l2_regs _ _ _ _ _ _ _ _ E2), (ensure_regs _ _ _ _ E1).
Qed.

Lemma aarch64_map_regs vaddr paddr size flags st st' v :
  aarch64_map cfg vaddr paddr size flags st = Ok (st', v) -> regs st' = regs st.
Proof.
  unfold aarch64_map. destruct (flags1_virtual cfg); cbn [negb]; [|by intros [= <- <-]]. cbv zeta.
  intros E. apply res_bind_Ok in E as ([st1 va] & E1 & E).
  assert (R1 : regs st1 = regs st).
  { destruct (_ =? _); [by injection E1 as <- <-|]. destruct (negb _); [done|]. by injection E1 as <- <-. }
  destruct (_ <? _); [done|]. apply res_bind_Ok in E as (L1 & _ & E).
  apply res_bind_Ok in E as ([c st2] & E2 & E). injection E as <- <-.
  by rewrite (map_l1_regs _ _ _ _ _ _ _ _ E2), R1.
Qed.

(** The allocations aarch64_map_init does not check. *)
Definition no_ram : Prop := exists size a a' z, calloc_ram size 4096 a = Ok (a', NULL_PADDR, z).

(** A tree in which nothing is translated. *)
Definition empty_tree st : Prop := pt_wf st /\ forall k N, slot k (path N) -> leaf st k N = 0.

Lemma same_tables_empty st st' :
  same_tables st st' /\ (forall k N, slot k (path N) -> leaf st' k N = leaf st k N) ->
  empty_tree st -> empty_tree st'.
Proof. intros [[W _] L] [_ E]. split; [done|]. intros k N S. rewrite L by done. by apply E. Qed.

(** The two L1 tables, the kernel's mapped in itself. *)
Lemma init_roots st t0 st0 pte st1 r :
  good (ram st) -> (forall x, free (ram st) x -> 0 <= x < RAM_END) ->
  fresh_block st st0 t0 4096 -> fresh_block (with_ttbr0 t0 (PTP_PADDR cfg t0) st0) st1 r 4096 ->
  pte = set_pte cfg r PROT_RW ->
  let st2 := wr r L1_L1_IDX pte (with_L1_ttbr1 (PTP_PADDR cfg pte) st1) in
  PTP_PADDR cfg pte = r /\ L1_ttbr1 st2 = r /\ empty_tree st2 /\
  (forall k p, slot k p -> tab st2 k p = if decide (p = []) then Some (root st2 k) else None).
Proof.
  intros G F48 FB0 FB1 -> st2. destruct (abi_slots abi_good) as (H11 & H12 & H22 & H1112).
  destruct FB0 as (V0 & G0 & F0 & A0 & P0 & M0). destruct FB1 as (V1 & G1 & F1 & A1 & P1 & M1).
  assert (Er : PTP_PADDR cfg (set_pte cfg r PROT_RW) = r).
  { rewrite set_pte_attrs. apply pte_paddr; [done..|]. by apply attrs_ok. }
  assert (Et : PTP_PADDR cfg t0 = t0) by (rewrite ptp_paddr by done; by apply addr_land).
  assert (E1 : L1_ttbr1 st2 = r) by exact Er.
  assert (E0 : L1_ttbr0 st2 = t0) by (unfold st2; rewrite V1; exact Et).
  assert (Hne : t0 <> r).
  { intros ->. apply (P0 r ltac:(lia)). apply (P1 r). lia. }
  assert (Ne : forall x, t0 <= x < t0 + 4096 -> ~ r <= x < r + 4096).
  { intros x Hx Hr. apply (P0 x Hx). by apply (P1 x). }
  destruct (roots_wf st2) as [W2 T2].
  - exact G1.
  - intros x Fx. apply F48, F0, (F1 x Fx).
  - intros [|]; unfold root; rewrite ?E1, ?E0; (split; [done|]); intros x Hx Fx.
    + by apply (P1 x Hx).
    + apply (P0 x Hx), (F1 x Fx).
  - by rewrite E0, E1.
  - intros k i Hi HR. assert (root st2 k = if k then r else t0) as -> by (by destruct k).
    unfold rd, st2, wr; simpl. destruct k.
    + rewrite (proj2 (Z.eqb_neq _ _)).
      * rewrite M1. pose proof (entry_in r i Hi).
        by rewrite (proj2 (Z.leb_le _ _)), (proj2 (Z.ltb_lt _ _)) by lia.
      * intros E. apply entry_inj in E as [_ ->]; auto. unfold recursive in HR.
        by rewrite Z.eqb_refl in HR.
    + rewrite (proj2 (Z.eqb_neq _ _)).
      * rewrite M1. simpl. pose proof (entry_in t0 i Hi).
        destruct ((r <=? entry t0 i) && (entry t0 i <? r + 4096)); [done|]. rewrite M0.
        by rewrite (proj2 (Z.leb_le _ _)), (proj2 (Z.ltb_lt _ _)) by lia.
      * intros E. by apply entry_inj in E as [? _].
  - split; [done|]. split; [done|]. split; [|done]. split; [done|].
    intros k N S. unfold leaf. by rewrite T2, decide_False.
Qed.

(** The kernel's L2 table for startup's mappings, mapped in itself. *)
Lemma init_l2 st r v :
  empty_tree st -> L1_ttbr1 st = r ->
  (forall k p, slot k p -> tab st k p = if decide (p = []) then Some (root st k) else None) ->
  match pt_alloc cfg st with
  | Ok (st1, pte) =>
      let st2 := wr (PTP_PADDR cfg pte) L2_L2_IDX v (wr (L1_ttbr1 st1) L1_L2_IDX pte st1) in
      empty_tree st2 /\ (forall k, root st2 k = root st k)
  | Crash m => alloc_crash m
  end.
Proof.
  intros [W L0] Er HT. destruct (abi_slots abi_good) as (H11 & H12 & H22 & H1112).
  pose proof (pt_alloc_spec st (wf_ram _ W) (wf_free _ W)) as PA.
  destruct (pt_alloc cfg st) as [[st1 pte]|m]; [|done].
  destruct PA as (q & -> & FB). pose proof FB as (V1 & _ & _ & Aq & _).
  assert (Eq : PTP_PADDR cfg (set_pte cfg q PROT_RW) = q).
  { rewrite set_pte_attrs. apply pte_paddr; [done..|]. by apply attrs_ok. }
  assert (R1 : forall k, root st1 k = root st k) by (intros k; by apply same_vars_root).
  assert (Er1 : L1_ttbr1 st1 = r) by (by rewrite <- Er; apply (R1 true)).
  assert (S12 : slot true ([] ++ [L1_L2_IDX])).
  { split; [simpl; lia|]. split; [by constructor|]. simpl. rewrite (proj2 (Z.eqb_neq _ _)) by done.
    by rewrite andb_false_r. }
  assert (T0 : tab st true [] = Some r) by (rewrite <- Er; done).
  assert (Z12 : rd r L1_L2_IDX st = 0).
  { pose proof (HT true _ S12) as E. rewrite tab_snoc, T0 in E. cbn [mbind option_bind] in E.
    destruct (rd r L1_L2_IDX st =? 0) eqn:EZ; [by zbool|done]. }
  pose proof (link_step st st1 true [] L1_L2_IDX r q _ W S12 T0 Z12 FB Eq
    ltac:(by apply pte_type) (fun _ => 0) 0) as [S1 T1].
  set (st2 := wr r L1_L2_IDX _ st1) in *. cbv zeta. rewrite Er1, Eq. fold st2.
  assert (ET2 : empty_tree st2).
  { split; [by destruct S1|]. intros k N SN. rewrite (step_leaf _ _ _ _ _ _ S1) by done.
    rewrite decide_False by lia. by apply L0. }
  pose proof (recursive_write st2 true ([] ++ [L1_L2_IDX]) L2_L2_IDX q v (proj1 ET2) S12
    ltac:(simpl; lia) H22 T1) as RW.
  split.
  - apply (same_tables_empty st2); [|done]. apply RW. unfold recursive; simpl.
    rewrite !Z.eqb_refl. by rewrite orb_true_r.
  - intros k. rewrite <- R1. by destruct k.
Qed.

(** The cpus' L0 slots lie in one block. *)
Lemma init_L0_spec n L0 pte st :
  let st' := init_L0 n L0 pte st in
  ttbr1 st' = ttbr1 st ++ ((fun i => L0 + 64 * Z.of_nat i) <$> seq 0 n) /\
  (forall k, root st' k = root st k) /\ ram st' = ram st /\ ttbr0 st' = ttbr0 st /\
  Mmu.L0_vaddr st' = Mmu.L0_vaddr st /\
  (forall x, ~ L0 <= x < L0 + 64 * Z.of_nat n -> mem st' x = mem st x) /\
  (forall i, (i < n)%nat -> rd (L0 + 64 * Z.of_nat i) 1 st' = pte).
Proof.
  revert L0 st; induction n as [|n IH]; intros L0 st.
  { simpl. split_and!; try done; [by rewrite app_nil_r|lia]. }
  cbn [init_L0]. cbv zeta.
  destruct (IH (L0 + 64) (wr L0 1 pte (with_ttbr1 (ttbr1 st ++ [L0]) st)))
    as (E1 & E2 & E3 & E4 & E5 & E6 & E7).
  split_and!.
  - rewrite E1. simpl. rewrite <- app_assoc. simpl. f_equal. f_equal; [lia|].
    rewrite <- seq_shift, <- list_fmap_compose. apply list_fmap_ext. intros i y _. simpl. lia.
  - intros k. rewrite E2. by destruct k.
  - by rewrite E3.
  - by rewrite E4.
  - by rewrite E5.
  - intros x Hx. rewrite E6 by lia. simpl. rewrite (proj2 (Z.eqb_neq _ _)); [done|].
    unfold entry. lia.
  - intros [|i] Hi.
    + unfold rd. rewrite E6 by (unfold entry; lia). simpl. rewrite Z.add_0_r. by rewrite Z.eqb_refl.
    + replace (L0 + 64 * Z.of_nat (S i)) with (L0 + 64 + 64 * Z.of_nat i) by lia. apply E7. lia.
Qed.

Lemma calloc_null size st st' : calloc size (page_size cfg) st = Ok (st', NULL_PADDR) -> no_ram.
Proof.
  unfold calloc, no_ram. rewrite page_4k. destruct (calloc_ram size 4096 (ram st)) as [[[a q] z]|] eqn:E;
    simpl; [|done]. intros [= _ ->]. eauto.
Qed.

Definition L0_bytes : Z := ROUNDPG cfg (64 * PROCESSORS_MAX).

(** What the code after the two root tables does to the registers' values. *)
Lemma init_regs st st' :
  0 < PROCESSORS_MAX -> aarch64_map_init cfg st = Ok st' ->
  exists st0 st1 t0 L0 st2, calloc (page_size cfg) (page_size cfg) st = Ok (st0, t0) /\ ttbr0 st' = t0 /\
    calloc L0_bytes (page_size cfg) st1 = Ok (st2, L0) /\ (ttbr1 st = [] -> head (ttbr1 st') = Some L0).
Proof.
  intros HM E. unfold aarch64_map_init in E. rewrite (use_large_4k cfg page_4k) in E. cbv zeta in E.
  apply res_bind_Ok in E as ([st0 t0] & C0 & E). apply res_bind_Ok in E as ([st1 p1] & C1 & E).
  apply res_bind_Ok in E as (st2 & C2 & E). apply res_bind_Ok in C2 as ([st3 p2] & C3 & C2).
  injection C2 as <-. apply res_bind_Ok in E as ([st4 L0] & C4 & E).
  apply res_bind_Ok in E as ([st5 l0] & C5 & E). injection E as <-.
  match type of C4 with calloc _ _ ?s = _ => exists st0, s, t0, L0, st4 end.
  destruct (init_L0_spec (Z.to_nat PROCESSORS_MAX) L0 p1 (with_L0 l0 st5)) as (E1 & _ & _ & E4 & _).
  assert (R : regs st5 = (t0, ttbr1 st)).
  { rewrite (aarch64_map_regs _ _ _ _ _ _ _ C5), (calloc_regs _ _ _ _ _ C4).
    transitivity (regs st3); [done|]. rewrite (pt_alloc_regs _ _ _ C3).
    transitivity (regs st1); [done|]. rewrite (pt_alloc_regs _ _ _ C1).
    pose proof (calloc_regs _ _ _ _ _ C0) as R0. unfold regs in *. simpl. by injection R0 as _ ->. }
  unfold regs in R. injection R as R1 R2.
  split_and!; [done|by rewrite E4|done|]. intros HE. rewrite E1. simpl. rewrite R2, HE. simpl.
  destruct (Z.to_nat PROCESSORS_MAX) eqn:EN; [lia|]. simpl. f_equal. lia.
Qed.

(** The tables startup ends up with. *)
Record tables_ready st (L0 : Z) : Prop := {
  ready_wf : pt_wf st;
  ready_ttbr1 : ttbr1 st = (fun i => L0 + 64 * Z.of_nat i) <$> seq 0 (Z.to_nat PROCESSORS_MAX);
  ready_L0 : Mmu.L0_vaddr st = AARCH64_STARTUP_BASE;
  ready_slots i : (i < Z.to_nat PROCESSORS_MAX)%nat ->
    PTP_PADDR cfg (rd (L0 + 64 * Z.of_nat i) 1 st) = L1_ttbr1 st;
  ready_block x : L0 <= x < L0 + L0_bytes -> foreign st x /\ ~ free (ram st) x
}.

Lemma L0_bytes_ok : 0 < PROCESSORS_MAX <= 1048576 ->
  64 * PROCESSORS_MAX <= L0_bytes < 64 * PROCESSORS_MAX + 4096 /\ L0_bytes mod 4096 = 0.
Proof.
  intros HM. unfold L0_bytes, ROUNDPG. rewrite page_4k.
  assert (HB : 0 <= 64 * PROCESSORS_MAX <= 9223372036854775808) by lia.
  destruct (ROUND_spec _ 4096 HB pow2_align_4096) as [R1 R2]. done.
Qed.

(** Mapping the block of L0 tables, and filling it. *)
Lemma init_L0_block st st1 L0 pte :
  flags1_virtual cfg = true -> 0 < PROCESSORS_MAX <= 1048576 ->
  region_ok AARCH64_STARTUP_BASE (L0_bytes / 4096) ->
  empty_tree st -> free_vaddr st = AARCH64_STARTUP_BASE -> PTP_PADDR cfg pte = L1_ttbr1 st ->
  ttbr1 st = [] -> fresh_block st st1 L0 L0_bytes ->
  match aarch64_map cfg 18446744073709551615 L0 L0_bytes PROT_RW st1 with
  | Ok (st2, l0) =>
      let st3 := init_L0 (Z.to_nat PROCESSORS_MAX) L0 pte (with_L0 l0 st2) in
      tables_ready st3 L0 /\
      forall x, plain_addr x -> elf_vaddr_to_paddr cfg x st3 =
        Ok (if decide (AARCH64_STARTUP_BASE <= x < AARCH64_STARTUP_BASE + L0_bytes)
            then L0 + (x - AARCH64_STARTUP_BASE) else NULL_PADDR)
  | Crash m => alloc_crash m
  end.
Proof.
  intros HV HM HR ET Efv Epte Ettbr FB. destruct (L0_bytes_ok HM) as [HL HLm].
  destruct (fresh_block_tables st st1 L0 L0_bytes (proj1 ET) FB) as [ST1 LF1].
  assert (ET1 : empty_tree st1) by (by apply (same_tables_empty st); [split|]).
  destruct FB as (V1 & G1 & F1 & A1 & P1 & M1).
  assert (Hmax : L0 + L0_bytes <= RAM_END).
  { destruct (P1 (L0 + L0_bytes - 1) ltac:(lia)) as [Fx _]. apply (wf_free _ (proj1 ET)) in Fx. lia. }
  assert (Eoff : offset_of L0 = 0) by apply A1.
  assert (Epg : pages_of L0 L0_bytes = L0_bytes / 4096).
  { unfold pages_of. rewrite Eoff. Z.to_euclidean_division_equations; lia. }
  assert (Hv1 : free_vaddr st1 = AARCH64_STARTUP_BASE) by (by rewrite V1).
  pose proof (aarch64_map_step 18446744073709551615 L0 L0_bytes PROT_RW st1 AARCH64_STARTUP_BASE HV
    (proj1 ET1) ltac:(unfold frames_in_range, RAM_END in *; destruct A1; lia)
    ltac:(by left) ltac:(by rewrite Epg)) as MS.
  cbv zeta in MS. rewrite Epg, Eoff, Z.sub_0_r, Z.add_0_r in MS.
  destruct (aarch64_map _ _ _ _ _ _) as [[st2 l0]|m] eqn:EM; [|done]. destruct MS as [El S2]. cbv zeta.
  set (n := L0_bytes / 4096) in *. assert (En : n * 4096 = L0_bytes)
    by (unfold n; Z.to_euclidean_division_equations; lia).
  set (st0 := after_target 18446744073709551615 AARCH64_STARTUP_BASE n st1) in *.
  assert (W0 : pt_wf st0) by (by apply wf_free_vaddr, ET1).
  assert (For2 : forall x, L0 <= x < L0 + L0_bytes -> foreign st2 x /\ ~ free (ram st2) x).
  { intros x Hx. destruct (P1 x Hx) as [Fx NFx]. split.
    - intros k p a Sp Tp Hin. destruct (step_new _ _ _ _ _ _ S2 k p a Sp Tp) as [Told|Tnew].
      + assert (T1 : tab st1 k p = Some a) by exact Told. rewrite (proj2 ST1) in T1 by done.
        by apply (free_foreign st x (proj1 ET) Fx k p a).
      + by apply NFx, (Tnew x).
    - intros Fx2. by apply NFx, (step_free _ _ _ _ _ _ S2 x). }
  destruct (init_L0_spec (Z.to_nat PROCESSORS_MAX) L0 pte (with_L0 l0 st2))
    as (E1 & E2 & E3 & E4 & E5 & E6 & E7).
  set (st3 := init_L0 _ _ _ _) in *.
  assert (R3 : forall k, root st3 k = root st2 k) by (intros k; rewrite E2; by destruct k).
  destruct (foreign_writes st2 st3 (step_wf _ _ _ _ _ _ S2) R3) as [ST3 LF3].
  { rewrite E3. apply (wf_ram _ (step_wf _ _ _ _ _ _ S2)). }
  { intros x. by rewrite E3. }
  { intros x HF. rewrite E6; [done|]. intros Hx. apply HF, For2. lia. }
  assert (Rg : regs st2 = regs st) by (rewrite (aarch64_map_regs _ _ _ _ _ _ _ EM), V1; done).
  split; [constructor|].
  - apply ST3.
  - rewrite E1. simpl. unfold regs in Rg. injection Rg as _ ->. by rewrite Ettbr.
  - rewrite E5. simpl. rewrite Z.eqb_refl in El. rewrite El, u64_id; [done|]. pose proof (abi_base abi_good).
    change (2 ^ 64) with 18446744073709551616 in *. change (2 ^ 39) with 549755813888 in *. lia.
  - intros i Hi. rewrite E7, Epte by done. change (L1_ttbr1 st3) with (root st3 true).
    rewrite R3, (same_vars_root _ _ true (step_vars _ _ _ _ _ _ S2)).
    change (root st0 true) with (root st1 true). by rewrite (same_vars_root _ _ true V1).
  - intros x Hx. destruct (For2 x Hx) as [Fo Fr]. split; [|by rewrite E3].
    intros k p a Sp. rewrite (proj2 ST3) by done. by apply Fo.
  - assert (Hfr : L0 + n * 4096 < 2 ^ 48) by (rewrite En; unfold RAM_END in Hmax; lia).
    intros x Px. rewrite elf_translate by (done || apply ST3).
    rewrite LF3 by apply Px. rewrite <- (elf_translate x st2) by (done || by destruct S2).
    rewrite (step_translates _ n L0 PROT_RW st0 st2 HR W0 A1 Hfr S2 x Px), En.
    destruct (decide _) as [_|_]; [done|]. rewrite (elf_translate x st0 W0 Px).
    change (leaf st0 ?k ?N) with (leaf st1 k N). rewrite (proj2 ET1) by apply Px. done.
Qed.

(** aarch64_map_init, from an allocator to the tables. *)
Definition init_result st (r : res mmu) : Prop :=
  match r with
  | Ok st' =>
      ttbr0 st' = NULL_PADDR \/ head (ttbr1 st') = Some NULL_PADDR \/
      exists L0, tables_ready st' L0 /\
        forall x, plain_addr x -> elf_vaddr_to_paddr cfg x st' =
          Ok (if decide (AARCH64_STARTUP_BASE <= x < AARCH64_STARTUP_BASE + L0_bytes)
              then L0 + (x - AARCH64_STARTUP_BASE) else NULL_PADDR)
  | Crash m => alloc_crash m \/ no_ram
  end.

Lemma aarch64_map_init_spec st :
  flags1_virtual cfg = true -> 0 < PROCESSORS_MAX <= 1048576 ->
  region_ok AARCH64_STARTUP_BASE (L0_bytes / 4096) ->
  good (ram st) -> (forall x, free (ram st) x -> 0 <= x < RAM_END) -> ttbr1 st = [] ->
  init_result st (aarch64_map_init cfg st).
Proof.
  intros HV HM HR G F48 E1. pose proof (fun st' => init_regs st st' ltac:(lia)) as IR.
  unfold aarch64_map_init in *. rewrite (use_large_4k cfg page_4k) in *. cbv zeta in *.
  pose proof (calloc_block (page_size cfg) st G F48 ltac:(rewrite page_4k; lia)) as C0.
  destruct (calloc (page_size cfg) (page_size cfg) st) as [[st0 t0]|m] eqn:K0; [|by left].
  cbn [res_bind] in *. destruct C0 as [->|FB0].
  { pose proof (calloc_null _ _ _ K0).
    match goal with |- init_result _ ?r => destruct r as [st'|m] eqn:ER end; [|by right].
    destruct (IR st' eq_refl) as (? & ? & ? & ? & ? & [= <- <-] & Et & _). by left. }
  rewrite page_4k in FB0. pose proof FB0 as (V0 & G0 & F0 & _).
  set (sa := with_ttbr0 t0 (PTP_PADDR cfg t0) st0) in *.
  assert (F48a : forall x, free (ram sa) x -> 0 <= x < RAM_END) by (intros x Fx; by apply F48, F0).
  pose proof (pt_alloc_spec sa G0 F48a) as P1.
  destruct (pt_alloc cfg sa) as [[st1 pte]|m]; [|by left]. cbn [res_bind] in *.
  destruct P1 as (r & Ep & FB1).
  destruct (init_roots st t0 st0 pte st1 r G F48 FB0 FB1 Ep) as (Epr & Er & ET & HT).
  cbn [with_L1_ttbr1 L1_ttbr1] in *. rewrite Epr in *. set (sb := wr r L1_L1_IDX pte _) in *.
  pose proof (init_l2 sb r pte ET Er HT) as P2.
  destruct (pt_alloc cfg sb) as [[st2 pte2]|m] eqn:K2; [|by left]. cbn [res_bind] in *.
  destruct P2 as [ET2 R2]. set (sc := wr (PTP_PADDR cfg pte2) _ _ _) in *.
  set (sd := with_free_vaddr AARCH64_STARTUP_BASE sc) in *.
  assert (ETd : empty_tree sd) by (split; [by apply wf_free_vaddr, ET2|apply (proj2 ET2)]).
  destruct (L0_bytes_ok HM) as [HL _]. fold L0_bytes in *.
  pose proof (calloc_block L0_bytes sd (wf_ram _ (proj1 ETd)) (wf_free _ (proj1 ETd)) ltac:(lia)) as C3.
  destruct (calloc L0_bytes (page_size cfg) sd) as [[st3 L0]|m] eqn:K3; [|by left]. cbn [res_bind] in *.
  destruct C3 as [->|FB3].
  { pose proof (calloc_null _ _ _ K3).
    match goal with |- init_result _ ?r => destruct r as [st'|m] eqn:ER end; [|by right].
    right; left. apply res_bind_Ok in ER as ([st5 l0] & C5 & E). injection E as <-.
    destruct (init_L0_spec (Z.to_nat PROCESSORS_MAX) NULL_PADDR pte (with_L0 l0 st5)) as (-> & _).
    simpl. assert (R : ttbr1 st5 = []).
    { pose proof (aarch64_map_regs _ _ _ _ _ _ _ C5) as R5. rewrite (calloc_regs _ _ _ _ _ K3) in R5.
      unfold regs in R5. injection R5 as _ ->. simpl.
      pose proof (pt_alloc_regs _ _ _ K2) as R6. unfold regs in R6. injection R6 as _ ->.
      pose proof FB1 as (V1 & _). unfold sb. simpl. rewrite V1. simpl. by rewrite V0. }
    rewrite R. destruct (Z.to_nat PROCESSORS_MAX) eqn:EN; [lia|]. done. }
  assert (Ettbr : ttbr1 sd = []).
  { pose proof (pt_alloc_regs _ _ _ K2) as R6. unfold regs in R6. injection R6 as _ R6.
    unfold sd, sc. simpl. rewrite R6. pose proof FB1 as (V1 & _). unfold sb. simpl. rewrite V1. simpl.
    by rewrite V0. }
  assert (Epd : PTP_PADDR cfg pte = L1_ttbr1 sd).
  { rewrite Epr. change (L1_ttbr1 sd) with (root sc true). by rewrite R2. }
  pose proof (init_L0_block sd st3 L0 pte HV HM HR ETd eq_refl Epd Ettbr FB3) as IB.
  destruct (aarch64_map _ _ _ _ _ st3) as [[st4 l0]|m]; [|by left]. cbn [res_bind]. right; right.
  exists L0. exact IB.
Qed.
End tree.
