(* ===== verification/AddressSpace.v ===== *)
(** * What aarch64_map.c promises: theorems over PageTables.v and Ram.v

    The allocator of ram.c behind the interface the tables are built on, the
    translations and descriptors a call makes, what it may write, how the
    tables start, which arguments stop startup, and that the loops end. *)
From S2P Require Import Prelude RamList Syspage Strings Asinfo Ram Mmu PageTables.
Open Scope Z_scope.

(** ** ram.c as the allocator of the tables

    A call's memset calls are the ones it adds to [zeroed]. *)
Section ram_calloc.
Context {T : Type} `{StringTable T} `{asinfo_abi} (hw : machine).

#[export] Instance ram_calloc : Calloc (ram_state T) := fun size align st =>
  let! (st', p) := Ram.calloc_ram hw size align (with_zeroed [] st) in Ok (st', p, zeroed st').

(** RAM is known, sysram is not yet registered, the system is not secure. *)
Definition ram_ready (st : ram_state T) : Prop :=
  sysram_added st = false /\ exists avoid ram,
    ws_lists st = Some (avoid, ram) /\ avoid_wf avoid /\ ram_wf ram.

Lemma ram_calloc_ok : secure_system hw = false -> calloc_ok ram_ready (Ram.free (T := T)).
Proof.
  intros HS. constructor. intros size align st st' p z (S0 & avoid & ram & HL & AW & W) Hal Hsz E.
  unfold Mmu.calloc_ram, ram_calloc, Ram.calloc_ram in E. rewrite HS in E.
  pose proof (alloc_ram_spec hw size align (with_zeroed [] st) avoid ram HL S0 W AW Hal
    ltac:(unfold PA_LIMIT; lia)) as A.
  destruct (alloc_ram _ _ _ _ _) as [[st1 a]|m]; [|done]. destruct A as [-> A].
  set (a := find_ram ram avoid size align 0 0) in *. destruct (decide (a = NULL_PADDR)) as [EN|NN].
  - subst st1. rewrite EN in E. simpl in E. injection E as <- <- <-.
    split; [|by split]. split; [done|]. exists avoid, ram. done.
  - destruct A as (Am & F & ram' & -> & W' & C). unfold zeroed_block in E. rewrite HS in E.
    cbn [res_bind] in E. rewrite (proj2 (Z.eqb_neq _ _)) in E by done. simpl in E. injection E as <- <- <-.
    split; [split; [done|]; exists avoid, ram'; done|]. unfold Ram.free; simpl. rewrite HL.
    split; [intros x Hx; by apply C|]. intros _. split_and!; [done..|]. intros x Hx. split.
    + by apply F.
    + rewrite C. tauto.
Qed.
End ram_calloc.

(** ** The loops end, for every page size and every state of memory *)
Section loops_end.
Context `{abi : mmu_abi} {A : Type} `{Calloc A} (cfg : mmu_config).
Implicit Types st : mmu (A := A).

Lemma write_ptes_index n L3 i c st : fst (fst (write_ptes cfg n L3 i c st)) = i + Z.of_nat n.
Proof.
  revert i c st; induction n as [|n IH]; intros i c st; cbn [write_ptes]; [simpl; lia|].
  rewrite IH. lia.
Qed.

Lemma map_l3_ends fuel L3 i e c st :
  NPTE_PTBL cfg - i < Z.of_nat fuel -> (0 < fuel)%nat -> exists r, map_l3 cfg fuel L3 i e c st = Ok r.
Proof.
  revert i c st; induction fuel as [|fuel IH]; intros i c st HF HP; [lia|]. cbn [map_l3].
  destruct ((i <? _) && _) eqn:E; [|eauto]. zbool. cbv zeta.
  set (n := if USE_CONTIG _ _ _ _ then contig_pages cfg else 1).
  assert (Hn : 1 <= n) by (unfold n, contig_pages; destruct (USE_CONTIG _ _ _ _), (USE_LARGE_PAGE cfg); done).
  match goal with |- context [write_ptes cfg ?a ?b ?c ?d ?e] =>
    pose proof (write_ptes_index a b c d e) as W; destruct (write_ptes cfg a b c d e) as [[i1 c1] st1] end.
  simpl in W. apply IH; lia.
Qed.

Lemma ensure_table_ends T i st :
  match ensure_table cfg T i st with Ok _ => True | Crash m => alloc_crash (A := A) m end.
Proof.
  unfold ensure_table. destruct (_ =? 0); [|done]. unfold pt_alloc, calloc.
  destruct (calloc_ram _ _ _) as [[[a p] z]|m] eqn:E; simpl; [|right; eauto].
  destruct (_ =? NULL_PADDR); simpl; [by left|done].
Qed.

Lemma choose_L1_ends va e st m : choose_L1 cfg va e st = Crash m -> m ∈ [user_end_msg; base_msg].
Proof.
  unfold choose_L1. destruct (_ <? _).
  - destruct (_ <=? _); [|done]. intros [= <-]. set_solver.
  - destruct (_ <? _); [|done]. intros [= <-]. set_solver.
Qed.

Hypothesis l3_index : forall va, 0 <= if USE_LARGE_PAGE cfg then L3_IDX_64K va else L3_IDX va.
Hypothesis l2_index : forall va, 0 <= if USE_LARGE_PAGE cfg then L2_IDX_64K va else L2_IDX va.

Lemma map_l2_ends fuel L2 i e c st :
  NPTE_PTBL cfg - i < Z.of_nat fuel -> (0 < fuel)%nat ->
  match map_l2 cfg fuel L2 i e c st with Ok _ => True | Crash m => alloc_crash (A := A) m end.
Proof.
  revert i c st; induction fuel as [|fuel IH]; intros i c st HF HP; [lia|]. cbn [map_l2].
  destruct ((i <? _) && _) eqn:E; [|done]. zbool. cbv zeta.
  pose proof (ensure_table_ends L2 i st) as ET. destruct (ensure_table _ _ _ _) as [st1|m]; [|done].
  cbn [res_bind]. pose proof (l3_index (c_va c)) as I3. set (i3 := if USE_LARGE_PAGE cfg then _ else _) in *.
  destruct (map_l3_ends (S (Z.to_nat (NPTE_PTBL cfg))) (PTP_PADDR cfg (rd L2 i st1)) i3 e c st1
    ltac:(lia) ltac:(lia)) as [[c2 st2] ->]. cbn [res_bind]. apply IH; lia.
Qed.

Lemma map_l1_ends fuel L1 i e c st :
  NPTE_PTBL cfg - i < Z.of_nat fuel -> (0 < fuel)%nat ->
  match map_l1 cfg fuel L1 i e c st with Ok _ => True | Crash m => alloc_crash (A := A) m end.
Proof.
  revert i c st; induction fuel as [|fuel IH]; intros i c st HF HP; [lia|]. cbn [map_l1].
  destruct ((i <? _) && _) eqn:E; [|done]. zbool.
  assert (Go : forall T j st1, 0 <= j ->
    match res_bind (map_l2 cfg (S (Z.to_nat (NPTE_PTBL cfg))) T j e c st1)
      (fun '(c, st) => map_l1 cfg fuel L1 (i + 1) e c st) with
    | Ok _ => True | Crash m => alloc_crash (A := A) m end).
  { intros T j st1 Hj. pose proof (map_l2_ends (S (Z.to_nat (NPTE_PTBL cfg))) T j e c st1) as M2.
    destruct (map_l2 _ _ _ _ _ _ _) as [[c2 st2]|m]; cbn [res_bind]; [|apply M2; lia]. apply IH; lia. }
  pose proof (l2_index (c_va c)) as I2. destruct (USE_LARGE_PAGE cfg); [by apply Go|].
  pose proof (ensure_table_ends L1 i st) as ET. destruct (ensure_table _ _ _ _) as [st1|m]; [|done].
  cbn [res_bind]. by apply Go.
Qed.
End loops_end.

(** ** Theorems *)

(** An argument the caller leaves open. *)
Definition ANY_VADDR : Z := 18446744073709551615.

Section ends.
Context `{abi : mmu_abi} {A : Type} `{Calloc A} (cfg : mmu_config).

(** The loops end. For either page size, any arguments and any contents
    of memory, the loops of aarch64_map end: it returns, or stops startup for
    its arguments or because a table cannot be allocated. *)
Theorem aarch64_map_ends (vaddr paddr size : Z) (flags : prot) (st : mmu (A := A)) :
  (forall va, 0 <= L1_IDX va /\ 0 <= L2_IDX va /\ 0 <= L3_IDX va) ->
  (forall va, 0 <= L2_IDX_64K va /\ 0 <= L3_IDX_64K va) ->
  match aarch64_map cfg vaddr paddr size flags st with
  | Ok _ => True
  | Crash m => alloc_crash (A := A) m \/ m ∈ [alignment_msg; wrap_msg; user_end_msg; base_msg]
  end.
Proof.
  intros H1 H2. unfold aarch64_map. destruct (negb _); [done|]. cbv zeta.
  match goal with |- context [res_bind ?r _] => destruct r as [[st1 va]|m] eqn:E1 end.
  2: { destruct (_ =? _); [done|]. destruct (negb _); [|done]. injection E1 as <-. right. set_solver. }
  cbn [res_bind]. destruct (_ <? _); [right; set_solver|].
  match goal with |- context [choose_L1 ?a ?b ?c ?d] => destruct (choose_L1 a b c d) as [L1|m] eqn:E2 end.
  2: { right. apply choose_L1_ends in E2. set_solver. }
  cbn [res_bind]. set (i := if USE_LARGE_PAGE cfg then 0 else L1_IDX (TRUNCPG cfg va)).
  assert (Hi : 0 <= i) by (unfold i; destruct (USE_LARGE_PAGE cfg); [lia|apply H1]).
  match goal with |- context [map_l1 cfg ?f ?a ?b ?c ?d ?e] =>
    pose proof (map_l1_ends cfg ltac:(intros v; destruct (USE_LARGE_PAGE cfg); [apply H2|apply H1])
      ltac:(intros v; destruct (USE_LARGE_PAGE cfg); [apply H2|apply H1]) f a b c d e ltac:(lia) ltac:(lia)) as M;
    destruct (map_l1 cfg f a b c d e) as [[c1 st2]|m] end; cbn [res_bind]; [done|by left].
Qed.
End ends.

Section four_k.
Context `{abi : mmu_abi} {A : Type} `{Calloc A} (cfg : mmu_config).
Context (good : A -> Prop) (free : A -> Z -> Prop).
Hypothesis abi_good : mmu_abi_ok.
Hypothesis page_4k : Mmu.page_size cfg = 4096.
Hypothesis alloc_good : calloc_ok good free.
Implicit Types st : mmu (A := A).

(** A call on a well-formed tree that may map [pages_of paddr size] pages. *)
Record request (vaddr paddr size va : Z) st : Prop := {
  req_virtual : flags1_virtual cfg = true;
  req_wf : pt_wf cfg good free st;
  req_frames : frames_in_range paddr size;
  req_target : target vaddr st paddr va;
  req_region : region_ok va (pages_of paddr size)
}.

Lemma request_frames vaddr paddr size va st : request vaddr paddr size va st ->
  addr_ok (paddr - offset_of paddr) /\ 0 <= pages_of paddr size /\
  paddr - offset_of paddr + pages_of paddr size * 4096 < 2 ^ 48.
Proof. intros [_ _ HF _ _]. by destruct (map_arguments cfg page_4k paddr size HF) as (_ & _ & _ & ?). Qed.

(** The translations a call leaves behind. *)
Lemma request_translates vaddr paddr size flags st va :
  request vaddr paddr size va st ->
  match aarch64_map cfg vaddr paddr size flags st with
  | Ok (st', _) => forall x, plain_addr x -> elf_vaddr_to_paddr cfg x st' =
      if decide (va <= x < va + pages_of paddr size * 4096)
      then Ok (paddr - offset_of paddr + (x - va)) else elf_vaddr_to_paddr cfg x st
  | Crash _ => True
  end.
Proof.
  intros R. destruct (request_frames _ _ _ _ _ R) as (Ap & Hn & Hm). destruct R as [HV W HF HT HR].
  pose proof (aarch64_map_step cfg good free abi_good page_4k alloc_good vaddr paddr size flags st va
    HV W HF HT HR) as M. cbv zeta in M.
  destruct (aarch64_map _ _ _ _ _ _) as [[st' ret]|m]; [|done]. destruct M as [_ S].
  assert (W0 : pt_wf cfg good free (after_target vaddr va (pages_of paddr size) st)).
  { unfold after_target. destruct (_ =? _); [by apply wf_free_vaddr|done]. }
  intros x Hx. rewrite (step_translates cfg good free abi_good page_4k va _ _ flags _ st' HR W0 Ap Hm S x Hx).
  destruct (decide _); [done|]. unfold after_target. by destruct (_ =? _).
Qed.

(** C2 (the call maps what it was asked to) After aarch64_map the walk the
    boot loader makes gives, for every address outside the recursive slots,
    the frame that belongs to it if the call covers it and what it gave
    before if not; the value returned is the start plus the offset of
    [paddr] in its page; the only crashes are those of the allocator. *)
Theorem aarch64_map_translates (vaddr paddr size : Z) (flags : prot) st (va : Z) :
  request vaddr paddr size va st ->
  match aarch64_map cfg vaddr paddr size flags st with
  | Ok (st', ret) =>
      ret = u64 ((if vaddr =? ANY_VADDR then va else vaddr) + offset_of paddr) /\
      forall x, plain_addr x -> elf_vaddr_to_paddr cfg x st' =
        if decide (va <= x < va + pages_of paddr size * 4096)
        then Ok (paddr - offset_of paddr + (x - va)) else elf_vaddr_to_paddr cfg x st
  | Crash m => alloc_crash (A := A) m
  end.
Proof.
  intros R. pose proof (request_translates _ _ _ flags _ _ R) as TX. destruct R as [HV W HF HT HR].
  pose proof (aarch64_map_step cfg good free abi_good page_4k alloc_good vaddr paddr size flags st va
    HV W HF HT HR) as M. cbv zeta in M.
  destruct (aarch64_map _ _ _ _ _ _) as [[st' ret]|m]; [|done]. split; [apply M|done].
Qed.

(** C11 (the tree stays a tree) aarch64_map keeps the tables well-formed:
    no table is reached twice or overlaps free RAM; the tables there were
    stay where they were, a new one comes from free RAM, and memory changes
    only inside the tables; the translation registers keep their values. *)
Theorem aarch64_map_confined (vaddr paddr size : Z) (flags : prot) st (va : Z) :
  request vaddr paddr size va st ->
  match aarch64_map cfg vaddr paddr size flags st with
  | Ok (st', _) =>
      pt_wf cfg good free st' /\ regs st' = regs st /\
      (forall k p a, slot k p -> tab cfg st k p = Some a -> tab cfg st' k p = Some a) /\
      (forall k p a, slot k p -> tab cfg st' k p = Some a ->
        tab cfg st k p = Some a \/ forall x, a <= x < a + 4096 -> free (ram st) x) /\
      (forall x, mem st' x <> mem st x ->
        exists k p a, slot k p /\ tab cfg st' k p = Some a /\ a <= x < a + 4096) /\
      forall x, free (ram st') x -> free (ram st) x
  | Crash m => alloc_crash (A := A) m
  end.
Proof.
  intros [HV W HF HT HR].
  pose proof (aarch64_map_step cfg good free abi_good page_4k alloc_good vaddr paddr size flags st va
    HV W HF HT HR) as M. cbv zeta in M.
  destruct (aarch64_map _ _ _ _ _ _) as [[st' ret]|m] eqn:E; [|done]. destruct M as [_ S].
  pose proof (aarch64_map_regs cfg page_4k _ _ _ _ _ _ _ E) as RG.
  assert (E0 : exists v, after_target vaddr va (pages_of paddr size) st = with_free_vaddr v st \/
    after_target vaddr va (pages_of paddr size) st = st).
  { exists (va + pages_of paddr size * 4096). unfold after_target. destruct (_ =? _); auto. }
  destruct E0 as [v E0].
  split; [apply (step_wf _ _ _ _ _ _ _ _ _ S)|]. split; [done|].
  split; [|split; [|split]].
  - intros k p a Sp Tp. apply (step_keep _ _ _ _ _ _ _ _ _ S); [done|]. by destruct E0 as [-> | ->].
  - intros k p a Sp Tp. destruct (step_new _ _ _ _ _ _ _ _ _ S k p a Sp Tp) as [?|?]; [left|right];
      by destruct E0 as [E0 | E0]; rewrite E0 in *.
  - intros x Hx. apply (step_frame _ _ _ _ _ _ _ _ _ S). by destruct E0 as [-> | ->].
  - intros x Fx. apply (step_free _ _ _ _ _ _ _ _ _ S) in Fx. by destruct E0 as [E0 | E0]; rewrite E0 in *.
Qed.

Lemma page_slot va n N : region_ok va n -> page_of va <= N < page_of va + n -> slot (half_of va) (path N).
Proof. intros HR HN. destruct (region_half abi_good va n HR) as (_ & _ & _ & S). by apply S. Qed.

(** The page descriptors. A call gives each of its pages the descriptor
    of its frame and leaves every other page's as it was; and where it sets
    the contiguous bit, the sixteen entries of the aligned run belong to the
    call, all have the bit and the same attributes, and map sixteen frames
    in a row that start at a multiple of 64K, as the architecture requires. *)
Theorem aarch64_map_descriptors (vaddr paddr size : Z) (flags : prot) st (va : Z) :
  request vaddr paddr size va st ->
  let N0 := page_of va in
  let E := N0 + pages_of paddr size in
  let frame N := paddr - offset_of paddr + (N - N0) * 4096 in
  match aarch64_map cfg vaddr paddr size flags st with
  | Ok (st', _) =>
      (forall k N, slot k (path N) -> ~ (k = half_of va /\ N0 <= N < E) ->
        leaf cfg st' k N = leaf cfg st k N) /\
      forall N, N0 <= N < E ->
        let pte := leaf cfg st' (half_of va) N in
        let b := N - N mod 16 in
        pte = set_pte cfg (frame N) flags \/
        (N0 <= b /\ b + 16 <= E /\ frame b mod 65536 = 0 /\
          forall i, 0 <= i < 16 -> leaf cfg st' (half_of va) (b + i) =
            Z.lor (set_pte cfg (frame b + i * 4096) flags) PTE_CONTIG)
  | Crash m => alloc_crash (A := A) m
  end.
Proof.
  intros R N0 E frame. destruct (request_frames _ _ _ _ _ R) as (Ap & Hn & Hm). destruct R as [HV W HF HT HR].
  pose proof (aarch64_map_step cfg good free abi_good page_4k alloc_good vaddr paddr size flags st va
    HV W HF HT HR) as M. cbv zeta in M.
  destruct (aarch64_map _ _ _ _ _ _) as [[st' ret]|m]; [|done]. destruct M as [_ S].
  assert (L : forall N, N0 <= N < E -> leaf cfg st' (half_of va) N =
    desc cfg (paddr - offset_of paddr) N0 E flags N).
  { intros N HN. rewrite (step_leaf _ _ _ _ _ _ _ _ _ S) by (by apply (page_slot va (pages_of paddr size))).
    by rewrite decide_True. }
  split.
  - intros k N SN Hout. rewrite (step_leaf _ _ _ _ _ _ _ _ _ S), decide_False by done.
    unfold after_target. by destruct (_ =? _).
  - intros N HN pte b. unfold pte. rewrite (L N HN). unfold desc at 1.
    destruct (in_run _ _ _ N) eqn:ER.
    2: { left. by rewrite set_pte_attrs. }
    right. pose proof ER as ER'. unfold in_run in ER'. zbool. fold b in H0, H1, H2.
    split; [done|]. split; [done|]. split; [done|]. intros i Hi.
    assert (Hb : b mod 16 = 0) by (unfold b; Z.to_euclidean_division_equations; lia).
    rewrite L by lia. unfold desc.
    rewrite (in_run_block _ _ _ (b + i) N), ER by (unfold b in *; Z.to_euclidean_division_equations; lia).
    rewrite set_pte_attrs, Z.lor_assoc. do 2 f_equal. unfold paddr_of, frame. lia.
Qed.

Lemma range_ends L1 start stop pte st :
  match map_l1 cfg (S (Z.to_nat (NPTE_PTBL cfg))) L1 (L1_IDX start) stop (Cursor start pte) st with
  | Ok _ => True
  | Crash m => alloc_crash (A := A) m
  end.
Proof.
  pose proof (abi_l1 abi_good start) as I1.
  apply map_l1_ends; rewrite ?(use_large_4k cfg page_4k), ?(npte_4k cfg page_4k).
  - intros va. rewrite (abi_l3 abi_good). apply Z.mod_pos_bound. lia.
  - intros va. rewrite (abi_l2 abi_good). apply Z.mod_pos_bound. lia.
  - rewrite I1. pose proof (Z.mod_pos_bound (start / 2 ^ 30) 512). lia.
  - lia.
Qed.

(** Why a call is refused, in the order of the tests; the sums wrap. *)
Definition refusal (vaddr paddr size : Z) st : option string :=
  let va := if vaddr =? ANY_VADDR then free_vaddr st else vaddr in
  let start := va - va mod 4096 in
  let stop := (start + pages_of paddr size * 4096) mod 18446744073709551616 in
  if negb (vaddr =? ANY_VADDR) && negb (vaddr mod 4096 =? paddr mod 4096) then Some alignment_msg
  else if stop <? start then Some wrap_msg
  else if start <? AARCH64_USER_END then
    if stop <? AARCH64_USER_END then None else Some user_end_msg
  else if start <? AARCH64_STARTUP_BASE then Some base_msg
  else None.

(** C40 (refused arguments) Whatever memory holds, aarch64_map crashes with
    the message of the first test its arguments fail: an offset in the page
    other than that of [paddr], an end that wraps, a user range that reaches
    the user end, or a start in the gap below the kernel half; otherwise it
    returns or the allocation of a table stops startup. *)
Theorem aarch64_map_refusals (vaddr paddr size : Z) (flags : prot) st :
  flags1_virtual cfg = true -> frames_in_range paddr size ->
  0 <= vaddr < 18446744073709551616 -> 0 <= free_vaddr st < 18446744073709551616 ->
  match refusal vaddr paddr size st with
  | Some m => aarch64_map cfg vaddr paddr size flags st = Crash m
  | None =>
      match aarch64_map cfg vaddr paddr size flags st with
      | Ok _ => True
      | Crash m => alloc_crash (A := A) m
      end
  end.
Proof.
  intros HV HF Hva Hfv. destruct (map_arguments cfg page_4k paddr size HF) as (A1 & A2 & A3 & A4 & A5 & A6).
  unfold aarch64_map. rewrite HV, A1, A2, A3. cbn [negb]. cbv zeta.
  assert (L : forall x, 0 <= x -> Z.land x (Mmu.page_size cfg - 1) = x mod 4096).
  { intros x Hx. rewrite page_4k. change (4096 - 1) with (2 ^ 12 - 1). by rewrite land_ones_zero. }
  rewrite L by lia. unfold refusal. cbv zeta.
  change 18446744073709551615 with ANY_VADDR. change (offset_of paddr) with (paddr mod 4096).
  set (v := if vaddr =? ANY_VADDR then free_vaddr st else vaddr). set (r := if vaddr =? ANY_VADDR then Ok _ else _).
  destruct (negb (vaddr =? ANY_VADDR) && negb (vaddr mod 4096 =? paddr mod 4096)) eqn:EA.
  { apply andb_true_iff in EA as [E1 E2]. unfold r. apply negb_true_iff in E1. by rewrite E1, E2. }
  assert (Er : exists st1, r = Ok (st1, v)).
  { unfold r, v. destruct (vaddr =? ANY_VADDR); [eauto|]. simpl in EA. rewrite EA. eauto. }
  clearbody r. destruct Er as [st1 ->]. cbn [res_bind].
  assert (Hv : 0 <= v < 18446744073709551616) by (unfold v; destruct (_ =? _); lia).
  unfold TRUNCPG. rewrite page_4k, TRUNC_spec by (auto with width; lia).
  set (start := v - v mod 4096). set (stop := u64 _).
  change ((start + _) mod _) with stop. destruct (stop <? start); [done|].
  unfold choose_L1, startup_base. rewrite (use_large_4k cfg page_4k).
  pose proof (fun L1 => range_ends L1 start stop (set_pte cfg (paddr - paddr mod 4096) flags) st1) as G.
  destruct (start <? AARCH64_USER_END).
  - rewrite Z.leb_antisym. destruct (stop <? AARCH64_USER_END); cbn [negb res_bind]; [|done].
    specialize (G (L1_ttbr0 st1)). by destruct (map_l1 _ _ _ _ _ _ _) as [[c st2]|m].
  - destruct (start <? AARCH64_STARTUP_BASE); cbn [res_bind]; [done|].
    specialize (G (L1_ttbr1 st1)). by destruct (map_l1 _ _ _ _ _ _ _) as [[c st2]|m].
Qed.

Lemma region_map_crash vaddr paddr size flags st va m :
  flags1_virtual cfg = true -> frames_in_range paddr size -> target vaddr st paddr va ->
  region_ok va (pages_of paddr size) ->
  aarch64_map cfg vaddr paddr size flags st = Crash m -> alloc_crash (A := A) m.
Proof.
  intros HV HF HT HR. rewrite (aarch64_map_loop cfg abi_good page_4k _ _ _ flags _ _ HV HF HT HR). cbv zeta.
  pose proof (region_half abi_good va _ HR) as RH. cbv zeta in RH. destruct RH as (EV & HN & HNn & _).
  assert (0 <= pages_of paddr size) by apply HR.
  assert (HP : 0 <= page_of va < 134217728) by lia.
  pose proof (range_ends (root (after_target vaddr va (pages_of paddr size) st) (half_of va)) va
    (vaddr_of (half_of va) (page_of va + pages_of paddr size))
    (Z.lor (paddr_of (paddr - offset_of paddr) (page_of va) (page_of va)) (attrs cfg flags))
    (after_target vaddr va (pages_of paddr size) st)) as RE.
  destruct (indexes abi_good (half_of va) (page_of va) HP) as (I1 & _). rewrite <- EV in I1.
  rewrite I1, (npte_4k cfg page_4k) in RE. unfold cursor_at. rewrite <- EV.
  destruct (map_l1 _ _ _ _ _ _ _) as [[c st2]|m2]; cbn [res_bind]; [done|]. by intros [= <-].
Qed.

(** The image's pages. *)
Lemma image_arguments f s : frames_in_range f (s + 4096) -> 0 <= s ->
  let start := f - f mod 4096 in
  let n := pages_of f s in
  TRUNCPG cfg f = start /\ u64 (ROUNDPG cfg (u64 (f + s)) - start) = n * 4096 /\
  frames_in_range start (n * 4096) /\ pages_of start (n * 4096) = n /\ offset_of start = 0 /\
  start <> ANY_VADDR /\ 0 <= start.
Proof.
  intros (Hf & _ & Hm) Hs start n. change (2 ^ 48) with 281474976710656 in Hm.
  assert (O : offset_of start = 0) by (unfold offset_of, start; Z.to_euclidean_division_equations; lia).
  assert (Hn : f + s <= start + n * 4096 < f + s + 4096 /\ 0 <= n).
  { unfold n, pages_of, offset_of, start. Z.to_euclidean_division_equations; lia. }
  assert (Hst : 0 <= start <= f) by (unfold start; Z.to_euclidean_division_equations; lia).
  unfold TRUNCPG, ROUNDPG. rewrite page_4k, TRUNC_spec by (auto with width; lia).
  destruct (ROUND_spec (u64 (f + s)) 4096 ltac:(rewrite u64_id by lia; lia) pow2_align_4096) as [R1 R2].
  rewrite u64_id in R1, R2 by lia. rewrite (u64_id (f + s)) by lia.
  assert (Er : ROUND (f + s) 4096 = start + n * 4096).
  { unfold offset_of in O. Z.to_euclidean_division_equations; lia. }
  unfold frames_in_range, ANY_VADDR. change (2 ^ 48) with 281474976710656.
  split_and!; try lia; [rewrite Er, u64_id; lia|].
  unfold pages_of. rewrite O. Z.to_euclidean_division_equations; lia.
Qed.

(** Mapping more keeps the cpus' L0 tables as they are. *)
Lemma tables_ready_map vaddr paddr size flags st va L0 :
  0 < PROCESSORS_MAX <= 1048576 -> vaddr <> ANY_VADDR ->
  request vaddr paddr size va st -> tables_ready cfg good free st L0 ->
  match aarch64_map cfg vaddr paddr size flags st with
  | Ok (st', _) => tables_ready cfg good free st' L0
  | Crash m => alloc_crash (A := A) m
  end.
Proof.
  intros HM HA [HV W HF HT HR] [W0 T1 V0 HS HB].
  pose proof (aarch64_map_step cfg good free abi_good page_4k alloc_good vaddr paddr size flags st va
    HV W HF HT HR) as M. cbv zeta in M.
  destruct (aarch64_map _ _ _ _ _ _) as [[st' ret]|m] eqn:E; [|done]. destruct M as [_ S].
  pose proof (aarch64_map_regs cfg page_4k _ _ _ _ _ _ _ E) as RG.
  unfold after_target in S. rewrite (proj2 (Z.eqb_neq _ _)) in S by done.
  assert (FB : forall x, L0 <= x < L0 + L0_bytes cfg -> foreign cfg st' x /\ ~ free (ram st') x).
  { intros x Hx. destruct (HB x Hx) as [Fo NF]. split.
    - intros k p a Sp Tp Hin. destruct (step_new _ _ _ _ _ _ _ _ _ S k p a Sp Tp) as [Told|Tnew].
      + by apply (Fo k p a).
      + by apply NF, Tnew.
    - intros Fx. by apply NF, (step_free _ _ _ _ _ _ _ _ _ S). }
  assert (MB : forall x, L0 <= x < L0 + L0_bytes cfg -> mem st' x = mem st x).
  { intros x Hx. destruct (decide (mem st' x = mem st x)) as [|N]; [done|exfalso].
    destruct (step_frame _ _ _ _ _ _ _ _ _ S x N) as (k & p & a & Sp & Tp & Hin).
    by apply (proj1 (FB x Hx) k p a). }
  constructor.
  - apply (step_wf _ _ _ _ _ _ _ _ _ S).
  - unfold regs in RG. injection RG as _ ->. done.
  - by rewrite (step_vars _ _ _ _ _ _ _ _ _ S).
  - intros i Hi. change (L1_ttbr1 st') with (root st' true).
    rewrite (same_vars_root _ _ true (step_vars _ _ _ _ _ _ _ _ _ S)).
    change (root st true) with (L1_ttbr1 st). rewrite <- (HS i Hi). f_equal. unfold rd.
    apply MB. destruct (L0_bytes_ok cfg page_4k HM) as [HL _]. unfold entry. lia.
  - done.
Qed.

(** C36 (startup's own tables) The tables init_mmu builds are well-formed;
    every cpu has an L0 entry that leads to the kernel's L1 table, in a block
    no table and no free RAM overlaps; the image is mapped to itself, the L0
    block at the base of startup's range, and nothing else outside the
    recursive slots.  Only when RAM runs out in one of the two allocations
    the code does not check does a register hold NULL_PADDR instead. *)
Theorem init_mmu_tables_ready (full_image_paddr startup_size : Z) st :
  let start := full_image_paddr - full_image_paddr mod 4096 in
  let pages := pages_of full_image_paddr startup_size in
  flags1_virtual cfg = true -> 0 < PROCESSORS_MAX <= 1048576 ->
  region_ok AARCH64_STARTUP_BASE (L0_bytes cfg / 4096) -> region_ok start pages ->
  frames_in_range full_image_paddr (startup_size + 4096) -> 0 <= startup_size ->
  good (ram st) -> (forall x, free (ram st) x -> 0 <= x < RAM_END) -> ttbr1 st = [] ->
  match init_mmu_tables cfg full_image_paddr startup_size st with
  | Ok st' =>
      ttbr0 st' = NULL_PADDR \/ head (ttbr1 st') = Some NULL_PADDR \/
      exists L0, tables_ready cfg good free st' L0 /\
        forall x, plain_addr x -> elf_vaddr_to_paddr cfg x st' =
          Ok (if decide (start <= x < start + pages * 4096) then x
              else if decide (AARCH64_STARTUP_BASE <= x < AARCH64_STARTUP_BASE + L0_bytes cfg)
                   then L0 + (x - AARCH64_STARTUP_BASE) else NULL_PADDR)
  | Crash m => alloc_crash (A := A) m \/ no_ram (A := A)
  end.
Proof.
  intros start pages HV HM HB HI HF HS G F48 E1.
  pose proof (aarch64_map_init_spec cfg good free abi_good page_4k alloc_good st HV HM HB G F48 E1) as AI.
  unfold init_mmu_tables. destruct (aarch64_map_init cfg st) as [st1|m]; [|done]. cbn [res_bind].
  destruct (image_arguments full_image_paddr startup_size HF HS) as (Et & Esz & HF2 & Epg & Eoff & Hst).
  fold start pages in Et, Esz, HF2, Epg, Eoff, Hst. rewrite Et, Esz.
  assert (HT : target start st1 start start) by (right; rewrite Eoff; split; [apply Hst|lia]).
  rewrite <- Epg in HI.
  destruct AI as [N0|[N1|(L0 & TR & TX)]].
  3: { pose proof (Build_request start start (pages * 4096) start st1 HV (ready_wf _ _ _ _ _ TR) HF2 HT HI) as RQ.
    pose proof (tables_ready_map _ _ _ (Prot true false true false false) _ _ _ HM (proj1 Hst) RQ TR) as TR2.
    pose proof (request_translates _ _ _ (Prot true false true false false) _ _ RQ) as TX2.
    destruct (aarch64_map _ _ _ _ _ _) as [[st2 v]|m]; cbn [res_bind]; [|by left].
    right; right. exists L0. split; [done|]. intros x Hx. rewrite (TX2 x Hx), Epg, Eoff, Z.sub_0_r.
    destruct (decide _) as [Hin|_]; [f_equal; lia|by apply TX]. }
  all: destruct (aarch64_map _ _ _ _ _ _) as [[st2 v]|m] eqn:E2; cbn [res_bind];
    [pose proof (aarch64_map_regs cfg page_4k _ _ _ _ _ _ _ E2) as R; unfold regs in R; injection R as R0 R1;
     rewrite ?R0, ?R1; auto
    |left; by apply (region_map_crash _ _ _ _ st1 start m HV HF2 HT HI E2)].
Qed.
End four_k.

(** ** A board: the descriptors of the Arm architecture, RAM from ram.c *)
Section example.
Local Existing Instance example_abi.
Local Existing Instance example_table.

Local Instance example_mmu : mmu_abi := {|
  PTE_VALID := 3; PTE_AF := 2 ^ 10; PTE_URW := 2 ^ 6; PTE_KRW := 0; PTE_URO := 3 * 2 ^ 6;
  PTE_KRO := 2 ^ 7; PTE_UXN := 2 ^ 54; PTE_PXN := 2 ^ 53; PTE_SODEV := 0; PTE_DEV := 4;
  PTE_NC := 8; PTE_WBWA := 12; PTE_ISH := 3 * 2 ^ 8; PTE_nG := 2 ^ 11; PTE_CONTIG := 2 ^ 52;
  PTP_VALID := 1; PTP_TYPE := fun x => Z.land x 3; PTP_BLOCK := 1;
  AARCH64_USER_END := 2 ^ 39; AARCH64_STARTUP_BASE := 2 ^ 64 - 2 ^ 31;
  AARCH64_STARTUP_BASE_64K := 2 ^ 64 - 2 ^ 31;
  L1_L1_IDX := 511; L1_L2_IDX := 510; L2_L2_IDX := 511;
  L1_IDX := fun va => va / 2 ^ 30 mod 512; L2_IDX := fun va => va / 2 ^ 21 mod 512;
  L3_IDX := fun va => va / 4096 mod 512;
  L2_IDX_64K := fun va => va / 2 ^ 29 mod 8192; L3_IDX_64K := fun va => va / 65536 mod 8192;
  L1_VOFF := fun va => va mod 2 ^ 30; L2_VOFF := fun va => va mod 2 ^ 21;
  L3_VOFF := fun va => va mod 4096;
  L2_VOFF_64K := fun va => va mod 2 ^ 29; L3_VOFF_64K := fun va => va mod 65536;
  PROCESSORS_MAX := 4
|}.

Local Instance example_calloc : Calloc (ram_state syspage) := ram_calloc example_hw.

Definition example_cfg : mmu_config := MmuConfig true 4096 4 0.

Lemma example_mmu_ok : mmu_abi_ok.
Proof.
  constructor; try done; simpl.
  - intros a Ha. repeat (destruct Ha as [<-|Ha]; [done|]). done.
Qed.

Lemma example_calloc_ok : calloc_ok ram_ready (Ram.free (T := syspage)).
Proof. by apply ram_calloc_ok. Qed.

Lemma example_ready : ram_ready example_state.
Proof. split; [done|]. exists example_avoid, example_ram. split; [done|]. split; [apply example_avoid_wf|apply example_ram_wf]. Qed.

Lemma example_free x : Ram.free example_state x -> 524288 <= x < RAM_END.
Proof.
  unfold Ram.free, RAM_END; simpl. change (2 ^ 48) with 281474976710656.
  intros [H|[H|H]]; [unfold in_entry in H; simpl in H; lia..|done].
Qed.

(** Two empty tables below RAM. *)
Definition example_tables : mmu (A := ram_state syspage) :=
  Mmu (fun _ => 0) 4096 8192 (2 ^ 64 - 2 ^ 31) 4096 [] 0 example_state.

Lemma example_wf : pt_wf example_cfg ram_ready (Ram.free (T := syspage)) example_tables.
Proof.
  destruct (roots_wf example_cfg ram_ready (Ram.free (T := syspage)) example_tables) as [W _]; [..|exact W].
  - apply example_ready.
  - intros x Hx. apply example_free in Hx. lia.
  - intros k. split; [by destruct k|]. intros x Hx Fx. apply example_free in Fx. destruct k; simpl in Hx; lia.
  - done.
  - done.
Qed.

Lemma example_user va n : va mod 4096 = 0 -> 0 <= va -> 0 <= n -> va + n * 4096 < 2 ^ 38 -> region_ok va n.
Proof.
  intros Hva H0 Hn He. change (2 ^ 38) with 274877906944 in He. split; [done|]. split; [done|].
  split; [left; simpl; lia|]. intros x Hx. assert (Hu : half_of x = false).
  { unfold half_of. by rewrite (proj2 (Z.ltb_lt _ _)) by (simpl; lia). }
  split; [left; simpl; lia|]. split; [simpl; lia|]. split; [|by rewrite Hu]. unfold path, page_of.
  rewrite Hu. unfold base. apply Forall_cons; split; [|apply Forall_singleton];
    Z.to_euclidean_division_equations; lia.
Qed.

Lemma example_base : region_ok AARCH64_STARTUP_BASE (L0_bytes example_cfg / 4096).
Proof.
  change (L0_bytes example_cfg / 4096) with 1. split; [done|]. split; [done|].
  split; [right; simpl; lia|]. simpl. intros x Hx. assert (Hu : half_of x = true).
  { unfold half_of. by rewrite (proj2 (Z.ltb_ge _ _)) by (simpl; lia). }
  split; [right; simpl; lia|]. rewrite Hu.
  assert (path (page_of x) = [510; 0]) as ->; [|split; [simpl; lia|]; split; [|done]; repeat constructor; lia].
  unfold path, page_of. rewrite Hu. unfold base. f_equal; [|f_equal]; Z.to_euclidean_division_equations; lia.
Qed.

(** A value of the state a call returns. *)
Definition of_result {S B} (r : res S) (f : S -> B) : option B :=
  match r with Ok s => Some (f s) | Crash _ => None end.

(** Two pages, the request not aligned to a page. *)
Lemma example_request :
  request example_cfg ram_ready (Ram.free (T := syspage)) 20496 1048592 8000 20480 example_tables.
Proof.
  constructor; [done|apply example_wf|unfold frames_in_range; lia|right; split; [done|reflexivity]|].
  by apply example_user.
Qed.

Lemma aarch64_map_ends_witness :
  match aarch64_map example_cfg 20496 1048592 8000 PROT_RW example_tables with
  | Ok _ => True
  | Crash m => alloc_crash (A := ram_state syspage) m \/ m ∈ [alignment_msg; wrap_msg; user_end_msg; base_msg]
  end.
Proof.
  apply (aarch64_map_ends example_cfg 20496 1048592 8000 PROT_RW example_tables); intros va;
    split_and!; apply Z.mod_pos_bound; lia.
Defined.

Lemma aarch64_map_translates_witness :
  exists st', aarch64_map example_cfg 20496 1048592 8000 PROT_RW example_tables = Ok (st', 20512) /\
    elf_vaddr_to_paddr example_cfg 24577 st' = Ok 1052673.
Proof.
  pose proof (aarch64_map_translates example_cfg ram_ready (Ram.free (T := syspage)) example_mmu_ok eq_refl
    example_calloc_ok 20496 1048592 8000 PROT_RW example_tables 20480 example_request) as M.
  pose proof (eq_refl : of_result (aarch64_map example_cfg 20496 1048592 8000 PROT_RW example_tables) (fun _ => tt) = Some tt) as B.
  destruct (aarch64_map _ _ _ _ _ _) as [[st' ret]|m]; [|discriminate B].
  destruct M as [-> M]. exists st'. split; [reflexivity|]. rewrite M; [reflexivity|].
  apply (example_user 20480 2); [reflexivity|lia|lia|reflexivity|lia].
Defined.

Lemma aarch64_map_confined_witness :
  exists st' ret, aarch64_map example_cfg 20496 1048592 8000 PROT_RW example_tables = Ok (st', ret) /\
    pt_wf example_cfg ram_ready (Ram.free (T := syspage)) st'.
Proof.
  pose proof (aarch64_map_confined example_cfg ram_ready (Ram.free (T := syspage)) example_mmu_ok eq_refl
    example_calloc_ok 20496 1048592 8000 PROT_RW example_tables 20480 example_request) as M.
  pose proof (eq_refl : of_result (aarch64_map example_cfg 20496 1048592 8000 PROT_RW example_tables) (fun _ => tt) = Some tt) as B.
  destruct (aarch64_map _ _ _ _ _ _) as [[st' ret]|m]; [|discriminate B].
  exists st', ret. split; [reflexivity|exact (proj1 M)].
Defined.

(** Sixteen pages on both boundaries: a contiguous run. *)
Lemma example_run_request :
  request example_cfg ram_ready (Ram.free (T := syspage)) 65536 1048576 65536 65536 example_tables.
Proof.
  constructor; [done|apply example_wf|unfold frames_in_range; lia|right; split; [done|reflexivity]|].
  by apply example_user.
Qed.

Lemma aarch64_map_descriptors_witness :
  exists st' ret, aarch64_map example_cfg 65536 1048576 65536 PROT_RW example_tables = Ok (st', ret) /\
    leaf example_cfg st' false 31 = Z.lor (set_pte example_cfg 1110016 PROT_RW) PTE_CONTIG.
Proof.
  pose proof (aarch64_map_descriptors example_cfg ram_ready (Ram.free (T := syspage)) example_mmu_ok eq_refl
    example_calloc_ok 65536 1048576 65536 PROT_RW example_tables 65536 example_run_request) as M.
  cbv zeta in M.
  assert (B : of_result (aarch64_map example_cfg 65536 1048576 65536 PROT_RW example_tables)
    (fun r => leaf example_cfg (fst r) false 31 =? set_pte example_cfg 1110016 PROT_RW) = Some false)
    by (vm_compute; reflexivity).
  destruct (aarch64_map _ _ _ _ _ _) as [[st' ret]|m]; [|discriminate B].
  exists st', ret. split; [reflexivity|]. destruct M as [_ M]. injection B as B. simpl fst in B.
  destruct (M 31 ltac:(vm_compute; split; congruence)) as [M1|(_ & _ & _ & M1)].
  - exfalso. apply Z.eqb_neq in B. exact (B M1).
  - exact (M1 15 ltac:(lia)).
Defined.

(** The offset in the page must be that of the physical address. *)
Lemma aarch64_map_refusals_witness :
  aarch64_map example_cfg 20480 1048592 8000 PROT_RW example_tables = Crash alignment_msg /\
  aarch64_map example_cfg 549755809792 4096 8192 PROT_RW example_tables = Crash user_end_msg.
Proof.
  split.
  - exact (aarch64_map_refusals example_cfg example_mmu_ok eq_refl 20480 1048592 8000 PROT_RW example_tables
      eq_refl ltac:(unfold frames_in_range; lia) ltac:(lia) ltac:(simpl; lia)).
  - exact (aarch64_map_refusals example_cfg example_mmu_ok eq_refl 549755809792 4096 8192 PROT_RW example_tables
      eq_refl ltac:(unfold frames_in_range; lia) ltac:(lia) ltac:(simpl; lia)).
Defined.

Definition example_start : mmu (A := ram_state syspage) :=
  Mmu (fun _ => 7) 0 0 0 0 [] 0 example_state.

Lemma init_mmu_tables_ready_witness :
  exists st', init_mmu_tables example_cfg 524288 262144 example_start = Ok st' /\
    elf_vaddr_to_paddr example_cfg 528400 st' = Ok 528400.
Proof.
  pose proof (init_mmu_tables_ready example_cfg ram_ready (Ram.free (T := syspage)) example_mmu_ok eq_refl
    example_calloc_ok 524288 262144 example_start eq_refl ltac:(simpl; lia) example_base
    (example_user 524288 64 eq_refl ltac:(lia) ltac:(lia) eq_refl) ltac:(unfold frames_in_range; lia) ltac:(lia)
    example_ready (fun x Hx => conj (Z.le_trans 0 524288 x ltac:(lia) (proj1 (example_free x Hx))) (proj2 (example_free x Hx)))
    eq_refl) as M.
  assert (B : of_result (init_mmu_tables example_cfg 524288 262144 example_start) regs =
    Some (528384, [540672; 540736; 540800; 540864])) by (vm_compute; reflexivity).
  destruct (init_mmu_tables _ _ _ _) as [st'|m]; [|discriminate B]. injection B as B0 B1.
  exists st'. split; [reflexivity|]. destruct M as [M|[M|(L0 & _ & M)]].
  - exfalso. rewrite B0 in M. discriminate M.
  - exfalso. rewrite B1 in M. discriminate M.
  - rewrite M; [reflexivity|]. apply (example_user 524288 64); [reflexivity|lia|lia|reflexivity|lia].
Defined.
End example.
