(* ===== verification/Driver.v ===== *)
(** * What the models of the drivers share

    errno, flag words, and a state monad for code that works on a state and
    must not leave its buffers: None is an access outside of one, or a loop
    that did not end within its fuel. *)
From S2P Require Import Prelude.
Open Scope Z_scope.

Inductive errno :=
| EOK | EINVAL | EIO | ETIMEDOUT | ENXIO | ENOMEM | ENODEV | EBUSY | EACCES | ENOTSUP | EAGAIN | EROFS | EPERM
| EOTHER (n : Z).

#[export] Instance errno_eq_dec : EqDecision errno.
Proof. solve_decision. Defined.

(** ** Flag words: [flags & mask], atomic_set and atomic_clr *)
Definition has (flags mask : Z) : bool := negb (Z.land flags mask =? 0).
Definition atomic_set (flags mask : Z) : Z := Z.lor flags mask.
Definition atomic_clr (flags mask : Z) : Z := Z.ldiff flags mask.

Lemma has_set f m : m <> 0 -> has (atomic_set f m) m = true.
Proof.
  intros Hm. unfold has, atomic_set. rewrite Z.land_lor_distr_l, Z.land_diag.
  apply negb_true_iff, Z.eqb_neq. intros E. by apply Z.lor_eq_0_iff in E as [_ E].
Qed.

Lemma has_set_other f m m' : Z.land m' m = 0 -> has (atomic_set f m') m = has f m.
Proof. intros E. unfold has, atomic_set. by rewrite Z.land_lor_distr_l, E, Z.lor_0_r. Qed.

Lemma has_clr f m : has (atomic_clr f m) m = false.
Proof.
  unfold has, atomic_clr. apply negb_false_iff, Z.eqb_eq.
  rewrite Z.ldiff_land, <- Z.land_assoc, (Z.land_comm _ m), Z.land_lnot_diag. apply Z.land_0_r.
Qed.

Lemma has_bit v k : 0 <= k -> has v (2 ^ k) = Z.testbit v k.
Proof.
  intros Hk. unfold has. destruct (Z.testbit v k) eqn:E.
  - apply negb_true_iff, Z.eqb_neq. intros E0. assert (Z.testbit (Z.land v (2 ^ k)) k = true).
    { rewrite Z.land_spec, E, Z.pow2_bits_true by done. done. } rewrite E0, Z.testbit_0_l in H. done.
  - apply negb_false_iff, Z.eqb_eq, Z.bits_inj'. intros j Hj. rewrite Z.land_spec, Z.testbit_0_l.
    destruct (decide (j = k)) as [->|]; [by rewrite E|]. rewrite Z.pow2_bits_false by done. apply andb_false_r.
Qed.

Lemma has_lor a b k : 0 <= k -> has (Z.lor a b) (2 ^ k) = has a (2 ^ k) || has b (2 ^ k).
Proof. intros Hk. by rewrite !has_bit, Z.lor_spec. Qed.

Lemma has_or a b m : has (Z.lor a b) m = has a m || has b m.
Proof.
  unfold has. rewrite Z.land_lor_distr_l. destruct (Z.eqb_spec (Z.land a m) 0) as [->|Ha]; cbn; [done|].
  apply negb_true_iff, Z.eqb_neq. intros E. by apply Z.lor_eq_0_iff in E as [? _].
Qed.
Lemma has_comm a b : has a b = has b a.
Proof. unfold has. by rewrite Z.land_comm. Qed.
Lemma has_or_r x a b : has x (Z.lor a b) = has x a || has x b.
Proof. by rewrite has_comm, has_or, !(has_comm x). Qed.

Lemma has_ldiff a b k : 0 <= k -> has (Z.ldiff a b) (2 ^ k) = has a (2 ^ k) && negb (has b (2 ^ k)).
Proof. intros Hk. by rewrite !has_bit, Z.ldiff_spec. Qed.

Lemma has_mod a w k : 0 <= k < w -> has (a mod 2 ^ w) (2 ^ k) = has a (2 ^ k).
Proof. intros Hk. rewrite !has_bit, Z.mod_pow2_bits_low by lia. done. Qed.

(** ** The state monad *)
Definition M (S A : Type) : Type := S -> option (A * S).

Section monad.
Context {S : Type}.

#[export] Instance M_ret : MRet (M S) := fun A a s => Some (a, s).
#[export] Instance M_bind : MBind (M S) := fun A B f m s =>
  match m s with Some (a, s') => f a s' | None => None end.

Definition gets {A} (f : S -> A) : M S A := fun s => Some (f s, s).
Definition modify (f : S -> S) : M S () := fun s => Some ((), f s).
Definition crash {A} : M S A := fun _ => None.

(** [for (; n > 0; n--) body] over an index. *)
Fixpoint repeat_ (n : nat) (body : M S ()) : M S () :=
  match n with
  | O => mret ()
  | Datatypes.S n' => body ;; repeat_ n' body
  end.

Lemma bind_eq {A B} (m : M S A) (k : A -> M S B) s a s' :
  m s = Some (a, s') -> (x ← m; k x) s = k a s'.
Proof. intros E. unfold mbind, M_bind. by rewrite E. Qed.

Lemma seq_eq {A B C} (m : M S A) (n : A -> M S B) (k : B -> M S C) s b s' :
  (a ← m; n a) s = Some (b, s') -> (a ← m; x ← n a; k x) s = k b s'.
Proof. unfold mbind, M_bind. intros E. destruct (m s) as [[a s1]|]; [|done]. by rewrite E. Qed.

Lemma gets_bind {A B} (f : S -> A) (k : A -> M S B) s : (x ← gets f; k x) s = k (f s) s.
Proof. done. Qed.

Lemma ret_bind {A B} (a : A) (k : A -> M S B) s : (x ← mret a; k x) s = k a s.
Proof. done. Qed.

Lemma modify_bind {B} (f : S -> S) (k : () -> M S B) s : (x ← modify f; k x) s = k () (f s).
Proof. done. Qed.

Lemma repeat_S n body s s' :
  body s = Some ((), s') -> repeat_ (Datatypes.S n) body s = repeat_ n body s'.
Proof. intros E. simpl. exact (bind_eq _ _ _ _ _ E). Qed.

(** A run that ends, in what [Q] says. *)
Definition post {A} (m : M S A) (s : S) (Q : A -> S -> Prop) : Prop := exists a s', m s = Some (a, s') /\ Q a s'.

Lemma post_ret {A} (a : A) s (Q : A -> S -> Prop) : Q a s -> post (mret a) s Q.
Proof. intros H. exists a, s. done. Qed.

Lemma post_bind {A B} (m : M S A) (k : A -> M S B) s Q : post m s (fun a s' => post (k a) s' Q) -> post (x ← m; k x) s Q.
Proof. intros (a & s' & E & b & s'' & E' & H). exists b, s''. split; [|done]. by rewrite (bind_eq _ _ _ _ _ E). Qed.

Lemma post_mono {A} (m : M S A) s (P Q : A -> S -> Prop) : post m s P -> (forall a s', P a s' -> Q a s') -> post m s Q.
Proof. intros (a & s' & E & H) HPQ. exists a, s'. auto. Qed.

Lemma post_gets {A} (f : S -> A) s (Q : A -> S -> Prop) : Q (f s) s -> post (gets f) s Q.
Proof. intros H. exists (f s), s. done. Qed.

Lemma post_modify (f : S -> S) s (Q : () -> S -> Prop) : Q () (f s) -> post (modify f) s Q.
Proof. intros H. exists (), (f s). done. Qed.

(** What holds of a run if it ends. *)
Definition wlp {A} (m : M S A) (s : S) (Q : A -> S -> Prop) : Prop := forall a s', m s = Some (a, s') -> Q a s'.

Lemma wlp_post {A} (m : M S A) s Q : post m s Q -> wlp m s Q.
Proof. intros (a & s' & E & H) b s'' E'. rewrite E in E'. by injection E' as <- <-. Qed.

Lemma wlp_ret {A} (a : A) s (Q : A -> S -> Prop) : Q a s -> wlp (mret a) s Q.
Proof. by intros H b s' [= <- <-]. Qed.

Lemma wlp_bind {A B} (m : M S A) (k : A -> M S B) s Q : wlp m s (fun a s' => wlp (k a) s' Q) -> wlp (x ← m; k x) s Q.
Proof.
  intros H b s' E. unfold mbind, M_bind in E. destruct (m s) as [[a s1]|] eqn:Em; [|done]. by eapply H.
Qed.

Lemma wlp_mono {A} (m : M S A) s (P Q : A -> S -> Prop) : wlp m s P -> (forall a s', P a s' -> Q a s') -> wlp m s Q.
Proof. intros H HPQ a s' E. apply HPQ. by apply H. Qed.

Lemma wlp_gets {A} (f : S -> A) s (Q : A -> S -> Prop) : Q (f s) s -> wlp (gets f) s Q.
Proof. by intros H b s' [= <- <-]. Qed.

Lemma wlp_modify (f : S -> S) s (Q : () -> S -> Prop) : Q () (f s) -> wlp (modify f) s Q.
Proof. by intros H b s' [= <- <-]. Qed.
End monad.
