(* ===== verification/DwSpi.v ===== *)
(** * The SPI driver (spi/dwc)

    dw_xfer exchanges the words of one buffer with a slave: it fills part of
    the transmit FIFO, and every interrupt then stores what was received and
    sends as many words more, out of the same buffer.  The controller follows
    docs/SPI_Hardware_Reference.md; it runs on its own, so every register
    access and every wait is preceded by as many word times as an arbitrary
    function gives, and it may report errors and let a wait expire. *)
From S2P Require Import Prelude Driver.
Open Scope Z_scope.

(** ** Constants of dwc-spi.h and dwc_variant.h *)
Definition DW_SCK_DIV_MIN : Z := 2.
Definition DW_SCK_DIV_MAX : Z := 65535.
Definition SPI_DFS_DEFAULT : Z := 8.
Definition DW_NBIT_ROUNDER : Z := 7.
Definition DW_SPI_ENABLE : Z := 1.
Definition DW_SPI_DISABLE : Z := 0.
Definition SPI_MIN_WORD_WIDTH : Z := 3.
Definition SPI_MAX_WORD_WIDTH : Z := 32.
Definition SPI_FIFO_LEN_DIV : Z := 2.
Definition DW_HSSI_102A : Z := 825242154.
Definition DW_SPI_SR_BUSY : Z := 1.
Definition DW_SPI_SR_TF_NOT_FULL : Z := 2.
Definition DW_SPI_SR_TF_EMPTY : Z := 4.
Definition DW_SPI_SR_RF_NOT_EMPTY : Z := 8.
Definition DW_SPI_SR_RF_FULL : Z := 16.
Definition DW_SPI_SR_TX_ERR : Z := 32.
Definition DW_SPI_SR_DCOL : Z := 64.
Definition DW_SPI_INT_MASK : Z := 31.
Definition DW_SPI_INT_TXEI : Z := 1.
Definition DW_SPI_INT_TXOI : Z := 2.
Definition DW_SPI_INT_RXUI : Z := 4.
Definition DW_SPI_INT_RXOI : Z := 8.
Definition DW_SPI_INT_RXFI : Z := 16.
Definition DW_SPI_MIN_FIFO_LENGTH : Z := 2.
Definition DW_SPI_MAX_FIFO_LENGTH : Z := 256.
Definition DW_SPI_SSTE : Z := 16777216.
Definition DW_PSSI_CTRLR0_SRL : Z := 2048.
Definition DW_SPI_CTRLR0_SCPOL : Z := 128.
Definition DW_SPI_CTRLR0_SCPHA : Z := 64.
Definition DW_SPI_CTRLR0_IS_MST : Z := 2147483648.

Inductive spi_intr := SPI_INTR_DONE | SPI_INTR_CONTINUE | SPI_INTR_ERR.

(** ** The controller *)
Inductive reg :=
| CTRLR0 | CTRLR1 | SSIENR | SER | BAUDR | TXFTLR | RXFTLR | RXFLR | SR | IMR
| TXOICR | RXOICR | RXUICR | ICR | DMACR | VERSION | DR.

#[export] Instance reg_eq_dec : EqDecision reg.
Proof. solve_decision. Defined.

(** The registers, the overflow and underflow interrupts, the FIFOs (the word
    in the shift register is still the first of the transmit FIFO), and what
    was exchanged: the slave enables, the word sent and the word received. *)
Record ssi := Ssi {
  ctrlr0 : Z; ctrlr1 : Z; ssienr : Z; ser : Z; baudr : Z; txftlr : Z; rxftlr : Z; imr : Z;
  dmacr : Z; errs : Z; txf : list Z; rxf : list Z; wire : list (Z * Z * Z)
}.

Definition with_fifos (e : Z) (t r : list Z) (w : list (Z * Z * Z)) (h : ssi) : ssi :=
  Ssi (ctrlr0 h) (ctrlr1 h) (ssienr h) (ser h) (baudr h) (txftlr h) (rxftlr h) (imr h) (dmacr h) e t r w.

(** Registers that only hold a value. *)
Definition store (r : reg) (v : Z) (h : ssi) : ssi :=
  let '(Ssi c0 c1 en se br tl rt im dm e t rx w) := h in
  match r with
  | CTRLR0 => Ssi v c1 en se br tl rt im dm e t rx w
  | CTRLR1 => Ssi c0 v en se br tl rt im dm e t rx w
  | SSIENR => Ssi c0 c1 v se br tl rt im dm e t rx w
  | SER => Ssi c0 c1 en v br tl rt im dm e t rx w
  | BAUDR => Ssi c0 c1 en se (u16 v) tl rt im dm e t rx w
  | TXFTLR => Ssi c0 c1 en se br v rt im dm e t rx w
  | RXFTLR => Ssi c0 c1 en se br tl v im dm e t rx w
  | IMR => Ssi c0 c1 en se br tl rt v dm e t rx w
  | DMACR => Ssi c0 c1 en se br tl rt im v e t rx w
  | _ => h
  end.

Definition enabled (h : ssi) : bool := negb (ssienr h =? 0).
Definition running (h : ssi) : bool := enabled h && negb (ser h =? 0).

(** Constants of <hw/io-spi.h>, which is not in the repository. *)
Class IoSpi := {
  SPI_MODE_WORD_WIDTH_MASK : Z;
  SPI_MODE_WORD_WIDTH_16 : Z;
  SPI_MODE_CPOL_1 : Z;
  SPI_MODE_CPHA_1 : Z
}.

Section driver.
Context {io : IoSpi}.
(** The depth of the FIFOs, the version register, the slaves (from what was
    exchanged before, the enables and the word sent to the word returned). *)
Context (depth : nat) (version : Z) (slave : list (Z * Z * Z) -> Z -> Z -> Z).
(** Word times before the n-th access, error bits in the status then, and
    whether a wait there expires. *)
Context (ticks : nat -> nat) (glitch : nat -> Z) (expires : nat -> bool).

Definition shift (h : ssi) : ssi :=
  match txf h with
  | [] => h
  | w :: t =>
      if running h then
        let v := u32 (slave (wire h) (ser h) w) in
        let log := wire h ++ [(ser h, w, v)] in
        if (length (rxf h) <? depth)%nat then with_fifos (errs h) t (rxf h ++ [v]) log h
        else with_fifos (Z.lor (errs h) DW_SPI_INT_RXOI) t (rxf h) log h
      else h
  end.

Definition status (h : ssi) : Z :=
  let bit (b : bool) v := if b then v else 0 in
  Z.lor (Z.lor (bit (running h && negb (bool_decide (txf h = []))) DW_SPI_SR_BUSY)
               (bit (length (txf h) <? depth)%nat DW_SPI_SR_TF_NOT_FULL))
        (Z.lor (bit (bool_decide (txf h = [])) DW_SPI_SR_TF_EMPTY)
               (Z.lor (bit (negb (bool_decide (rxf h = []))) DW_SPI_SR_RF_NOT_EMPTY)
                      (bit (depth <=? length (rxf h))%nat DW_SPI_SR_RF_FULL))).

Definition raw_interrupts (h : ssi) : Z :=
  Z.lor (errs h)
    (Z.lor (if Z.of_nat (length (txf h)) <=? txftlr h then DW_SPI_INT_TXEI else 0)
           (if rxftlr h + 1 <=? Z.of_nat (length (rxf h)) then DW_SPI_INT_RXFI else 0)).

Definition irq (h : ssi) : bool := has (raw_interrupts h) (imr h).

Definition ssi_read (r : reg) (h : ssi) : Z * ssi :=
  let clear m := with_fifos (Z.ldiff (errs h) m) (txf h) (rxf h) (wire h) h in
  match r with
  | CTRLR0 => (ctrlr0 h, h) | CTRLR1 => (ctrlr1 h, h) | SSIENR => (ssienr h, h)
  | SER => (ser h, h) | BAUDR => (baudr h, h) | TXFTLR => (txftlr h, h)
  | RXFTLR => (rxftlr h, h) | IMR => (imr h, h) | DMACR => (dmacr h, h)
  | RXFLR => (Z.of_nat (length (rxf h)), h)
  | SR => (status h, h)
  | VERSION => (version, h)
  | TXOICR => (0, clear DW_SPI_INT_TXOI)
  | RXOICR => (0, clear DW_SPI_INT_RXOI)
  | RXUICR => (0, clear DW_SPI_INT_RXUI)
  | ICR => (0, clear (Z.lor DW_SPI_INT_TXOI (Z.lor DW_SPI_INT_RXOI DW_SPI_INT_RXUI)))
  | DR => match rxf h with
          | v :: q => (v, with_fifos (errs h) (txf h) q (wire h) h)
          | [] => (0, with_fifos (Z.lor (errs h) DW_SPI_INT_RXUI) (txf h) [] (wire h) h)
          end
  end.

(** Thresholds from the depth on are not stored; the configuration registers
    change only while the controller is disabled, and disabling it empties
    the FIFOs. *)
Definition ssi_write (r : reg) (v : Z) (h : ssi) : ssi :=
  match r with
  | SSIENR => if v =? 0 then store SSIENR 0 (with_fifos (errs h) [] [] (wire h) h) else store SSIENR v h
  | TXFTLR | RXFTLR => if v <? Z.of_nat depth then store r v h else h
  | CTRLR0 | CTRLR1 | BAUDR => if enabled h then h else store r v h
  | DR => if enabled h then
            if (length (txf h) <? depth)%nat then with_fifos (errs h) (txf h ++ [v]) (rxf h) (wire h) h
            else with_fifos (Z.lor (errs h) DW_SPI_INT_TXOI) (txf h) (rxf h) (wire h) h
          else h
  | _ => store r v h
  end.

Definition tick (n : nat) (h : ssi) : ssi := Nat.iter n shift h.

(** ** The driver's state: dw_spi_t, the words of the transfer buffer, and
    the number of register accesses so far. *)
Record dw_spi := Dw {
  xlen : Z; tlen : Z; rlen : Z; dlen : Z; dscale : Z; xtime_us : Z; cr0 : Z;
  loopback : bool; sste : bool; cs_max : Z; fifo_len : Z
}.
Record st := St { hw : ssi; spi : dw_spi; pbuf : list Z; now : nat }.

Definition set_counts (x t r : Z) (d : dw_spi) : dw_spi :=
  Dw x t r (dlen d) (dscale d) (xtime_us d) (cr0 d) (loopback d) (sste d) (cs_max d) (fifo_len d).
Definition set_setup (x l s us c : Z) (d : dw_spi) : dw_spi :=
  Dw x (tlen d) (rlen d) l s us c (loopback d) (sste d) (cs_max d) (fifo_len d).
Definition upd (f : dw_spi -> dw_spi) : M st () := modify (fun s => St (hw s) (f (spi s)) (pbuf s) (now s)).

(** ** Registers (dwc-spi.h, dwc-spi.c) *)
Definition dw_read32 (r : reg) : M st Z := fun s =>
  let '(v, h) := ssi_read r (tick (ticks (now s)) (hw s)) in
  let err := if decide (r = SR) then Z.land (glitch (now s)) (Z.lor DW_SPI_SR_TX_ERR DW_SPI_SR_DCOL) else 0 in
  Some (Z.lor v err, St h (spi s) (pbuf s) (S (now s))).

Definition dw_write32 (r : reg) (v : Z) : M st () := fun s =>
  Some ((), St (ssi_write r (u32 v) (tick (ticks (now s)) (hw s))) (spi s) (pbuf s) (S (now s))).

Definition dw_spi_busy : M st bool := v ← dw_read32 SR; mret (has v DW_SPI_SR_BUSY).
Definition dw_spi_enable (v : Z) : M st () := dw_write32 SSIENR v.

Definition dw_spi_deselect_slave : M st Z :=
  busy ← dw_spi_busy; if (busy : bool) then mret (-1) else dw_write32 SER 0;; mret 0.
Definition dw_spi_select_slave (slv : Z) : M st Z :=
  busy ← dw_spi_busy; if (busy : bool) then mret (-1) else dw_write32 SER (Z.shiftl 1 slv);; mret 0.

Definition dw_device_reset : M st () := dw_spi_enable DW_SPI_DISABLE;; dw_spi_enable DW_SPI_ENABLE.

(** ** The FIFOs (intr.c)

    [pbuf] holds the words of the buffer as the cast of the pointer makes
    them: uint8_t for scale 0, uint16_t for scale 1, uint32_t for scale 2. *)
Definition get_word (i : Z) : M st Z := fun s => v ← pbuf s !! Z.to_nat i; Some (v, s).
Definition set_word (i v : Z) : M st () := fun s =>
  if decide (Z.to_nat i < length (pbuf s))%nat
  then Some ((), St (hw s) (spi s) (<[Z.to_nat i := v]> (pbuf s)) (now s)) else None.
Definition cast (scale v : Z) : Z := v mod 2 ^ (8 * 2 ^ scale).

Fixpoint write_fifo_loop (n : nat) (i : Z) : M st () :=
  match n with
  | O => mret ()
  | S n' => v ← get_word i; dw_write32 DR v;; write_fifo_loop n' (i + 1)
  end.
Fixpoint read_fifo_loop (scale : Z) (n : nat) (i : Z) : M st () :=
  match n with
  | O => mret ()
  | S n' => v ← dw_read32 DR; set_word i (cast scale v);; read_fifo_loop scale n' (i + 1)
  end.

Definition dw_write_fifo (len : Z) : M st () :=
  d ← gets spi; if dscale d <=? 2 then write_fifo_loop (Z.to_nat len) (tlen d) else mret ().
Definition dw_read_fifo (len : Z) : M st () :=
  d ← gets spi; if dscale d <=? 2 then read_fifo_loop (dscale d) (Z.to_nat len) (rlen d) else mret ().

Definition add_tlen (len : Z) : M st () := upd (fun d => set_counts (xlen d) (u32 (tlen d + len)) (rlen d) d).
Definition add_rlen (len : Z) : M st () := upd (fun d => set_counts (xlen d) (tlen d) (u32 (rlen d + len)) d).

Definition stop : M st () := dw_spi_enable DW_SPI_DISABLE;; dw_write32 IMR 0.

(** The last lines of the handler: once everything is sent, only the
    reception of what is left is of interest. *)
Definition rearm : M st () :=
  d ← gets spi;
  if xlen d <=? tlen d then
    im ← dw_read32 IMR;
    dw_write32 IMR (Z.ldiff (Z.ldiff im DW_SPI_INT_TXEI) DW_SPI_INT_TXOI);;
    dw_write32 RXFTLR (Z.min (u32 (xlen d - rlen d)) (fifo_len d / SPI_FIFO_LEN_DIV) - 1)
  else mret ().

Definition dw_process_interrupts : M st spi_intr :=
  value ← dw_read32 SR;
  if has value DW_SPI_SR_TX_ERR then stop;; mret SPI_INTR_ERR
  else if has value DW_SPI_SR_DCOL then stop;; mret SPI_INTR_ERR
  else
    len ← dw_read32 RXFLR;
    dw_read_fifo len;; add_rlen len;;
    d ← gets spi;
    if rlen d =? xlen d then stop;; mret SPI_INTR_DONE
    else
      (if tlen d <? xlen d then
         let len := Z.min len (xlen d - tlen d) in dw_write_fifo len;; add_tlen len
       else mret ());;
      rearm;;
      mret SPI_INTR_CONTINUE.

(** sem_timedwait: at least a word time passes, and as many as it takes for
    an interrupt; without one, or when the time is up, ETIMEDOUT. *)
Fixpoint until_irq (fuel : nat) (h : ssi) : option ssi :=
  if irq h then Some h else match fuel with O => None | S n => until_irq n (shift h) end.

Fixpoint dw_wait (fuel : nat) : M st errno :=
  match fuel with
  | O => crash
  | S n => fun s =>
      let h := tick (S (ticks (now s))) (hw s) in
      match (if expires (now s) then None else until_irq (length (txf h)) h) with
      | None => Some (ETIMEDOUT, St h (spi s) (pbuf s) (S (now s)))
      | Some h =>
          (r ← dw_process_interrupts;
           match r with
           | SPI_INTR_CONTINUE => dw_wait n
           | SPI_INTR_DONE => mret EOK
           | SPI_INTR_ERR => mret EIO
           end) (St h (spi s) (pbuf s) (S (now s)))
      end
  end.

(** ** A transfer (xfer.c) *)
Definition dscales : list Z := [0; 0; 1; 2; 2].
Definition DW_PSSI_CTRLR0_DFS_CONFIG (dlen : Z) : Z :=
  if dlen <? SPI_MODE_WORD_WIDTH_16 / 8 then SPI_DFS_DEFAULT * dlen - 1
  else Z.shiftl (SPI_DFS_DEFAULT * dlen - 1) 16.

(** spi_cfg_t, and the clock of the bus. *)
Record spi_cfg := Cfg { mode : Z; clock_rate : Z }.

Definition nbits_of (cfg : spi_cfg) : Z := Z.land (mode cfg) SPI_MODE_WORD_WIDTH_MASK.

(** The value of CTRLR0: TX and RX, Motorola frames of [dlen] bytes. *)
Definition ctrlr0_of (dlen mode : Z) (loopback sste : bool) (version : Z) : Z :=
  let c := DW_PSSI_CTRLR0_DFS_CONFIG dlen in
  let c := if has mode SPI_MODE_CPOL_1 then Z.lor c DW_SPI_CTRLR0_SCPOL else c in
  let c := if has mode SPI_MODE_CPHA_1 then Z.lor c DW_SPI_CTRLR0_SCPHA else c in
  let c := if loopback then Z.lor c DW_PSSI_CTRLR0_SRL else c in
  let c := if sste then Z.lor c DW_SPI_SSTE else c in
  if DW_HSSI_102A <=? version then Z.lor c DW_SPI_CTRLR0_IS_MST else c.

Definition dw_prepare_for_transfer (input_clk : Z) (cfg : spi_cfg) (tnbytes rnbytes : Z) : M st errno :=
  let nbits := nbits_of cfg in
  if (nbits <=? SPI_MIN_WORD_WIDTH) || (SPI_MAX_WORD_WIDTH <? nbits) then mret EINVAL
  else
    dw_spi_enable DW_SPI_DISABLE;;
    let len := (nbits + DW_NBIT_ROUNDER) / 8 in
    let scale := default 0 (dscales !! Z.to_nat len) in
    let len := if len =? 3 then 4 else len in
    let nbytes := Z.max tnbytes rnbytes in
    let x := Z.shiftr nbytes scale in
    upd (fun d => set_setup x len scale (xtime_us d) (cr0 d) d);;
    if (x <=? 0) || negb (nbytes =? u32 (Z.shiftl x scale)) then mret EINVAL
    else if clock_rate cfg =? 0 then mret EINVAL
    else
      version ← dw_read32 VERSION;
      d ← gets spi;
      let c := ctrlr0_of len (mode cfg) (loopback d) (sste d) version in
      dw_write32 BAUDR (input_clk / clock_rate cfg);;
      dw_write32 CTRLR0 c;;
      dw_write32 CTRLR1 0;;
      let us := Z.max 1 (u64 (nbits * 1000 * 1000 * x) / clock_rate cfg) in
      upd (fun d => set_counts x 0 0 (set_setup x len scale us c d));;
      mret EOK.

(** From the prefill of the FIFO to the selection of the slave. *)
Definition start (devno : Z) : M st () :=
  d ← gets spi;
  let len := Z.min (xlen d) (fifo_len d / SPI_FIFO_LEN_DIV) in
  dw_write_fifo len;; add_tlen len;;
  d ← gets spi;
  (if tlen d <? xlen d then
     dw_write32 IMR DW_SPI_INT_MASK;;
     dw_write32 RXFTLR (len - 1);;
     dw_write32 TXFTLR len
   else
     dw_write32 IMR (Z.lor DW_SPI_INT_RXUI (Z.lor DW_SPI_INT_RXOI DW_SPI_INT_RXFI));;
     dw_write32 RXFTLR (len - 1));;
  dw_spi_select_slave devno;;
  mret ().

Definition dw_xfer (fuel : nat) (input_clk : Z) (cfg : spi_cfg) (devno tnbytes rnbytes : Z) : M st errno :=
  busy ← dw_spi_busy;
  if (busy : bool) then mret EBUSY
  else
    e ← dw_prepare_for_transfer input_clk cfg tnbytes rnbytes;
    if decide (e <> EOK) then mret e
    else
      dw_write32 DMACR 0;;
      dw_device_reset;;
      start devno;;
      e ← dw_wait fuel;
      dw_spi_enable DW_SPI_DISABLE;;
      mret e.

(** ** Configuration (config.c, init.c) *)

(** dw_cfg on a device: its number, configuration and current clock rate. *)
Record spi_dev := Dev { devno : Z; cfg : spi_cfg; current_clkrate : Z }.

Definition dw_cfg (cs_max input_clk : Z) (dev : spi_dev) : errno * spi_dev :=
  let c := cfg dev in
  let nbits := nbits_of c in
  if cs_max <=? devno dev then (EINVAL, dev)
  else if (nbits <? 4) || (32 <? nbits) then (EINVAL, dev)
  else if clock_rate c =? 0 then (EINVAL, dev)
  else
    let rate := if input_clk / 2 <? clock_rate c then u32 input_clk else clock_rate c in
    if negb (current_clkrate dev =? rate) then
      let div := u32 ((input_clk + rate - 1) / rate) in
      let div := Z.max (Z.min div DW_SCK_DIV_MAX) DW_SCK_DIV_MIN in
      let rate := u32 (input_clk / div) in
      (EOK, Dev (devno dev) (Cfg (mode c) rate) rate)
    else (EOK, Dev (devno dev) (Cfg (mode c) rate) (current_clkrate dev)).

Definition dw_setcfg (cs_max input_clk : Z) (dev : spi_dev) (c : spi_cfg) : errno * spi_dev :=
  dw_cfg cs_max input_clk (Dev (devno dev) c (current_clkrate dev)).

Fixpoint fifo_len_loop (n : nat) (i : Z) : M st Z :=
  match n with
  | O => mret i
  | S n' => dw_write32 TXFTLR i;; v ← dw_read32 TXFTLR;
            if negb (v =? i) then mret i else fifo_len_loop n' (i + 1)
  end.
Definition dw_spi_get_fifo_len : M st Z :=
  hold ← dw_read32 TXFTLR;
  let left := if negb (hold =? 0) then hold else DW_SPI_MIN_FIFO_LENGTH in
  i ← fifo_len_loop (Z.to_nat (DW_SPI_MAX_FIFO_LENGTH + 2 - left)) left;
  dw_write32 TXFTLR hold;; mret i.

Definition set_fifo_len (n : Z) (d : dw_spi) : dw_spi :=
  Dw (xlen d) (tlen d) (rlen d) (dlen d) (dscale d) (xtime_us d) (cr0 d) (loopback d) (sste d) (cs_max d) n.

(** The devices of the bus, configured up to the first that fails. *)
Fixpoint cfg_devices (cs_max input_clk : Z) (devs : list spi_dev) : errno * list spi_dev :=
  match devs with
  | [] => (EOK, [])
  | dev :: rest =>
      let '(e, dev) := dw_cfg cs_max input_clk dev in
      if decide (e <> EOK) then (e, dev :: rest)
      else let '(e, rest) := cfg_devices cs_max input_clk rest in (e, dev :: rest)
  end.

(** dw_init_device; [attach] is the result of InterruptAttachEvent. *)
Definition dw_init_device (input_clk : Z) (devs : list spi_dev) (attach : errno) : M st (errno * list spi_dev) :=
  d ← gets spi;
  let '(e, devs) := cfg_devices (cs_max d) input_clk devs in
  if decide (e <> EOK) then mret (e, devs)
  else
    dw_read32 ICR;;
    dw_write32 IMR DW_SPI_INT_MASK;;
    dw_write32 CTRLR1 0;;
    dw_spi_deselect_slave;;
    n ← dw_spi_get_fifo_len;
    upd (set_fifo_len n);;
    mret (attach, devs).

(** The registers in dw_fini. *)
Definition dw_fini : M st () :=
  dw_spi_enable DW_SPI_DISABLE;;
  dw_read32 TXOICR;; dw_read32 RXOICR;; dw_read32 RXUICR;;
  dw_spi_deselect_slave;;
  mret ().

(** dw_process_args over what getsubopt (with strtoul for the value) finds:
    None for an option that is not in the table. *)
Inductive spi_option := OPTION_CS_MAX (value : option Z) | OPTION_SSTE | OPTION_LOOPBACK.

Definition set_options (lb ss : bool) (cs : Z) (d : dw_spi) : dw_spi :=
  Dw (xlen d) (tlen d) (rlen d) (dlen d) (dscale d) (xtime_us d) (cr0 d) lb ss cs (fifo_len d).

Fixpoint dw_process_args (opts : list (option spi_option)) (d : dw_spi) : errno * dw_spi :=
  match opts with
  | [] => (EOK, d)
  | None :: _ => (EINVAL, d)
  | Some (OPTION_CS_MAX None) :: _ => (EINVAL, d)
  | Some (OPTION_CS_MAX (Some v)) :: rest =>
      let d := set_options (loopback d) (sste d) (u32 v) d in
      if (cs_max d <? 1) || (32 <? cs_max d) then (EINVAL, d) else dw_process_args rest d
  | Some OPTION_SSTE :: rest => dw_process_args rest (set_options (loopback d) true (cs_max d) d)
  | Some OPTION_LOOPBACK :: rest => dw_process_args rest (set_options true (sste d) (cs_max d) d)
  end.
End driver.
