(* ===== verification/DwSpiXfer.v ===== *)
(** * Transfers of the SPI driver

    While a transfer runs, the words out of the buffer that were sent, the
    words still in the FIFOs and the words stored back are tied together by
    one invariant, whatever the timing of the controller: no FIFO overflows,
    no word is stored over one that was not sent, and an interrupt that will
    wake the driver is always on its way. *)
From S2P Require Import Prelude Driver DwSpi.
Open Scope Z_scope.
Open Scope nat_scope.

(** What was exchanged: slave enables, word sent, word received. *)
Definition to (e : Z * Z * Z) : Z := e.1.1.
Definition sent (e : Z * Z * Z) : Z := e.1.2.
Definition got (e : Z * Z * Z) : Z := e.2.

(** The received words are what the slave answers, one after another. *)
Fixpoint answers (slave : list (Z * Z * Z) -> Z -> Z -> Z) (before W : list (Z * Z * Z)) : Prop :=
  match W with
  | [] => True
  | e :: W' => got e = u32 (slave before (to e) (sent e)) /\ answers slave (before ++ [e]) W'
  end.

Lemma answers_snoc slave W : forall before e,
  answers slave before W -> got e = u32 (slave (before ++ W) (to e) (sent e)) ->
  answers slave before (W ++ [e]).
Proof.
  induction W as [|x W IH]; simpl; intros before e HA HE.
  - rewrite app_nil_r in HE. done.
  - destruct HA as [H1 H2]. split; [done|]. apply IH; [done|]. by rewrite <- app_assoc.
Qed.

Lemma upd_bind {B} f (k : () -> M st B) s :
  (x ← upd f; k x) s = k () (St (hw s) (f (spi s)) (pbuf s) (now s)).
Proof. done. Qed.

Section transfer.
Context {io : IoSpi}.
Context (depth : nat) (version : Z) (slave : list (Z * Z * Z) -> Z -> Z -> Z).
Context (ticks : nat -> nat) (glitch : nat -> Z) (expires : nat -> bool).
(** The buffer at the start, how its words are stored, what was exchanged
    before, the slave and its transfer's length. *)
Context (b0 : list Z) (scale : Z) (W0 : list (Z * Z * Z)) (sel : Z) (X : nat).
Hypothesis scale_ok : (0 <= scale <= 2)%Z.
Hypothesis words : Forall (fun w => (0 <= w < 2 ^ (8 * 2 ^ scale))%Z) b0.
Hypothesis sel_ok : (0 < sel < 4294967296)%Z.
Hypothesis X_fits : X <= length b0.

Local Notation shift := (shift depth slave).
Local Notation tick := (tick depth slave).
Local Notation dw_read32 := (dw_read32 depth version slave ticks glitch).
Local Notation dw_write32 := (dw_write32 depth slave ticks).
Local Notation rearm := (rearm depth version slave ticks glitch).
Local Notation start := (start depth version slave ticks glitch).

(** ** The invariant

    [W] has been exchanged, [r] words of it are stored, [t] words are sent. *)
Record exchanged (r : nat) (W : list (Z * Z * Z)) (s : st) : Prop := {
  ex_wire : wire (hw s) = W0 ++ W;
  ex_sent : sent <$> W = take (length W) b0;
  ex_to : Forall (fun e => to e = sel) W;
  ex_answers : answers slave W0 W;
  ex_stored : r <= length W <= X;
  ex_buf : pbuf s = (cast scale <$> take r (got <$> W)) ++ drop r b0;
  ex_errs : errs (hw s) = 0%Z
}.

Record fifos (t r : nat) (W : list (Z * Z * Z)) (h : ssi) : Prop := {
  ff_tx : txf h = take (t - length W) (drop (length W) b0);
  ff_rx : rxf h = drop r (got <$> W);
  ff_count : length W <= t <= X;
  ff_room : t - r <= depth;
  ff_enabled : ssienr h = 1%Z;
  ff_ser : ser h = sel \/ (ser h = 0%Z /\ W = [])
}.

Definition running_inv (t r : nat) (W : list (Z * Z * Z)) (D : dw_spi) (s : st) : Prop :=
  exchanged r W s /\ fifos t r W (hw s) /\ spi s = D.

(** The registers that a shift leaves alone. *)
Definition regs (h : ssi) := (ser h, imr h, txftlr h, rxftlr h).

Lemma tx_length t r W h : fifos t r W h -> length (txf h) = t - length W.
Proof. intros F. rewrite (ff_tx _ _ _ _ F), length_take, length_drop. pose proof (ff_count _ _ _ _ F). lia. Qed.

Lemma rx_length t r W h : fifos t r W h -> length (rxf h) = length W - r.
Proof. intros F. by rewrite (ff_rx _ _ _ _ F), length_drop, length_fmap. Qed.

Lemma ser_running t r W h : fifos t r W h -> ser h <> 0%Z -> running h = true /\ ser h = sel.
Proof.
  intros F HS. unfold running, enabled. rewrite (ff_enabled _ _ _ _ F). destruct (ff_ser _ _ _ _ F) as [E|[E _]]; [|done].
  rewrite E. destruct (sel =? 0)%Z eqn:E0; zbool; [lia|done].
Qed.

(** One word time. *)
Lemma shift_inv t r W D s : running_inv t r W D s ->
  exists W', running_inv t r W' D (St (shift (hw s)) (spi s) (pbuf s) (now s)) /\
    regs (shift (hw s)) = regs (hw s) /\ length W <= length W' /\
    (ser (hw s) <> 0%Z -> txf (hw s) <> [] -> length W < length W').
Proof.
  intros (E & F & ED). destruct s as [h d b k]. simpl in *.
  assert (Stay : txf h = [] \/ ser h = 0%Z -> shift h = h).
  { unfold DwSpi.shift, running. intros [->| ->]; [done|]. destruct (txf h); [done|]. by rewrite andb_false_r. }
  destruct (decide (txf h = [] \/ ser h = 0%Z)) as [HS|HS].
  { exists W. rewrite (Stay HS). split; [done|]. split; [done|]. split; [done|]. tauto. }
  assert (HN : txf h <> [] /\ ser h <> 0%Z) by tauto. destruct HN as [HT HR].
  destruct (ser_running _ _ _ _ F HR) as [HRun Hsel].
  pose proof (tx_length _ _ _ _ F) as LT. pose proof (rx_length _ _ _ _ F) as LR.
  pose proof (ff_count _ _ _ _ F). pose proof (ff_room _ _ _ _ F). pose proof (ex_stored _ _ _ E).
  destruct (txf h) as [|w tl] eqn:ET; [done|]. simpl in LT.
  assert (LX : length W < length b0) by lia. apply lookup_lt_is_Some in LX as [w0 Hw0].
  pose proof (ff_tx _ _ _ _ F) as T. rewrite ET, (drop_S _ _ _ Hw0) in T.
  replace (t - length W) with (S (t - S (length W))) in T by lia. injection T as -> T.
  set (v := u32 (slave (wire h) (ser h) w0)). exists (W ++ [(ser h, w0, v)]).
  assert (EW : length (W ++ [(ser h, w0, v)]) = S (length W)) by (rewrite length_app; simpl; lia).
  assert (Hlen : length (rxf h) < depth) by lia.
  assert (ESh : shift h = with_fifos (errs h) tl (rxf h ++ [v]) (wire h ++ [(ser h, w0, v)]) h).
  { unfold DwSpi.shift. rewrite ET, HRun. fold v. by rewrite (proj2 (Nat.ltb_lt _ _) Hlen). }
  rewrite ESh. split; [|split; [done|split; [lia|intros; lia]]].
  destruct E as [E1 E2 E3 E4 E5 E6 E7]. simpl in *. split; [|split; [|done]].
  - constructor; simpl; rewrite ?EW.
    + by rewrite E1, app_assoc.
    + rewrite fmap_app, E2. simpl. by rewrite (take_S_r _ _ _ Hw0).
    + apply Forall_app. split; [done|]. by apply Forall_singleton.
    + apply answers_snoc; [done|]. unfold v. by rewrite E1.
    + lia.
    + rewrite E6, fmap_app, take_app_le; [done|]. rewrite length_fmap. lia.
    + done.
  - constructor; simpl; rewrite ?EW; [done| |lia|lia| |by left].
    + rewrite (ff_rx _ _ _ _ F), fmap_app, drop_app_le; [done|]. rewrite length_fmap. lia.
    + apply (ff_enabled _ _ _ _ F).
Qed.

(** Any number of word times. *)
Lemma tick_inv n t r W D s : running_inv t r W D s ->
  exists W', running_inv t r W' D (St (tick n (hw s)) (spi s) (pbuf s) (now s)) /\
    regs (tick n (hw s)) = regs (hw s) /\ length W <= length W' /\
    (0 < n -> ser (hw s) <> 0%Z -> txf (hw s) <> [] -> length W < length W').
Proof.
  intros I. induction n as [|n (W' & I' & R' & L' & P')].
  - exists W. destruct s. split; [done|]. split; [done|]. split; [lia|lia].
  - destruct (shift_inv _ _ _ _ _ I') as (W2 & I2 & R2 & L2 & P2). simpl in *. exists W2.
    split; [done|]. split; [by rewrite R2|]. split; [lia|]. intros _ HS HT.
    destruct n as [|n]; [pose proof (P2 HS HT); lia|]. pose proof (P' ltac:(lia) HS HT). lia.
Qed.

(** The access counter is not part of the invariant. *)
Lemma running_now t r W D s n : running_inv t r W D s -> running_inv t r W D (St (hw s) (spi s) (pbuf s) n).
Proof. intros ([] & F & E). split; [by constructor|done]. Qed.

(** ** Accesses *)

(** The word times before an access, and what they leave alone. *)
Lemma access t r W D s : running_inv t r W D s ->
  exists W' h, tick (ticks (now s)) (hw s) = h /\
    running_inv t r W' D (St h (spi s) (pbuf s) (S (now s))) /\
    regs h = regs (hw s) /\ length W <= length W'.
Proof.
  intros I. destruct (tick_inv (ticks (now s)) _ _ _ _ _ I) as (W' & I' & R & L & _).
  exists W', (tick (ticks (now s)) (hw s)). split; [done|]. split; [|done].
  apply (running_now _ _ _ _ _ (S (now s)) I').
Qed.

(** A register that only holds a value, other than the enables. *)
Definition plain (g : reg) : Prop := g = IMR \/ g = TXFTLR \/ g = RXFTLR \/ g = DMACR.

Lemma running_store t r W D s g v :
  plain g -> running_inv t r W D s -> running_inv t r W D (St (store g v (hw s)) (spi s) (pbuf s) (now s)).
Proof.
  intros P ([] & [] & E). destruct s as [h d b n]. destruct h. simpl in *.
  destruct P as [->|[->|[->| ->]]]; (split; [by constructor|split; [by constructor|done]]).
Qed.

(** A read that changes nothing: the word times before it, and its value. *)
Lemma read_inv t r W D s g :
  (forall h, (ssi_read depth version g h).2 = h) -> running_inv t r W D s ->
  exists W' s' v, dw_read32 g s = Some (v, s') /\ running_inv t r W' D s' /\
    regs (hw s') = regs (hw s) /\ length W <= length W' /\
    v = Z.lor (ssi_read depth version g (hw s')).1
          (if decide (g = SR) then Z.land (glitch (now s)) (Z.lor DW_SPI_SR_TX_ERR DW_SPI_SR_DCOL) else 0%Z).
Proof.
  intros HG I. destruct (access _ _ _ _ _ I) as (W' & h & Eh & I' & R & L).
  unfold DwSpi.dw_read32. rewrite Eh. pose proof (HG h) as EG.
  destruct (ssi_read depth version g h) as [v h'] eqn:ER. simpl in EG. subst h'. eexists W', _, _.
  split; [reflexivity|]. split; [done|]. split; [done|]. split; [done|]. simpl. by rewrite ER.
Qed.

Lemma write_plain t r W D s g v :
  plain g -> (0 <= v < 4294967296)%Z -> running_inv t r W D s ->
  exists W' s', dw_write32 g v s = Some ((), s') /\ running_inv t r W' D s' /\ length W <= length W' /\
    regs (hw s') = regs (ssi_write depth g v (hw s)).
Proof.
  intros P Hv I. destruct (access _ _ _ _ _ I) as (W' & h & Eh & I' & R & L).
  eexists W', _. unfold DwSpi.dw_write32. rewrite Eh, u32_id by done. split; [reflexivity|].
  pose proof (running_store _ _ _ _ _ g v P I') as IS. unfold regs in *. simpl in *.
  assert (EW : forall h1, ssi_write depth g v h1 = h1 \/ ssi_write depth g v h1 = store g v h1).
  { intros h1. destruct P as [->|[->|[->| ->]]]; simpl; try destruct (_ <? _)%Z; auto. }
  split; [destruct (EW h) as [-> | ->]; done|]. split; [done|].
  destruct (hw s), h; simpl in R. destruct P as [->|[->|[->| ->]]]; simpl; try destruct (_ <? _)%Z; simpl; congruence.
Qed.

(** ** The loops on the data register *)

Lemma sent_word t r W D s : running_inv t r W D s -> t < X ->
  exists w, b0 !! t = Some w /\ pbuf s !! t = Some w /\ u32 w = w.
Proof.
  intros (E & F & _) Ht. destruct (lookup_lt_is_Some_2 b0 t) as [w Hw]; [lia|]. exists w. split; [done|].
  pose proof (ff_count _ _ _ _ F). pose proof (ex_stored _ _ _ E).
  rewrite (ex_buf _ _ _ E), lookup_app_r; rewrite length_fmap, length_take, length_fmap; [|lia].
  rewrite lookup_drop. replace (r + _) with t by lia. split; [done|].
  pose proof (Forall_lookup_1 _ _ _ _ words Hw) as B. cbv beta in B. apply u32_id.
  assert (2 ^ (8 * 2 ^ scale) <= 2 ^ (8 * 2 ^ 2))%Z.
  { apply Z.pow_le_mono_r; [lia|]. apply Z.mul_le_mono_nonneg_l; [lia|]. apply Z.pow_le_mono_r; lia. }
  change (2 ^ (8 * 2 ^ 2))%Z with 4294967296%Z in *. lia.
Qed.

Lemma write_word t r W D s : running_inv t r W D s -> t < X -> t - r < depth ->
  exists W' s' w, get_word (Z.of_nat t) s = Some (w, s) /\ dw_write32 DR w s = Some ((), s') /\
    running_inv (S t) r W' D s' /\ regs (hw s') = regs (hw s) /\ length W <= length W'.
Proof.
  intros I Ht Hroom. destruct (sent_word _ _ _ _ _ I Ht) as (w & Hw & Hb & Hu).
  destruct (access _ _ _ _ _ I) as (W' & h & Eh & I' & R & L).
  eexists W', _, w. unfold get_word. rewrite Nat2Z.id, Hb. split; [done|].
  unfold DwSpi.dw_write32. rewrite Eh, Hu. split; [reflexivity|].
  destruct I' as (E' & F' & ED). pose proof (tx_length _ _ _ _ F') as LT. simpl in *.
  pose proof (ff_count _ _ _ _ F'). pose proof (ex_stored _ _ _ E').
  assert (EW : ssi_write depth DR w h = with_fifos (errs h) (txf h ++ [w]) (rxf h) (wire h) h).
  { simpl. unfold enabled. rewrite (ff_enabled _ _ _ _ F'). simpl.
    by rewrite (proj2 (Nat.ltb_lt (length (txf h)) depth)) by lia. }
  simpl in EW. rewrite EW. split; [|done]. destruct E', F'. simpl in *. split; [by constructor|].
  split; [|done]. constructor; simpl; try done; try lia. rewrite ff_tx0.
  replace (S t - length W') with (S (t - length W')) by lia.
  erewrite take_S_r; [done|]. rewrite lookup_drop. by replace (length W' + (t - length W')) with t by lia.
Qed.

Lemma read_word t r W D s : running_inv t r W D s -> r < length W ->
  exists W' s', (v ← dw_read32 DR; set_word (Z.of_nat r) (cast scale v)) s = Some ((), s') /\
    running_inv t (S r) W' D s' /\ regs (hw s') = regs (hw s) /\ length W <= length W'.
Proof.
  intros I Hr. destruct (access _ _ _ _ _ I) as (W' & h & Eh & I' & R & L).
  destruct I' as (E' & F' & ED). simpl in *.
  destruct (lookup_lt_is_Some_2 (got <$> W') r) as [v Hv]; [rewrite length_fmap; lia|].
  pose proof (ff_rx _ _ _ _ F') as RX. rewrite (drop_S _ _ _ Hv) in RX.
  assert (EB : length (take r (got <$> W')) = r) by (rewrite length_take, length_fmap; lia).
  pose proof (ff_count _ _ _ _ F'). pose proof (ex_stored _ _ _ E').
  eexists W', _. unfold mbind, M_bind, DwSpi.dw_read32. rewrite Eh. simpl. rewrite RX. simpl.
  rewrite Z.lor_0_r. unfold set_word. simpl. rewrite Nat2Z.id, decide_True.
  2: { pose proof (ex_buf _ _ _ E') as EPB. simpl in EPB. rewrite EPB, length_app, length_fmap, EB, length_drop. lia. }
  split; [reflexivity|]. split; [|done]. destruct E', F'. simpl in *. split; [|split; [|done]].
  - constructor; simpl; try done; try lia. rewrite ex_buf0, (take_S_r _ _ _ Hv), fmap_app.
    rewrite insert_app_r_alt by (rewrite length_fmap, EB; lia).
    rewrite length_fmap, EB, Nat.sub_diag, <- app_assoc. f_equal.
    destruct (lookup_lt_is_Some_2 b0 r) as [x Hx]; [lia|]. by rewrite (drop_S _ _ _ Hx).
  - constructor; simpl; try done; lia.
Qed.

Lemma write_loop n : forall t r W D s, running_inv t r W D s -> t + n <= X -> t + n - r <= depth ->
  exists W' s', write_fifo_loop depth slave ticks n (Z.of_nat t) s = Some ((), s') /\
    running_inv (t + n) r W' D s' /\ regs (hw s') = regs (hw s) /\ length W <= length W'.
Proof.
  induction n as [|n IH]; intros t r W D s I HX HR.
  - exists W, s. rewrite Nat.add_0_r. done.
  - destruct (write_word _ _ _ _ _ I) as (W1 & s1 & w & EG & EW & I1 & R1 & L1); [lia| |].
    { destruct I as (E & F & _). pose proof (ex_stored _ _ _ E). pose proof (ff_count _ _ _ _ F). lia. }
    destruct (IH _ _ _ _ _ I1) as (W2 & s2 & E2 & I2 & R2 & L2); [lia|lia|].
    exists W2, s2. simpl. rewrite (bind_eq _ _ _ _ _ EG), (bind_eq _ _ _ _ _ EW).
    replace (Z.of_nat t + 1)%Z with (Z.of_nat (S t)) by lia. rewrite E2.
    replace (t + S n) with (S t + n) by lia. split; [done|]. split; [done|]. split; [congruence|lia].
Qed.

Lemma read_loop n : forall t r W D s, running_inv t r W D s -> r + n <= length W ->
  exists W' s', read_fifo_loop depth version slave ticks glitch scale n (Z.of_nat r) s = Some ((), s') /\
    running_inv t (r + n) W' D s' /\ regs (hw s') = regs (hw s) /\ length W <= length W'.
Proof.
  induction n as [|n IH]; intros t r W D s I HR.
  - exists W, s. rewrite Nat.add_0_r. done.
  - destruct (read_word _ _ _ _ _ I) as (W1 & s1 & EW & I1 & R1 & L1); [lia|].
    destruct (IH _ _ _ _ _ I1) as (W2 & s2 & E2 & I2 & R2 & L2); [lia|].
    exists W2, s2. simpl. unfold mbind, M_bind in *.
    destruct (DwSpi.dw_read32 depth version slave ticks glitch DR s) as [[v s']|]; [|done].
    rewrite EW. replace (Z.of_nat r + 1)%Z with (Z.of_nat (S r)) by lia. rewrite E2.
    replace (r + S n) with (S r + n) by lia. split; [done|]. split; [done|]. split; [congruence|lia].
Qed.

(** ** The interrupt handler *)
Context (d : dw_spi) (F : nat).
Hypothesis d_scale : dscale d = scale.
Hypothesis d_fifo : fifo_len d = Z.of_nat F.
Hypothesis F_ok : 2 <= F <= depth.
Hypothesis X_word : (Z.of_nat X < 4294967296)%Z.
Hypothesis X_pos : 0 < X.

Definition counts (t r : nat) : dw_spi := set_counts (Z.of_nat X) (Z.of_nat t) (Z.of_nat r) d.
(** How many words the driver keeps in the FIFOs. *)
Definition L : nat := Nat.min X (F / 2).

Lemma L_ok : 0 < L /\ L <= X /\ L <= depth /\ L <= F / 2 /\ L < depth.
Proof.
  unfold L. pose proof (Nat.div_mod_eq F 2). pose proof (Nat.mod_upper_bound F 2). lia.
Qed.

Lemma half_F : (fifo_len d / SPI_FIFO_LEN_DIV)%Z = Z.of_nat (F / 2).
Proof. rewrite d_fifo. unfold SPI_FIFO_LEN_DIV. by rewrite Nat2Z.inj_div. Qed.

Lemma running_upd t r W D s f :
  running_inv t r W D s -> running_inv t r W (f D) (St (hw s) (f (spi s)) (pbuf s) (now s)).
Proof. intros ([] & Ff & <-). split; [by constructor|done]. Qed.

Lemma write_fifo t r W s n D : running_inv t r W (counts t D) s -> t + n <= X -> t + n - r <= depth ->
  exists W' s', (dw_write_fifo depth slave ticks (Z.of_nat n);; add_tlen (Z.of_nat n)) s = Some ((), s') /\
    running_inv (t + n) r W' (counts (t + n) D) s' /\ regs (hw s') = regs (hw s) /\ length W <= length W'.
Proof.
  intros I HX HR. destruct (write_loop n _ _ _ _ _ I HX HR) as (W' & s' & E & I' & R & L').
  exists W', (St (hw s') (counts (t + n) D) (pbuf s') (now s')).
  assert (ES : spi s = counts t D) by apply I. assert (ES' : spi s' = counts t D) by apply I'.
  unfold dw_write_fifo. unfold mbind, M_bind, gets. rewrite ES. simpl. rewrite d_scale.
  rewrite (proj2 (Z.leb_le scale 2)), Nat2Z.id, E by lia. unfold add_tlen, upd, modify. rewrite ES'. simpl.
  rewrite u32_id by lia. unfold counts, set_counts. simpl. rewrite Nat2Z.inj_add. split; [done|].
  split; [|done]. destruct I' as ([] & Ff & _). split; [by constructor|done].
Qed.

Lemma read_fifo t r W s n D : running_inv t r W (counts D r) s -> r + n <= length W ->
  exists W' s', (dw_read_fifo depth version slave ticks glitch (Z.of_nat n);; add_rlen (Z.of_nat n)) s = Some ((), s') /\
    running_inv t (r + n) W' (counts D (r + n)) s' /\ regs (hw s') = regs (hw s) /\ length W <= length W'.
Proof.
  intros I HR. destruct (read_loop n _ _ _ _ _ I HR) as (W' & s' & E & I' & R & L').
  exists W', (St (hw s') (counts D (r + n)) (pbuf s') (now s')).
  assert (ES : spi s = counts D r) by apply I. assert (ES' : spi s' = counts D r) by apply I'.
  assert (r + n <= X) by (destruct I' as (E' & _); pose proof (ex_stored _ _ _ E'); lia).
  unfold dw_read_fifo. unfold mbind, M_bind, gets. rewrite ES. simpl. rewrite d_scale.
  rewrite (proj2 (Z.leb_le scale 2)), Nat2Z.id, E by lia. unfold add_rlen, upd, modify. rewrite ES'. simpl.
  rewrite u32_id by lia. unfold counts, set_counts. simpl. rewrite Nat2Z.inj_add. split; [done|].
  split; [|done]. destruct I' as ([] & Ff & _). split; [by constructor|done].
Qed.

(** What the driver leaves behind when it disables the controller. *)
Definition stopped (r : nat) (W : list (Z * Z * Z)) (s : st) : Prop :=
  exchanged r W s /\ ssienr (hw s) = 0%Z.

Lemma disable t r W D s : running_inv t r W D s ->
  exists W' s', dw_write32 SSIENR 0 s = Some ((), s') /\ stopped r W' s' /\ length W <= length W'.
Proof.
  intros I. destruct (access _ _ _ _ _ I) as (W' & h & Eh & I' & R & L').
  eexists W', _. unfold DwSpi.dw_write32. rewrite Eh. split; [reflexivity|]. split; [|done].
  destruct I' as ([] & _ & _). destruct h. simpl in *. split; [by constructor|done].
Qed.

Lemma tick_off n h : ssienr h = 0%Z -> tick n h = h.
Proof.
  intros E. induction n as [|n IH]; [done|]. change (tick (S n) h) with (shift (tick n h)). rewrite IH.
  unfold DwSpi.shift, running, enabled. rewrite E. by destruct (txf h).
Qed.

Lemma write_off r W s g v : g = SSIENR /\ v = 0%Z \/ g = IMR -> stopped r W s ->
  exists s', dw_write32 g v s = Some ((), s') /\ stopped r W s'.
Proof.
  intros HG (E & E0). eexists. unfold DwSpi.dw_write32. rewrite tick_off by done. split; [reflexivity|].
  destruct s as [h dd b n], E. destruct h. simpl in *.
  destruct HG as [[-> ->]| ->]; simpl; (split; [by constructor|done]).
Qed.

Lemma stop_ok t r W D s : running_inv t r W D s ->
  exists W' s', stop depth slave ticks s = Some ((), s') /\ stopped r W' s' /\ length W <= length W'.
Proof.
  intros I. destruct (disable _ _ _ _ _ I) as (W' & s1 & E1 & S1 & L1).
  destruct (write_off _ _ _ IMR 0 (or_intror eq_refl) S1) as (s2 & E2 & S2). exists W', s2.
  unfold stop, dw_spi_enable, DW_SPI_DISABLE. by rewrite (bind_eq _ _ _ _ _ E1).
Qed.

(** Interrupts that will wake the driver: while words are left to send, an
    empty transmit FIFO; then, the reception of all that is on its way. *)
Definition armed (t r : nat) (h : ssi) : Prop :=
  (t < X /\ t - r = L /\ imr h = 31%Z /\ txftlr h = Z.of_nat L) \/
  (t = X /\ r < X /\ X - r <= L /\ imr h = 28%Z /\ rxftlr h = (Z.of_nat (X - r) - 1)%Z).

Lemma armed_regs t r h h' : regs h' = regs h -> armed t r h -> armed t r h'.
Proof. unfold regs, armed. intros E. injection E as ? -> -> ->. done. Qed.

Lemma no_error n h m : m = DW_SPI_SR_TX_ERR \/ m = DW_SPI_SR_DCOL ->
  has (Z.lor (status depth h) (Z.land (glitch n) (Z.lor DW_SPI_SR_TX_ERR DW_SPI_SR_DCOL))) m = true ->
  glitch n <> 0%Z.
Proof.
  intros Hm HT E. rewrite E, Z.land_0_l, Z.lor_0_r in HT. unfold status in HT. revert HT.
  destruct Hm as [-> | ->]; repeat case_match; done.
Qed.

Lemma rearm_ok t r W s : running_inv t r W (counts t r) s -> r < X -> t - r <= L ->
  imr (hw s) = 31%Z \/ imr (hw s) = 28%Z ->
  (t < X -> t - r = L /\ imr (hw s) = 31%Z /\ txftlr (hw s) = Z.of_nat L) ->
  exists W' s', rearm s = Some ((), s') /\ running_inv t r W' (counts t r) s' /\ armed t r (hw s') /\
    ser (hw s') = ser (hw s) /\ length W <= length W'.
Proof.
  intros I HrX HL HM HA. destruct L_ok as (L1 & L2 & L3 & L4 & L5). unfold DwSpi.rearm.
  assert (ES : spi s = counts t r) by apply I. rewrite gets_bind, ES. simpl.
  assert (Ht : t <= X) by (destruct I as (_ & Ff & _); pose proof (ff_count _ _ _ _ Ff); lia).
  destruct (Z.of_nat X <=? Z.of_nat t)%Z eqn:EX; zbool.
  2: { exists W, s. split; [done|]. split; [done|]. split; [left; destruct HA; [lia|split; [lia|done]]|done]. }
  assert (t = X) by lia. subst t.
  destruct (read_inv _ _ _ _ _ IMR (fun h => eq_refl) I) as (W1 & s1 & v & E1 & I1 & R1 & G1 & Hv).
  simpl in Hv. rewrite Z.lor_0_r in Hv. unfold regs in R1. injection R1 as R1a R1b R1c R1d.
  assert (Hm : Z.ldiff (Z.ldiff v DW_SPI_INT_TXEI) DW_SPI_INT_TXOI = 28%Z)
    by (rewrite Hv, R1b; destruct HM as [-> | ->]; done).
  rewrite (bind_eq _ _ _ _ _ E1), Hm.
  destruct (write_plain _ _ _ _ _ IMR 28 (or_introl eq_refl) ltac:(lia) I1) as (W2 & s2 & E2 & I2 & G2 & R2).
  rewrite (bind_eq _ _ _ _ _ E2), half_F, u32_id by lia.
  assert (Hmin : Z.min (Z.of_nat X - Z.of_nat r) (Z.of_nat (F / 2)) = Z.of_nat (X - r)) by lia.
  rewrite Hmin.
  destruct (write_plain _ _ _ _ _ RXFTLR (Z.of_nat (X - r) - 1) ltac:(unfold plain; auto) ltac:(lia) I2)
    as (W3 & s3 & E3 & I3 & G3 & R3).
  exists W3, s3. split; [done|]. split; [done|]. simpl in R2, R3.
  rewrite (proj2 (Z.ltb_lt _ (Z.of_nat depth))) in R3 by lia.
  unfold regs in R2, R3. destruct (hw s1), (hw s2). simpl in *. injection R2 as ? ? ? ?. injection R3 as ? ? ? ?.
  split; [right|split; [congruence|lia]]. split; [done|]. split; [lia|]. split; [lia|]. split; congruence.
Qed.

Lemma process_ok t r W s : running_inv t r W (counts t r) s -> armed t r (hw s) ->
  exists res s', dw_process_interrupts depth version slave ticks glitch s = Some (res, s') /\
  match res with
  | SPI_INTR_ERR => (exists n, glitch n <> 0%Z) /\ exists W', stopped r W' s'
  | SPI_INTR_DONE => exists W', stopped X W' s'
  | SPI_INTR_CONTINUE => exists t' r' W', running_inv t' r' W' (counts t' r') s' /\
      armed t' r' (hw s') /\ ser (hw s') = ser (hw s) /\ length W <= r'
  end.
Proof.
  intros I HA. destruct L_ok as (L1 & L2 & L3 & L4 & L5).
  destruct (read_inv _ _ _ _ _ SR (fun h => eq_refl) I) as (W1 & s1 & v & E1 & I1 & R1 & G1 & Hv).
  rewrite decide_True in Hv by done. simpl in Hv.
  unfold dw_process_interrupts. rewrite (bind_eq _ _ _ _ _ E1).
  assert (Err : forall m, has v m = true -> m = DW_SPI_SR_TX_ERR \/ m = DW_SPI_SR_DCOL ->
    exists res s', (stop depth slave ticks;; mret SPI_INTR_ERR) s1 = Some (res, s') /\
    match res with SPI_INTR_ERR => (exists n, glitch n <> 0%Z) /\ exists W', stopped r W' s' | _ => False end).
  { intros m Hm Hmm. rewrite Hv in Hm. apply no_error in Hm; [|done].
    destruct (stop_ok _ _ _ _ _ I1) as (W2 & s2 & E2 & S2 & _). exists SPI_INTR_ERR, s2.
    rewrite (bind_eq _ _ _ _ _ E2). eauto. }
  destruct (has v DW_SPI_SR_TX_ERR) eqn:H1.
  { destruct (Err _ H1 (or_introl eq_refl)) as (res & s' & E' & P). exists res, s'. destruct res; done. }
  destruct (has v DW_SPI_SR_DCOL) eqn:H2.
  { destruct (Err _ H2 (or_intror eq_refl)) as (res & s' & E' & P). exists res, s'. destruct res; done. }
  clear Err. destruct (read_inv _ _ _ _ _ RXFLR (fun h => eq_refl) I1) as (W2 & s2 & n & E2 & I2 & R2 & G2 & Hn).
  simpl in Hn. rewrite Z.lor_0_r, (rx_length t r W2) in Hn by apply I2. rewrite (bind_eq _ _ _ _ _ E2).
  assert (HW : r <= length W2 <= t /\ t <= X) by (destruct I2 as (Ee & Ff & _); pose proof (ex_stored _ _ _ Ee);
    pose proof (ff_count _ _ _ _ Ff); lia).
  subst n. assert (HR : r + (length W2 - r) <= length W2) by lia.
  destruct (read_fifo _ _ _ _ _ _ I2 HR) as (W3 & s3 & E3 & I3 & R3 & G3).
  replace (r + (length W2 - r)) with (length W2) in I3 by lia.
  rewrite (seq_eq _ _ _ _ _ _ E3), gets_bind. assert (ES : spi s3 = counts t (length W2)) by apply I3.
  assert (RR : regs (hw s3) = regs (hw s)) by congruence.
  assert (HA3 : armed t r (hw s3)) by (by apply (armed_regs _ _ (hw s))).
  rewrite ES. simpl. destruct (Z.of_nat (length W2) =? Z.of_nat X)%Z eqn:EX; zbool.
  { assert (EX' : length W2 = X) by lia. rewrite EX' in I3.
    destruct (stop_ok _ _ _ _ _ I3) as (W4 & s4 & E4 & S4 & _). exists SPI_INTR_DONE, s4.
    rewrite (bind_eq _ _ _ _ _ E4). eauto. }
  assert (Fill : exists t' W4 s4,
    (if (Z.of_nat t <? Z.of_nat X)%Z then
       dw_write_fifo depth slave ticks (Z.min (Z.of_nat (length W2 - r)) (Z.of_nat X - Z.of_nat t));;
       add_tlen (Z.min (Z.of_nat (length W2 - r)) (Z.of_nat X - Z.of_nat t))
     else mret ()) s3 = Some ((), s4) /\ running_inv t' (length W2) W4 (counts t' (length W2)) s4 /\
    regs (hw s4) = regs (hw s3) /\ t' - length W2 <= L /\
    (t' < X -> t' - length W2 = L /\ imr (hw s4) = 31%Z /\ txftlr (hw s4) = Z.of_nat L)).
  { destruct HA3 as [(A1 & A2 & A3 & A4)|(A1 & A2 & A3 & A4 & A5)].
    - rewrite (proj2 (Z.ltb_lt (Z.of_nat t) _)) by lia.
      replace (Z.min _ _) with (Z.of_nat (Nat.min (length W2 - r) (X - t))) by lia.
      destruct (write_fifo _ _ _ _ (Nat.min (length W2 - r) (X - t)) _ I3) as (W4 & s4 & E4 & I4 & R4 & _); [lia|lia|].
      exists (t + Nat.min (length W2 - r) (X - t)), W4, s4. split; [done|]. split; [done|]. split; [done|].
      split; [lia|]. intros Hlt. unfold regs in R4. injection R4 as _ -> -> _. split; [lia|done].
    - exists t, W3, s3. rewrite (proj2 (Z.ltb_ge (Z.of_nat t) _)) by lia.
      split; [done|]. split; [done|]. split; [done|]. split; [lia|lia]. }
  destruct Fill as (t' & W4 & s4 & E4 & I4 & R4 & HL & HS). rewrite (bind_eq _ _ _ _ _ E4).
  assert (HM : imr (hw s4) = 31%Z \/ imr (hw s4) = 28%Z).
  { unfold regs in R4. injection R4 as _ -> _ _. destruct HA3 as [(_ & _ & -> & _)|(_ & _ & _ & -> & _)]; auto. }
  destruct (rearm_ok _ _ _ _ I4 ltac:(lia) HL HM HS) as (W5 & s5 & E5 & I5 & A5 & SE5 & G5).
  exists SPI_INTR_CONTINUE, s5. split; [by rewrite (bind_eq _ _ _ _ _ E5)|].
  exists t', (length W2), W5. split; [done|]. split; [done|]. unfold regs in *. split; [congruence|lia].
Qed.

(** ** The wait *)

(** An interrupt comes before the controller runs out of work. *)
Lemma until_irq_ok k : forall t r W s, running_inv t r W (counts t r) s -> armed t r (hw s) ->
  ser (hw s) = sel -> length (txf (hw s)) <= k ->
  exists W' h, until_irq depth slave k (hw s) = Some h /\
    running_inv t r W' (counts t r) (St h (spi s) (pbuf s) (now s)) /\ regs h = regs (hw s) /\
    length W <= length W'.
Proof.
  assert (Wake : forall k h, irq h = true -> until_irq depth slave k h = Some h).
  { intros [|j] h E; simpl; by rewrite E. }
  assert (Idle : forall t r W s, running_inv t r W (counts t r) s -> armed t r (hw s) ->
    irq (hw s) = true \/ txf (hw s) <> []).
  { intros t r W s (E & Ff & ES) HA. pose proof (tx_length _ _ _ _ Ff) as LT. pose proof (rx_length _ _ _ _ Ff) as LR.
    pose proof (ff_count _ _ _ _ Ff). pose proof (ex_stored _ _ _ E).
    unfold irq, raw_interrupts. rewrite (ex_errs _ _ _ E).
    destruct HA as [(A1 & A2 & A3 & A4)|(A1 & A2 & A3 & A4 & A5)].
    - left. rewrite A3, A4, LT, (proj2 (Z.leb_le _ (Z.of_nat L))) by lia.
      destruct (_ <=? _)%Z; done.
    - destruct (txf (hw s)); [left|by right]. simpl in LT.
      rewrite A4, A5, LR, (proj2 (Z.leb_le (_ - 1 + 1) _)) by lia. destruct (_ <=? txftlr _)%Z; done. }
  induction k as [|k IH]; intros t r W s I HA HS Hk.
  - destruct (Idle _ _ _ _ I HA) as [HI|HI]; [|destruct (txf (hw s)); [done|simpl in Hk; lia]].
    exists W, (hw s). rewrite (Wake 0 _ HI). destruct s. done.
  - destruct (irq (hw s)) eqn:HI.
    { exists W, (hw s). rewrite (Wake (S k) _ HI). destruct s. done. }
    destruct (Idle _ _ _ _ I HA) as [HI'|HT]; [congruence|].
    destruct (shift_inv _ _ _ _ _ I) as (W1 & I1 & R1 & G1 & P1).
    assert (G : length W < length W1) by (apply P1; [lia|done]).
    destruct (IH _ _ _ _ I1) as (W2 & h & E2 & I2 & R2 & G2).
    + by apply (armed_regs _ _ (hw s)).
    + simpl. unfold regs in R1. congruence.
    + simpl. destruct I1 as (_ & F1 & _), I as (_ & F0 & _). pose proof (tx_length _ _ _ _ F1).
      pose proof (tx_length _ _ _ _ F0). simpl in *. pose proof (ff_count _ _ _ _ F1). lia.
    + exists W2, h. simpl. rewrite HI. simpl in *. split; [done|]. split; [done|]. split; [congruence|lia].
Qed.

(** What a wait ends in: the transfer, or a reason for not completing it. *)
Definition ended (e : errno) (s : st) : Prop :=
  (e = EOK /\ (exists W, stopped X W s)) \/
  (e = EIO /\ (exists n, glitch n <> 0%Z) /\ (exists r W, stopped r W s)) \/
  (e = ETIMEDOUT /\ (exists n, expires n = true) /\ (exists t r W D, running_inv t r W D s)).

Lemma spi_wait_ok fuel : forall t r W s, running_inv t r W (counts t r) s -> armed t r (hw s) ->
  ser (hw s) = sel -> 2 * X <= fuel + r + length W ->
  exists e s', dw_wait depth version slave ticks glitch expires fuel s = Some (e, s') /\ ended e s'.
Proof.
  induction fuel as [|fuel IH]; intros t r W s I HA HS Hf.
  { exfalso. destruct I as (E & Ff & _). pose proof (ex_stored _ _ _ E). pose proof (ff_count _ _ _ _ Ff).
    destruct L_ok. destruct HA as [HA|HA]; lia. }
  destruct (tick_inv (S (ticks (now s))) _ _ _ _ _ I) as (W1 & I1 & R1 & G1 & P1).
  change (dw_wait depth version slave ticks glitch expires (S fuel) s) with
    (match (if expires (now s) then None else
            until_irq depth slave (length (txf (tick (S (ticks (now s))) (hw s)))) (tick (S (ticks (now s))) (hw s))) with
     | None => Some (ETIMEDOUT, St (tick (S (ticks (now s))) (hw s)) (spi s) (pbuf s) (S (now s)))
     | Some h => (r ← dw_process_interrupts depth version slave ticks glitch;
         match r with
         | SPI_INTR_CONTINUE => dw_wait depth version slave ticks glitch expires fuel
         | SPI_INTR_DONE => mret EOK
         | SPI_INTR_ERR => mret EIO
         end) (St h (spi s) (pbuf s) (S (now s)))
     end).
  revert I1 R1 P1. generalize (tick (S (ticks (now s))) (hw s)). intros h1 I1 R1 P1.
  destruct (expires (now s)) eqn:EX.
  { eexists ETIMEDOUT, _. split; [reflexivity|]. right; right. split; [done|]. split; [eauto|].
    exists t, r, W1, (counts t r). apply (running_now _ _ _ _ _ _ I1). }
  destruct (until_irq_ok (length (txf h1)) _ _ _ _ I1) as (W2 & h2 & E2 & I2 & R2 & G2); [| |done|].
  { by apply (armed_regs _ _ (hw s)). }
  { simpl. unfold regs in R1. congruence. }
  simpl in E2, R2. rewrite E2. apply (running_now _ _ _ _ _ (S (now s))) in I2. simpl in I2.
  assert (HA2 : armed t r h2) by (apply (armed_regs _ _ (hw s)); [congruence|done]).
  destruct (process_ok _ _ _ _ I2 HA2) as (res & s3 & E3 & P3). rewrite (bind_eq _ _ _ _ _ E3).
  destruct res.
  - eexists EOK, s3. split; [reflexivity|]. left. done.
  - destruct P3 as (t' & r' & W3 & I3 & A3 & S3 & G3). apply (IH _ _ _ _ I3 A3).
    + simpl in S3. unfold regs in *. congruence.
    + assert (length W3 >= r') by (destruct I3 as (E' & _); pose proof (ex_stored _ _ _ E'); lia).
      destruct (decide (txf (hw s) = [])) as [ET|ET].
      * destruct I as (E & Ff & _). pose proof (tx_length _ _ _ _ Ff) as LT. rewrite ET in LT. simpl in LT.
        pose proof (ex_stored _ _ _ E). destruct L_ok. destruct HA as [HA|HA]; lia.
      * pose proof (P1 ltac:(lia) ltac:(lia) ET). destruct I as (E & _). pose proof (ex_stored _ _ _ E). lia.
  - eexists EIO, s3. split; [reflexivity|]. right; left. destruct P3 as (P4 & P5). eauto.
Qed.

(** ** Start and end of a transfer *)

Lemma busy_running h g :
  has (Z.lor (status depth h) (Z.land g (Z.lor DW_SPI_SR_TX_ERR DW_SPI_SR_DCOL))) DW_SPI_SR_BUSY = true ->
  running h = true.
Proof.
  unfold has. rewrite Z.land_lor_distr_l, <- (Z.land_assoc g).
  change (Z.land (Z.lor DW_SPI_SR_TX_ERR DW_SPI_SR_DCOL) DW_SPI_SR_BUSY) with 0%Z.
  rewrite Z.land_0_r, Z.lor_0_r. unfold status. destruct (running h); [done|].
  simpl. repeat case_match; done.
Qed.

(** The slave is selected, or is still so from a transfer before. *)
Lemma select_ok slv t r W s : sel = Z.shiftl 1 slv -> running_inv t r W (counts t r) s -> armed t r (hw s) ->
  exists z W' s', dw_spi_select_slave depth version slave ticks glitch slv s = Some (z, s') /\
    running_inv t r W' (counts t r) s' /\ armed t r (hw s') /\ ser (hw s') = sel.
Proof.
  intros Hsel I HA. destruct (read_inv _ _ _ _ _ SR (fun h => eq_refl) I) as (W1 & s1 & v & E1 & I1 & R1 & G1 & Hv).
  rewrite decide_True in Hv by done. simpl in Hv.
  assert (HA1 : armed t r (hw s1)) by (by apply (armed_regs _ _ (hw s))).
  assert (EB : dw_spi_busy depth version slave ticks glitch s = Some (has v DW_SPI_SR_BUSY, s1)).
  { unfold dw_spi_busy. by rewrite (bind_eq _ _ _ _ _ E1). }
  unfold dw_spi_select_slave. rewrite (bind_eq _ _ _ _ _ EB). destruct (has v DW_SPI_SR_BUSY) eqn:HB.
  - rewrite Hv in HB. apply busy_running in HB. exists (-1)%Z, W1, s1. split; [done|]. split; [done|].
    split; [done|]. destruct I1 as (_ & Ff & _). destruct (ff_ser _ _ _ _ Ff) as [E|[E _]]; [done|].
    unfold running in HB. rewrite E in HB. by rewrite andb_false_r in HB.
  - destruct (access _ _ _ _ _ I1) as (W2 & h & Eh & I2 & R2 & G2).
    assert (EW : dw_write32 SER (Z.shiftl 1 slv) s1 = Some ((), St (store SER sel h) (spi s1) (pbuf s1) (S (now s1)))).
    { unfold DwSpi.dw_write32. by rewrite Eh, <- Hsel, u32_id by lia. }
    eexists 0%Z, W2, _. rewrite (bind_eq _ _ _ _ _ EW). split; [reflexivity|].
    destruct I2 as ([] & [] & ED). assert (A2 : armed t r h) by (by apply (armed_regs _ _ (hw s1))).
    destruct h. simpl in *. split; [|done]. split; [by constructor|]. split; [|done]. constructor; simpl; auto.
Qed.

Lemma start_ok slv s : sel = Z.shiftl 1 slv -> running_inv 0 0 [] (counts 0 0) s ->
  exists W' s', start slv s = Some ((), s') /\ running_inv L 0 W' (counts L 0) s' /\
    armed L 0 (hw s') /\ ser (hw s') = sel.
Proof.
  intros Hsel I. destruct L_ok as (L1 & L2 & L3 & L4 & L5).
  assert (ES : spi s = counts 0 0) by apply I. unfold DwSpi.start. rewrite gets_bind, ES. simpl.
  rewrite half_F. replace (Z.min (Z.of_nat X) (Z.of_nat (F / 2))) with (Z.of_nat L) by (unfold L; lia).
  destruct (write_fifo _ _ _ _ L _ I) as (W1 & s1 & E1 & I1 & R1 & _); [lia|lia|].
  rewrite (seq_eq _ _ _ _ _ _ E1), gets_bind. simpl in I1. assert (ES1 : spi s1 = counts L 0) by apply I1.
  rewrite ES1. simpl.
  assert (PI : plain IMR) by (unfold plain; auto). assert (PR : plain RXFTLR) by (unfold plain; auto).
  assert (PT : plain TXFTLR) by (unfold plain; auto).
  assert (Arm : exists W' s', (if (Z.of_nat L <? Z.of_nat X)%Z then
     dw_write32 IMR DW_SPI_INT_MASK;; dw_write32 RXFTLR (Z.of_nat L - 1);; dw_write32 TXFTLR (Z.of_nat L)
   else dw_write32 IMR (Z.lor DW_SPI_INT_RXUI (Z.lor DW_SPI_INT_RXOI DW_SPI_INT_RXFI));;
        dw_write32 RXFTLR (Z.of_nat L - 1)) s1 = Some ((), s') /\
     running_inv L 0 W' (counts L 0) s' /\ armed L 0 (hw s')).
  { destruct (Z.of_nat L <? Z.of_nat X)%Z eqn:EL; zbool.
    - destruct (write_plain _ _ _ _ _ IMR 31 PI ltac:(lia) I1) as (W2 & s2 & E2 & I2 & _ & R2).
      destruct (write_plain _ _ _ _ _ RXFTLR (Z.of_nat L - 1) PR ltac:(lia) I2) as (W3 & s3 & E3 & I3 & _ & R3).
      destruct (write_plain _ _ _ _ _ TXFTLR (Z.of_nat L) PT ltac:(lia) I3) as (W4 & s4 & E4 & I4 & _ & R4).
      exists W4, s4. rewrite (bind_eq _ _ _ _ _ E2), (bind_eq _ _ _ _ _ E3). split; [done|]. split; [done|].
      simpl in R2, R3, R4. rewrite (proj2 (Z.ltb_lt _ (Z.of_nat depth))) in R3 by lia.
      rewrite (proj2 (Z.ltb_lt _ (Z.of_nat depth))) in R4 by lia.
      destruct (hw s1), (hw s2), (hw s3). unfold regs in *. simpl in *. injection R2 as ? ? ? ?.
      injection R3 as ? ? ? ?. injection R4 as ? ? ? ?. left. split; [lia|]. split; [lia|]. split; congruence.
    - destruct (write_plain _ _ _ _ _ IMR 28 PI ltac:(lia) I1) as (W2 & s2 & E2 & I2 & _ & R2).
      destruct (write_plain _ _ _ _ _ RXFTLR (Z.of_nat L - 1) PR ltac:(lia) I2) as (W3 & s3 & E3 & I3 & _ & R3).
      exists W3, s3. change (Z.lor _ _) with 28%Z. rewrite (bind_eq _ _ _ _ _ E2). split; [done|]. split; [done|].
      simpl in R2, R3. rewrite (proj2 (Z.ltb_lt _ (Z.of_nat depth))) in R3 by lia.
      destruct (hw s1), (hw s2). unfold regs in *. simpl in *. injection R2 as ? ? ? ?.
      injection R3 as ? ? ? ?. right. split; [lia|]. split; [lia|]. split; [lia|]. split; [congruence|].
      rewrite Nat.sub_0_r. replace X with L by lia. congruence. }
  destruct Arm as (W2 & s2 & E2 & I2 & A2). rewrite (bind_eq _ _ _ _ _ E2).
  destruct (select_ok slv _ _ _ _ Hsel I2 A2) as (z & W3 & s3 & E3 & I3 & A3 & S3).
  exists W3, s3. rewrite (bind_eq _ _ _ _ _ E3). done.
Qed.

(** What a transfer leaves, whatever happened on the way. *)
Definition result (e : errno) (s : st) : Prop := exists r W, stopped r W s /\
  (e = EOK -> r = X) /\
  (e = EOK \/ e = EIO /\ (exists n, glitch n <> 0%Z) \/ e = ETIMEDOUT /\ (exists n, expires n = true)).

Lemma finish e s : ended e s ->
  exists s', dw_spi_enable depth slave ticks DW_SPI_DISABLE s = Some ((), s') /\ result e s'.
Proof.
  intros [(-> & W & HS)|[(-> & HG & r & W & HS)|(-> & HX & t & r & W & D & I)]].
  - destruct (write_off _ _ _ SSIENR 0 (or_introl (conj eq_refl eq_refl)) HS) as (s' & E & HS').
    exists s'. split; [done|]. exists X, W. auto.
  - destruct (write_off _ _ _ SSIENR 0 (or_introl (conj eq_refl eq_refl)) HS) as (s' & E & HS').
    exists s'. split; [done|]. exists r, W. split; [done|]. split; [done|auto].
  - destruct (disable _ _ _ _ _ I) as (W' & s' & E & HS & _). exists s'. split; [done|].
    exists r, W'. split; [done|]. split; [done|auto].
Qed.

Lemma run_ok slv fuel s : sel = Z.shiftl 1 slv -> 2 * X <= fuel -> running_inv 0 0 [] (counts 0 0) s ->
  exists e s', (start slv;; e ← dw_wait depth version slave ticks glitch expires fuel;
    dw_spi_enable depth slave ticks DW_SPI_DISABLE;; mret e) s = Some (e, s') /\ result e s'.
Proof.
  intros Hsel Hf I. destruct (start_ok slv s Hsel I) as (W1 & s1 & E1 & I1 & A1 & S1).
  rewrite (bind_eq _ _ _ _ _ E1).
  destruct (spi_wait_ok fuel _ _ _ _ I1 A1 S1 ltac:(lia)) as (e & s2 & E2 & P2). rewrite (bind_eq _ _ _ _ _ E2).
  destruct (finish _ _ P2) as (s3 & E3 & P3). exists e, s3. rewrite (bind_eq _ _ _ _ _ E3). done.
Qed.
End transfer.

(** ** The whole transfer *)
Section device.
Context {io : IoSpi}.
Context (depth : nat) (version : Z) (slave : list (Z * Z * Z) -> Z -> Z -> Z).
Context (ticks : nat -> nat) (glitch : nat -> Z) (expires : nat -> bool).

(** Words of 8, 16 or 32 bits in the buffer. *)
Definition word_scale (nbits : Z) : Z := if (nbits <=? 8)%Z then 0 else if (nbits <=? 16)%Z then 1 else 2.

Lemma dscales_spec nbits : (3 < nbits <= 32)%Z ->
  default 0%Z (dscales !! Z.to_nat ((nbits + DW_NBIT_ROUNDER) / 8)) = word_scale nbits.
Proof.
  intros Hn. unfold word_scale, DW_NBIT_ROUNDER.
  assert (H : ((nbits + 7) / 8 = 1 /\ nbits <= 8 \/ (nbits + 7) / 8 = 2 /\ 8 < nbits <= 16 \/
    ((nbits + 7) / 8 = 3 \/ (nbits + 7) / 8 = 4) /\ 16 < nbits)%Z) by (Z.to_euclidean_division_equations; lia).
  destruct H as [[-> H]|[[-> H]|[[-> | ->] H]]]; simpl; repeat case_match; zbool; first [lia | done].
Qed.

Lemma word_scale_ok nbits : (0 <= word_scale nbits <= 2)%Z.
Proof. unfold word_scale. repeat case_match; lia. Qed.

(** The controller disabled, as every transfer and dw_init leave it. *)
Definition off (s : st) : Prop := ssienr (hw s) = 0%Z.

Lemma off_write s g v : off s ->
  dw_write32 depth slave ticks g v s = Some ((), St (ssi_write depth g (u32 v) (hw s)) (spi s) (pbuf s) (S (now s))).
Proof. intros H. unfold dw_write32. by rewrite tick_off. Qed.

Lemma off_read s g : off s ->
  dw_read32 depth version slave ticks glitch g s =
    Some (Z.lor (ssi_read depth version g (hw s)).1
            (if decide (g = SR) then Z.land (glitch (now s)) (Z.lor DW_SPI_SR_TX_ERR DW_SPI_SR_DCOL) else 0%Z),
          St (ssi_read depth version g (hw s)).2 (spi s) (pbuf s) (S (now s))).
Proof. intros H. unfold dw_read32. rewrite tick_off by done. by destruct (ssi_read _ _ _ _). Qed.

Lemma off_busy s : off s ->
  dw_spi_busy depth version slave ticks glitch s = Some (false, St (hw s) (spi s) (pbuf s) (S (now s))).
Proof.
  intros H. unfold dw_spi_busy. rewrite (bind_eq _ _ _ _ _ (off_read s SR H)). rewrite decide_True by done.
  simpl. destruct (has _ _) eqn:E; [|done]. apply busy_running in E. unfold running, enabled in E. by rewrite H in E.
Qed.

Lemma off_store g v h : ssienr h = 0%Z -> g = CTRLR0 \/ g = CTRLR1 \/ g = BAUDR ->
  ssi_write depth g v h = store g v h.
Proof. intros H [->|[->| ->]]; unfold ssi_write, enabled; by rewrite H. Qed.

(** A transfer that dw_prepare_for_transfer accepts. *)
Record accepted (cfg : spi_cfg) (tnbytes rnbytes : Z) (X : nat) : Prop := {
  ac_bits : (3 < nbits_of cfg <= 32)%Z;
  ac_bytes : Z.max tnbytes rnbytes = (Z.of_nat X * 2 ^ word_scale (nbits_of cfg))%Z;
  ac_range : (0 < Z.max tnbytes rnbytes < 4294967296)%Z;
  ac_clock : clock_rate cfg <> 0%Z
}.

Lemma accepted_words cfg tn rn X : accepted cfg tn rn X -> 0 < X /\ (Z.of_nat X < 4294967296)%Z /\
  Z.shiftr (Z.max tn rn) (word_scale (nbits_of cfg)) = Z.of_nat X.
Proof.
  intros [A1 A2 A3 A4]. pose proof (word_scale_ok (nbits_of cfg)).
  assert (0 < 2 ^ word_scale (nbits_of cfg))%Z by (apply Z.pow_pos_nonneg; lia).
  rewrite A2 in *. rewrite Z.shiftr_div_pow2, Z.div_mul by lia. nia.
Qed.

(** The controller set up and still disabled, nothing exchanged yet. *)
Record prepared (input_clk : Z) (cfg : spi_cfg) (X : nat) (s s' : st) : Prop := {
  pr_off : off s';
  pr_wire : wire (hw s') = wire (hw s);
  pr_ser : ser (hw s') = ser (hw s);
  pr_errs : errs (hw s') = errs (hw s);
  pr_buf : pbuf s' = pbuf s;
  pr_spi : exists d, spi s' = set_counts (Z.of_nat X) 0 0 d /\ dscale d = word_scale (nbits_of cfg) /\
    fifo_len d = fifo_len (spi s);
  pr_baudr : baudr (hw s') = u16 (u32 (input_clk / clock_rate cfg))
}.

Lemma prepare_ok input_clk cfg tn rn X s : off s -> accepted cfg tn rn X ->
  exists s', dw_prepare_for_transfer depth version slave ticks glitch input_clk cfg tn rn s = Some (EOK, s') /\
    prepared input_clk cfg X s s'.
Proof.
  intros H A. destruct (accepted_words _ _ _ _ A) as (X1 & X2 & X3). destruct A as [A1 A2 A3 A4].
  unfold dw_prepare_for_transfer, SPI_MIN_WORD_WIDTH, SPI_MAX_WORD_WIDTH.
  rewrite (proj2 (Z.leb_gt (nbits_of cfg) 3)), (proj2 (Z.ltb_ge 32 (nbits_of cfg))) by lia. cbn [orb].
  cbv zeta. rewrite dscales_spec, X3 by lia. unfold dw_spi_enable, DW_SPI_DISABLE.
  rewrite (bind_eq _ _ _ _ _ (off_write s SSIENR 0 H)).
  set (h1 := store SSIENR 0 (with_fifos (errs (hw s)) [] [] (wire (hw s)) (hw s))).
  change (ssi_write depth SSIENR (u32 0) (hw s)) with h1. rewrite upd_bind.
  rewrite (proj2 (Z.leb_gt (Z.of_nat X) 0)), Z.shiftl_mul_pow2, <- A2 by (pose proof (word_scale_ok (nbits_of cfg)); lia).
  rewrite u32_id, Z.eqb_refl by lia. cbn [orb negb]. rewrite (proj2 (Z.eqb_neq (clock_rate cfg) 0)) by done.
  cbn [hw spi pbuf now].
  assert (O : forall d b n h, ssienr h = 0%Z -> off (St h d b n)) by done.
  assert (H1 : ssienr h1 = 0%Z) by (unfold h1; by destruct (hw s)).
  erewrite bind_eq by (apply off_read, O, H1). rewrite gets_bind. cbn [hw spi pbuf now].
  set (h2 := (ssi_read depth version VERSION h1).2). change h2 with h1.
  set (v := u32 (input_clk / clock_rate cfg)).
  erewrite bind_eq by (apply off_write, O, H1). fold v. cbn [hw spi pbuf now].
  rewrite (off_store BAUDR v h1) by auto. set (h3 := store BAUDR v h1). assert (H3 : ssienr h3 = 0%Z) by (unfold h3, h1; by destruct (hw s)).
  erewrite bind_eq by (apply off_write, O, H3). cbn [hw spi pbuf now].
  set (c := u32 (ctrlr0_of _ _ _ _ _)).
  rewrite (off_store CTRLR0 c h3) by auto. set (h4 := store CTRLR0 c h3).
  assert (H4 : ssienr h4 = 0%Z) by (unfold h4, h3, h1; by destruct (hw s)).
  erewrite bind_eq by (apply off_write, O, H4). cbn [hw spi pbuf now].
  rewrite (off_store CTRLR1 _ h4) by auto. rewrite upd_bind. eexists. split; [reflexivity|].
  unfold h4, h3, h1, c, v. destruct s as [h d b n]. destruct h, d. simpl in *.
  constructor; simpl; try done. eexists. split; [reflexivity|done].
Qed.

(** Whatever happens while it runs, an accepted transfer ends. *)
Lemma xfer_ok fuel input_clk cfg slv tn rn X F s :
  off s -> accepted cfg tn rn X -> (0 <= slv < 32)%Z ->
  X <= length (pbuf s) -> Forall (fun w => (0 <= w < 2 ^ (8 * 2 ^ word_scale (nbits_of cfg)))%Z) (pbuf s) ->
  ser (hw s) = 0%Z \/ ser (hw s) = Z.shiftl 1 slv -> errs (hw s) = 0%Z ->
  fifo_len (spi s) = Z.of_nat F -> 2 <= F <= depth -> 2 * X <= fuel ->
  exists e s', dw_xfer depth version slave ticks glitch expires fuel input_clk cfg slv tn rn s = Some (e, s') /\
    result slave glitch expires (pbuf s) (word_scale (nbits_of cfg)) (wire (hw s)) (Z.shiftl 1 slv) X e s'.
Proof.
  intros H A Hslv HX HB HS HE HF HFd Hfuel. destruct (accepted_words _ _ _ _ A) as (X1 & X2 & X3).
  unfold dw_xfer. rewrite (bind_eq _ _ _ _ _ (off_busy s H)).
  set (s1 := St (hw s) (spi s) (pbuf s) (S (now s))). assert (H1 : off s1) by exact H.
  destruct (prepare_ok input_clk _ _ _ _ _ H1 A) as (s2 & E2 & P2). rewrite (bind_eq _ _ _ _ _ E2).
  rewrite decide_False by tauto. destruct P2 as [P1 P2 P3 P4 P5 (d & P6 & P7 & P8) _].
  erewrite bind_eq by (apply off_write, P1). unfold dw_device_reset, dw_spi_enable.
  assert (O : forall d b n h, ssienr h = 0%Z -> off (St h d b n)) by done.
  set (h3 := ssi_write depth DMACR (u32 0) (hw s2)).
  assert (H3 : ssienr h3 = 0%Z) by (unfold h3; revert P1; unfold off; by destruct (hw s2)).
  set (s4 := St (store SSIENR 1 (store SSIENR 0 (with_fifos (errs h3) [] [] (wire h3) h3))) (spi s2) (pbuf s2)
               (S (S (S (now s2))))).
  assert (E4 : (dw_write32 depth slave ticks SSIENR DW_SPI_DISABLE;; dw_write32 depth slave ticks SSIENR DW_SPI_ENABLE)
    (St h3 (spi s2) (pbuf s2) (S (now s2))) = Some ((), s4)).
  { erewrite bind_eq by (apply off_write, O, H3). rewrite off_write; [done|]. unfold off. simpl. by destruct h3. }
  rewrite (bind_eq _ _ _ _ _ E4).
  assert (I : running_inv depth slave (pbuf s) (word_scale (nbits_of cfg)) (wire (hw s)) (Z.shiftl 1 slv) X
    0 0 [] (counts X d 0 0) s4).
  { unfold s4, h3 in *. destruct s2 as [h2 d2 b2 n2], s as [h db b n]. destruct h2, h. unfold s1 in *. simpl in *.
    subst. split; [|split; [|done]].
    - constructor; simpl; try done; [by rewrite app_nil_r|lia].
    - constructor; simpl; try done; lia || tauto. }
  assert (Sel : (0 < Z.shiftl 1 slv < 4294967296)%Z).
  { rewrite Z.shiftl_1_l. split; [apply Z.pow_pos_nonneg; lia|]. change 4294967296%Z with (2 ^ 32)%Z.
    apply Z.pow_lt_mono_r; lia. }
  destruct (run_ok depth version slave ticks glitch expires (pbuf s) (word_scale (nbits_of cfg)) (wire (hw s))
    (Z.shiftl 1 slv) X (word_scale_ok _) HB Sel HX d F P7 ltac:(rewrite P8; exact HF) HFd X2 X1 slv fuel s4
    eq_refl Hfuel I) as (e & s5 & E5 & R5).
  exists e, s5. done.
Qed.

(** ** The theorems *)

(** A transfer to slave [slv] of [X] words out of the buffer, on a controller
    as the last transfer left it. *)
Record request (cfg : spi_cfg) (tn rn slv : Z) (X fuel : nat) (s : st) : Prop := {
  rq_off : off s;
  rq_accepted : accepted cfg tn rn X;
  rq_slave : (0 <= slv < 32)%Z;
  rq_buffer : X <= length (pbuf s);
  rq_words : Forall (fun w => (0 <= w < 2 ^ (8 * 2 ^ word_scale (nbits_of cfg)))%Z) (pbuf s);
  rq_ser : ser (hw s) = 0%Z \/ ser (hw s) = Z.shiftl 1 slv;
  rq_errs : errs (hw s) = 0%Z;
  rq_fifo : exists F, fifo_len (spi s) = Z.of_nat F /\ 2 <= F <= depth;
  rq_fuel : 2 * X <= fuel
}.

(** C6 (an SPI transfer exchanges the buffer) On a controller as a finished
    transfer left it, that has no slave selected yet or the one of this
    transfer ([rq_ser]), whatever the timing of the controller, without
    reported errors and expired waits dw_xfer succeeds: the slave got the
    first words of the buffer, each once and in order, and they were replaced
    by its answers; the rest of the buffer is untouched.  No transfer deselects
    its slave, so the condition fails after a transfer to another one, and
    then the words go to that one ([wrong_slave]). *)
Theorem dw_xfer_exchanges fuel input_clk cfg slv tn rn X s :
  request cfg tn rn slv X fuel s ->
  (forall n, glitch n = 0%Z) -> (forall n, expires n = false) ->
  exists W s', dw_xfer depth version slave ticks glitch expires fuel input_clk cfg slv tn rn s = Some (EOK, s') /\
    wire (hw s') = wire (hw s) ++ W /\ sent <$> W = take X (pbuf s) /\
    Forall (fun e => to e = Z.shiftl 1 slv) W /\ answers slave (wire (hw s)) W /\
    pbuf s' = (cast (word_scale (nbits_of cfg)) <$> (got <$> W)) ++ drop X (pbuf s) /\ off s'.
Proof.
  intros [Q1 Q2 Q3 Q4 Q5 Q6 Q7 (F & Q8 & Q9) Q10] HG HX.
  destruct (xfer_ok fuel input_clk cfg slv tn rn X F s) as (e & s' & E & r & W & (EX & EO) & Hr & He); try done.
  destruct He as [->|[(_ & n & Hn)|(_ & n & Hn)]]; [|by rewrite HG in Hn|by rewrite HX in Hn].
  rewrite (Hr eq_refl) in *. destruct EX as [X1 X2 X3 X4 X5 X6 X7]. assert (LW : length W = X) by lia.
  exists W, s'. split; [done|]. split; [done|]. split; [by rewrite <- LW|]. split; [done|]. split; [done|].
  split; [|done]. rewrite X6. f_equal. f_equal. rewrite take_ge; [done|]. rewrite length_fmap. lia.
Qed.

(** C13 (an SPI transfer ends and stays in its buffer) With arbitrary errors
    and expired waits dw_xfer returns: no FIFO has overflowed or underrun, the
    words exchanged are a prefix of the buffer sent in order to the slave, a
    prefix of the answers is stored and nothing else in the buffer changed;
    success means all of it, and any other result has its cause.  A request
    that cannot be carried out exchanges nothing. *)
Theorem dw_xfer_safe fuel input_clk cfg slv tn rn s :
  (forall X, request cfg tn rn slv X fuel s ->
    exists e s' r W, dw_xfer depth version slave ticks glitch expires fuel input_clk cfg slv tn rn s = Some (e, s') /\
      exchanged slave (pbuf s) (word_scale (nbits_of cfg)) (wire (hw s)) (Z.shiftl 1 slv) X r W s' /\ off s' /\
      (e = EOK -> r = X) /\
      (e = EOK \/ e = EIO /\ (exists n, glitch n <> 0%Z) \/ e = ETIMEDOUT /\ (exists n, expires n = true))) /\
  (off s -> (0 <= Z.max tn rn < 4294967296)%Z -> (forall X, ~ accepted cfg tn rn X) ->
    exists s', dw_xfer depth version slave ticks glitch expires fuel input_clk cfg slv tn rn s = Some (EINVAL, s') /\
      wire (hw s') = wire (hw s) /\ pbuf s' = pbuf s /\ off s').
Proof.
  split.
  - intros X [Q1 Q2 Q3 Q4 Q5 Q6 Q7 (F & Q8 & Q9) Q10].
    destruct (xfer_ok fuel input_clk cfg slv tn rn X F s) as (e & s' & E & r & W & (EX & EO) & Hr & He); try done.
    exists e, s', r, W. done.
  - intros H HR HN. unfold dw_xfer. rewrite (bind_eq _ _ _ _ _ (off_busy s H)).
    set (s1 := St (hw s) (spi s) (pbuf s) (S (now s))). assert (H1 : off s1) by exact H.
    assert (Ref : exists s', dw_prepare_for_transfer depth version slave ticks glitch input_clk cfg tn rn s1 =
      Some (EINVAL, s') /\ wire (hw s') = wire (hw s) /\ pbuf s' = pbuf s /\ off s').
    2: { destruct Ref as (s' & E & R). exists s'. rewrite (bind_eq _ _ _ _ _ E), decide_True by done. done. }
    unfold dw_prepare_for_transfer, SPI_MIN_WORD_WIDTH, SPI_MAX_WORD_WIDTH.
    destruct (_ || _) eqn:EB; [by eexists|]. zbool. cbv zeta. rewrite dscales_spec by lia.
    unfold dw_spi_enable, DW_SPI_DISABLE. rewrite (bind_eq _ _ _ _ _ (off_write s1 SSIENR 0 H1)), upd_bind.
    set (x := Z.shiftr (Z.max tn rn) (word_scale (nbits_of cfg))).
    pose proof (word_scale_ok (nbits_of cfg)).
    assert (P : (0 < 2 ^ word_scale (nbits_of cfg))%Z) by (apply Z.pow_pos_nonneg; lia).
    assert (Hx : x = (Z.max tn rn / 2 ^ word_scale (nbits_of cfg))%Z) by (unfold x; rewrite Z.shiftr_div_pow2; lia).
    pose proof (Z.mul_div_le (Z.max tn rn) _ P) as HM.
    destruct ((x <=? 0)%Z || _) eqn:EX.
    { eexists. split; [reflexivity|]. unfold s1, off. simpl. by destruct (hw s). }
    zbool. destruct (clock_rate cfg =? 0)%Z eqn:EC; zbool.
    { eexists. split; [reflexivity|]. unfold s1, off. simpl. by destruct (hw s). }
    exfalso. apply (HN (Z.to_nat x)). rewrite Z.shiftl_mul_pow2, u32_id in * by lia.
    constructor; [lia|rewrite Z2Nat.id; lia|lia|done].
Qed.

(** The SPI clock. For a requested clock that the divider can reach
    dw_cfg and dw_prepare_for_transfer agree on the smallest divider, at
    least 2, that does not exceed the request, and it is in the register. *)
Theorem spi_clock cs input_clk dev dev' tn rn X s :
  let req := clock_rate (cfg dev) in
  let div := Z.max 2 ((input_clk + req - 1) / req) in
  (2 <= input_clk < 2147483648)%Z -> (0 < req < 2147483648)%Z ->
  (div * (div + 1) <= input_clk)%Z -> (div <= 65535)%Z ->
  current_clkrate dev <> (if (input_clk / 2 <? req)%Z then input_clk else req) ->
  dw_cfg cs input_clk dev = (EOK, dev') ->
  off s -> accepted (cfg dev') tn rn X ->
  (input_clk / div <= req)%Z /\ (2 < div -> req < input_clk / (div - 1) + 1)%Z /\
  clock_rate (cfg dev') = (input_clk / div)%Z /\
  exists s', dw_prepare_for_transfer depth version slave ticks glitch input_clk (cfg dev') tn rn s = Some (EOK, s') /\
    baudr (hw s') = div.
Proof.
  intros req div Hi Hr Hd Hdm Hcur HC HO HA.
  assert (Hc : (req * ((input_clk + req - 1) / req) <= input_clk + req - 1 < req * ((input_clk + req - 1) / req) + req)%Z).
  { pose proof (Z.div_mod (input_clk + req - 1) req ltac:(lia)). pose proof (Z.mod_pos_bound (input_clk + req - 1) req). lia. }
  assert (Hq : (div * (input_clk / div) <= input_clk < div * (input_clk / div) + div)%Z).
  { pose proof (Z.div_mod input_clk div ltac:(lia)). pose proof (Z.mod_pos_bound input_clk div). lia. }
  assert (Rate : clock_rate (cfg dev') = (input_clk / div)%Z /\ mode (cfg dev') = mode (cfg dev)).
  { unfold dw_cfg in HC. destruct (cs <=? devno dev)%Z; [done|]. destruct (_ || _); [done|].
    destruct (clock_rate (cfg dev) =? 0)%Z; [done|]. fold req in HC.
    rewrite (u32_id input_clk) in HC by lia.
    destruct (negb _) eqn:EN; zbool; [|done]. injection HC as <-. simpl. split; [|done].
    unfold DW_SCK_DIV_MAX, DW_SCK_DIV_MIN. destruct (input_clk / 2 <? req)%Z eqn:E2; zbool.
    - assert (E1 : ((input_clk + input_clk - 1) / input_clk = 1)%Z)
        by (symmetry; apply (Z.div_unique _ _ 1 (input_clk - 1)); lia).
      rewrite E1, (u32_id 1) by lia. clear E1.
      assert (ED : div = 2%Z).
      { unfold div. apply Z.max_l. apply Z.lt_succ_r, Z.div_lt_upper_bound; [lia|].
        pose proof (Z.mod_pos_bound input_clk 2). pose proof (Z.div_mod input_clk 2). lia. }
      rewrite ED. apply u32_id. pose proof (Z.div_mod input_clk 2). pose proof (Z.mod_pos_bound input_clk 2).
      change (Z.max (Z.min 1 65535) 2) with 2%Z. lia.
    - rewrite (u32_id ((input_clk + req - 1) / req)) by nia.
      replace (Z.max (Z.min _ 65535) 2) with div by lia. apply u32_id. nia. }
  destruct Rate as [Rate Mode].
  split; [unfold div in *; nia|]. split.
  { intros H2. assert (Hdiv : div = ((input_clk + req - 1) / req)%Z) by lia.
    assert (req * (div - 1) < input_clk)%Z by lia.
    pose proof (Z.div_mod input_clk (div - 1) ltac:(lia)). pose proof (Z.mod_pos_bound input_clk (div - 1)). nia. }
  split; [done|]. destruct (prepare_ok input_clk _ _ _ _ _ HO HA) as (s' & E & P). exists s'. split; [done|].
  rewrite (pr_baudr _ _ _ _ _ P), Rate. replace (input_clk / (input_clk / div))%Z with div.
  - unfold u16. rewrite u32_id, Z.mod_small by lia. done.
  - apply (Z.div_unique _ _ _ (input_clk - div * (input_clk / div))); nia.
Qed.

(** ** Initialization *)

(** Thresholds and masks may differ. *)
Definition same (h h' : ssi) : Prop :=
  ssienr h' = ssienr h /\ ser h' = ser h /\ errs h' = errs h /\ wire h' = wire h.

Lemma same_trans h1 h2 h3 : same h1 h2 -> same h2 h3 -> same h1 h3.
Proof. unfold same. intuition congruence. Qed.

Lemma same_write g v h : plain g \/ (g = CTRLR1 /\ ssienr h = 0%Z) -> same h (ssi_write depth g v h).
Proof.
  intros [[->|[->|[->| ->]]]|[-> E]]; simpl; try destruct (_ <? _)%Z; unfold enabled; rewrite ?E;
    destruct h; done.
Qed.

Lemma write_read_txftlr s v : off s -> (0 <= v < 4294967296)%Z ->
  exists s', (dw_write32 depth slave ticks TXFTLR v;; dw_read32 depth version slave ticks glitch TXFTLR) s =
    Some (if (v <? Z.of_nat depth)%Z then v else txftlr (hw s), s') /\ same (hw s) (hw s') /\
    txftlr (hw s') = (if (v <? Z.of_nat depth)%Z then v else txftlr (hw s)).
Proof.
  intros H Hv. rewrite (bind_eq _ _ _ _ _ (off_write s TXFTLR v H)), u32_id by done.
  assert (HS : same (hw s) (ssi_write depth TXFTLR v (hw s))) by (apply same_write; unfold plain; auto).
  assert (HT : txftlr (ssi_write depth TXFTLR v (hw s)) = if (v <? Z.of_nat depth)%Z then v else txftlr (hw s)).
  { simpl. destruct (_ <? _)%Z; [by destruct (hw s)|done]. }
  rewrite off_read by (destruct HS as [E _]; unfold off in *; simpl in *; congruence).
  rewrite decide_False, Z.lor_0_r by done. cbn [ssi_read fst snd hw]. rewrite HT. eexists. split; [reflexivity|]. done.
Qed.

(** dw_spi_get_fifo_len finds the depth. *)
Lemma fifo_len_ok s : off s -> 2 <= depth <= 256 -> (0 <= txftlr (hw s) < Z.of_nat depth)%Z ->
  exists s', dw_spi_get_fifo_len depth version slave ticks glitch s = Some (Z.of_nat depth, s') /\
    same (hw s) (hw s').
Proof.
  intros H HD HT.
  assert (Loop : forall n i s, off s -> i <= depth < i + n -> (0 <= txftlr (hw s) < Z.of_nat i)%Z ->
    exists s', fifo_len_loop depth version slave ticks glitch n (Z.of_nat i) s = Some (Z.of_nat depth, s') /\
      same (hw s) (hw s')).
  { induction n as [|n IH]; intros i z Hz Hi Ht; [lia|].
    destruct (write_read_txftlr z (Z.of_nat i) Hz ltac:(lia)) as (z1 & E1 & S1 & T1). simpl.
    destruct (Z.of_nat i <? Z.of_nat depth)%Z eqn:EI; zbool; rewrite (seq_eq _ _ _ _ _ _ E1).
    - rewrite Z.eqb_refl. simpl. replace (Z.of_nat i + 1)%Z with (Z.of_nat (S i)) by lia.
      destruct (IH (S i) z1) as (z2 & E2 & S2); [destruct S1 as [S1 _]; unfold off in *; congruence|lia|lia|].
      exists z2. split; [done|]. by apply (same_trans _ (hw z1)).
    - rewrite (proj2 (Z.eqb_neq _ _)) by lia. simpl. exists z1. split; [|done]. unfold mret, M_ret. repeat f_equal; lia. }
  unfold dw_spi_get_fifo_len. rewrite (bind_eq _ _ _ _ _ (off_read s TXFTLR H)). simpl. rewrite Z.lor_0_r.
  set (s1 := St (hw s) (spi s) (pbuf s) (S (now s))).
  set (left := if negb (txftlr (hw s) =? 0)%Z then txftlr (hw s) else DW_SPI_MIN_FIFO_LENGTH).
  assert (HL : (txftlr (hw s) <= left <= Z.of_nat depth)%Z /\ (1 <= left)%Z /\ (left = txftlr (hw s) \/ txftlr (hw s) < left)%Z).
  { unfold left, DW_SPI_MIN_FIFO_LENGTH. destruct (txftlr (hw s) =? 0)%Z eqn:E; zbool; simpl; lia. }
  assert (Run : exists s', fifo_len_loop depth version slave ticks glitch
    (Z.to_nat (DW_SPI_MAX_FIFO_LENGTH + 2 - left)) left s1 = Some (Z.of_nat depth, s') /\ same (hw s) (hw s')).
  { unfold DW_SPI_MAX_FIFO_LENGTH. destruct HL as (HL1 & HL2 & [HL3|HL3]).
    - destruct (write_read_txftlr s1 left H ltac:(lia)) as (z1 & E1 & S1 & T1).
      replace (Z.to_nat (256 + 2 - left)) with (S (Z.to_nat (257 - left))) by lia. simpl.
      rewrite (proj2 (Z.ltb_lt left _)) in E1 by lia. rewrite (seq_eq _ _ _ _ _ _ E1), Z.eqb_refl. simpl.
      replace (left + 1)%Z with (Z.of_nat (Z.to_nat (left + 1))) by lia.
      destruct (Loop (Z.to_nat (257 - left)) (Z.to_nat (left + 1)) z1) as (z2 & E2 & S2);
        [destruct S1 as [S1 _]; unfold off in *; simpl in *; congruence|lia|rewrite T1, (proj2 (Z.ltb_lt left _)); lia|].
      exists z2. split; [done|]. by apply (same_trans _ (hw z1)).
    - replace left with (Z.of_nat (Z.to_nat left)) by lia. change (hw s) with (hw s1). apply Loop; [done|lia|].
      simpl. lia. }
  destruct Run as (s2 & E2 & S2). rewrite (bind_eq _ _ _ _ _ E2).
  erewrite bind_eq by (apply off_write; destruct S2 as [S2 _]; unfold off in *; congruence).
  eexists. split; [reflexivity|]. apply (same_trans _ _ _ S2), same_write. unfold plain. auto.
Qed.

(** The state that transfers start from: dw_init_device on the disabled
    controller leaves it disabled, with no slave selected and no pending
    error, and knows the depth of the FIFOs. *)
Lemma init_device_ok input_clk devs devs' attach s :
  off s -> 2 <= depth <= 256 -> (0 <= txftlr (hw s) < Z.of_nat depth)%Z -> (Z.ldiff (errs (hw s)) 14 = 0)%Z ->
  cfg_devices (cs_max (spi s)) input_clk devs = (EOK, devs') ->
  exists s', dw_init_device depth version slave ticks glitch input_clk devs attach s = Some ((attach, devs'), s') /\
    off s' /\ ser (hw s') = 0%Z /\ errs (hw s') = 0%Z /\ fifo_len (spi s') = Z.of_nat depth.
Proof.
  intros H HD HT HE HC. unfold dw_init_device. rewrite gets_bind, HC, decide_False by tauto.
  erewrite bind_eq by (by apply off_read). cbn [ssi_read snd hw spi pbuf now].
  set (h1 := with_fifos _ _ _ _ _). assert (E1 : errs h1 = 0%Z) by (unfold h1; by destruct (hw s)).
  assert (O1 : ssienr h1 = 0%Z) by (unfold h1, off in *; by destruct (hw s)).
  assert (T1 : txftlr h1 = txftlr (hw s)) by (unfold h1; by destruct (hw s)).
  assert (Off : forall h d b n, ssienr h = 0%Z -> off (St h d b n)) by done.
  erewrite bind_eq by (apply off_write, Off, O1). cbn [hw spi pbuf now].
  set (h2 := ssi_write depth IMR _ h1).
  assert (P2 : ssienr h2 = 0%Z /\ errs h2 = 0%Z /\ txftlr h2 = txftlr (hw s)) by (unfold h2; by destruct h1).
  destruct P2 as (O2 & E2 & T2). erewrite bind_eq by (apply off_write, Off, O2). cbn [hw spi pbuf now].
  set (h3 := ssi_write depth CTRLR1 _ h2).
  assert (P3 : ssienr h3 = 0%Z /\ errs h3 = 0%Z /\ txftlr h3 = txftlr (hw s)).
  { unfold h3. rewrite off_store by auto. by destruct h2. }
  destruct P3 as (O3 & E3 & T3). unfold dw_spi_deselect_slave.
  set (s3 := St h3 _ _ _).
  assert (ED : exists s4, (busy ← dw_spi_busy depth version slave ticks glitch;
      if (busy : bool) then mret (-1)%Z else dw_write32 depth slave ticks SER 0;; mret 0%Z) s3 = Some (0%Z, s4) /\
    ssienr (hw s4) = 0%Z /\ errs (hw s4) = 0%Z /\ txftlr (hw s4) = txftlr (hw s) /\ ser (hw s4) = 0%Z).
  { rewrite (bind_eq _ _ _ _ _ (off_busy s3 O3)). cbn beta iota.
    erewrite bind_eq by (apply off_write, Off, O3). eexists. split; [reflexivity|].
    unfold s3. simpl. by destruct h3. }
  destruct ED as (s4 & E4 & O4 & R4 & T4 & Z4). rewrite (bind_eq _ _ _ _ _ E4).
  destruct (fifo_len_ok s4 O4 HD) as (s5 & E5 & O5 & Z5 & R5 & _); [by rewrite T4|].
  rewrite (bind_eq _ _ _ _ _ E5), upd_bind. eexists. split; [reflexivity|]. unfold off. simpl. split; [congruence|].
  split; [congruence|]. split; [congruence|done].
Qed.
End device.

(** ** Examples *)
#[export] Instance example_io : IoSpi := {|
  SPI_MODE_WORD_WIDTH_MASK := 255; SPI_MODE_WORD_WIDTH_16 := 16; SPI_MODE_CPOL_1 := 512; SPI_MODE_CPHA_1 := 256
|}.

(** Five bytes to slave 0 over FIFOs of four words; the slave adds one. *)
Definition example_slave : list (Z * Z * Z) -> Z -> Z -> Z := fun _ s w => (s * 1000 + w + 1)%Z.
Definition example_state (enables : Z) : st :=
  St (Ssi 0 0 0 enables 0 0 0 0 0 0 [] [] []) (Dw 0 0 0 0 0 0 0 false false 2 4) [11; 22; 33; 44; 55; 66]%Z 0.

Lemma example_accepted : accepted (Cfg 8 1000000) 5 0 5.
Proof. constructor; vm_compute; try done; split; congruence. Qed.

Lemma example_spi_request : request 4 (Cfg 8 1000000) 5 0 0 5 10 (example_state 0).
Proof.
  constructor; [done|apply example_accepted|lia|simpl; lia| |by left|done| |lia].
  - repeat constructor; vm_compute; congruence.
  - exists 4. split; [done|lia].
Qed.

Definition example_xfer (slv enables : Z) : option (errno * st) := (dw_xfer 4 0 example_slave (fun n => n mod 2) (fun _ => 0%Z) (fun _ => false)
  10 200000000 (Cfg 8 1000000) slv 5 0 (example_state enables)).

Lemma dw_xfer_exchanges_witness : exists s', example_xfer 0%Z 0%Z = Some (EOK, s') /\
  (sent <$> wire (hw s') = [11; 22; 33; 44; 55])%Z.
Proof.
  destruct (dw_xfer_exchanges 4 0 example_slave (fun n => n mod 2) (fun _ => 0%Z) (fun _ => false)
    10 200000000 (Cfg 8 1000000) 0 5 0 5 (example_state 0) example_spi_request (fun _ => eq_refl) (fun _ => eq_refl))
    as (W & s' & E & HW & HS & _). exists s'. split; [exact E|]. rewrite HW. exact HS.
Defined.

(** A wait expires after four of the five words were stored. *)
Lemma dw_xfer_safe_witness :
  exists s' r W, dw_xfer 4 0 example_slave (fun n => n mod 2) (fun _ => 0%Z) (fun n => 26 <? n)
    10 200000000 (Cfg 8 1000000) 0 5 0 (example_state 0) = Some (ETIMEDOUT, s') /\
    exchanged example_slave [11; 22; 33; 44; 55; 66]%Z 0 [] 1 5 r W s' /\ off s'.
Proof.
  destruct (dw_xfer_safe 4 0 example_slave (fun n => n mod 2) (fun _ => 0%Z) (fun n => 26 <? n)
    10 200000000 (Cfg 8 1000000) 0 5 0 (example_state 0)) as [X _].
  destruct (X 5 example_spi_request) as (e & s' & r & W & E & EX & EO & _ & _).
  assert (e = ETIMEDOUT) as -> by (vm_compute in E; injection E as <- _; reflexivity).
  exists s', r, W. split; [exact E|]. split; [exact EX|exact EO].
Defined.

(** A request for 10 MHz out of 200 MHz gets the divider 20. *)
Lemma spi_clock_witness : exists dev',
  dw_cfg 1 200000000 (Dev 0 (Cfg 8 10000000) 0) = (EOK, dev') /\
  exists s', dw_prepare_for_transfer 4 0 example_slave (fun n => n) (fun _ => 0%Z) 200000000 (cfg dev') 5 0
    (example_state 0) = Some (EOK, s') /\ baudr (hw s') = 20%Z.
Proof.
  eexists. split; [vm_compute; reflexivity|].
  destruct (spi_clock 4 0 example_slave (fun n => n) (fun _ => 0%Z) (fun _ => false) 1 200000000 (Dev 0 (Cfg 8 10000000) 0)
    (Dev 0 (Cfg 8 10000000) 10000000) 5 0 5 (example_state 0)) as (_ & _ & _ & s' & E & B);
    try (vm_compute; first [reflexivity | congruence | split; congruence]).
  - constructor; vm_compute; try reflexivity; try congruence; split; congruence.
  - exists s'. split; [exact E|exact B].
Defined.

(** A clock below the reach of the divider: the divider of the rate that
    dw_cfg computed no longer fits the 16-bit register, and 3 kHz become
    12.5 MHz. *)
Lemma slow_clock_wraps :
  match dw_cfg 1 200000000 (Dev 0 (Cfg 8 3000) 0) with
  | (EOK, dev') =>
      match dw_prepare_for_transfer 4 0 example_slave (fun n => n) (fun _ => 0%Z) 200000000 (cfg dev') 5 0
              (example_state 0) with
      | Some (EOK, s') => clock_rate (cfg dev') = 3051%Z /\ baudr (hw s') = 16%Z
      | _ => False
      end
  | _ => False
  end.
Proof. vm_compute. done. Qed.

(** dw_xfer never deselects a slave, and the FIFO is filled before the next
    one is selected: the words go to the slave of the transfer before, and
    the refused selection is not noticed. *)
Lemma wrong_slave :
  match dw_xfer 4 0 example_slave (fun _ => 0) (fun _ => 0%Z) (fun _ => false)
          10 200000000 (Cfg 8 1000000) 1 5 0 (example_state (Z.shiftl 1 0)) with
  | Some (EOK, s') => to <$> wire (hw s') = replicate 5 (Z.shiftl 1 0)
  | _ => False
  end.
Proof. vm_compute. done. Qed.
