(* ===== verification/DwI2c.v ===== *)
(** * The I2C driver (i2c/dwc)

    The controller is an arbitrary device: what a register reads is any
    function of all accesses before.  A transaction writes one command per
    byte into the data register and stores the bytes it reads there; both
    buffers lie in one memory, where they may be the same, as they are for
    _i2c_master_sendrecv.  Every loop of the driver counts down, and the wait
    ends with the first failing InterruptWait, so all functions are total
    unless they leave a buffer. *)
From S2P Require Import Prelude Driver.
Open Scope Z_scope.

(** ** dwc_i2c.h *)
Definition DW_IC_CON : Z := 0.
Definition DW_IC_TAR : Z := 4.
Definition DW_IC_DATA_CMD : Z := 16.
Definition DW_IC_SS_SCL_HCNT : Z := 20.
Definition DW_IC_SS_SCL_LCNT : Z := 24.
Definition DW_IC_FS_SCL_HCNT : Z := 28.
Definition DW_IC_FS_SCL_LCNT : Z := 32.
Definition DW_IC_INTR_STAT : Z := 44.
Definition DW_IC_INTR_MASK : Z := 48.
Definition DW_IC_RX_TL : Z := 56.
Definition DW_IC_TX_TL : Z := 60.
Definition DW_IC_CLR_INTR : Z := 64.
Definition DW_IC_CLR_TX_ABRT : Z := 84.
Definition DW_IC_CLR_STOP_DET : Z := 96.
Definition DW_IC_ENABLE : Z := 108.
Definition DW_IC_STATUS : Z := 112.
Definition DW_IC_RXFLR : Z := 120.
Definition DW_IC_SDA_HOLD : Z := 124.
Definition DW_IC_TX_ABRT_SOURCE : Z := 128.
Definition DW_IC_ENABLE_STATUS : Z := 156.
Definition DW_IC_COMP_PARAM_1 : Z := 244.
Definition DW_IC_COMP_VERSION : Z := 248.
Definition DW_IC_SOFT_RESET : Z := 516.

Definition DW_IC_CON_SPEED_MASK : Z := 6.
Definition DW_IC_CON_SPEED_STD : Z := 2.
Definition DW_IC_CON_SPEED_FAST : Z := 4.
Definition DW_IC_CON_10BITADDR_MASTER : Z := 16.
Definition DW_IC_TAR_10BITADDR_MASTER : Z := 4096.
Definition DW_IC_DATA_CMD_WRITE : Z := 0.
Definition DW_IC_DATA_CMD_READ : Z := 256.
Definition DW_IC_DATA_CMD_STOP : Z := 512.
Definition DW_IC_DATA_CMD_RESTART : Z := 1024.
Definition DW_IC_INTR_RX_FULL : Z := 4.
Definition DW_IC_INTR_TX_EMPTY : Z := 16.
Definition DW_IC_INTR_TX_ABRT : Z := 64.
Definition DW_IC_INTR_STOP_DET : Z := 512.
Definition DW_IC_INTR_DEFAULT_MASK : Z := 596.
Definition DW_IC_COMP_PARAM_1_RX_DEPTH_F : Z := 8.
Definition DW_IC_COMP_PARAM_1_TX_DEPTH_F : Z := 16.
Definition DW_IC_TX_ABRT_TXDATA_NOACK : Z := 8.
Definition DW_IC_TX_ARBT_LOST : Z := 4096.
Definition DW_IC_TX_ABRT_ADDR_NOACK : Z := 7.
Definition DW_IC_ENABLE_STATUS_ENABLE_MASK : Z := 1.
Definition DW_IC_ENABLE_STATUS_ENABLE : Z := 1.
Definition DW_IC_ENABLE_STATUS_DISABLE : Z := 0.
Definition DW_IC_ENABLE_ABORT : Z := 2.
Definition DW_IC_SOFT_RESET_ASSERTED : Z := 0.
Definition DW_IC_SOFT_RESET_NOT_ASSERTED : Z := 3.
Definition DW_IC_STATUS_ACTIVITY : Z := 1.
Definition DW_IC_STATUS_TFNF : Z := 2.
Definition DW_IC_STATUS_TFE : Z := 4.
Definition DW_IC_STATUS_RFNE : Z := 8.
Definition DW_IC_SDA_HOLD_MIN_VERS : Z := 825307434.
Definition SDA_HOLD_TIME_VALUE_ns : Z := 350.
Definition DW_IC_CLOCK_PARAMS_200MHZ : Z := 200000000.
Definition BUSY_RETRY : nat := 3.
Definition RESET_RETRY : nat := 3.
Definition DW_I2C_TIMEOUT : nat := 20.

Inductive i2c_addrfmt_t := I2C_ADDRFMT_7BIT | I2C_ADDRFMT_10BIT | I2C_ADDRFMT_OTHER.

#[export] Instance i2c_addrfmt_eq_dec : EqDecision i2c_addrfmt_t.
Proof. solve_decision. Defined.

(** The status bits of <hw/i2c.h>, which is not in the repository. *)
Class I2cStatus := {
  I2C_STATUS_DONE : Z; I2C_STATUS_ERROR : Z; I2C_STATUS_ADDR_NACK : Z; I2C_STATUS_DATA_NACK : Z;
  I2C_STATUS_ARBL : Z; I2C_STATUS_BUSY : Z; I2C_STATUS_ABORT : Z
}.

(** ** dwc_dev_t *)
Record scl_timing_param := Scl { high : Z; low : Z; fall : Z }.

(** The transaction, with the pointers as addresses. *)
Record xact := Xact {
  txbuf : Z; rxbuf : Z; xlen : Z; txlen : Z; rxlen : Z; wrlen : Z; rdlen : Z; stop : Z
}.
Record conf := Conf {
  slave_addr : Z; slave_addr_fmt : i2c_addrfmt_t;
  active_slave_addr : Z; active_slave_addr_fmt : i2c_addrfmt_t;
  active_no_stop : Z; restart : Z; status : Z; abort_source : Z;
  scl_freq : Z; master_cfg : Z; fifo_depth : Z; clock_khz : Z;
  ss_hcnt : Z; ss_lcnt : Z; fs_hcnt : Z; fs_lcnt : Z; sda_hold_time : Z;
  fast : scl_timing_param; std : scl_timing_param
}.

(** Accesses to the registers, and the memory of the buffers. *)
Inductive event := Rd (off v : Z) | Wr (off v : Z).
Record st := St { log : list event; xa : xact; cf : conf; mem : list Z }.

Definition upd_xa (f : xact -> xact) : M st () := modify (fun s => St (log s) (f (xa s)) (cf s) (mem s)).
Definition upd_cf (f : conf -> conf) : M st () := modify (fun s => St (log s) (xa s) (f (cf s)) (mem s)).

Definition set_status (v a : Z) (c : conf) : conf :=
  Conf (slave_addr c) (slave_addr_fmt c) (active_slave_addr c) (active_slave_addr_fmt c) (active_no_stop c)
    (restart c) v a (scl_freq c) (master_cfg c) (fifo_depth c) (clock_khz c) (ss_hcnt c) (ss_lcnt c)
    (fs_hcnt c) (fs_lcnt c) (sda_hold_time c) (fast c) (std c).
Definition set_active (addr : Z) (fmt : i2c_addrfmt_t) (no_stop rst : Z) (c : conf) : conf :=
  Conf (slave_addr c) (slave_addr_fmt c) addr fmt no_stop rst (status c) (abort_source c) (scl_freq c)
    (master_cfg c) (fifo_depth c) (clock_khz c) (ss_hcnt c) (ss_lcnt c) (fs_hcnt c) (fs_lcnt c)
    (sda_hold_time c) (fast c) (std c).
Definition set_flags (no_stop rst : Z) (c : conf) : conf :=
  set_active (active_slave_addr c) (active_slave_addr_fmt c) no_stop rst c.
Definition set_target (addr : Z) (fmt : i2c_addrfmt_t) (freq mcfg : Z) (c : conf) : conf :=
  Conf addr fmt (active_slave_addr c) (active_slave_addr_fmt c) (active_no_stop c) (restart c) (status c)
    (abort_source c) freq mcfg (fifo_depth c) (clock_khz c) (ss_hcnt c) (ss_lcnt c) (fs_hcnt c) (fs_lcnt c)
    (sda_hold_time c) (fast c) (std c).
Definition set_clock (depth khz sh sl fh fl : Z) (c : conf) : conf :=
  Conf (slave_addr c) (slave_addr_fmt c) (active_slave_addr c) (active_slave_addr_fmt c) (active_no_stop c)
    (restart c) (status c) (abort_source c) (scl_freq c) (master_cfg c) depth khz sh sl fh fl
    (sda_hold_time c) (fast c) (std c).

(** ** bus_speed.c, slave_addr.c, clock.c *)

(** The result, and the new settings. *)
Definition dwc_i2c_set_bus_speed (speed : Z) (c : conf) : Z * conf :=
  if speed =? scl_freq c then (0, c)
  else
    let set m := set_target (slave_addr c) (slave_addr_fmt c) speed
                   (Z.lor (Z.ldiff (master_cfg c) DW_IC_CON_SPEED_MASK) m) c in
    if speed =? 100000 then (0, set DW_IC_CON_SPEED_STD)
    else if speed =? 400000 then (0, set DW_IC_CON_SPEED_FAST)
    else (-1, c).

Definition dwc_i2c_set_slave_addr (addr : Z) (fmt : i2c_addrfmt_t) (c : conf) : Z * conf :=
  match fmt with
  | I2C_ADDRFMT_7BIT =>
      if 127 <? addr then (-1, c)
      else (0, set_target addr fmt (scl_freq c) (Z.ldiff (master_cfg c) DW_IC_CON_10BITADDR_MASTER) c)
  | I2C_ADDRFMT_10BIT =>
      if 1023 <? addr then (-1, c)
      else (0, set_target addr fmt (scl_freq c) (Z.lor (master_cfg c) DW_IC_CON_10BITADDR_MASTER) c)
  | I2C_ADDRFMT_OTHER => (-1, c)
  end.

Definition dwc_i2c_get_input_clock : Z := DW_IC_CLOCK_PARAMS_200MHZ / 1000.

(** ** init.c, the timing *)
Definition i2c_dw_scl_hcnt (ic_clk tsymbol tf : Z) (cond : bool) (offset : Z) : Z :=
  if cond then u32 (u32 (u32 (ic_clk * tsymbol) + 500000) / 1000000 - 8 + offset)
  else u32 (u32 (u32 (ic_clk * u32 (tsymbol + tf)) + 500000) / 1000000 - 3 + offset).
Definition i2c_dw_scl_lcnt (ic_clk tlow tf offset : Z) : Z :=
  u32 (u32 (u32 (ic_clk * u32 (tlow + tf)) + 500000) / 1000000 - 1 + offset).

Section driver.
Context {statuses : I2cStatus}.
(** The value that a read of a register gives after some accesses. *)
Context (device : list event -> Z -> Z).

Definition i2c_reg_read32 (off : Z) : M st Z := fun s =>
  let v := u32 (device (log s) off) in Some (v, St (log s ++ [Rd off v]) (xa s) (cf s) (mem s)).
Definition i2c_reg_write32 (off v : Z) : M st () := fun s =>
  Some ((), St (log s ++ [Wr off (u32 v)]) (xa s) (cf s) (mem s)).

(** true for 0, false for -ETIMEDOUT; the loop runs at most 1001 times. *)
Fixpoint enable_loop (n : nat) (enable : Z) : M st bool :=
  match n with
  | O => mret false
  | S n' =>
      i2c_reg_write32 DW_IC_ENABLE enable;;
      v ← i2c_reg_read32 DW_IC_ENABLE_STATUS;
      if Z.land v DW_IC_ENABLE_STATUS_ENABLE_MASK =? enable then mret true else enable_loop n' enable
  end.
Definition dwc_i2c_enable (enable : Z) : M st bool := enable_loop 1001 enable.

Definition dwc_i2c_set_fifo_threshold : M st () :=
  reg ← i2c_reg_read32 DW_IC_COMP_PARAM_1;
  let tx := Z.land (Z.shiftr reg DW_IC_COMP_PARAM_1_TX_DEPTH_F) 255 + 1 in
  let rx := Z.land (Z.shiftr reg DW_IC_COMP_PARAM_1_RX_DEPTH_F) 255 + 1 in
  let depth := Z.min tx rx in
  upd_cf (fun c => set_clock depth (clock_khz c) (ss_hcnt c) (ss_lcnt c) (fs_hcnt c) (fs_lcnt c) c);;
  i2c_reg_write32 DW_IC_TX_TL (depth / 2);;
  i2c_reg_write32 DW_IC_RX_TL (depth / 2).

Definition dwc_i2c_init_registers : M st () :=
  c ← gets cf;
  let khz := if clock_khz c =? 0 then dwc_i2c_get_input_clock else clock_khz c in
  let sh := i2c_dw_scl_hcnt khz (high (std c)) (fall (std c)) false 0 in
  let sl := i2c_dw_scl_lcnt khz (low (std c)) (fall (std c)) 0 in
  i2c_reg_write32 DW_IC_SS_SCL_HCNT sh;;
  i2c_reg_write32 DW_IC_SS_SCL_LCNT sl;;
  let fh := i2c_dw_scl_hcnt khz (high (fast c)) (fall (fast c)) false 0 in
  let fl := i2c_dw_scl_lcnt khz (low (fast c)) (fall (fast c)) 0 in
  upd_cf (fun c => set_clock (fifo_depth c) khz sh sl fh fl c);;
  i2c_reg_write32 DW_IC_FS_SCL_HCNT fh;;
  i2c_reg_write32 DW_IC_FS_SCL_LCNT fl;;
  version ← i2c_reg_read32 DW_IC_COMP_VERSION;
  (if DW_IC_SDA_HOLD_MIN_VERS <=? version then
     let hold := Z.max (sda_hold_time c) (u32 (u32 (khz * SDA_HOLD_TIME_VALUE_ns) + 500000) / 1000000) in
     if hold <? fl then i2c_reg_write32 DW_IC_SDA_HOLD hold else mret ()
   else mret ());;
  dwc_i2c_set_fifo_threshold;;
  upd_cf (fun c => snd (dwc_i2c_set_bus_speed 100000 c));;
  i2c_reg_read32 DW_IC_CLR_INTR;;
  i2c_reg_write32 DW_IC_INTR_MASK 0.

(** ** wait.c *)
Fixpoint not_busy_loop (n : nat) : M st bool :=
  v ← i2c_reg_read32 DW_IC_STATUS;
  if has v DW_IC_STATUS_ACTIVITY then match n with O => mret false | S n' => not_busy_loop n' end
  else mret true.
Definition dwc_i2c_wait_bus_not_busy : M st bool := not_busy_loop (DW_I2C_TIMEOUT * 10).

Fixpoint reset_loop (n : nat) : M st () :=
  match n with
  | O => mret ()
  | S n' =>
      i2c_reg_write32 DW_IC_SOFT_RESET DW_IC_SOFT_RESET_ASSERTED;;
      i2c_reg_write32 DW_IC_SOFT_RESET DW_IC_SOFT_RESET_NOT_ASSERTED;;
      ok ← dwc_i2c_enable DW_IC_ENABLE_STATUS_DISABLE;
      if (ok : bool) then dwc_i2c_init_registers else reset_loop n'
  end.
Definition dwc_i2c_reset : M st () :=
  i2c_reg_write32 DW_IC_ENABLE (Z.lor DW_IC_ENABLE_ABORT DW_IC_ENABLE_STATUS_ENABLE);;
  upd_cf (set_flags 0 0);;
  dwc_i2c_enable DW_IC_ENABLE_STATUS_DISABLE;;
  reset_loop RESET_RETRY.

(** [*dev->rxbuf++ = v; dev->rdlen++] and [*dev->txbuf++]. *)
Definition store_rx (v : Z) : M st () := fun s =>
  let x := xa s in
  if decide (Z.to_nat (rxbuf x) < length (mem s))%nat then
    Some ((), St (log s) (Xact (txbuf x) (rxbuf x + 1) (xlen x) (txlen x) (rxlen x) (wrlen x) (u32 (rdlen x + 1)) (stop x))
                (cf s) (<[Z.to_nat (rxbuf x) := v]> (mem s)))
  else None.
Definition fetch_tx : M st Z := fun s =>
  let x := xa s in
  v ← mem s !! Z.to_nat (txbuf x);
  Some (v, St (log s) (Xact (txbuf x + 1) (rxbuf x) (xlen x) (txlen x) (rxlen x) (wrlen x) (rdlen x) (stop x))
             (cf s) (mem s)).

Fixpoint read_bytes (numbers : nat) : M st () :=
  match numbers with
  | O => mret ()
  | S n' => reg ← i2c_reg_read32 DW_IC_DATA_CMD; store_rx (Z.land reg 255);; read_bytes n'
  end.

(** TX_ABRT. *)
Definition process_abort : M st () :=
  a ← i2c_reg_read32 DW_IC_TX_ABRT_SOURCE;
  i2c_reg_read32 DW_IC_CLR_TX_ABRT;;
  let s := if has a DW_IC_TX_ARBT_LOST then I2C_STATUS_ARBL
           else if has a DW_IC_TX_ABRT_ADDR_NOACK then I2C_STATUS_ADDR_NACK
           else if has a DW_IC_TX_ABRT_TXDATA_NOACK then I2C_STATUS_DATA_NACK
           else I2C_STATUS_ABORT in
  upd_cf (set_status (Z.lor I2C_STATUS_DONE s) a);;
  i2c_reg_write32 DW_IC_INTR_MASK 0.

Definition set_error (keep : bool) : M st () :=
  upd_cf (fun c => set_status (if keep then Z.lor (status c) I2C_STATUS_ERROR else I2C_STATUS_ERROR) (abort_source c) c).
Definition set_done : M st () :=
  upd_cf (fun c => set_status (Z.lor (status c) I2C_STATUS_DONE) (abort_source c) c).
Definition mask_off (m : Z) : M st () :=
  reg ← i2c_reg_read32 DW_IC_INTR_MASK; i2c_reg_write32 DW_IC_INTR_MASK (Z.ldiff reg m).

(** STOP_DET. *)
Definition process_stop : M st () :=
  i2c_reg_read32 DW_IC_CLR_STOP_DET;;
  x ← gets xa;
  (if rdlen x <? rxlen x then
     numbers ← i2c_reg_read32 DW_IC_RXFLR;
     if negb (u32 (rdlen x + numbers) =? rxlen x) then set_error false
     else read_bytes (Z.to_nat numbers)
   else mret ());;
  set_done;;
  i2c_reg_write32 DW_IC_INTR_MASK 0.

(** RX_FULL. *)
Definition process_rx : M st () :=
  x ← gets xa;
  if rdlen x <? rxlen x then
    numbers ← i2c_reg_read32 DW_IC_RXFLR;
    if rxlen x <? u32 (rdlen x + numbers) then
      set_error true;;
      mask_off DW_IC_INTR_RX_FULL;;
      read_bytes (Z.to_nat (u32 (rxlen x - rdlen x)))
    else read_bytes (Z.to_nat numbers)
  else mask_off DW_IC_INTR_RX_FULL.

(** The next command. *)
Definition next_command : M st Z :=
  x ← gets xa;
  let last v := if negb (stop x =? 0) && (wrlen x =? xlen x - 1) then Z.lor v DW_IC_DATA_CMD_STOP else v in
  reg ← (if wrlen x <? txlen x then
           b ← fetch_tx; mret (last (Z.lor b DW_IC_DATA_CMD_WRITE))
         else if (wrlen x =? txlen x) && negb (txlen x =? 0) then
           mret (last (Z.lor DW_IC_DATA_CMD_READ DW_IC_DATA_CMD_RESTART))
         else mret (last DW_IC_DATA_CMD_READ));
  c ← gets cf;
  mret (if negb (restart c =? 0) && (wrlen x =? 0) then Z.lor reg DW_IC_DATA_CMD_RESTART else reg).

Definition count_write : M st () :=
  upd_xa (fun x => Xact (txbuf x) (rxbuf x) (xlen x) (txlen x) (rxlen x) (u32 (wrlen x + 1)) (rdlen x) (stop x)).

Definition xmit_FIFO_is_full : M st bool :=
  v ← i2c_reg_read32 DW_IC_STATUS; mret (Z.land v DW_IC_STATUS_TFNF =? 0).

(** TX_EMPTY: the loop over fifo_depth. *)
Fixpoint process_tx (n : nat) : M st () :=
  match n with
  | O => mret ()
  | S n' =>
      x ← gets xa;
      if xlen x <=? wrlen x then
        off ← (if negb (stop x =? 0) || negb (rxlen x =? 0) then mret true
               else v ← i2c_reg_read32 DW_IC_STATUS; mret (has v DW_IC_STATUS_TFE));
        if (off : bool) then mask_off DW_IC_INTR_TX_EMPTY else mret ()
      else
        full ← xmit_FIFO_is_full;
        if (full : bool) then mret ()
        else reg ← next_command; i2c_reg_write32 DW_IC_DATA_CMD reg;; count_write;; process_tx n'
  end.

(** Without a STOP: the receive loop, which ends with the last byte. *)
Fixpoint drain_rx (fuel : nat) : M st () :=
  match fuel with
  | O => mret ()
  | S n' =>
      v ← i2c_reg_read32 DW_IC_STATUS;
      if has v DW_IC_STATUS_RFNE then
        reg ← i2c_reg_read32 DW_IC_DATA_CMD; store_rx (Z.land reg 255);; drain_rx n'
      else mret ()
  end.

(** true for EOK, false for EAGAIN. *)
Definition dwc_i2c_process_intr : M st bool :=
  stat ← i2c_reg_read32 DW_IC_INTR_STAT;
  if has stat DW_IC_INTR_TX_ABRT then process_abort;; mret true
  else if has stat DW_IC_INTR_STOP_DET then process_stop;; mret true
  else
    (if has stat DW_IC_INTR_RX_FULL then process_rx else mret ());;
    c ← gets cf;
    (if has stat DW_IC_INTR_TX_EMPTY then process_tx (Z.to_nat (fifo_depth c)) else mret ());;
    x ← gets xa;
    if stop x =? 0 then
      drain_rx (Z.to_nat (rxlen x - rdlen x));;
      x ← gets xa;
      if (xlen x <=? wrlen x) && (rxlen x <=? rdlen x) then
        v ← i2c_reg_read32 DW_IC_STATUS;
        if has v DW_IC_STATUS_TFE then set_done;; i2c_reg_write32 DW_IC_INTR_MASK 0;; mret true
        else mret false
      else mret false
    else mret false.

(** The wait: [irqs] interrupts come, then InterruptWait fails. *)
Fixpoint dwc_i2c_wait_complete (irqs : nat) : M st Z :=
  match irqs with
  | O => i2c_reg_read32 DW_IC_STATUS;; dwc_i2c_reset;; mret (Z.lor I2C_STATUS_DONE I2C_STATUS_ERROR)
  | S n' =>
      done ← dwc_i2c_process_intr;
      if (done : bool) then
        c ← gets cf;
        (if has (status c) (Z.lor I2C_STATUS_ARBL I2C_STATUS_ERROR) then dwc_i2c_reset else mret ());;
        i2c_reg_write32 DW_IC_INTR_MASK 0;;
        c ← gets cf;
        mret (status c)
      else dwc_i2c_wait_complete n'
  end.

(** ** init.c: dwc_i2c_bus_active; true for 0, false for I2C_STATUS_BUSY *)
Fixpoint busy_loop (busy_retry : nat) (ok : bool) : M st bool :=
  if ok then mret true
  else
    match busy_retry with
    | O => dwc_i2c_reset;; dwc_i2c_wait_bus_not_busy
    | S n' => ok ← dwc_i2c_wait_bus_not_busy; busy_loop n' ok
    end.

Definition dwc_i2c_bus_active : M st bool :=
  c ← gets cf;
  if negb (active_no_stop c =? 0) then
    if negb (slave_addr c =? active_slave_addr c) || negb (bool_decide (slave_addr_fmt c = active_slave_addr_fmt c))
    then dwc_i2c_reset;; mret false
    else upd_cf (set_flags (active_no_stop c) 1);; i2c_reg_write32 DW_IC_INTR_MASK 0;; mret true
  else
    upd_cf (set_flags (active_no_stop c) 0);;
    ok ← dwc_i2c_wait_bus_not_busy;
    ok ← busy_loop BUSY_RETRY ok;
    if negb ok then mret false
    else
      ok ← dwc_i2c_enable DW_IC_ENABLE_STATUS_DISABLE;
      if negb ok then dwc_i2c_reset;; mret false
      else
        c ← gets cf;
        i2c_reg_write32 DW_IC_TAR
          (if decide (slave_addr_fmt c = I2C_ADDRFMT_7BIT) then slave_addr c
           else Z.lor (slave_addr c) DW_IC_TAR_10BITADDR_MASTER);;
        upd_cf (fun c => set_active (slave_addr c) (slave_addr_fmt c) (active_no_stop c) (restart c) c);;
        i2c_reg_write32 DW_IC_CON (master_cfg c);;
        i2c_reg_write32 DW_IC_INTR_MASK 0;;
        ok ← dwc_i2c_enable DW_IC_ENABLE_STATUS_ENABLE;
        if negb ok then dwc_i2c_reset;; mret false else mret true.

(** ** sendrecv.c, send.c, recv.c: from the start of the bus on *)
Definition transact (irqs : nat) : M st Z :=
  ok ← dwc_i2c_bus_active;
  if negb ok then mret I2C_STATUS_BUSY
  else
    i2c_reg_write32 DW_IC_RX_TL 0;;
    i2c_reg_read32 DW_IC_CLR_INTR;;
    i2c_reg_write32 DW_IC_INTR_MASK DW_IC_INTR_DEFAULT_MASK;;
    ret ← dwc_i2c_wait_complete irqs;
    i2c_reg_write32 DW_IC_INTR_MASK 0;;
    x ← gets xa;
    upd_cf (fun c => set_flags (if (ret =? I2C_STATUS_DONE) && (stop x =? 0) then 1 else 0) (restart c) c);;
    (if negb (stop x =? 0) then dwc_i2c_enable DW_IC_ENABLE_STATUS_DISABLE;; mret () else mret ());;
    mret ret.

Definition clear_status : M st () := upd_cf (fun c => set_status 0 (abort_source c) c).

Definition dwc_i2c_sendrecv (irqs : nat) (tx txl rx rxl stp : Z) : M st Z :=
  if 4294967295 - rxl <? txl then mret I2C_STATUS_ERROR
  else
    upd_xa (fun _ => Xact tx rx (u32 (txl + rxl)) txl rxl 0 0 stp);;
    clear_status;;
    if u32 (txl + rxl) <=? 0 then mret I2C_STATUS_DONE else transact irqs.

Definition dwc_i2c_send (irqs : nat) (buf len stp : Z) : M st Z :=
  if len <=? 0 then mret I2C_STATUS_DONE
  else upd_xa (fun x => Xact buf (rxbuf x) len len 0 0 0 stp);; clear_status;; transact irqs.
Definition dwc_i2c_recv (irqs : nat) (buf len stp : Z) : M st Z :=
  if len <=? 0 then mret I2C_STATUS_DONE
  else upd_xa (fun x => Xact (txbuf x) buf len 0 len 0 0 stp);; clear_status;; transact irqs.
End driver.
