(* ===== verification/DwI2cXfer.v ===== *)
(** * Transactions of the I2C driver

    The commands that the driver writes are compared with a reference list,
    the bytes it stores with what it read; all of it for an arbitrary device,
    as far as it is true for one. *)
From S2P Require Import Prelude Driver DwI2c.
Open Scope Z_scope.

(** ** What an execution shows *)

(** The words written into the data register, and those read from it. *)
Definition data_write (e : event) : option Z :=
  match e with Wr off v => if off =? DW_IC_DATA_CMD then Some v else None | Rd _ _ => None end.
Definition data_read (e : event) : option Z :=
  match e with Rd off v => if off =? DW_IC_DATA_CMD then Some v else None | Wr _ _ => None end.
Definition data_writes (l : list event) : list Z := omap data_write l.
Definition data_reads (l : list event) : list Z := omap data_read l.

(** Accesses that do not touch the data register. *)
Definition silent (l : list event) : Prop := data_writes l = [] /\ data_reads l = [].

Lemma silent_nil : silent [].
Proof. done. Qed.
Lemma silent_app l l' : silent l -> silent l' -> silent (l ++ l').
Proof. unfold silent, data_writes, data_reads. rewrite !omap_app. intros [-> ->] [-> ->]. done. Qed.
Lemma silent_one e : match e with Rd off _ | Wr off _ => off <> DW_IC_DATA_CMD end -> silent [e].
Proof. unfold silent, data_writes, data_reads. destruct e; simpl; intros H%Z.eqb_neq; by rewrite H. Qed.

Lemma data_silent l l' : silent l' ->
  data_writes (l ++ l') = data_writes l /\ data_reads (l ++ l') = data_reads l.
Proof. unfold silent, data_writes, data_reads. rewrite !omap_app. intros [-> ->]. by rewrite !app_nil_r. Qed.

(** ** Operations that leave the transaction alone *)
Definition quiet (s s' : st) : Prop :=
  (exists l, log s' = log s ++ l /\ silent l) /\ mem s' = mem s /\ xa s' = xa s /\
  status (cf s') = status (cf s) /\ (restart (cf s) = 0 -> restart (cf s') = 0).

Lemma quiet_refl s : quiet s s.
Proof. split; [|done]. exists []. rewrite app_nil_r. done. Qed.
Lemma quiet_trans s1 s2 s3 : quiet s1 s2 -> quiet s2 s3 -> quiet s1 s3.
Proof.
  intros [(l1 & E1 & S1) (M1 & X1 & T1 & R1)] [(l2 & E2 & S2) (M2 & X2 & T2 & R2)].
  split; [|split; [congruence|split; [congruence|split; [congruence|auto]]]].
  exists (l1 ++ l2). rewrite E2, E1, app_assoc. split; [done|by apply silent_app].
Qed.

Definition Quiet {A} (m : M st A) : Prop := forall s, exists a s', m s = Some (a, s') /\ quiet s s'.

Lemma Quiet_ret {A} (a : A) : Quiet (mret a).
Proof. intros s. exists a, s. split; [done|apply quiet_refl]. Qed.
Lemma Quiet_gets {A} (f : st -> A) : Quiet (gets f).
Proof. intros s. exists (f s), s. split; [done|apply quiet_refl]. Qed.
Lemma Quiet_bind {A B} (m : M st A) (k : A -> M st B) : Quiet m -> (forall a, Quiet (k a)) -> Quiet (x ← m; k x).
Proof.
  intros Hm Hk s. destruct (Hm s) as (a & s1 & E1 & Q1). destruct (Hk a s1) as (b & s2 & E2 & Q2).
  exists b, s2. rewrite (bind_eq _ _ _ _ _ E1). split; [done|by apply (quiet_trans _ s1)].
Qed.
Lemma Quiet_cf f : (forall c, status (f c) = status c /\ (restart c = 0 -> restart (f c) = 0)) -> Quiet (upd_cf f).
Proof.
  intros H s. eexists (), _. split; [reflexivity|]. split; [exists []; rewrite app_nil_r; done|].
  split; [done|]. split; [done|apply H].
Qed.

Create HintDb quiet discriminated.
#[export] Hint Resolve Quiet_ret Quiet_gets : quiet.

Lemma set_bus_speed_status speed c : status (dwc_i2c_set_bus_speed speed c).2 = status c /\
  (restart c = 0 -> restart (dwc_i2c_set_bus_speed speed c).2 = 0).
Proof. unfold dwc_i2c_set_bus_speed. repeat case_match; done. Qed.

Section quiet.
Context {statuses : I2cStatus} (device : list event -> Z -> Z).

Lemma Quiet_read off : off <> DW_IC_DATA_CMD -> Quiet (i2c_reg_read32 device off).
Proof.
  intros H s. eexists _, _. split; [reflexivity|]. split; [|done]. eexists. split; [reflexivity|].
  by apply silent_one.
Qed.
Lemma Quiet_write off v : off <> DW_IC_DATA_CMD -> Quiet (i2c_reg_write32 off v).
Proof.
  intros H s. eexists _, _. split; [reflexivity|]. split; [|done]. eexists. split; [reflexivity|].
  by apply silent_one.
Qed.
Hint Resolve Quiet_read Quiet_write : quiet.

Ltac quiet :=
  repeat first
    [ match goal with |- forall _, _ => intro end
    | match goal with
      | |- Quiet (mbind _ _) => simple apply Quiet_bind
      | |- Quiet (upd_cf _) => apply Quiet_cf; intros; first [done | apply set_bus_speed_status]
      | |- Quiet (i2c_reg_read32 _ _) => apply Quiet_read; done
      | |- Quiet (i2c_reg_write32 _ _) => apply Quiet_write; done
      | |- Quiet (if ?b then _ else _) => destruct b
      end
    | solve [auto with quiet] ].

Lemma Quiet_enable e : Quiet (dwc_i2c_enable device e).
Proof. unfold dwc_i2c_enable. generalize 1001%nat. induction n as [|n IH]; simpl; quiet. Qed.
Hint Resolve Quiet_enable : quiet.

Lemma Quiet_init : Quiet (dwc_i2c_init_registers device).
Proof. unfold dwc_i2c_init_registers, dwc_i2c_set_fifo_threshold. quiet. Qed.
Hint Resolve Quiet_init : quiet.

Lemma Quiet_reset : Quiet (dwc_i2c_reset device).
Proof.
  unfold dwc_i2c_reset. quiet. generalize RESET_RETRY. induction n as [|n IH]; simpl; quiet.
Qed.
Hint Resolve Quiet_reset : quiet.

Lemma Quiet_not_busy : Quiet (dwc_i2c_wait_bus_not_busy device).
Proof.
  unfold dwc_i2c_wait_bus_not_busy. generalize (DW_I2C_TIMEOUT * 10)%nat. induction n as [|n IH]; simpl; quiet.
Qed.
Hint Resolve Quiet_not_busy : quiet.

Lemma Quiet_busy n : forall ok, Quiet (busy_loop device n ok).
Proof. induction n as [|n IH]; intros ok; simpl; quiet. Qed.
Hint Resolve Quiet_busy : quiet.


(** The start of the bus once the last transaction ended with a stop. *)
Lemma Quiet_fresh_bus : Quiet
  (ok ← dwc_i2c_wait_bus_not_busy device;
   ok ← busy_loop device BUSY_RETRY ok;
   if negb ok then mret false
   else
     ok ← dwc_i2c_enable device DW_IC_ENABLE_STATUS_DISABLE;
     if negb ok then dwc_i2c_reset device;; mret false
     else
       c ← gets cf;
       i2c_reg_write32 DW_IC_TAR
         (if decide (slave_addr_fmt c = I2C_ADDRFMT_7BIT) then slave_addr c
          else Z.lor (slave_addr c) DW_IC_TAR_10BITADDR_MASTER);;
       upd_cf (fun c => set_active (slave_addr c) (slave_addr_fmt c) (active_no_stop c) (restart c) c);;
       i2c_reg_write32 DW_IC_CON (master_cfg c);;
       i2c_reg_write32 DW_IC_INTR_MASK 0;;
       ok ← dwc_i2c_enable device DW_IC_ENABLE_STATUS_ENABLE;
       if negb ok then dwc_i2c_reset device;; mret false else mret true).
Proof. quiet. Qed.
End quiet.

Lemma inserts_snoc (k : list Z) (x : Z) : forall i l,
  list_inserts i (k ++ [x]) l = <[(i + length k)%nat := x]> (list_inserts i k l).
Proof.
  induction k as [|y k IH]; intros i l; csimpl; [by rewrite Nat.add_0_r|].
  rewrite IH, (list_insert_insert_ne _ i) by lia.
  by replace (i + S (length k))%nat with (S i + length k)%nat by lia.
Qed.

(** ** The reference *)
Section reference.
Context (mem0 : list Z) (tx txl X stp R : Z).

(** The i-th command: a byte to send, or a request for one; a restart where
    the direction changes, or after a transaction without a stop; a stop
    with the last. *)
Definition command_word (i : Z) : Z :=
  let v := if i <? txl then default 0 (mem0 !! Z.to_nat (tx + i))
           else if (i =? txl) && negb (txl =? 0) then Z.lor DW_IC_DATA_CMD_READ DW_IC_DATA_CMD_RESTART
           else DW_IC_DATA_CMD_READ in
  let v := if negb (stp =? 0) && (i =? X - 1) then Z.lor v DW_IC_DATA_CMD_STOP else v in
  if negb (R =? 0) && (i =? 0) then Z.lor v DW_IC_DATA_CMD_RESTART else v.
Definition commands (n : nat) : list Z := (fun i => command_word (Z.of_nat i)) <$> seq 0 n.

Lemma commands_S n : commands (S n) = commands n ++ [command_word (Z.of_nat n)].
Proof. unfold commands. by rewrite seq_S, fmap_app. Qed.
Lemma commands_length n : length (commands n) = n.
Proof. unfold commands. by rewrite length_fmap, length_seq. Qed.
End reference.

(** Reads requested so far, and what the device may have answered. *)
Definition is_read (v : Z) : bool := has v DW_IC_DATA_CMD_READ.
Definition issued (l : list event) : nat := length (filter (fun v => is_read v = true) (data_writes l)).
Definition fetched (l : list event) : nat := length (data_reads l).

Section transaction.
Context {statuses : I2cStatus} (device : list event -> Z -> Z).
Context (log0 : list event) (mem0 : list Z) (tx txl rx rxl stp R : Z).
Let X : Z := txl + rxl.
Hypothesis lengths : 0 <= txl /\ 0 <= rxl /\ X < 4294901760.
Hypothesis pointers : 0 <= tx /\ 0 <= rx.
Hypothesis tx_fits : tx + txl <= Z.of_nat (length mem0).
Hypothesis rx_fits : rx + rxl <= Z.of_nat (length mem0).
Hypothesis bytes_ok : Forall (fun b => 0 <= b < 256) mem0.
(** The level register counts entries of a FIFO. *)
Hypothesis levels : forall l, 0 <= device l DW_IC_RXFLR < 65536.

(** The device answers only what it was asked. *)
Definition causal : Prop := forall l,
  device (log0 ++ l) DW_IC_RXFLR <= Z.of_nat (issued l - fetched l) /\
  (has (u32 (device (log0 ++ l) DW_IC_STATUS)) DW_IC_STATUS_RFNE = true -> (fetched l < issued l)%nat).
Definition disjoint_buffers : Prop := tx + txl <= rx \/ rx + rxl <= tx.

(** [n] commands written, [m] bytes stored. *)
Record moved (n m : nat) (s : st) : Prop := {
  mv_log : exists l, log s = log0 ++ l /\ length (data_writes l) = n /\ length (data_reads l) = m /\
    mem s = list_inserts (Z.to_nat rx) ((fun v => Z.land v 255) <$> data_reads l) mem0 /\
    (causal \/ disjoint_buffers -> data_writes l = commands mem0 tx txl X stp R n);
  mv_n : Z.of_nat n <= X;
  mv_m : Z.of_nat m <= rxl;
  mv_causal : causal -> Z.of_nat m <= Z.of_nat n - Z.min (Z.of_nat n) txl;
  mv_xa : xa s = Xact (tx + Z.min (Z.of_nat n) txl) (rx + Z.of_nat m) X txl rxl (Z.of_nat n) (Z.of_nat m) stp
}.

Lemma moved_quiet n m s s' : moved n m s -> quiet s s' -> moved n m s'.
Proof.
  intros [(l & E1 & E2 & E3 & E4 & E5) M1 M2 M3 M4] [(l' & El & Sl) (Em & Ex & _)].
  constructor; try done; [|congruence]. exists (l ++ l'). destruct (data_silent l l' Sl) as [-> ->].
  rewrite El, E1, app_assoc, Em. done.
Qed.

(** A quiet operation in front of something. *)
Lemma quiet_step {A} (m0 : M st A) n m s : Quiet m0 -> moved n m s ->
  exists a s', m0 s = Some (a, s') /\ moved n m s' /\ quiet s s'.
Proof. intros Q Mv. destruct (Q s) as (a & s' & E & Qs). exists a, s'. split; [done|]. split; [by apply (moved_quiet _ _ s)|done]. Qed.

Lemma in_reads_lt b k : 0 <= b < 256 -> 8 <= k -> Z.testbit b k = false.
Proof.
  intros Hb Hk. destruct (decide (b = 0)) as [->|]; [apply Z.testbit_0_l|].
  apply Z.bits_above_log2; [lia|]. assert (Z.log2 b < 8) by (apply Z.log2_lt_pow2; lia). lia.
Qed.

Lemma byte_ok i : 0 <= default 0 (mem0 !! i) < 256.
Proof. destruct (mem0 !! i) as [b|] eqn:E; simpl; [|lia]. apply (Forall_lookup_1 _ _ _ _ bytes_ok E). Qed.

(** A command fits the register, and is a request exactly from [txl] on. *)
Lemma command_ok i : 0 <= command_word mem0 tx txl X stp R i < 4294967296 /\
  is_read (command_word mem0 tx txl X stp R i) = negb (i <? txl).
Proof.
  pose proof (byte_ok (Z.to_nat (tx + i))) as B. unfold command_word, is_read.
  assert (L : forall a b, 0 <= a < 65536 -> 0 <= b < 65536 -> 0 <= Z.lor a b < 65536).
  { intros a b Ha Hb. split; [apply Z.lor_nonneg; lia|].
    destruct (decide (Z.lor a b = 0)) as [->|]; [lia|]. apply (Z.log2_lt_pow2 _ 16); [pose proof (Z.lor_nonneg a b); lia|].
    rewrite Z.log2_lor by lia. apply Z.max_lub_lt;
      [destruct (decide (a = 0)) as [->|]; [done|apply Z.log2_lt_pow2; lia]
      |destruct (decide (b = 0)) as [->|]; [done|apply Z.log2_lt_pow2; lia]]. }
  assert (C : forall c, c = DW_IC_DATA_CMD_STOP \/ c = DW_IC_DATA_CMD_RESTART -> forall v, 0 <= v < 65536 ->
    (0 <= Z.lor v c < 65536) /\ has (Z.lor v c) DW_IC_DATA_CMD_READ = has v DW_IC_DATA_CMD_READ).
  { intros c Hc v Hv. split; [apply L; [done|destruct Hc as [-> | ->]; split; vm_compute; congruence]|].
    change DW_IC_DATA_CMD_READ with (2 ^ 8). rewrite !has_bit, Z.lor_spec by lia.
    destruct Hc as [-> | ->]; by rewrite orb_false_r. }
  set (v0 := if i <? txl then _ else _).
  assert (V0 : 0 <= v0 < 65536 /\ has v0 DW_IC_DATA_CMD_READ = negb (i <? txl)).
  { unfold v0. destruct (i <? txl).
    - split; [lia|]. change DW_IC_DATA_CMD_READ with (2 ^ 8). rewrite has_bit, in_reads_lt by lia. done.
    - destruct (_ && _); (split; [split; vm_compute; congruence|done]). }
  destruct V0 as [V1 V2]. set (v1 := if negb (stp =? 0) && _ then _ else v0).
  assert (W : 0 <= v1 < 65536 /\ has v1 DW_IC_DATA_CMD_READ = negb (i <? txl)).
  { unfold v1. clearbody v0. destruct (_ && _); [|by split]. destruct (C _ (or_introl eq_refl) v0 V1) as [C1 C2].
    rewrite C2. by split. }
  destruct W as [W1 W2]. clearbody v1. destruct (negb (R =? 0) && (i =? 0)).
  - destruct (C _ (or_intror eq_refl) v1 W1) as [C1 C2]. rewrite C2. split; [lia|done].
  - split; [lia|done].
Qed.

Lemma issued_commands n : length (filter (fun v => is_read v = true) (commands mem0 tx txl X stp R n)) =
  Z.to_nat (Z.of_nat n - Z.min (Z.of_nat n) txl).
Proof.
  induction n as [|n IH]; [simpl; lia|]. rewrite commands_S, filter_app, length_app, IH.
  destruct (command_ok (Z.of_nat n)) as [_ C]. rewrite filter_cons, C.
  destruct (Z.of_nat n <? txl) eqn:E; zbool; simpl; rewrite ?decide_True, ?decide_False by done; simpl; lia.
Qed.

(** ** Storing received bytes *)

Lemma read_byte n m s : moved n m s -> Z.of_nat m < rxl ->
  (causal -> Z.of_nat (S m) <= Z.of_nat n - Z.min (Z.of_nat n) txl) ->
  exists s', (reg ← i2c_reg_read32 device DW_IC_DATA_CMD; store_rx (Z.land reg 255)) s = Some ((), s') /\
    moved n (S m) s' /\ cf s' = cf s.
Proof.
  intros [(l & E1 & E2 & E3 & E4 & E5) M1 M2 M3 M4] Hm HC. unfold i2c_reg_read32, store_rx.
  unfold mbind, M_bind. simpl. generalize (u32 (device (log s) DW_IC_DATA_CMD)). intros v. rewrite M4. simpl.
  rewrite decide_True by (rewrite E4, length_inserts; lia). eexists. split; [reflexivity|]. split; [|done].
  assert (D : data_writes (l ++ [Rd DW_IC_DATA_CMD v]) = data_writes l /\
    data_reads (l ++ [Rd DW_IC_DATA_CMD v]) = data_reads l ++ [v]).
  { unfold data_writes, data_reads. rewrite !omap_app. simpl. by rewrite app_nil_r. }
  destruct D as [D1 D2]. constructor; simpl; [|done|lia|done|].
  - exists (l ++ [Rd DW_IC_DATA_CMD v]). rewrite D1, D2, E1, app_assoc, length_app. simpl.
    split; [done|]. split; [done|]. split; [lia|]. split; [|done].
    rewrite fmap_app. change ((fun x => Z.land x 255) <$> [v]) with [Z.land v 255].
    rewrite inserts_snoc, E4, length_fmap, E3. f_equal. lia.
  - f_equal; [lia|]. rewrite u32_id; lia.
Qed.

Lemma read_bytes_ok k : forall n m s, moved n m s -> Z.of_nat (m + k) <= rxl ->
  (causal -> Z.of_nat (m + k) <= Z.of_nat n - Z.min (Z.of_nat n) txl) ->
  exists s', read_bytes device k s = Some ((), s') /\ moved n (m + k) s' /\ cf s' = cf s.
Proof.
  induction k as [|k IH]; intros n m s Mv Hk HC; [exists s; rewrite Nat.add_0_r; done|].
  destruct (read_byte n m s Mv) as (s1 & E1 & M1 & C1); [lia|intros H; specialize (HC H); lia|].
  destruct (IH n (S m) s1 M1) as (s2 & E2 & M2 & C2); [lia|intros H; specialize (HC H); lia|].
  exists s2. simpl. rewrite (seq_eq _ _ _ _ _ _ E1), E2. replace (m + S k)%nat with (S m + k)%nat by lia.
  split; [done|]. split; [done|congruence].
Qed.

(** ** Writing commands *)

Lemma fetch_ok n m s : moved n m s -> Z.of_nat n < txl ->
  exists s' b, fetch_tx s = Some (b, s') /\ cf s' = cf s /\ log s' = log s /\ mem s' = mem s /\
    xa s' = Xact (tx + Z.of_nat n + 1) (rx + Z.of_nat m) X txl rxl (Z.of_nat n) (Z.of_nat m) stp /\
    (causal \/ disjoint_buffers -> b = default 0 (mem0 !! Z.to_nat (tx + Z.of_nat n))).
Proof.
  intros [(l & E1 & E2 & E3 & E4 & E5) M1 M2 M3 M4] Hn. unfold fetch_tx. rewrite M4. simpl.
  replace (Z.min (Z.of_nat n) txl) with (Z.of_nat n) in * by lia.
  destruct (lookup_lt_is_Some_2 (mem s) (Z.to_nat (tx + Z.of_nat n))) as [b Hb];
    [rewrite E4, length_inserts; lia|]. rewrite Hb. simpl. eexists _, b. split; [reflexivity|].
  simpl. split; [done|]. split; [done|]. split; [done|]. split; [done|]. intros HH.
  assert (EM : mem s !! Z.to_nat (tx + Z.of_nat n) = mem0 !! Z.to_nat (tx + Z.of_nat n)).
  { rewrite E4. destruct HH as [HC|[HD|HD]].
    - assert (E0 : length (data_reads l) = 0%nat) by (specialize (M3 HC); lia).
      by apply nil_length_inv in E0 as ->.
    - rewrite list_lookup_inserts_lt; [done|lia].
    - rewrite list_lookup_inserts_ge; [done|rewrite length_fmap, E3; lia]. }
  by rewrite <- EM, Hb.
Qed.

Lemma write_ok n m s : moved n m s -> Z.of_nat n < X -> restart (cf s) = R ->
  exists s', (reg ← next_command; i2c_reg_write32 DW_IC_DATA_CMD reg;; count_write) s = Some ((), s') /\
    moved (S n) m s' /\ cf s' = cf s.
Proof.
  intros Mv Hn HR.
  assert (Next : exists reg s1, next_command s = Some (reg, s1) /\ cf s1 = cf s /\ log s1 = log s /\ mem s1 = mem s /\
    xa s1 = Xact (tx + Z.min (Z.of_nat (S n)) txl) (rx + Z.of_nat m) X txl rxl (Z.of_nat n) (Z.of_nat m) stp /\
    (causal \/ disjoint_buffers -> reg = command_word mem0 tx txl X stp R (Z.of_nat n))).
  { pose proof (mv_xa _ _ _ Mv) as EX. unfold next_command. rewrite gets_bind, EX. simpl. unfold command_word.
    destruct (Z.of_nat n <? txl) eqn:E; zbool.
    - destruct (fetch_ok n m s Mv E) as (s1 & b & E1 & C1 & L1 & M1 & X1 & B1).
      erewrite bind_eq by (rewrite (bind_eq _ _ _ _ _ E1); reflexivity). rewrite gets_bind.
      eexists _, s1. split; [reflexivity|]. split; [done|]. split; [done|]. split; [done|].
      split; [rewrite X1; f_equal; lia|]. intros HH. rewrite C1, HR, (B1 HH), Z.lor_0_r. done.
    - destruct ((Z.of_nat n =? txl) && negb (txl =? 0)).
      + erewrite bind_eq by reflexivity. rewrite gets_bind. eexists _, s. split; [reflexivity|]. split; [done|].
        split; [done|]. split; [done|]. split; [rewrite EX; f_equal; lia|]. intros _. rewrite HR. done.
      + erewrite bind_eq by reflexivity. rewrite gets_bind. eexists _, s. split; [reflexivity|]. split; [done|].
        split; [done|]. split; [done|]. split; [rewrite EX; f_equal; lia|]. intros _. rewrite HR. done. }
  destruct Next as (reg & s1 & E1 & C1 & L1 & M1 & X1 & B1). rewrite (bind_eq _ _ _ _ _ E1).
  destruct Mv as [(l & F1 & F2 & F3 & F4 & F5) G1 G2 G3 G4].
  unfold i2c_reg_write32, count_write, upd_xa, modify, mbind, M_bind. simpl. rewrite X1. simpl.
  eexists. split; [reflexivity|]. split; [|done].
  assert (D : data_writes (l ++ [Wr DW_IC_DATA_CMD (u32 reg)]) = data_writes l ++ [u32 reg] /\
    data_reads (l ++ [Wr DW_IC_DATA_CMD (u32 reg)]) = data_reads l).
  { unfold data_writes, data_reads. rewrite !omap_app. simpl. by rewrite app_nil_r. }
  destruct D as [D1 D2]. constructor; simpl; [|lia|done|intros HC; specialize (G3 HC); lia|].
  - exists (l ++ [Wr DW_IC_DATA_CMD (u32 reg)]). rewrite D1, D2, L1, F1, app_assoc, length_app. simpl.
    split; [done|]. split; [lia|]. split; [done|]. split; [congruence|]. intros HH.
    rewrite (F5 HH), (B1 HH), commands_S. f_equal. f_equal. apply u32_id. by apply command_ok.
  - f_equal. rewrite u32_id; lia.
Qed.

(** ** Other registers *)

Lemma rd_ok off n m s : off <> DW_IC_DATA_CMD -> moved n m s ->
  exists s', i2c_reg_read32 device off s = Some (u32 (device (log s) off), s') /\ moved n m s' /\ cf s' = cf s.
Proof.
  intros H Mv. destruct (Quiet_read device off H s) as (a & s' & E & Q).
  exists s'. unfold i2c_reg_read32 in *. injection E as <- <-. split; [done|]. split; [by apply (moved_quiet _ _ s)|done].
Qed.

Lemma wr_ok off v n m s : off <> DW_IC_DATA_CMD -> moved n m s ->
  exists s', i2c_reg_write32 off v s = Some ((), s') /\ moved n m s' /\ cf s' = cf s.
Proof.
  intros H Mv. destruct (Quiet_write off v H s) as (a & s' & E & Q).
  exists s'. unfold i2c_reg_write32 in *. injection E as <- <-. split; [done|]. split; [by apply (moved_quiet _ _ s)|done].
Qed.

Lemma mask_off_ok b n m s : moved n m s ->
  exists s', mask_off device b s = Some ((), s') /\ moved n m s' /\ cf s' = cf s.
Proof.
  intros Mv. destruct (rd_ok DW_IC_INTR_MASK n m s ltac:(done) Mv) as (s1 & E1 & M1 & C1).
  unfold mask_off. rewrite (bind_eq _ _ _ _ _ E1).
  destruct (wr_ok DW_IC_INTR_MASK (Z.ldiff (u32 (device (log s) DW_IC_INTR_MASK)) b) n m s1 ltac:(done) M1)
    as (s2 & E2 & M2 & C2). exists s2. split; [done|]. split; [done|congruence].
Qed.

Lemma cf_ok f n m s : moved n m s ->
  exists s', upd_cf f s = Some ((), s') /\ moved n m s' /\ cf s' = f (cf s).
Proof.
  intros [M0 M1 M2 M3 M4]. eexists. split; [reflexivity|]. split; [by constructor|done].
Qed.

(** What a read of the level allows to store. *)
Lemma level_ok n m s : moved n m s -> 0 <= device (log s) DW_IC_RXFLR < 65536 /\
  (causal -> Z.of_nat m + device (log s) DW_IC_RXFLR <= Z.of_nat n - Z.min (Z.of_nat n) txl).
Proof.
  intros [(l & E1 & E2 & E3 & E4 & E5) M1 M2 M3 M4]. split; [apply levels|]. intros HC.
  destruct (HC l) as [H _]. rewrite <- E1 in H. unfold issued, fetched in H.
  rewrite (E5 (or_introl HC)), issued_commands, E3 in H. specialize (M3 HC). lia.
Qed.

Lemma rfne_ok n m s : moved n m s ->
  has (u32 (device (log s) DW_IC_STATUS)) DW_IC_STATUS_RFNE = true ->
  causal -> Z.of_nat (S m) <= Z.of_nat n - Z.min (Z.of_nat n) txl.
Proof.
  intros [(l & E1 & E2 & E3 & E4 & E5) M1 M2 M3 M4] HS HC. destruct (HC l) as [_ H]. rewrite <- E1 in H.
  specialize (H HS). unfold issued, fetched in H. rewrite (E5 (or_introl HC)), issued_commands, E3 in H. lia.
Qed.

(** ** The parts of the handler *)

Lemma process_tx_ok k : forall n m s, moved n m s -> restart (cf s) = R ->
  exists n' s', process_tx device k s = Some ((), s') /\ moved n' m s' /\ cf s' = cf s.
Proof.
  induction k as [|k IH]; intros n m s Mv HR; [exists n, s; done|]. simpl.
  rewrite gets_bind, (mv_xa _ _ _ Mv). simpl. destruct (X <=? Z.of_nat n) eqn:EX; zbool.
  - assert (Off : exists b s1, (if negb (stp =? 0) || negb (rxl =? 0) then mret true
        else v ← i2c_reg_read32 device DW_IC_STATUS; mret (has v DW_IC_STATUS_TFE)) s = Some (b, s1) /\
      moved n m s1 /\ cf s1 = cf s).
    { destruct (_ || _); [by exists true, s|].
      destruct (rd_ok DW_IC_STATUS n m s ltac:(done) Mv) as (s1 & E1 & M1 & C1). eexists _, s1.
      rewrite (bind_eq _ _ _ _ _ E1). split; [reflexivity|done]. }
    destruct Off as (b & s1 & E1 & M1 & C1). rewrite (bind_eq _ _ _ _ _ E1). destruct b; [|by exists n, s1].
    destruct (mask_off_ok DW_IC_INTR_TX_EMPTY n m s1 M1) as (s2 & E2 & M2 & C2).
    exists n, s2. split; [done|]. split; [done|congruence].
  - destruct (rd_ok DW_IC_STATUS n m s ltac:(done) Mv) as (s1 & E1 & M1 & C1).
    unfold xmit_FIFO_is_full. erewrite bind_eq by (rewrite (bind_eq _ _ _ _ _ E1); reflexivity).
    destruct (_ =? 0); [by exists n, s1|].
    destruct (write_ok n m s1 M1 EX) as (s2 & E2 & M2 & C2); [congruence|].
    destruct (IH (S n) m s2 M2) as (n' & s3 & E3 & M3 & C3); [congruence|].
    exists n', s3. split; [|split; [done|congruence]]. rewrite <- E3. clear - E2.
    unfold mbind, M_bind in *. destruct (next_command s1) as [[reg s4]|]; [|done].
    destruct (i2c_reg_write32 DW_IC_DATA_CMD reg s4) as [[u s5]|]; [|done]. by rewrite E2.
Qed.

Lemma process_rx_ok n m s : moved n m s ->
  exists m' s', process_rx device s = Some ((), s') /\ moved n m' s' /\ restart (cf s') = restart (cf s).
Proof.
  intros Mv. unfold process_rx. rewrite gets_bind, (mv_xa _ _ _ Mv). simpl.
  pose proof (mv_m _ _ _ Mv) as Hm. destruct (level_ok n m s Mv) as [HL HC].
  destruct (Z.of_nat m <? rxl) eqn:EM; zbool.
  2: { destruct (mask_off_ok DW_IC_INTR_RX_FULL n m s Mv) as (s1 & E1 & M1 & C1). exists m, s1.
       split; [done|]. split; [done|congruence]. }
  destruct (rd_ok DW_IC_RXFLR n m s ltac:(done) Mv) as (s1 & E1 & M1 & C1). rewrite (bind_eq _ _ _ _ _ E1).
  rewrite (u32_id (device (log s) DW_IC_RXFLR)), u32_id, u32_id by (unfold X in lengths; lia).
  destruct (rxl <? _) eqn:EL; zbool.
  - unfold set_error. destruct (cf_ok (fun c => set_status (Z.lor (status c) I2C_STATUS_ERROR) (abort_source c) c) n m s1 M1)
      as (s2 & E2 & M2 & C2). rewrite (bind_eq _ _ _ _ _ E2).
    destruct (mask_off_ok DW_IC_INTR_RX_FULL n m s2 M2) as (s3 & E3 & M3 & C3). rewrite (bind_eq _ _ _ _ _ E3).
    destruct (read_bytes_ok (Z.to_nat (rxl - Z.of_nat m)) n m s3 M3) as (s4 & E4 & M4 & C4);
      [lia|intros H; specialize (HC H); lia|].
    eexists _, s4. split; [done|]. split; [done|]. rewrite C4, C3, C2, C1. done.
  - destruct (read_bytes_ok (Z.to_nat (device (log s) DW_IC_RXFLR)) n m s1 M1) as (s4 & E4 & M4 & C4);
      [lia|intros H; specialize (HC H); lia|].
    eexists _, s4. split; [done|]. split; [done|congruence].
Qed.

(** The error bits are not lost by adding DONE. *)
Hypothesis errors_differ : forall e,
  e = I2C_STATUS_ERROR \/ e = I2C_STATUS_ARBL \/ e = I2C_STATUS_ADDR_NACK \/ e = I2C_STATUS_DATA_NACK \/
  e = I2C_STATUS_ABORT -> Z.lor I2C_STATUS_DONE e <> I2C_STATUS_DONE.

(** The transaction is over: DONE alone means that every byte came. *)
Definition finished (m : nat) (s : st) : Prop := status (cf s) = I2C_STATUS_DONE -> Z.of_nat m = rxl.

Lemma process_abort_ok n m s : moved n m s ->
  exists s', process_abort device s = Some ((), s') /\ moved n m s' /\ finished m s'.
Proof.
  intros Mv. unfold process_abort.
  destruct (rd_ok DW_IC_TX_ABRT_SOURCE n m s ltac:(done) Mv) as (s1 & E1 & M1 & C1). rewrite (bind_eq _ _ _ _ _ E1).
  set (a := u32 _). destruct (rd_ok DW_IC_CLR_TX_ABRT n m s1 ltac:(done) M1) as (s2 & E2 & M2 & C2).
  rewrite (bind_eq _ _ _ _ _ E2). cbv zeta. set (e := if has a DW_IC_TX_ARBT_LOST then _ else _).
  destruct (cf_ok (set_status (Z.lor I2C_STATUS_DONE e) a) n m s2 M2) as (s3 & E3 & M3 & C3).
  rewrite (bind_eq _ _ _ _ _ E3).
  destruct (wr_ok DW_IC_INTR_MASK 0 n m s3 ltac:(done) M3) as (s4 & E4 & M4 & C4).
  exists s4. split; [done|]. split; [done|]. intros HD. rewrite C4, C3 in HD. simpl in HD.
  exfalso. apply (errors_differ e); [|done]. unfold e. repeat case_match; auto 6.
Qed.

Lemma set_done_ok n m s : moved n m s ->
  exists s', (set_done;; i2c_reg_write32 DW_IC_INTR_MASK 0) s = Some ((), s') /\ moved n m s' /\
    status (cf s') = Z.lor (status (cf s)) I2C_STATUS_DONE.
Proof.
  intros Mv. unfold set_done.
  destruct (cf_ok (fun c => set_status (Z.lor (status c) I2C_STATUS_DONE) (abort_source c) c) n m s Mv) as (s1 & E1 & M1 & C1).
  rewrite (bind_eq _ _ _ _ _ E1). destruct (wr_ok DW_IC_INTR_MASK 0 n m s1 ltac:(done) M1) as (s2 & E2 & M2 & C2).
  exists s2. split; [done|]. split; [done|]. by rewrite C2, C1.
Qed.

Lemma process_stop_ok n m s : moved n m s ->
  exists m' s', process_stop device s = Some ((), s') /\ moved n m' s' /\ finished m' s'.
Proof.
  intros Mv. unfold process_stop.
  destruct (rd_ok DW_IC_CLR_STOP_DET n m s ltac:(done) Mv) as (s1 & E1 & M1 & C1). rewrite (bind_eq _ _ _ _ _ E1).
  rewrite gets_bind, (mv_xa _ _ _ M1). simpl. pose proof (mv_m _ _ _ M1) as Hm. destruct (level_ok n m s1 M1) as [HL HC].
  assert (Part : exists m' s2, (if Z.of_nat m <? rxl then
      numbers ← i2c_reg_read32 device DW_IC_RXFLR;
      if negb (u32 (Z.of_nat m + numbers) =? rxl) then set_error false else read_bytes device (Z.to_nat numbers)
    else mret ()) s1 = Some ((), s2) /\ moved n m' s2 /\
    (Z.of_nat m' = rxl \/ status (cf s2) = I2C_STATUS_ERROR)).
  { destruct (Z.of_nat m <? rxl) eqn:EM; zbool; [|exists m, s1; split; [done|split; [done|left; lia]]].
    destruct (rd_ok DW_IC_RXFLR n m s1 ltac:(done) M1) as (s2 & E2 & M2 & C2). rewrite (bind_eq _ _ _ _ _ E2).
    rewrite (u32_id (device (log s1) DW_IC_RXFLR)), u32_id by (unfold X in lengths; lia).
    destruct (negb _) eqn:EN; zbool.
    - destruct (cf_ok (fun c => set_status I2C_STATUS_ERROR (abort_source c) c) n m s2 M2) as (s3 & E3 & M3 & C3).
      exists m, s3. split; [done|]. split; [done|]. right. by rewrite C3.
    - destruct (read_bytes_ok (Z.to_nat (device (log s1) DW_IC_RXFLR)) n m s2 M2) as (s3 & E3 & M3 & C3);
        [lia|intros H; specialize (HC H); lia|].
      eexists _, s3. split; [done|]. split; [done|]. left. lia. }
  destruct Part as (m' & s2 & E2 & M2 & P2). rewrite (bind_eq _ _ _ _ _ E2).
  destruct (set_done_ok n m' s2 M2) as (s3 & E3 & M3 & S3). exists m', s3. split; [done|]. split; [done|].
  intros HD. destruct P2 as [|P2]; [done|]. rewrite S3, P2, Z.lor_comm in HD. exfalso.
  apply (errors_differ I2C_STATUS_ERROR); auto.
Qed.

Lemma drain_ok k : forall n m s, moved n m s -> Z.of_nat (m + k) <= rxl ->
  exists m' s', drain_rx device k s = Some ((), s') /\ moved n m' s' /\ cf s' = cf s.
Proof.
  induction k as [|k IH]; intros n m s Mv Hk; [exists m, s; done|]. simpl.
  destruct (rd_ok DW_IC_STATUS n m s ltac:(done) Mv) as (s1 & E1 & M1 & C1). rewrite (bind_eq _ _ _ _ _ E1).
  destruct (has _ DW_IC_STATUS_RFNE) eqn:HS; [|by exists m, s1].
  destruct (read_byte n m s1 M1) as (s2 & E2 & M2 & C2); [lia|by apply (rfne_ok n m s)|].
  rewrite (seq_eq _ _ _ _ _ _ E2). destruct (IH n (S m) s2 M2) as (m' & s3 & E3 & M3 & C3); [lia|].
  exists m', s3. split; [done|]. split; [done|congruence].
Qed.

Lemma process_intr_ok n m s : moved n m s -> restart (cf s) = R ->
  exists b n' m' s', dwc_i2c_process_intr device s = Some (b, s') /\ moved n' m' s' /\
    (if (b : bool) then finished m' s' else restart (cf s') = R).
Proof.
  intros Mv HR. unfold dwc_i2c_process_intr.
  destruct (rd_ok DW_IC_INTR_STAT n m s ltac:(done) Mv) as (s1 & E1 & M1 & C1). rewrite (bind_eq _ _ _ _ _ E1).
  set (stat := u32 _). destruct (has stat DW_IC_INTR_TX_ABRT).
  { destruct (process_abort_ok n m s1 M1) as (s2 & E2 & M2 & F2). exists true, n, m, s2.
    by rewrite (bind_eq _ _ _ _ _ E2). }
  destruct (has stat DW_IC_INTR_STOP_DET).
  { destruct (process_stop_ok n m s1 M1) as (m' & s2 & E2 & M2 & F2). exists true, n, m', s2.
    by rewrite (bind_eq _ _ _ _ _ E2). }
  assert (Rx : exists m1 s2, (if has stat DW_IC_INTR_RX_FULL then process_rx device else mret ()) s1 = Some ((), s2) /\
    moved n m1 s2 /\ restart (cf s2) = R).
  { destruct (has _ _); [|exists m, s1; split; [done|split; [done|congruence]]].
    destruct (process_rx_ok n m s1 M1) as (m1 & s2 & E2 & M2 & R2). exists m1, s2. split; [done|]. split; [done|congruence]. }
  destruct Rx as (m1 & s2 & E2 & M2 & R2). rewrite (bind_eq _ _ _ _ _ E2), gets_bind.
  assert (Tx : exists n1 s3, (if has stat DW_IC_INTR_TX_EMPTY then process_tx device (Z.to_nat (fifo_depth (cf s2)))
    else mret ()) s2 = Some ((), s3) /\ moved n1 m1 s3 /\ restart (cf s3) = R).
  { destruct (has stat DW_IC_INTR_TX_EMPTY); [|by exists n, s2].
    destruct (process_tx_ok (Z.to_nat (fifo_depth (cf s2))) n m1 s2 M2 R2) as (n1 & s3 & E3 & M3 & C3).
    exists n1, s3. split; [done|]. split; [done|congruence]. }
  destruct Tx as (n1 & s3 & E3 & M3 & R3). rewrite (bind_eq _ _ _ _ _ E3), gets_bind, (mv_xa _ _ _ M3). simpl.
  destruct (stp =? 0); [|by exists false, n1, m1, s3]. pose proof (mv_m _ _ _ M3).
  destruct (drain_ok (Z.to_nat (rxl - Z.of_nat m1)) n1 m1 s3 M3) as (m2 & s4 & E4 & M4 & C4); [lia|].
  rewrite (bind_eq _ _ _ _ _ E4), gets_bind, (mv_xa _ _ _ M4). simpl. rewrite <- C4 in R3.
  destruct (_ && _) eqn:EC; [|by exists false, n1, m2, s4]. zbool.
  destruct (rd_ok DW_IC_STATUS n1 m2 s4 ltac:(done) M4) as (s5 & E5 & M5 & C5). rewrite (bind_eq _ _ _ _ _ E5).
  destruct (has _ DW_IC_STATUS_TFE); [|exists false, n1, m2, s5; split; [done|split; [done|congruence]]].
  destruct (set_done_ok n1 m2 s5 M5) as (s6 & E6 & M6 & S6). exists true, n1, m2, s6.
  rewrite (seq_eq _ _ _ _ _ _ E6). split; [done|]. split; [done|]. intros _. pose proof (mv_m _ _ _ M6). lia.
Qed.

(** ** The wait, and all of it *)

Lemma i2c_wait_ok irqs : forall n m s, moved n m s -> restart (cf s) = R ->
  exists ret n' m' s', dwc_i2c_wait_complete device irqs s = Some (ret, s') /\ moved n' m' s' /\
    (ret = I2C_STATUS_DONE -> Z.of_nat m' = rxl).
Proof.
  induction irqs as [|k IH]; intros n m s Mv HR; simpl.
  - destruct (rd_ok DW_IC_STATUS n m s ltac:(done) Mv) as (s1 & E1 & M1 & C1). rewrite (bind_eq _ _ _ _ _ E1).
    destruct (quiet_step _ n m s1 (Quiet_reset device) M1) as (a & s2 & E2 & M2 & _). rewrite (bind_eq _ _ _ _ _ E2).
    eexists _, n, m, s2. split; [reflexivity|]. split; [done|]. intros HD. exfalso.
    apply (errors_differ I2C_STATUS_ERROR); auto.
  - destruct (process_intr_ok n m s Mv HR) as (b & n1 & m1 & s1 & E1 & M1 & P1). rewrite (bind_eq _ _ _ _ _ E1).
    destruct b; [|by apply (IH n1 m1 s1)]. rewrite gets_bind.
    assert (Rs : exists s2, (if has (status (cf s1)) (Z.lor I2C_STATUS_ARBL I2C_STATUS_ERROR)
        then dwc_i2c_reset device else mret ()) s1 = Some ((), s2) /\ moved n1 m1 s2 /\
      status (cf s2) = status (cf s1)).
    { destruct (has _ _); [|by exists s1].
      destruct (quiet_step _ n1 m1 s1 (Quiet_reset device) M1) as (a & s2 & E2 & M2 & Q2). exists s2.
      destruct a. split; [done|]. split; [done|]. apply Q2. }
    destruct Rs as (s2 & E2 & M2 & S2). rewrite (bind_eq _ _ _ _ _ E2).
    destruct (wr_ok DW_IC_INTR_MASK 0 n1 m1 s2 ltac:(done) M2) as (s3 & E3 & M3 & C3).
    rewrite (bind_eq _ _ _ _ _ E3), gets_bind. eexists _, n1, m1, s3. split; [reflexivity|]. split; [done|].
    rewrite C3, S2. apply P1.
Qed.

Lemma bus_active_ok s : moved 0 0 s -> R = (if active_no_stop (cf s) =? 0 then 0 else 1) ->
  exists ok s', dwc_i2c_bus_active device s = Some (ok, s') /\ moved 0 0 s' /\ (ok = true -> restart (cf s') = R).
Proof.
  intros Mv HR. unfold dwc_i2c_bus_active. rewrite gets_bind. destruct (active_no_stop (cf s) =? 0); simpl.
  - destruct (cf_ok (set_flags (active_no_stop (cf s)) 0) 0 0 s Mv) as (s1 & E1 & M1 & C1).
    rewrite (bind_eq _ _ _ _ _ E1).
    destruct (quiet_step _ 0 0 s1 (Quiet_fresh_bus device) M1) as (ok & s2 & E2 & M2 & Q2).
    exists ok, s2. split; [done|]. split; [done|]. intros _. destruct Q2 as (_ & _ & _ & _ & Q2).
    rewrite HR. apply Q2. by rewrite C1.
  - destruct (_ || _).
    + destruct (quiet_step _ 0 0 s (Quiet_reset device) Mv) as (a & s1 & E1 & M1 & _).
      exists false, s1. by rewrite (bind_eq _ _ _ _ _ E1).
    + destruct (cf_ok (set_flags (active_no_stop (cf s)) 1) 0 0 s Mv) as (s1 & E1 & M1 & C1).
      rewrite (bind_eq _ _ _ _ _ E1).
      destruct (wr_ok DW_IC_INTR_MASK 0 0 0 s1 ltac:(done) M1) as (s2 & E2 & M2 & C2).
      rewrite (bind_eq _ _ _ _ _ E2). exists true, s2. split; [done|]. split; [done|]. intros _. rewrite C2, C1, HR. done.
Qed.

Lemma transact_ok irqs s : moved 0 0 s -> R = (if active_no_stop (cf s) =? 0 then 0 else 1) ->
  exists ret n m s', transact device irqs s = Some (ret, s') /\ moved n m s' /\
    (ret = I2C_STATUS_DONE -> I2C_STATUS_BUSY <> I2C_STATUS_DONE -> Z.of_nat m = rxl).
Proof.
  intros Mv HR. unfold transact. destruct (bus_active_ok s Mv HR) as (ok & s1 & E1 & M1 & R1).
  rewrite (bind_eq _ _ _ _ _ E1). destruct ok; simpl; [|exists I2C_STATUS_BUSY, 0%nat, 0%nat, s1; done].
  destruct (wr_ok DW_IC_RX_TL 0 0 0 s1 ltac:(done) M1) as (s2 & E2 & M2 & C2). rewrite (bind_eq _ _ _ _ _ E2).
  destruct (rd_ok DW_IC_CLR_INTR 0 0 s2 ltac:(done) M2) as (s3 & E3 & M3 & C3). rewrite (bind_eq _ _ _ _ _ E3).
  destruct (wr_ok DW_IC_INTR_MASK DW_IC_INTR_DEFAULT_MASK 0 0 s3 ltac:(done) M3) as (s4 & E4 & M4 & C4).
  rewrite (bind_eq _ _ _ _ _ E4).
  destruct (i2c_wait_ok irqs 0 0 s4 M4) as (ret & n & m & s5 & E5 & M5 & P5); [rewrite C4, C3, C2; auto|].
  rewrite (bind_eq _ _ _ _ _ E5).
  destruct (wr_ok DW_IC_INTR_MASK 0 n m s5 ltac:(done) M5) as (s6 & E6 & M6 & C6).
  rewrite (bind_eq _ _ _ _ _ E6), gets_bind, (mv_xa _ _ _ M6). simpl.
  edestruct (cf_ok (fun c => set_flags (if (ret =? I2C_STATUS_DONE) && (stp =? 0) then 1 else 0) (restart c) c) n m s6 M6)
    as (s7 & E7 & M7 & C7). rewrite (bind_eq _ _ _ _ _ E7).
  assert (End : exists s8, (if negb (stp =? 0) then dwc_i2c_enable device DW_IC_ENABLE_STATUS_DISABLE;; mret ()
    else mret ()) s7 = Some ((), s8) /\ moved n m s8).
  { destruct (negb _); [|by exists s7].
    destruct (quiet_step _ n m s7 (Quiet_enable device DW_IC_ENABLE_STATUS_DISABLE) M7) as (a & s8 & E8 & M8 & _).
    exists s8. by rewrite (bind_eq _ _ _ _ _ E8). }
  destruct End as (s8 & E8 & M8). rewrite (bind_eq _ _ _ _ _ E8). exists ret, n, m, s8. auto.
Qed.
End transaction.

(** ** The theorems *)
Section theorems.
Context {statuses : I2cStatus} (device : list event -> Z -> Z).

(** DONE is not part of an error. *)
Definition distinct_statuses : Prop :=
  I2C_STATUS_BUSY <> I2C_STATUS_DONE /\
  forall e, e = I2C_STATUS_ERROR \/ e = I2C_STATUS_ARBL \/ e = I2C_STATUS_ADDR_NACK \/ e = I2C_STATUS_DATA_NACK \/
    e = I2C_STATUS_ABORT -> Z.lor I2C_STATUS_DONE e <> I2C_STATUS_DONE.

(** Both buffers lie in the memory, and the level register of the device
    counts the entries of a FIFO. *)
Record i2c_request (tx txl rx rxl : Z) (s : st) : Prop := {
  ir_lengths : 0 <= txl /\ 0 <= rxl /\ txl + rxl < 4294901760;
  ir_pointers : 0 <= tx /\ 0 <= rx;
  ir_tx : tx + txl <= Z.of_nat (length (mem s));
  ir_rx : rx + rxl <= Z.of_nat (length (mem s));
  ir_bytes : Forall (fun b => 0 <= b < 256) (mem s);
  ir_levels : forall l, 0 <= device l DW_IC_RXFLR < 65536;
  ir_status : distinct_statuses
}.

(** The first command carries a restart if the last transaction kept the bus. *)
Definition first_restart (s : st) : Z := if active_no_stop (cf s) =? 0 then 0 else 1.

Lemma sendrecv_ok irqs tx txl rx rxl stp s : i2c_request tx txl rx rxl s ->
  exists ret n m s', dwc_i2c_sendrecv device irqs tx txl rx rxl stp s = Some (ret, s') /\
    moved device (log s) (mem s) tx txl rx rxl stp (first_restart s) n m s' /\
    (ret = I2C_STATUS_DONE -> Z.of_nat m = rxl).
Proof.
  intros [Q1 Q2 Q3 Q4 Q5 Q6 [Q7 Q8]]. unfold dwc_i2c_sendrecv.
  rewrite (proj2 (Z.ltb_ge (4294967295 - rxl) txl)), u32_id by lia.
  set (s1 := St (log s) (Xact tx rx (txl + rxl) txl rxl 0 0 stp) (cf s) (mem s)).
  assert (Mv : forall c, moved device (log s) (mem s) tx txl rx rxl stp (first_restart s) 0 0
    (St (log s) (Xact tx rx (txl + rxl) txl rxl 0 0 stp) c (mem s))).
  { intros c. constructor; simpl; try lia.
    - exists []. rewrite app_nil_r. done.
    - f_equal; lia. }
  unfold upd_xa at 1. rewrite (bind_eq _ _ _ () s1) by done. unfold clear_status.
  destruct (cf_ok device (log s) (mem s) tx txl rx rxl stp (first_restart s)
    (fun c => set_status 0 (abort_source c) c) 0 0 s1 (Mv (cf s))) as (s2 & E2 & M2 & C2).
  rewrite (bind_eq _ _ _ _ _ E2). destruct (txl + rxl <=? 0) eqn:EX; zbool.
  - exists I2C_STATUS_DONE, 0%nat, 0%nat, s2. split; [done|]. split; [done|]. intros _. lia.
  - destruct (transact_ok device (log s) (mem s) tx txl rx rxl stp (first_restart s)) with (irqs := irqs) (s := s2)
      as (ret & n & m & s3 & E3 & M3 & P3); try done.
    + rewrite C2. done.
    + exists ret, n, m, s3. auto.
Qed.

(** C7 (an I2C transaction stays in its buffers) Whatever the registers of
    the controller read, except that the level of the receive FIFO (RXFLR)
    never reads 65536 or more ([ir_levels]: a FIFO has 256 entries at most),
    for buffers that lie in the memory and lengths that fit, dwc_i2c_sendrecv
    returns; it changes memory only in the receive buffer, writes at most one
    command per byte, and DONE without an error bit means that every byte of
    the receive buffer was read from the data register, one after another.
    With a level of 2^32 - 1 the 32-bit sum that is compared with the length
    wraps, and the loop runs past the buffer ([level_wraps]). *)
Theorem i2c_sendrecv_safe irqs tx txl rx rxl stp s : i2c_request tx txl rx rxl s ->
  exists ret s' l, dwc_i2c_sendrecv device irqs tx txl rx rxl stp s = Some (ret, s') /\
    log s' = log s ++ l /\ length (mem s') = length (mem s) /\
    (forall i, ~ (rx <= Z.of_nat i < rx + rxl) -> mem s' !! i = mem s !! i) /\
    (length (data_writes l) <= Z.to_nat (txl + rxl))%nat /\
    (ret = I2C_STATUS_DONE -> take (Z.to_nat rxl) (drop (Z.to_nat rx) (mem s')) = (fun v => Z.land v 255) <$> data_reads l).
Proof.
  intros Q. destruct (sendrecv_ok irqs tx txl rx rxl stp s Q) as (ret & n & m & s' & E & Mv & P).
  destruct Mv as [(l & L1 & L2 & L3 & L4 & L5) M1 M2 M3 M4]. destruct Q as [Q1 Q2 Q3 Q4 Q5 Q6 Q7].
  exists ret, s', l. split; [done|]. split; [done|]. split; [by rewrite L4, length_inserts|].
  split.
  { intros i Hi. rewrite L4. destruct (decide (Z.of_nat i < rx)).
    - apply list_lookup_inserts_lt. lia.
    - apply list_lookup_inserts_ge. rewrite length_fmap, L3. lia. }
  split; [lia|]. intros HD. specialize (P HD). apply list_eq. intros i.
  destruct (decide (i < m)%nat) as [Hi|Hi].
  - rewrite lookup_take_lt, lookup_drop, L4 by lia. rewrite list_lookup_inserts;
      [|rewrite length_fmap, L3; lia|lia]. f_equal. lia.
  - rewrite lookup_take_ge by lia. symmetry. apply lookup_ge_None. rewrite length_fmap, L3. lia.
Qed.

(** C14 (the commands of an I2C transaction) If the buffers are apart, or the
    device returns nothing that was not asked for, so that the buffers may be
    the same, the commands are those of the reference list, in order; a DONE
    transaction that received anything wrote all of them. *)
Theorem i2c_sendrecv_commands irqs tx txl rx rxl stp s : i2c_request tx txl rx rxl s ->
  causal device (log s) \/ disjoint_buffers tx txl rx rxl ->
  exists ret s' l n, dwc_i2c_sendrecv device irqs tx txl rx rxl stp s = Some (ret, s') /\
    log s' = log s ++ l /\ (n <= Z.to_nat (txl + rxl))%nat /\
    data_writes l = commands (mem s) tx txl (txl + rxl) stp (first_restart s) n /\
    (causal device (log s) -> ret = I2C_STATUS_DONE -> 0 < rxl -> n = Z.to_nat (txl + rxl)).
Proof.
  intros Q HC. destruct (sendrecv_ok irqs tx txl rx rxl stp s Q) as (ret & n & m & s' & E & Mv & P).
  destruct Mv as [(l & L1 & L2 & L3 & L4 & L5) M1 M2 M3 M4]. destruct Q as [Q1 Q2 Q3 Q4 Q5 Q6 Q7].
  exists ret, s', l, n. split; [done|]. split; [done|]. split; [lia|]. split; [by apply L5|].
  intros Hc HD Hr. specialize (P HD). specialize (M3 Hc). lia.
Qed.
End theorems.

(** ** An example: two bytes to send, three to receive, in one buffer *)
#[export] Instance example_statuses : I2cStatus := {|
  I2C_STATUS_DONE := 1; I2C_STATUS_ERROR := 2; I2C_STATUS_ADDR_NACK := 4; I2C_STATUS_DATA_NACK := 8;
  I2C_STATUS_ARBL := 16; I2C_STATUS_BUSY := 32; I2C_STATUS_ABORT := 64
|}.

(** A controller that executes commands at once: the bytes 101, 102, ... are
    received; the stop comes once three bytes were taken. *)
Definition example_device (l : list event) (off : Z) : Z :=
  let waiting := Z.of_nat (issued l - fetched l) in
  if off =? DW_IC_INTR_STAT then if 3 <=? Z.of_nat (fetched l) then DW_IC_INTR_STOP_DET else 20
  else if off =? DW_IC_STATUS then DW_IC_STATUS_TFNF + (if waiting =? 0 then 0 else DW_IC_STATUS_RFNE)
  else if off =? DW_IC_RXFLR then Z.min waiting 256
  else if off =? DW_IC_DATA_CMD then 101 + Z.of_nat (fetched l)
  else if off =? DW_IC_ENABLE_STATUS then
    match last l with Some (Wr _ v) => Z.land v 1 | _ => 0 end
  else 0.

Definition example_conf : conf :=
  Conf 80 I2C_ADDRFMT_7BIT 0 I2C_ADDRFMT_7BIT 0 0 0 0 100000 99 4 200000 0 0 0 0 0 (Scl 600 1300 300) (Scl 4700 4700 100).
Definition example_i2c : st := St [] (Xact 0 0 0 0 0 0 0 0) example_conf [7; 9; 0; 0].

Lemma example_distinct : distinct_statuses.
Proof. split; [done|]. intros e [->|[->|[->|[->| ->]]]]; done. Qed.

Lemma example_i2c_request : i2c_request example_device 0 2 0 3 example_i2c.
Proof.
  constructor; try (simpl; lia).
  - simpl. repeat (constructor; [lia|]). constructor.
  - intros l. unfold example_device. simpl. lia.
  - apply example_distinct.
Qed.

Lemma example_causal : causal example_device [].
Proof.
  intros l. unfold example_device. simpl. split; [lia|].
  destruct (Z.of_nat (issued l - fetched l) =? 0) eqn:E; zbool; [done|]. intros _. lia.
Qed.

Lemma i2c_sendrecv_safe_witness : exists s', dwc_i2c_sendrecv example_device 9 0 2 0 3 1 example_i2c =
  Some (I2C_STATUS_DONE, s') /\ take 3 (mem s') = [101; 102; 103].
Proof.
  destruct (i2c_sendrecv_safe example_device 9 0 2 0 3 1 example_i2c example_i2c_request)
    as (ret & s' & l & E & EL & _ & _ & _ & P).
  destruct (dwc_i2c_sendrecv example_device 9 0 2 0 3 1 example_i2c) as [[ret' s'']|] eqn:E'; [|discriminate E].
  injection E as -> ->. vm_compute in E'. injection E' as <- <-. eexists. split; [reflexivity|].
  specialize (P eq_refl). simpl in P. reflexivity.
Defined.

Lemma i2c_sendrecv_commands_witness : exists s' l, dwc_i2c_sendrecv example_device 9 0 2 0 3 1 example_i2c =
  Some (I2C_STATUS_DONE, s') /\ data_writes l = [7; 9; 1280; 256; 768].
Proof.
  destruct (i2c_sendrecv_commands example_device 9 0 2 0 3 1 example_i2c example_i2c_request (or_introl example_causal))
    as (ret & s' & l & n & E & EL & Hn & W & A).
  assert (ret = I2C_STATUS_DONE) as ->.
  { assert (E1 : fst <$> dwc_i2c_sendrecv example_device 9 0 2 0 3 1 example_i2c = Some 1) by (vm_compute; reflexivity).
    rewrite E in E1. injection E1 as ->. reflexivity. }
  exists s', l. split; [exact E|]. rewrite W, (A example_causal eq_refl ltac:(lia)). reflexivity.
Defined.

(** When the level of the receive FIFO reads 2^32 - 1 after the first byte, the
    test of the length lets it pass, and the loop leaves the memory. *)
Lemma read_bytes_next device k s : read_bytes device (S k) s = None \/
  exists s', read_bytes device (S k) s = read_bytes device k s' /\ rxbuf (xa s') = rxbuf (xa s) + 1 /\ length (mem s') = length (mem s) /\
    (Z.to_nat (rxbuf (xa s)) < length (mem s))%nat.
Proof.
  cbn [read_bytes]. unfold mbind, M_bind, i2c_reg_read32, store_rx. cbn [log xa cf mem]. case_decide; [right|by left].
  eexists. split; [reflexivity|]. cbn. by rewrite length_insert.
Qed.
Lemma read_bytes_past device k : forall s, 0 <= rxbuf (xa s) -> (length (mem s) < Z.to_nat (rxbuf (xa s)) + S k)%nat ->
  read_bytes device (S k) s = None.
Proof.
  induction k as [|k IH]; intros s Hp Hl;
    [destruct (read_bytes_next device 0 s) as [->|(s' & -> & Er & Em & Hlt)]|destruct (read_bytes_next device (S k) s) as [->|(s' & -> & Er & Em & Hlt)]]; try done; [lia|].
  apply IH; lia.
Qed.
Lemma level_wraps device s : 0 < rdlen (xa s) < rxlen (xa s) -> rxlen (xa s) < 4294967296 -> 0 <= rxbuf (xa s) ->
  Z.of_nat (length (mem s)) < 4294967295 -> (forall l, device l DW_IC_RXFLR = 4294967295) -> process_rx device s = None.
Proof.
  intros Hr Hx Hp Hm Hd. unfold process_rx. rewrite gets_bind, (proj2 (Z.ltb_lt _ _)) by lia.
  erewrite bind_eq; [|unfold i2c_reg_read32; rewrite Hd; reflexivity]. change (u32 4294967295) with 4294967295.
  assert (u32 (rdlen (xa s) + 4294967295) = rdlen (xa s) - 1) as ->.
  { unfold u32. replace (rdlen (xa s) + 4294967295) with (rdlen (xa s) - 1 + 1 * 4294967296) by lia.
    rewrite Z.mod_add by done. apply Z.mod_small. lia. }
  rewrite (proj2 (Z.ltb_ge _ _)) by lia. remember (Z.to_nat 4294967295) as k eqn:Ek. destruct k as [|k]; [lia|].
  apply read_bytes_past; cbn [xa mem]; lia.
Qed.

(** dwc_i2c_reset goes back to 100 kHz, and nobody sets the speed again: for
    _i2c_master_sendrecv the bus still has the speed it asked for. *)
Lemma reset_drops_speed :
  let fast_conf := snd (dwc_i2c_set_bus_speed 400000 example_conf) in
  scl_freq fast_conf = 400000 /\
  match dwc_i2c_reset example_device (St [] (xa example_i2c) fast_conf []) with
  | Some (_, s') => scl_freq (cf s') = 100000 /\ master_cfg (cf s') = 99
  | None => False
  end.
Proof. vm_compute. done. Qed.
