(* ===== verification/SdioReg.v ===== *)
(** * The registers of SD and MMC cards (devb/sdmmc/sdiodi: base.c, sd.c, mmc.c)

    Fields of the CID, CSD, SCR and SD status registers, read out of the 32-bit
    words of a response, the most significant word first; the theorems say
    that the field reader reads the register and what capacity a card gets. *)
From S2P Require Import Prelude.
Open Scope Z_scope.

(** ** base.c: fls, ffs and sdio_extract_bits *)

(** fls: [val <<= 1] until the sign bit shows; the position counts from 1.
    The loop shifts at most 32 times. *)
Fixpoint fls_loop (fuel : nat) (val idx : Z) : Z :=
  match fuel with
  | O => 0
  | S fuel' =>
      if val =? 0 then 0
      else if Z.testbit val 31 then idx
      else fls_loop fuel' (u32 (Z.shiftl val 1)) (idx - 1)
  end.
Definition fls (val : Z) : Z := fls_loop 33 (u32 val) 32.

(** The C library's ffs: the lowest bit, counting from 1. *)
Fixpoint ffs_from (fuel : nat) (val i : Z) : Z :=
  match fuel with
  | O => 0
  | S fuel' => if Z.testbit val i then i + 1 else ffs_from fuel' val (i + 1)
  end.
Definition ffs (val : Z) : Z := ffs_from 32 val 0.

(** [data[idx]]; the callers stay inside the register. *)
Definition word (data : list Z) (idx : Z) : Z := default 0 (data !! Z.to_nat idx).

Definition sdio_extract_bits (data : list Z) (bits start size : Z) : Z :=
  let idx := bits / 32 - start / 32 - 1 in
  let shift := Z.land start 31 in
  let value := Z.shiftr (word data idx) shift in
  let value := if 32 <? size + shift
               then Z.lor value (u32 (Z.shiftl (word data (idx - 1)) (32 - shift))) else value in
  Z.land value (u64 (Z.shiftl 1 size) - 1).

(** ** CID *)
Record cid := Cid {
  mid : Z; oid : Z; pnm : list Z; prv : Z; psn : Z; month : Z; year : Z
}.

(** [for (idx = 0; idx < n; idx++) pnm[idx] = bits at 96 - idx * 8] *)
Definition product_name (rsp : list Z) (n : nat) : list Z :=
  (fun i => sdio_extract_bits rsp 128 (96 - Z.of_nat i * 8) 8) <$> seq 0 n.

Definition sd_parse_cid (rsp : list Z) : cid :=
  Cid (sdio_extract_bits rsp 128 120 8) (sdio_extract_bits rsp 128 104 16)
    (product_name rsp 5) (sdio_extract_bits rsp 128 56 8) (sdio_extract_bits rsp 128 24 32)
    (sdio_extract_bits rsp 128 8 4) (sdio_extract_bits rsp 128 12 8 + 2000).

(** None: EINVAL, an unknown version of the specification. *)
Definition mmc_parse_cid (spec_vers : Z) (rsp : list Z) : option cid :=
  if (spec_vers =? 0) || (spec_vers =? 1) then
    Some (Cid (sdio_extract_bits rsp 128 104 24) 0 (product_name rsp 7)
            (sdio_extract_bits rsp 128 40 8) 0 (sdio_extract_bits rsp 128 12 4)
            (sdio_extract_bits rsp 128 8 4 + 1997))
  else if (spec_vers =? 2) || (spec_vers =? 3) || (spec_vers =? 4) then
    Some (Cid (sdio_extract_bits rsp 128 120 8) (sdio_extract_bits rsp 128 104 8)
            (product_name rsp 6) (sdio_extract_bits rsp 128 48 8) (sdio_extract_bits rsp 128 16 32)
            (sdio_extract_bits rsp 128 12 4) (sdio_extract_bits rsp 128 8 4 + 1997))
  else None.

(** ** CSD *)
Definition CSD_STRUCT_VER_10 : Z := 0.
Definition CSD_STRUCT_VER_20 : Z := 1.
Definition CSD_STRUCT_VER_30 : Z := 2.
Definition CSD_STRUCT_VER_EXT_CSD : Z := 3.
Definition CSD_VER_20_CSIZE_MAX : Z := 4194303.
Definition SDIO_DFLT_BLKSZ : Z := 512.
Definition DEV_CAP_HC : Z := 1.
Definition DEV_CAP_CMD23 : Z := 512.
Definition DEV_CAP_UC : Z := 1048576.
Definition SCR_CMD23_SUP : Z := 2.

Record csd := Csd {
  csd_structure : Z; spec_vers : Z; taac : Z; nsac : Z; tran_speed : Z; ccc : Z;
  read_bl_len : Z; read_bl_partial : Z; write_blk_misalign : Z; read_blk_misalign : Z;
  dsr_imp : Z; c_size : Z; vdd_r_curr_min : Z; vdd_r_curr_max : Z; vdd_w_curr_min : Z;
  vdd_w_curr_max : Z; c_size_mult : Z; erase_blk_en : Z; erase_grp_size : Z;
  erase_grp_mult : Z; sector_size : Z; wp_grp_size : Z; wp_grp_enable : Z; r2w_factor : Z;
  write_bl_len : Z; write_bl_partial : Z; write_protect : Z; dtr_max : Z; blksz : Z; sectors : Z
}.

Definition tran_speed_fu : list Z := [10000; 100000; 1000000; 10000000; 0; 0; 0; 0].
Definition tran_speed_mf : list Z := [0; 10; 12; 13; 15; 20; 25; 30; 35; 40; 45; 50; 55; 60; 70; 80].
Definition dtr_of (speed : Z) : Z :=
  u32 (word tran_speed_fu (Z.land speed 7) * word tran_speed_mf (Z.land (Z.shiftr speed 3) 15)).

(** The end of both CSD parsers: blocks above 512 bytes become 512. *)
Definition force_512 (blksz csize : Z) : Z * Z :=
  if (SDIO_DFLT_BLKSZ <? blksz) && (blksz mod SDIO_DFLT_BLKSZ =? 0)
  then (SDIO_DFLT_BLKSZ, u32 (csize * (blksz / SDIO_DFLT_BLKSZ))) else (blksz, csize).

(** sd_parse_csd after the switch: what all versions share. *)
Definition sd_csd_fields (rsp : list Z) (c_size c_size_mult r_min r_max w_min w_max blksz csize csizem : Z)
    : csd :=
  let b := sdio_extract_bits rsp 128 in
  let '(blksz, csize) := force_512 blksz csize in
  Csd (b 126 2) 0 (b 112 8) (b 104 8) (b 96 8) (b 84 12) (b 80 4) (b 79 1) (b 78 1) (b 77 1) (b 76 1)
    c_size r_min r_max w_min w_max c_size_mult (b 46 1) 0 0 (b 39 7) (b 32 7) (b 31 1) (b 26 3)
    (b 22 4) (b 21 1) (b 12 2) (dtr_of (b 96 8)) blksz (u32 (csize * csizem)).

(** The card's CSD and the new [dev->caps]; None for EINVAL. *)
Definition sd_parse_csd (rsp : list Z) (caps : Z) : option (csd * Z) :=
  let b := sdio_extract_bits rsp 128 in
  let ver := b 126 2 in
  if ver =? CSD_STRUCT_VER_10 then
    Some (sd_csd_fields rsp (b 62 12) (b 47 3) (b 59 3) (b 56 3) (b 53 3) (b 50 3)
            (Z.shiftl 1 (b 80 4)) (b 62 12 + 1) (Z.shiftl 1 (b 47 3 + 2)), caps)
  else if ver =? CSD_STRUCT_VER_20 then
    Some (sd_csd_fields rsp (b 48 22) 0 0 0 0 0 SDIO_DFLT_BLKSZ (b 48 22 + 1) 1024,
          Z.lor caps DEV_CAP_HC)
  else if ver =? CSD_STRUCT_VER_30 then
    let c_size := if CSD_VER_20_CSIZE_MAX <? b 48 28 then CSD_VER_20_CSIZE_MAX else b 48 28 in
    Some (sd_csd_fields rsp c_size 0 0 0 0 0 SDIO_DFLT_BLKSZ (c_size + 1) 1024,
          Z.lor caps (Z.lor DEV_CAP_HC DEV_CAP_UC))
  else None.

Definition mmc_parse_csd (rsp : list Z) : csd :=
  let b := sdio_extract_bits rsp 128 in
  let ver := b 126 2 in
  let '(sector_size, erase_grp_size, erase_grp_mult) :=
    if (ver =? CSD_STRUCT_VER_10) || (ver =? 1) then (b 42 5, b 37 5, 1)
    else if (ver =? 2) || (ver =? CSD_STRUCT_VER_EXT_CSD) then (0, b 42 5, b 37 5)
    else (0, 0, 0) in
  let '(blksz, csize) := force_512 (Z.shiftl 1 (b 80 4)) (b 62 12 + 1) in
  let csizem := Z.shiftl 1 (b 47 3 + 2) in
  Csd ver (b 122 4) (b 112 8) (b 104 8) (b 96 8) (b 84 12) (b 80 4) (b 79 1) (b 78 1) (b 77 1)
    (b 76 1) (b 62 12) (b 59 3) (b 56 3) (b 53 3) (b 50 3) (b 47 3) 0 erase_grp_size erase_grp_mult
    sector_size (b 32 5) (b 31 1) (b 26 3) (b 22 4) (b 21 1) (b 12 2) (dtr_of (b 96 8)) blksz
    (u32 (csize * csizem)).

(** ** SCR and SD status *)

(** ENDIAN_BE32 on this little-endian machine. *)
Definition bswap32 (w : Z) : Z :=
  Z.lor (Z.lor (Z.shiftl (Z.land w 255) 24) (Z.shiftl (Z.land (Z.shiftr w 8) 255) 16))
        (Z.lor (Z.shiftl (Z.land (Z.shiftr w 16) 255) 8) (Z.land (Z.shiftr w 24) 255)).

Record scr := Scr {
  scr_structure : Z; sd_spec : Z; data_stat_after_erase : Z; sd_security : Z; sd_bus_widths : Z;
  sd_spec3 : Z; ex_security : Z; sd_spec4 : Z; sd_specx : Z; cmd_support : Z
}.

(** The SCR, the new [dev->caps], and the words swapped in place. *)
Definition sd_parse_scr (rscr : list Z) (caps : Z) : scr * Z * list Z :=
  let rscr := bswap32 <$> rscr in
  let b := sdio_extract_bits rscr 64 in
  (Scr (b 60 4) (b 56 4) (b 55 1) (b 52 3) (b 48 4) (b 47 1) (b 43 4) (b 42 1) (b 38 4) (b 32 4),
   if negb (Z.land (b 32 4) SCR_CMD23_SUP =? 0) then Z.lor caps DEV_CAP_CMD23 else caps, rscr).

Record sds := Sds {
  speed_class : Z; uhs_speed_grade : Z; au_size : Z; erase_timeout : Z; erase_offset : Z;
  perf_class : Z; perf_enh : Z
}.

(** sd_read_status after the command: [old] is what [dev->sds] held. *)
Definition sd_parse_status (words : list Z) (old : sds) : sds :=
  let b := sdio_extract_bits (bswap32 <$> words) 512 in
  let au := b 428 4 in
  let e_size := b 408 16 in
  let e_timeout := b 402 6 in
  let au_size := if negb (au =? 0) then Z.shiftl 1 (au + 4) else au_size old in
  let '(offset, timeout) :=
    if negb (au =? 0) && (negb (e_size =? 0) && negb (e_timeout =? 0))
    then (b 400 2 * 1000, e_timeout * 1000 / e_size)
    else (erase_offset old, erase_timeout old) in
  Sds (b 440 8) (b 396 4) au_size timeout offset (b 336 4) (b 328 8).

(** sd.c, erase sizes and times. *)
Definition SD_ERASE_TIMEOUT : Z := 250.
Definition sd_erase_grp_size (c : csd) : Z :=
  if negb (erase_blk_en c =? 0) then 512 else (sector_size c + 1) * Z.shiftl 1 (write_bl_len c).
Definition sd_erase_timeout (s : sds) (nlba : Z) : Z :=
  if negb (erase_timeout s =? 0) then u32 (u32 (erase_timeout s * nlba) + erase_offset s)
  else u32 (SD_ERASE_TIMEOUT * nlba).

(** ** The register as one number *)
Definition register (data : list Z) : Z := foldl (fun acc w => acc * 4294967296 + w) 0 data.
Definition words_ok (data : list Z) : Prop := Forall (fun w => 0 <= w < 4294967296) data.

(** Bits [start] up to [start + size] of a number. *)
Definition field (r start size : Z) : Z := r / 2 ^ start mod 2 ^ size.

Lemma register_snoc data w : register (data ++ [w]) = register data * 4294967296 + w.
Proof. unfold register. by rewrite foldl_app. Qed.

Lemma register_range data : words_ok data -> 0 <= register data < 2 ^ (32 * Z.of_nat (length data)).
Proof.
  induction data as [|w data IH] using rev_ind; intros W; [done|].
  apply Forall_app in W as [W Hw]. apply Forall_cons in Hw as [Hw _]. specialize (IH W).
  rewrite register_snoc, length_app, Nat2Z.inj_add, Z.mul_add_distr_l. simpl length.
  rewrite Z.pow_add_r by lia. change (2 ^ (32 * Z.of_nat 1)) with 4294967296. nia.
Qed.

Lemma word_range data i : words_ok data -> 0 <= word data i < 4294967296.
Proof.
  intros W. unfold word. destruct (data !! _) as [w|] eqn:E; simpl; [|lia].
  by apply (Forall_lookup_1 _ _ _ _ W E).
Qed.

Lemma testbit_small w i : 0 <= w < 4294967296 -> 32 <= i -> Z.testbit w i = false.
Proof.
  intros Hw Hi. destruct (decide (w = 0)) as [->|]; [by apply Z.testbit_0_l|].
  apply Z.bits_above_log2; [lia|]. apply Z.log2_lt_pow2; [lia|].
  apply (Z.lt_le_trans _ (2 ^ 32)); [lia|]. apply Z.pow_le_mono_r; lia.
Qed.

(** Bit [i] of the register is in the word [i / 32] from the end. *)
Lemma testbit_register data i : words_ok data -> 0 <= i < 32 * Z.of_nat (length data) ->
  Z.testbit (register data) i = Z.testbit (word data (Z.of_nat (length data) - i / 32 - 1)) (i mod 32).
Proof.
  revert i; induction data as [|w data IH] using rev_ind; intros i W Hi; [simpl in Hi; lia|].
  apply Forall_app in W as [W Hw]. apply Forall_cons in Hw as [Hw _].
  rewrite length_app in *. simpl length in *. rewrite register_snoc.
  assert (E : forall j, 0 <= j -> Z.testbit (register data * 4294967296 + w) j =
    if decide (j < 32) then Z.testbit w j else Z.testbit (register data) (j - 32)).
  { intros j Hj. change 4294967296 with (2 ^ 32) in *.
    rewrite <- Z.shiftl_mul_pow2 by lia.
    assert (L : Z.land (Z.shiftl (register data) 32) w = 0).
    { apply Z.bits_inj'. intros k Hk. rewrite Z.land_spec, Z.shiftl_spec, Z.bits_0 by lia.
      destruct (decide (k < 32)); [by rewrite Z.testbit_neg_r by lia|].
      rewrite (testbit_small w k) by lia. apply andb_false_r. }
    rewrite Z.add_nocarry_lxor, Z.lxor_lor, Z.lor_spec, Z.shiftl_spec by done.
    destruct (decide (j < 32)); [by rewrite Z.testbit_neg_r by lia|].
    by rewrite (testbit_small w j), orb_false_r by lia. }
  rewrite E by lia. destruct (decide (i < 32)) as [L|L].
  - rewrite (Z.div_small i 32), (Z.mod_small i 32) by lia. unfold word.
    replace (Z.to_nat _) with (length data) by lia. by rewrite list_lookup_middle.
  - rewrite IH by (auto; lia). f_equal.
    + unfold word. assert (Hd : (i - 32) / 32 = i / 32 - 1) by (Z.to_euclidean_division_equations; lia).
      rewrite Hd. f_equal. rewrite lookup_app_l; [f_equal; lia|].
      assert (1 <= i / 32 < Z.of_nat (length data) + 1) by (Z.to_euclidean_division_equations; lia). lia.
    + Z.to_euclidean_division_equations; lia.
Qed.

(** The field reader reads the register. *)
Lemma extract_field data bits start size :
  words_ok data -> bits = 32 * Z.of_nat (length data) ->
  0 <= start -> 1 <= size <= 32 -> start + size <= bits ->
  sdio_extract_bits data bits start size = field (register data) start size.
Proof.
  intros W Hb Hs Hz He. unfold sdio_extract_bits, field.
  assert (0 <= register data) by (by apply register_range).
  rewrite <- Z.shiftr_div_pow2, <- Z.land_ones by lia.
  assert (EM : u64 (Z.shiftl 1 size) - 1 = Z.ones size).
  { rewrite Z.ones_equiv, Z.shiftl_1_l. rewrite u64_id; [lia|].
    split; [apply Z.pow_nonneg; lia|]. apply (Z.le_lt_trans _ (2 ^ 32)); [|done].
    apply Z.pow_le_mono_r; lia. }
  rewrite EM. assert (ESh : Z.land start 31 = start mod 32) by (apply (Z.land_ones start 5); lia).
  rewrite ESh. set (n := Z.of_nat (length data)) in *.
  assert (Ei : bits / 32 = n) by (subst bits; rewrite Z.mul_comm; apply Z.div_mul; lia). rewrite Ei.
  apply Z.bits_inj'. intros i Hi. rewrite !Z.land_spec. destruct (decide (i < size)) as [L|L].
  2: { rewrite (Z.ones_spec_high size i) by lia. by rewrite !andb_false_r. }
  rewrite (Z.ones_spec_low size i), !andb_true_r, Z.shiftr_spec by lia.
  rewrite testbit_register by (auto; lia).
  pose proof (Z.mod_pos_bound start 32) as Hm.
  assert (Hw : forall k, 0 <= word data k < 4294967296) by (intros k; by apply word_range).
  assert (Hi' : start + i = (i + start)) by lia.
  destruct (decide (start mod 32 + i < 32)) as [Lo|Hi2].
  - assert (E1 : (i + start) / 32 = start / 32) by (Z.to_euclidean_division_equations; lia).
    assert (E2 : (i + start) mod 32 = i + start mod 32) by (Z.to_euclidean_division_equations; lia).
    rewrite E1, E2. destruct (32 <? size + start mod 32).
    + rewrite Z.lor_spec, Z.shiftr_spec by lia. unfold u32.
      change 4294967296 with (2 ^ 32). rewrite Z.mod_pow2_bits_low, Z.shiftl_spec by lia.
      rewrite (Z.testbit_neg_r _ (i - (32 - start mod 32))) by lia. by rewrite orb_false_r.
    + by rewrite Z.shiftr_spec.
  - assert (E1 : (i + start) / 32 = start / 32 + 1) by (Z.to_euclidean_division_equations; lia).
    assert (E2 : (i + start) mod 32 = i - (32 - start mod 32)) by (Z.to_euclidean_division_equations; lia).
    rewrite E1, E2. rewrite (proj2 (Z.ltb_lt 32 _)) by lia.
    rewrite Z.lor_spec, Z.shiftr_spec by lia. unfold u32.
    rewrite (testbit_small (word data (n - start / 32 - 1))) by (auto; lia).
    change 4294967296 with (2 ^ 32). rewrite Z.mod_pow2_bits_low, Z.shiftl_spec by lia. simpl.
    f_equal. f_equal. lia.
Qed.

(** ** What capacity a card gets *)

Lemma field_range r start size : 0 <= size -> 0 <= field r start size < 2 ^ size.
Proof. intros Hs. apply Z.mod_pos_bound. by apply Z.pow_pos_nonneg. Qed.

Lemma extract_csd rsp start size : words_ok rsp -> length rsp = 4%nat ->
  0 <= start -> 1 <= size <= 32 -> start + size <= 128 ->
  sdio_extract_bits rsp 128 start size = field (register rsp) start size.
Proof. intros W L Hs Hz He. apply extract_field; auto. by rewrite L. Qed.

(** Blocks of a power of two, up to 2^15 bytes, and no overflow below. *)
Lemma force_512_spec len csize csizem : 0 <= len < 16 -> 0 <= csize <= 4096 -> 0 <= csizem <= 512 ->
  let '(b, c) := force_512 (Z.shiftl 1 len) csize in
  b = Z.min 512 (2 ^ len) /\ b * u32 (c * csizem) = csize * csizem * 2 ^ len.
Proof.
  intros Hl Hc Hm. unfold force_512. rewrite Z.shiftl_1_l. unfold SDIO_DFLT_BLKSZ.
  assert (Hsmall : forall k, 0 <= k <= 64 -> 0 <= csize * k < 4294967296 /\
    0 <= csize * k * csizem < 4294967296).
  { intros k Hk. assert (0 <= csize * k <= 4096 * 64) by (split; [nia|apply Z.mul_le_mono_nonneg; lia]).
    assert (0 <= csize * k * csizem <= 4096 * 64 * 512) by (split; [nia|apply Z.mul_le_mono_nonneg; lia]).
    lia. }
  destruct (decide (len <= 9)) as [L|L].
  - assert (2 ^ len <= 512) by (change 512 with (2 ^ 9); apply Z.pow_le_mono_r; lia).
    rewrite (proj2 (Z.ltb_ge 512 _)) by done. simpl andb. cbv iota beta.
    destruct (Hsmall 1) as [_ H1]; [lia|]. rewrite Z.mul_1_r in H1. rewrite u32_id by done. split; [lia|ring].
  - assert (E : 2 ^ len = 512 * 2 ^ (len - 9)).
    { change 512 with (2 ^ 9). rewrite <- Z.pow_add_r by lia. f_equal. lia. }
    assert (Hk : 2 <= 2 ^ (len - 9) <= 64).
    { split; [apply (Z.pow_le_mono_r 2 1); lia|]. change 64 with (2 ^ 6). apply Z.pow_le_mono_r; lia. }
    rewrite E, (proj2 (Z.ltb_lt 512 _)) by lia. rewrite (Z.mul_comm 512), Z.mod_mul, Z.div_mul by lia.
    change (0 =? 0) with true. cbv iota beta. simpl andb. cbv iota beta.
    destruct (Hsmall (2 ^ (len - 9))) as [H1 H2]; [lia|]. rewrite (u32_id (csize * _)) by done.
    rewrite u32_id by done. split; [lia|ring].
Qed.

(** The bytes of a card of the first version, as its CSD gives them. *)
Definition csd_bytes (r : Z) : Z := (field r 62 12 + 1) * 2 ^ (field r 47 3 + 2) * 2 ^ field r 80 4.

(** C16 (capacity from the CSD) Both CSD parsers give a card of the first
    version blocks of at most 512 bytes and sectors whose product with them
    is the capacity the register states; a high-capacity card gets 1024
    sectors per unit, except that at the largest unit count, to which every
    larger ultra-capacity card is cut down, the 32-bit product is 0. *)
Theorem csd_capacity (rsp : list Z) (caps : Z) :
  words_ok rsp -> length rsp = 4%nat ->
  let r := register rsp in
  let large n := if CSD_VER_20_CSIZE_MAX <=? n then 0 else (n + 1) * 1024 in
  (blksz (mmc_parse_csd rsp) = Z.min 512 (2 ^ field r 80 4) /\
    blksz (mmc_parse_csd rsp) * sectors (mmc_parse_csd rsp) = csd_bytes r) /\
  match sd_parse_csd rsp caps with
  | Some (c, caps') =>
      (field r 126 2 = 0 /\ caps' = caps /\ blksz c = Z.min 512 (2 ^ field r 80 4) /\
        blksz c * sectors c = csd_bytes r) \/
      (field r 126 2 = 1 /\ caps' = Z.lor caps DEV_CAP_HC /\ blksz c = 512 /\
        sectors c = large (field r 48 22)) \/
      (field r 126 2 = 2 /\ caps' = Z.lor caps (Z.lor DEV_CAP_HC DEV_CAP_UC) /\ blksz c = 512 /\
        sectors c = large (field r 48 28))
  | None => field r 126 2 = 3
  end.
Proof.
  intros W L r large.
  pose proof (field_range r 80 4 ltac:(lia)) as Hlen. pose proof (field_range r 62 12 ltac:(lia)) as Hcs.
  pose proof (field_range r 47 3 ltac:(lia)) as Hcm. pose proof (field_range r 126 2 ltac:(lia)) as Hv.
  change (2 ^ 4) with 16 in Hlen. change (2 ^ 12) with 4096 in Hcs. change (2 ^ 3) with 8 in Hcm.
  change (2 ^ 2) with 4 in Hv.
  assert (Hm : 0 <= Z.shiftl 1 (field r 47 3 + 2) <= 512).
  { rewrite Z.shiftl_1_l. split; [apply Z.pow_nonneg; lia|]. change 512 with (2 ^ 9). apply Z.pow_le_mono_r; lia. }
  assert (X : forall start size, 0 <= start -> 1 <= size <= 32 -> start + size <= 128 ->
    sdio_extract_bits rsp 128 start size = field r start size) by (intros; by apply extract_csd).
  pose proof (force_512_spec (field r 80 4) (field r 62 12 + 1) _ Hlen ltac:(lia) Hm) as F.
  rewrite !Z.shiftl_1_l in F. unfold csd_bytes.
  assert (Large : forall n, 0 <= n <= CSD_VER_20_CSIZE_MAX -> u32 ((n + 1) * 1024) = large n).
  { intros n Hn. unfold large, CSD_VER_20_CSIZE_MAX in *. destruct (4194303 <=? n) eqn:E; zbool.
    - by replace n with 4194303 by lia.
    - apply u32_id. lia. }
  split.
  - unfold mmc_parse_csd. rewrite !X, !Z.shiftl_1_l by lia.
    repeat match goal with |- context [if ?b then (_, _, _) else _] => destruct b end;
      destruct (force_512 _ _) as [b c]; exact F.
  - unfold sd_parse_csd. rewrite !X, !Z.shiftl_1_l by lia. unfold CSD_STRUCT_VER_10, CSD_STRUCT_VER_20, CSD_STRUCT_VER_30.
    destruct (field r 126 2 =? 0) eqn:E0; zbool.
    { left. unfold sd_csd_fields. destruct (force_512 _ _) as [b c]. destruct F. auto. }
    pose proof (field_range r 48 22 ltac:(lia)) as H22. pose proof (field_range r 48 28 ltac:(lia)) as H28.
    change (2 ^ 22) with 4194304 in H22. change (2 ^ 28) with 268435456 in H28.
    destruct (field r 126 2 =? 1) eqn:E1; zbool.
    { right; left. do 3 (split; [done|]). apply Large. unfold CSD_VER_20_CSIZE_MAX. lia. }
    destruct (field r 126 2 =? 2) eqn:E2; zbool; [|lia].
    right; right. do 3 (split; [done|]).
    set (n := if CSD_VER_20_CSIZE_MAX <? field r 48 28 then CSD_VER_20_CSIZE_MAX else field r 48 28).
    transitivity (large n); [apply Large|]; unfold n, large, CSD_VER_20_CSIZE_MAX.
    + destruct (4194303 <? field r 48 28) eqn:E; zbool; lia.
    + destruct (4194303 <? field r 48 28) eqn:E; zbool; [|done].
      by rewrite (proj2 (Z.leb_le 4194303 (field r 48 28))) by lia.
Qed.

(** A 32 GB card: C_SIZE 61439; the largest C_SIZE gives no sectors. *)
Definition example_csd (c_size : Z) : list Z :=
  [1074659378; 1532559360 + Z.shiftr c_size 16; Z.shiftl (Z.land c_size 65535) 16 + 32640; 172228609].

Lemma csd_capacity_witness :
  match sd_parse_csd (example_csd 61439) 0 with Some (c, _) => sectors c = 62914560 | None => False end /\
  match sd_parse_csd (example_csd CSD_VER_20_CSIZE_MAX) 0 with Some (c, _) => sectors c = 0 | None => False end.
Proof.
  assert (V : forall n, n = 61439 \/ n = CSD_VER_20_CSIZE_MAX ->
    field (register (example_csd n)) 126 2 = 1 /\ field (register (example_csd n)) 48 22 = n).
  { intros n [->| ->]; split; vm_compute; reflexivity. }
  assert (G : forall n, n = 61439 \/ n = CSD_VER_20_CSIZE_MAX ->
    match sd_parse_csd (example_csd n) 0 with
    | Some (c, _) => sectors c = if CSD_VER_20_CSIZE_MAX <=? n then 0 else (n + 1) * 1024
    | None => False
    end).
  { intros n Hn. destruct (V n Hn) as [V1 V2].
    destruct (csd_capacity (example_csd n) 0) as [_ C];
      [destruct Hn as [->| ->]; repeat constructor; vm_compute; congruence|reflexivity|].
    rewrite V1, V2 in C. destruct (sd_parse_csd _ _) as [[c k]|]; [|discriminate C].
    destruct C as [(C & _)|[(_ & _ & _ & C)|(C & _)]]; [discriminate C|exact C|discriminate C]. }
  split; [apply (G 61439); by left|apply (G CSD_VER_20_CSIZE_MAX); by right].
Defined.
