(* ===== verification/SdioConst.v ===== *)
(** * Constants of the SD/MMC driver (sdiodi: internal.h, include, hc/sdhci.h)

    The registers of the host controller and their bits, the flags of commands
    and their states, and the capabilities and settings of a host. *)
From S2P Require Import Prelude.
Open Scope Z_scope.

(** ** hc/sdhci.h: registers, bits, descriptors, flags *)
Definition SDHCI_SDMA_ARG2 : Z := 0.
Definition SDHCI_32BIT_BLK_CNT : Z := 0.
Definition SDHCI_BLK : Z := 4.
Definition SDHCI_BLK_BLKCNT_SHIFT : Z := 0x10.
Definition SDHCI_BLK_SDMA_BOUNDARY_512K : Z := 0x7000.
Definition SDHCI_ARG : Z := 8.
Definition SDHCI_CMD : Z := 0xc.
Definition SDHCI_CMD_DE : Z := 1.
Definition SDHCI_CMD_BCE : Z := 2.
Definition SDHCI_CMD_ACMD12 : Z := 4.
Definition SDHCI_CMD_ACMD23 : Z := 8.
Definition SDHCI_CMD_DDIR : Z := 0x10.
Definition SDHCI_CMD_MBS : Z := 0x20.
Definition SDHCI_CMD_RSP_TYPE_136 : Z := 0x10000.
Definition SDHCI_CMD_RSP_TYPE_48 : Z := 0x20000.
Definition SDHCI_CMD_RSP_TYPE_48b : Z := 0x30000.
Definition SDHCI_CMD_CCCE : Z := 0x80000.
Definition SDHCI_CMD_CICE : Z := 0x100000.
Definition SDHCI_CMD_DP : Z := 0x200000.
Definition SDHCI_CMD_TYPE_CMD12 : Z := 0xc00000.
Definition SDHCI_RESP0 : Z := 0x10.
Definition SDHCI_DATA : Z := 0x20.
Definition SDHCI_PSTATE : Z := 0x24.
Definition SDHCI_PSTATE_DLSL_MSK : Z := 0xf00000.
Definition SDHCI_PSTATE_WP : Z := 0x80000.
Definition SDHCI_PSTATE_CD : Z := 0x40000.
Definition SDHCI_PSTATE_CSS : Z := 0x20000.
Definition SDHCI_PSTATE_CI : Z := 0x10000.
Definition SDHCI_PSTATE_BRE : Z := 0x800.
Definition SDHCI_PSTATE_BWE : Z := 0x400.
Definition SDHCI_PSTATE_DATI : Z := 2.
Definition SDHCI_PSTATE_CMDI : Z := 1.
Definition SDHCI_HCTL : Z := 0x28.
Definition SDHCI_HCTL_DTW4 : Z := 2.
Definition SDHCI_HCTL_HSE : Z := 4.
Definition SDHCI_HCTL_DMA_MSK : Z := 0x18.
Definition SDHCI_HCTL_SDMA : Z := 0.
Definition SDHCI_HCTL_ADMA32 : Z := 0x10.
Definition SDHCI_HCTL_ADMA64 : Z := 0x18.
Definition SDHCI_HCTL_ADMA2 : Z := 0x10.
Definition SDHCI_HCTL_MMC8 : Z := 8.
Definition SDHCI_HCTL_BW8 : Z := 0x20.
Definition SDHCI_HCTL_SDBP : Z := 0x100.
Definition SDHCI_HCTL_SDVS1V8 : Z := 0xa00.
Definition SDHCI_HCTL_SDVS3V0 : Z := 0xc00.
Definition SDHCI_HCTL_SDVS3V3 : Z := 0xe00.
Definition SDHCI_HCTL_SDVS_MSK : Z := 0xe00.
Definition SDHCI_SYSCTL : Z := 0x2c.
Definition SDHCI_SYSCTL_ICE : Z := 1.
Definition SDHCI_SYSCTL_ICS : Z := 2.
Definition SDHCI_SYSCTL_CEN : Z := 4.
Definition SDHCI_SYSCTL_CGS_PROG : Z := 0x20.
Definition SDHCI_SYSCTL_SDCLKFS_MSK : Z := 0xffc0.
Definition SDHCI_SYSCTL_DTO_MSK : Z := 0xf0000.
Definition SDHCI_SYSCTL_DTO_MAX : Z := 0xe0000.
Definition SDHCI_SYSCTL_SRA : Z := 0x1000000.
Definition SDHCI_SYSCTL_SRC : Z := 0x2000000.
Definition SDHCI_SYSCTL_SRD : Z := 0x4000000.
Definition SDHCI_CLK_MAX_DIV_SPEC_VER_2 : Z := 0x100.
Definition SDHCI_CLK_MAX_DIV_SPEC_VER_3 : Z := 0x7fe.
Definition SDHCI_IS : Z := 0x30.
Definition SDHCI_IE : Z := 0x34.
Definition SDHCI_ISE : Z := 0x38.
Definition SDHCI_INTR_CC : Z := 1.
Definition SDHCI_INTR_TC : Z := 2.
Definition SDHCI_INTR_DMA : Z := 8.
Definition SDHCI_INTR_BWR : Z := 0x10.
Definition SDHCI_INTR_BRR : Z := 0x20.
Definition SDHCI_INTR_CINS : Z := 0x40.
Definition SDHCI_INTR_CREM : Z := 0x80.
Definition SDCHI_INTR_RETUNE : Z := 0x1000.
Definition SDHCI_INTR_ERRI : Z := 0x8000.
Definition SDHCI_INTR_CTO : Z := 0x10000.
Definition SDHCI_INTR_CCRC : Z := 0x20000.
Definition SDHCI_INTR_CEB : Z := 0x40000.
Definition SDHCI_INTR_CIE : Z := 0x80000.
Definition SDHCI_INTR_DTO : Z := 0x100000.
Definition SDHCI_INTR_DCRC : Z := 0x200000.
Definition SDHCI_INTR_DEB : Z := 0x400000.
Definition SDHCI_INTR_ACE : Z := 0x1000000.
Definition SDHCI_INTR_ADMAE : Z := 0x2000000.
Definition SDHCI_INTR_DFLTS : Z := 0x30f8000.
Definition SDHCI_INTR_ALL : Z := 0x33ff87ff.
Definition SDHCI_INTR_CLR_MSK : Z := 0x117f80f3.
Definition SDHCI_HCTL2 : Z := 0x3e.
Definition SDHCI_HCTL2_PRESET_VAL : Z := 0x8000.
Definition SDHCI_HCTL2_64BIT_ADDR : Z := 0x2000.
Definition SDHCI_HCTL2_V4_MODE : Z := 0x1000.
Definition SDHCI_HCTL2_TUNED_CLK : Z := 0x80.
Definition SDHCI_HCTL2_EXEC_TUNING : Z := 0x40.
Definition SDHCI_HCTL2_DRV_TYPE_MSK : Z := 0x30.
Definition SDHCI_HCTL2_DRV_TYPE_D : Z := 0x30.
Definition SDHCI_HCTL2_DRV_TYPE_C : Z := 0x20.
Definition SDHCI_HCTL2_DRV_TYPE_A : Z := 0x10.
Definition SDHCI_HCTL2_DRV_TYPE_B : Z := 0.
Definition SDHCI_HCTL2_SIG_1_8V : Z := 8.
Definition SDHCI_HCTL2_MODE_MSK : Z := 7.
Definition SDHCI_HCTL2_MODE_HS400 : Z := 5.
Definition SDHCI_HCTL2_MODE_DDR50 : Z := 4.
Definition SDHCI_HCTL2_MODE_HS200 : Z := 3.
Definition SDHCI_HCTL2_MODE_SDR104 : Z := 3.
Definition SDHCI_HCTL2_MODE_SDR50 : Z := 2.
Definition SDHCI_HCTL2_MODE_SDR25 : Z := 1.
Definition SDHCI_CAP : Z := 0x40.
Definition SDHCI_CAP_64BIT_ADDR : Z := 0x10000000.
Definition SDHCI_CAP_S18 : Z := 0x4000000.
Definition SDHCI_CAP_S30 : Z := 0x2000000.
Definition SDHCI_CAP_S33 : Z := 0x1000000.
Definition SDHCI_CAP_DMA : Z := 0x400000.
Definition SDHCI_CAP_HS : Z := 0x200000.
Definition SDHCI_CAP2 : Z := 0x44.
Definition SDHCI_CAP_TUNE_SDR50 : Z := 0x2000.
Definition SDHCI_CAP_DRIVE_TYPE_D : Z := 0x40.
Definition SDHCI_CAP_DRIVE_TYPE_C : Z := 0x20.
Definition SDHCI_CAP_DRIVE_TYPE_A : Z := 0x10.
Definition SDHCI_CAP_DDR50 : Z := 4.
Definition SDHCI_CAP_SDR104 : Z := 2.
Definition SDHCI_CAP_SDR50 : Z := 1.
Definition SDHCI_MCCAP : Z := 0x48.
Definition SDHCI_MCCAP_MULT : Z := 4.
Definition SDHCI_ADMA_ADDRL : Z := 0x58.
Definition SDHCI_ADMA_ADDRH : Z := 0x5c.
Definition SDHCI_HCTL_VERSION : Z := 0xfe.
Definition SDHCI_SPEC_VER_MSK : Z := 0xff.
Definition SDHCI_SPEC_VER_4 : Z := 3.
Definition SDHCI_SPEC_VER_3 : Z := 2.
Definition SDHCI_SPEC_VER_2 : Z := 1.
Definition SDHCI_ADMA2_MAX_XFER : Z := 0xf000.
Definition SDHCI_ADMA2_VALID : Z := 1.
Definition SDHCI_ADMA2_END : Z := 2.
Definition SDHCI_ADMA2_TRAN : Z := 0x20.
Definition SF_USE_SDMA : Z := 1.
Definition SF_USE_ADMA : Z := 2.
Definition SF_TUNE_SDR50 : Z := 4.
Definition SF_USE_ADMA64 : Z := 8.
Definition SF_DIS_64BIT : Z := 0x10.
Definition SF_V4_MODE : Z := 0x20.
Definition SF_ICE_PERSIST : Z := 0x40.
Definition ADMA_DESC_MAX : Z := 0x100.
Definition SDHCI_TUNING_RETRIES : Z := 0x28.

(** ** include/sdiodi.h: commands and capabilities *)
Definition SCF_CTYPE_ADTC : Z := 8.
Definition SCF_RSP_PRESENT : Z := 0x10.
Definition SCF_RSP_136 : Z := 0x20.
Definition SCF_RSP_CRC : Z := 0x40.
Definition SCF_RSP_BUSY : Z := 0x80.
Definition SCF_RSP_OPCODE : Z := 0x100.
Definition SCF_DIR_IN : Z := 0x200.
Definition SCF_DIR_OUT : Z := 0x400.
Definition SCF_DATA_MSK : Z := 0x600.
Definition SCF_SBC : Z := 0x1000.
Definition SCF_DATA_PHYS : Z := 0x1000000.
Definition CS_CMD_INPROG : Z := 0.
Definition CS_CMD_CMP : Z := 1.
Definition CS_CMD_CMP_ERR : Z := 3.
Definition CS_CMD_IDX_ERR : Z := 4.
Definition CS_CMD_TO_ERR : Z := 5.
Definition CS_CMD_CRC_ERR : Z := 6.
Definition CS_CMD_END_ERR : Z := 7.
Definition CS_DATA_TO_ERR : Z := 8.
Definition CS_DATA_CRC_ERR : Z := 9.
Definition CS_DATA_END_ERR : Z := 0xa.
Definition CS_CARD_REMOVED : Z := 0xb.
Definition HC_CAP_SLOT_TYPE_EMBEDDED : Z := 1.
Definition HC_CAP_DMA : Z := 4.
Definition HC_CAP_DMA64 : Z := 0xc.
Definition HC_CAP_BW4 : Z := 0x10.
Definition HC_CAP_BW8 : Z := 0x20.
Definition HC_CAP_ACMD12 : Z := 0x40.
Definition HC_CAP_ACMD23 : Z := 0x80.
Definition HC_CAP_HS : Z := 0x200.
Definition HC_CAP_SDR12 : Z := 0x400.
Definition HC_CAP_SDR25 : Z := 0x800.
Definition HC_CAP_SDR50 : Z := 0x1000.
Definition HC_CAP_SDR104 : Z := 0x2000.
Definition HC_CAP_DDR50 : Z := 0x4000.
Definition HC_CAP_XPC_3_3V : Z := 0x20000.
Definition HC_CAP_XPC_3_0V : Z := 0x40000.
Definition HC_CAP_200MA : Z := 0x100000.
Definition HC_CAP_400MA : Z := 0x200000.
Definition HC_CAP_600MA : Z := 0x400000.
Definition HC_CAP_800MA : Z := 0x800000.
Definition HC_CAP_DRV_TYPE_B : Z := 0x1000000.
Definition HC_CAP_DRV_TYPE_A : Z := 0x2000000.
Definition HC_CAP_DRV_TYPE_C : Z := 0x4000000.
Definition HC_CAP_DRV_TYPE_D : Z := 0x8000000.
Definition HC_CAP_SV_1_8V : Z := 0x20000000.
Definition HC_CAP_SV_3_3V : Z := 0x80000000.
Definition HC_CAP_CD_INTR : Z := 0x100000000.
Definition HC_CAP_BSY : Z := 0x200000000.
Definition HC_CAP_CD_WP : Z := 0x800000000.

(** ** include/mmc.h and include/sd.h: voltages and opcodes *)
Definition OCR_VDD_17_195 : Z := 0x80.
Definition OCR_VDD_29_30 : Z := 0x20000.
Definition OCR_VDD_30_31 : Z := 0x40000.
Definition OCR_VDD_32_33 : Z := 0x100000.
Definition OCR_VDD_33_34 : Z := 0x200000.
Definition MMC_STOP_TRANSMISSION : Z := 0xc.
Definition MMC_SEND_TUNING_BLOCK : Z := 0x15.
Definition SD_SEND_TUNING_BLOCK : Z := 0x13.

(** ** internal.h: events, settings, flags *)
Definition HC_EV_CD : Z := 1.
Definition HC_EV_TUNE : Z := 2.
Definition CD_RMV : Z := 0.
Definition CD_INS : Z := 1.
Definition CD_WP : Z := 0x80.
Definition HC_FLAG_TUNE : Z := 8.
Definition HC_FLAG_DEV_MMC : Z := 0x20.
Definition BUS_WIDTH_1 : Z := 1.
Definition BUS_WIDTH_4 : Z := 4.
Definition BUS_WIDTH_8 : Z := 8.
Definition TIMING_HS400 : Z := 9.
Definition TIMING_HS200 : Z := 8.
Definition TIMING_SDR104 : Z := 7.
Definition TIMING_SDR50 : Z := 6.
Definition TIMING_SDR25 : Z := 5.
Definition TIMING_SDR12 : Z := 4.
Definition TIMING_DDR50 : Z := 3.
Definition TIMING_HS : Z := 2.
Definition TIMING_LS : Z := 1.
Definition SIGNAL_VOLTAGE_3_3 : Z := 1.
Definition SIGNAL_VOLTAGE_1_8 : Z := 3.
Definition DRV_TYPE_B : Z := 1.
Definition DRV_TYPE_A : Z := 2.
Definition DRV_TYPE_C : Z := 4.
Definition DRV_TYPE_D : Z := 8.
Definition DEV_FLAG_MEDIA_CHANGE : Z := 8.
Definition DEV_FLAG_PRESENT : Z := 1.
Definition DEV_FLAG_INVALID_CARD : Z := 4.
Definition DEV_FLAG_WRITE_PROTECT : Z := 0x4000.
Definition DEV_FLAG_RMV_PENDING : Z := 1.

(** ** The command layer *)

(** include/mmc.h *)
Definition CDS_ILLEGAL_COMMAND : Z := 0x400000.
Definition CDS_READY_FOR_DATA : Z := 0x100.
Definition CDS_CUR_STATE_MSK : Z := 0x1e00.
Definition CDS_CUR_STATE_TRAN : Z := 0x800.
Definition CDS_ERROR_MSK : Z := 0xfff90080.
Definition CDS_CARD_IS_LOCKED : Z := 0x2000000.
Definition SBC_RL_WRITE : Z := 0x80000000.
Definition MMC_SEND_STATUS : Z := 0xd.
Definition MMC_SEND_STATUS_HPI : Z := 1.
Definition MMC_SEL_DES_CARD : Z := 7.
Definition MMC_STOP_TRANSMISSION_HPI : Z := 1.
Definition MMC_SET_BLOCKLEN : Z := 0x10.
Definition MMC_SET_BLOCK_COUNT : Z := 0x17.
Definition MMC_GO_IDLE_STATE : Z := 0.
Definition MMC_ALL_SEND_CID : Z := 2.
Definition MMC_SEND_CSD : Z := 9.
Definition MMC_TAG_ERASE_GROUP_START : Z := 0x23.
Definition MMC_TAG_ERASE_GROUP_END : Z := 0x24.
Definition MMC_ERASE : Z := 0x26.
Definition MMC_SET_RELATIVE_ADDR : Z := 3.
Definition MMC_SEND_OP_COND : Z := 1.
Definition MMC_SWITCH : Z := 6.
Definition MMC_SLEEP_AWAKE : Z := 5.
Definition MMC_SA_SLEEP : Z := 0x8000.
Definition OCR_S18R : Z := 0x1000000.
Definition OCR_S18A : Z := 0x1000000.
Definition OCR_XPC : Z := 0x10000000.
Definition OCR_HCS : Z := 0x40000000.
Definition OCR_PWRUP_CMP : Z := 0x80000000.
Definition OCR_BUSY_RETRIES : Z := 0x1f4.
Definition MMC_SWITCH_CMDSET_DFLT : Z := 1.
Definition MMC_SWITCH_MODE_WRITE : Z := 3.
Definition ECSD_CACHE_CTRL : Z := 0x21.
Definition ECSD_CACHE_CTRL_DIS : Z := 0.
Definition ECSD_CACHE_CTRL_EN : Z := 1.
Definition ECSD_FLUSH_CACHE : Z := 0x20.
Definition ECSD_FLUSH_TRIGGER : Z := 1.
Definition ECSD_PART_CONFIG : Z := 0xb3.
Definition MMC_PARTITION_SWITCH_TIMEOUT : Z := 0xa.
Definition ECSD_POWER_OFF_NOTIFICATION : Z := 0x22.
Definition MMC_ERASE_TIMEOUT : Z := 0x12c.
Definition MMC_ERASE_TIMEOUT_MIN : Z := 0x7d0.
Definition MMC_ERASE_GRP_512K : Z := 0x80000.
Definition MMC_ERASE_NORM : Z := 0.
Definition MMC_ERASE_TRIM : Z := 1.
Definition MMC_ERASE_DISCARD : Z := 3.
Definition MMC_ERASE_SECURE : Z := 0x80000000.
Definition MMC_ERASE_SECURE_TRIM : Z := 0x80000001.
Definition MMC_ERASE_SECURE_TRIM_PURGE : Z := 0x80008000.
Definition ECSD_ERASE_MULT : Z := 0xdf.
Definition ECSD_TRIM_MULT : Z := 0xe8.
Definition ECSD_SEC_ERASE_MULT : Z := 0xe6.
Definition ECSD_SEC_TRIM_MULT : Z := 0xe5.

(** include/sdiodi.h *)
Definition SDIO_TIME_DEFAULT : Z := 0x3e8.
Definition SCF_CTYPE_BC : Z := 1.
Definition SCF_CTYPE_BCR : Z := 2.
Definition SCF_CTYPE_AC : Z := 4.
Definition SCF_RSP_R1 : Z := 0x150.
Definition SCF_RSP_R1B : Z := 0x1d0.
Definition SCF_RSP_R2 : Z := 0x70.
Definition SCF_RSP_R3 : Z := 0x10.
Definition SCF_RSP_R6 : Z := 0x150.
Definition SCF_RSP_R7 : Z := 0x150.
Definition SCF_RSP_NONE : Z := 0.
Definition SCF_APP_CMD : Z := 0x800.
Definition SCF_WAIT_DRDY : Z := 0x2000.
Definition SCF_SBC_RLW : Z := 0x4000.
Definition SDIO_CACHE_DISABLE : Z := 0.
Definition SDIO_CACHE_ENABLE : Z := 1.
Definition SDIO_CACHE_FLUSH : Z := 2.

(** internal.h *)
Definition SDIO_CMD_RETRIES : Z := 3.
Definition DEV_FLAG_UHS : Z := 0x800.
Definition DEV_FLAG_HS200 : Z := 0x100.
Definition DEV_FLAG_HS400 : Z := 0x200.
Definition DEV_FLAG_HS400ES : Z := 0x10000.
Definition DEV_FLAG_DDR : Z := 0x400.
Definition DEV_FLAG_LOCKED : Z := 2.
Definition DEV_FLAG_SIG_ERR : Z := 0x2000.
Definition DEV_FLAG_WCE : Z := 0x8000.
Definition HC_FLAG_RST : Z := 4.
Definition BUS_MODE_PUSH_PULL : Z := 1.

(** include/sd.h *)
Definition SD_APP_CMD : Z := 0x37.
Definition SD_SEND_IF_COND : Z := 8.
Definition SD_SIC_TEST_PATTERN : Z := 0xaa.
Definition SD_SIC_VHS_27_36V : Z := 1.
Definition SD_AC_SEND_OP_COND : Z := 0x29.
Definition SD_SEND_RELATIVE_ADDR : Z := 3.
Definition SD_SEND_RELATIVE_ADDR_RETRIES : Z := 0xff.
Definition SD_VOLTAGE_SWITCH : Z := 0xb.
Definition SD_ERASE_WR_BLK_START : Z := 0x20.
Definition SD_ERASE_WR_BLK_END : Z := 0x21.
Definition SD_ERASE : Z := 0x26.
