(* ===== verification/SdioGate.v ===== *)
(** * Removal of a card while clients use it (sdiodi/card.c, base.c)

    Every operation of card.c brackets its work with two calls of
    _sdio_synchronize, which count the operations in progress; the change
    detect thread waits in sdio_cd until the count is zero before it tells the
    client that the card is gone.  The parts that run under sdio_ctrl.mutex
    are functions, their interleavings a step relation, the wait on the
    condition variable split where it gives the mutex up.  A client starts no
    operation while it detaches, so that sdio_detach, whose test of the count
    is outside the mutex, is one step. *)
From S2P Require Import Prelude Driver SdioConst.
From stdpp Require Import gmap.
From stdpp Require Export relations.
Open Scope Z_scope.

(** ** The code under the mutex

    struct sdio_device, whether it is on [sdio_ctrl.dlist], and the flags of
    the controller's device. *)
Record shared := Shared {
  usage : Z;
  flags : Z;
  listed : bool;
  dev_flags : Z
}.

Definition with_flags (f : Z) (g : shared) : shared := Shared (usage g) f (listed g) (dev_flags g).
Definition with_usage (u : Z) (g : shared) : shared := Shared u (flags g) (listed g) (dev_flags g).
Definition with_dev_flags (f : Z) (g : shared) : shared := Shared (usage g) (flags g) (listed g) f.

(** The result, whether cd_cond is signalled, and the new state. *)
Definition _sdio_synchronize (io : bool) (ncmds : Z) (g : shared) : errno * bool * shared :=
  if negb io then
    let g := with_flags (atomic_set (flags g) DEV_FLAG_RMV_PENDING) g in
    if negb (usage g =? 0) then (EBUSY, false, g) else (EOK, false, g)
  else if 0 <=? ncmds then
    if has (flags g) DEV_FLAG_RMV_PENDING || has (dev_flags g) DEV_FLAG_MEDIA_CHANGE
    then (ENXIO, false, g) else (EOK, false, with_usage (u32 (usage g + ncmds)) g)
  else
    let g := with_usage (u32 (usage g + ncmds)) g in
    (EOK, (usage g =? 0) && has (flags g) DEV_FLAG_RMV_PENDING, g).

(** sdio_attach: one client per card. *)
Definition sdio_attach (g : shared) : errno * shared :=
  if has (dev_flags g) DEV_FLAG_PRESENT then (EOK, Shared 0 0 true (dev_flags g)) else (ENODEV, g).

Definition sdio_detach (g : shared) : errno * shared :=
  if negb (usage g =? 0) then (EBUSY, g) else (EOK, Shared 0 (flags g) false (dev_flags g)).

(** sdio_hc_event for HC_EV_CD, from the controller's interrupt. *)
Definition sdio_hc_event_cd (g : shared) : shared :=
  with_dev_flags (atomic_set (dev_flags g) DEV_FLAG_MEDIA_CHANGE) g.

(** Where the change detect thread is in sdio_cd, and what the controller
    reported: a removal noticed and the mutex not yet taken; waiting on
    cd_cond, with a signal pending or not; behind the loop, in the client's
    removal callback; at the insertion. *)
Inductive phase :=
| CdIdle
| CdFound (cd : Z)
| CdWait (cd : Z) (signalled : bool)
| CdRemove (cd : Z)
| CdInsert (cd : Z).

(** [while( device->usage ) pthread_cond_wait( ... )] *)
Definition cd_test (cd : Z) (g : shared) : phase :=
  if usage g =? 0 then CdRemove cd else CdWait cd false.

(** sdio_cd up to the mutex: the card is not present from here on. *)
Definition cd_begin (cd : Z) (g : shared) : phase * shared :=
  if has (dev_flags g) DEV_FLAG_MEDIA_CHANGE || negb (has cd CD_INS) then
    let present := has (dev_flags g) DEV_FLAG_PRESENT in
    let g := with_dev_flags (atomic_clr (dev_flags g)
      (Z.lor (Z.lor DEV_FLAG_MEDIA_CHANGE DEV_FLAG_INVALID_CARD) DEV_FLAG_WRITE_PROTECT)) g in
    if present then (CdFound cd, with_dev_flags (atomic_clr (dev_flags g) DEV_FLAG_PRESENT) g)
    else (CdInsert cd, g)
  else (CdInsert cd, g).

(** Under the mutex, up to the first test of the loop. *)
Definition cd_pending (cd : Z) (g : shared) : phase * shared :=
  if listed g then
    let g := with_flags (atomic_set (flags g) DEV_FLAG_RMV_PENDING) g in (cd_test cd g, g)
  else (CdInsert cd, g).

(** The insertion: [attached] is what _sdio_attach found, after it cleared
    the device; [wp] is HC_CAP_CD_WP. *)
Definition cd_insert (cd : Z) (attached wp : bool) (g : shared) : shared :=
  if has cd CD_INS && negb (has (dev_flags g) (Z.lor DEV_FLAG_PRESENT DEV_FLAG_INVALID_CARD)) then
    if attached then
      with_dev_flags (if has cd CD_WP && wp then atomic_set DEV_FLAG_PRESENT DEV_FLAG_WRITE_PROTECT
                      else DEV_FLAG_PRESENT) g
    else with_dev_flags (atomic_set 0 DEV_FLAG_INVALID_CARD) g
  else g.

(** ** Interleavings

    [busy] are the client threads between their two calls. *)
Record sys := Sys { sh : shared; busy : gset nat; cd_phase : phase }.

Definition signal (sig : bool) (p : phase) : phase :=
  match p with CdWait cd false => CdWait cd sig | _ => p end.

Section gate.
Context (clients : gset nat).

Inductive step : sys -> sys -> Prop :=
| step_enter t s g :
    t ∈ clients -> t ∉ busy s -> listed (sh s) = true ->
    _sdio_synchronize true 1 (sh s) = (EOK, false, g) ->
    step s (Sys g (busy s ∪ {[t]}) (cd_phase s))
| step_refused t s g :
    t ∈ clients -> t ∉ busy s -> listed (sh s) = true ->
    _sdio_synchronize true 1 (sh s) = (ENXIO, false, g) ->
    step s (Sys g (busy s) (cd_phase s))
| step_leave t s sig g :
    t ∈ busy s -> _sdio_synchronize true (-1) (sh s) = (EOK, sig, g) ->
    step s (Sys g (busy s ∖ {[t]}) (signal sig (cd_phase s)))
| step_event s : step s (Sys (sdio_hc_event_cd (sh s)) (busy s) (cd_phase s))
| step_cd s cd : cd_phase s = CdIdle ->
    step s (Sys (snd (cd_begin cd (sh s))) (busy s) (fst (cd_begin cd (sh s))))
| step_found s cd : cd_phase s = CdFound cd ->
    step s (Sys (snd (cd_pending cd (sh s))) (busy s) (fst (cd_pending cd (sh s))))
| step_wake s cd sig : cd_phase s = CdWait cd sig ->
    step s (Sys (sh s) (busy s) (cd_test cd (sh s)))
| step_detach s g : listed (sh s) = true -> sdio_detach (sh s) = (EOK, g) ->
    step s (Sys g (busy s) (cd_phase s))
| step_removed s cd : cd_phase s = CdRemove cd -> step s (Sys (sh s) (busy s) (CdInsert cd))
| step_insert s cd attached wp : cd_phase s = CdInsert cd ->
    step s (Sys (cd_insert cd attached wp (sh s)) (busy s) CdIdle)
| step_attach s g : listed (sh s) = false -> sdio_attach (sh s) = (EOK, g) ->
    step s (Sys g (busy s) (cd_phase s)).

(** Power-up: no card, no client. *)
Definition init : sys := Sys (Shared 0 0 false 0) ∅ CdIdle.
Definition reachable (s : sys) : Prop := rtc step init s.

(** ** The invariant *)
Hypothesis few_clients : Z.of_nat (size clients) < 4294967296.

Definition pending (s : sys) : Prop := has (flags (sh s)) DEV_FLAG_RMV_PENDING = true.
Definition absent (s : sys) : Prop := has (dev_flags (sh s)) DEV_FLAG_PRESENT = false.

Record inv (s : sys) : Prop := {
  inv_busy : busy s ⊆ clients;
  inv_usage : usage (sh s) = Z.of_nat (size (busy s));
  inv_listed : listed (sh s) = false -> busy s = ∅;
  inv_phase :
    match cd_phase s with
    | CdFound _ => absent s
    | CdWait _ sig => absent s /\
        (listed (sh s) = true -> pending s /\ (usage (sh s) = 0 -> sig = true))
    | CdRemove _ => absent s /\ (listed (sh s) = true -> pending s /\ usage (sh s) = 0)
    | _ => True
    end
}.

(** Opening an operation: what the three outcomes of the first call are. *)
Lemma enter_spec g : 0 <= usage g < 4294967295 ->
  _sdio_synchronize true 1 g =
    if has (flags g) DEV_FLAG_RMV_PENDING || has (dev_flags g) DEV_FLAG_MEDIA_CHANGE
    then (ENXIO, false, g) else (EOK, false, with_usage (usage g + 1) g).
Proof. intros Hu. unfold _sdio_synchronize. simpl. destruct (_ || _); [done|]. by rewrite u32_id by lia. Qed.

(** Closing one: the count falls, the last of a pending removal signals. *)
Lemma leave_spec g : 0 < usage g < 4294967296 ->
  _sdio_synchronize true (-1) g =
    (EOK, (usage g - 1 =? 0) && has (flags g) DEV_FLAG_RMV_PENDING, with_usage (usage g - 1) g).
Proof.
  intros Hu. unfold _sdio_synchronize. replace (usage g + -1) with (usage g - 1) by lia.
  by rewrite u32_id by lia.
Qed.

Lemma inv_bound s : inv s -> 0 <= usage (sh s) < 4294967296.
Proof. intros [HB -> _ _]. apply subseteq_size in HB. lia. Qed.

Lemma inv_room s t : inv s -> t ∈ clients -> t ∉ busy s -> usage (sh s) < 4294967295.
Proof.
  intros [HB -> _ _] Ht Hb. assert (HS : busy s ∪ {[t]} ⊆ clients) by set_solver.
  apply subseteq_size in HS. rewrite size_union, size_singleton in HS by set_solver. lia.
Qed.

Lemma inv_nonempty s t : inv s -> t ∈ busy s -> 0 < usage (sh s) /\
  size (busy s ∖ {[t]}) = (size (busy s) - 1)%nat.
Proof.
  intros I Ht. assert (E : busy s = busy s ∖ {[t]} ∪ {[t]}).
  { apply leibniz_equiv. intros x. destruct (decide (x = t)) as [->|]; set_solver. }
  assert (S : size (busy s) = S (size (busy s ∖ {[t]}))).
  { rewrite E at 1. rewrite size_union, size_singleton by set_solver. lia. }
  rewrite (inv_usage _ I). lia.
Qed.

Lemma inv_empty s : inv s -> usage (sh s) = 0 -> busy s = ∅.
Proof. intros I E. rewrite (inv_usage _ I) in E. apply leibniz_equiv, size_empty_inv. lia. Qed.

Lemma inv_init : inv init.
Proof. constructor; [set_solver|done|done|done]. Qed.

Lemma inv_enter s t g : inv s -> t ∈ clients -> t ∉ busy s -> listed (sh s) = true ->
  _sdio_synchronize true 1 (sh s) = (EOK, false, g) -> inv (Sys g (busy s ∪ {[t]}) (cd_phase s)).
Proof.
  intros I Ht Hb HL E. pose proof (inv_bound s I). pose proof (inv_room s t I Ht Hb).
  rewrite enter_spec in E by lia. destruct (_ || _) eqn:EF; [done|]. injection E as <-. zbool.
  constructor; simpl.
  - pose proof (inv_busy _ I). set_solver.
  - rewrite size_union, size_singleton by set_solver. rewrite (inv_usage _ I). lia.
  - congruence.
  - pose proof (inv_phase _ I) as P. unfold pending in P.
    destruct (cd_phase s); try done; destruct P as [_ P]; destruct (P HL); congruence.
Qed.

Lemma inv_refused s g : inv s -> _sdio_synchronize true 1 (sh s) = (ENXIO, false, g) -> g = sh s.
Proof. intros _ E. unfold _sdio_synchronize in E. simpl in E. destruct (_ || _); congruence. Qed.

Lemma inv_leave s t sig g : inv s -> t ∈ busy s ->
  _sdio_synchronize true (-1) (sh s) = (EOK, sig, g) ->
  inv (Sys g (busy s ∖ {[t]}) (signal sig (cd_phase s))).
Proof.
  intros I Ht E. pose proof (inv_bound s I). destruct (inv_nonempty s t I Ht) as [Hu HS].
  rewrite leave_spec in E by lia. injection E as Es <-. constructor; simpl.
  - pose proof (inv_busy _ I). set_solver.
  - rewrite HS, (inv_usage _ I). rewrite (inv_usage _ I) in Hu. lia.
  - intros HL. pose proof (inv_listed _ I HL). set_solver.
  - pose proof (inv_phase _ I) as P. destruct (cd_phase s) as [|cd|cd sg|cd|cd]; try done; simpl.
    + destruct P as [A P]. destruct sg; (split; [done|]); intros HL; destruct (P HL) as [P1 P2]; [done|].
      split; [done|]. simpl. intros E0. rewrite <- Es. rewrite E0, P1. done.
    + destruct P as [A P]. split; [done|]. intros HL. destruct (P HL). lia.
Qed.

Lemma inv_cd_begin s cd : inv s ->
  inv (Sys (snd (cd_begin cd (sh s))) (busy s) (fst (cd_begin cd (sh s)))).
Proof.
  intros [IB IU IL _]. unfold cd_begin. destruct (_ || _); [|by constructor].
  destruct (has (dev_flags (sh s)) DEV_FLAG_PRESENT); constructor; try done. apply has_clr.
Qed.

Lemma inv_cd_pending s cd : inv s -> absent s ->
  inv (Sys (snd (cd_pending cd (sh s))) (busy s) (fst (cd_pending cd (sh s)))).
Proof.
  intros [IB IU IL _] A. unfold cd_pending. destruct (listed (sh s)) eqn:HL.
  2: { constructor; try done. intros _. by apply IL. }
  unfold cd_test. simpl.
  assert (G : forall p, match p with CdWait _ sig => usage (sh s) = 0 -> sig = true
                       | CdRemove _ => usage (sh s) = 0 | _ => True end ->
    inv (Sys (with_flags (atomic_set (flags (sh s)) DEV_FLAG_RMV_PENDING) (sh s)) (busy s) p)).
  { intros p Hp. constructor; try done; [intros HL2; simpl in HL2; congruence|]. destruct p; try done;
      (split; [done|]); intros _; (split; [by apply (has_set (flags (sh s)) DEV_FLAG_RMV_PENDING)|done]). }
  apply G. destruct (usage (sh s) =? 0) eqn:EU; zbool; done.
Qed.

Lemma inv_step s s' : inv s -> step s s' -> inv s'.
Proof.
  intros I ST. destruct ST as [t s g Ht Hb HL E|t s g Ht Hb HL E|t s sig g Ht E|s|s cd HP|s cd HP|s cd sig HP
    |s g HL E|s cd HP|s cd attached wp HP|s g HL E].
  - by apply inv_enter.
  - rewrite (inv_refused s g I E). destruct I. by constructor.
  - by apply (inv_leave s t).
  - destruct I as [I1 I2 I3 I4]. constructor; [done..|]. simpl. destruct (cd_phase s); try done;
      unfold absent in *; simpl; rewrite has_set_other by done; done.
  - by apply inv_cd_begin.
  - apply inv_cd_pending; [done|]. pose proof (inv_phase _ I) as P. by rewrite HP in P.
  - destruct I as [I1 I2 I3 I4]. rewrite HP in I4. unfold cd_test. constructor; [done..|]. simpl.
    destruct I4 as [A P]. destruct (usage (sh s) =? 0) eqn:EU; zbool; (split; [done|]); intros HL;
      destruct (P HL); (split; [done|done]).
  - unfold sdio_detach in E. destruct (negb _) eqn:EU; [done|]. zbool. injection E as <-.
    pose proof (inv_empty s I EU) as EB. constructor; simpl.
    + apply (inv_busy _ I).
    + rewrite EB. by rewrite size_empty.
    + done.
    + pose proof (inv_phase _ I) as P. destruct (cd_phase s); try done; by destruct P as [A _].
  - destruct I as [I1 I2 I3 I4]. by constructor.
  - destruct I as [I1 I2 I3 I4]. unfold cd_insert.
    destruct (_ && _); [destruct attached|]; by constructor.
  - unfold sdio_attach in E. destruct (has _ _) eqn:EP; [|done]. injection E as <-.
    pose proof (inv_listed _ I HL) as EB. constructor; simpl.
    + by rewrite EB.
    + by rewrite EB, size_empty.
    + done.
    + pose proof (inv_phase _ I) as P. unfold absent in P.
      destruct (cd_phase s); try done; destruct P as [A _]; congruence.
Qed.

Lemma inv_reachable s : reachable s -> inv s.
Proof.
  intros R. assert (G : forall a b, rtc step a b -> inv a -> inv b).
  { intros a b. induction 1 as [|a b c ST _ IH]; [done|]. intros Ia. by apply IH, (inv_step a). }
  apply (G init s R inv_init).
Qed.

(** ** What the wait gives *)

Lemma reachable_trans s s' : reachable s -> rtc step s s' -> reachable s'.
Proof. intros R S. by apply (rtc_trans _ s). Qed.

(** The second call of a client, as a function. *)
Definition leave (s : sys) (t : nat) : sys :=
  let '(_, sig, g) := _sdio_synchronize true (-1) (sh s) in
  Sys g (busy s ∖ {[t]}) (signal sig (cd_phase s)).

Lemma leave_step s t : t ∈ busy s -> step s (leave s t).
Proof.
  intros Ht. unfold leave. destruct (_sdio_synchronize _ _ _) as [[e sig] g] eqn:E.
  apply (step_leave t); [done|]. unfold _sdio_synchronize in E. simpl in E. by simplify_eq.
Qed.

Lemma leave_keeps s t cd sig : cd_phase s = CdWait cd sig ->
  listed (sh (leave s t)) = listed (sh s) /\ exists sig', cd_phase (leave s t) = CdWait cd sig'.
Proof. intros HP. unfold leave, _sdio_synchronize. simpl. rewrite HP. destruct sig; eauto. Qed.

(** Clients leave in any order until none is left. *)
Lemma drain l : forall s cd sig, inv s -> cd_phase s = CdWait cd sig -> listed (sh s) = true ->
  l ≡ₚ elements (busy s) ->
  let s1 := foldl leave s l in
  rtc step s s1 /\ inv s1 /\ busy s1 = ∅ /\ listed (sh s1) = true /\ exists sig', cd_phase s1 = CdWait cd sig'.
Proof.
  induction l as [|t l IH]; intros s cd sig I HP HL Hl; simpl.
  - apply Permutation_nil_l, symmetry, elements_empty_inv in Hl. split; [apply rtc_refl|].
    split; [done|]. split; [by apply leibniz_equiv|eauto].
  - assert (Ht : t ∈ busy s) by (apply elem_of_elements; rewrite <- Hl; left).
    destruct (leave_keeps s t cd sig HP) as [KL [sig' KP]].
    pose proof (inv_step _ _ I (leave_step s t Ht)) as I'.
    assert (EB : busy (leave s t) = busy s ∖ {[t]}) by (unfold leave; by destruct (_sdio_synchronize _ _ _) as [[e ?] g]).
    destruct (IH _ cd sig' I' KP) as (R & Rest); [congruence| |].
    + rewrite EB. apply (Permutation_cons_inv (a := t)). rewrite Hl.
      rewrite <- elements_union_singleton by set_solver. by rewrite <- union_difference_singleton_L.
    + split; [|done]. eapply rtc_l; [by apply leave_step|done].
Qed.

(** C9 (removal excludes the clients) In every reachable state the count is
    the number of operations in progress, a client is detached only without
    one, and while the change detect thread tells an attached client that the
    card is gone no operation is in progress and none can start. *)
Theorem removal_excludes_clients (s : sys) : reachable s ->
  usage (sh s) = Z.of_nat (size (busy s)) /\
  (forall g, sdio_detach (sh s) = (EOK, g) -> busy s = ∅) /\
  (forall cd, cd_phase s = CdRemove cd -> listed (sh s) = true ->
    busy s = ∅ /\ _sdio_synchronize true 1 (sh s) = (ENXIO, false, sh s)).
Proof.
  intros R. pose proof (inv_reachable s R) as I. split; [apply (inv_usage _ I)|]. split.
  - intros g E. unfold sdio_detach in E. destruct (negb _) eqn:EU; [done|]. zbool. by apply inv_empty.
  - intros cd HP HL. pose proof (inv_phase _ I) as P. rewrite HP in P. destruct P as [_ P].
    destruct (P HL) as [PP PU]. split; [by apply inv_empty|].
    rewrite enter_spec by lia. unfold pending in PP. by rewrite PP.
Qed.

(** C37 (a removal waits only for the clients) While the thread waits for an
    attached client every step leaves it waiting with no new operation in
    progress, or passes the loop because none is; once none is, the signal is
    there; and when the operations end, in any order, one wake-up passes the
    loop. *)
Theorem removal_completes (s : sys) (cd : Z) (sig : bool) :
  reachable s -> cd_phase s = CdWait cd sig -> listed (sh s) = true ->
  (forall s', step s s' -> listed (sh s') = true ->
    busy s' ⊆ busy s /\
    ((exists sig', cd_phase s' = CdWait cd sig') \/ (cd_phase s' = CdRemove cd /\ busy s' = ∅))) /\
  (busy s = ∅ -> sig = true) /\
  (forall l, l ≡ₚ elements (busy s) ->
    let s1 := foldl leave s l in
    rtc step s s1 /\ cd_phase s1 = CdWait cd true /\ step s1 (Sys (sh s1) ∅ (CdRemove cd))).
Proof.
  intros R HP HL. pose proof (inv_reachable s R) as I.
  assert (Sig : forall s cd sig, inv s -> cd_phase s = CdWait cd sig -> listed (sh s) = true ->
    busy s = ∅ -> usage (sh s) = 0 /\ sig = true).
  { intros z cdz sz Iz HPz HLz EB. pose proof (inv_usage _ Iz) as U. rewrite EB, size_empty in U.
    pose proof (inv_phase _ Iz) as P. rewrite HPz in P. destruct P as [_ P]. destruct (P HLz). auto. }
  split; [|split].
  - pose proof (inv_phase _ I) as P. rewrite HP in P. destruct P as [_ P]. destruct (P HL) as [PP _].
    intros s' ST HL'. destruct ST as [t s g Ht Hb HLs E|t s g Ht Hb HLs E|t s sg g Ht E|s|s c HPc|s c HPc
      |s c sg HPc|s g HLs E|s c HPc|s c att wp HPc|s g HLs E]; try congruence; simpl in *.
    + pose proof (inv_bound s I). pose proof (inv_room s t I Ht Hb). rewrite enter_spec in E by lia.
      unfold pending in PP. by rewrite PP in E.
    + split; [done|]. rewrite HP. eauto.
    + split; [set_solver|]. rewrite HP. destruct sig; simpl; eauto.
    + split; [done|]. rewrite HP. eauto.
    + split; [done|]. rewrite HPc in HP. injection HP as -> ->. unfold cd_test.
      destruct (usage (sh s) =? 0) eqn:EU; zbool; [right|left; eauto]. split; [done|]. by apply inv_empty.
    + unfold sdio_detach in E. destruct (negb _); [done|]. injection E as <-. done.
  - intros EB. by apply (Sig s cd sig).
  - intros l Hl. destruct (drain l s cd sig I HP HL Hl) as (R1 & I1 & B1 & L1 & sig' & P1).
    revert R1 I1 B1 L1 P1. generalize (foldl leave s l). intros s1 R1 I1 B1 L1 P1.
    destruct (Sig s1 cd sig' I1 P1 L1 B1) as [U ->]. split; [done|]. split; [done|].
    pose proof (step_wake s1 cd true P1) as W. unfold cd_test in W. by rewrite U, B1 in W.
Qed.
End gate.

(** ** A run *)

(** A card is inserted, client 7 attaches and starts an operation, the card
    is taken out: the change detect thread waits for client 7. *)
Definition waiting : sys :=
  Sys (Shared 1 DEV_FLAG_RMV_PENDING true 0) {[7%nat]} (CdWait 0 false).

Ltac run_step S := eapply rtc_l; [eapply S; (reflexivity || set_solver)|cbn -[union difference]].

Lemma waiting_reachable : reachable {[7%nat]} waiting.
Proof.
  unfold reachable, init. run_step (step_cd {[7%nat]} init CD_INS).
  run_step (step_insert {[7%nat]} (Sys (Shared 0 0 false 0) ∅ (CdInsert CD_INS)) CD_INS true false).
  run_step (step_attach {[7%nat]}). run_step (step_enter {[7%nat]} 7). run_step step_event.
  eapply rtc_l; [apply (step_cd {[7%nat]} _ 0); reflexivity|cbn -[union difference]].
  run_step step_found. rewrite (left_id_L ∅ (∪)). apply rtc_refl.
Qed.

Lemma few_7 : Z.of_nat (size ({[7%nat]} : gset nat)) < 4294967296.
Proof. by rewrite size_singleton. Qed.

Lemma removal_completes_witness :
  step {[7%nat]} (leave waiting 7) (Sys (sh (leave waiting 7)) ∅ (CdRemove 0)).
Proof.
  destruct (removal_completes {[7%nat]} few_7 waiting 0 false waiting_reachable eq_refl eq_refl)
    as (_ & _ & D). destruct (D [7%nat]) as (_ & _ & W); [by apply reflexive_eq|exact W].
Defined.

(** The same run on: client 7 leaves, the thread wakes up and passes. *)
Lemma removing_reachable : reachable {[7%nat]} (Sys (sh (leave waiting 7)) ∅ (CdRemove 0)).
Proof.
  apply (reachable_trans _ waiting); [apply waiting_reachable|].
  eapply rtc_l; [apply (leave_step _ waiting 7); set_solver|]. unfold leave, waiting; cbn -[difference].
  rewrite difference_diag_L. run_step step_wake. apply rtc_refl.
Qed.

Lemma removal_excludes_clients_witness :
  _sdio_synchronize true 1 (sh (leave waiting 7)) = (ENXIO, false, sh (leave waiting 7)).
Proof.
  destruct (removal_excludes_clients {[7%nat]} few_7 _ removing_reachable) as (_ & _ & X).
  destruct (X 0 eq_refl eq_refl) as [_ E]. exact E.
Defined.

(** sdio_detach asks neither for a pending removal nor for the mutex: the
    client can free the device that the change detect thread waits on and
    reads again when it wakes up. *)
Lemma detach_during_removal : exists s, reachable {[7%nat]} s /\
  cd_phase s = CdWait 0 true /\ listed (sh s) = false.
Proof.
  exists (Sys (Shared 0 DEV_FLAG_RMV_PENDING false 0) ∅ (CdWait 0 true)). split; [|done].
  apply (reachable_trans _ waiting); [apply waiting_reachable|].
  eapply rtc_l; [apply (leave_step _ waiting 7); set_solver|]. unfold leave, waiting; cbn -[difference].
  rewrite difference_diag_L. run_step step_detach. apply rtc_refl.
Qed.

