(* ===== verification/Sdhci.v ===== *)
(** * The SD host controller driver (sdiodi/hc/sdhci.c)

    The controller is an arbitrary device: what a register reads is any
    function of all accesses before.  A state holds the settings and flags of
    the host, the command in progress, the work space of a transfer without
    DMA, the descriptors of one with it, and the memory of the buffers.  None
    is an access outside of memory, of the descriptors or of the scatter
    list; a wait that the code bounds is a loop on its bound. *)
From S2P Require Import Prelude Driver SdioConst.
Open Scope Z_scope.

(** ** Data *)
Inductive event := In (w off v : Z) | Out (w off v : Z).

(** sdio_sge_t; sdio_cmd_t, whose [sgc] is the length of [sgl]; the scatter
    list from the current entry on with the rest of sdio_wspc_t. *)
Record sge := Sge { sg_address : Z; sg_count : Z }.
Record sdio_cmd_t := Cmd {
  cflags : Z; cstatus : Z; opcode : Z; arg : Z; rsp : list Z; blks : Z; blksz : Z; sgl : list sge
}.
Record wspc := Wspc { sges : list sge; sga : Z; nsg : Z; sgc : Z }.

(** One descriptor of the ADMA table, whatever its size. *)
Record adma_desc := Desc { attr : Z; len : Z; addr_lo : Z; addr_hi : Z }.

(** What sdhci_init finds out, with sdhc->flags and the translation of bus
    addresses; and the current settings. *)
Record host := Host {
  version : Z; caps : Z; sflags : Z; clk_mul : Z; clk_max : Z; clk_min : Z; ocr : Z;
  tuning_count : Z; tuning_mode : Z; sg_max : Z; admap : Z; bmstr_xlat : Z
}.
Record setting := Setting {
  vdd : Z; clk : Z; timing : Z; bus_mode : Z; bus_width : Z; signal_voltage : Z; drv_type : Z
}.

(** [hflags] are hc->flags, [dflags] hc->device.flags; [active] says that
    hc->wspc.cmd is the command. *)
Record st := St {
  log : list event; hc : host; bus : setting; hflags : Z; dflags : Z; ws : wspc;
  cmd : sdio_cmd_t; active : bool; adma : list adma_desc; mem : list Z
}.

Definition upd_log (e : event) (s : st) : st :=
  St (log s ++ [e]) (hc s) (bus s) (hflags s) (dflags s) (ws s) (cmd s) (active s) (adma s) (mem s).
Definition upd_hc (h : host) (s : st) : st :=
  St (log s) h (bus s) (hflags s) (dflags s) (ws s) (cmd s) (active s) (adma s) (mem s).
Definition upd_bus (f : setting -> setting) (s : st) : st :=
  St (log s) (hc s) (f (bus s)) (hflags s) (dflags s) (ws s) (cmd s) (active s) (adma s) (mem s).
Definition upd_flags (h d : Z) (s : st) : st :=
  St (log s) (hc s) (bus s) h d (ws s) (cmd s) (active s) (adma s) (mem s).
Definition upd_ws (w : wspc) (s : st) : st :=
  St (log s) (hc s) (bus s) (hflags s) (dflags s) w (cmd s) (active s) (adma s) (mem s).
Definition upd_cmd (c : sdio_cmd_t) (a : bool) (s : st) : st :=
  St (log s) (hc s) (bus s) (hflags s) (dflags s) (ws s) c a (adma s) (mem s).
Definition upd_adma (t : list adma_desc) (s : st) : st :=
  St (log s) (hc s) (bus s) (hflags s) (dflags s) (ws s) (cmd s) (active s) t (mem s).
Definition upd_mem (m : list Z) (s : st) : st :=
  St (log s) (hc s) (bus s) (hflags s) (dflags s) (ws s) (cmd s) (active s) (adma s) m.

Definition set_rsp (r : list Z) (c : sdio_cmd_t) : sdio_cmd_t :=
  Cmd (cflags c) (cstatus c) (opcode c) (arg c) r (blks c) (blksz c) (sgl c).
Definition set_cstatus (v : Z) (c : sdio_cmd_t) : sdio_cmd_t :=
  Cmd (cflags c) v (opcode c) (arg c) (rsp c) (blks c) (blksz c) (sgl c).

(** ** base.c: events, completion, the scatter list *)
Definition sdio_hc_event (ev : Z) : M st errno :=
  modify (fun s =>
    if ev =? HC_EV_CD then upd_flags (hflags s) (atomic_set (dflags s) DEV_FLAG_MEDIA_CHANGE) s
    else if ev =? HC_EV_TUNE then upd_flags (atomic_set (hflags s) HC_FLAG_TUNE) (dflags s) s else s);;
  mret EOK.

Definition sdio_cmd_cmplt (cs : Z) : M st errno :=
  modify (fun s => upd_cmd (set_cstatus cs (cmd s)) false s);; mret EOK.

Definition sdio_sg_start (l : list sge) (n : Z) : M st errno :=
  match l with
  | [] => if n =? 0 then mret EINVAL else crash
  | e :: _ => modify (upd_ws (Wspc l (sg_address e) n (sg_count e)));; mret EOK
  end.

(** None inside: the entries are complete (SDIO_TRUE). *)
Definition sdio_sg_nxt (blksz : Z) : M st (option (Z * Z)) :=
  w ← gets ws;
  if (nsg w =? 0) && (sgc w =? 0) then mret None
  else
    w ← (if sgc w =? 0 then
           match tail (sges w) with
           | [] => crash
           | e :: r => mret (Wspc (e :: r) (sg_address e) (u32 (nsg w - 1)) (sg_count e))
           end
         else mret w);
    let len := Z.min (sgc w) blksz in
    modify (upd_ws (Wspc (sges w) (sga w + len) (nsg w) (sgc w - len)));;
    mret (Some (sga w, len)).

(** Words in memory, little-endian. *)
Fixpoint le_bytes (n : nat) (v : Z) : list Z :=
  match n with O => [] | S n' => v mod 256 :: le_bytes n' (v / 256) end.
Fixpoint le_value (l : list Z) : Z :=
  match l with [] => 0 | b :: r => b + 256 * le_value r end.

Definition store32 (a v : Z) : M st () := fun s =>
  if decide (Z.to_nat a + 4 <= length (mem s))%nat
  then Some ((), upd_mem (list_inserts (Z.to_nat a) (le_bytes 4 v) (mem s)) s) else None.
Definition load32 (a : Z) : M st Z := fun s =>
  if decide (Z.to_nat a + 4 <= length (mem s))%nat
  then Some (le_value (take 4 (drop (Z.to_nat a) (mem s))), s) else None.

Section driver.
(** The value of a register of a width after some accesses, xpt_vtop_sg of
    the CAM library, and the number of an error. *)
Context (device : list event -> Z -> Z -> Z) (vtop_sg : list sge -> list sge) (errno_no : errno -> Z).

(** ** Accesses of 8, 16 and 32 bits *)
Definition sdhci_in (w off : Z) : M st Z := fun s =>
  let v := device (log s) w off mod 2 ^ w in Some (v, upd_log (In w off v) s).
Definition sdhci_out (w off v : Z) : M st () := modify (upd_log (Out w off (v mod 2 ^ w))).

(** sdhci_in32s and sdhci_out32s, which are in32s and out32s of the system
    library: words of memory from and to one register. *)
Fixpoint sdhci_in32s (n : nat) (a : Z) : M st () :=
  match n with
  | O => mret ()
  | S n' => v ← sdhci_in 32 SDHCI_DATA; store32 a v;; sdhci_in32s n' (a + 4)
  end.
Fixpoint sdhci_out32s (n : nat) (a : Z) : M st () :=
  match n with
  | O => mret ()
  | S n' => v ← load32 a; sdhci_out 32 SDHCI_DATA v;; sdhci_out32s n' (a + 4)
  end.

(** Some polls of a register; true when it showed the value. *)
Fixpoint poll (n : nat) (reg mask val : Z) : M st bool :=
  match n with
  | O => mret false
  | S n' => v ← sdhci_in 32 reg; if Z.land v mask =? val then mret true else poll n' reg mask val
  end.
Definition sdhci_waitmask (reg mask val usec : Z) : M st errno :=
  ok ← poll (Z.to_nat (Z.min usec 1000)) reg mask val;
  ok ← (if (1000 <? usec) && negb ok then poll (Z.to_nat (usec / 1000)) reg mask val else mret ok);
  mret (if (ok : bool) then EOK else ETIMEDOUT).

Definition sdhci_reset (rst : Z) : M st errno :=
  sctl ← sdhci_in 32 SDHCI_SYSCTL;
  sdhci_out 32 SDHCI_SYSCTL (Z.lor sctl rst);;
  status ← sdhci_waitmask SDHCI_SYSCTL rst 0 100000;
  f ← gets hflags;
  (if has f SF_ICE_PERSIST && has rst SDHCI_SYSCTL_SRA then
     sdhci_out 32 SDHCI_SYSCTL SDHCI_SYSCTL_ICE;;
     sdhci_waitmask SDHCI_SYSCTL SDHCI_SYSCTL_ICS SDHCI_SYSCTL_ICS 20000;; mret ()
   else mret ());;
  mret status.

(** ** Transfers without DMA *)

(** One block: [while( blksz )]; the fuel counts its rounds. *)
Fixpoint pio_block (fuel : nat) (dir_in : bool) (blksz : Z) : M st () :=
  match fuel with
  | O => crash
  | S n =>
      if blksz =? 0 then mret ()
      else
        r ← sdio_sg_nxt blksz;
        match r with
        | None => mret ()
        | Some (addr, len) =>
            (if dir_in then sdhci_in32s (Z.to_nat (len / 4)) addr
             else sdhci_out32s (Z.to_nat (len / 4)) addr);;
            pio_block n dir_in (blksz - len)
        end
  end.
Fixpoint pio_loop (fuel : nat) (dir_in : bool) (blksz : Z) : M st () :=
  match fuel with
  | O => crash
  | S n =>
      v ← sdhci_in 32 SDHCI_PSTATE;
      if has v (if dir_in then SDHCI_PSTATE_BRE else SDHCI_PSTATE_BWE)
      then
        w ← gets ws;
        pio_block (S (Z.to_nat blksz + length (sges w))) dir_in blksz;;
        pio_loop n dir_in blksz
      else mret ()
  end.
Definition sdhci_pio_xfer (fuel : nat) : M st errno :=
  c ← gets cmd;
  pio_loop fuel (has (cflags c) SCF_DIR_IN) (blksz c);; mret EOK.

(** ** The interrupt *)

(** The status of a command from the error bits. *)
Definition error_status (sts : Z) : Z :=
  let cs := CS_CMD_INPROG in
  let cs := if has sts SDHCI_INTR_DTO then CS_DATA_TO_ERR else cs in
  let cs := if has sts SDHCI_INTR_DCRC then CS_DATA_CRC_ERR else cs in
  let cs := if has sts SDHCI_INTR_DEB then CS_DATA_END_ERR else cs in
  let cs := if has sts SDHCI_INTR_CTO then CS_CMD_TO_ERR else cs in
  let cs := if has sts SDHCI_INTR_CCRC then CS_CMD_CRC_ERR else cs in
  let cs := if has sts SDHCI_INTR_CEB then CS_CMD_END_ERR else cs in
  let cs := if has sts SDHCI_INTR_CIE then CS_CMD_IDX_ERR else cs in
  let cs := if has sts SDHCI_INTR_ADMAE then CS_DATA_TO_ERR else cs in
  let cs := if has sts SDHCI_INTR_ACE then CS_DATA_TO_ERR else cs in
  if cs =? CS_CMD_INPROG then CS_CMD_CMP_ERR else cs.

Definition put_rsp (i v : Z) : M st () :=
  modify (fun s => upd_cmd (set_rsp (<[Z.to_nat i := v]> (rsp (cmd s))) (cmd s)) (active s) s).

(** A long response: [for( idx = 0; idx < 4; idx++ )]. *)
Fixpoint rsp_136 (n : nat) (idx rbyte : Z) : M st () :=
  match n with
  | O => mret ()
  | S n' =>
      v ← sdhci_in 32 (SDHCI_RESP0 + idx * 4);
      put_rsp (3 - idx) (u32 (u32 (Z.shiftl v 8) + rbyte));;
      rsp_136 n' (idx + 1) (Z.shiftr v 24)
  end.

Definition command_complete (sts cs : Z) : M st Z :=
  c ← gets cmd;
  if has sts SDHCI_INTR_CC then
    (if has (cflags c) SCF_RSP_136 then rsp_136 4 0 0
     else if has (cflags c) SCF_RSP_PRESENT then v ← sdhci_in 32 SDHCI_RESP0; put_rsp 0 v
     else mret ());;
    mret CS_CMD_CMP
  else mret cs.

Definition transfer_complete (sts cs : Z) : M st Z :=
  if has sts SDHCI_INTR_TC then v ← sdhci_in 32 SDHCI_RESP0; put_rsp 0 v;; mret CS_CMD_CMP
  else if has sts SDHCI_INTR_DMA then
    v ← sdhci_in 32 SDHCI_SDMA_ARG2; sdhci_out 32 SDHCI_SDMA_ARG2 v;; mret cs
  else mret cs.

(** sdhci_pio_xfer returns EOK, which is the value of CS_CMD_INPROG. *)
Definition buffer_ready (fuel : nat) (sts cs : Z) : M st Z :=
  if has sts (Z.lor SDHCI_INTR_BWR SDHCI_INTR_BRR) then
    c ← gets cmd;
    if (opcode c =? SD_SEND_TUNING_BLOCK) || (opcode c =? MMC_SEND_TUNING_BLOCK) then mret CS_CMD_CMP
    else sdhci_pio_xfer fuel;; mret CS_CMD_INPROG
  else mret cs.

Definition sdhci_intr_event (fuel : nat) : M st errno :=
  sts ← sdhci_in 32 SDHCI_IS;
  if sts =? 0 then mret EOK
  else
    ie ← sdhci_in 32 SDHCI_IE;
    let sts := Z.land sts (Z.lor ie SDHCI_INTR_ERRI) in
    sdhci_out 32 SDHCI_IS sts;;
    (if has sts (Z.lor SDHCI_INTR_CINS SDHCI_INTR_CREM) then sdio_hc_event HC_EV_CD;; mret () else mret ());;
    (if has sts SDCHI_INTR_RETUNE then sdio_hc_event HC_EV_TUNE;; mret () else mret ());;
    a ← gets active;
    if negb a then mret EOK
    else
      cs ← (if has sts SDHCI_INTR_ERRI then
              sdhci_reset SDHCI_SYSCTL_SRD;; sdhci_reset SDHCI_SYSCTL_SRC;; mret (error_status sts)
            else
              cs ← command_complete sts CS_CMD_INPROG;
              cs ← transfer_complete sts cs;
              buffer_ready fuel sts cs);
      let cs := if has sts SDHCI_INTR_CREM then CS_CARD_REMOVED else cs in
      (if negb (cs =? CS_CMD_INPROG) then sdio_cmd_cmplt cs;; mret () else mret ());;
      mret EOK.

(** ** Transfers with DMA *)

(** One descriptor; with 32-bit descriptors there is no upper half. *)
Definition put_desc (i a l paddr : Z) : M st () := fun s =>
  match adma s !! Z.to_nat i with
  | None => None
  | Some old =>
      let hi := if has (sflags (hc s)) SF_USE_ADMA64 then u32 (Z.shiftr paddr 32) else addr_hi old in
      Some ((), upd_adma (<[Z.to_nat i := Desc a l (u32 paddr) hi]> (adma s)) s)
  end.

(** [while( sg_count )] of one entry, and the loop over the entries: the
    number of descriptors, or None for ENOTSUP. *)
Fixpoint adma_entry (fuel : nat) (acnt paddr count : Z) : M st (option Z) :=
  match fuel with
  | O => crash
  | S n =>
      if count =? 0 then mret (Some acnt)
      else
        let alen := Z.min count SDHCI_ADMA2_MAX_XFER in
        put_desc acnt (Z.lor SDHCI_ADMA2_VALID SDHCI_ADMA2_TRAN) alen paddr;;
        if ADMA_DESC_MAX <? acnt + 1 then mret None
        else adma_entry n (acnt + 1) (u64 (paddr + alen)) (count - alen)
  end.
Fixpoint adma_entries (xlat acnt : Z) (l : list sge) : M st (option Z) :=
  match l with
  | [] => mret (Some acnt)
  | e :: r =>
      o ← adma_entry (Z.to_nat (sg_count e / SDHCI_ADMA2_MAX_XFER + 2)) acnt (u64 (sg_address e + xlat)) (sg_count e);
      match o with None => mret None | Some acnt => adma_entries xlat acnt r end
  end.

(** The END mark of the last descriptor; before the first there is none. *)
Definition put_end (acnt : Z) : M st () := fun s =>
  if acnt =? 0 then None
  else d ← adma s !! Z.to_nat (acnt - 1);
       Some ((), upd_adma (<[Z.to_nat (acnt - 1) :=
         Desc (Z.lor (attr d) SDHCI_ADMA2_END) (len d) (addr_lo d) (addr_hi d)]> (adma s)) s).

Definition physical (c : sdio_cmd_t) : list sge :=
  if has (cflags c) SCF_DATA_PHYS then sgl c else vtop_sg (sgl c).

Definition sdhci_adma_setup : M st errno :=
  c ← gets cmd; h ← gets hc;
  o ← adma_entries (bmstr_xlat h) 0 (physical c);
  match o with
  | None => mret ENOTSUP
  | Some acnt =>
      put_end acnt;;
      sdhci_out 32 SDHCI_ADMA_ADDRL (admap h + bmstr_xlat h);;
      (if has (sflags h) SF_USE_ADMA64
       then sdhci_out 32 SDHCI_ADMA_ADDRH (Z.shiftr (u64 (admap h + bmstr_xlat h)) 32) else mret ());;
      mret EOK
  end.

Definition sdhci_sdma_setup : M st errno :=
  c ← gets cmd;
  match physical c with
  | [] => crash
  | e :: _ => sdhci_out 32 SDHCI_SDMA_ARG2 (sg_address e);; mret EOK
  end.

(** ** Starting a command *)

(** The choice of the transfer: result, HCTL, HCTL2 and command. *)
Definition setup_dma (status : errno) (hctl hctl2 command : Z) : M st (errno * Z * Z * Z) :=
  c ← gets cmd; h ← gets hc;
  if negb (bool_decide (sgl c = [])) && has (caps h) HC_CAP_DMA then
    if has (sflags h) SF_USE_ADMA then
      status ← sdhci_adma_setup;
      if decide (status = EOK) then
        let '(hctl, hctl2) :=
          if has (sflags h) SF_V4_MODE then
            (Z.lor hctl SDHCI_HCTL_ADMA2,
             let v := Z.ldiff (Z.lor hctl2 SDHCI_HCTL2_V4_MODE) SDHCI_HCTL2_64BIT_ADDR in
             if has (sflags h) SF_USE_ADMA64 then Z.lor v SDHCI_HCTL2_64BIT_ADDR else v)
          else (Z.lor hctl (if has (sflags h) SF_USE_ADMA64 then SDHCI_HCTL_ADMA64 else SDHCI_HCTL_ADMA32), hctl2) in
        mret (EOK, hctl, hctl2, Z.lor command SDHCI_CMD_DE)
      else mret (status, hctl, hctl2, command)
    else
      status ← sdhci_sdma_setup;
      if decide (status = EOK) then mret (EOK, Z.lor hctl SDHCI_HCTL_SDMA, hctl2, Z.lor command SDHCI_CMD_DE)
      else mret (status, hctl, hctl2, command)
  else mret (status, hctl, hctl2, command).

(** The result, the command and the interrupts. *)
Definition sdhci_xfer_setup (command imask : Z) : M st (errno * Z * Z) :=
  c ← gets cmd; h ← gets hc;
  v ← sdhci_in 32 SDHCI_HCTL;
  hctl2 ← sdhci_in 16 SDHCI_HCTL2;
  let dir_in := has (cflags c) SCF_DIR_IN in
  let command := Z.lor command (if dir_in then Z.lor SDHCI_CMD_DP SDHCI_CMD_DDIR else SDHCI_CMD_DP) in
  let imask := Z.lor imask (Z.lor (Z.lor SDHCI_INTR_TC SDHCI_INTR_DTO) (Z.lor SDHCI_INTR_DCRC SDHCI_INTR_DEB)) in
  status ← sdio_sg_start (sgl c) (Z.of_nat (length (sgl c)));
  r ← setup_dma status (Z.ldiff v SDHCI_HCTL_DMA_MSK) hctl2 command;
  let '(status, hctl, hctl2, command) := r in
  let pio := negb (bool_decide (status = EOK)) || negb (has (caps h) HC_CAP_DMA) in
  if pio && has (cflags c) SCF_DATA_PHYS then mret (status, command, imask)
  else
    let imask := if pio then Z.lor imask (if dir_in then SDHCI_INTR_BRR else SDHCI_INTR_BWR) else imask in
    command ← (if 1 <? blks c then
        let command := Z.lor command (Z.lor SDHCI_CMD_MBS SDHCI_CMD_BCE) in
        if has (caps h) HC_CAP_ACMD23 && has (cflags c) SCF_SBC then
          sdhci_out 32 SDHCI_SDMA_ARG2 (blks c);; mret (Z.lor command SDHCI_CMD_ACMD23)
        else mret (if has (caps h) HC_CAP_ACMD12 then Z.lor command SDHCI_CMD_ACMD12 else command)
      else mret command);
    sdhci_out 32 SDHCI_HCTL hctl;;
    (if has (sflags h) SF_V4_MODE then
       sdhci_out 16 SDHCI_HCTL2 hctl2;;
       sdhci_out 32 SDHCI_BLK (blksz c);;
       sdhci_out 32 SDHCI_32BIT_BLK_CNT (blks c)
     else sdhci_out 32 SDHCI_BLK (Z.lor (Z.lor (blksz c) SDHCI_BLK_SDMA_BOUNDARY_512K)
                                    (Z.shiftl (blks c) SDHCI_BLK_BLKCNT_SHIFT)));;
    mret (EOK, command, imask).

(** The bits of the command register for the expected response. *)
Definition response_bits (f : Z) : Z :=
  if has f SCF_RSP_PRESENT then
    let t := if has f SCF_RSP_136 then SDHCI_CMD_RSP_TYPE_136
             else if has f SCF_RSP_BUSY then SDHCI_CMD_RSP_TYPE_48b else SDHCI_CMD_RSP_TYPE_48 in
    Z.lor t (Z.lor (if has f SCF_RSP_OPCODE then SDHCI_CMD_CICE else 0)
                   (if has f SCF_RSP_CRC then SDHCI_CMD_CCCE else 0))
  else 0.

Definition sdhci_cmd : M st errno :=
  c ← gets cmd; h ← gets hc;
  let imask := if has (caps h) HC_CAP_SLOT_TYPE_EMBEDDED then SDHCI_INTR_DFLTS
               else Z.lor SDHCI_INTR_DFLTS (Z.lor SDHCI_INTR_CINS SDHCI_INTR_CREM) in
  let command := u32 (Z.shiftl (opcode c) 24) in
  sdhci_out 32 SDHCI_IS SDHCI_INTR_CLR_MSK;;
  let command := if opcode c =? MMC_STOP_TRANSMISSION then Z.lor command SDHCI_CMD_TYPE_CMD12 else command in
  let data := has (cflags c) SCF_DATA_MSK in
  r ← (if data then sdhci_xfer_setup command imask else mret (EOK, command, Z.lor imask SDHCI_INTR_CC));
  let '(status, command, imask) := r in
  if decide (status <> EOK) then mret status
  else
    let command := Z.lor command (response_bits (cflags c)) in
    status ← sdhci_waitmask SDHCI_PSTATE (if data then Z.lor SDHCI_PSTATE_CMDI SDHCI_PSTATE_DATI else SDHCI_PSTATE_CMDI) 0 100000;
    if decide (status <> EOK) then mret status
    else
      sdhci_out 32 SDHCI_IE imask;;
      sdhci_out 32 SDHCI_ARG (arg c);;
      sdhci_out 32 SDHCI_CMD command;;
      mret EOK.

(** ** base.c: issuing a command and waiting for it

    [irqs] interrupts come, then the time is up. *)
Fixpoint sdio_wait_cmd (fuel irqs : nat) : M st errno :=
  c ← gets cmd;
  if negb (cstatus c =? CS_CMD_INPROG) then mret EOK
  else match irqs with O => mret ETIMEDOUT | S n => sdhci_intr_event fuel;; sdio_wait_cmd fuel n end.

Definition sdio_issue_cmd (fuel irqs : nat) : M st errno :=
  modify (fun s => upd_cmd (cmd s) true s);;
  status ← sdhci_cmd;
  status ← (if decide (status = EOK) then sdio_wait_cmd fuel irqs else mret status);
  (if decide (status <> EOK) then modify (fun s => upd_cmd (set_cstatus (errno_no status) (cmd s)) false s)
   else mret ());;
  mret status.

(** ** Settings of the bus *)
Definition set_bus (f : setting -> setting) : M st () := modify (upd_bus f).
Definition with_vdd (v : Z) (b : setting) : setting :=
  Setting v (clk b) (timing b) (bus_mode b) (bus_width b) (signal_voltage b) (drv_type b).
Definition with_clk (v : Z) (b : setting) : setting :=
  Setting (vdd b) v (timing b) (bus_mode b) (bus_width b) (signal_voltage b) (drv_type b).
Definition with_timing (v : Z) (b : setting) : setting :=
  Setting (vdd b) (clk b) v (bus_mode b) (bus_width b) (signal_voltage b) (drv_type b).
Definition with_mode (v : Z) (b : setting) : setting :=
  Setting (vdd b) (clk b) (timing b) v (bus_width b) (signal_voltage b) (drv_type b).
Definition with_width (v : Z) (b : setting) : setting :=
  Setting (vdd b) (clk b) (timing b) (bus_mode b) v (signal_voltage b) (drv_type b).
Definition with_voltage (v : Z) (b : setting) : setting :=
  Setting (vdd b) (clk b) (timing b) (bus_mode b) (bus_width b) v (drv_type b).
Definition with_drv_type (v : Z) (b : setting) : setting :=
  Setting (vdd b) (clk b) (timing b) (bus_mode b) (bus_width b) (signal_voltage b) v.

(** The bits of HCTL for a voltage; None for EINVAL. *)
Definition sdvs_bits (vdd : Z) : option Z :=
  if vdd =? OCR_VDD_17_195 then Some SDHCI_HCTL_SDVS1V8
  else if (vdd =? OCR_VDD_30_31) || (vdd =? OCR_VDD_29_30) then Some SDHCI_HCTL_SDVS3V0
  else if (vdd =? OCR_VDD_33_34) || (vdd =? OCR_VDD_32_33) then Some SDHCI_HCTL_SDVS3V3
  else None.

Definition enable_insertion : M st () :=
  h ← gets hc;
  if has (caps h) HC_CAP_SLOT_TYPE_EMBEDDED then mret ()
  else sdhci_out 32 SDHCI_IE (Z.lor SDHCI_INTR_CINS SDHCI_INTR_CREM).

Definition sdhci_pwr (v : Z) : M st errno :=
  sdhci_out 32 SDHCI_IE 0;;
  b ← gets bus;
  (if (vdd b =? 0) || (v =? 0) then
     sdhci_reset SDHCI_SYSCTL_SRC;; sdhci_reset SDHCI_SYSCTL_SRD;; sdhci_reset SDHCI_SYSCTL_SRA;;
     sdhci_out 32 SDHCI_ISE SDHCI_INTR_ALL
   else mret ());;
  if negb (v =? 0) then
    hctl ← sdhci_in 32 SDHCI_HCTL;
    match sdvs_bits v with
    | None => mret EINVAL
    | Some bits =>
        let hctl := Z.lor (Z.ldiff hctl SDHCI_HCTL_SDVS_MSK) bits in
        sdhci_out 32 SDHCI_HCTL hctl;;
        sdhci_out 32 SDHCI_HCTL (Z.lor hctl SDHCI_HCTL_SDBP);;
        sdhci_waitmask SDHCI_HCTL SDHCI_HCTL_SDBP SDHCI_HCTL_SDBP 10000;;
        enable_insertion;; set_bus (with_vdd v);; mret EOK
    end
  else
    sdhci_out 32 SDHCI_HCTL 0;; enable_insertion;; set_bus (with_vdd v);; mret EOK.

Definition sdhci_bus_mode (m : Z) : M st errno := set_bus (with_mode m);; mret EOK.

Definition sdhci_bus_width (width : Z) : M st errno :=
  h ← gets hc;
  v ← sdhci_in 8 SDHCI_HCTL;
  let b8 := if negb (version h =? 0) then SDHCI_HCTL_BW8 else SDHCI_HCTL_MMC8 in
  let hctl := Z.ldiff (Z.ldiff v SDHCI_HCTL_DTW4) b8 in
  sdhci_out 8 SDHCI_HCTL
    (if width =? BUS_WIDTH_8 then Z.lor hctl b8
     else if width =? BUS_WIDTH_4 then Z.lor hctl SDHCI_HCTL_DTW4 else hctl);;
  set_bus (with_width width);; mret EOK.

(** The loops that look for a divisor: the first from [clkd] on whose clock
    is not above [clk]; [stop] if there is none below it. *)
Fixpoint find_div (n : nat) (next : Z -> Z) (stop clk_max clk clkd : Z) : Z :=
  match n with
  | O => clkd
  | S n' =>
      if clkd <? stop then
        if clk_max / clkd <=? clk then clkd else find_div n' next stop clk_max clk (next clkd)
      else clkd
  end.
Definition SDHCI_SYSCTL_CLK (c : Z) : Z :=
  Z.lor (Z.land (Z.shiftl c 8) 0xff00) (Z.land (Z.shiftr c 2) 0xc0).

(** The field for the divisor in the three modes of the clock. *)
Definition div_prog (clk_max clk : Z) : Z := find_div 1024 (fun d => d + 1) 1024 clk_max clk 1 - 1.
Definition div_10bit (clk_max clk : Z) : Z :=
  let d := find_div 2046 (fun d => d + 2) SDHCI_CLK_MAX_DIV_SPEC_VER_3 clk_max clk 2 in
  Z.shiftr (if clk_max <=? clk then 1 else d) 1.
Definition div_8bit (clk_max clk : Z) : Z :=
  Z.shiftr (find_div 256 (fun d => d * 2) SDHCI_CLK_MAX_DIV_SPEC_VER_2 clk_max clk 1) 1.

Definition sdhci_clk (c : Z) : M st errno :=
  h ← gets hc; f ← gets hflags;
  v ← sdhci_in 32 SDHCI_SYSCTL;
  let off := Z.lor (Z.lor SDHCI_SYSCTL_CEN SDHCI_SYSCTL_DTO_MSK) (Z.lor SDHCI_SYSCTL_CGS_PROG SDHCI_SYSCTL_SDCLKFS_MSK) in
  let off := if has f SF_ICE_PERSIST then off else Z.lor SDHCI_SYSCTL_ICE off in
  let sctl := Z.lor (Z.ldiff v off) SDHCI_SYSCTL_DTO_MAX in
  sdhci_out 32 SDHCI_SYSCTL (Z.lor sctl (Z.lor SDHCI_SYSCTL_SRC SDHCI_SYSCTL_SRD));;
  r ← (if SDHCI_SPEC_VER_3 <=? version h then
         if negb (clk_mul h =? 0) then
           hctl2 ← sdhci_in 16 SDHCI_HCTL2;
           if has hctl2 SDHCI_HCTL2_PRESET_VAL then mret (sctl, 0)
           else mret (Z.lor sctl SDHCI_SYSCTL_CGS_PROG, div_prog (clk_max h) c)
         else mret (sctl, div_10bit (clk_max h) c)
       else mret (sctl, div_8bit (clk_max h) c));
  let sctl := Z.lor (fst r) (Z.lor (SDHCI_SYSCTL_CLK (snd r)) SDHCI_SYSCTL_ICE) in
  sdhci_out 32 SDHCI_SYSCTL sctl;;
  sdhci_waitmask SDHCI_SYSCTL SDHCI_SYSCTL_ICS SDHCI_SYSCTL_ICS 10000;;
  sdhci_out 32 SDHCI_SYSCTL (Z.lor sctl SDHCI_SYSCTL_CEN);;
  set_bus (with_clk c);; mret EOK.

(** High speed, and the mode in HCTL2. *)
Definition timing_bits (t : Z) : Z * Z :=
  if t =? TIMING_HS400 then (SDHCI_HCTL_HSE, SDHCI_HCTL2_MODE_HS400)
  else if t =? TIMING_HS200 then (SDHCI_HCTL_HSE, SDHCI_HCTL2_MODE_HS200)
  else if t =? TIMING_SDR104 then (SDHCI_HCTL_HSE, SDHCI_HCTL2_MODE_SDR104)
  else if t =? TIMING_SDR50 then (SDHCI_HCTL_HSE, SDHCI_HCTL2_MODE_SDR50)
  else if t =? TIMING_SDR25 then (SDHCI_HCTL_HSE, SDHCI_HCTL2_MODE_SDR25)
  else if t =? TIMING_SDR12 then (SDHCI_HCTL_HSE, 0)
  else if t =? TIMING_DDR50 then (SDHCI_HCTL_HSE, SDHCI_HCTL2_MODE_DDR50)
  else if t =? TIMING_HS then (SDHCI_HCTL_HSE, 0)
  else (0, 0).

Definition sdhci_timing (t : Z) : M st errno :=
  h ← gets hc;
  v ← sdhci_in 32 SDHCI_HCTL;
  let hctl := Z.lor (Z.ldiff v SDHCI_HCTL_HSE) (fst (timing_bits t)) in
  (if SDHCI_SPEC_VER_3 <=? version h then
     v ← sdhci_in 16 SDHCI_HCTL2;
     let hctl2 := Z.lor (Z.ldiff v SDHCI_HCTL2_MODE_MSK) (snd (timing_bits t)) in
     let preset := has hctl2 SDHCI_HCTL2_PRESET_VAL in
     (if preset then s ← sdhci_in 32 SDHCI_SYSCTL; sdhci_out 32 SDHCI_SYSCTL (Z.ldiff s SDHCI_SYSCTL_CEN) else mret ());;
     sdhci_out 32 SDHCI_HCTL hctl;;
     sdhci_out 16 SDHCI_HCTL2 hctl2;;
     (if preset then b ← gets bus; sdhci_clk (clk b);; mret () else mret ())
   else sdhci_out 32 SDHCI_HCTL hctl);;
  set_bus (with_timing t);; mret EOK.

Definition sdhci_signal_voltage (v : Z) : M st errno :=
  h ← gets hc; b ← gets bus; f ← gets hflags;
  if version h <? SDHCI_SPEC_VER_3 then mret EOK
  else if signal_voltage b =? v then mret EOK
  else if v =? SIGNAL_VOLTAGE_3_3 then
    x ← sdhci_in 16 SDHCI_HCTL2;
    sdhci_out 16 SDHCI_HCTL2 (Z.ldiff x SDHCI_HCTL2_SIG_1_8V);;
    x ← sdhci_in 16 SDHCI_HCTL2;
    if has x SDHCI_HCTL2_SIG_1_8V then mret EIO else set_bus (with_voltage v);; mret EOK
  else if v =? SIGNAL_VOLTAGE_1_8 then
    sctl ← sdhci_in 32 SDHCI_SYSCTL;
    sdhci_out 32 SDHCI_SYSCTL (Z.ldiff sctl SDHCI_SYSCTL_CEN);;
    x ← sdhci_in 16 SDHCI_HCTL2;
    sdhci_out 16 SDHCI_HCTL2 (Z.lor x SDHCI_HCTL2_SIG_1_8V);;
    x ← sdhci_in 16 SDHCI_HCTL2;
    ok ← (if has x SDHCI_HCTL2_SIG_1_8V then
            sdhci_out 32 SDHCI_SYSCTL sctl;;
            p ← sdhci_in 32 SDHCI_PSTATE;
            mret ((Z.land p SDHCI_PSTATE_DLSL_MSK =? SDHCI_PSTATE_DLSL_MSK) || has f HC_FLAG_DEV_MMC)
          else mret false);
    if (ok : bool) then set_bus (with_voltage v);; mret EOK
    else
      x ← sdhci_in 32 SDHCI_HCTL;
      sdhci_out 32 SDHCI_HCTL (Z.ldiff x SDHCI_HCTL_SDBP);;
      x ← sdhci_in 32 SDHCI_HCTL;
      sdhci_out 32 SDHCI_HCTL (Z.lor x SDHCI_HCTL_SDBP);;
      mret EIO
  else set_bus (with_voltage v);; mret EOK.

Definition drv_type_bits (t : Z) : Z :=
  if t =? DRV_TYPE_A then SDHCI_HCTL2_DRV_TYPE_A
  else if t =? DRV_TYPE_C then SDHCI_HCTL2_DRV_TYPE_C
  else if t =? DRV_TYPE_D then SDHCI_HCTL2_DRV_TYPE_D else SDHCI_HCTL2_DRV_TYPE_B.

Definition sdhci_drv_type (t : Z) : M st errno :=
  h ← gets hc;
  if version h <? SDHCI_SPEC_VER_3 then mret EOK
  else
    v ← sdhci_in 16 SDHCI_HCTL2;
    let hctl2 := Z.ldiff v SDHCI_HCTL2_DRV_TYPE_MSK in
    (if has hctl2 SDHCI_HCTL2_PRESET_VAL then mret ()
     else sdhci_out 16 SDHCI_HCTL2 (Z.lor hctl2 (drv_type_bits t)));;
    set_bus (with_drv_type t);; mret EOK.

Definition sdhci_preset (enable : bool) : M st errno :=
  h ← gets hc;
  if version h <? SDHCI_SPEC_VER_3 then mret EOK
  else
    v ← sdhci_in 16 SDHCI_HCTL2;
    sdhci_out 16 SDHCI_HCTL2 (Z.lor (Z.ldiff v SDHCI_HCTL2_PRESET_VAL) (if enable then SDHCI_HCTL2_PRESET_VAL else 0));;
    mret EOK.

(** The condition under which sdhci_tune returns without tuning. *)
Definition no_tuning (hctl2 sflags : Z) : bool :=
  let mode := Z.land hctl2 SDHCI_HCTL2_MODE_MSK in
  negb (mode =? SDHCI_HCTL2_MODE_SDR104) && negb (mode =? SDHCI_HCTL2_MODE_HS200) &&
  ((mode =? SDHCI_HCTL2_MODE_SDR50) && negb (has sflags SF_TUNE_SDR50)).

(** The tuning command; its block is read into a buffer that is dropped. *)
Fixpoint drop_data (n : nat) : M st () :=
  match n with O => mret () | S n' => sdhci_in 32 SDHCI_DATA;; drop_data n' end.

Fixpoint tune_loop (tlc fuel irqs : nat) (op tlen : Z) (status : errno) (hctl2 : Z) : M st (errno * Z) :=
  match tlc with
  | O => mret (status, hctl2)
  | S n =>
      modify (fun s => upd_cmd (Cmd (Z.lor (Z.lor SCF_CTYPE_ADTC SCF_DIR_IN)
          (Z.lor SCF_RSP_PRESENT (Z.lor SCF_RSP_CRC SCF_RSP_OPCODE))) CS_CMD_INPROG op 0 (rsp (cmd s)) 1 tlen [])
        (active s) s);;
      status ← sdio_issue_cmd fuel irqs;
      if decide (status <> EOK) then mret (status, hctl2)
      else
        drop_data (Z.to_nat (tlen / 4));;
        hctl2 ← sdhci_in 16 SDHCI_HCTL2;
        if has hctl2 SDHCI_HCTL2_EXEC_TUNING then tune_loop n fuel irqs op tlen EOK hctl2 else mret (EOK, hctl2)
  end.

Definition sdhci_tune (fuel irqs : nat) (op : Z) : M st errno :=
  h ← gets hc; b ← gets bus;
  let tlen := if bus_width b =? BUS_WIDTH_8 then 128 else 64 in
  if version h <? SDHCI_SPEC_VER_3 then mret EOK
  else
    hctl2 ← sdhci_in 16 SDHCI_HCTL2;
    if no_tuning hctl2 (sflags h) then mret EOK
    else
      let hctl2 := Z.lor hctl2 SDHCI_HCTL2_EXEC_TUNING in
      sdhci_out 16 SDHCI_HCTL2 hctl2;;
      r ← tune_loop (Z.to_nat SDHCI_TUNING_RETRIES) fuel irqs op tlen EOK hctl2;
      let '(status, hctl2) := r in
      if negb (bool_decide (status = EOK)) || has hctl2 SDHCI_HCTL2_EXEC_TUNING then
        sdhci_out 16 SDHCI_HCTL2 (Z.ldiff hctl2 (Z.lor SDHCI_HCTL2_TUNED_CLK SDHCI_HCTL2_EXEC_TUNING));; mret EIO
      else mret EOK.

Definition SDHCI_CARD_STABLE : Z := Z.lor (Z.lor SDHCI_PSTATE_CD SDHCI_PSTATE_CSS) SDHCI_PSTATE_CI.

Definition sdhci_cd : M st Z :=
  h ← gets hc;
  if has (caps h) HC_CAP_SLOT_TYPE_EMBEDDED then mret CD_INS
  else
    p ← sdhci_in 32 SDHCI_PSTATE;
    if has p SDHCI_PSTATE_CI then
      e ← sdhci_waitmask SDHCI_PSTATE SDHCI_CARD_STABLE SDHCI_CARD_STABLE 100000;
      if decide (e = EOK) then mret (Z.lor CD_INS (if has p SDHCI_PSTATE_WP then 0 else CD_WP)) else mret CD_RMV
    else mret CD_RMV.

(** ** sdhci_init: what the capability registers mean *)

Definition SDHCI_CAP_BASE_CLK (c v : Z) : Z :=
  (if SDHCI_SPEC_VER_3 <=? v then Z.land (Z.shiftr c 8) 0xff else Z.land (Z.shiftr c 8) 0x3f) * 1000 * 1000.
Definition SDHCI_CAP_CLK_MULT (c : Z) : Z := Z.shiftr (Z.land c 0xff0000) 16.
Definition SDHCI_CAP_TUNING_MODE (c : Z) : Z := Z.shiftr (Z.land c 0xe000) 14.
Definition SDHCI_CAP_TIMER_COUNT (c : Z) : Z := Z.shiftr (Z.land c 0xf00) 8.

(** clk_max, clk_min and the multiplier; the products are 32-bit. *)
Definition init_clocks (ver cap cap2 : Z) : Z * Z * Z :=
  let base := SDHCI_CAP_BASE_CLK cap ver in
  if SDHCI_SPEC_VER_3 <=? ver then
    let mul := SDHCI_CAP_CLK_MULT cap2 in
    if negb (mul =? 0) then (u32 (base * mul), u32 (base * mul) / 1024, mul)
    else (base, base / SDHCI_CLK_MAX_DIV_SPEC_VER_3, 0)
  else (base, base / SDHCI_CLK_MAX_DIV_SPEC_VER_2, 0).

Definition cap_if (b : bool) (c : Z) : Z := if b then c else 0.

(** The current at 1.8 V, in steps of 4 mA. *)
Definition current_caps (mccap : Z) : Z :=
  let cur := Z.shiftr (Z.land mccap 0xff0000) 16 * SDHCI_MCCAP_MULT in
  Z.lor (cap_if (150 <=? cur) HC_CAP_XPC_3_0V)
    (if 800 <=? cur then HC_CAP_800MA else if 600 <=? cur then HC_CAP_600MA
     else if 400 <=? cur then HC_CAP_400MA else HC_CAP_200MA).

Definition init_ocr (cap old : Z) : Z :=
  if has cap SDHCI_CAP_S33 then Z.lor OCR_VDD_32_33 OCR_VDD_33_34
  else if has cap SDHCI_CAP_S30 then Z.lor OCR_VDD_30_31 OCR_VDD_29_30
  else if has cap SDHCI_CAP_S18 then OCR_VDD_17_195 else old.

(** The capabilities that sdhci_init adds to [c0]. *)
Definition init_caps (ver cap cap2 mccap sflags c0 : Z) : Z :=
  let v3 := SDHCI_SPEC_VER_3 <=? ver in
  let dma := has cap SDHCI_CAP_DMA in
  let or l := fold_left Z.lor l c0 in
  or [ cap_if v3 HC_CAP_BW8; HC_CAP_BSY; HC_CAP_BW4; HC_CAP_CD_WP; HC_CAP_ACMD12; HC_CAP_200MA; HC_CAP_DRV_TYPE_B;
       cap_if (negb (has c0 HC_CAP_SLOT_TYPE_EMBEDDED)) HC_CAP_CD_INTR;
       cap_if (has cap SDHCI_CAP_HS) HC_CAP_HS; cap_if dma HC_CAP_DMA;
       cap_if (has cap2 SDHCI_CAP_SDR104) HC_CAP_SDR104;
       cap_if (has cap2 SDHCI_CAP_SDR50) (Z.lor HC_CAP_SDR50 (Z.lor HC_CAP_SDR25 HC_CAP_SDR12));
       cap_if (has cap2 SDHCI_CAP_DDR50) HC_CAP_DDR50;
       cap_if (has cap2 SDHCI_CAP_DRIVE_TYPE_A) HC_CAP_DRV_TYPE_A;
       cap_if (has cap2 SDHCI_CAP_DRIVE_TYPE_C) HC_CAP_DRV_TYPE_C;
       cap_if (has cap2 SDHCI_CAP_DRIVE_TYPE_D) HC_CAP_DRV_TYPE_D;
       cap_if (has cap SDHCI_CAP_S18) (current_caps mccap);
       cap_if (has cap SDHCI_CAP_S30 && (150 <? Z.shiftr (Z.land mccap 0xff00) 8 * SDHCI_MCCAP_MULT)) HC_CAP_XPC_3_0V;
       cap_if (has cap SDHCI_CAP_S33 && (150 <? Z.land mccap 0xff * SDHCI_MCCAP_MULT)) HC_CAP_XPC_3_3V;
       HC_CAP_SV_3_3V; cap_if v3 HC_CAP_SV_1_8V;
       cap_if (dma && v3 && has cap SDHCI_CAP_64BIT_ADDR && negb (has sflags SF_DIS_64BIT)) HC_CAP_DMA64;
       cap_if (dma && v3) HC_CAP_ACMD23 ].

(** sdhc->flags, over what the host options set. *)
Definition init_sflags (ver cap cap2 f0 : Z) : Z :=
  let dma := has cap SDHCI_CAP_DMA in
  let v3 := SDHCI_SPEC_VER_3 <=? ver in
  let f := Z.lor f0 (cap_if (has cap2 SDHCI_CAP_TUNE_SDR50) SF_TUNE_SDR50) in
  let f := if ver <? SDHCI_SPEC_VER_4 then Z.ldiff f SF_V4_MODE else f in
  let f := Z.lor f (cap_if (dma && v3 && has cap SDHCI_CAP_64BIT_ADDR && negb (has f SF_DIS_64BIT)) SF_USE_ADMA64) in
  if dma then Z.lor f (if SDHCI_SPEC_VER_2 <=? ver then SF_USE_ADMA else SF_USE_SDMA) else f.

(** The registers in sdhci_dinit. *)
Definition sdhci_dinit : M st errno := sdhci_pwr 0;; sdhci_reset SDHCI_SYSCTL_SRA;; mret EOK.

(** sdhci_init from the version register on, over the flags of the host options:
    [table] is what sdio_alloc and
    sdio_vtop give for the descriptors, [attach] the result of
    InterruptAttachEvent, [allowed] cfg->caps. *)
Definition sdhci_init (table : option Z) (attach : errno) (allowed : Z) : M st errno :=
  h0 ← gets hc;
  ver ← (if version h0 =? 0 then v ← sdhci_in 16 SDHCI_HCTL_VERSION; mret (Z.land v SDHCI_SPEC_VER_MSK)
         else mret (version h0));
  cap ← sdhci_in 32 SDHCI_CAP;
  cap2 ← (if SDHCI_SPEC_VER_3 <=? ver then sdhci_in 32 SDHCI_CAP2 else mret 0);
  mccap ← sdhci_in 32 SDHCI_MCCAP;
  let '(cmax, cmin, mul) := init_clocks ver cap cap2 in
  let f := init_sflags ver cap cap2 (sflags h0) in
  let c := init_caps ver cap cap2 mccap (sflags h0) (caps h0) in
  let adma_ok := has f SF_USE_ADMA && has cap SDHCI_CAP_DMA in
  let n := SDHCI_CAP_TIMER_COUNT cap2 in
  let h f a c := Host ver c f mul cmax cmin (init_ocr cap (ocr h0))
         (if negb (n =? 0) then Z.shiftl 1 (n - 1) else tuning_count h0) (SDHCI_CAP_TUNING_MODE cap2)
         (if has cap SDHCI_CAP_DMA then (if SDHCI_SPEC_VER_2 <=? ver then ADMA_DESC_MAX else 1) else sg_max h0)
         a (bmstr_xlat h0) in
  match (if adma_ok then table else Some (admap h0)) with
  | None => modify (upd_hc (h (Z.ldiff f SF_USE_ADMA) (admap h0) c));; sdhci_dinit;; mret ENOMEM
  | Some a =>
      modify (upd_hc (h f a (Z.land c allowed)));;
      if decide (attach <> EOK) then sdhci_dinit;; mret attach else sdhci_pwr 0;; mret EOK
  end.
End driver.
