(* ===== verification/SdhciCtl.v ===== *)
(** * What the host controller driver programs

    The divisors of the clock, the long response, and the descriptors of a
    transfer with DMA, read back the way the controller reads them. *)
From S2P Require Import Prelude Driver SdioConst SdioReg Sdhci.
Open Scope Z_scope.

(** ** The clock *)

(** The search stops at the first divisor that is slow enough, or at the
    end; an invariant of the search may use that those before were not. *)
Lemma find_div_spec next stop clk_max clk (P : Z -> Prop) n : forall d,
  (forall x, P x -> x < stop -> clk < clk_max / x -> x < next x /\ P (next x)) -> P d ->
  (Z.to_nat (stop - d) <= n)%nat ->
  P (find_div n next stop clk_max clk d) /\
  (find_div n next stop clk_max clk d < stop -> clk_max / find_div n next stop clk_max clk d <= clk).
Proof.
  induction n as [|n IH]; intros d HN HP Hn; simpl.
  - split; [done|lia].
  - destruct (d <? stop) eqn:E; zbool; [|split; [done|lia]].
    destruct (clk_max / d <=? clk) eqn:E2; zbool; [done|].
    destruct (HN d HP E E2) as [H1 H2]. apply IH; [done|done|lia].
Qed.

(** The number the clock is divided by, for a field in one of the modes. *)
Definition divisor (prog : bool) (field : Z) : Z :=
  if prog then field + 1 else if field =? 0 then 1 else 2 * field.

(** What the controller reads in the two parts of the field. *)
Definition clk_field (sysctl : Z) : Z := Z.lor (Z.land (Z.shiftr sysctl 8) 255) (Z.shiftl (Z.land (Z.shiftr sysctl 6) 3) 8).

Lemma clk_field_ok c : 0 <= c < 1024 -> clk_field (SDHCI_SYSCTL_CLK c) = c.
Proof.
  intros Hc. assert (H : forallb (fun n => clk_field (SDHCI_SYSCTL_CLK (Z.of_nat n)) =? Z.of_nat n) (seq 0 1024) = true)
    by (vm_compute; reflexivity).
  rewrite forallb_forall in H. specialize (H (Z.to_nat c)). rewrite Z2Nat.id in H by lia.
  apply Z.eqb_eq, H, in_seq. lia.
Qed.

Lemma div_prog_ok clk_max clk : clk_max / 1024 <= clk ->
  let f := div_prog clk_max clk in
  0 <= f < 1024 /\ clk_max / divisor true f <= clk /\ (forall d, 1 <= d < divisor true f -> clk < clk_max / d).
Proof.
  intros H f. unfold f, div_prog, divisor. rewrite Z.sub_add.
  destruct (find_div_spec (fun d => d + 1) 1024 clk_max clk
    (fun x => 1 <= x <= 1024 /\ forall d, 1 <= d < x -> clk < clk_max / d) 1024 1) as [[H1 H2] H3].
  - intros x [Hx Hd] Hs Hc. split; [lia|]. split; [lia|]. intros d Hd'.
    destruct (decide (d = x)) as [->|]; [done|apply Hd; lia].
  - split; [lia|]. intros d Hd. lia.
  - simpl. lia.
  - revert H1 H2 H3. generalize (find_div 1024 (fun d => d + 1) 1024 clk_max clk 1). intros d H1 H2 H3.
    split; [lia|]. split; [|done]. destruct (decide (d = 1024)) as [->|]; [done|apply H3; lia].
Qed.

Lemma div_10bit_ok clk_max clk : 0 <= clk -> clk_max / 2046 <= clk ->
  let f := div_10bit clk_max clk in
  0 <= f < 1024 /\ clk_max / divisor false f <= clk /\
  (forall g, 0 <= g -> divisor false g < divisor false f -> clk < clk_max / divisor false g).
Proof.
  intros H0 H f. unfold f, div_10bit, SDHCI_CLK_MAX_DIV_SPEC_VER_3.
  destruct (find_div_spec (fun d => d + 2) 2046 clk_max clk
    (fun x => 2 <= x <= 2046 /\ x mod 2 = 0 /\ forall d, 1 <= d -> 2 * d < x -> clk < clk_max / (2 * d)) 2046 2)
    as [(H1 & H2 & H3) H4].
  - intros x (Hx & Hm & Hd) Hs Hc. split; [lia|]. pose proof (Z.div_mod x 2 ltac:(lia)) as Ex.
    assert (x <= 2044) by lia. split; [lia|]. split; [by rewrite Z.add_mod, Hm by lia|].
    intros d Hd1 Hd2. destruct (decide (2 * d = x)) as [->|]; [done|apply Hd; lia].
  - split; [lia|]. split; [done|]. lia.
  - simpl. lia.
  - revert H1 H2 H3 H4. generalize (find_div 2046 (fun d => d + 2) 2046 clk_max clk 2). intros d H1 H2 H3 H4.
    rewrite Z.shiftr_div_pow2 by lia. change (2 ^ 1) with 2. destruct (clk_max <=? clk) eqn:E; zbool.
    + change (1 / 2) with 0. unfold divisor. simpl. rewrite Z.div_1_r. split; [lia|]. split; [lia|].
      intros g Hg. destruct (g =? 0) eqn:Eg; zbool; lia.
    + pose proof (Z.div_mod d 2 ltac:(lia)) as Ed. unfold divisor. rewrite (proj2 (Z.eqb_neq (d / 2) 0)) by lia.
      replace (2 * (d / 2)) with d by lia. split; [lia|]. split.
      { destruct (decide (d = 2046)) as [->|]; [done|apply H4; lia]. }
      intros g Hg. destruct (g =? 0) eqn:Eg; zbool; [by rewrite Z.div_1_r|]. intros Hlt. apply H3; lia.
Qed.

Lemma div_8bit_ok clk_max clk : 0 <= clk -> clk_max / 256 <= clk ->
  exists k f, div_8bit clk_max clk = f /\ 0 <= k <= 8 /\ divisor false f = 2 ^ k /\ 0 <= f < 1024 /\ clk_max / 2 ^ k <= clk /\
    (forall j, 0 <= j < k -> clk < clk_max / 2 ^ j).
Proof.
  intros H0 H. unfold div_8bit, SDHCI_CLK_MAX_DIV_SPEC_VER_2.
  destruct (find_div_spec (fun d => d * 2) 256 clk_max clk
    (fun x => exists k, x = 2 ^ k /\ 0 <= k <= 8 /\ forall j, 0 <= j < k -> clk < clk_max / 2 ^ j) 256 1)
    as [(k & H1 & H2 & H3) H4].
  - intros x (k & -> & Hk & Hj) Hs Hc.
    assert (k < 8) by (apply (Z.pow_lt_mono_r_iff 2); [lia|lia|exact Hs]).
    assert (0 < 2 ^ k) by (apply Z.pow_pos_nonneg; lia). split; [lia|].
    exists (k + 1). rewrite Z.pow_add_r by lia. split; [done|]. split; [lia|]. intros j Hj'.
    destruct (decide (j = k)) as [->|]; [done|apply Hj; lia].
  - exists 0. split; [done|]. split; [lia|]. lia.
  - simpl. lia.
  - revert H1 H4. generalize (find_div 256 (fun d => d * 2) 256 clk_max clk 1). intros d -> H4.
    exists k, (Z.shiftr (2 ^ k) 1). split; [done|]. split; [lia|].
    assert (E : divisor false (Z.shiftr (2 ^ k) 1) = 2 ^ k /\ 0 <= Z.shiftr (2 ^ k) 1 < 1024).
    { assert (HK : k = 0 \/ k = 1 \/ k = 2 \/ k = 3 \/ k = 4 \/ k = 5 \/ k = 6 \/ k = 7 \/ k = 8) by lia.
      repeat destruct HK as [->|HK]; [..|rewrite HK]; (split; [reflexivity|]; split; vm_compute; congruence). }
    destruct E as [-> E]. split; [done|]. split; [done|]. split; [|done].
    destruct (decide (k = 8)) as [->|]; [done|]. apply H4. change 256 with (2 ^ 8). apply Z.pow_lt_mono_r; lia.
Qed.

(** ** Accesses to registers *)
Definition app_log (l : list event) (s : st) : st :=
  St (log s ++ l) (hc s) (bus s) (hflags s) (dflags s) (ws s) (cmd s) (active s) (adma s) (mem s).

Lemma app_log_nil s : app_log [] s = s.
Proof. unfold app_log. rewrite app_nil_r. by destruct s. Qed.
Lemma app_log_app l l' s : app_log l' (app_log l s) = app_log (l ++ l') s.
Proof. unfold app_log. simpl. by rewrite <- app_assoc. Qed.

(** Reads of one register. *)
Definition polls (reg : Z) (l : list event) : Prop := Forall (fun e => exists v, e = In 32 reg v) l.

Section device.
Context (device : list event -> Z -> Z -> Z).

Lemma in_eq w off s : exists v, sdhci_in device w off s = Some (v, app_log [In w off v] s) /\ (0 <= w -> 0 <= v < 2 ^ w) /\
  v = device (log s) w off mod 2 ^ w.
Proof.
  eexists. split; [reflexivity|]. split; [|done]. intros Hw. apply Z.mod_pos_bound, Z.pow_pos_nonneg; lia.
Qed.

Lemma out_eq w off v s : sdhci_out w off v s = Some ((), app_log [Out w off (v mod 2 ^ w)] s).
Proof. done. Qed.

Lemma poll_ok n reg mask val : forall s, exists b l, poll device n reg mask val s = Some (b, app_log l s) /\ polls reg l /\
  (b = true -> exists l0 v, l = l0 ++ [In 32 reg v] /\ Z.land v mask = val).
Proof.
  induction n as [|n IH]; intros s; simpl.
  - exists false, []. rewrite app_log_nil. split; [done|]. split; [constructor|done].
  - destruct (in_eq 32 reg s) as (v & E & _). rewrite (bind_eq _ _ _ _ _ E).
    destruct (Z.land v mask =? val) eqn:EV; zbool.
    + exists true, [In 32 reg v]. split; [done|]. split; [repeat constructor; eauto|]. intros _. exists [], v. done.
    + destruct (IH (app_log [In 32 reg v] s)) as (b & l & E2 & P & Hb). exists b, (In 32 reg v :: l).
      rewrite E2, app_log_app. split; [done|]. split; [constructor; eauto|].
      intros Ht. destruct (Hb Ht) as (l0 & w & -> & HV). exists (In 32 reg v :: l0), w. done.
Qed.

(** A wait reads the register some times; EOK means that the last value fits. *)
Lemma waitmask_ok reg mask val usec s : exists e l, sdhci_waitmask device reg mask val usec s = Some (e, app_log l s) /\
  polls reg l /\ (e = EOK \/ e = ETIMEDOUT) /\
  (e = EOK -> exists l0 v, l = l0 ++ [In 32 reg v] /\ Z.land v mask = val).
Proof.
  unfold sdhci_waitmask. destruct (poll_ok (Z.to_nat (Z.min usec 1000)) reg mask val s) as (b & l & E & P & Hb).
  rewrite (bind_eq _ _ _ _ _ E). destruct ((1000 <? usec) && negb b) eqn:EC.
  - destruct (poll_ok (Z.to_nat (usec / 1000)) reg mask val (app_log l s)) as (b2 & l2 & E2 & P2 & Hb2).
    rewrite (bind_eq _ _ _ _ _ E2), app_log_app. eexists _, _. split; [reflexivity|]. split; [by apply Forall_app|].
    destruct b2; (split; [auto|]); [|done]. intros _. destruct (Hb2 eq_refl) as (l0 & v & -> & HV).
    exists (l ++ l0), v. by rewrite app_assoc.
  - eexists _, _. split; [reflexivity|]. split; [done|]. destruct b; (split; [auto|]); [|done]. auto.
Qed.

(** ** sdhci_clk *)
Lemma clk_field_land x : clk_field (Z.land x 0xffc0) = clk_field x.
Proof.
  unfold clk_field. f_equal.
  - rewrite Z.shiftr_land, <- Z.land_assoc. f_equal.
  - f_equal. rewrite Z.shiftr_land, <- Z.land_assoc. f_equal.
Qed.

Lemma clk_field_lor a b c : Z.land a 0xffc0 = 0 -> Z.land c 0xffc0 = 0 -> clk_field (Z.lor a (Z.lor b c)) = clk_field b.
Proof.
  intros Ha Hc. rewrite <- clk_field_land, <- (clk_field_land b). f_equal.
  by rewrite !Z.land_lor_distr_l, Ha, Hc, Z.lor_0_l, Z.lor_0_r.
Qed.

Lemma clk_field_wide x : clk_field (x mod 2 ^ 32) = clk_field x.
Proof.
  rewrite <- clk_field_land, <- (clk_field_land x). f_equal. rewrite <- Z.land_ones, <- Z.land_assoc by lia. f_equal.
Qed.

(** What sdhci_init leaves as the slowest clock of the mode. *)
Definition prog_mode (h : host) : bool := (SDHCI_SPEC_VER_3 <=? version h) && negb (clk_mul h =? 0).
Definition clock_ok (h : host) (c : Z) : Prop :=
  0 <= c /\ clk_max h / (if prog_mode h then 1024 else if SDHCI_SPEC_VER_3 <=? version h then 2046 else 256) <= c.

(** Version 1 and 2 controllers divide by powers of two. *)
Definition field_ok (h : host) (f : Z) : Prop :=
  0 <= f /\ (version h < SDHCI_SPEC_VER_3 -> exists k, 0 <= k /\ divisor false f = 2 ^ k).

(** The divisor and the clock generator that sdhci_clk chooses. *)
Lemma chosen_field (h : host) c : clock_ok h c ->
  let f := if prog_mode h then div_prog (clk_max h) c
           else if SDHCI_SPEC_VER_3 <=? version h then div_10bit (clk_max h) c else div_8bit (clk_max h) c in
  0 <= f < 1024 /\ clk_max h / divisor (prog_mode h) f <= c /\
  (forall g, field_ok h g -> divisor (prog_mode h) g < divisor (prog_mode h) f -> c < clk_max h / divisor (prog_mode h) g).
Proof.
  intros [H0 H] f. unfold f, field_ok, prog_mode in *. destruct (SDHCI_SPEC_VER_3 <=? version h) eqn:EV; zbool; cbn [andb] in *.
  - destruct (negb (clk_mul h =? 0)).
    + destruct (div_prog_ok (clk_max h) c H) as (H1 & H2 & H3). split; [done|]. split; [done|]. intros g Hg Hlt.
      apply H3. unfold divisor in *. lia.
    + destruct (div_10bit_ok (clk_max h) c H0 H) as (H1 & H2 & H3). split; [done|]. split; [done|].
      intros g [Hg _] Hlt. by apply H3.
  - destruct (div_8bit_ok (clk_max h) c H0 H) as (k & f' & -> & Hk & Hd & Hf & H2 & H3). rewrite Hd.
    split; [done|]. split; [done|]. intros g [Hg HP] Hlt. destruct (HP EV) as (j & Hj & E). rewrite E in *.
    apply H3. split; [done|]. apply (Z.pow_lt_mono_r_iff 2) in Hlt; lia.
Qed.

(** Writes that keep the clock of the card off. *)
Definition clock_off (e : event) : Prop := match e with Out _ _ v => has v SDHCI_SYSCTL_CEN = false | In _ _ _ => True end.

Lemma ldiff_land v off m : Z.land off m = m -> Z.land (Z.ldiff v off) m = 0.
Proof.
  intros <-. apply Z.bits_inj'. intros i Hi. rewrite !Z.land_spec, Z.ldiff_spec, Z.bits_0.
  destruct (Z.testbit v i), (Z.testbit off i); simpl; try done. all: by destruct (Z.testbit m i).
Qed.

Lemma lor_mod a b w : 0 <= w -> Z.lor a b mod 2 ^ w = Z.lor (a mod 2 ^ w) (b mod 2 ^ w).
Proof. intros Hw. rewrite <- !Z.land_ones by done. apply Z.land_lor_distr_l. Qed.

(** The field [f] is that of the smallest divisor of the generator in use whose
    clock is not above [c]. *)
Definition fits_clock (h : host) (prog : bool) (f c : Z) : Prop :=
  clk_max h / divisor prog f <= c /\
  forall g, field_ok h g -> divisor prog g < divisor prog f -> c < clk_max h / divisor prog g.

(** With a programmable clock the driver asks whether the controller takes its
    clocks from the preset registers; else it does not. *)
Definition asked_presets (prog presets : bool) (l : list event) : Prop :=
  if prog then exists w, In 16 SDHCI_HCTL2 w ∈ l /\ presets = has w SDHCI_HCTL2_PRESET_VAL else presets = false.

(** sdhci_clk's choice of the generator and the field, with the base value. *)
Lemma clk_choice c sctl s : clock_ok (hc s) c ->
  exists l f presets, (if SDHCI_SPEC_VER_3 <=? version (hc s) then
      if negb (clk_mul (hc s) =? 0) then
        hctl2 ← sdhci_in device 16 SDHCI_HCTL2;
        if has hctl2 SDHCI_HCTL2_PRESET_VAL then mret (sctl, 0)
        else mret (Z.lor sctl SDHCI_SYSCTL_CGS_PROG, div_prog (clk_max (hc s)) c)
      else mret (sctl, div_10bit (clk_max (hc s)) c)
    else mret (sctl, div_8bit (clk_max (hc s)) c) : M st (Z * Z)) s =
    Some ((if prog_mode (hc s) && negb presets then Z.lor sctl SDHCI_SYSCTL_CGS_PROG else sctl, f), app_log l s) /\
    Forall clock_off l /\ 0 <= f < 1024 /\ asked_presets (prog_mode (hc s)) presets l /\
    (if presets then f = 0 else fits_clock (hc s) (prog_mode (hc s)) f c).
Proof.
  intros HC. pose proof (chosen_field (hc s) c HC) as F. cbv zeta in F. revert F. unfold prog_mode, asked_presets.
  destruct (SDHCI_SPEC_VER_3 <=? version (hc s)); cbn [andb].
  - destruct (negb (clk_mul (hc s) =? 0)); cbn [andb]; intros F.
    + destruct (in_eq 16 SDHCI_HCTL2 s) as (v & E & _). rewrite (bind_eq _ _ _ _ _ E).
      destruct (has v SDHCI_HCTL2_PRESET_VAL) eqn:EP; [exists [In 16 SDHCI_HCTL2 v], 0, true|
        exists [In 16 SDHCI_HCTL2 v], (div_prog (clk_max (hc s)) c), false]; (split; [reflexivity|]); (split; [by repeat constructor|]).
      * split; [lia|]. split; [|done]. exists v. split; [left|by rewrite EP].
      * split; [apply F|]. split; [|apply F]. exists v. split; [left|by rewrite EP].
    + exists [], (div_10bit (clk_max (hc s)) c), false. rewrite app_log_nil. by destruct F.
  - intros F. exists [], (div_8bit (clk_max (hc s)) c), false. rewrite app_log_nil. by destruct F.
Qed.

(** C17 (the clock of the card) For a clock that sdhci_init allows the clock
    of the card is off until the field is written, and is turned on last, in
    the same setting.  The field is that of the smallest divisor whose clock
    is not above the request, in the three ways a controller divides, with
    the bit of the generator that it is for.  Only when the clock is
    programmable the driver reads whether the preset registers are enabled,
    as they are in the UHS modes; if they are, it writes the field 0 without
    the bit of the generator, and the clock is the one of the presets. *)
Theorem clock_divided c s : clock_ok (hc s) c ->
  let prog := prog_mode (hc s) in
  exists l1 v l2 presets, sdhci_clk device c s = Some (EOK, upd_bus (with_clk c)
      (app_log (l1 ++ Out 32 SDHCI_SYSCTL v :: l2 ++ [Out 32 SDHCI_SYSCTL (Z.lor v SDHCI_SYSCTL_CEN)]) s)) /\
    Forall clock_off (l1 ++ Out 32 SDHCI_SYSCTL v :: l2) /\ polls SDHCI_SYSCTL l2 /\ asked_presets prog presets l1 /\
    if presets then has v SDHCI_SYSCTL_CGS_PROG = false /\ clk_field v = 0
    else has v SDHCI_SYSCTL_CGS_PROG = prog /\ fits_clock (hc s) prog (clk_field v) c.
Proof.
  intros HC prog. unfold sdhci_clk. rewrite !gets_bind.
  destruct (in_eq 32 SDHCI_SYSCTL s) as (v0 & E0 & _). rewrite (bind_eq _ _ _ _ _ E0). cbv zeta.
  set (off := if has (hflags s) SF_ICE_PERSIST then _ else _). set (sctl := Z.lor (Z.ldiff v0 off) SDHCI_SYSCTL_DTO_MAX).
  rewrite (bind_eq _ _ _ _ _ (out_eq _ _ _ _)), app_log_app. simpl app. set (l0 := [_; _]).
  destruct (clk_choice c sctl (app_log l0 s) HC) as (l & f & presets & E & HL & Hf & D1 & D2).
  cbn [hc app_log] in E, D1, D2. fold prog in E, D1, D2. set (gen := prog && negb presets) in E. rewrite (bind_eq _ _ _ _ _ E), app_log_app. cbn [fst snd].
  set (a := if gen then _ else sctl) in *. set (x := Z.lor a _).
  rewrite (bind_eq _ _ _ _ _ (out_eq _ _ _ _)), app_log_app.
  match goal with |- context [sdhci_waitmask device ?r ?m ?v ?u] =>
    destruct (waitmask_ok r m v u (app_log ((l0 ++ l) ++ [Out 32 SDHCI_SYSCTL (x mod 2 ^ 32)]) s)) as (e & l2 & E2 & P2 & _) end.
  rewrite (bind_eq _ _ _ _ _ E2), app_log_app, (bind_eq _ _ _ _ _ (out_eq _ _ _ _)), app_log_app, lor_mod by done.
  assert (Hoff : forall m, m = 0xffc0 \/ m = 4 \/ m = 0x20 -> Z.land sctl m = 0).
  { intros m Hm. unfold sctl. rewrite Z.land_lor_distr_l, ldiff_land; unfold off;
      destruct (has (hflags s) SF_ICE_PERSIST); destruct Hm as [->|[->| ->]]; reflexivity. }
  assert (Ha : has a 4 = false /\ has a 0x20 = gen /\ Z.land a 0xffc0 = 0).
  { unfold a, has. destruct gen; rewrite ?Z.land_lor_distr_l, !Hoff by auto; done. }
  destruct Ha as (A1 & A2 & A3).
  assert (Hx : has x 4 = false /\ has x 0x20 = gen /\ clk_field x = f).
  { assert (HL2 : Z.land (Z.lor (SDHCI_SYSCTL_CLK f) SDHCI_SYSCTL_ICE) 0x24 = 0).
    { unfold SDHCI_SYSCTL_CLK. rewrite !Z.land_lor_distr_l, <- !Z.land_assoc. by rewrite !Z.land_0_r. }
    assert (HB : forall k, 0 <= k -> Z.land 0x24 (2 ^ k) = 2 ^ k -> has x (2 ^ k) = has a (2 ^ k)).
    { intros k Hk Hm. unfold x. rewrite has_lor by done. unfold has at 2.
      rewrite <- Hm, Z.land_assoc, HL2. by rewrite Z.land_0_l, orb_false_r. }
    change 4 with (2 ^ 2) in *. change 0x20 with (2 ^ 5) in *. rewrite !HB by done. split; [done|]. split; [done|].
    unfold x. rewrite clk_field_lor by done. by apply clk_field_ok. }
  destruct Hx as (X1 & X2 & X3). exists (l0 ++ l), (x mod 2 ^ 32), l2, presets. rewrite clk_field_wide, X3. split.
  { unfold set_bus. rewrite modify_bind. by rewrite <- !app_assoc. }
  split; [|split; [done|]; split].
  - apply Forall_app. split; [apply Forall_app; split; [|done]|].
    + constructor; [done|]. constructor; [|constructor]. unfold clock_off. change SDHCI_SYSCTL_CEN with (2 ^ 2).
      rewrite has_mod, has_lor by lia. change (2 ^ 2) with 4. unfold has. rewrite Hoff by auto. done.
    + constructor.
      * unfold clock_off. change SDHCI_SYSCTL_CEN with (2 ^ 2). rewrite has_mod by lia. done.
      * apply (Forall_impl _ _ _ P2). intros ev [w ->]. done.
  - revert D1. unfold asked_presets. destruct prog; [|done]. intros (w & Hw & ->). exists w. split; [|done]. apply elem_of_app. by right.
  - change SDHCI_SYSCTL_CGS_PROG with (2 ^ 5). rewrite has_mod by lia. change (2 ^ 5) with 0x20. rewrite X2. unfold gen.
    destruct presets; cbn [negb]; [rewrite andb_false_r|rewrite andb_true_r]; done.
Qed.
End device.

(** ** The descriptors of a transfer with DMA *)

(** The bus address in a descriptor of either width, and the regions that a
    controller transfers that reads the table from its first entry to the one
    with the END mark; None if an entry on the way is not a transfer. *)
Definition desc_addr (wide : bool) (d : adma_desc) : Z := if wide then addr_lo d + addr_hi d * 2 ^ 32 else addr_lo d.
Fixpoint engine (wide : bool) (t : list adma_desc) : option (list (Z * Z)) :=
  match t with
  | [] => None
  | d :: r =>
      if has (attr d) SDHCI_ADMA2_VALID && (Z.land (attr d) 0x30 =? SDHCI_ADMA2_TRAN) then
        if has (attr d) SDHCI_ADMA2_END then Some [(desc_addr wide d, len d)]
        else cons (desc_addr wide d, len d) <$> engine wide r
      else None
  end.

(** The bytes of some regions, and of a scatter list on the bus. *)
Definition region_bytes (l : list (Z * Z)) : list Z := concat (map (fun r => seqZ (fst r) (snd r)) l).
Definition on_bus (xlat : Z) (l : list sge) : list (Z * Z) := map (fun e => (sg_address e + xlat, sg_count e)) l.

(** The number of descriptors of an entry, and of a list. *)
Definition need (count : Z) : Z := (count + (SDHCI_ADMA2_MAX_XFER - 1)) / SDHCI_ADMA2_MAX_XFER.
Fixpoint needs (l : list sge) : Z := match l with [] => 0 | e :: r => need (sg_count e) + needs r end.

Definition wide (s : st) : bool := has (sflags (hc s)) SF_USE_ADMA64.
Definition entry_ok (w : bool) (xlat : Z) (e : sge) : Prop :=
  0 <= sg_count e /\ 0 <= sg_address e + xlat < (if w then 2 ^ 64 else 2 ^ 32) /\
  sg_address e + xlat + sg_count e <= (if w then 2 ^ 64 else 2 ^ 32).

(** A descriptor for a region, not the last. *)
Definition desc_ok (w : bool) (d : adma_desc) (r : Z * Z) : Prop :=
  attr d = 0x21 /\ desc_addr w d = fst r /\ len d = snd r /\ 0 < snd r <= SDHCI_ADMA2_MAX_XFER.

Lemma need_step count : 0 < count -> need count = 1 + need (count - Z.min count SDHCI_ADMA2_MAX_XFER).
Proof.
  intros H. unfold need, SDHCI_ADMA2_MAX_XFER in *. destruct (decide (count <= 0xf000)).
  - replace (count - Z.min count 0xf000) with 0 by lia. change ((0 + (0xf000 - 1)) / 0xf000) with 0.
    symmetry. apply (Z.div_unique _ _ _ (count - 1)); lia.
  - replace (count + (0xf000 - 1)) with ((count - Z.min count 0xf000 + (0xf000 - 1)) + 1 * 0xf000) by lia.
    rewrite Z.div_add by lia. lia.
Qed.
Lemma need_nonneg count : 0 <= count -> 0 <= need count.
Proof. intros H. apply Z.div_pos; unfold SDHCI_ADMA2_MAX_XFER; lia. Qed.

Lemma put_desc_ok i a l p s : 0 <= p < (if wide s then 2 ^ 64 else 2 ^ 32) -> (Z.to_nat i < length (adma s))%nat ->
  exists d, put_desc i a l p s = Some ((), upd_adma (<[Z.to_nat i := d]> (adma s)) s) /\
    attr d = a /\ desc_addr (wide s) d = p /\ len d = l.
Proof.
  intros Hp Hi. unfold put_desc. destruct (lookup_lt_is_Some_2 _ _ Hi) as [old ->]. eexists. split; [reflexivity|].
  split; [done|]. split; [|done]. unfold desc_addr, wide in *. simpl. unfold u32.
  destruct (has (sflags (hc s)) SF_USE_ADMA64).
  - rewrite Z.shiftr_div_pow2 by lia. rewrite (Z.mod_small (p / 2 ^ 32)).
    + pose proof (Z.div_mod p (2 ^ 32) ltac:(lia)). change 4294967296 with (2 ^ 32). lia.
    + split; [apply Z.div_pos; lia|]. apply Z.div_lt_upper_bound; lia.
  - by apply Z.mod_small.
Qed.

Lemma desc_end d w r : desc_ok w d r ->
  engine w [Desc (Z.lor (attr d) SDHCI_ADMA2_END) (len d) (addr_lo d) (addr_hi d)] = Some [r].
Proof. intros (HA & HR & HL & _). simpl. rewrite HA. simpl. unfold desc_addr in *. simpl. rewrite HR, HL. by destruct r. Qed.

Lemma engine_cons d w r t : desc_ok w d r -> engine w (d :: t) = cons r <$> engine w t.
Proof. intros (HA & HR & HL & _). simpl. rewrite HA. simpl. rewrite HR, HL. by destruct r. Qed.

(** The table with an END mark on its last descriptor. *)
Lemma engine_table w t ds d rs r rest : Forall2 (desc_ok w) ds rs -> desc_ok w d r ->
  t = ds ++ Desc (Z.lor (attr d) SDHCI_ADMA2_END) (len d) (addr_lo d) (addr_hi d) :: rest ->
  engine w t = Some (rs ++ [r]).
Proof.
  intros HF Hd ->. induction HF as [|x y ds rs Hx HF IH]; [|by simpl app; rewrite (engine_cons _ _ _ _ Hx), IH].
  pose proof (desc_end _ _ _ Hd) as E. simpl in *. destruct (has _ _ && _); [|done].
  by destruct (has _ _).
Qed.

(** One entry, after the descriptors [ds]: its descriptors follow if there is
    room for them, and a write is outside the table if not. *)
Lemma adma_entry_ok s fuel : forall acnt paddr count ds rest,
  (Z.to_nat (count / SDHCI_ADMA2_MAX_XFER + 1) < fuel)%nat -> entry_ok (wide s) 0 (Sge paddr count) ->
  acnt = Z.of_nat (length ds) -> acnt + Z.of_nat (length rest) = ADMA_DESC_MAX ->
  (acnt + need count <= ADMA_DESC_MAX -> exists ds' rs,
    adma_entry fuel acnt paddr count (upd_adma (ds ++ rest) s) =
      Some (Some (acnt + need count), upd_adma (ds ++ ds' ++ drop (length ds') rest) s) /\
    Z.of_nat (length ds') = need count /\ Forall2 (desc_ok (wide s)) ds' rs /\ region_bytes rs = seqZ paddr count) /\
  (ADMA_DESC_MAX < acnt + need count -> adma_entry fuel acnt paddr count (upd_adma (ds ++ rest) s) = None).
Proof.
  unfold entry_ok. simpl. setoid_rewrite Z.add_0_r.
  induction fuel as [|fuel IH]; intros acnt paddr count ds rest Hf (Hc & Hp & Hw) Hds Hl; [lia|]. cbn [adma_entry].
  destruct (count =? 0) eqn:E0; zbool.
  { subst count. change (need 0) with 0. rewrite Z.add_0_r. split; [|lia].
    intros _. exists [], []. rewrite drop_0. done. }
  pose proof (need_step count ltac:(lia)) as HS. set (alen := Z.min count SDHCI_ADMA2_MAX_XFER) in *.
  assert (Ha : 0 < alen <= count) by (unfold alen, SDHCI_ADMA2_MAX_XFER; lia).
  pose proof (need_nonneg (count - alen) ltac:(lia)) as HN.
  destruct rest as [|x rest].
  { simpl in Hl. split; [lia|]. intros _. rewrite app_nil_r. unfold put_desc at 1.
    unfold mbind, M_bind. simpl adma. by rewrite (proj2 (lookup_ge_None ds (Z.to_nat acnt))) by lia. }
  destruct (put_desc_ok acnt (Z.lor SDHCI_ADMA2_VALID SDHCI_ADMA2_TRAN) alen paddr (upd_adma (ds ++ x :: rest) s))
    as (d & E & H1 & H2 & H3).
  { change (wide (upd_adma (ds ++ x :: rest) s)) with (wide s). lia. }
  { simpl. rewrite length_app. simpl. lia. }
  change (wide (upd_adma (ds ++ x :: rest) s)) with (wide s) in H2.
  assert (Hok : desc_ok (wide s) d (paddr, alen)) by (unfold desc_ok, alen in *; simpl; split; [done|lia]).
  rewrite (bind_eq _ _ _ _ _ E). simpl adma. rewrite Hds, Nat2Z.id, <- Hds.
  replace (<[length ds := d]> (ds ++ x :: rest)) with ((ds ++ [d]) ++ rest)
    by (rewrite <- app_assoc; simpl; by rewrite insert_app_r_alt, Nat.sub_diag by lia).
  change (upd_adma ((ds ++ [d]) ++ rest) (upd_adma (ds ++ x :: rest) s)) with (upd_adma ((ds ++ [d]) ++ rest) s).
  simpl in Hl. unfold ADMA_DESC_MAX in *. destruct (256 <? acnt + 1) eqn:EM; zbool; [lia|].
  destruct (decide (alen = count)) as [Hz|Hz].
  { replace (count - alen) with 0 in * by lia. change (need 0) with 0 in HS. split; [|lia]. intros _.
    destruct fuel as [|fuel]; [unfold SDHCI_ADMA2_MAX_XFER in *; pose proof (Z.div_pos count 0xf000); lia|].
    exists [d], [(paddr, alen)]. cbn [adma_entry]. rewrite HS, <- app_assoc, Hds. simpl. rewrite drop_0. split; [done|].
    split; [done|]. split; [by constructor; [|constructor]|]. unfold region_bytes. simpl. by rewrite app_nil_r, Hz. }
  assert (Hal : alen = SDHCI_ADMA2_MAX_XFER) by lia.
  rewrite u64_id by (destruct (wide s); lia).
  destruct (IH (acnt + 1) (paddr + alen) (count - alen) (ds ++ [d]) rest) as [IHa IHb].
  - rewrite Hal in *. replace count with (count - SDHCI_ADMA2_MAX_XFER + 1 * SDHCI_ADMA2_MAX_XFER) in Hf by lia.
    unfold SDHCI_ADMA2_MAX_XFER in *. rewrite Z.div_add in Hf by lia. pose proof (Z.div_pos (count - 0xf000) 0xf000). lia.
  - split; [lia|]. split; [lia|]. destruct (wide s); lia.
  - rewrite length_app. simpl. lia.
  - lia.
  - split; [|intros; apply IHb; lia]. intros HB.
    destruct IHa as (ds' & rs & E2 & L2 & F2 & R2); [lia|].
    exists (d :: ds'), ((paddr, alen) :: rs). rewrite E2, <- app_assoc. simpl. split; [by rewrite HS, Z.add_assoc|].
    split; [lia|]. split; [by constructor|]. unfold region_bytes in *. simpl. rewrite R2.
    rewrite <- seqZ_app by lia. f_equal. lia.
Qed.

Lemma region_bytes_app l l' : region_bytes (l ++ l') = region_bytes l ++ region_bytes l'.
Proof. unfold region_bytes. by rewrite map_app, concat_app. Qed.

(** The whole list. *)
Lemma adma_entries_ok s xlat l : forall acnt ds rest,
  Forall (entry_ok (wide s) xlat) l ->
  acnt = Z.of_nat (length ds) -> acnt + Z.of_nat (length rest) = ADMA_DESC_MAX ->
  (acnt + needs l <= ADMA_DESC_MAX -> exists ds' rs,
    adma_entries xlat acnt l (upd_adma (ds ++ rest) s) =
      Some (Some (acnt + needs l), upd_adma (ds ++ ds' ++ drop (length ds') rest) s) /\
    Z.of_nat (length ds') = needs l /\ Forall2 (desc_ok (wide s)) ds' rs /\ region_bytes rs = region_bytes (on_bus xlat l)) /\
  (ADMA_DESC_MAX < acnt + needs l -> adma_entries xlat acnt l (upd_adma (ds ++ rest) s) = None).
Proof.
  induction l as [|e l IH]; intros acnt ds rest HF Hds Hl; cbn [adma_entries needs].
  { rewrite Z.add_0_r. split; [|lia]. intros _. exists [], []. rewrite drop_0. done. }
  apply Forall_cons in HF as [(He1 & He2 & He3) HF].
  assert (HN : 0 <= needs l).
  { clear -HF. induction HF as [|x l (H & _) HF IH]; simpl; [lia|]. pose proof (need_nonneg _ H). lia. }
  rewrite u64_id by (destruct (wide s); lia).
  destruct (adma_entry_ok s (Z.to_nat (sg_count e / SDHCI_ADMA2_MAX_XFER + 2)) acnt (sg_address e + xlat) (sg_count e) ds rest)
    as [Ha Hb]; [|by unfold entry_ok; simpl; rewrite Z.add_0_r|done|done|].
  { unfold SDHCI_ADMA2_MAX_XFER. pose proof (Z.div_pos (sg_count e) 0xf000). lia. }
  destruct (decide (acnt + need (sg_count e) <= ADMA_DESC_MAX)) as [Hd|Hd].
  2: { unfold mbind, M_bind. rewrite Hb by lia. split; [lia|done]. }
  destruct (Ha Hd) as (ds1 & rs1 & E1 & L1 & F1 & R1). rewrite (bind_eq _ _ _ _ _ E1), app_assoc, Z.add_assoc.
  destruct (IH (acnt + need (sg_count e)) (ds ++ ds1) (drop (length ds1) rest) HF) as [IHa IHb].
  { rewrite length_app. lia. }
  { rewrite length_drop. lia. }
  split; [|exact IHb]. intros Hn. destruct (IHa Hn) as (ds2 & rs2 & E2 & L2 & F2 & R2).
  exists (ds1 ++ ds2), (rs1 ++ rs2). rewrite E2, drop_drop, <- !app_assoc, <- length_app. split; [done|].
  rewrite length_app. split; [lia|]. split; [by apply Forall2_app|]. rewrite region_bytes_app, R1, R2. done.
Qed.

Lemma put_end_ok ds d rest s : put_end (Z.of_nat (length ds) + 1) (upd_adma (ds ++ d :: rest) s) =
  Some ((), upd_adma (ds ++ Desc (Z.lor (attr d) SDHCI_ADMA2_END) (len d) (addr_lo d) (addr_hi d) :: rest) s).
Proof.
  unfold put_end. destruct (_ =? 0) eqn:E; zbool; [lia|]. rewrite Z.add_simpl_r, Nat2Z.id. simpl adma.
  rewrite lookup_app_r, Nat.sub_diag by lia. simpl. by rewrite insert_app_r_alt, Nat.sub_diag by lia.
Qed.

(** C15 (the descriptors of a transfer) The controller that reads the table
    that sdhci_adma_setup writes transfers exactly the bytes of the scatter
    list, in order and at their bus addresses, and stops there: for lists
    that take 1 to 256 descriptors.  Each descriptor's length fits its field.
    Then the address of the table is programmed. *)
Theorem adma_describes vtop_sg s : let l := physical vtop_sg (cmd s) in
  Forall (entry_ok (wide s) (bmstr_xlat (hc s))) l -> 1 <= needs l <= ADMA_DESC_MAX ->
  Z.of_nat (length (adma s)) = ADMA_DESC_MAX ->
  exists t rs e, sdhci_adma_setup vtop_sg s = Some (EOK, app_log e (upd_adma t s)) /\
    engine (wide s) t = Some rs /\ region_bytes rs = region_bytes (on_bus (bmstr_xlat (hc s)) l) /\
    Forall (fun r => 0 < snd r < 2 ^ 16) rs /\
    drop (length rs) t = drop (length rs) (adma s) /\
    e = Out 32 SDHCI_ADMA_ADDRL ((admap (hc s) + bmstr_xlat (hc s)) mod 2 ^ 32) ::
        (if wide s then [Out 32 SDHCI_ADMA_ADDRH (u64 (admap (hc s) + bmstr_xlat (hc s)) / 2 ^ 32)] else []).
Proof.
  intros l HF Hn HL. unfold sdhci_adma_setup. rewrite !gets_bind. fold l.
  destruct (adma_entries_ok s (bmstr_xlat (hc s)) l 0 [] (adma s) HF eq_refl) as [(ds & rs & E & L & F & R) _]; [done|lia|].
  replace (upd_adma ([] ++ adma s) s) with s in E by (by destruct s). rewrite (bind_eq _ _ _ _ _ E). cbn [app].
  destruct (exists_last (l := ds)) as (ds0 & d & ->); [intros ->; simpl in L; lia|].
  pose proof (Forall2_length _ _ _ F) as FL. rewrite length_app in FL. simpl in FL.
  assert (Hs : Forall (fun r => 0 < snd r < 2 ^ 16) rs).
  { clear -F. induction F as [|x y a b (_ & _ & _ & H)]; constructor; [|done]. unfold SDHCI_ADMA2_MAX_XFER in H. lia. }
  apply Forall2_app_inv_l in F as (rs0 & rs1 & F0 & F1 & ->). inversion F1 as [|? r ? ? Hd F2]; subst. inversion F2; subst.
  rewrite <- app_assoc, <- L, length_app, Nat2Z.inj_add. change (Z.of_nat (length [d])) with 1. rewrite Z.add_0_l. simpl (_ ++ drop _ _).
  rewrite (bind_eq _ _ _ _ _ (put_end_ok ds0 d _ s)). set (d' := Desc _ _ _ _). set (rest := drop _ (adma s)).
  set (base := admap (hc s) + bmstr_xlat (hc s)).
  assert (HB : u64 base / 2 ^ 32 = Z.shiftr (u64 base) 32 mod 2 ^ 32).
  { rewrite Z.shiftr_div_pow2 by lia. pose proof (u64_range base). symmetry. apply Z.mod_small.
    split; [apply Z.div_pos; lia|apply Z.div_lt_upper_bound; lia]. }
  exists (ds0 ++ d' :: rest), (rs0 ++ [r]), (Out 32 SDHCI_ADMA_ADDRL (base mod 2 ^ 32) ::
    (if wide s then [Out 32 SDHCI_ADMA_ADDRH (u64 base / 2 ^ 32)] else [])).
  rewrite (bind_eq _ _ _ _ _ (out_eq _ _ _ _)). split.
  { unfold wide. destruct (has (sflags (hc s)) SF_USE_ADMA64); [|reflexivity].
    rewrite (bind_eq _ _ _ _ _ (out_eq _ _ _ _)), app_log_app, HB. reflexivity. }
  split; [by apply (engine_table _ _ _ _ _ _ _ F0 Hd eq_refl)|]. split; [done|]. split; [done|]. split; [|done].
  rewrite <- FL. change (d' :: rest) with ([d'] ++ rest). rewrite app_assoc. by rewrite drop_app_length' by (rewrite length_app; done).
Qed.

(** ** The long response *)

(** The 120 bits of the response registers, and the words the code keeps. *)
Definition resp_value (r : list Z) : Z := foldr (fun w acc => w + acc * 2 ^ 32) 0 r.

Lemma rsp_word a b : 0 <= a < 2 ^ 32 -> 0 <= b < 256 ->
  exists w, u32 (u32 (Z.shiftl a 8) + b) = w /\ w = a mod 2 ^ 24 * 256 + b /\ 0 <= Z.shiftr a 24 < 256.
Proof.
  intros Ha Hb. eexists. split; [reflexivity|]. revert Ha Hb.
  intros Ha Hb. rewrite Z.shiftl_mul_pow2, Z.shiftr_div_pow2 by lia.
  pose proof (Z.div_mod a (2 ^ 24) ltac:(lia)) as E. pose proof (Z.mod_pos_bound a (2 ^ 24) ltac:(lia)) as B.
  assert (0 <= a / 2 ^ 24 < 256) by (split; [apply Z.div_pos; lia|apply Z.div_lt_upper_bound; lia]). split; [|done].
  unfold u32 at 2. rewrite E at 1. replace ((2 ^ 24 * (a / 2 ^ 24) + a mod 2 ^ 24) * 2 ^ 8)
    with (a mod 2 ^ 24 * 256 + a / 2 ^ 24 * 4294967296) by lia.
  rewrite Z.mod_add by lia. rewrite Z.mod_small by lia. apply u32_id. lia.
Qed.

Lemma field_shift V R q start size : V + q * 2 ^ 128 = R * 256 -> 8 <= start -> 0 <= size -> start + size <= 128 ->
  field V start size = field R (start - 8) size.
Proof.
  intros E H1 H2 H3. unfold field. replace V with (R * 2 ^ 8 + - q * 2 ^ (128 - start) * 2 ^ start).
  2: { rewrite <- Z.mul_assoc, <- Z.pow_add_r by lia. replace (128 - start + start) with 128 by lia. lia. }
  rewrite Z.div_add by (apply Z.pow_nonzero; lia).
  replace (2 ^ (128 - start)) with (2 ^ (128 - start - size) * 2 ^ size).
  2: { rewrite <- Z.pow_add_r by lia. f_equal. lia. }
  rewrite Z.mul_assoc, Z.mod_add by (apply Z.pow_nonzero; lia). f_equal.
  replace (2 ^ start) with (2 ^ (start - 8) * 2 ^ 8) by (rewrite <- Z.pow_add_r by lia; f_equal; lia).
  apply Z.div_mul_cancel_r; apply Z.pow_nonzero; lia.
Qed.

Section response.
Context (device : list event -> Z -> Z -> Z).

(** The words [w] so far, after the accesses [l]. *)
Definition with_rsp (l : list event) (w : list Z) (s : st) : st := app_log l (upd_cmd (set_rsp w (cmd s)) (active s) s).

Lemma rsp_step n idx rb l w s : 0 <= rb < 256 -> exists v a,
  rsp_136 device (S n) idx rb (with_rsp l w s) =
    rsp_136 device n (idx + 1) (Z.shiftr v 24)
      (with_rsp (l ++ [In 32 (SDHCI_RESP0 + idx * 4) v]) (<[Z.to_nat (3 - idx) := a]> w) s) /\
  0 <= v < 2 ^ 32 /\ a = v mod 2 ^ 24 * 256 + rb /\ 0 <= Z.shiftr v 24 < 256.
Proof.
  intros Hb. cbn [rsp_136]. destruct (in_eq device 32 (SDHCI_RESP0 + idx * 4) (with_rsp l w s)) as (v & E & B & _).
  specialize (B ltac:(lia)). destruct (rsp_word v rb B Hb) as (a & Ea & A & C). exists v, a.
  rewrite (bind_eq _ _ _ _ _ E), Ea. unfold with_rsp. rewrite app_log_app. done.
Qed.

(** The four reads and the words. *)
Lemma rsp_136_ok s : length (rsp (cmd s)) = 4%nat -> exists r0 r1 r2 r3 w,
  rsp_136 device 4 0 0 s = Some ((), with_rsp [In 32 SDHCI_RESP0 r0; In 32 (SDHCI_RESP0 + 4) r1;
    In 32 (SDHCI_RESP0 + 8) r2; In 32 (SDHCI_RESP0 + 12) r3] w s) /\
  words_ok w /\ length w = 4%nat /\
  exists q, register w + q * 2 ^ 128 = resp_value [r0; r1; r2; r3] * 256.
Proof.
  intros HL.
  assert (E : rsp_136 device 4 0 0 s = rsp_136 device 4 0 0 (with_rsp [] (rsp (cmd s)) s)).
  { unfold with_rsp. rewrite app_log_nil. by destruct s as [? ? ? ? ? ? [] ? ? ?]. }
  rewrite E. clear E.
  revert HL. generalize (rsp (cmd s)). intros w HL. destruct w as [|x0 [|x1 [|x2 [|x3 [|]]]]]; try done.
  destruct (rsp_step 3 0 0 [] [x0; x1; x2; x3] s) as (v & a0 & -> & B0 & A0 & C0); [lia|].
  match goal with |- context [rsp_136 device 3 _ ?b (with_rsp ?l ?w s)] =>
    destruct (rsp_step 2 1 b l w s C0) as (v0 & a1 & E1 & B1 & A1 & C1); change (0 + 1) with 1; rewrite E1; clear E1 end.
  match goal with |- context [rsp_136 device 2 _ ?b (with_rsp ?l ?w s)] =>
    destruct (rsp_step 1 2 b l w s C1) as (v1 & a2 & E1 & B2 & A2 & C2); change (1 + 1) with 2; rewrite E1; clear E1 end.
  match goal with |- context [rsp_136 device 1 _ ?b (with_rsp ?l ?w s)] =>
    destruct (rsp_step 0 3 b l w s C2) as (v2 & a3 & E1 & B3 & A3 & C3); change (2 + 1) with 3; rewrite E1; clear E1 end.
  exists v, v0, v1, v2, [a3; a2; a1; a0]. split; [reflexivity|].
  pose proof (fun x => Z.mod_pos_bound x (2 ^ 24) ltac:(lia)) as HM.
  pose proof (HM v). pose proof (HM v0). pose proof (HM v1). pose proof (HM v2). clear HM.
  split; [repeat constructor; simpl; lia|]. split; [done|]. exists (v2 / 2 ^ 24).
  pose proof (fun x => Z.div_mod x (2 ^ 24) ltac:(lia)) as HD. rewrite Z.shiftr_div_pow2 in A1, A2, A3 by lia.
  pose proof (HD v). pose proof (HD v0). pose proof (HD v1). pose proof (HD v2). clear HD.
  unfold register, resp_value. cbn [foldl foldr]. lia.
Qed.

(** The interrupts other than the end of a command that the handler acts on. *)
Definition other_intrs : Z := Z.lor SDHCI_INTR_ERRI (Z.lor (Z.lor SDHCI_INTR_TC SDHCI_INTR_DMA)
  (Z.lor (Z.lor SDHCI_INTR_BWR SDHCI_INTR_BRR) (Z.lor (Z.lor SDHCI_INTR_CINS SDHCI_INTR_CREM) SDCHI_INTR_RETUNE))).

Lemma has_none v a m : Z.land v a = 0 -> Z.land a m = m -> has v m = false.
Proof. intros H <-. unfold has. by rewrite Z.land_assoc, H, Z.land_0_l. Qed.

(** The status that an interrupt acts on, and the accesses before it does. *)
Definition raw_status (s : st) : Z := device (log s) 32 SDHCI_IS mod 2 ^ 32.
Definition enabled (s : st) : Z := device (log s ++ [In 32 SDHCI_IS (raw_status s)]) 32 SDHCI_IE mod 2 ^ 32.
Definition intr_status (s : st) : Z := Z.land (raw_status s) (Z.lor (enabled s) SDHCI_INTR_ERRI).
Definition acknowledge (s : st) : list event :=
  [In 32 SDHCI_IS (raw_status s); In 32 SDHCI_IE (enabled s); Out 32 SDHCI_IS (intr_status s mod 2 ^ 32)].

(** Without an error and without a change of the card only the command counts. *)
Definition abnormal : Z := Z.lor SDHCI_INTR_ERRI (Z.lor (Z.lor SDHCI_INTR_CINS SDHCI_INTR_CREM) SDCHI_INTR_RETUNE).
Lemma intr_normal fuel s cs s1 : intr_status s <> 0 -> Z.land (intr_status s) abnormal = 0 -> active s = true ->
  (cs ← command_complete device (intr_status s) CS_CMD_INPROG; cs ← transfer_complete device (intr_status s) cs;
   buffer_ready device fuel (intr_status s) cs) (app_log (acknowledge s) s) = Some (cs, s1) ->
  sdhci_intr_event device fuel s =
    Some (EOK, if cs =? CS_CMD_INPROG then s1 else upd_cmd (set_cstatus cs (cmd s1)) false s1).
Proof.
  intros H0 HO HA E. unfold sdhci_intr_event.
  rewrite (bind_eq _ _ _ _ _ (eq_refl : sdhci_in device 32 SDHCI_IS s =
    Some (raw_status s, app_log [In 32 SDHCI_IS (raw_status s)] s))).
  destruct (raw_status s =? 0) eqn:E0; zbool.
  { exfalso. apply H0. unfold intr_status. by rewrite E0, Z.land_0_l. }
  rewrite (bind_eq _ _ _ _ _ (eq_refl : sdhci_in device 32 SDHCI_IE (app_log [In 32 SDHCI_IS (raw_status s)] s) =
    Some (enabled s, app_log [In 32 SDHCI_IE (enabled s)] (app_log [In 32 SDHCI_IS (raw_status s)] s)))).
  fold (intr_status s). rewrite app_log_app, (bind_eq _ _ _ _ _ (out_eq _ _ _ _)), app_log_app.
  rewrite (has_none _ _ (Z.lor SDHCI_INTR_CINS SDHCI_INTR_CREM) HO eq_refl), (has_none _ _ SDCHI_INTR_RETUNE HO eq_refl).
  rewrite !ret_bind, gets_bind. change (active (app_log ?l s)) with (active s). rewrite HA. cbn [negb].
  rewrite (has_none _ _ SDHCI_INTR_ERRI HO eq_refl), (has_none _ _ SDHCI_INTR_CREM HO eq_refl).
  simpl app. fold (acknowledge s). rewrite (bind_eq _ _ _ _ _ E). by destruct (cs =? CS_CMD_INPROG).
Qed.

(** An interrupt that reports the end of a command with
    a 136-bit response, and nothing else, completes the command; bits 8 to
    127 of the register that the card sent, which is what the CID and CSD
    parsers extract from the kept words, are bits 0 to 119 of the response
    registers. *)
Theorem long_response_kept fuel s :
  has (intr_status s) SDHCI_INTR_CC = true -> Z.land (intr_status s) other_intrs = 0 ->
  active s = true -> has (cflags (cmd s)) SCF_RSP_136 = true -> length (rsp (cmd s)) = 4%nat ->
  exists s' r0 r1 r2 r3, sdhci_intr_event device fuel s = Some (EOK, s') /\
    active s' = false /\ cstatus (cmd s') = CS_CMD_CMP /\ mem s' = mem s /\
    log s' = log s ++ acknowledge s ++ [In 32 SDHCI_RESP0 r0; In 32 (SDHCI_RESP0 + 4) r1;
      In 32 (SDHCI_RESP0 + 8) r2; In 32 (SDHCI_RESP0 + 12) r3] /\
    forall start size, 8 <= start -> 1 <= size <= 32 -> start + size <= 128 ->
      sdio_extract_bits (rsp (cmd s')) 128 start size = field (resp_value [r0; r1; r2; r3]) (start - 8) size.
Proof.
  intros HC HO HA HR HL. set (sts := intr_status s) in *. set (s0 := app_log (acknowledge s) s).
  destruct (rsp_136_ok s0 HL) as (r0 & r1 & r2 & r3 & w & E & W & L & q & V).
  set (l := [In 32 SDHCI_RESP0 r0; _; _; _]) in *.
  assert (EC : command_complete device sts CS_CMD_INPROG s0 = Some (CS_CMD_CMP, with_rsp l w s0)).
  { unfold command_complete. rewrite gets_bind, HC. change (cmd s0) with (cmd s). rewrite HR.
    by rewrite (bind_eq _ _ _ _ _ E). }
  rewrite (intr_normal fuel s CS_CMD_CMP (with_rsp l w s0)); [|intros E0; fold sts in E0; by rewrite E0 in HC| |done|].
  - eexists _, r0, r1, r2, r3. split; [reflexivity|]. split; [done|]. split; [done|]. split; [done|]. split.
    { simpl. by rewrite <- app_assoc. }
    intros start size H1 H2 H3. simpl rsp. rewrite extract_csd by first [done|lia].
    apply (field_shift _ _ q); [done|lia|lia|lia].
  - fold sts. change abnormal with (Z.land other_intrs abnormal). by rewrite Z.land_assoc, HO, Z.land_0_l.
  - fold sts s0. rewrite (bind_eq _ _ _ _ _ EC). unfold transfer_complete, buffer_ready.
    by rewrite (has_none _ _ SDHCI_INTR_TC HO eq_refl), (has_none _ _ SDHCI_INTR_DMA HO eq_refl), ret_bind,
      (has_none _ _ (Z.lor SDHCI_INTR_BWR SDHCI_INTR_BRR) HO eq_refl).
Qed.
End response.

(** ** Starting a command *)

(** What the controller reads in the command register. *)
Definition cmd_index (w : Z) : Z := Z.land (Z.shiftr w 24) 63.
Definition cmd_response (w : Z) : Z := Z.land (Z.shiftr w 16) 3.
Definition response_type (f : Z) : Z :=
  if has f SCF_RSP_PRESENT then if has f SCF_RSP_136 then 1 else if has f SCF_RSP_BUSY then 3 else 2 else 0.

Definition response_cases : list (Z * Z) :=
  [(0, 0); (0x10000, 1); (0x110000, 1); (0x90000, 1); (0x190000, 1); (0x20000, 2); (0x120000, 2); (0xa0000, 2);
     (0x1a0000, 2); (0x30000, 3); (0x130000, 3); (0xb0000, 3); (0x1b0000, 3)].

Lemma command_word op f : 0 <= op < 64 ->
  let w := Z.lor (if op =? MMC_STOP_TRANSMISSION then Z.lor (u32 (Z.shiftl op 24)) SDHCI_CMD_TYPE_CMD12
                  else u32 (Z.shiftl op 24)) (response_bits f) in
  0 <= w < 2 ^ 32 /\ cmd_index w = op /\ cmd_response w = response_type f /\ has w SDHCI_CMD_DP = false.
Proof.
  intros Hop.
  assert (H : forallb (fun n => forallb (fun r => let op := Z.of_nat n in
    let w := Z.lor (if op =? MMC_STOP_TRANSMISSION then Z.lor (u32 (Z.shiftl op 24)) SDHCI_CMD_TYPE_CMD12
                    else u32 (Z.shiftl op 24)) (fst r) in
    (0 <=? w) && (w <? 2 ^ 32) && (cmd_index w =? op) && (cmd_response w =? snd r) && negb (has w SDHCI_CMD_DP))
    response_cases) (seq 0 64) = true) by (vm_compute; reflexivity).
  rewrite forallb_forall in H. specialize (H (Z.to_nat op) ltac:(apply in_seq; lia)).
  rewrite Z2Nat.id in H by lia. rewrite forallb_forall in H.
  specialize (H (response_bits f, response_type f)). cbv zeta in H. simpl fst in H. simpl snd in H.
  assert (HI : List.In (response_bits f, response_type f) response_cases).
  { unfold response_bits, response_type. destruct (has f SCF_RSP_PRESENT), (has f SCF_RSP_136), (has f SCF_RSP_BUSY),
      (has f SCF_RSP_OPCODE), (has f SCF_RSP_CRC); vm_compute; tauto. }
  specialize (H HI). apply andb_true_iff in H as [H H5]. apply andb_true_iff in H as [H H4].
  apply andb_true_iff in H as [H H3]. apply andb_true_iff in H as [H1 H2]. apply negb_true_iff in H5. intros w. unfold w. zbool.
  done.
Qed.

(** Starting a command. A command without data clears the status, waits
    for the controller to take commands and only then, as the last accesses,
    enables the interrupts, writes the argument and writes the command, with
    its index and the type of its response; else it ends with ETIMEDOUT and
    no command is written. *)
Theorem command_issued device vtop_sg s : let c := cmd s in
  has (cflags c) SCF_DATA_MSK = false -> 0 <= opcode c < 64 ->
  exists e l tail, sdhci_cmd device vtop_sg s =
      Some (e, app_log (Out 32 SDHCI_IS SDHCI_INTR_CLR_MSK :: l ++ tail) s) /\ polls SDHCI_PSTATE l /\
    ((e = EOK /\ exists l0 v im w, l = l0 ++ [In 32 SDHCI_PSTATE v] /\ has v SDHCI_PSTATE_CMDI = false /\
        tail = [Out 32 SDHCI_IE im; Out 32 SDHCI_ARG (arg c mod 2 ^ 32); Out 32 SDHCI_CMD w] /\
        has im SDHCI_INTR_CC = true /\ cmd_index w = opcode c /\ cmd_response w = response_type (cflags c) /\
        has w SDHCI_CMD_DP = false) \/
     (e = ETIMEDOUT /\ tail = [])).
Proof.
  intros c HD Hop. unfold sdhci_cmd. rewrite !gets_bind. fold c. rewrite HD.
  rewrite (bind_eq _ _ _ _ _ (out_eq _ _ _ _)), ret_bind. change (SDHCI_INTR_CLR_MSK mod 2 ^ 32) with SDHCI_INTR_CLR_MSK.
  match goal with |- context [decide (EOK <> EOK)] => rewrite decide_False by congruence end.
  match goal with |- context [sdhci_waitmask device ?r ?m ?v ?u] =>
    destruct (waitmask_ok device r m v u (app_log [Out 32 SDHCI_IS SDHCI_INTR_CLR_MSK] s)) as (e & l & E & P & He & Hok) end.
  rewrite (bind_eq _ _ _ _ _ E), app_log_app. exists e, l.
  destruct (command_word (opcode c) (cflags c) Hop) as (W1 & W2 & W3 & W4).
  destruct He as [->| ->].
  - rewrite decide_False by congruence. rewrite !(bind_eq _ _ _ _ _ (out_eq _ _ _ _)), !app_log_app.
    eexists. split; [unfold mret, M_ret; do 3 f_equal; rewrite <- !app_assoc; reflexivity|]. split; [done|]. left. split; [done|].
    destruct (Hok eq_refl) as (l0 & v & -> & HV). eexists l0, v, _, _. split; [done|].
    split; [unfold has; by rewrite HV|]. split; [reflexivity|]. split; [|rewrite Z.mod_small by done; done].
    by destruct (has (caps (hc s)) HC_CAP_SLOT_TYPE_EMBEDDED).
  - rewrite decide_True by congruence. exists []. rewrite app_nil_r. split; [done|]. split; [done|]. by right.
Qed.

(** ** An example *)
Definition example_host : host := Host SDHCI_SPEC_VER_3 HC_CAP_DMA (Z.lor SF_USE_ADMA SF_USE_ADMA64) 0 200000000 97751 0 0 0
  ADMA_DESC_MAX 0x3000 0.
Definition example_cmd (f : Z) (l : list sge) : sdio_cmd_t := Cmd f 0 18 0 [0; 0; 0; 0] 8 512 l.
Definition example_st (f : Z) (l : list sge) : st := St [] example_host (Setting 0 0 0 0 1 0 0) 0 0 (Wspc [] 0 0 0)
  (example_cmd f l) true (repeat (Desc 0 0 0 0) 256) [].
Definition example_sgl : list sge := [Sge 0x1ffff0000 100000; Sge 0x40000 512].

Lemma clock_divided_witness : let device := fun (_ : list event) (_ _ : Z) => 0 in let s := example_st 0 [] in
  clock_ok (hc s) 25000000 /\
  exists l1 v l2, sdhci_clk device 25000000 s = Some (EOK, upd_bus (with_clk 25000000)
      (app_log (l1 ++ Out 32 SDHCI_SYSCTL v :: l2 ++ [Out 32 SDHCI_SYSCTL (Z.lor v SDHCI_SYSCTL_CEN)]) s)) /\
    fits_clock (hc s) (prog_mode (hc s)) (clk_field v) 25000000.
Proof.
  intros device s.
  assert (HC : clock_ok (hc s) 25000000) by (split; vm_compute; congruence). split; [exact HC|].
  destruct (clock_divided device 25000000 s HC) as (l1 & v & l2 & presets & E & _ & _ & A & D).
  cbv [asked_presets prog_mode hc s example_st example_host version clk_mul andb negb Z.leb Z.eqb Z.compare SDHCI_SPEC_VER_3] in A.
  exists l1, v, l2. split; [exact E|]. assert (presets = false) as -> by exact A. exact (proj2 D).
Defined.

Lemma adma_describes_witness : let s := example_st SCF_DATA_PHYS example_sgl in
  needs example_sgl = 3 /\ exists t rs e, sdhci_adma_setup id s = Some (EOK, app_log e (upd_adma t s)) /\
    engine true t = Some rs /\ region_bytes rs = region_bytes [(0x1ffff0000, 100000); (0x40000, 512)].
Proof.
  split; [reflexivity|].
  destruct (adma_describes id (example_st SCF_DATA_PHYS example_sgl)) as (t & rs & e & E & G & R & _).
  - repeat constructor; vm_compute; congruence.
  - vm_compute. split; congruence.
  - reflexivity.
  - exists t, rs, e. split; [exact E|]. split; [exact G|].
    exact (eq_trans R (f_equal region_bytes eq_refl)).
Defined.

Lemma long_response_kept_witness : let device := fun (l : list event) (_ off : Z) =>
    if off =? SDHCI_IS then SDHCI_INTR_CC else if off =? SDHCI_IE then SDHCI_INTR_CC else 0x5b590000 in
  exists s' r0 r1 r2 r3, sdhci_intr_event device 0 (example_st SCF_RSP_136 []) = Some (EOK, s') /\
    cstatus (cmd s') = CS_CMD_CMP /\
    sdio_extract_bits (rsp (cmd s')) 128 62 12 = field (resp_value [r0; r1; r2; r3]) 54 12.
Proof.
  intros device.
  destruct (long_response_kept device 0 (example_st SCF_RSP_136 [])) as (s' & r0 & r1 & r2 & r3 & E & _ & C & _ & _ & F);
    [reflexivity|reflexivity|reflexivity|reflexivity|reflexivity|].
  exists s', r0, r1, r2, r3. split; [exact E|]. split; [exact C|]. apply (F 62 12); lia.
Defined.

Lemma command_issued_witness : let s := example_st (Z.lor SCF_RSP_PRESENT SCF_RSP_CRC) [] in
  exists e l tail, sdhci_cmd (fun _ _ _ => 0) id s = Some (e, app_log (Out 32 SDHCI_IS SDHCI_INTR_CLR_MSK :: l ++ tail) s) /\
    polls SDHCI_PSTATE l /\ (e = ETIMEDOUT -> tail = []).
Proof.
  intros s. destruct (command_issued (fun _ _ _ => 0) id s) as (e & l & tail & E & P & H); [reflexivity|split; vm_compute; congruence|].
  exists e, l, tail. split; [exact E|]. split; [exact P|]. destruct H as [[-> _]|[_ H]]; [discriminate|by intros _].
Defined.
