(* ===== verification/SdhciPio.v ===== *)
(** * Transfers without DMA in the host controller driver

    sdhci_pio_xfer moves words between the data port and the bytes of the
    scatter list.  Here are the bytes the list still describes, and what the
    loops do with them, for a controller that is ready for a bounded number
    of blocks. *)
From S2P Require Import Prelude Driver SdioConst SdioReg Sdhci SdhciCtl.
Open Scope Z_scope.

(** ** Words and bytes *)

(** The words of the data port in some accesses, and their bytes. *)
Definition data_word (e : event) : list Z :=
  match e with In _ off v | Out _ off v => if off =? SDHCI_DATA then [v] else [] end.
Definition data_words (l : list event) : list Z := concat (map data_word l).
Definition word_bytes (vs : list Z) : list Z := concat (map (le_bytes 4) vs).

(** Bytes written to some addresses one after the other, and read. *)
Fixpoint write_bytes (m : list Z) (ps bs : list Z) : list Z :=
  match ps, bs with
  | p :: ps, b :: bs => write_bytes (<[Z.to_nat p := b]> m) ps bs
  | _, _ => m
  end.
Definition bytes_at (m : list Z) (ps : list Z) : list Z := map (fun p => default 0 (m !! Z.to_nat p)) ps.

Definition in_mem (m : list Z) (ps : list Z) : Prop := Forall (fun p => 0 <= p < Z.of_nat (length m)) ps.
Definition bytes_ok (m : list Z) : Prop := Forall (fun b => 0 <= b < 256) m.

Lemma data_words_app l l' : data_words (l ++ l') = data_words l ++ data_words l'.
Proof. unfold data_words. by rewrite map_app, concat_app. Qed.
Lemma word_bytes_app l l' : word_bytes (l ++ l') = word_bytes l ++ word_bytes l'.
Proof. unfold word_bytes. by rewrite map_app, concat_app. Qed.
Lemma length_word_bytes vs : length (word_bytes vs) = (4 * length vs)%nat.
Proof.
  induction vs as [|v vs IH]; [done|]. change (word_bytes (v :: vs)) with (le_bytes 4 v ++ word_bytes vs).
  rewrite length_app, IH. simpl. lia.
Qed.

Lemma length_write_bytes ps : forall m bs, length (write_bytes m ps bs) = length m.
Proof.
  induction ps as [|p ps IH]; intros m bs; [done|]. destruct bs as [|b bs]; [done|]. simpl. by rewrite IH, length_insert.
Qed.
Lemma write_bytes_app ps : forall m bs ps' bs', length ps = length bs ->
  write_bytes m (ps ++ ps') (bs ++ bs') = write_bytes (write_bytes m ps bs) ps' bs'.
Proof.
  induction ps as [|p ps IH]; intros m bs ps' bs' HL; destruct bs as [|b bs]; try done. simpl in *. apply IH. lia.
Qed.

Lemma seqZ_4 a n : 4 <= n -> seqZ a n = [a; a + 1; a + 2; a + 3] ++ seqZ (a + 4) (n - 4).
Proof.
  intros Hn. rewrite 4 seqZ_cons by lia. cbn [app]. repeat f_equal; lia.
Qed.

Lemma inserts_4 a b0 b1 b2 b3 m : 0 <= a ->
  list_inserts (Z.to_nat a) [b0; b1; b2; b3] m = write_bytes m [a; a + 1; a + 2; a + 3] [b0; b1; b2; b3].
Proof.
  intros Ha. simpl. rewrite !Z2Nat.inj_add by lia. change (Z.to_nat 1) with 1%nat. change (Z.to_nat 2) with 2%nat.
  change (Z.to_nat 3) with 3%nat.  generalize (Z.to_nat a). intros i. replace (i + 1)%nat with (S i) by lia. replace (i + 2)%nat with (S (S i)) by lia.
  replace (i + 3)%nat with (S (S (S i))) by lia.
  rewrite (list_insert_insert_ne _ i (S i)), (list_insert_insert_ne _ i (S (S i))), (list_insert_insert_ne _ i (S (S (S i)))),
    (list_insert_insert_ne _ (S i) (S (S i))), (list_insert_insert_ne _ (S i) (S (S (S i)))),
    (list_insert_insert_ne _ (S (S i)) (S (S (S i)))) by lia. done.
Qed.

Lemma le_value_bytes l : bytes_ok l -> le_bytes (length l) (le_value l) = l /\ 0 <= le_value l < 2 ^ (8 * Z.of_nat (length l)).
Proof.
  induction 1 as [|b l Hb HF [IH1 IH2]]; [done|]. simpl le_bytes. simpl le_value.
  rewrite (Z.mul_comm 256), Z.mod_add, Z.div_add, (Z.mod_small b), (Z.div_small b), Z.add_0_l, IH1 by lia.
  split; [done|]. simpl length. replace (8 * Z.of_nat (S (length l))) with (8 * Z.of_nat (length l) + 8) by lia.
  rewrite Z.pow_add_r by lia. lia.
Qed.

(** ** The bytes that the scatter list still describes *)
Definition positions (l : list sge) : list Z := concat (map (fun e => seqZ (sg_address e) (sg_count e)) l).
Definition pending (w : wspc) : list Z := seqZ (sga w) (sgc w) ++ positions (tail (sges w)).

(** Entries of whole words; the count includes the current one. *)
Definition sge_ok (e : sge) : Prop := 0 <= sg_count e /\ sg_count e mod 4 = 0.
Definition ws_ok (w : wspc) : Prop :=
  sges w <> [] /\ nsg w = Z.of_nat (length (sges w)) /\ nsg w < 2 ^ 32 /\
  0 <= sgc w /\ sgc w mod 4 = 0 /\ Forall sge_ok (sges w).

Lemma min_mod4 a b : a mod 4 = 0 -> b mod 4 = 0 -> Z.min a b mod 4 = 0.
Proof. intros Ha Hb. by destruct (Z.min_spec a b) as [[_ ->]|[_ ->]]. Qed.
Lemma sub_mod4 a b : a mod 4 = 0 -> b mod 4 = 0 -> (a - b) mod 4 = 0.
Proof. intros Ha Hb. by rewrite Zminus_mod, Ha, Hb. Qed.

(** The next piece; the list gets shorter where it is empty. *)
Lemma sg_nxt_ok b s : ws_ok (ws s) -> 0 < b -> b mod 4 = 0 -> b <= Z.of_nat (length (pending (ws s))) ->
  exists a len w, sdio_sg_nxt b s = Some (Some (a, len), upd_ws w s) /\ ws_ok w /\
    0 <= len <= b /\ len mod 4 = 0 /\ pending (ws s) = seqZ a len ++ pending w /\
    (0 < len \/ (length (sges w) < length (sges (ws s)))%nat) /\ (length (sges w) <= length (sges (ws s)))%nat.
Proof.
  intros (H1 & H2 & H3 & H4 & H5 & H6) Hb Hb4 HL. unfold sdio_sg_nxt. rewrite gets_bind.
  destruct (ws s) as [l a n c] eqn:EW. simpl in *. destruct l as [|e l]; [done|]. clear H1. simpl in H2.
  rewrite (proj2 (Z.eqb_neq n 0)) by lia. cbn [andb]. destruct (c =? 0) eqn:E0; zbool.
  - subst c. unfold pending in *. simpl in HL |- *. destruct l as [|e' l]; [simpl in HL; lia|].
    rewrite ret_bind. simpl. apply Forall_cons in H6 as [_ H6]. pose proof H6 as H6'. apply Forall_cons in H6' as [[He1 He2] _].
    set (len := Z.min (sg_count e') b).
    exists (sg_address e'), len, (Wspc (e' :: l) (sg_address e' + len) (u32 (n - 1)) (sg_count e' - len)).
    assert (Hl : 0 <= len <= b /\ len <= sg_count e') by (unfold len; lia). assert (Hl4 : len mod 4 = 0) by by apply min_mod4.
    split; [done|]. simpl. split.
    { split; [done|]. simpl. rewrite u32_id by (simpl in H2; lia). split; [simpl in *; lia|]. split; [lia|]. split; [lia|].
      split; [by apply sub_mod4|done]. }
    split; [lia|]. split; [done|]. split; [|lia]. unfold positions. simpl. rewrite app_assoc, <- seqZ_app by lia. do 2 f_equal. lia.
  - rewrite ret_bind. simpl. set (len := Z.min c b). exists a, len, (Wspc (e :: l) (a + len) n (c - len)).
    assert (Hl : 0 < len <= b /\ len <= c) by (unfold len; lia). assert (Hl4 : len mod 4 = 0) by by apply min_mod4.
    split; [done|]. split.
    { split; [done|]. simpl. split; [done|]. split; [lia|]. split; [lia|]. split; [by apply sub_mod4|done]. }
    split; [lia|]. split; [done|]. split; [|simpl; lia]. unfold pending. simpl. rewrite app_assoc, <- seqZ_app by lia. do 2 f_equal. lia.
Qed.

(** ** The loops *)

(** What a run of accesses has moved: words into the bytes, or from them. *)
Definition io (dir_in : bool) (v : Z) : event := if dir_in then In 32 SDHCI_DATA v else Out 32 SDHCI_DATA v.
Definition moved (dir_in : bool) (m ps m' vs : list Z) : Prop :=
  if dir_in then m' = write_bytes m ps (word_bytes vs) else m' = m /\ word_bytes vs = bytes_at m ps.

Lemma moved_app d m ps m' vs ps' m'' vs' : moved d m ps m' vs -> moved d m' ps' m'' vs' -> length ps = (4 * length vs)%nat ->
  moved d m (ps ++ ps') m'' (vs ++ vs').
Proof.
  unfold moved. rewrite word_bytes_app. destruct d.
  - intros -> -> HL. symmetry. apply write_bytes_app. by rewrite length_word_bytes.
  - intros [-> ->] [-> ->] _. split; [done|]. unfold bytes_at. by rewrite map_app.
Qed.
Lemma moved_nil d m : moved d m [] m [].
Proof. by destruct d. Qed.
Lemma moved_length d m ps m' vs : moved d m ps m' vs -> length m' = length m.
Proof. destruct d; [intros ->; apply length_write_bytes|by intros [-> _]]. Qed.
Lemma moved_bytes d m ps m' vs : moved d m ps m' vs -> d = false -> bytes_ok m -> bytes_ok m'.
Proof. intros H -> Hm. by destruct H as [-> _]. Qed.

Lemma data_words_io d vs : data_words (map (io d) vs) = vs.
Proof. induction vs as [|v vs IH]; [done|]. unfold data_words in *. simpl. rewrite IH. by destruct d. Qed.

Definition with_io (l : list event) (m : list Z) (w : wspc) (s : st) : st := upd_ws w (upd_mem m (app_log l s)).
Lemma with_io_with_io l m w l' m' w' s : with_io l' m' w' (with_io l m w s) = with_io (l ++ l') m' w' s.
Proof. unfold with_io. change (app_log l' (upd_ws w (upd_mem m (app_log l s)))) with (upd_ws w (upd_mem m (app_log l' (app_log l s)))).
  rewrite app_log_app. done. Qed.
Lemma with_io_id s : with_io [] (mem s) (ws s) s = s.
Proof. unfold with_io. rewrite app_log_nil. by destruct s. Qed.

Section device.
Context (device : list event -> Z -> Z -> Z).

Definition words (d : bool) (n : nat) (a : Z) : M st () := if d then sdhci_in32s device n a else sdhci_out32s n a.

Lemma words_step d n a s : 0 <= a -> (Z.to_nat a + 4 <= length (mem s))%nat -> (d = false -> bytes_ok (mem s)) ->
  exists m v, words d (S n) a s = words d n (a + 4) (with_io [io d v] m (ws s) s) /\
    moved d (mem s) [a; a + 1; a + 2; a + 3] m [v].
Proof.
  intros Ha HL Hb. destruct d; cbn [words sdhci_in32s sdhci_out32s].
  - destruct (in_eq device 32 SDHCI_DATA s) as (v & E & _). exists (list_inserts (Z.to_nat a) (le_bytes 4 v) (mem s)), v.
    rewrite (bind_eq _ _ _ _ _ E). split.
    + apply (bind_eq (store32 a v) (fun _ => sdhci_in32s device n (a + 4)) _ ()). unfold store32. simpl mem. by rewrite decide_True by done.
    + exact (inserts_4 a _ _ _ _ (mem s) Ha).
  - specialize (Hb eq_refl). set (bs := take 4 (drop (Z.to_nat a) (mem s))).
    assert (Hbs : bytes_ok bs) by (by apply Forall_take, Forall_drop).
    assert (H4 : length bs = 4%nat) by (unfold bs; rewrite length_take, length_drop; lia).
    destruct (le_value_bytes bs Hbs) as [Hv Hr]. rewrite H4 in Hv, Hr. change (8 * Z.of_nat 4) with 32 in Hr.
    exists (mem s), (le_value bs). split.
    + rewrite (bind_eq _ _ s (le_value bs) s); [|by unfold load32; rewrite decide_True].
      rewrite (bind_eq _ _ _ _ _ (out_eq _ _ _ _)), Z.mod_small by done. by destruct s.
    + split; [done|]. unfold word_bytes. cbn [map concat]. rewrite Hv, app_nil_r. unfold bytes_at. cbn [map].
      assert (HB : forall j, (j < 4)%nat -> default 0 (mem s !! Z.to_nat (a + Z.of_nat j)) = default 0 (bs !! j)).
      { intros j Hj. unfold bs. rewrite lookup_take_lt, lookup_drop by done. do 2 f_equal. lia. }
      pose proof (HB 0%nat ltac:(lia)) as B0. pose proof (HB 1%nat ltac:(lia)) as B1.
      pose proof (HB 2%nat ltac:(lia)) as B2. pose proof (HB 3%nat ltac:(lia)) as B3.
      change (Z.of_nat 0) with 0 in B0. rewrite Z.add_0_r in B0. change (Z.of_nat 1) with 1 in B1.
      change (Z.of_nat 2) with 2 in B2. change (Z.of_nat 3) with 3 in B3. rewrite B0, B1, B2, B3.
      clearbody bs. by destruct bs as [|? [|? [|? [|? [|]]]]].
Qed.

Lemma words_io d n : forall a s, in_mem (mem s) (seqZ a (4 * Z.of_nat n)) -> (d = false -> bytes_ok (mem s)) ->
  exists m vs, words d n a s = Some ((), with_io (map (io d) vs) m (ws s) s) /\ length vs = n /\
    moved d (mem s) (seqZ a (4 * Z.of_nat n)) m vs.
Proof.
  induction n as [|n IH]; intros a s HM Hb.
  { exists (mem s), []. simpl. rewrite with_io_id. split; [by destruct d|]. split; [done|apply moved_nil]. }
  rewrite seqZ_4 in * by lia. replace (4 * Z.of_nat (S n) - 4) with (4 * Z.of_nat n) in * by lia.
  apply Forall_app in HM as [HM1 HM2].
  assert (Ha : 0 <= a /\ a + 3 < Z.of_nat (length (mem s))).
  { apply Forall_cons in HM1 as [Ha HM1]. do 2 apply Forall_cons in HM1 as [_ HM1]. apply Forall_cons in HM1 as [HM1 _]. lia. }
  destruct (words_step d n a s (proj1 Ha)) as (m & v & E & Hm); [lia|done|].
  destruct (IH (a + 4) (with_io [io d v] m (ws s) s)) as (m' & vs & E' & HL & Hm').
  - unfold in_mem in *. simpl mem. by rewrite (moved_length _ _ _ _ _ Hm).
  - intros Hd. apply (moved_bytes _ _ _ _ _ Hm Hd), Hb, Hd.
  - exists m', (v :: vs). rewrite E, E', with_io_with_io. split; [done|]. split; [simpl; lia|].
    change (v :: vs) with ([v] ++ vs). by apply (moved_app _ _ _ m).
Qed.
(** One block. *)
Lemma pio_block_ok d fuel : forall b s, (Z.to_nat b + length (sges (ws s)) < fuel)%nat ->
  ws_ok (ws s) -> 0 <= b -> b mod 4 = 0 -> b <= Z.of_nat (length (pending (ws s))) ->
  in_mem (mem s) (pending (ws s)) -> (d = false -> bytes_ok (mem s)) ->
  exists m vs w, pio_block device fuel d b s = Some ((), with_io (map (io d) vs) m w s) /\
    4 * Z.of_nat (length vs) = b /\ ws_ok w /\ moved d (mem s) (take (Z.to_nat b) (pending (ws s))) m vs /\
    pending w = drop (Z.to_nat b) (pending (ws s)).
Proof.
  induction fuel as [|fuel IH]; intros b s Hf Hw H0 H4 Hp HM Hb; [lia|]. cbn [pio_block].
  destruct (b =? 0) eqn:E0; zbool.
  { subst b. exists (mem s), [], (ws s). simpl. rewrite with_io_id. do 3 (split; [done|]). split; [apply moved_nil|done]. }
  destruct (sg_nxt_ok b s Hw) as (a & len & w & E & Hw' & Hl & Hl4 & HP & Hd & Hd'); [lia|done|done|].
  rewrite (bind_eq _ _ _ _ _ E). rewrite HP in HM. apply Forall_app in HM as [HM1 HM2].
  assert (Hlen : 4 * Z.of_nat (Z.to_nat (len / 4)) = len) by (pose proof (Z.div_mod len 4); pose proof (Z.div_pos len 4); lia).
  destruct (words_io d (Z.to_nat (len / 4)) a (upd_ws w s)) as (m & vs & E1 & L1 & M1); [by rewrite Hlen|done|].
  rewrite Hlen in M1. unfold words in E1. rewrite (bind_eq _ _ _ _ _ E1). simpl ws. simpl mem in M1.
  change (with_io (map (io d) vs) m w (upd_ws w s)) with (with_io (map (io d) vs) m w s).
  destruct (IH (b - len) (with_io (map (io d) vs) m w s)) as (m' & vs' & w' & E2 & L2 & W2 & M2 & P2).
  - simpl ws. destruct Hd; lia.
  - done.
  - lia.
  - by apply sub_mod4.
  - simpl ws. rewrite HP, length_app, length_seqZ in Hp. lia.
  - simpl. unfold in_mem. by rewrite (moved_length _ _ _ _ _ M1).
  - intros Hd0. apply (moved_bytes _ _ _ _ _ M1 Hd0), Hb, Hd0.
  - exists m', (vs ++ vs'), w'. rewrite E2, with_io_with_io, map_app, length_app. split; [done|]. split; [lia|].
    split; [done|]. simpl ws in P2, M2. simpl mem in M2.
    assert (HT : Z.to_nat b = (length (seqZ a len) + Z.to_nat (b - len))%nat) by (rewrite length_seqZ; lia).
    rewrite HP, HT, take_app_add, drop_app_add. split; [|done].
    apply (moved_app _ _ _ m); [done|done|]. rewrite length_seqZ. lia.
Qed.
(** The status bit of a direction; a controller that is ready for at most
    [n] blocks of [b] bytes from the state on. *)
Definition ready_bit (d : bool) : Z := if d then SDHCI_PSTATE_BRE else SDHCI_PSTATE_BWE.
Definition at_most (d : bool) (n : nat) (b : Z) (s : st) : Prop :=
  forall l, Z.of_nat n * b <= 4 * Z.of_nat (length (data_words l)) ->
    has (device (log s ++ l) 32 SDHCI_PSTATE mod 2 ^ 32) (ready_bit d) = false.
Definition pio_access (d : bool) (e : event) : Prop := exists v, e = In 32 SDHCI_PSTATE v \/ e = io d v.

Lemma pio_accesses d vs : Forall (pio_access d) (map (io d) vs).
Proof. induction vs; constructor; [eexists; by right|done]. Qed.

Lemma pio_loop_ok d n : forall b s, 0 < b -> b mod 4 = 0 -> at_most d n b s ->
  ws_ok (ws s) -> Z.of_nat n * b <= Z.of_nat (length (pending (ws s))) ->
  in_mem (mem s) (pending (ws s)) -> (d = false -> bytes_ok (mem s)) ->
  exists k l m w v, pio_loop device (S n) d b s = Some ((), with_io (l ++ [In 32 SDHCI_PSTATE v]) m w s) /\
    (k <= n)%nat /\ has v (ready_bit d) = false /\ Forall (pio_access d) l /\
    4 * Z.of_nat (length (data_words l)) = Z.of_nat k * b /\
    moved d (mem s) (take (Z.to_nat (Z.of_nat k * b)) (pending (ws s))) m (data_words l) /\
    pending w = drop (Z.to_nat (Z.of_nat k * b)) (pending (ws s)).
Proof.
  induction n as [|n IH]; intros b s H0 H4 HA Hw Hp HM Hb.
  all: destruct (in_eq device 32 SDHCI_PSTATE s) as (v & E & _ & Hv).
  all: assert (Hstop : has v (ready_bit d) = false -> forall F : nat, pio_loop device (S F) d b s =
    Some ((), with_io ([] ++ [In 32 SDHCI_PSTATE v]) (mem s) (ws s) s)).
  1,3: intros Hr F; cbn [pio_loop]; rewrite (bind_eq _ _ _ _ _ E); fold (ready_bit d); rewrite Hr; by destruct s.
  { exists 0%nat, [], (mem s), (ws s), v. rewrite Hstop; [|rewrite Hv, <- (app_nil_r (log s)); apply HA; simpl; lia].
    split; [done|]. split; [done|]. split; [rewrite Hv, <- (app_nil_r (log s)); apply HA; simpl; lia|].
    split; [constructor|]. split; [done|]. split; [apply moved_nil|done]. }
  destruct (has v (ready_bit d)) eqn:Hr.
  2: { exists 0%nat, [], (mem s), (ws s), v. rewrite (Hstop eq_refl). split; [done|]. split; [lia|]. split; [done|].
       split; [constructor|]. split; [done|]. split; [apply moved_nil|done]. }
  clear Hstop.
  set (s1 := app_log [In 32 SDHCI_PSTATE v] s).
  destruct (pio_block_ok d (S (Z.to_nat b + length (sges (ws s)))) b s1) as (m & vs & w & E1 & L1 & W1 & M1 & P1); try done;
    [simpl; lia|lia|simpl; lia|].
  set (s2 := with_io (map (io d) vs) m w s1) in *.
  assert (HS : pio_loop device (S (S n)) d b s = pio_loop device (S n) d b s2).
  { change (pio_loop device (S (S n)) d b) with (v ← sdhci_in device 32 SDHCI_PSTATE;
      if has v (ready_bit d) then w ← gets ws; pio_block device (S (Z.to_nat b + length (sges w))) d b;;
        pio_loop device (S n) d b else mret ()).
    rewrite (bind_eq _ _ _ _ _ E), Hr. cbv beta. rewrite gets_bind. exact (bind_eq _ _ _ _ _ E1). }
  destruct (IH b s2) as (k & l & m' & w' & v' & E2 & Hk & Hv' & Ha & L2 & M2 & P2); try done.
  - intros l HL. unfold s2. simpl log. rewrite <- !app_assoc. apply HA.
    rewrite !data_words_app, !length_app, data_words_io. change (data_words [In 32 SDHCI_PSTATE v]) with (@nil Z). simpl. lia.
  - unfold s2. simpl ws. rewrite P1, length_drop. simpl ws. lia.
  - unfold s2. simpl. rewrite P1. unfold in_mem. rewrite (moved_length _ _ _ _ _ M1). by apply Forall_drop.
  - intros Hd. unfold s2. simpl. apply (moved_bytes _ _ _ _ _ M1 Hd), Hb, Hd.
  - exists (S k), (In 32 SDHCI_PSTATE v :: map (io d) vs ++ l), m', w', v'.
    assert (HD : data_words (In 32 SDHCI_PSTATE v :: map (io d) vs ++ l) = vs ++ data_words l).
    { change (In 32 SDHCI_PSTATE v :: map (io d) vs ++ l) with ([In 32 SDHCI_PSTATE v] ++ map (io d) vs ++ l).
      by rewrite !data_words_app, data_words_io. }
    split.
    { rewrite HS, E2. unfold s2. rewrite with_io_with_io. unfold s1.
      change (app_log [In 32 SDHCI_PSTATE v] s) with (with_io [In 32 SDHCI_PSTATE v] (mem s) (ws s) s) at 1.
      rewrite with_io_with_io. simpl. by rewrite <- app_assoc. }
    split; [lia|]. split; [done|].
    split; [constructor; [eexists; by left|]; apply Forall_app; split; [apply pio_accesses|done]|].
    rewrite HD, length_app. split; [lia|].
    replace (Z.to_nat (Z.of_nat (S k) * b)) with (Z.to_nat b + Z.to_nat (Z.of_nat k * b))%nat by nia.
    unfold s2 in M2, P2. simpl ws in M2, P2. simpl mem in M2. rewrite P1 in M2, P2. simpl ws in *. simpl mem in *.
    rewrite drop_drop in P2. split; [|done].
    replace (take (Z.to_nat b + Z.to_nat (Z.of_nat k * b)) (pending (ws s))) with
      (take (Z.to_nat b) (pending (ws s)) ++ take (Z.to_nat (Z.of_nat k * b)) (drop (Z.to_nat b) (pending (ws s)))).
    2: { by rewrite take_take_drop. }
    apply (moved_app _ _ _ m); [done|done|]. rewrite length_take. lia.
Qed.

(** C8 (a transfer without DMA) With a list of whole words in memory and a
    controller that is ready for at most [n] blocks, sdhci_pio_xfer ends; it
    moves [k <= n] whole blocks, until the controller is not ready; the words
    of the data port are, in order, the next bytes of the scatter list, across
    its entries; no other byte changes, no other register is accessed, and the
    list is left after those bytes. *)
Theorem pio_moves_blocks n s : let d := has (cflags (cmd s)) SCF_DIR_IN in let b := blksz (cmd s) in
  0 < b -> b mod 4 = 0 -> at_most d n b s ->
  ws_ok (ws s) -> Z.of_nat n * b <= Z.of_nat (length (pending (ws s))) ->
  in_mem (mem s) (pending (ws s)) -> (d = false -> bytes_ok (mem s)) ->
  exists k l m w v, sdhci_pio_xfer device (S n) s = Some (EOK, with_io (l ++ [In 32 SDHCI_PSTATE v]) m w s) /\
    (k <= n)%nat /\ has v (ready_bit d) = false /\ Forall (pio_access d) l /\
    4 * Z.of_nat (length (data_words l)) = Z.of_nat k * b /\
    moved d (mem s) (take (Z.to_nat (Z.of_nat k * b)) (pending (ws s))) m (data_words l) /\
    pending w = drop (Z.to_nat (Z.of_nat k * b)) (pending (ws s)).
Proof.
  intros d b H0 H4 HA Hw Hp HM Hb. unfold sdhci_pio_xfer. rewrite gets_bind. fold d b.
  destruct (pio_loop_ok d n b s H0 H4 HA Hw Hp HM Hb) as (k & l & m & w & v & E & H).
  exists k, l, m, w, v. by rewrite (bind_eq _ _ _ _ _ E).
Qed.
End device.

(** ** When the end of a transfer is reported *)

(** A completion that is lost. When one interrupt reports the end of the
    transfer together with a buffer that is ready, and the controller has no
    more data, the command is not completed: the result of sdhci_pio_xfer
    replaces the completion status. *)
Theorem completion_lost device fuel s :
  intr_status device s = Z.lor SDHCI_INTR_TC SDHCI_INTR_BRR -> active s = true -> has (cflags (cmd s)) SCF_DIR_IN = true ->
  opcode (cmd s) <> SD_SEND_TUNING_BLOCK -> opcode (cmd s) <> MMC_SEND_TUNING_BLOCK ->
  (forall l, has (device l 32 SDHCI_PSTATE mod 2 ^ 32) SDHCI_PSTATE_BRE = false) ->
  exists s', sdhci_intr_event device (S fuel) s = Some (EOK, s') /\
    active s' = true /\ cstatus (cmd s') = cstatus (cmd s) /\ mem s' = mem s.
Proof.
  intros HT HA HD HO1 HO2 HP. set (s0 := app_log (acknowledge device s) s).
  destruct (in_eq device 32 SDHCI_RESP0 s0) as (r & ER & _).
  set (s1 := upd_cmd (set_rsp (<[0%nat := r]> (rsp (cmd s0))) (cmd s0)) (active s0) (app_log [In 32 SDHCI_RESP0 r] s0)).
  destruct (in_eq device 32 SDHCI_PSTATE s1) as (v & EV & _ & HV).
  rewrite (intr_normal device (S fuel) s CS_CMD_INPROG (app_log [In 32 SDHCI_PSTATE v] s1)); rewrite ?HT; [|done|done|done|].
  { eexists. split; [reflexivity|]. done. }
  fold s0. rewrite (bind_eq _ _ _ CS_CMD_INPROG s0) by done.
  assert (ET : transfer_complete device (Z.lor SDHCI_INTR_TC SDHCI_INTR_BRR) CS_CMD_INPROG s0 = Some (CS_CMD_CMP, s1)).
  { exact (bind_eq _ (fun x => put_rsp 0 x;; mret CS_CMD_CMP) _ _ _ ER). }
  rewrite (bind_eq _ _ _ _ _ ET). unfold buffer_ready.
  change (has (Z.lor SDHCI_INTR_TC SDHCI_INTR_BRR) (Z.lor SDHCI_INTR_BWR SDHCI_INTR_BRR)) with true. cbv iota.
  rewrite gets_bind. change (opcode (cmd s1)) with (opcode (cmd s)).
  rewrite (proj2 (Z.eqb_neq _ _) HO1), (proj2 (Z.eqb_neq _ _) HO2). cbn [orb].
  rewrite (bind_eq _ _ _ EOK (app_log [In 32 SDHCI_PSTATE v] s1)); [done|].
  unfold sdhci_pio_xfer. rewrite gets_bind. change (cflags (cmd s1)) with (cflags (cmd s)). rewrite HD.
  cbn [pio_loop]. rewrite (bind_eq _ _ _ () (app_log [In 32 SDHCI_PSTATE v] s1)); [done|].
  by rewrite (bind_eq _ _ _ _ _ EV), HV, HP.
Qed.

(** ** Examples: two blocks of 8 bytes into entries of 4 and 12 bytes *)
Definition example_device (l : list event) (w off : Z) : Z :=
  if off =? SDHCI_PSTATE then (if decide (4 <= length (data_words l))%nat then 0 else SDHCI_PSTATE_BRE)
  else if off =? SDHCI_IS then Z.lor SDHCI_INTR_TC SDHCI_INTR_BRR
  else if off =? SDHCI_IE then Z.lor SDHCI_INTR_TC SDHCI_INTR_BRR
  else 0x03020100 + 0x04040404 * Z.of_nat (length (data_words l)).
Definition example_list : list sge := [Sge 8 4; Sge 16 12].
Definition example_pio : st := St [] example_host (Setting 0 0 0 0 1 0 0) 0 0 (Wspc example_list 8 2 4)
  (Cmd SCF_DIR_IN 0 18 0 [0; 0; 0; 0] 2 8 example_list) true [] (repeat 255 32).

Lemma pio_moves_blocks_witness : exists k l m w v,
  sdhci_pio_xfer example_device 3 example_pio = Some (EOK, with_io (l ++ [In 32 SDHCI_PSTATE v]) m w example_pio) /\
  (k <= 2)%nat /\ moved true (repeat 255 32) (take (Z.to_nat (Z.of_nat k * 8)) ([8; 9; 10; 11] ++ seqZ 16 12)) m (data_words l).
Proof.
  destruct (pio_moves_blocks example_device 2 example_pio) as (k & l & m & w & v & E & Hk & _ & _ & _ & HM & _).
  - vm_compute. reflexivity.
  - reflexivity.
  - intros l HL. unfold example_device. rewrite Z.eqb_refl. simpl app. simpl blksz in HL.
    rewrite decide_True by lia. reflexivity.
  - repeat split; try (vm_compute; congruence). repeat constructor; vm_compute; congruence.
  - vm_compute. congruence.
  - unfold in_mem. refine (bool_decide_unpack _ _). vm_compute. exact I.
  - discriminate.
  - exists k, l, m, w, v. split; [exact E|]. split; [exact Hk|]. exact HM.
Defined.

(** The bytes of the example. *)
Example example_pio_bytes : match sdhci_pio_xfer example_device 3 example_pio with
  | Some (_, s) => mem s = repeat 255 8 ++ [0; 1; 2; 3] ++ repeat 255 4 ++ seqZ 4 12 ++ repeat 255 4 /\
                   length (data_words (log s)) = 4%nat
  | None => False end.
Proof. vm_compute. done. Qed.

Lemma completion_lost_witness : let device := fun (l : list event) (w off : Z) =>
    if off =? SDHCI_PSTATE then 0 else Z.lor SDHCI_INTR_TC SDHCI_INTR_BRR in
  exists s', sdhci_intr_event device 1 example_pio = Some (EOK, s') /\ active s' = true /\ cstatus (cmd s') = CS_CMD_INPROG.
Proof.
  intros device. destruct (completion_lost device 0 example_pio) as (s' & E & A & C & _);
    [reflexivity|reflexivity|reflexivity|discriminate|discriminate|reflexivity|].
  exists s'. split; [exact E|]. split; [exact A|]. exact C.
Defined.
