(* ===== verification/SdioCmd.v ===== *)
(** * The command layer of the SD/MMC driver (sdiodi: base.c, card.c, sd.c, mmc.c)

    Commands are sent to a card through the entries of a host controller
    driver (struct _sdio_hc_entry), which are a class here: the theorems hold
    for every controller with its laws, and SdhciEntry.v shows that the sdhci
    driver is one.  None is what the monad of Driver.v says.  A list of the
    commands and their results is kept for the theorems; nothing reads it but
    the allocator, which may fail at any command. *)
From S2P Require Import Prelude Driver SdioReg SdioConst Sdhci.
Open Scope Z_scope.

(** ** The host controller behind the command layer *)

(** The entries that are called here, and the fields of struct _sdio_hc that
    both sides use.  [entry_cmd] is sdio_issue_cmd: the result and the command
    with its status and response, within a time. *)
Class sdio_hc_entry (C : Type) := {
  entry_cmd : sdio_cmd_t -> Z -> M C (errno * sdio_cmd_t);
  entry_pwr : Z -> M C errno;
  entry_clk : Z -> M C errno;
  entry_bus_mode : Z -> M C errno;
  entry_signal_voltage : Z -> M C errno;
  hc_ocr : C -> Z; hc_clk_min : C -> Z; hc_clk_max : C -> Z;
  hc_caps : C -> Z; set_hc_caps : Z -> C -> C;
  hc_flags : C -> Z; set_hc_flags : Z -> C -> C;
  dev_flags : C -> Z; set_dev_flags : Z -> C -> C
}.

Definition same_cmd (c c' : sdio_cmd_t) : Prop :=
  cflags c' = cflags c /\ opcode c' = opcode c /\ arg c' = arg c /\ length (rsp c') = length (rsp c) /\
  blks c' = blks c /\ blksz c' = blksz c /\ sgl c' = sgl c.
Definition no_data (c : sdio_cmd_t) : Prop := has (cflags c) SCF_DATA_MSK = false.

(** How a command may come back. *)
Definition answers {C} `{sdio_hc_entry C} (c c' : sdio_cmd_t) : Prop :=
  exists t k e k', entry_cmd (C:=C) c t k = Some ((e, c'), k').

Class hc_entry_laws (C : Type) `{sdio_hc_entry C} := {
  caps_set v k : hc_caps (set_hc_caps v k) = v;
  caps_flags v k : hc_caps (set_hc_flags v k) = hc_caps k;
  caps_dev_flags v k : hc_caps (set_dev_flags v k) = hc_caps k;
  cmd_caps c t k e c' k' : entry_cmd c t k = Some ((e, c'), k') -> hc_caps k' = hc_caps k;
  cmd_same c t k e c' k' : entry_cmd c t k = Some ((e, c'), k') -> same_cmd c c';
  cmd_done c t k c' k' : entry_cmd c t k = Some ((EOK, c'), k') -> cstatus c' <> CS_CMD_INPROG;
  cmd_total c t k : no_data c -> length (rsp c) = 4%nat -> is_Some (entry_cmd c t k);
  pwr_ok v k : post (entry_pwr v) k (fun _ k' => hc_caps k' = hc_caps k);
  clk_ok v k : 0 <= v -> post (entry_clk v) k (fun _ k' => hc_caps k' = hc_caps k);
  bus_mode_ok v k : post (entry_bus_mode v) k (fun _ k' => hc_caps k' = hc_caps k);
  voltage_ok v k : post (entry_signal_voltage v) k (fun _ k' => hc_caps k' = hc_caps k)
}.

(** ** Data *)

(** The fields of sdio_dev_t that are used here. *)
Record sdev := Dev {
  dcaps : Z; rca : Z; block_length : Z; pactive : Z; csd_blksz : Z; dev_ocr : Z; bus_modes : Z; raw_cid : list Z;
  partition_time : Z; raw_csd : list Z
}.
Definition set_rca (v : Z) (d : sdev) : sdev :=
  Dev (dcaps d) v (block_length d) (pactive d) (csd_blksz d) (dev_ocr d) (bus_modes d) (raw_cid d) (partition_time d) (raw_csd d).
Definition set_block (v : Z) (d : sdev) : sdev :=
  Dev (dcaps d) (rca d) v (pactive d) (csd_blksz d) (dev_ocr d) (bus_modes d) (raw_cid d) (partition_time d) (raw_csd d).
Definition set_pactive (v : Z) (d : sdev) : sdev :=
  Dev (dcaps d) (rca d) (block_length d) v (csd_blksz d) (dev_ocr d) (bus_modes d) (raw_cid d) (partition_time d) (raw_csd d).
Definition set_ocr (v : Z) (d : sdev) : sdev :=
  Dev (dcaps d) (rca d) (block_length d) (pactive d) (csd_blksz d) v (bus_modes d) (raw_cid d) (partition_time d) (raw_csd d).
Definition set_csd (c b : Z) (d : sdev) : sdev :=
  Dev c (rca d) (block_length d) (pactive d) b (dev_ocr d) (bus_modes d) (raw_cid d) (partition_time d) (raw_csd d).
Definition set_cid (v : list Z) (d : sdev) : sdev :=
  Dev (dcaps d) (rca d) (block_length d) (pactive d) (csd_blksz d) (dev_ocr d) (bus_modes d) v (partition_time d) (raw_csd d).

Definition set_raw_csd (v : list Z) (d : sdev) : sdev :=
  Dev (dcaps d) (rca d) (block_length d) (pactive d) (csd_blksz d) (dev_ocr d) (bus_modes d) (raw_cid d) (partition_time d) v.

(** A command that was issued, the result of issuing it, and the command
    as it came back. *)
Definition issued : Type := sdio_cmd_t * errno * sdio_cmd_t.
Record cst (C : Type) := Cst { ctl : C; dev : sdev; sent : list issued }.
Arguments Cst {C}. Arguments ctl {C}. Arguments dev {C}. Arguments sent {C}.

(** ** card.c: commands *)
Definition zero_cmd : sdio_cmd_t := Cmd 0 0 0 0 [0; 0; 0; 0] 0 0 [].
Definition sdio_setup_cmd (c : sdio_cmd_t) (flgs op a : Z) : sdio_cmd_t :=
  Cmd flgs (cstatus c) op (u32 a) (rsp c) (blks c) (blksz c) (sgl c).
Definition sdio_setup_cmd_io (c : sdio_cmd_t) (flgs n size : Z) (l : list sge) : sdio_cmd_t :=
  Cmd (Z.lor (cflags c) flgs) (cstatus c) (opcode c) (arg c) (rsp c) n size l.
Definition rsp0 (c : sdio_cmd_t) : Z := default 0 (rsp c !! 0%nat).

Section layer.
Context {C : Type} `{sdio_hc_entry C} (no_memory : list issued -> bool).

Definition upd_ctl (f : C -> C) (s : cst C) : cst C := Cst (f (ctl s)) (dev s) (sent s).
Definition upd_dev (f : sdev -> sdev) (s : cst C) : cst C := Cst (ctl s) (f (dev s)) (sent s).

Definition sdio_alloc_cmd : M (cst C) (option sdio_cmd_t) := fun s =>
  Some (if no_memory (sent s) then None else Some zero_cmd, s).

(** [cmd = sdio_alloc_cmd(); ...; sdio_free_cmd( cmd )] *)
Definition with_cmd (f : sdio_cmd_t -> M (cst C) errno) : M (cst C) errno :=
  o ← sdio_alloc_cmd; match o with None => mret ENOMEM | Some c => f c end.

(** An entry of the controller. *)
Definition hc_call {A} (m : M C A) : M (cst C) A := fun s =>
  match m (ctl s) with None => None | Some (a, k) => Some (a, Cst k (dev s) (sent s)) end.
Definition sdio_issue (c : sdio_cmd_t) (timeout : Z) : M (cst C) (errno * sdio_cmd_t) := fun s =>
  match entry_cmd c timeout (ctl s) with
  | None => None
  | Some ((e, c'), k) => Some ((e, c'), Cst k (dev s) (sent s ++ [(c, e, c')]))
  end.

(** ** The commands that _sdio_send_cmd sends itself, over what sends them *)
Section with_send.
Context (send : sdio_cmd_t -> Z -> nat -> M (cst C) (errno * sdio_cmd_t)).

Definition sd_app_cmd : M (cst C) errno := with_cmd (fun c =>
  r ← gets (fun s => rca (dev s));
  let ctype := if r =? 0 then SCF_CTYPE_BC else SCF_CTYPE_BCR in
  x ← send (sdio_setup_cmd c (Z.lor ctype SCF_RSP_R1) SD_APP_CMD (u32 (Z.shiftl r 16))) SDIO_TIME_DEFAULT 0;
  mret (fst x)).

Definition _sdio_set_block_count (blkcnt flgs : Z) : M (cst C) errno := with_cmd (fun c =>
  x ← send (sdio_setup_cmd c (Z.lor SCF_CTYPE_AC SCF_RSP_R1) MMC_SET_BLOCK_COUNT (Z.lor blkcnt flgs)) SDIO_TIME_DEFAULT 0;
  mret (fst x)).

(** The result, and the response where it is EOK. *)
Definition _sdio_send_status (hpi : bool) : M (cst C) (errno * Z) :=
  o ← sdio_alloc_cmd;
  match o with
  | None => mret (ENOMEM, 0)
  | Some c =>
      r ← gets (fun s => rca (dev s));
      x ← send (sdio_setup_cmd c (Z.lor SCF_CTYPE_AC SCF_RSP_R1) MMC_SEND_STATUS
             (Z.lor (u32 (Z.shiftl r 16)) (if hpi then MMC_SEND_STATUS_HPI else 0)))
           SDIO_TIME_DEFAULT (Z.to_nat SDIO_CMD_RETRIES);
      mret (fst x, if decide (fst x = EOK) then rsp0 (snd x) else 0)
  end.

(** [for( msec = max( msec, 1 ); msec; msec-- )]; [rsp] is the last response. *)
Fixpoint wait_loop (msec : nat) (mask val rsp : Z) : M (cst C) (errno * Z) :=
  match msec with
  | O => mret (ETIMEDOUT, rsp)
  | S n =>
      x ← _sdio_send_status false;
      let '(status, r) := x in
      if decide (status <> EOK) then mret (status, rsp)
      else if has r CDS_ERROR_MSK then mret (EIO, r)
      else if Z.land r mask =? val then mret (EOK, r)
      else wait_loop n mask val r
  end.
Definition _sdio_wait_card_rsp (mask val msec rsp : Z) : M (cst C) (errno * Z) :=
  wait_loop (Z.to_nat (Z.max msec 1)) mask val rsp.
Definition _sdio_wait_card_status (mask val msec : Z) : M (cst C) errno :=
  x ← _sdio_wait_card_rsp mask val msec 0; mret (fst x).
End with_send.

(** ** base.c: _sdio_send_cmd *)

(** What one round of the loop comes to. *)
Inductive outcome := Stop (e : errno) (c : sdio_cmd_t) | Leave (e : errno) (c : sdio_cmd_t) | Again (e : errno) (c : sdio_cmd_t).

Definition READY : Z := Z.lor CDS_READY_FOR_DATA CDS_CUR_STATE_TRAN.
Definition READY_MSK : Z := Z.lor CDS_READY_FOR_DATA CDS_CUR_STATE_MSK.

(** The result for the status of a command that was issued. *)
Definition cmd_result (cs : Z) : errno :=
  if cs =? CS_CMD_CMP then EOK else if cs =? CS_CMD_TO_ERR then ETIMEDOUT else EIO.

Section round.
Context (send : sdio_cmd_t -> Z -> nat -> M (cst C) (errno * sdio_cmd_t)).

(** A bad CRC of a card with a tuned clock asks for tuning. *)
Definition ask_tuning : M (cst C) () :=
  modify (upd_ctl (fun k =>
    if has (dev_flags k) DEV_FLAG_PRESENT && negb (has (hc_flags k) HC_FLAG_RST) &&
       has (dev_flags k) (Z.lor DEV_FLAG_UHS (Z.lor DEV_FLAG_HS200 DEV_FLAG_HS400))
    then set_hc_flags (atomic_set (hc_flags k) HC_FLAG_TUNE) k else k)).

(** The commands before the command. *)
Definition send_prelude (c : sdio_cmd_t) : M (cst C) errno :=
  app ← (if has (cflags c) SCF_APP_CMD then sd_app_cmd send else mret EOK);
  if decide (app <> EOK) then mret app
  else
    k ← gets (fun s => hc_caps (ctl s));
    if has (cflags c) SCF_SBC && negb (has k HC_CAP_ACMD23)
    then _sdio_set_block_count send (blks c) (if has (cflags c) SCF_SBC_RLW then SBC_RL_WRITE else 0)
    else mret EOK.

(** The command, and the wait after it. *)
Definition send_own (c : sdio_cmd_t) (timeout : Z) : M (cst C) outcome :=
  x ← sdio_issue c timeout;
  let '(e, c) := x in
  if decide (e <> EOK) then mret (Stop e c)
  else if cstatus c =? CS_CARD_REMOVED then mret (Leave ENXIO c)
  else
    (if cstatus c =? CS_DATA_CRC_ERR then ask_tuning else mret ());;
    let e := cmd_result (cstatus c) in
    if decide (e = EOK) then
      k ← gets (fun s => hc_caps (ctl s));
      if has (cflags c) SCF_WAIT_DRDY && negb (has k HC_CAP_BSY)
      then w ← _sdio_wait_card_status send READY_MSK READY timeout; mret (Stop w c)
      else mret (Stop EOK c)
    else if has (rsp0 c) CDS_ILLEGAL_COMMAND then mret (Stop e c)
    else mret (Again e c).

Definition send_round (c : sdio_cmd_t) (timeout : Z) : M (cst C) outcome :=
  let c := set_cstatus CS_CMD_INPROG c in
  e ← send_prelude c;
  if decide (e <> EOK) then mret (Stop e c) else send_own c timeout.

(** [do { ... } while( retries-- )]; true when it was left by a return. *)
Fixpoint send_loop (retries : nat) (c : sdio_cmd_t) (timeout : Z) : M (cst C) (errno * sdio_cmd_t * bool) :=
  o ← send_round c timeout;
  match o with
  | Stop e c => mret (e, c, false)
  | Leave e c => mret (e, c, true)
  | Again e c => match retries with O => mret (e, c, false) | S n => send_loop n c timeout end
  end.
End round.

(** The capabilities that a reliable write takes away. *)
Definition acmd_caps : Z := Z.lor HC_CAP_ACMD23 HC_CAP_ACMD12.

(** [depth] bounds the commands that send commands; the controller has no
    power management (entry.pm is NULL), so _sdio_pwrmgnt is EOK. *)
Fixpoint _sdio_send_cmd (depth : nat) (c : sdio_cmd_t) (timeout : Z) (retries : nat) : M (cst C) (errno * sdio_cmd_t) :=
  match depth with
  | O => crash
  | S n =>
      k ← gets (fun s => hc_caps (ctl s));
      let saved := if has (cflags c) SCF_SBC_RLW then Z.land k acmd_caps else 0 in
      (if has (cflags c) SCF_SBC_RLW then modify (upd_ctl (set_hc_caps (Z.ldiff k acmd_caps))) else mret ());;
      x ← send_loop (_sdio_send_cmd n) retries c timeout;
      let '(e, c, returned) := x in
      if (returned : bool) then mret (e, c)
      else
        (if negb (saved =? 0) then modify (upd_ctl (fun k => set_hc_caps (Z.lor (hc_caps k) saved) k)) else mret ());;
        mret (e, c)
  end.
(** Two levels are enough: the commands sent on the way send no others. *)
Definition send_cmd : sdio_cmd_t -> Z -> nat -> M (cst C) (errno * sdio_cmd_t) := _sdio_send_cmd 2.
Definition RETRIES : nat := Z.to_nat SDIO_CMD_RETRIES.

(** ** Commands (base.c, sd.c, mmc.c) *)

(** A command without data whose response is not needed. *)
Definition simple_cmd (flgs op a timeout : Z) (retries : nat) : M (cst C) errno :=
  with_cmd (fun c => x ← send_cmd (sdio_setup_cmd c flgs op a) timeout retries; mret (fst x)).

Definition sdio_go_idle : M (cst C) errno :=
  simple_cmd (Z.lor SCF_CTYPE_BC SCF_RSP_NONE) MMC_GO_IDLE_STATE 0 SDIO_TIME_DEFAULT 0.
Definition _sdio_stop_transmission (hpi : bool) : M (cst C) errno :=
  r ← gets (fun s => rca (dev s));
  simple_cmd (Z.lor SCF_CTYPE_AC SCF_RSP_R1B) MMC_STOP_TRANSMISSION
    (if hpi then Z.lor (u32 (Z.shiftl r 16)) MMC_STOP_TRANSMISSION_HPI else 0) SDIO_TIME_DEFAULT 0.
Definition sd_voltage_switch : M (cst C) errno :=
  simple_cmd (Z.lor SCF_CTYPE_AC SCF_RSP_R1) SD_VOLTAGE_SWITCH 0 SDIO_TIME_DEFAULT 0.
Definition mmc_set_relative_addr (addr : Z) : M (cst C) errno :=
  simple_cmd (Z.lor SCF_CTYPE_AC SCF_RSP_R1) MMC_SET_RELATIVE_ADDR (Z.shiftl addr 16) SDIO_TIME_DEFAULT RETRIES.
Definition mmc_sleep_awake (sleep : bool) : M (cst C) errno :=
  r ← gets (fun s => rca (dev s));
  simple_cmd (Z.lor SCF_CTYPE_AC SCF_RSP_R1B) MMC_SLEEP_AWAKE
    (Z.lor (u32 (Z.shiftl r 16)) (if sleep then MMC_SA_SLEEP else 0)) SDIO_TIME_DEFAULT 0.

(** A command with a long response. *)
Definition long_cmd (flgs op a : Z) : M (cst C) (errno * list Z) :=
  o ← sdio_alloc_cmd;
  match o with
  | None => mret (ENOMEM, [])
  | Some c =>
      x ← send_cmd (sdio_setup_cmd c flgs op a) SDIO_TIME_DEFAULT RETRIES;
      mret (fst x, if decide (fst x = EOK) then rsp (snd x) else [])
  end.
Definition sdio_all_send_cid : M (cst C) (errno * list Z) :=
  long_cmd (Z.lor SCF_CTYPE_BCR SCF_RSP_R2) MMC_ALL_SEND_CID 0.
Definition sdio_send_csd : M (cst C) (errno * list Z) :=
  r ← gets (fun s => rca (dev s)); long_cmd (Z.lor SCF_CTYPE_AC SCF_RSP_R2) MMC_SEND_CSD (Z.shiftl r 16).

Definition sdio_select_card (r : Z) : M (cst C) errno := with_cmd (fun c =>
  x ← send_cmd (sdio_setup_cmd c (Z.lor SCF_CTYPE_AC (if r =? 0 then SCF_RSP_NONE else SCF_RSP_R1)) MMC_SEL_DES_CARD (Z.shiftl r 16))
        SDIO_TIME_DEFAULT RETRIES;
  (if has (rsp0 (snd x)) CDS_CARD_IS_LOCKED
   then modify (upd_ctl (fun k => set_dev_flags (Z.lor (dev_flags k) DEV_FLAG_LOCKED) k)) else mret ());;
  mret (fst x)).

Definition _sdio_set_block_length (blklen : Z) : M (cst C) errno :=
  k ← gets (fun s => dev_flags (ctl s)); d ← gets dev;
  if has k (Z.lor DEV_FLAG_DDR (Z.lor DEV_FLAG_HS400 DEV_FLAG_HS400ES)) && has (dcaps d) DEV_CAP_HC then mret EOK
  else if block_length d =? blklen then mret EOK
  else
    e ← simple_cmd (Z.lor SCF_CTYPE_AC SCF_RSP_R1) MMC_SET_BLOCKLEN blklen SDIO_TIME_DEFAULT RETRIES;
    (if decide (e = EOK) then modify (upd_dev (set_block blklen)) else mret ());;
    mret e.

(** ** Switching a register of an MMC *)
Definition _mmc_switch (cmdset mode index value timeout : Z) (wrdy : bool) : M (cst C) errno := with_cmd (fun c =>
  let resp := if timeout =? 0 then SCF_RSP_R1 else SCF_RSP_R1B in
  x ← send_cmd (sdio_setup_cmd c (Z.lor SCF_CTYPE_AC resp) MMC_SWITCH
        (Z.lor (Z.lor (Z.shiftl mode 24) (Z.shiftl index 16)) (Z.lor (Z.shiftl value 8) cmdset))) timeout RETRIES;
  if bool_decide (fst x = EOK) && wrdy
  then _sdio_wait_card_status send_cmd CDS_READY_FOR_DATA CDS_READY_FOR_DATA timeout
  else mret (fst x)).
Definition mmc_switch (cmdset mode index value timeout : Z) : M (cst C) errno :=
  _mmc_switch cmdset mode index value timeout true.

Definition mmc_set_partition (partition : Z) : M (cst C) errno :=
  d ← gets dev;
  if pactive d =? partition then mret EOK
  else
    e ← mmc_switch MMC_SWITCH_CMDSET_DFLT MMC_SWITCH_MODE_WRITE ECSD_PART_CONFIG partition
          (MMC_PARTITION_SWITCH_TIMEOUT * partition_time d);
    (if decide (e = EOK) then modify (upd_dev (set_pactive partition)) else mret ());;
    mret e.

Definition upd_dev_flags (f : Z -> Z) : M (cst C) () := modify (upd_ctl (fun k => set_dev_flags (f (dev_flags k)) k)).
Definition mmc_cache (op timeout : Z) : M (cst C) errno :=
  let sw := mmc_switch MMC_SWITCH_CMDSET_DFLT MMC_SWITCH_MODE_WRITE in
  if op =? SDIO_CACHE_DISABLE then
    e ← sw ECSD_CACHE_CTRL ECSD_CACHE_CTRL_DIS timeout;
    (if decide (e = EOK) then upd_dev_flags (fun f => Z.ldiff f DEV_FLAG_WCE) else mret ());; mret e
  else if op =? SDIO_CACHE_ENABLE then
    e ← sw ECSD_CACHE_CTRL ECSD_CACHE_CTRL_EN timeout;
    (if decide (e = EOK) then upd_dev_flags (fun f => Z.lor f DEV_FLAG_WCE) else mret ());; mret e
  else if op =? SDIO_CACHE_FLUSH then
    f ← gets (fun s => dev_flags (ctl s));
    if has f DEV_FLAG_WCE then sw ECSD_FLUSH_CACHE ECSD_FLUSH_TRIGGER timeout else mret EOK
  else mret EINVAL.
Definition mmc_pwroff_notify (op timeout : Z) : M (cst C) errno :=
  mmc_switch MMC_SWITCH_CMDSET_DFLT MMC_SWITCH_MODE_WRITE ECSD_POWER_OFF_NOTIFICATION op timeout.

(** ** Erasing

    The loop runs once: it takes all blocks of the range.  [r] is the status
    of the card; [erase_timeout] is mmc_erase_timeout for the range. *)
Definition erase_addr (lba : Z) (d : sdev) : Z := if has (dcaps d) DEV_CAP_HC then lba else u64 (lba * csd_blksz d).
Definition erase_cmds (op_start op_end op_erase flgs lba nlba erase_timeout : Z) (c : sdio_cmd_t) : M (cst C) errno :=
  d ← gets dev;
  x ← send_cmd (sdio_setup_cmd c (Z.lor SCF_CTYPE_AC SCF_RSP_R1) op_start (erase_addr lba d)) SDIO_TIME_DEFAULT 0;
  if decide (fst x <> EOK) then mret (fst x)
  else
    x ← send_cmd (sdio_setup_cmd (snd x) (Z.lor SCF_CTYPE_AC SCF_RSP_R1) op_end (erase_addr (u64 (u64 (lba + nlba) - 1)) d))
          SDIO_TIME_DEFAULT 0;
    if decide (fst x <> EOK) then mret (fst x)
    else
      x ← send_cmd (sdio_setup_cmd (snd x) (Z.lor (Z.lor SCF_CTYPE_AC SCF_RSP_R1B) SCF_WAIT_DRDY) op_erase flgs)
            (u32 erase_timeout) 0;
      mret (fst x).
Definition sd_erase (r : sds) (flgs lba nlba : Z) : M (cst C) errno := with_cmd (fun c =>
  if nlba =? 0 then mret EOK
  else erase_cmds SD_ERASE_WR_BLK_START SD_ERASE_WR_BLK_END SD_ERASE flgs lba nlba (sd_erase_timeout r nlba) c).
Definition mmc_erase (partition flgs lba nlba erase_timeout : Z) : M (cst C) errno :=
  e ← mmc_set_partition partition;
  if decide (e <> EOK) then mret e
  else with_cmd (fun c =>
    if nlba =? 0 then mret EOK
    else
      e ← erase_cmds MMC_TAG_ERASE_GROUP_START MMC_TAG_ERASE_GROUP_END MMC_ERASE flgs lba nlba erase_timeout c;
      if decide (e <> EOK) then mret e else _sdio_wait_card_status send_cmd READY_MSK READY (u32 erase_timeout)).

(** ** Identification of an SD card *)
Definition sd_send_if_cond (vhs : Z) : M (cst C) errno := with_cmd (fun c =>
  x ← send_cmd (sdio_setup_cmd c (Z.lor SCF_CTYPE_BCR SCF_RSP_R7) SD_SEND_IF_COND (Z.lor (Z.shiftl vhs 8) SD_SIC_TEST_PATTERN))
        SDIO_TIME_DEFAULT 0;
  mret (if decide (fst x = EOK) then if Z.land (rsp0 (snd x)) 0xff =? SD_SIC_TEST_PATTERN then EOK else EIO
        else if cstatus (snd x) =? CS_CMD_TO_ERR then ETIMEDOUT else EIO)).

(** [for( retry = n; retry; retry-- )] of the two SEND_OP_COND commands. *)
Fixpoint op_cond_loop (retry retries : nat) (ocr : Z) (c : sdio_cmd_t) : M (cst C) (errno * sdio_cmd_t) :=
  match retry with
  | O => mret (ETIMEDOUT, c)
  | S n =>
      x ← send_cmd c SDIO_TIME_DEFAULT retries;
      let '(e, c) := x in
      if decide (e <> EOK) then mret (e, c)
      else if (ocr =? 0) || has (rsp0 c) OCR_PWRUP_CMP then mret (EOK, c) else op_cond_loop n retries ocr c
  end.
Definition op_cond (n retries : nat) (flgs op ocr : Z) : M (cst C) (errno * Z) :=
  o ← sdio_alloc_cmd;
  match o with
  | None => mret (ENOMEM, 0)
  | Some c => x ← op_cond_loop n retries ocr (sdio_setup_cmd c flgs op ocr); mret (fst x, rsp0 (snd x))
  end.
Definition sd_app_send_op_cond (ocr : Z) : M (cst C) (errno * Z) :=
  op_cond (Z.to_nat OCR_BUSY_RETRIES) RETRIES (Z.lor (Z.lor SCF_CTYPE_BCR SCF_RSP_R3) SCF_APP_CMD) SD_AC_SEND_OP_COND ocr.
Definition mmc_send_op_cond (ocr : Z) : M (cst C) (errno * Z) :=
  op_cond 100 0 (Z.lor SCF_CTYPE_BCR SCF_RSP_R3) MMC_SEND_OP_COND ocr.

(** [do { ... } while( retries-- )] until the card has an address. *)
Fixpoint rca_loop (retries : nat) (c : sdio_cmd_t) : M (cst C) errno :=
  x ← send_cmd (sdio_setup_cmd c (Z.lor SCF_CTYPE_BCR SCF_RSP_R6) SD_SEND_RELATIVE_ADDR 0) SDIO_TIME_DEFAULT RETRIES;
  let '(e, c) := x in
  if decide (e <> EOK) then mret e
  else
    modify (upd_dev (set_rca (Z.shiftr (rsp0 c) 16)));;
    if negb (Z.shiftr (rsp0 c) 16 =? 0) then mret EOK
    else match retries with O => mret EOK | S n => rca_loop n c end.
Definition sdio_send_relative_addr : M (cst C) errno := with_cmd (fun c =>
  modify (upd_dev (set_rca 0));;
  e ← rca_loop (Z.to_nat SD_SEND_RELATIVE_ADDR_RETRIES) c;
  r ← gets (fun s => rca (dev s));
  mret (if r =? 0 then EIO else e)).

(** [while( 1 )] of sd_init_device: the operating conditions, and the switch
    to 1.8 V that the card accepts; true when it was left with EOK. *)
Fixpoint negotiate (fuel : nat) (ocr : Z) : M (cst C) errno :=
  match fuel with
  | O => crash
  | S n =>
      x ← sd_app_send_op_cond ocr;
      let '(e, rocr) := x in
      if decide (e <> EOK) then mret e
      else if Z.land rocr (Z.lor OCR_HCS OCR_S18A) =? Z.lor OCR_HCS OCR_S18A then
        e ← sd_voltage_switch;
        if decide (e <> EOK) then negotiate n (Z.ldiff ocr OCR_S18R)
        else
          e ← hc_call (entry_signal_voltage SIGNAL_VOLTAGE_1_8);
          if decide (e <> EOK) then upd_dev_flags (fun f => Z.lor f DEV_FLAG_SIG_ERR);; mret e else mret EOK
      else mret EOK
  end.

Definition HC_CAP_UHS (c : Z) : Z :=
  Z.land c (Z.lor HC_CAP_SDR12 (Z.lor HC_CAP_SDR25 (Z.lor HC_CAP_SDR50 (Z.lor HC_CAP_SDR104 HC_CAP_DDR50)))).
Definition HC_CAP_XPC (c : Z) : Z := Z.land (Z.shiftr c 17) 7.

(** The CSD of a new card. *)
Definition sd_new_csd : M (cst C) errno :=
  x ← sdio_send_csd;
  if decide (fst x <> EOK) then mret (fst x)
  else
    modify (upd_dev (set_raw_csd (snd x)));; d ← gets dev;
    match sd_parse_csd (snd x) (dcaps d) with
    | None => mret EINVAL
    | Some (c, caps) => modify (upd_dev (set_csd caps (SdioReg.blksz c)));; mret EOK
    end.

(** sd_init_device from the address to the selection of the card. *)
Definition sd_select (again : bool) : M (cst C) errno :=
  status ← sdio_send_relative_addr;
  if decide (status <> EOK) then mret status
  else
    hc_call (entry_bus_mode BUS_MODE_PUSH_PULL);;
    status ← (if again then mret EOK else sd_new_csd);
    if decide (status <> EOK) then mret status
    else d ← gets dev; sdio_select_card (rca d).

(** sd_init_device until the card is selected; [again] is its argument flgs.
    The fuel is that of [negotiate].  Of the errata only a delay is left. *)
Definition sd_identify (fuel : nat) (ocr : Z) (again : bool) : M (cst C) errno :=
  modify (upd_dev (set_rca 0));;
  sd_send_if_cond SD_SIC_VHS_27_36V;;
  sdio_go_idle;;
  status ← sd_send_if_cond SD_SIC_VHS_27_36V;
  if negb (bool_decide (status = EOK)) && negb (bool_decide (status = ETIMEDOUT)) then mret EIO
  else
    let ocr := if decide (status = EOK) then Z.lor ocr OCR_HCS else ocr in
    k ← gets ctl; d ← gets dev;
    let ocr := if negb (has (dev_flags k) DEV_FLAG_SIG_ERR) && negb (HC_CAP_UHS (hc_caps k) =? 0) &&
                  has (hc_caps k) HC_CAP_SV_1_8V && (negb again || negb (bus_modes d =? 0))
               then Z.lor ocr OCR_S18R else ocr in
    let ocr := if HC_CAP_XPC (hc_caps k) =? 0 then ocr else Z.lor ocr OCR_XPC in
    status ← negotiate fuel ocr;
    if decide (status <> EOK) then mret status
    else
      x ← sdio_all_send_cid;
      let '(status, cid) := x in
      if decide (status <> EOK) then mret status
      else if again && negb (bool_decide (raw_cid d = cid)) then mret ENXIO
      else
        modify (upd_dev (set_cid cid));; sd_select again.

(** ** Voltage and clock (base.c) *)
Definition sdio_clock (clk : Z) : M (cst C) errno :=
  k ← gets ctl;
  if clk <? hc_clk_min k then mret EINVAL
  else hc_call (entry_clk (if hc_clk_max k <? clk then hc_clk_max k else clk)).
Definition sdio_select_voltage (ocr : Z) : M (cst C) errno :=
  k ← gets ctl;
  let ocr := Z.land ocr (hc_ocr k) in
  let bpos := ffs ocr in
  if bpos =? 0 then modify (upd_dev (set_ocr 0));; mret EINVAL
  else
    e ← hc_call (entry_pwr (Z.shiftl 1 (bpos - 1)));
    modify (upd_dev (set_ocr (Z.shiftl 1 (bpos - 1))));; mret e.
End layer.
