(* ===== verification/SdioSend.v ===== *)
(** * What sending a command comes to

    The commands that a call of _sdio_send_cmd issues, for every controller
    with the laws of its entries: a round per try, each an application
    command or a block count that the command asks for, the command, and the
    polls of the card's state. *)
From S2P Require Import Prelude Driver SdioReg SdioConst Sdhci SdioCmd.
Open Scope Z_scope.

Section send.
Context {C : Type} `{hc_entry_laws C} (no_memory : list issued -> bool).
Implicit Types (s : cst C) (c : sdio_cmd_t) (x : issued).

(** ** Commands *)

(** The command as it was issued, what came back, and whether it did. *)
Definition cmd_of x : sdio_cmd_t := fst (fst x).
Definition answer x : sdio_cmd_t := snd x.
Definition completed x : Prop := snd (fst x) = EOK /\ cstatus (answer x) = CS_CMD_CMP.
Definition reset c : sdio_cmd_t := set_cstatus CS_CMD_INPROG c.

(** The result that a round has from its own command. *)
Definition result x : errno :=
  if decide (snd (fst x) = EOK) then
    if cstatus (answer x) =? CS_CARD_REMOVED then ENXIO else cmd_result (cstatus (answer x))
  else snd (fst x).
Definition retryable x : Prop :=
  snd (fst x) = EOK /\ cstatus (answer x) <> CS_CARD_REMOVED /\ cmd_result (cstatus (answer x)) <> EOK /\
  has (rsp0 (answer x)) CDS_ILLEGAL_COMMAND = false.

(** The commands for which the controller's entry always returns. *)
Definition runs c : Prop := forall c' t (k : C), same_cmd c c' -> is_Some (entry_cmd c' t k).

Lemma same_refl c : same_cmd c c.
Proof. by repeat split. Qed.
Lemma same_cmd_trans c c' c'' : same_cmd c c' -> same_cmd c' c'' -> same_cmd c c''.
Proof. intros (?&?&?&?&?&?&?) (?&?&?&?&?&?&?). repeat split; congruence. Qed.
Lemma same_reset c c' : same_cmd c c' -> same_cmd c (reset c').
Proof. by intros (?&?&?&?&?&?&?). Qed.

Lemma runs_no_data c : no_data c -> length (rsp c) = 4%nat -> runs c.
Proof.
  intros H1 H2 c' t k (E1&_&_&E2&_). apply cmd_total; [unfold no_data; by rewrite E1|by rewrite E2].
Qed.
Lemma runs_same c c' : runs c -> same_cmd c c' -> runs c'.
Proof. intros HR HS c'' t k H'. apply HR. by eapply same_cmd_trans. Qed.

Lemma result_cases x : completed x \/ result x <> EOK.
Proof.
  unfold completed, result, cmd_result. destruct (decide (snd (fst x) = EOK)) as [E|E]; [|by right].
  destruct (cstatus (answer x) =? CS_CARD_REMOVED); [by right|].
  destruct (cstatus (answer x) =? CS_CMD_CMP) eqn:E2; zbool; [by left|].
  right. by destruct (cstatus (answer x) =? CS_CMD_TO_ERR).
Qed.
Lemma completed_result x : completed x -> result x = EOK.
Proof. intros [E1 E2]. unfold result. by rewrite decide_True, E2 by done. Qed.
Lemma retryable_result x : retryable x -> result x <> EOK.
Proof.
  intros (E1 & E2 & E3 & _). unfold result. rewrite decide_True by done. by rewrite (proj2 (Z.eqb_neq _ _) E2).
Qed.

(** Issuing a command. *)
Lemma issue_ok c t s : runs c -> post (sdio_issue c t) s (fun r s' =>
  exists x, r = (snd (fst x), answer x) /\ cmd_of x = c /\ same_cmd c (answer x) /\ answers (C:=C) (cmd_of x) (answer x) /\
    (snd (fst x) = EOK -> cstatus (answer x) <> CS_CMD_INPROG) /\
    sent s' = sent s ++ [x] /\ dev s' = dev s /\ hc_caps (ctl s') = hc_caps (ctl s)).
Proof.
  intros HR. destruct (HR c t (ctl s) (same_refl c)) as [[[e c'] k] E]. unfold sdio_issue, post. rewrite E.
  do 2 eexists. split; [reflexivity|]. exists (c, e, c'). split; [done|]. split; [done|].
  split; [by apply (cmd_same _ _ _ _ _ _ E)|]. split; [by do 4 eexists|]. simpl. split; [|by rewrite (cmd_caps _ _ _ _ _ _ E)].
  intros ->. by apply (cmd_done _ _ _ _ _ E).
Qed.

Lemma ask_tuning_ok s : post (ask_tuning (C:=C)) s (fun _ s' =>
  sent s' = sent s /\ dev s' = dev s /\ hc_caps (ctl s') = hc_caps (ctl s)).
Proof.
  apply post_modify. simpl. destruct (_ && _); [|done]. by rewrite caps_flags.
Qed.
(** ** The parts of a round *)
Definition is_app (r : Z) x : Prop := opcode (cmd_of x) = SD_APP_CMD /\ arg (cmd_of x) = u32 (Z.shiftl r 16).
Definition is_count c x : Prop := opcode (cmd_of x) = MMC_SET_BLOCK_COUNT /\
  arg (cmd_of x) = u32 (Z.lor (blks c) (if has (cflags c) SCF_SBC_RLW then SBC_RL_WRITE else 0)).
Definition is_status x : Prop := opcode (cmd_of x) = MMC_SEND_STATUS.

Definition one (b : bool) (P : issued -> Prop) (tr : list issued) : Prop :=
  if b then exists x, tr = [x] /\ P x /\ completed x else tr = [].
Definition pre_ok (k r : Z) c (tr : list issued) : Prop := exists a b, tr = a ++ b /\
  one (has (cflags c) SCF_APP_CMD) (is_app r) a /\
  one (has (cflags c) SCF_SBC && negb (has k HC_CAP_ACMD23)) (is_count c) b.

(** A round with its own command [x] and the polls after it; a round that
    did not come to it. *)
Definition round (k r : Z) c (tr : list issued) x (polls : list issued) : Prop := exists pre,
  tr = pre ++ x :: polls /\ pre_ok k r c pre /\ same_cmd c (cmd_of x) /\ cstatus (cmd_of x) = CS_CMD_INPROG /\
  answers (C:=C) (cmd_of x) (answer x) /\ Forall is_status polls.
Definition cut (r : Z) c (tr : list issued) : Prop :=
  has (cflags c) SCF_APP_CMD || has (cflags c) SCF_SBC = true /\ Forall (fun x => is_app r x \/ is_count c x) tr.

(** The card was ready when the polls ended. *)
Definition shows_ready (e : errno) (polls : list issued) : Prop := e = EOK ->
  exists tr y, polls = tr ++ [y] /\ completed y /\ has (rsp0 (answer y)) CDS_ERROR_MSK = false /\
    Z.land (rsp0 (answer y)) READY_MSK = READY.

Definition kept s s' : Prop := dev s' = dev s /\ hc_caps (ctl s') = hc_caps (ctl s).
Lemma kept_trans s s' s'' : kept s s' -> kept s' s'' -> kept s s''.
Proof. intros [E1 E2] [E3 E4]. split; congruence. Qed.

(** What a round needs of the commands it sends on the way. *)
Definition prelude_spec (send : sdio_cmd_t -> Z -> nat -> M (cst C) (errno * sdio_cmd_t)) c : Prop := forall s,
  post (send_prelude no_memory send (reset c)) s (fun e s' => kept s s' /\ exists tr, sent s' = sent s ++ tr /\
    (e = EOK -> pre_ok (hc_caps (ctl s)) (rca (dev s)) c tr) /\ (e <> EOK -> cut (rca (dev s)) c tr)).
Definition wait_spec (send : sdio_cmd_t -> Z -> nat -> M (cst C) (errno * sdio_cmd_t)) : Prop := forall t s,
  post (_sdio_wait_card_status no_memory send READY_MSK READY t) s (fun e s' => kept s s' /\
    exists polls, sent s' = sent s ++ polls /\ Forall is_status polls /\ shows_ready e polls).

Section loop.
Context (send : sdio_cmd_t -> Z -> nat -> M (cst C) (errno * sdio_cmd_t)) (c0 : sdio_cmd_t).
Context (HR : runs c0) (HP : forall c, same_cmd c0 c -> prelude_spec send c)
  (HW : has (cflags c0) SCF_WAIT_DRDY = true -> wait_spec send).

(** The end of the last round; [k] are the capabilities. *)
Definition waits (k : Z) : bool := has (cflags c0) SCF_WAIT_DRDY && negb (has k HC_CAP_BSY).
Definition waited (k : Z) x (e : errno) (polls : list issued) : Prop :=
  waits k = true /\ completed x /\ shows_ready e polls.
Definition removed x : Prop := snd (fst x) = EOK /\ cstatus (answer x) = CS_CARD_REMOVED.
Definition own_end (k : Z) (o : outcome) x (polls : list issued) : Prop :=
  match o with
  | Stop e c => c = answer x /\ ((polls = [] /\ e = result x /\ ~ retryable x /\ ~ removed x /\ (e = EOK -> waits k = false)) \/
                              waited k x e polls)
  | Leave e c => c = answer x /\ polls = [] /\ e = ENXIO /\ removed x
  | Again e c => c = answer x /\ polls = [] /\ e = result x /\ retryable x
  end.

Lemma own_ok c t s : same_cmd c0 c -> post (send_own no_memory send (reset c) t) s (fun o s' =>
  kept s s' /\ exists x polls, sent s' = sent s ++ x :: polls /\ same_cmd c0 (cmd_of x) /\ same_cmd c0 (answer x) /\
    cstatus (cmd_of x) = CS_CMD_INPROG /\ answers (C:=C) (cmd_of x) (answer x) /\ Forall is_status polls /\ own_end (hc_caps (ctl s)) o x polls).
Proof.
  intros HS. apply post_bind. eapply post_mono; [apply issue_ok, (runs_same c0), same_reset; done|].
  intros r s1 (x & -> & Hc & Hs & HAn & HI & E1 & E2 & E3).
  assert (Hx : same_cmd c0 (cmd_of x)) by (rewrite Hc; by apply same_reset).
  assert (Ha : same_cmd c0 (answer x)) by (eapply same_cmd_trans; [exact (same_reset _ _ HS)|done]).
  assert (HB : cstatus (cmd_of x) = CS_CMD_INPROG) by by rewrite Hc.
  assert (HK : kept s s1) by done. clear Hc Hs.
  assert (HN : forall o, own_end (hc_caps (ctl s)) o x [] -> post (mret o) s1 (fun o s' => kept s s' /\ exists x polls,
    sent s' = sent s ++ x :: polls /\ same_cmd c0 (cmd_of x) /\ same_cmd c0 (answer x) /\
    cstatus (cmd_of x) = CS_CMD_INPROG /\ answers (C:=C) (cmd_of x) (answer x) /\ Forall is_status polls /\ own_end (hc_caps (ctl s)) o x polls)).
  { intros o Ho. apply post_ret. split; [done|]. exists x, []. do 5 (split; [done|]). split; [constructor|done]. }
  pose proof (result_cases x) as HC. unfold result in *. simpl.
  destruct (decide (snd (fst x) = EOK)) as [E|E].
  2: { rewrite decide_True by done. apply HN. split; [done|]. left. split; [done|].
       split; [unfold result; by rewrite decide_False by done|]. split; [by intros []|]. split; [by intros []|done]. }
  rewrite decide_False by (intros F; by apply F).
  destruct (cstatus (answer x) =? CS_CARD_REMOVED) eqn:ER; zbool.
  { apply HN. done. }
  apply post_bind. apply (post_mono _ _ (fun _ s2 => kept s s2 /\ sent s2 = sent s1)).
  { destruct (_ =? CS_DATA_CRC_ERR); [|by apply post_ret].
    eapply post_mono; [apply ask_tuning_ok|]. intros _ s2 (F1 & F2 & F3). split; [|done]. by apply (kept_trans _ s1). }
  intros _ s2 [HK2 ES]. clear HN. revert HK2 ES. generalize s2. clear s2. intros s2 HK2 ES.
  assert (HN : forall o, own_end (hc_caps (ctl s)) o x [] -> post (mret o) s2 (fun o s' => kept s s' /\ exists x polls,
    sent s' = sent s ++ x :: polls /\ same_cmd c0 (cmd_of x) /\ same_cmd c0 (answer x) /\
    cstatus (cmd_of x) = CS_CMD_INPROG /\ answers (C:=C) (cmd_of x) (answer x) /\ Forall is_status polls /\ own_end (hc_caps (ctl s)) o x polls)).
  { intros o Ho. apply post_ret. split; [done|]. exists x, []. rewrite ES. do 5 (split; [done|]). split; [constructor|done]. }
  assert (HX : result x = cmd_result (cstatus (answer x))).
  { unfold result. rewrite decide_True by done. by rewrite (proj2 (Z.eqb_neq _ _) ER). }
  cbv zeta. destruct (decide (cmd_result (cstatus (answer x)) = EOK)) as [EC|EC].
  - destruct HC as [HC|HC]; [|by rewrite EC in HC].
    assert (HE : waits (hc_caps (ctl s)) = false -> own_end (hc_caps (ctl s)) (Stop EOK (answer x)) x []).
    { intros HF. split; [done|]. left. rewrite HX, EC. unfold retryable, removed. naive_solver. }
    apply post_bind, post_gets. rewrite (proj1 Ha), (proj2 HK2). fold (waits (hc_caps (ctl s))).
    destruct (waits (hc_caps (ctl s))) eqn:EWs; [|by apply HN, HE].
    assert (EW : has (cflags c0) SCF_WAIT_DRDY = true) by (unfold waits in EWs; by apply andb_true_iff in EWs as [? _]).
    apply post_bind. eapply post_mono; [apply (HW EW)|]. intros e s3 (HK3 & polls & E3' & HP3 & HR3).
    apply post_ret. split; [by apply (kept_trans _ s2)|]. exists x, polls. rewrite E3', ES, E1, <- app_assoc.
    do 6 (split; [done|]). split; [done|]. right. done.
  - destruct (has (rsp0 (answer x)) CDS_ILLEGAL_COMMAND) eqn:EI; apply HN; (split; [done|]).
    + left. unfold retryable, removed. rewrite HX, EI. naive_solver.
    + done.
Qed.
Lemma pre_ok_same k r c tr : same_cmd c0 c -> pre_ok k r c tr -> pre_ok k r c0 tr.
Proof. intros (E1&_&_&_&E2&_). unfold pre_ok, one, is_count. by rewrite E1, E2. Qed.
Lemma cut_same r c tr : same_cmd c0 c -> cut r c tr -> cut r c0 tr.
Proof. intros (E1&_&_&_&E2&_). unfold cut, is_count. by rewrite E1, E2. Qed.

(** The whole loop: the rounds that were repeated, and the last. *)
Definition repeated (k r : Z) (rounds : list (list issued)) : Prop :=
  Forall (fun rnd => exists x, round k r c0 rnd x [] /\ retryable x) rounds.
Definition last_end (n : nat) (k r : Z) (rounds : list (list issued)) (tr : list issued) (e : errno) c (returned : bool) : Prop :=
  (cut r c0 tr /\ e <> EOK /\ returned = false) \/
  exists x polls, round k r c0 tr x polls /\ c = answer x /\
    ((returned = true /\ e = ENXIO /\ polls = [] /\ removed x) \/
     (returned = false /\ polls = [] /\ e = result x /\ ~ removed x /\ (retryable x -> length rounds = n) /\
       (e = EOK -> waits k = false)) \/
     (returned = false /\ waited k x e polls)).

Lemma last_end_more n k r rounds tr e c b rnd : last_end n k r rounds tr e c b -> last_end (S n) k r (rnd :: rounds) tr e c b.
Proof.
  intros [L|(x & polls & L1 & L2 & L3)]; [by left|right]. exists x, polls. split; [done|]. split; [done|].
  destruct L3 as [L3|[(L3 & L4 & L5 & L6 & L7 & L8)|L3]]; [by left| |by do 2 right].
  right; left. do 4 (split; [done|]). split; [|done]. intros L9. simpl. by rewrite L7.
Qed.

Lemma send_loop_ok n t : forall c s, same_cmd c0 c -> post (send_loop no_memory send n c t) s (fun o s' =>
  let '(e, c', returned) := o in kept s s' /\ same_cmd c0 c' /\ exists rounds tr, sent s' = sent s ++ concat rounds ++ tr /\
    (length rounds <= n)%nat /\ repeated (hc_caps (ctl s)) (rca (dev s)) rounds /\
    last_end n (hc_caps (ctl s)) (rca (dev s)) rounds tr e c' returned).
Proof.
  induction n as [|n IH]; intros c s HS; cbn [send_loop]; apply post_bind; unfold send_round; cbv zeta;
    fold (reset c); apply post_bind; (eapply post_mono; [apply (HP c HS)|]);
    intros e s1 (HK & pre & E1 & Hok & Hcut).
  all: destruct (decide (e <> EOK)) as [He|He].
  1,3: apply post_ret, post_ret; split; [done|]; split; [by apply same_reset|]; exists [], pre; simpl;
    split; [done|]; split; [lia|]; split; [constructor|]; left; split; [eapply cut_same; eauto|done].
  all: apply dec_stable in He; specialize (Hok He); apply (pre_ok_same _ _ _ _ HS) in Hok.
  all: eapply post_mono; [by apply own_ok|]; intros o s2 (HK2 & x & polls & E2 & X1 & X2 & X3 & X4 & HP3 & HO).
  all: assert (HK3 : kept s s2) by (by apply (kept_trans _ s1)).
  all: assert (HRnd : round (hc_caps (ctl s)) (rca (dev s)) c0 (pre ++ x :: polls) x polls) by (by exists pre).
  all: assert (ES : sent s2 = sent s ++ pre ++ x :: polls) by (by rewrite E2, E1, <- app_assoc).
  all: rewrite (proj2 HK) in HO.
  all: destruct o as [e' c'|e' c'|e' c']; destruct HO as [-> HO].
  1,4: apply post_ret; split; [done|]; split; [done|]; exists [], (pre ++ x :: polls); simpl;
    split; [done|]; split; [lia|]; split; [constructor|]; right; exists x, polls; split; [done|]; split; [done|];
    destruct HO as [(-> & -> & HO1 & HO2 & HO3)|HO]; [right; left; do 4 (split; [done|]); split; [intros F; by destruct HO1|done]|];
    by do 2 right.
  1,3: apply post_ret; split; [done|]; split; [done|]; exists [], (pre ++ x :: polls); simpl;
    split; [done|]; split; [lia|]; split; [constructor|]; right; exists x, polls; split; [done|]; split; [done|];
    destruct HO as (-> & -> & HO); by left.
  - destruct HO as (-> & -> & HO). apply post_ret. split; [done|]. split; [done|]. exists [], (pre ++ [x]). simpl.
    split; [done|]. split; [lia|]. split; [constructor|]. right. exists x, []. split; [done|]. split; [done|].
    right; left. do 3 (split; [done|]). split; [intros [_ F]; by destruct HO as (_ & HO & _)|]. split; [done|].
    intros F. by apply retryable_result in HO.
  - destruct HO as (-> & -> & HO). eapply post_mono; [by apply IH|]. intros [[e2 c2] b] s3 (HK4 & HS4 & rounds & tr & E4 & HL & HRep & HE).
    destruct HK3 as [D1 D2]. rewrite D1, D2 in *.
    split; [by apply (kept_trans _ s2)|]. split; [done|]. exists ((pre ++ [x]) :: rounds), tr.
    rewrite E4, ES. simpl. split; [by rewrite <- !app_assoc|]. split; [lia|]. split; [constructor; [by exists x|done]|].
    by apply last_end_more.
Qed.
End loop.
(** ** A call *)

(** The capabilities during a call. *)
Definition caps_during c (k : Z) : Z := if has (cflags c) SCF_SBC_RLW then Z.ldiff k acmd_caps else k.

(** What a call comes to: its rounds, its result, and the capabilities. *)
Definition call_end c (retries : nat) s (e : errno) c' s' : Prop :=
  same_cmd c c' /\ dev s' = dev s /\ exists rounds tr returned, sent s' = sent s ++ concat rounds ++ tr /\
    (length rounds <= retries)%nat /\ repeated c (caps_during c (hc_caps (ctl s))) (rca (dev s)) rounds /\
    last_end c retries (caps_during c (hc_caps (ctl s))) (rca (dev s)) rounds tr e c' returned /\
    hc_caps (ctl s') = (if (returned : bool) then caps_during c (hc_caps (ctl s)) else hc_caps (ctl s)).

Lemma restore_caps k a : Z.lor (Z.ldiff k a) (Z.land k a) = k.
Proof.
  apply Z.bits_inj'. intros i Hi. rewrite Z.lor_spec, Z.ldiff_spec, Z.land_spec. by destruct (Z.testbit k i), (Z.testbit a i).
Qed.
Lemma ldiff_none k a : Z.land k a = 0 -> Z.ldiff k a = k.
Proof. intros H1. rewrite <- (restore_caps k a) at 2. by rewrite H1, Z.lor_0_r. Qed.

Lemma send_level_ok n c t retries s : runs c -> (forall c', same_cmd c c' -> prelude_spec (_sdio_send_cmd no_memory n) c') ->
  (has (cflags c) SCF_WAIT_DRDY = true -> wait_spec (_sdio_send_cmd no_memory n)) ->
  post (_sdio_send_cmd no_memory (S n) c t retries) s (fun o s' => call_end c retries s (fst o) (snd o) s').
Proof.
  intros HR HP HW. cbn [_sdio_send_cmd]. apply post_bind, post_gets, post_bind.
  set (k := hc_caps (ctl s)).
  apply (post_mono _ _ (fun _ s1 => sent s1 = sent s /\ dev s1 = dev s /\ hc_caps (ctl s1) = caps_during c k)).
  { unfold caps_during. destruct (has (cflags c) SCF_SBC_RLW); [|by apply post_ret].
    apply post_modify. simpl. by rewrite caps_set. }
  intros _ s1 (S1 & D1 & K1). apply post_bind. eapply post_mono; [by apply (send_loop_ok _ _ HR HP HW), same_refl|].
  intros [[e c'] b] s2 ([D2 K2] & HS & rounds & tr & E & HL & HRep & HE). rewrite K1, D1, S1 in *.
  destruct b.
  { apply post_ret. split; [done|]. split; [by rewrite D2|]. exists rounds, tr, true. by rewrite K2. }
  apply post_bind. apply (post_mono _ _ (fun _ s3 => sent s3 = sent s2 /\ dev s3 = dev s2 /\ hc_caps (ctl s3) = k)).
  - unfold caps_during in *. destruct (has (cflags c) SCF_SBC_RLW); [|by apply post_ret].
    destruct (Z.land k acmd_caps =? 0) eqn:E0; zbool; simpl.
    + apply post_ret. do 2 (split; [done|]). by rewrite K2, ldiff_none.
    + apply post_modify. simpl. by rewrite caps_set, K2, restore_caps.
  - intros _ s3 (S3 & D3 & K3). apply post_ret. split; [done|]. split; [by rewrite D3, D2|]. exists rounds, tr, false.
    by rewrite S3, K3.
Qed.

(** ** Commands that send no others *)
Definition plain c : Prop := has (cflags c) SCF_APP_CMD = false /\ has (cflags c) SCF_SBC = false /\
  has (cflags c) SCF_WAIT_DRDY = false /\ has (cflags c) SCF_SBC_RLW = false.

Lemma plain_pre c send : plain c -> forall c', same_cmd c c' -> prelude_spec send c'.
Proof.
  intros (P1 & P2 & _) c' (E&_) s. unfold send_prelude. simpl cflags. rewrite E, P1, P2. cbn [andb].
  apply post_bind, post_ret. rewrite decide_False by (intros F; by apply F). apply post_bind, post_gets, post_ret.
  split; [done|]. exists []. rewrite app_nil_r. split; [done|]. split; [|done]. intros _. exists [], []. unfold one.
  by rewrite E, P1, P2.
Qed.

Lemma plain_round k r c tr x polls : plain c -> round k r c tr x polls -> tr = x :: polls /\ same_cmd c (cmd_of x).
Proof.
  intros (P1 & P2 & _) (pre & -> & (a & b & -> & A & B) & HS & _). unfold one in *. rewrite P1 in A. rewrite P2 in B.
  simpl in A, B. subst. done.
Qed.

Lemma plain_ok n c t retries s : runs c -> plain c -> post (_sdio_send_cmd no_memory (S n) c t retries) s (fun o s' =>
  kept s s' /\ exists xs x, sent s' = sent s ++ xs ++ [x] /\ (length xs <= retries)%nat /\ Forall retryable xs /\
    Forall (fun y => same_cmd c (cmd_of y)) (xs ++ [x]) /\ fst o = result x /\ snd o = answer x).
Proof.
  intros HR HPl. pose proof HPl as (P1 & P2 & P3 & P4).
  eapply post_mono; [apply (send_level_ok n c t retries s HR); [exact (plain_pre c _ HPl)|congruence]|].
  intros [e c'] s' (HS & HD & rounds & tr & b & E & HL & HRep & HE & HK). cbn [fst snd] in *.
  unfold caps_during in *. rewrite P4 in *.
  split; [by destruct b|].
  assert (X : exists xs, concat rounds = xs /\ length xs = length rounds /\ Forall retryable xs /\ Forall (fun y => same_cmd c (cmd_of y)) xs).
  { clear -HRep HPl. induction HRep as [|rnd rounds (x & Hx & Hr) HF (xs & E1 & E2 & E3 & E4)]; [by exists []|].
    apply (plain_round _ _ _ _ _ _ HPl) in Hx as [-> Hs]. exists (x :: xs). simpl. rewrite E1, E2.
    split; [done|]. split; [done|]. by split; constructor. }
  destruct X as (xs & EX & EL & HX & HY). rewrite EX in E.
  destruct HE as [(HC & He & _)|(x & polls & Hx & -> & HE)].
  { destruct HC as [HC _]. by rewrite P1, P2 in HC. }
  apply (plain_round _ _ _ _ _ _ HPl) in Hx as [-> Hs].
  assert (HZ : polls = [] /\ e = result x).
  { destruct HE as [(-> & -> & -> & R1 & R2)|[(-> & -> & -> & _)|(_ & W & _)]]; [|done|].
    - split; [done|]. unfold result. by rewrite decide_True, R2 by done.
    - unfold waits in W. by rewrite P3 in W. }
  destruct HZ as [-> ->]. exists xs, x. rewrite EL. do 3 (split; [done|]). split; [|done]. apply Forall_app. by rewrite Forall_singleton.
Qed.

(** ** What the commands on the way come to *)
Lemma setup_zero_runs f op a : has f SCF_DATA_MSK = false -> runs (sdio_setup_cmd zero_cmd f op a).
Proof. intros HF. by apply runs_no_data. Qed.

Lemma helper_ok n f op a t s : has f SCF_DATA_MSK = false -> plain (sdio_setup_cmd zero_cmd f op a) ->
  post (_sdio_send_cmd no_memory (S n) (sdio_setup_cmd zero_cmd f op a) t 0) s (fun o s' => kept s s' /\ exists x,
    sent s' = sent s ++ [x] /\ opcode (cmd_of x) = op /\ arg (cmd_of x) = u32 a /\ (fst o = EOK -> completed x)).
Proof.
  intros HF HPl. eapply post_mono; [by apply plain_ok, HPl; apply setup_zero_runs|].
  intros o s' (HK & xs & x & E & HL & _ & HS & -> & _). destruct xs; [|simpl in HL; lia]. split; [done|]. exists x.
  split; [done|]. apply Forall_cons in HS as [(_ & E1 & E2 & _) _]. do 2 (split; [done|]).
  intros HE. by destruct (result_cases x).
Qed.

Lemma with_cmd_ok (f : sdio_cmd_t -> M (cst C) errno) s (Q : errno -> cst C -> Prop) :
  Q ENOMEM s -> post (f zero_cmd) s Q -> post (with_cmd no_memory f) s Q.
Proof. intros H1 H2. apply post_bind. unfold sdio_alloc_cmd, post at 1. do 2 eexists. split; [done|]. by destruct (no_memory _); [apply post_ret|]. Qed.

(** A command on the way that takes no part in the result but its own. *)
Lemma on_the_way n f op a t s : has f SCF_DATA_MSK = false -> plain (sdio_setup_cmd zero_cmd f op a) ->
  post (with_cmd no_memory (fun c => x ← _sdio_send_cmd no_memory (S n) (sdio_setup_cmd c f op a) t 0; mret (fst x))) s
    (fun e s' => kept s s' /\ exists tr, sent s' = sent s ++ tr /\
      Forall (fun x => opcode (cmd_of x) = op /\ arg (cmd_of x) = u32 a) tr /\
      (e = EOK -> exists x, tr = [x] /\ completed x)).
Proof.
  intros HF HP. apply with_cmd_ok.
  - split; [done|]. exists []. by rewrite app_nil_r.
  - apply post_bind. eapply post_mono; [by apply helper_ok|]. intros o s' (HK & x & E & E1 & E2 & HO).
    apply post_ret. split; [done|]. exists [x]. rewrite Forall_singleton. do 2 (split; [done|]). intros HE.
    exists x. split; [done|]. by apply HO.
Qed.

Lemma prelude_ok n c : prelude_spec (_sdio_send_cmd no_memory (S n)) c.
Proof.
  intros s. unfold send_prelude. simpl cflags. apply post_bind.
  apply (post_mono _ _ (fun e s1 => kept s s1 /\ exists a, sent s1 = sent s ++ a /\
    Forall (is_app (rca (dev s))) a /\ (e <> EOK -> has (cflags c) SCF_APP_CMD = true) /\
    (e = EOK -> one (has (cflags c) SCF_APP_CMD) (is_app (rca (dev s))) a))).
  { destruct (has (cflags c) SCF_APP_CMD).
    - apply with_cmd_ok; [split; [done|]; exists []; rewrite app_nil_r; by repeat split; [constructor|..]|].
      apply post_bind, post_gets, post_bind. eapply post_mono; [apply helper_ok; by destruct (_ =? 0)|].
      intros o s1 (HK & x & E & E1 & E2 & HO). apply post_ret. split; [done|]. exists [x].
      unfold is_app, one. rewrite Forall_singleton, E2. unfold u32. rewrite Z.mod_mod by done. 
      do 3 (split; [done|]). intros HE. exists x.
      split; [done|]. split; [|by apply HO]. split; [done|]. rewrite E2. unfold u32. by rewrite Z.mod_mod.
    - apply post_ret. split; [done|]. exists []. rewrite app_nil_r. by repeat split; [constructor|..]. }
  intros e s1 (HK & a & E & HA & HE & HO).
  destruct (decide (e <> EOK)) as [He|He].
  { apply post_ret. split; [done|]. exists a. split; [done|]. split; [done|]. intros _. split; [by rewrite HE|].
    eapply Forall_impl; [done|]. by left. }
  apply dec_stable in He. specialize (HO He). clear HE. apply post_bind, post_gets. destruct HK as [D K]. rewrite K.
  destruct (has (cflags c) SCF_SBC && negb (has (hc_caps (ctl s)) HC_CAP_ACMD23)) eqn:EB.
  - eapply post_mono; [by apply on_the_way|]. intros e' s2 (HK2 & b & E2 & HB & HO2).
    split; [by apply (kept_trans _ s1)|]. exists (a ++ b). rewrite E2, E, app_assoc. split; [done|]. split; intros He'.
    + exists a, b. split; [done|]. split; [done|]. rewrite EB. destruct (HO2 He') as (x & -> & HX). exists x.
      rewrite Forall_singleton in HB. split; [done|]. split; [exact HB|done].
    + split; [apply andb_true_iff in EB as [-> _]; apply orb_true_r|]. apply Forall_app. split.
      * eapply Forall_impl; [done|]. by left.
      * eapply Forall_impl; [done|]. by right.
  - apply post_ret. split; [done|]. exists a. split; [done|]. split; [|done]. intros _. exists a, []. rewrite app_nil_r, EB. done.
Qed.

(** ** The wait for the card *)
Lemma send_status_ok n hpi s : post (_sdio_send_status no_memory (_sdio_send_cmd no_memory (S n)) hpi) s (fun o s' =>
  kept s s' /\ exists polls, sent s' = sent s ++ polls /\ Forall is_status polls /\
    (fst o = EOK -> exists tr y, polls = tr ++ [y] /\ completed y /\ snd o = rsp0 (answer y))).
Proof.
  unfold _sdio_send_status. apply post_bind. unfold sdio_alloc_cmd, post at 1. do 2 eexists. split; [done|].
  destruct (no_memory _).
  { apply post_ret. split; [done|]. exists []. rewrite app_nil_r. split; [done|]. split; [constructor|done]. }
  apply post_bind, post_gets, post_bind. eapply post_mono; [by apply plain_ok; [apply setup_zero_runs|]|].
  intros o s' (HK & xs & x & E & _ & _ & HS & E1 & E2). apply post_ret. split; [done|]. exists (xs ++ [x]). split; [done|].
  split; [eapply Forall_impl; [done|]; by intros y (_ & ? & _)|]. simpl. intros HE. exists xs, x. split; [done|].
  rewrite decide_True, E2 by done. split; [|done]. rewrite E1 in HE. by destruct (result_cases x).
Qed.

Lemma wait_loop_ok n mask val m : forall rsp s, post (wait_loop no_memory (_sdio_send_cmd no_memory (S n)) m mask val rsp) s (fun o s' =>
  kept s s' /\ exists polls, sent s' = sent s ++ polls /\ Forall is_status polls /\
    (fst o = EOK -> exists tr y, polls = tr ++ [y] /\ completed y /\ has (rsp0 (answer y)) CDS_ERROR_MSK = false /\
      Z.land (rsp0 (answer y)) mask = val)).
Proof.
  induction m as [|m IH]; intros rsp s; cbn [wait_loop].
  { apply post_ret. split; [done|]. exists []. rewrite app_nil_r. split; [done|]. split; [constructor|done]. }
  apply post_bind. eapply post_mono; [apply send_status_ok|]. intros [e r] s1 (HK & polls & E & HF & HO). simpl in HO.
  assert (HN : forall e' (r' : Z), e' <> EOK -> post (mret (e', r')) s1 (fun o s' =>
    kept s s' /\ exists polls, sent s' = sent s ++ polls /\ Forall is_status polls /\
    (fst o = EOK -> exists tr y, polls = tr ++ [y] /\ completed y /\ has (rsp0 (answer y)) CDS_ERROR_MSK = false /\
      Z.land (rsp0 (answer y)) mask = val))).
  { intros e' r' He'. apply post_ret. split; [done|]. exists polls. done. }
  destruct (decide (e <> EOK)) as [He|He]; [by apply HN|]. apply dec_stable in He.
  destruct (has r CDS_ERROR_MSK) eqn:ER; [by apply HN|].
  destruct (HO He) as (tr & y & -> & HY & ->). destruct (_ =? val) eqn:EV; zbool.
  - apply post_ret. split; [done|]. exists (tr ++ [y]). do 2 (split; [done|]). intros _. by exists tr, y.
  - eapply post_mono; [apply IH|]. intros o s2 (HK2 & polls & E2 & HF2 & HO2). split; [by apply (kept_trans _ s1)|].
    exists ((tr ++ [y]) ++ polls). rewrite E2, E, <- app_assoc. split; [done|]. split; [by apply Forall_app|].
    intros He2. destruct (HO2 He2) as (tr2 & y2 & -> & HY2). exists ((tr ++ [y]) ++ tr2), y2. by rewrite <- !app_assoc.
Qed.

Lemma wait_ok n : wait_spec (_sdio_send_cmd no_memory (S n)).
Proof.
  intros t s. apply post_bind. eapply post_mono; [apply wait_loop_ok|]. intros o s' (HK & polls & E & HF & HO).
  apply post_ret. split; [done|]. by exists polls.
Qed.

(** ** Calls from outside *)
Lemma send_cmd_post c t retries s : runs c ->
  post (send_cmd no_memory c t retries) s (fun o s' => call_end c retries s (fst o) (snd o) s').
Proof. intros HR. apply send_level_ok; [done|intros c' _; apply prelude_ok|intros _; apply wait_ok]. Qed.

(** A call with the result EOK: the last round has the command, completed,
    and the polls of a card that was waited for. *)
Lemma send_cmd_eok c t retries s : runs c ->
  post (send_cmd no_memory c t retries) s (fun o s' => same_cmd c (snd o) /\ kept s s' \/ fst o = ENXIO) /\
  post (send_cmd no_memory c t retries) s (fun o s' => fst o = EOK -> same_cmd c (snd o) /\ kept s s' /\
    exists rounds tr x polls, sent s' = sent s ++ concat rounds ++ tr /\
      repeated c (caps_during c (hc_caps (ctl s))) (rca (dev s)) rounds /\
      round (caps_during c (hc_caps (ctl s))) (rca (dev s)) c tr x polls /\ completed x /\ snd o = answer x /\
      (waits c (caps_during c (hc_caps (ctl s))) = true -> shows_ready EOK polls)).
Proof.
  intros HR. split; (eapply post_mono; [by apply send_cmd_post|]);
    intros [e c'] s' (HS & HD & rounds & tr & b & E & HL & HRep & HE & HK); cbn [fst snd] in *.
  - destruct HE as [(_ & _ & ->)|(x & polls & _ & _ & [(-> & -> & _)|[(-> & _)|(-> & _)]])]; [|by right| |]; by left.
  - intros ->. destruct HE as [(_ & HN & _)|(x & polls & Hx & -> & [(_ & HN & _)|[(-> & -> & HX & _ & _ & HW)|(-> & HW & HX & HP)]])];
      [done|done| |]; split; try done; split; try done; exists rounds, tr, x; [exists []|exists polls];
      do 3 (split; [done|]).
    + split; [by destruct (result_cases x)|]. split; [done|]. by rewrite HW.
    + done.
Qed.
End send.
