(* ===== verification/SdioCard.v ===== *)
(** * The operations of the command layer

    What erasing, identifying and powering a card come to, for every
    controller with the laws of its entries: the commands in their order,
    the results, and that the loops end. *)
From S2P Require Import Prelude Driver SdioReg SdioConst Sdhci SdioCmd SdioSend.
Open Scope Z_scope.

Section card.
Context {C : Type} `{hc_entry_laws C} (no_memory : list issued -> bool).
Implicit Types (s : cst C) (c : sdio_cmd_t) (x : issued).

(** ** One command *)
Definition is_cmd (op a : Z) x : Prop := opcode (cmd_of x) = op /\ arg (cmd_of x) = u32 a.

Lemma setup_runs c f op a : has f SCF_DATA_MSK = false -> length (rsp c) = 4%nat -> runs (sdio_setup_cmd c f op a).
Proof. intros HF HL. by apply runs_no_data. Qed.
Lemma same_setup c f op a x : same_cmd (sdio_setup_cmd c f op a) (cmd_of x) -> is_cmd op a x.
Proof. by intros (_ & E1 & E2 & _). Qed.

Lemma send_plain c f op a t retries s : has f SCF_DATA_MSK = false -> length (rsp c) = 4%nat -> plain (sdio_setup_cmd c f op a) ->
  post (send_cmd no_memory (sdio_setup_cmd c f op a) t retries) s (fun o s' => kept s s' /\ length (rsp (snd o)) = 4%nat /\
    exists xs x, sent s' = sent s ++ xs ++ [x] /\ (length xs <= retries)%nat /\ Forall retryable xs /\
      Forall (is_cmd op a) (xs ++ [x]) /\ fst o = result x /\ snd o = answer x).
Proof.
  intros HF HL HP. pose proof (send_cmd_post no_memory _ t retries s (setup_runs _ f op a HF HL)) as (o & s1 & E1 & HS & _).
  pose proof (plain_ok no_memory 1 _ t retries s (setup_runs _ f op a HF HL) HP) as (o' & s2 & E2 & HK & xs & x & X1 & X2 & X3 & X4 & X5).
  unfold send_cmd in E1. rewrite E1 in E2. injection E2 as <- <-. exists o, s1. split; [done|]. split; [done|].
  split; [by destruct HS as (_&_&_&->&_)|]. exists xs, x. do 3 (split; [done|]). split; [|done].
  eapply Forall_impl; [exact X4|]. apply same_setup.
Qed.

Lemma send_once c f op a t s : has f SCF_DATA_MSK = false -> length (rsp c) = 4%nat -> plain (sdio_setup_cmd c f op a) ->
  post (send_cmd no_memory (sdio_setup_cmd c f op a) t 0) s (fun o s' => kept s s' /\ length (rsp (snd o)) = 4%nat /\
    exists x, sent s' = sent s ++ [x] /\ is_cmd op a x /\ fst o = result x /\ snd o = answer x).
Proof.
  intros HF HL HP. eapply post_mono; [by apply send_plain|]. intros o s' (HK & HR & xs & x & E & HX & _ & HI & HO).
  destruct xs; [cbn [app] in *|simpl in HX; lia]. do 2 (split; [done|]). exists x. rewrite Forall_singleton in HI. done.
Qed.

(** A command that waits for the card. *)
Definition bare (f : Z) : Prop := has f SCF_APP_CMD = false /\ has f SCF_SBC = false /\ has f SCF_SBC_RLW = false.
Lemma send_wait c f op a t s : has f SCF_DATA_MSK = false -> length (rsp c) = 4%nat -> bare f ->
  post (send_cmd no_memory (sdio_setup_cmd c f op a) t 0) s (fun o s' => kept s s' /\ exists x polls,
    sent s' = sent s ++ x :: polls /\ is_cmd op a x /\ Forall is_status polls /\
    (fst o = EOK -> completed x /\
       (has f SCF_WAIT_DRDY && negb (has (hc_caps (ctl s)) HC_CAP_BSY) = true -> shows_ready EOK polls))).
Proof.
  intros HF HL (B1 & B2 & B3). eapply post_mono; [by apply send_cmd_post, setup_runs|].
  intros [e c'] s' (HS & HD & rounds & tr & b & E & HN & _ & HE & HK). cbn [fst snd] in *.
  destruct rounds; [|simpl in HN; lia]. cbn [concat app] in E. unfold caps_during in *. simpl cflags in *. rewrite B3 in *.
  destruct HE as [((F & _) & _)|(x & polls & (pre & -> & (u & v & -> & U & V) & HX & _ & _ & HP) & -> & HE)].
  { simpl cflags in F. by rewrite B1, B2 in F. }
  unfold one in U, V. simpl cflags in U, V. rewrite B1 in U. rewrite B2 in V. simpl in U, V. subst u v.
  split; [by destruct b|]. exists x, polls. do 2 (split; [by eauto using same_setup|]). split; [done|]. intros ->.
  destruct HE as [(_ & HE & _)|[(_ & -> & HE & _ & _ & HW)|(_ & W & HX' & HR)]]; [done| |by split].
  split; [by destruct (result_cases x)|]. unfold waits in HW. simpl cflags in HW. by rewrite HW.
Qed.

Lemma result_eok x : result x = EOK -> completed x.
Proof. by destruct (result_cases x). Qed.

(** ** Erasing *)

(** The commands of an erase from [a] to [b]: each only after the one before
    it was completed. *)
Definition erasing (k op_start op_end op_erase flgs a b : Z) (e : errno) (tr : list issued) : Prop :=
  exists x, is_cmd op_start a x /\ (tr = [x] /\ e = result x /\ e <> EOK \/ completed x /\
  exists y, is_cmd op_end b y /\ (tr = [x; y] /\ e = result y /\ e <> EOK \/ completed y /\
  exists z polls, is_cmd op_erase flgs z /\ tr = x :: y :: z :: polls /\ Forall is_status polls /\
    (e = EOK -> completed z /\ (has k HC_CAP_BSY = false -> shows_ready EOK polls)))).

Lemma erase_cmds_ok op_start op_end op_erase flgs lba nlba tmo c s : length (rsp c) = 4%nat ->
  post (erase_cmds no_memory op_start op_end op_erase flgs lba nlba tmo c) s (fun e s' => dev s' = dev s /\
    exists tr, sent s' = sent s ++ tr /\ erasing (hc_caps (ctl s)) op_start op_end op_erase flgs
      (erase_addr lba (dev s)) (erase_addr (u64 (u64 (lba + nlba) - 1)) (dev s)) e tr).
Proof.
  intros HL. apply post_bind, post_gets, post_bind. eapply post_mono; [by apply send_once|].
  intros [e c1] s1 (HK1 & HL1 & x & E1 & X1 & X2 & X3). cbn [fst snd] in *.
  destruct (decide (e <> EOK)) as [He|He].
  { apply post_ret. split; [apply HK1|]. exists [x]. split; [done|]. exists x. split; [done|]. by left. }
  apply dec_stable in He. subst e. apply result_eok in He.
  apply post_bind. eapply post_mono; [by apply send_once|].
  intros [e c2] s2 (HK2 & HL2 & y & E2 & Y1 & Y2 & Y3). cbn [fst snd] in *.
  pose proof (kept_trans _ _ _ HK1 HK2) as HK.
  destruct (decide (e <> EOK)) as [Hf|Hf].
  { apply post_ret. split; [apply HK|]. exists [x; y]. rewrite E2, E1, <- app_assoc. split; [done|]. exists x. split; [done|].
    right. split; [done|]. exists y. split; [done|]. by left. }
  apply dec_stable in Hf. subst e. apply result_eok in Hf. apply post_bind.
  eapply post_mono; [by apply send_wait|]. intros [e c3] s3 (HK3 & z & polls & E3 & Z1 & Z2 & Z3). cbn [fst snd] in *.
  apply post_ret. split; [apply (kept_trans _ _ _ HK HK3)|]. exists (x :: y :: z :: polls).
  rewrite E3, E2, E1, <- !app_assoc. split; [done|]. exists x. split; [done|]. right. split; [done|].
  exists y. split; [done|]. right. split; [done|]. exists z, polls. do 3 (split; [done|]). intros Ee.
  destruct (Z3 Ee) as [Z4 Z5]. split; [done|]. intros Hb. apply Z5. by rewrite (proj2 HK), Hb.
Qed.

(** C31 (erasing) An erase ends with the three commands in their order, the
    end of the range only after its start was accepted and ERASE only after
    both, so that nothing is erased without the range that was asked for; the
    result is EOK only if all were completed and, without a controller that
    waits itself, the card showed that it is ready. *)
Theorem sd_erase_in_order r flgs lba nlba s : post (sd_erase no_memory r flgs lba nlba) s (fun e s' => dev s' = dev s /\
  exists tr, sent s' = sent s ++ tr /\
    ((tr = [] /\ (e = ENOMEM \/ nlba = 0 /\ e = EOK)) \/
     (nlba <> 0 /\ erasing (hc_caps (ctl s)) SD_ERASE_WR_BLK_START SD_ERASE_WR_BLK_END SD_ERASE flgs
        (erase_addr lba (dev s)) (erase_addr (u64 (u64 (lba + nlba) - 1)) (dev s)) e tr))).
Proof.
  apply with_cmd_ok; [split; [done|]; exists []; rewrite app_nil_r; split; [done|]; left; split; [done|by left]|].
  destruct (nlba =? 0) eqn:E0; zbool.
  - apply post_ret. split; [done|]. exists []. rewrite app_nil_r. split; [done|]. left. split; [done|]. by right.
  - eapply post_mono; [by apply erase_cmds_ok|]. intros e s' (HD & tr & E & HE). split; [done|]. exists tr.
    split; [done|]. by right.
Qed.

(** ** Commands whose answer is used *)
Lemma send_keeps c t retries s : runs c -> has (cflags c) SCF_SBC_RLW = false ->
  post (send_cmd no_memory c t retries) s (fun o s' => same_cmd c (snd o) /\ kept s s' /\
    (fst o = EOK -> exists x, completed x /\ same_cmd c (cmd_of x) /\ answers (C:=C) (cmd_of x) (answer x) /\ snd o = answer x)).
Proof.
  intros HR HF. eapply post_mono; [by apply send_cmd_post|].
  intros [e c'] s' (HS & HD & rounds & tr & b & E & HN & _ & HE & HK). cbn [fst snd] in *. unfold caps_during in *. rewrite HF in *.
  split; [done|]. split; [by destruct b|]. intros ->.
  destruct HE as [(_ & F & _)|(x & polls & (pre & _ & _ & H1 & _ & H2 & _) & -> & HE)]; [done|].
  exists x. split; [|done]. destruct HE as [(_ & HE & _)|[(_ & -> & HE & _)|(_ & _ & HX & _)]]; [done| |done]. by apply result_eok.
Qed.

(** ** The operating conditions

    Both loops end, with EOK only for a card that is powered up. *)
Lemma op_cond_loop_ok retries ocr c : runs c -> has (cflags c) SCF_SBC_RLW = false -> forall n c1 s, same_cmd c c1 ->
  post (op_cond_loop no_memory n retries ocr c1) s (fun o s' => same_cmd c (snd o) /\ kept s s' /\
    (fst o = EOK -> (ocr = 0 \/ has (rsp0 (snd o)) OCR_PWRUP_CMP = true) /\
       exists c', same_cmd c c' /\ answers (C:=C) c' (snd o))).
Proof.
  intros HR HF n. induction n as [|n IH]; intros c1 s HS; cbn [op_cond_loop].
  { by apply post_ret. }
  apply post_bind. eapply post_mono; [apply send_keeps; [by apply (runs_same c)|by rewrite (proj1 HS)]|].
  intros [e c2] s1 (HS2 & HK & HO). cbn [fst snd] in *. pose proof (same_cmd_trans _ _ _ HS HS2) as HS3.
  destruct (decide (e <> EOK)) as [He|He]; [by apply post_ret|]. apply dec_stable in He.
  destruct (HO He) as (x & _ & X1 & X2 & ->).
  destruct ((ocr =? 0) || has (rsp0 (answer x)) OCR_PWRUP_CMP) eqn:EP.
  - apply post_ret. do 2 (split; [done|]). intros _. split; [apply orb_true_iff in EP as [EP|EP]; zbool; eauto|].
    exists (cmd_of x). split; [by apply (same_cmd_trans _ c1)|done].
  - eapply post_mono; [by apply IH|]. intros o s2 (H1 & H2 & H3). split; [done|]. split; [by apply (kept_trans _ s1)|done].
Qed.

Lemma op_cond_ok n retries f op ocr s : has f SCF_DATA_MSK = false -> has f SCF_SBC_RLW = false ->
  post (op_cond no_memory n retries f op ocr) s (fun o s' => kept s s' /\
    (fst o = EOK -> (ocr = 0 \/ has (snd o) OCR_PWRUP_CMP = true) /\
       exists c c', answers (C:=C) c c' /\ opcode c = op /\ arg c = u32 ocr /\ snd o = rsp0 c')).
Proof.
  intros H1 H2. apply post_bind. unfold sdio_alloc_cmd, post at 1. do 2 eexists. split; [done|].
  destruct (no_memory _); [by apply post_ret|]. apply post_bind.
  eapply post_mono; [apply (op_cond_loop_ok _ _ (sdio_setup_cmd zero_cmd f op ocr)); [by apply setup_runs|done|apply same_refl]|].
  intros o s' (_ & HK & HO). apply post_ret. split; [done|]. intros HE. destruct (HO HE) as [HP (c' & HS & HA)].
  split; [done|]. exists c', (snd o). split; [done|]. by destruct HS as (_ & ? & ? & _).
Qed.

(** ** Simple commands *)
Lemma simple_ok f op a t retries s : has f SCF_DATA_MSK = false -> plain (sdio_setup_cmd zero_cmd f op a) ->
  post (simple_cmd no_memory f op a t retries) s (fun e s' => kept s s' /\ exists tr, sent s' = sent s ++ tr /\
    (length tr <= S retries)%nat /\ Forall (is_cmd op a) tr /\ (e = EOK -> exists xs x, tr = xs ++ [x] /\ completed x)).
Proof.
  intros HF HP. apply with_cmd_ok.
  { split; [done|]. exists []. rewrite app_nil_r. split; [done|]. split; [simpl; lia|]. split; [constructor|done]. }
  apply post_bind. eapply post_mono; [by apply send_plain|].
  intros o s' (HK & _ & xs & x & E & HL & _ & HI & HO & _). apply post_ret. split; [done|]. exists (xs ++ [x]).
  split; [done|]. split; [rewrite length_app; simpl; lia|]. split; [done|]. intros HE. exists xs, x. split; [done|].
  apply result_eok. congruence.
Qed.

(** ** Power and clock *)
Lemma entry_ok {A} (m : M C A) s (Q : A -> C -> Prop) : post m (ctl s) Q ->
  post (hc_call m) s (fun a s' => Q a (ctl s') /\ s' = Cst (ctl s') (dev s) (sent s)).
Proof. intros (a & k & E & HQ). unfold hc_call, post. rewrite E. by do 2 eexists. Qed.

Lemma ffs_from_spec val n : forall i, 0 <= i ->
  (ffs_from n val i = 0 /\ forall j, i <= j < i + Z.of_nat n -> Z.testbit val j = false) \/
  (exists b, ffs_from n val i = b + 1 /\ i <= b < i + Z.of_nat n /\ Z.testbit val b = true /\ forall j, i <= j < b -> Z.testbit val j = false).
Proof.
  induction n as [|n IH]; intros i Hi; cbn [ffs_from]; [left; split; [done|lia]|].
  destruct (Z.testbit val i) eqn:E.
  { right. exists i. split; [done|]. split; [lia|]. split; [done|lia]. }
  destruct (IH (i + 1) ltac:(lia)) as [[H1 H2]|(b & H1 & H2 & H3 & H4)].
  - left. split; [done|]. intros j Hj. destruct (decide (j = i)) as [->|]; [done|apply H2; lia].
  - right. exists b. split; [done|]. split; [lia|]. split; [done|]. intros j Hj.
    destruct (decide (j = i)) as [->|]; [done|apply H4; lia].
Qed.

(** The lowest voltage that the card and the controller share. *)
Definition lowest_common (a b v : Z) : Prop := exists i, v = 2 ^ i /\ 0 <= i < 32 /\
  Z.testbit a i = true /\ Z.testbit b i = true /\ forall j, 0 <= j < i -> Z.testbit a j && Z.testbit b j = false.

(** The voltage. The voltage that the controller is set to, and that is
    kept for the card, is the lowest that both support; EINVAL, and nothing
    set, exactly if there is none. *)
Theorem select_voltage_lowest ocr s : post (sdio_select_voltage ocr) s (fun e s' =>
  hc_caps (ctl s') = hc_caps (ctl s) /\ sent s' = sent s /\ exists v, dev s' = set_ocr v (dev s) /\
    ((v = 0 /\ e = EINVAL /\ ctl s' = ctl s /\ forall j, 0 <= j < 32 -> Z.testbit ocr j && Z.testbit (hc_ocr (ctl s)) j = false) \/
     (lowest_common ocr (hc_ocr (ctl s)) v /\ entry_pwr v (ctl s) = Some (e, ctl s')))).
Proof.
  apply post_bind, post_gets. cbv zeta.
  destruct (ffs_from_spec (Z.land ocr (hc_ocr (ctl s))) 32 0 ltac:(done)) as [[E H1]|(b & E & H1 & H2 & H3)]; fold (ffs (Z.land ocr (hc_ocr (ctl s)))) in E;
    rewrite E.
  - apply post_bind, post_modify, post_ret. do 2 (split; [done|]). exists 0. split; [done|]. left.
    do 3 (split; [done|]). intros j Hj. rewrite <- Z.land_spec. apply H1. lia.
  - rewrite (proj2 (Z.eqb_neq _ _)) by lia. apply post_bind. replace (b + 1 - 1) with b by lia.
    rewrite Z.shiftl_1_l.
    eapply post_mono; [apply (entry_ok _ _ (fun a k => hc_caps k = hc_caps (ctl s) /\ entry_pwr (2 ^ b) (ctl s) = Some (a, k)))|].
    { destruct (pwr_ok (2 ^ b) (ctl s)) as (a & k & F & G). by exists a, k. }
    intros e s1 ((F1 & F2) & ->). apply post_bind, post_modify, post_ret. simpl in *. do 2 (split; [done|]). exists (2 ^ b).
    split; [done|]. right. split; [|done]. rewrite Z.land_spec in H2. apply andb_true_iff in H2 as [H2 H4].
    exists b. split; [done|]. split; [lia|]. do 2 (split; [done|]). intros j Hj. rewrite <- Z.land_spec. apply H3. lia.
Qed.

(** The clock that is asked of the controller is in its range. *)
Lemma clock_in_range rate s : 0 <= hc_clk_min (ctl s) <= hc_clk_max (ctl s) -> post (sdio_clock rate) s (fun e s' =>
  dev s' = dev s /\ sent s' = sent s /\
  ((rate < hc_clk_min (ctl s) /\ e = EINVAL /\ s' = s) \/
   hc_clk_min (ctl s) <= rate /\ exists v, v = Z.min rate (hc_clk_max (ctl s)) /\ hc_clk_min (ctl s) <= v <= hc_clk_max (ctl s) /\
      entry_clk v (ctl s) = Some (e, ctl s'))).
Proof.
  intros HR. apply post_bind, post_gets. destruct (rate <? hc_clk_min (ctl s)) eqn:E; zbool.
  { apply post_ret. do 2 (split; [done|]). left. done. }
  set (v := if hc_clk_max (ctl s) <? rate then hc_clk_max (ctl s) else rate).
  assert (Hv : v = Z.min rate (hc_clk_max (ctl s))) by (unfold v; destruct (hc_clk_max (ctl s) <? rate) eqn:F; zbool; lia).
  eapply post_mono; [apply (entry_ok _ _ (fun a k => entry_clk v (ctl s) = Some (a, k)))|].
  { destruct (clk_ok v (ctl s)) as (a & k & F & G); [lia|]. by exists a, k. }
  intros e s1 (F & ->). simpl in *. do 2 (split; [done|]). right. split; [lia|]. exists v. split; [done|]. split; [lia|done].
Qed.

(** ** Identification *)
Lemma simple_kept f op a t retries s : has f SCF_DATA_MSK = false -> plain (sdio_setup_cmd zero_cmd f op a) ->
  post (simple_cmd no_memory f op a t retries) s (fun _ s' => kept s s').
Proof. intros H1 H2. eapply post_mono; [by apply simple_ok|]. by intros e s' [? _]. Qed.

Lemma if_cond_kept vhs s : post (sd_send_if_cond no_memory vhs) s (fun _ s' => kept s s').
Proof.
  apply with_cmd_ok; [done|]. apply post_bind. eapply post_mono; [by apply send_once|].
  intros o s' (HK & _). by apply post_ret.
Qed.

Lemma dev_flags_kept f s : post (upd_dev_flags f) s (fun _ s' => kept s s' /\ sent s' = sent s).
Proof. apply post_modify. simpl. split; [|done]. split; [done|]. simpl. by rewrite caps_dev_flags. Qed.

(** A card accepts the switch to 1.8 V only when it is asked for it. *)
Definition accepts_when_asked : Prop := forall c c', answers (C:=C) c c' ->
  opcode c = SD_AC_SEND_OP_COND -> has (arg c) OCR_S18R = false -> has (rsp0 c') OCR_S18A = false.

Lemma arg_bit a : has (u32 a) OCR_S18R = has a OCR_S18R.
Proof. apply (has_mod a 32 24). lia. Qed.
Lemma not_both v : has v OCR_S18A = false -> (Z.land v (Z.lor OCR_HCS OCR_S18A) =? Z.lor OCR_HCS OCR_S18A) = false.
Proof.
  intros HF. apply Z.eqb_neq. intros E. change OCR_S18A with (2 ^ 24) in HF. rewrite has_bit in HF by done.
  assert (F : Z.testbit (Z.land v (Z.lor OCR_HCS OCR_S18A)) 24 = true) by by rewrite E.
  by rewrite Z.land_spec, HF in F.
Qed.

Lemma op_cond_asked ocr s : accepts_when_asked -> post (sd_app_send_op_cond no_memory ocr) s (fun o s' => kept s s' /\
  (fst o = EOK -> has ocr OCR_S18R = false -> (Z.land (snd o) (Z.lor OCR_HCS OCR_S18A) =? Z.lor OCR_HCS OCR_S18A) = false)).
Proof.
  intros HA. eapply post_mono; [by apply op_cond_ok|]. intros o s' (HK & HO). split; [done|]. intros HE HN.
  destruct (HO HE) as (_ & c & c' & H1 & H2 & H3 & ->). apply not_both, (HA c c' H1 H2). by rewrite H3, arg_bit.
Qed.

Lemma negotiate_last n ocr s : accepts_when_asked -> has ocr OCR_S18R = false ->
  post (negotiate no_memory (S n) ocr) s (fun _ s' => kept s s').
Proof.
  intros HA HN. cbn [negotiate]. apply post_bind. eapply post_mono; [by apply op_cond_asked|].
  intros [e rocr] s1 (HK & HO). cbn [fst snd] in HO. destruct (decide (e <> EOK)) as [He|He]; [by apply post_ret|].
  apply dec_stable in He. rewrite (HO He HN). by apply post_ret.
Qed.

Lemma negotiate_ok n ocr s : accepts_when_asked -> post (negotiate no_memory (S (S n)) ocr) s (fun _ s' => kept s s').
Proof.
  intros HA. cbn [negotiate]. fold (negotiate no_memory (S n)). apply post_bind. eapply post_mono; [by apply op_cond_asked|].
  intros [e rocr] s1 (HK & _). destruct (decide (e <> EOK)) as [He|He]; [by apply post_ret|].
  destruct (_ =? _); [|by apply post_ret]. apply post_bind. eapply post_mono; [by apply simple_kept|].
  intros e1 s2 HK2. pose proof (kept_trans _ _ _ HK HK2) as HK3. destruct (decide (e1 <> EOK)).
  - eapply post_mono; [apply negotiate_last; [done|]|].
    { change OCR_S18R with (2 ^ 24). rewrite has_ldiff by done. apply andb_false_r. }
    intros e2 s3 HK4. by apply (kept_trans _ s2).
  - apply post_bind. eapply post_mono; [apply entry_ok, voltage_ok|]. intros e2 s3 (HC & ->).
    assert (HK4 : kept s (Cst (ctl s3) (dev s2) (sent s2))).
    { apply (kept_trans _ _ _ HK3). by split. }
    destruct (decide (e2 <> EOK)); [|by apply post_ret].
    apply post_bind. eapply post_mono; [apply dev_flags_kept|]. intros [] s4 [HK5 _]. apply post_ret. by apply (kept_trans _ _ _ HK4).
Qed.

(** The address of the card: every failure is EIO. *)
Definition addressed (e : errno) s s' : Prop := hc_caps (ctl s') = hc_caps (ctl s) /\ (exists r, dev s' = set_rca r (dev s)) /\
  (e = EOK -> rca (dev s') <> 0) /\ (e <> EOK -> rca (dev s') = 0).

Lemma rca_loop_ok n : forall c s, length (rsp c) = 4%nat -> rca (dev s) = 0 ->
  post (rca_loop no_memory n c) s (fun e s' => hc_caps (ctl s') = hc_caps (ctl s) /\ (exists r, dev s' = set_rca r (dev s)) /\
    (e <> EOK -> rca (dev s') = 0)).
Proof.
  induction n as [|n IH]; intros c s HL HZ; cbn [rca_loop]; apply post_bind; (eapply post_mono; [by apply send_plain|]);
    intros [e c1] s1 ((D & K) & HL1 & _); cbn [fst snd] in *; (destruct (decide (e <> EOK)) as [He|He];
      [apply post_ret; split; [done|]; split; [exists 0; rewrite D; destruct (dev s); simpl in *; by subst|by rewrite D]|]).
  all: apply post_bind, post_modify; destruct (Z.shiftr (rsp0 c1) 16 =? 0) eqn:EZ; zbool; cbn [negb].
  1,2,4: apply post_ret; simpl; split; [done|]; split; [by eexists; rewrite D|done].
  eapply post_mono; [apply IH; [done|by rewrite EZ]|]. simpl. intros e2 s2 (K2 & (r & D2) & H2). split; [congruence|].
  split; [exists r; by rewrite D2, D|done].
Qed.

Lemma relative_addr_ok s : post (sdio_send_relative_addr no_memory) s (fun e s' => e = ENOMEM /\ s' = s \/
  (addressed e s s' /\ (e = EOK \/ e = EIO))).
Proof.
  apply with_cmd_ok; [by left|]. apply post_bind, post_modify, post_bind. eapply post_mono; [by apply rca_loop_ok|].
  intros e s' (K & (r & D) & H1). apply post_bind, post_gets, post_ret. right. simpl in *.
  assert (HX : (exists r, dev s' = set_rca r (dev s))) by (exists r; by rewrite D).
  destruct (rca (dev s') =? 0) eqn:EZ; zbool.
  - split; [|by right]. by repeat split.
  - destruct (decide (e = EOK)) as [->|He]; [|by specialize (H1 He)]. split; [|by left]. by repeat split.
Qed.

Lemma long_kept f op a s : has f SCF_DATA_MSK = false -> has f SCF_SBC_RLW = false ->
  post (long_cmd no_memory f op a) s (fun _ s' => kept s s').
Proof.
  intros H1 H2. apply post_bind. unfold sdio_alloc_cmd, post at 1. do 2 eexists. split; [done|].
  destruct (no_memory _); [by apply post_ret|]. apply post_bind.
  eapply post_mono; [apply send_keeps; [by apply setup_runs|done]|]. intros o s' (_ & HK & _). by apply post_ret.
Qed.

Lemma select_card_ok r s : post (sdio_select_card no_memory r) s (fun e s' => kept s s' /\
  (e = EOK -> exists tr x, sent s' = tr ++ [x] /\ completed x /\ is_cmd MMC_SEL_DES_CARD (Z.shiftl r 16) x)).
Proof.
  apply with_cmd_ok; [done|]. apply post_bind.
  eapply post_mono; [apply send_plain; [by destruct (r =? 0)|done|by destruct (r =? 0)]|].
  intros o s1 (HK & _ & xs & x & E & _ & _ & HI & HO & _). apply post_bind.
  apply (post_mono _ _ (fun _ s2 => kept s s2 /\ sent s2 = sent s1)).
  { destruct (has _ CDS_CARD_IS_LOCKED); [|by apply post_ret].
    eapply post_mono; [apply (dev_flags_kept (fun f => Z.lor f DEV_FLAG_LOCKED))|]. intros _ s2 [HK2 E2]. split; [by apply (kept_trans _ s1)|done]. }
  intros _ s2 [HK2 E2]. apply post_ret. split; [done|]. intros HE. exists (sent s ++ xs), x. rewrite E2, E, <- app_assoc.
  split; [done|]. split; [apply result_eok; congruence|]. by apply Forall_app in HI as [_ ?%Forall_inv].
Qed.

Lemma new_csd_ok s : post (sd_new_csd no_memory) s (fun _ s' => hc_caps (ctl s') = hc_caps (ctl s) /\ rca (dev s') = rca (dev s)).
Proof.
  apply post_bind, post_bind, post_gets. eapply post_mono; [by apply long_kept|]. intros [e l] s1 [D K]. cbn [fst snd].
  destruct (decide (e <> EOK)); [apply post_ret; by rewrite D|]. apply post_bind, post_modify, post_bind, post_gets.
  cbn [dev upd_dev dcaps set_raw_csd].
  destruct (sd_parse_csd l (dcaps (dev s1))) as [[c k]|]; [|apply post_ret; simpl; by rewrite D].
  apply post_bind, post_modify, post_ret. simpl. by rewrite D.
Qed.

(** The card that is selected has an address. *)
Definition identified s (e : errno) s' : Prop := hc_caps (ctl s') = hc_caps (ctl s) /\ (e = EOK -> rca (dev s') <> 0 /\
  exists tr x, sent s' = tr ++ [x] /\ completed x /\ is_cmd MMC_SEL_DES_CARD (Z.shiftl (rca (dev s')) 16) x).
Lemma identified_err s e s' : kept s s' -> e <> EOK -> identified s e s'.
Proof. by intros [_ K] He. Qed.
Lemma identified_kept s s1 e s' : hc_caps (ctl s1) = hc_caps (ctl s) -> identified s1 e s' -> identified s e s'.
Proof. intros E [K H1]. split; [by rewrite K|done]. Qed.

Lemma sd_select_ok again s : post (sd_select no_memory again) s (identified s).
Proof.
  apply post_bind. eapply post_mono; [apply relative_addr_ok|]. intros e s1 [[-> ->]|((K & _ & HR & _) & _)].
  { by apply post_ret. }
  destruct (decide (e <> EOK)) as [He|He]; [by apply post_ret|]. apply dec_stable in He. specialize (HR He).
  apply post_bind. eapply post_mono; [apply entry_ok, bus_mode_ok|]. intros _ s2 (K2 & ->). apply post_bind.
  apply (post_mono _ _ (fun _ s3 => hc_caps (ctl s3) = hc_caps (ctl s) /\ rca (dev s3) = rca (dev s1))).
  { destruct again; [apply post_ret; simpl; split; [congruence|done]|].
    eapply post_mono; [apply new_csd_ok|]. simpl. intros _ s3 [K3 R3]. split; [congruence|done]. }
  intros e3 s3 [K3 R3]. destruct (decide (e3 <> EOK)); [by apply post_ret|].
  apply post_bind, post_gets. eapply post_mono; [apply select_card_ok|]. intros e4 s4 [[D4 K4] HO].
  split; [congruence|]. intros He4. rewrite D4, R3 in *. split; [done|]. by apply HO.
Qed.

(** C32 (identification) For a card that accepts the switch to 1.8 V only when
    it is asked, the loop over the operating conditions ends in two rounds
    and with it the identification; EOK means that the card has an address
    and that its selection with this address is the last command, completed.
    The capabilities of the controller are as before. *)
Theorem identify_ends n ocr again s : accepts_when_asked ->
  post (sd_identify no_memory (S (S n)) ocr again) s (identified s).
Proof.
  intros HA. apply post_bind, post_modify, post_bind. eapply post_mono; [apply if_cond_kept|]. intros _ s1 [_ K1].
  apply post_bind. eapply post_mono; [by apply simple_kept|]. intros _ s2 [_ K2].
  apply post_bind. eapply post_mono; [apply if_cond_kept|]. intros st s3 [_ K3].
  assert (K : hc_caps (ctl s3) = hc_caps (ctl s)) by (simpl in *; congruence). clear K1 K2 K3.
  destruct (_ && _); [by apply post_ret|]. cbv zeta. apply post_bind, post_gets, post_bind, post_gets, post_bind.
  eapply post_mono; [by apply negotiate_ok|]. intros e s4 [_ K4]. rewrite K in K4.
  destruct (decide (e <> EOK)); [by apply post_ret|]. apply post_bind. eapply post_mono; [by apply long_kept|].
  intros [e5 cid] s5 [_ K5]. rewrite K4 in K5. destruct (decide (e5 <> EOK)); [by apply post_ret|].
  destruct (_ && _); [by apply post_ret|]. apply post_bind, post_modify.
  eapply post_mono; [apply sd_select_ok|]. intros e6 s6. by apply identified_kept.
Qed.

(** C25 (sending a command) Every call ends after at most [retries + 1] rounds.
    A round is CMD55 if the command is an application command, the block
    count if it asks for one and the controller does not send it, the command
    itself with its status reset, and the polls of the card; a part follows
    only when the one before was completed, and only a command that was
    issued and failed without CDS_ILLEGAL_COMMAND is repeated.  EOK means
    that it was completed and that a card that is waited for was ready.  The
    capabilities that a reliable write takes away are back at the end, except
    when the card was removed. *)
Theorem send_cmd_rounds c t retries s : runs c ->
  post (send_cmd no_memory c t retries) s (fun o s' => call_end c retries s (fst o) (snd o) s').
Proof. apply send_cmd_post. Qed.
End card.

(** ** A controller with a card

    What the card answers is a function of the command; the status of a
    command too. *)
Record slot := Slot { tcaps : Z; tflags : Z; tdev : Z }.
Definition reply (c : sdio_cmd_t) : Z :=
  if opcode c =? SD_AC_SEND_OP_COND then Z.lor OCR_PWRUP_CMP OCR_HCS
  else if opcode c =? MMC_SEND_STATUS then READY
  else if opcode c =? SD_SEND_RELATIVE_ADDR then 0x12340000
  else if opcode c =? SD_SEND_IF_COND then SD_SIC_TEST_PATTERN else 0.
Definition slot_cmd (status : sdio_cmd_t -> Z) (c : sdio_cmd_t) (t : Z) : M slot (errno * sdio_cmd_t) :=
  mret (EOK, set_rsp (<[0%nat := reply c]> (rsp c)) (set_cstatus (status c) c)).
Definition slot_entry (status : sdio_cmd_t -> Z) (voltages : Z) : sdio_hc_entry slot := {|
  entry_cmd := slot_cmd status; entry_pwr _ := mret EOK; entry_clk _ := mret EOK; entry_bus_mode _ := mret EOK;
  entry_signal_voltage _ := mret EOK;
  hc_ocr _ := voltages; hc_clk_min _ := 400000; hc_clk_max _ := 200000000;
  hc_caps := tcaps; set_hc_caps v k := Slot v (tflags k) (tdev k);
  hc_flags := tflags; set_hc_flags v k := Slot (tcaps k) v (tdev k);
  dev_flags := tdev; set_dev_flags v k := Slot (tcaps k) (tflags k) v
|}.
Lemma slot_laws status voltages : (forall c, status c <> CS_CMD_INPROG) -> @hc_entry_laws slot (slot_entry status voltages).
Proof.
  intros HS. split; try done; simpl.
  - intros c t k e c' k' [= _ _ <-]. done.
  - intros c t k e c' k' [= _ <- _]. repeat split. simpl. apply length_insert.
  - intros c t k c' k' [= <- _]. apply HS.
  - intros v k. by apply post_ret.
  - intros v k _. by apply post_ret.
  - intros v k. by apply post_ret.
  - intros v k. by apply post_ret.
Qed.

Definition example_sds : sds := Sds 0 0 0 0 0 0 0.
Definition good : sdio_cmd_t -> Z := fun _ => CS_CMD_CMP.
Definition example_dev : sdev := Dev DEV_CAP_HC 0x1234 512 0 512 0 0 [0; 0; 0; 0] 0 [].
Definition example_slot : cst slot := Cst (Slot HC_CAP_ACMD23 0 0) example_dev [].
Definition memory : list issued -> bool := fun _ => false.
Definition opcodes (s : cst slot) : list Z := map (fun x => opcode (cmd_of x)) (sent s).

Definition good_laws : @hc_entry_laws slot (slot_entry good 0x300000) := slot_laws good 0x300000 (fun _ => ltac:(done)).
#[local] Existing Instance good_laws.

Lemma sd_erase_in_order_witness : let r := @sd_erase slot (slot_entry good 0x300000) memory example_sds 0 1000 24 example_slot in
  option_map (fun x => (fst x, map (fun y => (opcode (cmd_of y), arg (cmd_of y))) (sent (snd x)))) r =
    Some (EOK, [(32, 1000); (33, 1023); (38, 0); (13, 0x12340000)]) /\
  post (@sd_erase slot (slot_entry good 0x300000) memory example_sds 0 1000 24) example_slot (fun e s' => dev s' = dev example_slot /\
    exists tr, sent s' = [] ++ tr /\
    ((tr = [] /\ (e = ENOMEM \/ 24 = 0 /\ e = EOK)) \/
     (24 <> 0 /\ erasing HC_CAP_ACMD23 SD_ERASE_WR_BLK_START SD_ERASE_WR_BLK_END SD_ERASE 0
        (erase_addr 1000 example_dev) (erase_addr (u64 (u64 (1000 + 24) - 1)) example_dev) e tr))).
Proof. split; [vm_compute; reflexivity|]. exact (sd_erase_in_order (H0:=good_laws) memory example_sds 0 1000 24 example_slot). Defined.

Lemma select_voltage_lowest_witness : lowest_common 0xff8000 0x300000 0x100000 /\
  post (@sdio_select_voltage slot (slot_entry good 0x300000) 0xff8000) example_slot (fun e s' =>
    tcaps (ctl s') = HC_CAP_ACMD23 /\ sent s' = [] /\ exists v, dev s' = set_ocr v example_dev /\
    ((v = 0 /\ e = EINVAL /\ ctl s' = ctl example_slot /\ forall j, 0 <= j < 32 -> Z.testbit 0xff8000 j && Z.testbit 0x300000 j = false) \/
     (lowest_common 0xff8000 0x300000 v /\ Some (EOK, ctl example_slot) = Some (e, ctl s')))).
Proof.
  split.
  - exists 20. split; [done|]. split; [done|]. split; [done|]. split; [done|]. intros j Hj.
    assert (E : forall k, (k < 20)%nat -> Z.testbit 0x300000 (Z.of_nat k) = false).
    { intros k Hk. do 20 (destruct k as [|k]; [reflexivity|]). lia. }
    rewrite <- (Z2Nat.id j) by lia. rewrite E by lia. apply andb_false_r.
  - exact (select_voltage_lowest (H0:=good_laws) 0xff8000 example_slot).
Defined.

Lemma good_asked : @accepts_when_asked slot (slot_entry good 0x300000).
Proof. intros c c' (t & k & e & k' & E) HO _. injection E as <- <- <-. unfold rsp0, reply. simpl. rewrite HO. simpl. by destruct (rsp c). Qed.
Lemma identify_ends_witness :
  option_map (fun x => (fst x, opcodes (snd x), rca (dev (snd x))))
    (@sd_identify slot (slot_entry good 0x300000) memory 2 0x300000 true example_slot) =
    Some (EOK, [8; 0; 8; 55; 41; 2; 3; 7], 0x1234) /\
  post (@sd_identify slot (slot_entry good 0x300000) memory 2 0x300000 true) example_slot
    (@identified slot (slot_entry good 0x300000) example_slot).
Proof.
  split; [vm_compute; reflexivity|]. exact (identify_ends (H0:=good_laws) memory 0 0x300000 true example_slot good_asked).
Defined.

Definition removed_write : sdio_cmd_t :=
  Cmd (Z.lor SCF_SBC SCF_SBC_RLW) CS_CMD_INPROG 25 0 [0; 0; 0; 0] 8 512 [].
Definition gone : sdio_cmd_t -> Z := fun c => if opcode c =? 25 then CS_CARD_REMOVED else CS_CMD_CMP.

(** A reliable write of a card that is gone: the capabilities stay off. *)
Definition gone_laws : @hc_entry_laws slot (slot_entry gone 0x300000) := slot_laws gone 0x300000
  (fun c => ltac:(unfold gone; destruct (opcode c =? 25); discriminate)).
Lemma send_cmd_rounds_witness :
  option_map (fun x => (fst (fst x), opcodes (snd x), tcaps (ctl (snd x))))
    (@send_cmd slot (slot_entry gone 0x300000) memory removed_write 500 3 example_slot) = Some (ENXIO, [23; 25], 0) /\
  post (@send_cmd slot (slot_entry gone 0x300000) memory removed_write 500 3) example_slot (fun o s' =>
    @call_end slot (slot_entry gone 0x300000) removed_write 3 example_slot (fst o) (snd o) s').
Proof.
  split; [vm_compute; reflexivity|]. apply (send_cmd_rounds (H0:=gone_laws)). intros c' t k _. by eexists.
Defined.
