(* ===== verification/SdhciEntry.v ===== *)
(** * The sdhci driver as the controller of the command layer

    The entries of SdioCmd.v are those of Sdhci.v, and they have the laws:
    the capabilities and what was asked of a command stay as they are, a
    command that was issued has a status, and a command without data always
    comes back when the controller signals no interrupts but those that were
    enabled. *)
From S2P Require Import Prelude Driver SdioReg SdioConst Sdhci SdhciCtl SdioCmd SdioSend SdioCard.
Open Scope Z_scope.

(** ** What the entries leave alone *)
Definition other_flags (s : st) : Z := Z.ldiff (dflags s) DEV_FLAG_MEDIA_CHANGE.
Definition held (s s' : st) : Prop := caps (hc s') = caps (hc s) /\ other_flags s' = other_flags s.
Definition same (s s' : st) : Prop := held s s' /\ same_cmd (cmd s) (cmd s').
Definition stays {A} (m : M st A) : Prop := forall s a s', m s = Some (a, s') -> same s s'.

Lemma same_id s : same s s.
Proof. by repeat split. Qed.
Lemma same_then s s' s'' : same s s' -> same s' s'' -> same s s''.
Proof. intros ([E F] & ?&?&?&?&?&?&?) ([E' F'] & ?&?&?&?&?&?&?). repeat split; congruence. Qed.

Lemma stays_ret {A} (a : A) : stays (mret a).
Proof. intros s b s' [= <- <-]. apply same_id. Qed.
Lemma stays_crash {A} : stays (crash (A:=A)).
Proof. done. Qed.
Lemma stays_gets {A} (f : st -> A) : stays (gets f).
Proof. intros s b s' [= <- <-]. apply same_id. Qed.
Lemma stays_modify f : (forall s, same s (f s)) -> stays (modify f).
Proof. intros H s b s' [= <- <-]. apply H. Qed.
Lemma stays_bind {A B} (m : M st A) (k : A -> M st B) : stays m -> (forall a, stays (k a)) -> stays (x ← m; k x).
Proof.
  intros Hm Hk s b s' E. unfold mbind, M_bind in E. destruct (m s) as [[a s1]|] eqn:Em; [|done].
  eapply same_then; [by eapply Hm|by eapply Hk].
Qed.

Create HintDb stay.
#[export] Hint Constants Opaque : stay.
#[export] Hint Resolve stays_ret stays_crash stays_gets stays_bind : stay.
Ltac stay := repeat (first
  [ apply stays_ret | apply stays_crash | apply stays_gets | solve [auto 2 with stay]
  | apply stays_modify; intros ?; by repeat split
  | apply stays_bind; [|intros ?]
  | match goal with
    | |- stays (if ?b then _ else _) => destruct b
    | |- stays (match ?x with _ => _ end) => destruct x
    | |- stays (let '(_, _) := ?x in _) => destruct x
    end ]; cbv zeta).

Section stays.
Context (device : list event -> Z -> Z -> Z) (vtop_sg : list sge -> list sge) (errno_no : errno -> Z).

Lemma stays_in w off : stays (sdhci_in device w off).
Proof. intros s a s' [= <- <-]. by repeat split. Qed.
Lemma stays_out w off v : stays (sdhci_out w off v).
Proof. unfold sdhci_out. stay. Qed.
Hint Resolve stays_in stays_out : stay.
Lemma stays_poll n reg mask val : stays (poll device n reg mask val).
Proof. induction n; simpl; stay. Qed.
Hint Resolve stays_poll : stay.
Lemma stays_waitmask reg mask val usec : stays (sdhci_waitmask device reg mask val usec).
Proof. unfold sdhci_waitmask. stay. Qed.
Hint Resolve stays_waitmask : stay.
Lemma stays_reset r : stays (sdhci_reset device r).
Proof. unfold sdhci_reset. stay. Qed.
Hint Resolve stays_reset : stay.
Lemma stays_store a v : stays (store32 a v).
Proof. intros s b s'. unfold store32. destruct (decide _); [|done]. intros [= <- <-]. by repeat split. Qed.
Lemma stays_load a : stays (load32 a).
Proof. intros s b s'. unfold load32. destruct (decide _); [|done]. intros [= <- <-]. by repeat split. Qed.
Hint Resolve stays_store stays_load : stay.
Lemma stays_in32s n a : stays (sdhci_in32s device n a).
Proof. revert a. induction n; intros; simpl; stay. Qed.
Lemma stays_out32s n a : stays (sdhci_out32s n a).
Proof. revert a. induction n; intros; simpl; stay. Qed.
Hint Resolve stays_in32s stays_out32s : stay.
Lemma stays_sg_start l n : stays (sdio_sg_start l n).
Proof. unfold sdio_sg_start. stay. Qed.
Lemma stays_sg_nxt b : stays (sdio_sg_nxt b).
Proof. unfold sdio_sg_nxt. stay. Qed.
Hint Resolve stays_sg_start stays_sg_nxt : stay.
Lemma stays_pio_block n d b : stays (pio_block device n d b).
Proof. revert b. induction n; intros; simpl; stay. Qed.
Hint Resolve stays_pio_block : stay.
Lemma stays_pio_loop n d b : stays (pio_loop device n d b).
Proof. induction n; cbn [pio_loop]; stay. Qed.
Hint Resolve stays_pio_loop : stay.
Lemma stays_put_rsp i v : stays (put_rsp i v).
Proof. apply stays_modify. intros s. repeat split. simpl. apply length_insert. Qed.
Hint Resolve stays_put_rsp : stay.
Lemma stays_rsp_136 n idx b : stays (rsp_136 device n idx b).
Proof. revert idx b. induction n; intros; simpl; stay. Qed.
Hint Resolve stays_rsp_136 : stay.
Lemma changed_media d : Z.ldiff (atomic_set d DEV_FLAG_MEDIA_CHANGE) DEV_FLAG_MEDIA_CHANGE = Z.ldiff d DEV_FLAG_MEDIA_CHANGE.
Proof.
  apply Z.bits_inj'. intros i Hi. unfold atomic_set. rewrite !Z.ldiff_spec, Z.lor_spec.
  by destruct (Z.testbit d i), (Z.testbit DEV_FLAG_MEDIA_CHANGE i).
Qed.
Lemma stays_hc_event ev : stays (sdio_hc_event ev).
Proof.
  unfold sdio_hc_event. stay. apply stays_modify. intros s. destruct (ev =? HC_EV_CD), (ev =? HC_EV_TUNE); split; try done; split; try done; apply changed_media.
Qed.
Lemma stays_cmplt cs : stays (sdio_cmd_cmplt cs).
Proof. unfold sdio_cmd_cmplt. stay. Qed.
Hint Resolve stays_hc_event stays_cmplt : stay.
Lemma stays_intr fuel : stays (sdhci_intr_event device fuel).
Proof. unfold sdhci_intr_event, command_complete, transfer_complete, buffer_ready, sdhci_pio_xfer. stay. Qed.
Hint Resolve stays_intr : stay.
Lemma stays_put_desc i a l p : stays (put_desc i a l p).
Proof. intros s b s'. unfold put_desc. destruct (adma s !! _); [|done]. intros [= <- <-]. by repeat split. Qed.
Hint Resolve stays_put_desc : stay.
Lemma stays_adma_entry n a p c : stays (adma_entry n a p c).
Proof. revert a p c. induction n; intros; simpl; stay. Qed.
Hint Resolve stays_adma_entry : stay.
Lemma stays_adma_entries x a l : stays (adma_entries x a l).
Proof. revert a. induction l; intros; simpl; stay. Qed.
Lemma stays_put_end a : stays (put_end a).
Proof.
  intros s b s'. unfold put_end. destruct (a =? 0); [done|]. destruct (adma s !! _) as [d|]; simpl; [|done].
  intros [= <- <-]. by repeat split.
Qed.
Hint Resolve stays_adma_entries stays_put_end : stay.
Lemma stays_setup_dma st a b c : stays (setup_dma vtop_sg st a b c).
Proof. unfold setup_dma, sdhci_adma_setup, sdhci_sdma_setup. stay. Qed.
Hint Resolve stays_setup_dma : stay.
Lemma stays_cmd : stays (sdhci_cmd device vtop_sg).
Proof. unfold sdhci_cmd, sdhci_xfer_setup. stay. Qed.
Hint Resolve stays_cmd : stay.
Lemma stays_wait fuel irqs : stays (sdio_wait_cmd device fuel irqs).
Proof. induction irqs; simpl; stay. Qed.
Hint Resolve stays_wait : stay.
Lemma stays_issue fuel irqs : stays (sdio_issue_cmd device vtop_sg errno_no fuel irqs).
Proof. unfold sdio_issue_cmd. stay. Qed.
Lemma stays_set_bus f : stays (set_bus f).
Proof. unfold set_bus. stay. Qed.
Hint Resolve stays_set_bus : stay.
Lemma stays_pwr v : stays (sdhci_pwr device v).
Proof. unfold sdhci_pwr, enable_insertion. stay. Qed.
Lemma stays_clk v : stays (sdhci_clk device v).
Proof. unfold sdhci_clk. stay. Qed.
Lemma stays_voltage v : stays (sdhci_signal_voltage device v).
Proof. unfold sdhci_signal_voltage. stay. Qed.
End stays.

(** ** Runs that end *)
Definition keeps {A} (I : st -> Prop) (m : M st A) : Prop := forall s, I s -> post m s (fun _ s' => I s').

Section keeps.
Context (I : st -> Prop).
Lemma keeps_ret {A} (a : A) : keeps I (mret a).
Proof. intros s H. by apply post_ret. Qed.
Lemma keeps_gets {A} (f : st -> A) : keeps I (gets f).
Proof. intros s H. by apply post_gets. Qed.
Lemma keeps_modify f : (forall s, I s -> I (f s)) -> keeps I (modify f).
Proof. intros HI s H. apply post_modify. by apply HI. Qed.
Lemma keeps_bind {A B} (m : M st A) (k : A -> M st B) : keeps I m -> (forall a, keeps I (k a)) -> keeps I (x ← m; k x).
Proof. intros Hm Hk s H. apply post_bind. eapply post_mono; [by apply Hm|]. intros a s' H'. by apply Hk. Qed.
End keeps.

Create HintDb keep.
#[export] Hint Constants Opaque : keep.
Ltac keep := repeat (first
  [ match goal with
    | |- keeps _ (mret _) => apply keeps_ret
    | |- keeps _ (gets _) => apply keeps_gets
    | |- keeps _ (mbind _ _) => apply keeps_bind; [|intros ?]
    end
  | solve [auto 2 with keep]
  | match goal with
    | |- keeps _ (if ?b then _ else _) => destruct b
    | |- keeps _ (match ?x with _ => _ end) => destruct x
    end ]; cbv zeta).

(** The last value that was written to the interrupt enable register. *)
Definition last_ie (l : list event) : option Z :=
  foldl (fun a e => match e with Out _ off v => if off =? SDHCI_IE then Some v else a | In _ _ _ => a end) None l.
Definition DATA_READY : Z := Z.lor SDHCI_INTR_BWR SDHCI_INTR_BRR.
Definition no_data_intr (s : st) : Prop := exists v, last_ie (log s) = Some v /\ Z.land v DATA_READY = 0.

(** The conditions on the states that register accesses keep. *)
Definition any (s : st) : Prop := True.
Class log_only (I : st -> Prop) : Prop := {
  log_in w off v s : I s -> I (upd_log (In w off v) s);
  log_out w off v s : off <> SDHCI_IE -> I s -> I (upd_log (Out w off v) s);
  log_bus f s : I s -> I (upd_bus f s);
  log_flags h d s : I s -> I (upd_flags h d s);
  log_cmd c a s : same_cmd (cmd s) c -> I s -> I (upd_cmd c a s)
}.
#[export] Instance any_log_only : log_only any.
Proof. done. Qed.
Lemma last_ie_snoc l e : last_ie (l ++ [e]) =
  match e with Out _ off v => if off =? SDHCI_IE then Some v else last_ie l | In _ _ _ => last_ie l end.
Proof. unfold last_ie. by rewrite foldl_app. Qed.
#[export] Instance no_data_log_only : log_only no_data_intr.
Proof.
  split; try done; intros.
  - unfold no_data_intr in *. simpl. by rewrite last_ie_snoc.
  - unfold no_data_intr in *. simpl. rewrite last_ie_snoc, (proj2 (Z.eqb_neq _ _)); done.
Qed.

Section total.
Context (device : list event -> Z -> Z -> Z) (vtop_sg : list sge -> list sge) (errno_no : errno -> Z).
Context (I : st -> Prop) `{log_only I}.

Lemma keeps_in w off : keeps I (sdhci_in device w off).
Proof. intros s Hs. unfold sdhci_in, post. do 2 eexists. split; [done|]. by apply log_in. Qed.
Lemma keeps_out w off v : off <> SDHCI_IE -> keeps I (sdhci_out w off v).
Proof. intros Ho. apply keeps_modify. intros s. by apply log_out. Qed.
Hint Resolve keeps_in : keep.
Hint Extern 1 (keeps _ (sdhci_out _ _ _)) => apply keeps_out; discriminate : keep.
Lemma keeps_poll n reg mask val : keeps I (poll device n reg mask val).
Proof. induction n; simpl; keep. Qed.
Hint Resolve keeps_poll : keep.
Lemma keeps_waitmask reg mask val usec : keeps I (sdhci_waitmask device reg mask val usec).
Proof. unfold sdhci_waitmask. keep. Qed.
Hint Resolve keeps_waitmask : keep.
Lemma keeps_reset r : keeps I (sdhci_reset device r).
Proof. unfold sdhci_reset. keep. Qed.
Hint Resolve keeps_reset : keep.
Lemma keeps_set_bus f : keeps I (set_bus f).
Proof. apply keeps_modify. intros s. apply log_bus. Qed.
Hint Resolve keeps_set_bus : keep.
Lemma keeps_clk v : keeps I (sdhci_clk device v).
Proof. unfold sdhci_clk. keep. Qed.
Lemma keeps_voltage v : keeps I (sdhci_signal_voltage device v).
Proof. unfold sdhci_signal_voltage. keep. Qed.
Lemma keeps_put_rsp i v : keeps I (put_rsp i v).
Proof. apply keeps_modify. intros s. apply log_cmd. repeat split. apply length_insert. Qed.
Hint Resolve keeps_put_rsp : keep.
Lemma keeps_rsp_136 n idx b : keeps I (rsp_136 device n idx b).
Proof. revert idx b. induction n; intros; simpl; keep. Qed.
Hint Resolve keeps_rsp_136 : keep.
Lemma keeps_hc_event ev : keeps I (sdio_hc_event ev).
Proof. unfold sdio_hc_event. keep. apply keeps_modify. intros s Hs. destruct (ev =? HC_EV_CD), (ev =? HC_EV_TUNE); by try apply log_flags. Qed.
Lemma keeps_cmplt cs : keeps I (sdio_cmd_cmplt cs).
Proof. unfold sdio_cmd_cmplt. keep. apply keeps_modify. intros s. by apply log_cmd. Qed.
Lemma keeps_complete sts cs : keeps I (command_complete device sts cs).
Proof. unfold command_complete. keep. Qed.
Lemma keeps_transfer sts cs : keeps I (transfer_complete device sts cs).
Proof. unfold transfer_complete. keep. Qed.
End total.
#[export] Hint Resolve keeps_in keeps_waitmask keeps_reset keeps_set_bus keeps_put_rsp keeps_hc_event keeps_cmplt keeps_complete
  keeps_transfer : keep.
#[export] Hint Extern 1 (keeps _ (sdhci_out _ _ _)) => apply keeps_out; [exact _|discriminate] : keep.
#[export] Hint Extern 0 (log_only _) => exact _ : keep.

Lemma any_out w off v : keeps any (sdhci_out w off v).
Proof. by apply keeps_modify. Qed.
#[export] Hint Extern 1 (keeps any (sdhci_out _ _ _)) => apply any_out : keep.

(** ** The controller *)
Section controller.
Context (device : list event -> Z -> Z -> Z) (vtop_sg : list sge -> list sge) (errno_no : errno -> Z).

(** The rounds that a transfer without DMA may take, and the interrupts
    that come within a time. *)
Context (fuel : nat) (irqs : Z -> nat).

Lemma any_pwr v : keeps any (sdhci_pwr device v).
Proof. unfold sdhci_pwr, enable_insertion. keep. Qed.

(** The enable register shows no more than was written to it. *)
Definition ie_reads_back : Prop := forall l v, last_ie l = Some v -> Z.ldiff (device l 32 SDHCI_IE mod 2 ^ 32) v = 0.

Lemma masked_off sts ie v : Z.ldiff ie v = 0 -> Z.land v DATA_READY = 0 ->
  has (Z.land sts (Z.lor ie SDHCI_INTR_ERRI)) (Z.lor SDHCI_INTR_BWR SDHCI_INTR_BRR) = false.
Proof.
  intros H1 H2. unfold has. apply negb_false_iff, Z.eqb_eq. fold DATA_READY.
  rewrite <- Z.land_assoc, Z.land_lor_distr_l. replace (Z.land SDHCI_INTR_ERRI DATA_READY) with 0 by done.
  assert (E : Z.land ie DATA_READY = 0).
  { apply Z.bits_inj'. intros i Hi. apply (f_equal (fun z => Z.testbit z i)) in H1, H2.
    rewrite ?Z.ldiff_spec, ?Z.land_spec, ?Z.testbit_0_l in *. by destruct (Z.testbit ie i), (Z.testbit v i), (Z.testbit DATA_READY i). }
  rewrite E, Z.lor_0_r. apply Z.land_0_r.
Qed.

Lemma in_now w off s : sdhci_in device w off s =
  Some (device (log s) w off mod 2 ^ w, upd_log (In w off (device (log s) w off mod 2 ^ w)) s).
Proof. done. Qed.
Lemma keeps_intr : ie_reads_back -> keeps no_data_intr (sdhci_intr_event device fuel).
Proof.
  intros HI s Hs. apply post_bind. eapply post_mono; [by apply keeps_in, Hs; exact _|]. intros sts s1 H1. cbv beta.
  destruct (sts =? 0); [by apply post_ret|]. apply post_bind. pose proof H1 as (v & Hv & Hm).
  pose proof (HI _ v Hv) as HR. pose proof (in_now 32 SDHCI_IE s1) as E.
  set (ie := device (log s1) 32 SDHCI_IE mod 2 ^ 32) in *. clearbody ie.
  exists ie, (upd_log (In 32 SDHCI_IE ie) s1). split; [exact E|].
  pose proof (masked_off sts ie v HR Hm) as HM. apply (log_in 32 SDHCI_IE ie) in H1. clear -H1 HM.
  revert H1. generalize (upd_log (In 32 SDHCI_IE ie) s1). clear s1. intros s H2. set (en := Z.land sts _) in *. clearbody en.
  cbv zeta. match goal with |- post ?m _ _ => enough (HK : keeps no_data_intr m) by exact (HK s H2) end.
  unfold buffer_ready. rewrite HM.
  keep.
Qed.

Lemma keeps_wait n : ie_reads_back -> keeps no_data_intr (sdio_wait_cmd device fuel n).
Proof. intros HI. pose proof (keeps_intr HI). induction n; simpl; keep. Qed.

(** Starting a command without data: EOK means that no data interrupt is
    enabled. *)
Lemma cmd_no_data s : no_data (cmd s) -> post (sdhci_cmd device vtop_sg) s (fun e s' => e = EOK -> no_data_intr s').
Proof.
  intros HD. unfold sdhci_cmd. apply post_bind, post_gets, post_bind, post_gets. cbv zeta. apply post_bind.
  eapply post_mono; [by apply any_out|]. intros _ s1 _. rewrite HD. apply post_bind, post_ret.
  rewrite decide_False by (intros F; by apply F). apply post_bind.
  eapply post_mono; [by apply (keeps_waitmask _ any)|]. intros e s2 _.
  destruct (decide (e <> EOK)) as [He|He]; [by apply post_ret|]. clear He.
  apply post_bind, post_modify, post_bind, post_modify, post_bind, post_modify, post_ret. intros _.
  unfold no_data_intr. simpl. rewrite !last_ie_snoc. simpl. eexists. split; [done|].
  by destruct (has (caps (hc s)) HC_CAP_SLOT_TYPE_EMBEDDED).
Qed.

Lemma issue_no_data n s : ie_reads_back -> no_data (cmd s) ->
  is_Some (sdio_issue_cmd device vtop_sg errno_no fuel n s).
Proof.
  intros HI HD. enough (post (sdio_issue_cmd device vtop_sg errno_no fuel n) s (fun _ _ => True)) as (a & s' & -> & _) by done.
  apply post_bind, post_modify, post_bind. eapply post_mono; [by apply cmd_no_data|]. intros e s1 H1. apply post_bind.
  apply (post_mono _ _ (fun _ _ => True)).
  { destruct (decide (e = EOK)) as [->|]; [|by apply post_ret]. eapply post_mono; [by apply keeps_wait, H1|done]. }
  intros e2 s2 _. apply post_bind. destruct (decide (e2 <> EOK)); [by apply post_modify, post_ret|by do 2 apply post_ret].
Qed.

(** EOK: the wait saw a status. *)
Lemma wait_done n : forall s s', sdio_wait_cmd device fuel n s = Some (EOK, s') -> cstatus (cmd s') <> CS_CMD_INPROG.
Proof.
  induction n as [|n IH]; intros s s'; cbn [sdio_wait_cmd]; rewrite gets_bind; destruct (cstatus (cmd s) =? CS_CMD_INPROG) eqn:E; zbool; cbn [negb].
  1,3: done || idtac. all: try (intros [= ->]; done).
  unfold mbind, M_bind. destruct (sdhci_intr_event device fuel s) as [[a s1]|]; [|done]. apply IH.
Qed.
Lemma issue_done n s s' : sdio_issue_cmd device vtop_sg errno_no fuel n s = Some (EOK, s') -> cstatus (cmd s') <> CS_CMD_INPROG.
Proof.
  unfold sdio_issue_cmd. rewrite modify_bind. unfold mbind, M_bind.
  destruct (sdhci_cmd device vtop_sg _) as [[e s1]|]; [|done]. destruct (decide (e = EOK)) as [->|He].
  - destruct (sdio_wait_cmd device fuel n s1) as [[e2 s2]|] eqn:E; [|done].
    destruct (decide (e2 <> EOK)) as [F|F]; simpl; intros [= -> <-]; [done|]. by eapply wait_done.
  - simpl. rewrite decide_True by done. simpl. intros [= ->]. done.
Qed.

(** ** The instance *)
Definition with_caps (v : Z) (h : host) : host :=
  Host (version h) v (sflags h) (clk_mul h) (clk_max h) (clk_min h) (ocr h) (tuning_count h) (tuning_mode h) (sg_max h)
    (admap h) (bmstr_xlat h).
Definition issue_entry (c : sdio_cmd_t) (t : Z) : M st (errno * sdio_cmd_t) :=
  modify (fun s => upd_cmd c (active s) s);;
  e ← sdio_issue_cmd device vtop_sg errno_no fuel (irqs t);
  c ← gets cmd; mret (e, c).

#[local] Instance sdhci_entry : sdio_hc_entry st := {|
  entry_cmd := issue_entry;
  entry_pwr := sdhci_pwr device; entry_clk := sdhci_clk device; entry_bus_mode := sdhci_bus_mode;
  entry_signal_voltage := sdhci_signal_voltage device;
  hc_ocr s := ocr (hc s); hc_clk_min s := clk_min (hc s); hc_clk_max s := clk_max (hc s);
  hc_caps s := caps (hc s); set_hc_caps v s := upd_hc (with_caps v (hc s)) s;
  hc_flags := hflags; set_hc_flags v s := upd_flags v (dflags s) s;
  dev_flags := dflags; set_dev_flags v s := upd_flags (hflags s) v s
|}.

Lemma entry_inv c t k e c' k' : issue_entry c t k = Some ((e, c'), k') ->
  sdio_issue_cmd device vtop_sg errno_no fuel (irqs t) (upd_cmd c (active k) k) = Some (e, k') /\ c' = cmd k'.
Proof.
  unfold issue_entry. rewrite modify_bind. unfold mbind, M_bind.
  destruct (sdio_issue_cmd _ _ _ _ _ _) as [[e1 s1]|]; [|done]. simpl. by intros [= -> <- ->].
Qed.
Lemma ended_held {A} (m : M st A) s : keeps any m -> stays m -> post m s (fun _ s' => held s s').
Proof. intros H1 H2. destruct (H1 s I) as (a & s' & E & _). exists a, s'. split; [done|]. apply (H2 _ _ _ E). Qed.
Lemma ended {A} (m : M st A) s : keeps any m -> stays m -> post m s (fun _ s' => caps (hc s') = caps (hc s)).
Proof. intros H1 H2. eapply post_mono; [by apply ended_held|]. by intros a s' [? _]. Qed.

(** C33 (the controller of the command layer) The sdhci driver is a controller
    with the laws that the command layer relies on, for every device whose
    interrupt enable register shows no more than was written to it: commands
    without data always come back, EOK means that there is a status, and no
    entry changes the capabilities or what was asked of the command. *)
Theorem sdhci_is_controller : ie_reads_back -> hc_entry_laws st.
Proof.
  intros HI. split; simpl; try done.
  - intros c t k e c' k' [E _]%entry_inv. by apply stays_issue in E as [[E _] _].
  - intros c t k e c' k' [E ->]%entry_inv. by apply stays_issue in E as [_ E].
  - intros c t k c' k' [E ->]%entry_inv. by apply issue_done in E.
  - intros c t k HD _. unfold issue_entry. rewrite modify_bind.
    destruct (issue_no_data (irqs t) (upd_cmd c (active k) k) HI HD) as [[e s] E].
    rewrite (bind_eq _ _ _ _ _ E). by eexists.
  - intros v k. apply ended; [apply any_pwr|apply stays_pwr].
  - intros v k _. apply ended; [apply (keeps_clk _ any)|apply stays_clk].
  - intros v k. unfold sdhci_bus_mode, set_bus. by apply post_bind, post_modify, post_ret.
  - intros v k. apply ended; [apply (keeps_voltage _ any)|apply stays_voltage].
Qed.
End controller.

(** A controller that completes every command with the same response: an
    erase as the writes of its command register. *)
Definition ready_device (l : list event) (w off : Z) : Z :=
  if off =? SDHCI_IE then default 0 (last_ie l) else if off =? SDHCI_IS then SDHCI_INTR_CC
  else if off =? SDHCI_RESP0 then READY else 0.
Definition issued_cmds (l : list event) : list Z :=
  concat (map (fun e => match e with Out 32 off v => if off =? SDHCI_CMD then [cmd_index v] else [] | _ => [] end) l).
Lemma ready_reads_back : ie_reads_back ready_device.
Proof.
  intros l v E. unfold ready_device. rewrite Z.eqb_refl, E. simpl. apply Z.bits_inj'. intros i Hi.
  rewrite Z.ldiff_spec, Z.testbit_0_l. destruct (decide (i < 32)).
  - rewrite Z.mod_pow2_bits_low by done. by destruct (Z.testbit v i).
  - rewrite Z.mod_pow2_bits_high by lia. done.
Qed.
Lemma sdhci_is_controller_witness : let H := sdhci_entry ready_device (fun l => l) (fun _ => 1) 1 (fun _ => 1%nat) in
  option_map (fun x => (fst x, issued_cmds (log (ctl (snd x)))))
    (@sd_erase st H memory example_sds 0 1000 24 (Cst (example_st 0 []) example_dev [])) = Some (EOK, [32; 33; 38; 13]) /\
  @hc_entry_laws st H.
Proof. split; [vm_compute; reflexivity|]. apply sdhci_is_controller, ready_reads_back. Defined.
