(* ===== verification/SimConst.v ===== *)
(** * Constants of the SCSI layer (devb/sdmmc: sim_sdmmc.h, public; devb/include)

    The names are the sources'. *)
From S2P Require Import Prelude.
Open Scope Z_scope.

(** ** sim_sdmmc.h and hw/dcmd_sim_sdmmc.h *)
Definition SDMMC_EFLAG_PRESENT : Z := 1.
Definition SDMMC_EFLAG_BKOPS : Z := 4.
Definition SDMMC_EFLAG_PARTITIONS : Z := 0x10.
Definition SDMMC_EFLAG_ASSD_INIT : Z := 0x20.
Definition SDMMC_EFLAG_CACHE : Z := 0x100.
Definition SDMMC_EFLAG_PWROFF_NOTIFY : Z := 0x200.
Definition SDMMC_EFLAG_BKOPS_AUTO : Z := 0x400.
Definition SDMMC_EFLAG_VCACHE_DIRTY : Z := 0x800.
Definition SDMMC_EFLAG_RELWR : Z := 0x1000.
Definition SDMMC_TARGET_MAX : Z := 8.
Definition SDMMC_PARTITION_MAX : Z := 8.
Definition SDMMC_TIME_DEFAULT : Z := 5.
Definition SDMMC_TRIM_MAX_LBA : Z := 0xffffffff.
Definition SDMMC_PFLAG_WP : Z := 1.
Definition SDMMC_PFLAG_ENH : Z := 2.
Definition SDMMC_DRVR_PAUSE : Z := 0.
Definition BKOPS_NC_TICKS : Z := 0xa.
Definition BKOPS_IMPACTED_TICKS : Z := 5.
Definition BKOPS_STATUS_OPERATIONS_NONE : Z := 0.
Definition BKOPS_STATUS_OPERATIONS_NON_CRITICAL : Z := 1.
Definition BKOPS_STATUS_OPERATIONS_IMPACTED : Z := 2.
Definition BKOPS_STATUS_OPERATIONS_CRITICAL : Z := 3.
Definition BKOPS_STATUS_OPERATIONS_INPROG : Z := 0x80000000.
Definition SDMMC_ERASE_ACTION_NORMAL : Z := 0.
Definition SDMMC_ERASE_ACTION_SECURE : Z := 1.
Definition SDMMC_ERASE_ACTION_TRIM : Z := 2.
Definition SDMMC_ERASE_ACTION_SECURE_TRIM : Z := 3.
Definition SDMMC_ERASE_ACTION_SECURE_PURGE : Z := 4.
Definition SDMMC_ERASE_ACTION_DISCARD : Z := 5.
Definition SDMMC_WP_ACTION_CLR : Z := 0.
Definition SDMMC_WP_ACTION_SET : Z := 1.
Definition SDMMC_WP_ACTION_PROT : Z := 2.
Definition SDMMC_WP_ACTION_PROT_TYPE : Z := 3.
Definition SDMMC_WP_MODE_PWR_WP_EN : Z := 1.

(** ** sdiodi: mmc.h, sdiodi.h and internal.h *)
Definition CDS_URGENT_BKOPS : Z := 0x40.
Definition CDS_ERROR : Z := 0x80000.
Definition CDS_WP_VIOLATION : Z := 0x4000000.
Definition CDS_CARD_ECC_FAILED : Z := 0x200000.
Definition SCF_MULTIBLK : Z := 0x2000000.
Definition SCF_SUA : Z := 0x8000.
Definition MMC_READ_SINGLE_BLOCK : Z := 0x11.
Definition MMC_WRITE_BLOCK : Z := 0x18.
Definition DEV_CAP_TRIM : Z := 0x20.
Definition DEV_CAP_SECURE : Z := 0x40.
Definition DEV_CAP_SECURE_TRIM : Z := 0x60.
Definition DEV_CAP_DISCARD : Z := 0x4000.
Definition DEV_CAP_CACHE : Z := 0x8000.
Definition DEV_CAP_WR_REL : Z := 0x200000.
Definition DEV_CAP_WR_REL_ENH : Z := 0x400000.
Definition DEV_CAP_BKOPS : Z := 0x100.
Definition DEV_CAP_BKOPS_AUTO : Z := 0x80000.
Definition DEV_CAP_ASSD : Z := 0x800.
Definition DEV_FLAG_WP : Z := 1.
Definition DEV_FLAG_CARD_LOCKED : Z := 2.
Definition MMC_PART_MSK : Z := 7.
Definition MMC_PART_USER : Z := 0.
Definition MMC_PART_BOOT1 : Z := 1.
Definition MMC_PART_BOOT2 : Z := 2.
Definition MMC_PART_RPMB : Z := 3.
Definition DEV_TYPE_SD : Z := 2.
Definition DEV_TYPE_MMC : Z := 1.
Definition ECSD_BS_OPERATIONS_CRITICAL : Z := 3.
Definition ECSD_BKOPS_ENABLE : Z := 1.
Definition ECSD_BKOPS_AUTO_EN : Z := 2.
Definition ECSD_BKOPS_EN : Z := 0xa3.
Definition ECSD_BKOPS_STATUS : Z := 0xf6.
Definition ECSD_BKOPS_START : Z := 0xa4.
Definition ECSD_BKOPS_INITIATE : Z := 1.
Definition ECSD_PC_ACCESS_MSK : Z := 7.
Definition ECSD_HC_WP_GRP_SIZE : Z := 0xdd.
Definition ECSD_ERASE_GRP_SIZE : Z := 0xe0.
Definition ECSD_BOOT_SIZE_MULT : Z := 0xe2.
Definition ECSD_PARTITIONING_SUP : Z := 0xa0.
Definition ECSD_PS_PART_EN : Z := 1.
Definition ECSD_RPMB_SIZE_MULT : Z := 0xa8.
Definition ECSD_GP_SIZE : Z := 0x8f.
Definition ECSD_PARTITIONS_ATTR : Z := 0x9c.
Definition ECSD_PA_ENH_1 : Z := 2.
Definition ECSD_POWERED_ON : Z := 1.
Definition MMC_BOOT_PART_MAX : Z := 2.
Definition MMC_BOOT_SIZE_MULT : Z := 0x20000.
Definition MMC_RPMB_SIZE_MULT : Z := 0x20000.
Definition MMC_GP_PART_MAX : Z := 4.
Definition MMC_SET_WRITE_PROT : Z := 0x1c.
Definition MMC_CLR_WRITE_PROT : Z := 0x1d.
Definition MMC_SEND_WRITE_PROT : Z := 0x1e.
Definition MMC_SEND_WRITE_PROT_TYPE : Z := 0x1f.
Definition ECSD_USER_WP : Z := 0xab.
Definition ECSD_BOOT_WP : Z := 0xad.
Definition ECSD_USER_WP_US_PWR_WP_EN : Z := 1.
Definition ECSD_USER_WP_US_PERM_WP_EN : Z := 4.
Definition ECSD_USER_WP_US_PWR_WP_DIS : Z := 8.
Definition ECSD_MODE_OPERATION_CODES : Z := 0x1d.
Definition ECSD_FFU_INSTALL : Z := 1.
Definition ECSD_MODE_CONFIG : Z := 0x1e.
Definition ECSD_MODE_NORMAL : Z := 0.
Definition ECSD_MODE_FFU : Z := 1.
Definition ECSD_FW_CONFIG : Z := 0xa9.
Definition ECSD_FWUPDATE_DISABLED : Z := 1.
Definition ECSD_REV : Z := 0xc0.
Definition ECSD_REV_V5 : Z := 7.
Definition ECSD_REV_V4_41 : Z := 5.
Definition ECSD_FFU_ARG : Z := 0x1e7.
Definition ECSD_FFU_FEATURE : Z := 0x1ec.
Definition ECSD_FFU_OPCODE_SUPPORTED : Z := 1.
Definition ECSD_SUPPORTED_MODES : Z := 0x1ed.
Definition ECSD_FFU_SUPPORTED : Z := 1.
Definition ECSD_DATA_SECTOR_SIZE : Z := 0x3d.
Definition ECSD_NATIVE_SECTOR_4K : Z := 1.
Definition MMC_SEND_WRITE_PROT_SIZE : Z := 4.
Definition MMC_SEND_WRITE_PROT_TYPE_SIZE : Z := 8.
Definition HC_CAP_SLEEP : Z := 0x100.
Definition PM_IDLE : Z := 0.
Definition PM_ACTIVE : Z := 1.
Definition PM_SLEEP : Z := 2.
Definition PM_SUSPEND : Z := 3.

(** ** devb/include: cam.h *)
Definition CAM_REQ_CMP : Z := 1.
Definition CAM_REQ_CMP_ERR : Z := 4.
Definition CAM_CMD_TIMEOUT : Z := 0xb.
Definition CAM_NO_HBA : Z := 0x11.
Definition CAM_PROVIDE_FAIL : Z := 0x16.
Definition CAM_AUTOSNS_VALID : Z := 0x80.
Definition CAM_DIS_AUTOSENSE : Z := 0x20.
Definition CAM_SCATTER_VALID : Z := 0x10.
Definition CAM_DATA_PHYS : Z := 0x200000.
Definition XPT_SCSI_IO : Z := 1.
Definition XPT_DEVCTL : Z := 0x81.

(** ** devb/include: ntoscsi.h *)
Definition SC_UNIT_RDY : Z := 0.
Definition SC_INQUIRY : Z := 0x12.
Definition SC_SPINDLE : Z := 0x1b.
Definition SC_RD_CAP : Z := 0x25.
Definition SC_READ10 : Z := 0x28.
Definition SC_WRITE10 : Z := 0x2a.
Definition SC_READ12 : Z := 0xa8.
Definition SC_WRITE12 : Z := 0xaa.
Definition SC_READ16 : Z := 0x88.
Definition SC_WRITE16 : Z := 0x8a.
Definition SC_WR_SAME16 : Z := 0x93.
Definition SC_SYNC : Z := 0x35.
Definition SC_MSELECT10 : Z := 0x55.
Definition SC_MSENSE10 : Z := 0x5a.
Definition SC_ERASE12 : Z := 0xac.
Definition SC_SERVICE_ACTION_IN16 : Z := 0x9e.
Definition SC_WR_BUF : Z := 0x3b.
Definition WB_MODE_DNLD_MC : Z := 4.
Definition WB_MODE_ACT_MC : Z := 0xf.
Definition SAI_SERVICE_ACTION_MSK : Z := 0x1f.
Definition SAI_READ_CAPACITY_16 : Z := 0x10.
Definition SC_RW_MAX_LBA32 : Z := 0xffffffff.
Definition RD_CAP_MAX_LBA32 : Z := 0xffffffff.
Definition RD_CAP_TPE : Z := 0x80.
Definition RW_OPT_FUA : Z := 8.
Definition WS_OPT_UNMAP : Z := 8.
Definition SCS_GOOD : Z := 0.
Definition SCS_CHECK : Z := 2.
Definition SK_MEDIUM : Z := 3.
Definition SK_NOT_RDY : Z := 2.
Definition SK_ILLEGAL : Z := 5.
Definition SK_DATA_PROT : Z := 7.
Definition ASC_MEDIA_NOT_PRESENT : Z := 0x3a.
Definition ASC_COPY_PROTECTION : Z := 0x6f.
Definition ASCQ_READ_SCRAMBLED : Z := 3.
Definition ASC_INVALID_FIELD : Z := 0x24.
Definition ASC_WRITE_PROTECTED : Z := 0x27.
Definition ASCQ_VU_WRITE_PROTECTED : Z := 0xff.
Definition MP_RW_ERR : Z := 1.
Definition MP_CACHING : Z := 8.
Definition MP_CACHE_WCE : Z := 4.
Definition MP_DS_WP : Z := 0x80.
Definition LD_CMD_STOP : Z := 0.
Definition LD_CMD_START : Z := 1.
Definition INQ_OPT_EVPD : Z := 1.
Definition INQ_PC_VPD_SUPPORTED : Z := 0.
Definition INQ_PC_BLOCK_LIMITS : Z := 0xb0.
Definition INQ_PC_BLOCK_DEVICE_CHARACTERISTICS : Z := 0xb1.
Definition INQ_VER_SPC3 : Z := 5.
