(* ===== verification/Sim.v ===== *)
(** * The SCSI layer of the SD/MMC driver (devb/sdmmc/sim_sdmmc.c)

    Requests come from the CAM layer as SCSI commands and become commands of
    the card through the client interface of the sdiodi library, which is a
    class here.  The state has the data of one adapter, the library, the
    request in progress, and a list of the library calls, which nothing
    reads: it is for the theorems.  None is an access outside of a buffer or
    of the arrays of targets and partitions, a division by zero, or a loop
    that did not end within its fuel. *)
From S2P Require Import Prelude Driver SdioReg SdioConst Sdhci SdioCmd SimConst.
Open Scope Z_scope.

(** ** Data *)

(** SDMMC_PARTITION, SDMMC_TARGET, sdio_dev_info_t. *)
Record partition := Part {
  pflags : Z; config : Z; pname : list Z; blk_shft : Z; slba : Z; elba : Z; nlba : Z;
  rcnt : Z; wcnt : Z; tcnt : Z; ecnt : Z; dcnt : Z
}.
Record target := Targ { nluns : Z; tblksz : Z; partitions : list partition }.
Record dev_info := DevInfo {
  di_caps : Z; di_flags : Z; di_sectors : Z; di_sector_size : Z; di_erase_size : Z; di_wp_size : Z; di_rel_wr_sec_c : Z;
  di_prv : Z; di_pnm : list Z; di_spec_rev : Z
}.

(** SIM_SDMMC_EXT: the flags, what the library says of controller and card,
    the state of background operations and of power, the targets. *)
Record sim_ext := SimExt {
  eflags : Z; hc_inf_caps : Z; dtype : Z; dev_inf : dev_info; bkops_ticks : Z; bkops_status : Z; drvr_state : Z;
  pm_state : Z; ntargs : Z; targets : list target
}.

(** CCB_SCSIIO.  [data] is the buffer behind cam_data_ptr, [sense] that
    behind cam_sense_ptr. *)
Record ccb := Ccb {
  func_code : Z; cam_flags : Z; target_id : Z; target_lun : Z; cdb : list Z; dxfer_len : Z; data_ptr : Z; sg_list : list sge;
  cam_timeout : Z; data : list Z; cam_status : Z; scsi_status : Z; sense : option (list Z)
}.

(** The calls of the library. *)
Inductive call :=
| CSend (c : sdio_cmd_t) (earg timeout : Z) (e : errno) (c' : sdio_cmd_t)
| CStatus (e : errno) (r : Z) | CStop (e : errno) | CWait (e : errno) (r : Z)
| CErase (conf type lba n : Z) (e : errno) | CPartition (conf : Z) (e : errno)
| CReset | CBusError | CCache (op : Z) (e : errno) | CSwitch (index value : Z) (e : errno) | CHpi (e : errno)
| CNotify (op : Z) (e : errno) | CPower (op : Z) | CEcsd (e : errno) | CAssd | CBlockLength (v : Z) (e : errno) | CRetune (e : errno).

(** ** The library

    sdio_send_cmd has cmd->earg and a time and no retries here;
    sdio_wait_card_status gets the last response and gives the new one;
    sdio_alloc gives the address of a buffer and [lib_bytes] what is in it. *)
Class sdio_lib (S : Type) := {
  lib_alloc : M S (option sdio_cmd_t);
  lib_send : sdio_cmd_t -> Z -> Z -> M S (errno * sdio_cmd_t);
  lib_status : M S (errno * Z);
  lib_stop : M S errno;
  lib_wait : Z -> Z -> Z -> Z -> M S (errno * Z);
  lib_erase : Z -> Z -> Z -> Z -> M S errno;
  lib_partition : Z -> M S errno;
  lib_reset : M S errno;
  lib_bus_error : M S errno;
  lib_cache : Z -> Z -> M S errno;
  lib_switch : Z -> Z -> Z -> M S errno;
  lib_hpi : Z -> M S errno;
  lib_notify : Z -> Z -> M S errno;
  lib_power : Z -> M S errno;
  lib_ext_csd : M S (errno * list Z);
  lib_assd_init : M S ();
  lib_block_length : Z -> M S errno;
  lib_retune : M S errno;
  lib_buffer : Z -> M S (option Z);
  lib_bytes : Z -> Z -> S -> list Z;
  raw_ecsd : S -> list Z;
  ecsd_blksz : S -> Z;
  lib_dev_info : S -> dev_info
}.

Record sim (S : Type) := Sim { ext : sim_ext; lib : S; req : ccb; calls : list call }.
Arguments Sim {S}. Arguments ext {S}. Arguments lib {S}. Arguments req {S}. Arguments calls {S}.

(** ** Fields *)
Definition set_eflags (v : Z) (x : sim_ext) : sim_ext :=
  SimExt v (hc_inf_caps x) (dtype x) (dev_inf x) (bkops_ticks x) (bkops_status x) (drvr_state x) (pm_state x) (ntargs x) (targets x).
Definition set_dev_inf (v : dev_info) (x : sim_ext) : sim_ext :=
  SimExt (eflags x) (hc_inf_caps x) (dtype x) v (bkops_ticks x) (bkops_status x) (drvr_state x) (pm_state x) (ntargs x) (targets x).
Definition set_bkops (t v : Z) (x : sim_ext) : sim_ext :=
  SimExt (eflags x) (hc_inf_caps x) (dtype x) (dev_inf x) t v (drvr_state x) (pm_state x) (ntargs x) (targets x).
Definition set_pm (v : Z) (x : sim_ext) : sim_ext :=
  SimExt (eflags x) (hc_inf_caps x) (dtype x) (dev_inf x) (bkops_ticks x) (bkops_status x) (drvr_state x) v (ntargs x) (targets x).
Definition set_targets (n : Z) (t : list target) (x : sim_ext) : sim_ext :=
  SimExt (eflags x) (hc_inf_caps x) (dtype x) (dev_inf x) (bkops_ticks x) (bkops_status x) (drvr_state x) (pm_state x) n t.
Definition set_di_caps (v : Z) (d : dev_info) : dev_info :=
  DevInfo v (di_flags d) (di_sectors d) (di_sector_size d) (di_erase_size d) (di_wp_size d) (di_rel_wr_sec_c d)
    (di_prv d) (di_pnm d) (di_spec_rev d).
Definition set_pflags (v : Z) (p : partition) : partition :=
  Part v (config p) (pname p) (blk_shft p) (slba p) (elba p) (nlba p) (rcnt p) (wcnt p) (tcnt p) (ecnt p) (dcnt p).
Definition add_counts (r w t e d : Z) (p : partition) : partition :=
  Part (pflags p) (config p) (pname p) (blk_shft p) (slba p) (elba p) (nlba p) (u64 (rcnt p + r)) (u64 (wcnt p + w))
    (u64 (tcnt p + t)) (u64 (ecnt p + e)) (u64 (dcnt p + d)).
Definition set_cam (st sc : Z) (b : option (list Z)) (r : ccb) : ccb :=
  Ccb (func_code r) (cam_flags r) (target_id r) (target_lun r) (cdb r) (dxfer_len r) (data_ptr r) (sg_list r) (cam_timeout r)
    (data r) st sc b.
Definition set_data (l : list Z) (r : ccb) : ccb :=
  Ccb (func_code r) (cam_flags r) (target_id r) (target_lun r) (cdb r) (dxfer_len r) (data_ptr r) (sg_list r) (cam_timeout r)
    l (cam_status r) (scsi_status r) (sense r).

(** ** Big-endian numbers in a command or a buffer *)
Definition be_value (l : list Z) : Z := foldl (fun a b => a * 256 + b) 0 l.
Fixpoint be_bytes (n : nat) (v : Z) : list Z :=
  match n with O => [] | S n' => (v / 256 ^ Z.of_nat n') mod 256 :: be_bytes n' v end.
Definition bytes_of (l : list Z) (off n : nat) : Z := be_value (take n (drop off l)).

(** ENDIAN_BE64( UNALIGNED_RET64( &cdb[2] ) ) and the like. *)
Definition sdmmc_ccb_lba (c : list Z) : Z * Z :=
  let op := default 0 (c !! 0%nat) in
  if (op =? SC_READ10) || (op =? SC_WRITE10) then (bytes_of c 2 4, bytes_of c 7 2)
  else if (op =? SC_READ12) || (op =? SC_WRITE12) then (bytes_of c 2 4, bytes_of c 7 4)
  else if (op =? SC_READ16) || (op =? SC_WRITE16) || (op =? SC_WR_SAME16) then (bytes_of c 2 8, bytes_of c 10 4)
  else (0, 0).

Section sim.
Context {L : Type} `{sdio_lib L} (errno_no : errno -> Z) (D_DIR_ACC : Z).

Definition upd_ext (f : sim_ext -> sim_ext) : M (sim L) () := modify (fun s => Sim (f (ext s)) (lib s) (req s) (calls s)).
Definition upd_req (f : ccb -> ccb) : M (sim L) () := modify (fun s => Sim (ext s) (lib s) (f (req s)) (calls s)).
Definition upd_eflags (f : Z -> Z) : M (sim L) () := upd_ext (fun x => set_eflags (f (eflags x)) x).

(** A call of the library, with its entry in the list. *)
Definition lib_call {A} (m : M L A) (ev : A -> call) : M (sim L) A := fun s =>
  match m (lib s) with None => None | Some (a, k) => Some (a, Sim (ext s) k (req s) (calls s ++ [ev a])) end.

(** A call that no card sees. *)
Definition lib_quiet {A} (m : M L A) : M (sim L) A := fun s =>
  match m (lib s) with None => None | Some (a, k) => Some (a, Sim (ext s) k (req s) (calls s)) end.
Definition lib_send_cmd (c : sdio_cmd_t) (earg timeout : Z) : M (sim L) (errno * sdio_cmd_t) :=
  lib_call (lib_send c earg timeout) (fun r => CSend c earg timeout (fst r) (snd r)).

(** [ext->targets[id].partitions[lun]] *)
Definition part_at (x : sim_ext) (id lun : Z) : option partition :=
  t ← targets x !! Z.to_nat id; partitions t !! Z.to_nat lun.
Definition upd_part (id lun : Z) (f : partition -> partition) (x : sim_ext) : sim_ext :=
  set_targets (ntargs x) (alter (fun t => Targ (nluns t) (tblksz t) (alter f (Z.to_nat lun) (partitions t))) (Z.to_nat id) (targets x)) x.
Definition the_part : M (sim L) partition :=
  s ← gets (fun s => part_at (ext s) (target_id (req s)) (target_lun (req s)));
  match s with None => crash | Some p => mret p end.
Definition count (r w t e d : Z) : M (sim L) () :=
  q ← gets req; upd_ext (upd_part (target_id q) (target_lun q) (add_counts r w t e d)).

(** [for( ... ) buffer[i] = bytes] inside of the buffer of the request. *)
Definition put_data (off : nat) (bytes : list Z) : M (sim L) () :=
  l ← gets (fun s => data (req s));
  if decide (off + length bytes <= length l)%nat then upd_req (set_data (list_inserts off bytes l)) else crash.
Definition cdb_byte (i : nat) : M (sim L) Z := gets (fun s => default 0 (cdb (req s) !! i)).

(** ** Errors *)
Definition sense_bytes (key asc ascq : Z) : list Z := [0x70; 0; key; 0; 0; 0; 0; 0; 0; 0; 0; 0; asc; ascq; 0; 0; 0; 0; 0; 0].
Definition sdmmc_sense (key asc ascq : Z) : M (sim L) Z :=
  r ← gets req;
  if negb (func_code r =? XPT_SCSI_IO) then mret CAM_REQ_CMP_ERR
  else
    match sense r with
    | Some l =>
        if has (cam_flags r) CAM_DIS_AUTOSENSE then upd_req (set_cam CAM_REQ_CMP_ERR SCS_CHECK (Some l));; mret CAM_REQ_CMP_ERR
        else if decide (length l < 20)%nat then crash
        else
          upd_req (set_cam (Z.lor CAM_REQ_CMP_ERR CAM_AUTOSNS_VALID) SCS_CHECK (Some (sense_bytes key asc ascq ++ drop 20 l)));;
          mret (Z.lor CAM_REQ_CMP_ERR CAM_AUTOSNS_VALID)
    | None => upd_req (set_cam CAM_REQ_CMP_ERR SCS_CHECK None);; mret CAM_REQ_CMP_ERR
    end.
Definition sdmmc_error (e : errno) : M (sim L) Z :=
  match e with
  | EIO => sdmmc_sense SK_MEDIUM 0 0
  | ENXIO => sdmmc_sense SK_NOT_RDY ASC_MEDIA_NOT_PRESENT 0
  | EACCES => sdmmc_sense SK_ILLEGAL ASC_COPY_PROTECTION ASCQ_READ_SCRAMBLED
  | ENODEV => upd_eflags (fun f => atomic_clr f SDMMC_EFLAG_PRESENT);; mret CAM_NO_HBA
  | EINVAL => sdmmc_sense SK_ILLEGAL ASC_INVALID_FIELD 0
  | EROFS => sdmmc_sense SK_DATA_PROT ASC_WRITE_PROTECTED ASCQ_VU_WRITE_PROTECTED
  | ETIMEDOUT => mret CAM_CMD_TIMEOUT
  | _ => mret CAM_REQ_CMP_ERR
  end.
Definition sdmmc_unit_ready : M (sim L) Z :=
  f ← gets (fun s => eflags (ext s));
  st ← (if has f SDMMC_EFLAG_PRESENT then mret CAM_REQ_CMP else sdmmc_error ENODEV);
  p ← the_part;
  if nlba p =? 0 then sdmmc_error ENXIO else mret st.

(** ** Capacity, mode pages and inquiry: data for the system *)
Definition sdmmc_capacity (action : Z) : M (sim L) Z :=
  x ← gets ext; q ← gets req; p ← the_part;
  let lba := u64 (nlba p - 1) in
  let blksz := default 0 (tblksz <$> targets x !! Z.to_nat (target_id q)) in
  status ← sdmmc_unit_ready;
  if negb (status =? CAM_REQ_CMP) then mret status
  else
    upd_req (fun r => set_cam CAM_REQ_CMP SCS_GOOD (sense r) r);;
    (if action =? SAI_READ_CAPACITY_16 then
       put_data 0 (be_bytes 8 lba ++ be_bytes 4 blksz);;
       put_data 13 [0; if has (di_caps (dev_inf x)) DEV_CAP_TRIM then RD_CAP_TPE else 0; 0]
     else
       put_data 0 (be_bytes 4 (if RD_CAP_MAX_LBA32 <=? lba then RD_CAP_MAX_LBA32 else lba) ++ be_bytes 4 blksz));;
    mret status.
Definition sdmmc_service_action : M (sim L) Z :=
  b ← cdb_byte 1;
  let action := Z.land b SAI_SERVICE_ACTION_MSK in
  if action =? SAI_READ_CAPACITY_16 then sdmmc_capacity action else sdmmc_sense SK_ILLEGAL ASC_INVALID_FIELD 0.

(** [memset( mph, 0, n )]; the caching page is behind the header of 8 bytes. *)
Definition clear_data (n : Z) : M (sim L) () := put_data 0 (replicate (Z.to_nat n) 0).
Definition sdmmc_mpage_rw_err : M (sim L) Z :=
  clear_data 8;; p ← the_part;
  (if has (pflags p) SDMMC_PFLAG_WP then put_data 3 [MP_DS_WP] else mret ());; mret CAM_REQ_CMP.
Definition mpage_caching_select : M (sim L) Z :=
  x ← gets ext; q ← gets req;
  if has (di_caps (dev_inf x)) DEV_CAP_CACHE then
    match data q !! 10%nat with
    | None => crash
    | Some flags =>
        let wce := has flags MP_CACHE_WCE in
        let op := if wce then SDIO_CACHE_ENABLE else SDIO_CACHE_DISABLE in
        e ← lib_call (lib_cache op SDIO_TIME_DEFAULT) (CCache op);
        if decide (e = EOK) then
          upd_eflags (fun f => Z.ldiff f SDMMC_EFLAG_CACHE);;
          (if wce then upd_eflags (fun f => Z.lor f SDMMC_EFLAG_CACHE) else mret ());; mret CAM_REQ_CMP
        else sdmmc_error e
    end
  else sdmmc_error EINVAL.
Definition mpage_caching_sense : M (sim L) Z :=
  x ← gets ext; q ← gets req;
  clear_data (dxfer_len q);; put_data 1 [26];;
  put_data 8 [MP_CACHING; 18; if has (di_caps (dev_inf x)) DEV_CAP_CACHE then MP_CACHE_WCE else 0];;
  mret CAM_REQ_CMP.
Definition sdmmc_mode_select : M (sim L) Z :=
  q ← gets req;
  match data q !! 8%nat with
  | None => crash
  | Some page => if page =? MP_CACHING then mpage_caching_select else sdmmc_error EINVAL
  end.
Definition sdmmc_mode_sense : M (sim L) Z :=
  status ← sdmmc_unit_ready;
  if negb (status =? CAM_REQ_CMP) then mret status
  else
    page ← cdb_byte 2;
    if page =? MP_RW_ERR then sdmmc_mpage_rw_err else if page =? MP_CACHING then mpage_caching_sense else sdmmc_error EINVAL.

Definition sdmmc_evpd_inquiry : M (sim L) Z :=
  x ← gets ext; q ← gets req;
  clear_data (dxfer_len q);;
  page ← cdb_byte 2;
  if page =? INQ_PC_VPD_SUPPORTED then
    if dxfer_len q <? 7 then sdmmc_error EINVAL
    else put_data 0 [D_DIR_ACC; INQ_PC_VPD_SUPPORTED; 0; 3; INQ_PC_VPD_SUPPORTED; INQ_PC_BLOCK_LIMITS; INQ_PC_BLOCK_DEVICE_CHARACTERISTICS];;
         mret CAM_REQ_CMP
  else if page =? INQ_PC_BLOCK_LIMITS then
    if dxfer_len q <? 64 then sdmmc_error EINVAL
    else
      put_data 0 ([D_DIR_ACC; INQ_PC_BLOCK_LIMITS] ++ be_bytes 2 60);; put_data 6 (be_bytes 2 1);;
      (if has (di_caps (dev_inf x)) (Z.lor DEV_CAP_TRIM DEV_CAP_DISCARD)
       then put_data 20 (be_bytes 4 SDMMC_TRIM_MAX_LBA ++ be_bytes 4 1 ++ be_bytes 4 1) else mret ());;
      mret CAM_REQ_CMP
  else if page =? INQ_PC_BLOCK_DEVICE_CHARACTERISTICS then
    if dxfer_len q <? 64 then sdmmc_error EINVAL
    else put_data 0 ([D_DIR_ACC; INQ_PC_BLOCK_DEVICE_CHARACTERISTICS] ++ be_bytes 2 60 ++ be_bytes 2 1);; put_data 7 [0];; mret CAM_REQ_CMP
  else sdmmc_error EINVAL.

(** strlcpy into a field of n bytes: the text up to its end and a 0. *)
Fixpoint c_text (l : list Z) : list Z := match l with [] => [] | b :: r => if b =? 0 then [] else b :: c_text r end.
Definition field_text (n : nat) (l : list Z) : list Z := take (n - 1) (c_text l) ++ [0].
Definition hex_digit (v : Z) : Z := if v <? 10 then v + 48 else v - 10 + 97.
Definition sdmmc_std_inquiry : M (sim L) Z :=
  x ← gets ext; q ← gets req;
  clear_data 96;;
  put_data 0 [D_DIR_ACC; if has (hc_inf_caps x) HC_CAP_SLOT_TYPE_EMBEDDED then 0 else 1; INQ_VER_SPC3];; put_data 4 [91];;
  put_data 8 (field_text 8 [83; 68; 77; 77; 67; 58]);; put_data 16 (field_text 16 (di_pnm (dev_inf x)));;
  put_data 32 [u8 (hex_digit (Z.shiftr (di_prv (dev_inf x)) 4)); 46; hex_digit (Z.land (di_prv (dev_inf x)) 0x0f)];;
  (if 56 <? dxfer_len q then p ← the_part; put_data 36 (field_text 20 (pname p)) else mret ());;
  mret CAM_REQ_CMP.
Definition sdmmc_inquiry : M (sim L) Z :=
  b ← cdb_byte 1; if has b INQ_OPT_EVPD then sdmmc_evpd_inquiry else sdmmc_std_inquiry.
Definition sdmmc_spindle : M (sim L) Z :=
  status ← sdmmc_unit_ready;
  if negb (status =? CAM_REQ_CMP) then mret status
  else b ← cdb_byte 4; if (b =? LD_CMD_STOP) || (b =? LD_CMD_START) then mret CAM_REQ_CMP else sdmmc_error EINVAL.

(** ** Power, the cache and background operations

    The timers of power management are not in the model. *)
Definition sdmmc_pm (op : Z) : M (sim L) errno :=
  x ← gets ext;
  if pm_state x =? op then mret EOK
  else if op =? PM_SLEEP then
    e ← lib_call (lib_power PM_SLEEP) (fun _ => CPower PM_SLEEP);
    upd_ext (set_pm (if decide (e = EOK) then PM_SLEEP else PM_IDLE));; mret EOK
  else if (op =? PM_IDLE) || (op =? PM_ACTIVE) || (op =? PM_SUSPEND) then
    (if (op =? PM_ACTIVE) && ((pm_state x =? PM_SLEEP) || (pm_state x =? PM_SUSPEND)) && has (di_caps (dev_inf x)) DEV_CAP_ASSD
     then upd_eflags (fun f => atomic_set f SDMMC_EFLAG_ASSD_INIT) else mret ());;
    lib_call (lib_power op) (fun _ => CPower op);; upd_ext (set_pm op);; mret EOK
  else mret EINVAL.

(** [for( tidx = 0; tidx <= ntargs; tidx++ ) for( pidx = 0; pidx <= nluns; pidx++ )] *)
Definition flag_part (partition flags : Z) (p : Sim.partition) : Sim.partition :=
  if Z.land (config p) MMC_PART_MSK =? partition then set_pflags (Z.lor (pflags p) flags) p else p.
Definition set_attr (partition flags : Z) (x : sim_ext) : sim_ext :=
  let n := S (Z.to_nat (ntargs x)) in
  let f t := Targ (nluns t) (tblksz t)
    (map (flag_part partition flags) (take (S (Z.to_nat (nluns t))) (partitions t)) ++ drop (S (Z.to_nat (nluns t))) (partitions t)) in
  set_targets (ntargs x) (map f (take n (targets x)) ++ drop n (targets x)) x.
Definition sdmmc_set_partition_attr (partition flags : Z) : M (sim L) () :=
  x ← gets ext;
  if decide (Z.to_nat (ntargs x) < length (targets x))%nat then
    if forallb (fun t => bool_decide (Z.to_nat (nluns t) < length (partitions t))%nat) (take (S (Z.to_nat (ntargs x))) (targets x))
    then upd_ext (set_attr partition flags)
    else crash
  else crash.

Definition dirty_cache (x : sim_ext) : bool := has (di_caps (dev_inf x)) DEV_CAP_CACHE && has (eflags x) SDMMC_EFLAG_CACHE.
Definition sdmmc_cache_flush : M (sim L) errno :=
  x ← gets ext;
  if dirty_cache x && has (eflags x) SDMMC_EFLAG_VCACHE_DIRTY then
    e ← lib_call (lib_cache SDIO_CACHE_FLUSH (SDIO_TIME_DEFAULT * 5)) (CCache SDIO_CACHE_FLUSH);
    (if decide (e = EOK) then upd_eflags (fun f => Z.ldiff f SDMMC_EFLAG_VCACHE_DIRTY) else mret ());; mret e
  else mret EOK.
(** The result is an errno or a status of CAM. *)
Definition sdmmc_sync : M (sim L) Z :=
  x ← gets ext;
  if negb (has (eflags x) SDMMC_EFLAG_PRESENT) then mret CAM_REQ_CMP
  else
    status ← sdmmc_unit_ready;
    if negb (status =? CAM_REQ_CMP) then mret status
    else e ← sdmmc_cache_flush; mret (if decide (e = EOK) then CAM_REQ_CMP else errno_no e).

Definition sdmmc_bkops_cfg (op : bool) : M (sim L) errno :=
  x ← gets ext; let c := di_caps (dev_inf x) in
  if negb (has c DEV_CAP_BKOPS) then mret ENOTSUP
  else
    let bkop := if has (eflags x) SDMMC_EFLAG_BKOPS then ECSD_BKOPS_ENABLE else 0 in
    let bkop := if op && has c DEV_CAP_BKOPS_AUTO && has (eflags x) SDMMC_EFLAG_BKOPS_AUTO then Z.lor bkop ECSD_BKOPS_AUTO_EN else bkop in
    lib_call (lib_switch ECSD_BKOPS_EN bkop SDIO_TIME_DEFAULT) (CSwitch ECSD_BKOPS_EN bkop).
Definition sdmmc_dev_cfg : M (sim L) () :=
  x ← gets ext;
  let op := if has (eflags x) SDMMC_EFLAG_CACHE then SDIO_CACHE_ENABLE else SDIO_CACHE_DISABLE in
  (if has (di_caps (dev_inf x)) DEV_CAP_CACHE then
     e ← lib_call (lib_cache op SDIO_TIME_DEFAULT) (CCache op);
     if decide (e = EOK) then mret () else upd_eflags (fun f => Z.ldiff f SDMMC_EFLAG_CACHE)
   else mret ());;
  (if dtype x =? DEV_TYPE_MMC then
     ecsd ← gets (fun s => raw_ecsd (lib s));
     (if has (default 0 (ecsd !! Z.to_nat ECSD_BKOPS_EN)) ECSD_BKOPS_ENABLE
      then upd_eflags (fun f => Z.lor f SDMMC_EFLAG_BKOPS) else mret ());;
     e ← sdmmc_bkops_cfg true;
     (if decide (e = EOK) then mret () else upd_eflags (fun f => Z.ldiff f SDMMC_EFLAG_BKOPS));;
     upd_ext (fun x => if has (eflags x) SDMMC_EFLAG_RELWR && negb (has (di_caps (dev_inf x)) DEV_CAP_WR_REL)
                       then set_eflags (Z.ldiff (eflags x) SDMMC_EFLAG_RELWR) x else x)
   else mret ());;
  f ← gets (fun s => eflags (ext s));
  (if has f SDMMC_EFLAG_PWROFF_NOTIFY then
     e ← lib_call (lib_notify ECSD_POWERED_ON SDIO_TIME_DEFAULT) (CNotify ECSD_POWERED_ON);
     if decide (e = EOK) then mret () else upd_eflags (fun f => Z.ldiff f SDMMC_EFLAG_PWROFF_NOTIFY)
   else mret ());;
  if has (di_caps (dev_inf x)) DEV_CAP_ASSD then lib_call lib_assd_init (fun _ => CAssd) else mret ().

Definition sdmmc_reset : M (sim L) errno :=
  lib_call lib_reset (fun _ => CReset);;
  x ← gets ext;
  (if dirty_cache x then
     (if has (eflags x) SDMMC_EFLAG_VCACHE_DIRTY then sdmmc_set_partition_attr MMC_PART_USER SDMMC_PFLAG_WP else mret ());;
     upd_eflags (fun f => Z.ldiff f SDMMC_EFLAG_CACHE)
   else mret ());;
  sdmmc_dev_cfg;; mret EOK.

(** [tick] is true for a timer event. *)
Definition sdmmc_bkops (tick : bool) : M (sim L) errno :=
  x ← gets ext;
  if negb (has (eflags x) SDMMC_EFLAG_BKOPS) || (drvr_state x =? SDMMC_DRVR_PAUSE) then mret EOK
  else if has (bkops_status x) BKOPS_STATUS_OPERATIONS_INPROG then
    sdmmc_pm PM_ACTIVE;;
    if tick then mret EOK
    else
      e ← lib_call (lib_hpi 500) CHpi;
      (if decide (e = EOK) then mret () else sdmmc_reset;; mret ());;
      upd_ext (fun x => set_bkops (bkops_ticks x) BKOPS_STATUS_OPERATIONS_NONE x);; mret e
  else
    (if tick then
       sdmmc_pm PM_ACTIVE;;
       upd_ext (fun x => if bkops_status x =? 0 then x else set_bkops (u32 (bkops_ticks x + 1)) (bkops_status x) x);;
       r ← lib_call lib_ext_csd (fun r => CEcsd (fst r));
       let v := default 0 (snd r !! Z.to_nat ECSD_BKOPS_STATUS) in
       upd_ext (fun x => if bool_decide (fst r = EOK) && negb (bkops_status x =? v) then set_bkops 0 v x else x)
     else mret ());;
    x ← gets ext;
    let st := bkops_status x in
    let start :=
      ((st =? BKOPS_STATUS_OPERATIONS_NON_CRITICAL) && (BKOPS_NC_TICKS <=? bkops_ticks x)) ||
      ((st =? BKOPS_STATUS_OPERATIONS_IMPACTED) && (BKOPS_IMPACTED_TICKS <=? bkops_ticks x)) || (st =? BKOPS_STATUS_OPERATIONS_CRITICAL) in
    if start then
      e ← lib_call (lib_switch ECSD_BKOPS_START ECSD_BKOPS_INITIATE (if tick then 0 else SDIO_TIME_DEFAULT * 5))
            (CSwitch ECSD_BKOPS_START ECSD_BKOPS_INITIATE);
      (if decide (e = EOK) then upd_ext (fun x => set_bkops 0 (Z.lor (bkops_status x) BKOPS_STATUS_OPERATIONS_INPROG) x)
       else if decide (e = ETIMEDOUT) then
         e ← lib_call (lib_hpi 0) CHpi; if decide (e = EOK) then mret () else sdmmc_reset;; mret ()
       else mret ());;
      mret EOK
    else mret EOK.

(** ** Reading and writing *)
Definition rw_flags (x : sim_ext) (flgs dlen : Z) : Z :=
  let flgs := if di_sector_size (dev_inf x) <? dlen then
      let f := if negb (has (hc_inf_caps x) HC_CAP_ACMD12) && has (di_caps (dev_inf x)) DEV_CAP_CMD23 then Z.lor flgs SCF_SBC else flgs in
      Z.lor f SCF_MULTIBLK
    else flgs in
  if has flgs SCF_SBC_RLW then Z.lor flgs (Z.lor SCF_SBC SCF_MULTIBLK) else flgs.
Definition rw_addr (x : sim_ext) (addr : Z) : Z :=
  if has (di_caps (dev_inf x)) DEV_CAP_HC then addr else u64 (addr * di_sector_size (dev_inf x)).
Definition rw_opcode (flgs : Z) : Z :=
  let op := if has flgs SCF_DIR_IN then MMC_READ_SINGLE_BLOCK else MMC_WRITE_BLOCK in
  if has flgs SCF_MULTIBLK then op + 1 else op.
Definition rw_cmd (x : sim_ext) (flgs addr dlen : Z) (sgl : list sge) (c : sdio_cmd_t) : sdio_cmd_t :=
  let flgs := rw_flags x flgs dlen in
  let a := rw_addr x addr in
  sdio_setup_cmd_io (sdio_setup_cmd c (Z.lor SCF_CTYPE_ADTC SCF_RSP_R1) (rw_opcode flgs) a)
    (if SC_RW_MAX_LBA32 <? a then Z.lor flgs SCF_SUA else flgs)
    (dlen / di_sector_size (dev_inf x)) (di_sector_size (dev_inf x)) sgl.

(** The card is not ready for data or not in the transfer state. *)
Definition not_ready (rsp : Z) : bool := negb (Z.land rsp READY_MSK =? READY).
Definition call_status (rsp : Z) : M (sim L) (bool * Z) :=
  x ← lib_call lib_status (fun r => CStatus (fst r) (snd r));
  let '(e, r) := x in
  let rsp := if decide (e = EOK) then r else rsp in
  mret (negb (bool_decide (e = EOK)) || not_ready rsp, rsp).
Definition call_stop : M (sim L) errno := lib_call lib_stop CStop.

(** What is left to do after the command: the result and the response. *)
Definition rw_failed (status : errno) (rsp : Z) : M (sim L) (errno * Z) :=
  x ← call_status rsp;
  let '(bad, rsp) := x in
  if (bad : bool) then e ← call_stop; mret (if decide (e = EOK) then status else ETIMEDOUT, rsp) else mret (status, rsp).
Definition rw_done (flgs dlen timeout rsp : Z) : M (sim L) (errno * Z) :=
  x ← gets ext; p ← the_part;
  status ← (if has flgs SCF_MULTIBLK && negb (has flgs SCF_SBC) && (di_sector_size (dev_inf x) <? dlen) &&
               negb (has (hc_inf_caps x) HC_CAP_ACMD12)
            then e ← call_stop; mret (if decide (e = EOK) then EOK else ETIMEDOUT) else mret EOK);
  r ← (if bool_decide (status = EOK) && has flgs SCF_DIR_OUT then
         w ← lib_call (lib_wait READY_MSK READY timeout rsp) (fun w => CWait (fst w) (snd w));
         (if decide (fst w = EOK) then mret () else call_stop;; mret ());; mret w
       else mret (status, rsp));
  let blks := dlen / di_sector_size (dev_inf x) in
  (if negb (Z.land (config p) MMC_PART_MSK =? MMC_PART_RPMB)
   then if has flgs SCF_DIR_IN then count blks 0 0 0 0 else count 0 blks 0 0 0 else mret ());;
  mret r.

(** The status of the command and the bits of the response. *)
Definition rw_result (status : errno) (cs rsp : Z) : errno :=
  let status := if cs =? CS_CMD_CMP then status else ETIMEDOUT in
  let status := if has rsp CDS_ERROR then EIO else status in
  let status := if has rsp CDS_WP_VIOLATION then EROFS else status in
  let status := if has rsp CDS_CARD_IS_LOCKED then EACCES else status in
  if has rsp CDS_CARD_ECC_FAILED then EIO else status.
Definition rw_recover (flgs : Z) (status : errno) (bus_err : bool) (rsp : Z) : M (sim L) () :=
  b ← call_status rsp;
  (if (fst b : bool) then sdmmc_reset;; mret () else mret ());;
  x ← gets ext;
  (if bus_err && (dtype x =? DEV_TYPE_SD) then lib_call lib_bus_error (fun _ => CBusError);; mret () else mret ());;
  k ← gets lib; upd_ext (set_dev_inf (lib_dev_info k));;
  if bool_decide (status = ETIMEDOUT) && has flgs SCF_SBC && (dtype x =? DEV_TYPE_SD)
  then upd_ext (fun x => set_dev_inf (set_di_caps (Z.ldiff (di_caps (dev_inf x)) DEV_CAP_CMD23) (dev_inf x)) x) else mret ().

Definition rw_end (flgs : Z) (c' : sdio_cmd_t) (y : errno * Z) : M (sim L) errno :=
  let rsp := snd y in
  let status := rw_result (fst y) (cstatus c') rsp in
  (if has rsp CDS_URGENT_BKOPS then upd_ext (fun x => set_bkops (bkops_ticks x) ECSD_BS_OPERATIONS_CRITICAL x) else mret ());;
  (if decide (status = EOK) then mret ()
   else rw_recover flgs status ((cstatus c' =? CS_DATA_CRC_ERR) || (cstatus c' =? CS_DATA_END_ERR)) rsp);;
  mret status.
Definition sdmmc_rw (flgs addr dlen : Z) (sgl : list sge) (timeout : Z) : M (sim L) errno :=
  x ← gets ext;
  let timeout := u32 (timeout * 1000) in
  if di_sector_size (dev_inf x) =? 0 then crash
  else
    o ← lib_quiet lib_alloc;
    match (o : option sdio_cmd_t) with
    | None => mret ENOMEM
    | Some c =>
        r ← lib_send_cmd (rw_cmd x flgs addr dlen sgl c) (Z.shiftr (rw_addr x addr) 32) timeout;
        if decide (fst r = ENXIO) then mret ENXIO
        else
          let flgs := rw_flags x flgs dlen in
          y ← (if decide (fst r = EOK) then rw_done flgs dlen timeout (rsp0 (snd r)) else rw_failed (fst r) (rsp0 (snd r)));
          rw_end flgs (snd r) y
    end.

(** The legacy reliable write: one entry of the scatter list, in pieces. *)
Definition addr_aligned (addr align : Z) : bool := Z.land addr (u64 (align - 1)) =? 0.
Definition piece (lba rel sg_count : Z) : Z :=
  let rel_wr_count := u32 (rel * 512) in
  let count := if addr_aligned lba rel then sg_count else 512 in
  if rel_wr_count <? count then rel_wr_count else 512.
Fixpoint rel_entry (fuel : nat) (flgs lba addr n : Z) : M (sim L) (errno * Z) :=
  match fuel with
  | O => crash
  | S k =>
      if n =? 0 then mret (EOK, lba)
      else
        x ← gets ext; q ← gets req;
        let count := piece lba (di_rel_wr_sec_c (dev_inf x)) n in
        e ← sdmmc_rw flgs lba count [Sge addr count] (cam_timeout q);
        if decide (e <> EOK) then mret (e, lba)
        else rel_entry k flgs (u64 (lba + count / 512)) (u64 (addr + count)) (u32 (n - count))
  end.
Fixpoint rel_write (flgs lba : Z) (l : list sge) : M (sim L) errno :=
  match l with
  | [] => mret EOK
  | e :: r =>
      x ← rel_entry (S (Z.to_nat (sg_count e))) flgs lba (sg_address e) (sg_count e);
      let '(status, lba) := x in
      if decide (status <> EOK) then mret status else rel_write flgs lba r
  end.

(** The scatter list of the request. *)
Definition req_sgl (q : ccb) : list sge := if has (cam_flags q) CAM_SCATTER_VALID then sg_list q else [Sge (data_ptr q) (dxfer_len q)].
Definition write_flags (x : sim_ext) (flgs opt : Z) : Z :=
  if has flgs SCF_DIR_OUT &&
     (has (eflags x) SDMMC_EFLAG_RELWR || (has opt RW_OPT_FUA && has (di_caps (dev_inf x)) DEV_CAP_WR_REL))
  then Z.lor flgs SCF_SBC_RLW else flgs.
Definition start_block (p : partition) (lba : Z) : Z := u64 ((if blk_shft p =? 0 then lba else u64 (Z.shiftl lba (blk_shft p))) + slba p).
Definition sdmmc_read_write (flgs : Z) : M (sim L) Z :=
  p ← the_part;
  status ← sdmmc_unit_ready;
  if negb (status =? CAM_REQ_CMP) then mret status
  else
    x ← gets ext; q ← gets req;
    if has (di_flags (dev_inf x)) DEV_FLAG_CARD_LOCKED then sdmmc_error EACCES
    else if has flgs SCF_DIR_OUT && has (pflags p) SDMMC_PFLAG_WP then sdmmc_error EROFS
    else if Z.land (config p) MMC_PART_MSK =? MMC_PART_RPMB then mret CAM_PROVIDE_FAIL
    else
      e ← lib_call (lib_partition (config p)) (CPartition (config p));
      if decide (e <> EOK) then sdmmc_reset;; sdmmc_error ETIMEDOUT
      else
        let flgs := write_flags x flgs (default 0 (cdb q !! 1%nat)) in
        sdmmc_bkops false;;
        let flgs := if has (cam_flags q) CAM_DATA_PHYS then Z.lor flgs SCF_DATA_PHYS else flgs in
        let lba := start_block p (fst (sdmmc_ccb_lba (cdb q))) in
        x ← gets ext;
        e ← (if has flgs SCF_SBC_RLW && negb (has (di_caps (dev_inf x)) DEV_CAP_WR_REL_ENH)
             then rel_write flgs lba (req_sgl q)
             else sdmmc_rw flgs lba (dxfer_len q) (req_sgl q) (cam_timeout q));
        if decide (e = EOK) then mret CAM_REQ_CMP else sdmmc_error e.

(** ** Erasing *)

(** [part] is re-read for its counters after the call of the library. *)
Definition erase_call (type lba n : Z) : M (sim L) errno :=
  p ← the_part; lib_call (lib_erase (config p) type lba n) (CErase (config p) type lba n).
Definition sdmmc_write_same : M (sim L) Z :=
  x ← gets ext; q ← gets req; p ← the_part;
  let lba := u64 (bytes_of (cdb q) 2 8 + slba p) in
  let n := bytes_of (cdb q) 10 4 in
  status ← sdmmc_unit_ready;
  if negb (status =? CAM_REQ_CMP) then mret status
  else if negb (has (di_caps (dev_inf x)) DEV_CAP_TRIM) || negb (has (default 0 (cdb q !! 1%nat)) WS_OPT_UNMAP) then sdmmc_error EINVAL
  else
    e ← erase_call MMC_ERASE_TRIM lba n;
    if decide (e = EOK) then count 0 0 n 0 0;; mret CAM_REQ_CMP else sdmmc_error e.
Definition sdmmc_erase12 : M (sim L) Z :=
  x ← gets ext; q ← gets req; p ← the_part;
  let egs := di_erase_size (dev_inf x) / 512 in
  let lba := u32 (bytes_of (cdb q) 2 4 + slba p) in
  let n := bytes_of (cdb q) 6 4 in
  let pend := u32 (slba p + nlba p - 1) in
  status ← sdmmc_unit_ready;
  if negb (status =? CAM_REQ_CMP) then mret status
  else if (pend <? lba) || (pend <? u32 (lba + n - 1)) then sdmmc_error EINVAL
  else if egs =? 0 then crash
  else if negb (lba mod egs =? 0) || negb (n mod egs =? 0) then sdmmc_error EINVAL
  else
    e ← erase_call MMC_ERASE_SECURE lba n;
    if decide (e = EOK) then count 0 0 0 n 0;; mret CAM_REQ_CMP else sdmmc_error e.
End sim.
