(* ===== verification/SimReq.v ===== *)
(** * Requests of the SCSI layer (devb/sdmmc/sim_sdmmc.c)

    On top of Sim.v: the partitions of a card, the device controls that erase
    and protect, the update of a card's firmware, the dispatch of SCSI
    commands and what sdmmc_start_ccb does with one request. *)
From S2P Require Import Prelude Driver SdioReg SdioConst Sdhci SdioCmd SimConst Sim.
Open Scope Z_scope.

(** ** Data of the device controls *)
Record sdmmc_erase := Erase { er_action : Z; er_lba : Z; er_nlba : Z }.
Record sdmmc_write_protect_t := Wp { wp_action : Z; wp_mode : Z; wp_lba : Z; wp_nlba : Z; wp_prot : Z }.

(** DATA_SET_MGNT with its ranges: first block and number of blocks. *)
Record data_set_mgnt := Dsm { dsm_opt : Z; ranges : list (Z * Z) }.

(** The text of a partition's name. *)
Definition name_uda : list Z := [117; 100; 97].
Definition name_boot : list Z := [98; 111; 111; 116].
Definition name_rpmb : list Z := [114; 112; 109; 98].
Definition name_gp : list Z := [103; 112].

Definition ecsd_byte (ecsd : list Z) (i : Z) : Z := default 0 (ecsd !! Z.to_nat i).

Section req.
Context {L : Type} `{sdio_lib L} (errno_no : errno -> Z) (D_DIR_ACC : Z).

(** ** Partitions *)

(** config, slba, nlba, elba and name of a partition. *)
Definition place (c s n e : Z) (name : list Z) (p : partition) : partition :=
  Part (pflags p) c name (blk_shft p) s e n (rcnt p) (wcnt p) (tcnt p) (ecnt p) (dcnt p).
Definition with_part (id : Z) (f : partition -> partition) : M (sim L) () :=
  x ← gets ext; match part_at x id 0 with None => crash | Some _ => upd_ext (upd_part id 0 f) end.
Definition add_target : M (sim L) () := upd_ext (fun x => set_targets (u32 (ntargs x + 1)) (targets x) x).
Definition enhanced (b : bool) (p : partition) : partition := if b then set_pflags (Z.lor (pflags p) SDMMC_PFLAG_ENH) p else p.
Fixpoint for_each {A} (l : list A) (f : A -> M (sim L) ()) : M (sim L) () :=
  match l with [] => mret () | a :: r => f a;; for_each r f end.

(** Boot areas are targets 1 and 2, RPMB is 3, the general purpose ones 4 to 7. *)
Definition boot_part (ecsd : list Z) (pconf pidx : Z) : M (sim L) () :=
  let n := u64 (ecsd_byte ecsd ECSD_BOOT_SIZE_MULT * MMC_BOOT_SIZE_MULT) / 512 in
  with_part (1 + pidx) (fun p => enhanced (has (ecsd_byte ecsd ECSD_PARTITIONING_SUP) ECSD_PS_PART_EN)
    (place (Z.lor pconf (1 + pidx)) 0 n (u64 (n - 1)) name_boot p));;
  add_target.
Definition rpmb_part (ecsd : list Z) (pconf : Z) : M (sim L) () :=
  let n := u64 (ecsd_byte ecsd ECSD_RPMB_SIZE_MULT * MMC_RPMB_SIZE_MULT) / 512 in
  with_part 3 (place (Z.lor pconf 3) 0 n (u64 (n - 1)) name_rpmb);; add_target.
Definition gp_part (ecsd : list Z) (pconf wp_grp_size pidx : Z) : M (sim L) () :=
  let b i := ecsd_byte ecsd (ECSD_GP_SIZE + i + pidx * 3) in
  let gp_size := Z.lor (Z.lor (b 0) (Z.shiftl (b 1) 8)) (Z.shiftl (b 2) 16) in
  let n := u32 (u64 (gp_size * wp_grp_size) / 512) in
  with_part (4 + pidx) (fun p => enhanced (has (ecsd_byte ecsd ECSD_PARTITIONS_ATTR) (Z.shiftl ECSD_PA_ENH_1 pidx))
    (place (Z.lor pconf (4 + pidx)) 0 n (if n =? 0 then 0 else n - 1) name_gp p));;
  add_target.
Definition sdmmc_partition_enum : M (sim L) () :=
  ecsd ← gets (fun s => raw_ecsd (lib s));
  let pconf := Z.ldiff (ecsd_byte ecsd ECSD_PART_CONFIG) ECSD_PC_ACCESS_MSK in
  let wp_grp_size := u64 (ecsd_byte ecsd ECSD_HC_WP_GRP_SIZE * ecsd_byte ecsd ECSD_ERASE_GRP_SIZE * MMC_ERASE_GRP_512K) in
  for_each [0; 1] (boot_part ecsd pconf);;
  rpmb_part ecsd pconf;;
  for_each [0; 1; 2; 3] (gp_part ecsd pconf wp_grp_size).
Definition sdmmc_partition_config : M (sim L) () :=
  x ← gets ext;
  let n := di_sectors (dev_inf x) in
  upd_ext (fun x => set_targets (ntargs x)
    (map (fun t => Targ (nluns t) (di_sector_size (dev_inf x)) (partitions t)) (targets x)) x);;
  with_part 0 (fun p => place 0 0 n (u64 (n - 1)) name_uda
    (if has (di_flags (dev_inf x)) DEV_FLAG_WP then set_pflags (Z.lor (pflags p) SDMMC_PFLAG_WP) p else p));;
  if dtype x =? DEV_TYPE_MMC then
    ecsd ← gets (fun s => raw_ecsd (lib s));
    with_part 0 (fun p => place (Z.ldiff (ecsd_byte ecsd ECSD_PART_CONFIG) ECSD_PC_ACCESS_MSK) (slba p) (nlba p) (elba p) (pname p) p);;
    if has (eflags x) SDMMC_EFLAG_PARTITIONS then sdmmc_partition_enum else mret ()
  else mret ().

(** ** Device controls

    Each returns CAM_REQ_CMP; the result here is cam_devctl_status. *)

(** The range of [n] blocks from [lba] is outside of the partition. *)
Definition outside (p : partition) (lba n : Z) : bool :=
  let pend := u64 (slba p + nlba p - 1) in (pend <? lba) || (pend <? u64 (lba + n - 1)).
Definition erase_and (type lba n : Z) (c : M (sim L) ()) : M (sim L) errno :=
  e ← erase_call type lba n; (if decide (e = EOK) then c else mret ());; mret e.
Definition all_of (v mask : Z) : bool := Z.land v mask =? mask.
Definition sdmmc_erase_devctl (er : sdmmc_erase) : M (sim L) errno :=
  x ← gets ext; p ← the_part;
  let caps := di_caps (dev_inf x) in
  let egs := di_erase_size (dev_inf x) / 512 in
  let n := u32 (er_nlba er) in
  let lba := u64 (slba p + er_lba er) in
  let a := er_action er in
  let by_groups := fun m => if egs =? 0 then crash else if (lba mod egs =? 0) && (n mod egs =? 0) then m else mret EINVAL in
  st ← sdmmc_unit_ready;
  if negb (st =? CAM_REQ_CMP) then mret EIO
  else if outside p lba n then mret EINVAL
  else if a =? SDMMC_ERASE_ACTION_NORMAL then by_groups (erase_and MMC_ERASE_NORM lba n (count 0 0 0 n 0))
  else if a =? SDMMC_ERASE_ACTION_SECURE then
    if has caps DEV_CAP_SECURE then by_groups (erase_and MMC_ERASE_SECURE lba n (count 0 0 0 n 0)) else mret EINVAL
  else if a =? SDMMC_ERASE_ACTION_TRIM then
    if has caps DEV_CAP_TRIM then erase_and MMC_ERASE_TRIM lba n (count 0 0 n 0 0) else mret EINVAL
  else if a =? SDMMC_ERASE_ACTION_SECURE_TRIM then
    if all_of caps DEV_CAP_SECURE_TRIM then erase_and MMC_ERASE_SECURE_TRIM lba n (count 0 0 n 0 0) else mret EINVAL
  else if a =? SDMMC_ERASE_ACTION_SECURE_PURGE then
    if all_of caps DEV_CAP_SECURE_TRIM then erase_and MMC_ERASE_SECURE_TRIM_PURGE lba n (mret ()) else mret EINVAL
  else if a =? SDMMC_ERASE_ACTION_DISCARD then
    if has caps DEV_CAP_TRIM then erase_and MMC_ERASE_DISCARD lba n (count 0 0 0 0 n) else mret EINVAL
  else mret EINVAL.

Definition dsm_count (type n : Z) : M (sim L) () :=
  if type =? MMC_ERASE_TRIM then count 0 0 n 0 0 else if type =? MMC_ERASE_DISCARD then count 0 0 0 0 n else mret ().
Fixpoint sdmmc_dsm (p : partition) (l : list (Z * Z)) (type : Z) : M (sim L) errno :=
  match l with
  | [] => mret EOK
  | (a, n) :: r =>
      let lba := u64 (slba p + a) in
      let n := u32 n in
      if outside p lba n then mret EINVAL
      else
        e ← erase_call type lba n;
        if decide (e <> EOK) then mret e else dsm_count type n;; sdmmc_dsm p r type
  end.

(** The options and the sizes are those of the system's headers. *)
Section dsm.
Context (DSM_OPT_TRIM DSM_OPT_DISCARD sizeof_dsm sizeof_range : Z).
Definition sdmmc_dsm_devctl (size : Z) (d : data_set_mgnt) : M (sim L) errno :=
  x ← gets ext; p ← the_part;
  st ← sdmmc_unit_ready;
  if negb (st =? CAM_REQ_CMP) then mret EIO
  else if size <? sizeof_dsm + sizeof_range * Z.of_nat (length (ranges d)) then mret EINVAL
  else if dsm_opt d =? DSM_OPT_TRIM then
    if has (di_caps (dev_inf x)) DEV_CAP_TRIM then sdmmc_dsm p (ranges d) MMC_ERASE_TRIM else mret EINVAL
  else if dsm_opt d =? DSM_OPT_DISCARD then
    if has (di_caps (dev_inf x)) DEV_CAP_DISCARD then sdmmc_dsm p (ranges d) MMC_ERASE_DISCARD else mret EINVAL
  else mret EINVAL.
End dsm.

(** The groups of a range, one command each. *)
Definition wp_addr (x : sim_ext) (lba : Z) : Z :=
  if has (di_caps (dev_inf x)) DEV_CAP_HC then lba else u64 (lba * di_sector_size (dev_inf x)).
Fixpoint wp_loop (fuel : nat) (op grp lba n : Z) (c : sdio_cmd_t) : M (sim L) errno :=
  if n =? 0 then mret EOK
  else
    match fuel with
    | O => crash
    | S k =>
        x ← gets ext;
        let c := sdio_setup_cmd c (Z.lor SCF_CTYPE_AC (Z.lor SCF_RSP_R1B SCF_WAIT_DRDY)) op (wp_addr x lba) in
        r ← lib_send_cmd c 0 (SDMMC_TIME_DEFAULT * 1000);
        if decide (fst r <> EOK) then mret (fst r)
        else wp_loop k op grp (u64 (lba + grp)) (n - Z.min n grp) (snd r)
    end.
Definition wp_mode_of (ecsd : list Z) (mode : Z) : Z :=
  if has mode SDMMC_WP_MODE_PWR_WP_EN then
    Z.lor (Z.ldiff (ecsd_byte ecsd ECSD_USER_WP)
      (Z.lor ECSD_USER_WP_US_PWR_WP_EN (Z.lor ECSD_USER_WP_US_PERM_WP_EN ECSD_USER_WP_US_PWR_WP_DIS))) mode
  else Z.ldiff (ecsd_byte ecsd ECSD_USER_WP) (Z.lor ECSD_USER_WP_US_PWR_WP_EN ECSD_USER_WP_US_PERM_WP_EN).
Definition wp_switch (index value : Z) : M (sim L) errno :=
  lib_call (lib_switch index value SDIO_TIME_DEFAULT) (CSwitch index value).
Definition wp_setup (partition mode : Z) : M (sim L) errno :=
  ecsd ← gets (fun s => raw_ecsd (lib s));
  let k := Z.land partition MMC_PART_MSK in
  if k =? MMC_PART_USER then wp_switch ECSD_USER_WP (u8 (wp_mode_of ecsd mode))
  else if (k =? MMC_PART_BOOT1) || (k =? MMC_PART_BOOT2) then wp_switch ECSD_BOOT_WP mode
  else mret EINVAL.

(** The bits of the groups from [lba] on, in a buffer. *)
Definition wp_read (op lba prot : Z) (c : sdio_cmd_t) : M (sim L) (errno * Z) :=
  x ← gets ext;
  let sz := if (op =? MMC_SEND_WRITE_PROT_TYPE) && (ECSD_REV_V4_41 <=? di_spec_rev (dev_inf x))
            then MMC_SEND_WRITE_PROT_TYPE_SIZE else MMC_SEND_WRITE_PROT_SIZE in
  o ← lib_quiet (lib_buffer sz);
  match (o : option Z) with
  | None => mret (ENOMEM, prot)
  | Some a =>
      let c := sdio_setup_cmd_io (sdio_setup_cmd c (Z.lor SCF_CTYPE_ADTC SCF_RSP_R1) op (wp_addr x lba)) SCF_DIR_IN 1 sz [Sge a sz] in
      r ← lib_send_cmd c 0 (SDMMC_TIME_DEFAULT * 1000);
      l ← gets (fun s => lib_bytes a sz (lib s));
      mret (fst r, if decide (fst r = EOK) then be_value l else prot)
  end.
Definition sdmmc_write_protect (op partition mode lba n prot : Z) : M (sim L) (errno * Z) :=
  x ← gets ext;
  let grp := di_wp_size (dev_inf x) / 512 in
  if grp =? 0 then mret (ENOTSUP, prot)
  else if negb (lba mod grp =? 0) then mret (EINVAL, prot)
  else
    e ← lib_call (lib_partition partition) (CPartition partition);
    if decide (e <> EOK) then mret (e, prot)
    else
      e ← (if op =? MMC_SET_WRITE_PROT then wp_setup partition mode else mret EOK);
      if decide (e <> EOK) then mret (e, prot)
      else
        o ← lib_quiet lib_alloc;
        match (o : option sdio_cmd_t) with
        | None => mret (ENOMEM, prot)
        | Some c =>
            if (op =? MMC_SET_WRITE_PROT) || (op =? MMC_CLR_WRITE_PROT) then
              e ← wp_loop (Z.to_nat n) op grp lba n c; mret (e, prot)
            else if (op =? MMC_SEND_WRITE_PROT) || (op =? MMC_SEND_WRITE_PROT_TYPE) then wp_read op lba prot c
            else mret (EINVAL, prot)
        end.
Definition wp_op (a : Z) : Z :=
  if a =? SDMMC_WP_ACTION_CLR then MMC_CLR_WRITE_PROT
  else if a =? SDMMC_WP_ACTION_SET then MMC_SET_WRITE_PROT
  else if a =? SDMMC_WP_ACTION_PROT then MMC_SEND_WRITE_PROT
  else if a =? SDMMC_WP_ACTION_PROT_TYPE then MMC_SEND_WRITE_PROT_TYPE else 0.
Definition sdmmc_wp_devctl (w : sdmmc_write_protect_t) : M (sim L) (errno * sdmmc_write_protect_t) :=
  x ← gets ext; p ← the_part;
  let n := u32 (Z.max 1 (wp_nlba w)) in
  let lba := u64 (slba p + wp_lba w) in
  let mode := Z.land (wp_mode w) SDMMC_WP_MODE_PWR_WP_EN in
  let op := wp_op (wp_action w) in
  let ans := fun (r : errno * Z) => (fst r, Wp (wp_action w) mode (wp_lba w) (wp_nlba w) (snd r)) in
  st ← sdmmc_unit_ready;
  if negb (st =? CAM_REQ_CMP) then mret (ans (EIO, wp_prot w))
  else if (op =? 0) || outside p lba n then mret (ans (EINVAL, wp_prot w))
  else if negb (dtype x =? DEV_TYPE_MMC) then mret (ans (ENOTSUP, wp_prot w))
  else r ← sdmmc_write_protect op (config p) mode lba n (wp_prot w); mret (ans r).

(** ** The firmware of a card: the result is an errno or a status of CAM *)
Definition set_sector_size (v : Z) (d : dev_info) : dev_info :=
  DevInfo (di_caps d) (di_flags d) (di_sectors d) v (di_erase_size d) (di_wp_size d) (di_rel_wr_sec_c d)
    (di_prv d) (di_pnm d) (di_spec_rev d).
Definition upd_sector_size (v : Z) : M (sim L) () := upd_ext (fun x => set_dev_inf (set_sector_size v (dev_inf x)) x).
Definition or_cmp (e : errno) : M (sim L) Z := mret (if decide (e = EOK) then CAM_REQ_CMP else errno_no e).

(** Flush, background operations off, the mode of the card: before the first chunk. *)
Definition ffu_enter : M (sim L) errno :=
  x ← gets ext;
  e ← (if dirty_cache x then lib_call (lib_cache SDIO_CACHE_FLUSH (SDIO_TIME_DEFAULT * 5)) (CCache SDIO_CACHE_FLUSH) else mret EOK);
  if decide (e <> EOK) then mret e
  else
    e ← (if has (eflags x) SDMMC_EFLAG_BKOPS_AUTO then sdmmc_bkops_cfg false else mret EOK);
    if decide (e <> EOK) then mret e else wp_switch ECSD_MODE_CONFIG ECSD_MODE_FFU.
Definition ffu_write (dssize : Z) : M (sim L) Z :=
  q ← gets req; x ← gets ext;
  e ← (if di_sector_size (dev_inf x) =? dssize then mret EOK
       else lib_call (lib_block_length dssize) (CBlockLength dssize));
  if decide (e <> EOK) then mret (errno_no EIO)
  else
    upd_sector_size dssize;;
    let flgs := if has (cam_flags q) CAM_DATA_PHYS then Z.lor SCF_DIR_OUT SCF_DATA_PHYS else SCF_DIR_OUT in
    ecsd ← gets (fun s => raw_ecsd (lib s));
    e ← sdmmc_rw flgs (le_value (take 4 (drop (Z.to_nat ECSD_FFU_ARG) ecsd))) (dxfer_len q) (req_sgl q) (cam_timeout q);
    k ← gets lib; upd_sector_size (ecsd_blksz k);;
    or_cmp e.
Definition sdmmc_ffu : M (sim L) Z :=
  x ← gets ext; q ← gets req; ecsd ← gets (fun s => raw_ecsd (lib s));
  mode ← cdb_byte 1; buffer ← cdb_byte 2;
  if negb (dtype x =? DEV_TYPE_MMC) || (ecsd_byte ecsd ECSD_REV <? ECSD_REV_V5) ||
     negb (has (ecsd_byte ecsd ECSD_SUPPORTED_MODES) ECSD_FFU_SUPPORTED) then mret (errno_no ENOTSUP)
  else if has (ecsd_byte ecsd ECSD_FW_CONFIG) ECSD_FWUPDATE_DISABLED then mret (errno_no EPERM)
  else if negb (mode =? WB_MODE_DNLD_MC) && negb (mode =? WB_MODE_ACT_MC) then mret (errno_no EINVAL)
  else
    st ← sdmmc_unit_ready;
    if negb (st =? CAM_REQ_CMP) then mret (errno_no EBUSY)
    else if mode =? WB_MODE_ACT_MC then
      e ← (if has (ecsd_byte ecsd ECSD_FFU_FEATURE) ECSD_FFU_OPCODE_SUPPORTED
           then wp_switch ECSD_MODE_OPERATION_CODES ECSD_FFU_INSTALL else wp_switch ECSD_MODE_CONFIG ECSD_MODE_NORMAL);
      sdmmc_reset;; or_cmp e
    else
      e ← (if buffer =? 0 then ffu_enter else mret EOK);
      if decide (e <> EOK) then mret (errno_no e)
      else
        ecsd ← gets (fun s => raw_ecsd (lib s));
        let dssize := if ecsd_byte ecsd ECSD_DATA_SECTOR_SIZE =? ECSD_NATIVE_SECTOR_4K then 4096 else 512 in
        if (dxfer_len q =? 0) || negb (dxfer_len q mod dssize =? 0) then mret (errno_no EINVAL) else ffu_write dssize.

(** ** Dispatch *)
Definition sdmmc_scsi_io : M (sim L) Z :=
  x ← gets ext; q ← gets req; cmd ← cdb_byte 0;
  if negb (dxfer_len q =? 0) && has (cam_flags q) CAM_DATA_PHYS && negb (has (hc_inf_caps x) HC_CAP_DMA)
  then mret CAM_PROVIDE_FAIL
  else if cmd =? SC_UNIT_RDY then sdmmc_unit_ready
  else if cmd =? SC_INQUIRY then sdmmc_inquiry D_DIR_ACC
  else if cmd =? SC_SPINDLE then sdmmc_spindle
  else if cmd =? SC_RD_CAP then sdmmc_capacity 0
  else if cmd =? SC_READ10 then sdmmc_read_write SCF_DIR_IN
  else if cmd =? SC_WRITE10 then
    (if dirty_cache x then upd_eflags (fun f => Z.lor f SDMMC_EFLAG_VCACHE_DIRTY) else mret ());;
    sdmmc_read_write SCF_DIR_OUT
  else if cmd =? SC_SYNC then sdmmc_sync errno_no
  else if cmd =? SC_MSELECT10 then sdmmc_mode_select
  else if cmd =? SC_MSENSE10 then sdmmc_mode_sense
  else if cmd =? SC_ERASE12 then sdmmc_erase12
  else if cmd =? SC_WR_BUF then sdmmc_ffu
  else if cmd =? SC_WR_SAME16 then sdmmc_write_same
  else if cmd =? SC_SERVICE_ACTION_IN16 then sdmmc_service_action
  else sdmmc_error EINVAL.

(** One round of sdmmc_start_ccb for a SCSI request: the status has 8 bits. *)
Definition finish_ccb (status : Z) : M (sim L) () :=
  upd_req (fun r => set_cam (u8 status) (scsi_status r) (sense r) r);;
  e ← lib_call lib_retune CRetune;
  if decide (e = EOK) then mret () else sdmmc_reset;; mret ().
Definition start_scsi : M (sim L) () :=
  sdmmc_pm PM_ACTIVE;; st ← sdmmc_scsi_io; finish_ccb st.
End req.
