(* ===== verification/SimStep.v ===== *)
(** * What every request to the SCSI layer keeps (theorems on Sim.v, SimReq.v)

    A relation between the states before and after a piece of code, and that
    every piece of code ends in a state so related: no access outside of the
    arrays and buffers, no division by zero, no endless loop. *)
From S2P Require Import Prelude Driver SdioReg SdioConst Sdhci SdioCmd SimConst Sim SimReq.
Open Scope Z_scope.

(** ** What the layer relies on: every call of the library ends, a wait that succeeds
    has seen what it waits for, and block sizes are positive *)
Definition ends {S A} (m : M S A) : Prop := forall k, is_Some (m k).
Class sdio_lib_laws (L : Type) `{sdio_lib L} := {
  alloc_ends : ends lib_alloc;
  send_ends c a t : ends (lib_send c a t);
  status_ends : ends lib_status;
  stop_ends : ends lib_stop;
  wait_ends m v t r : ends (lib_wait m v t r);
  wait_shows m v t r k r' k' : lib_wait m v t r k = Some ((EOK, r'), k') -> Z.land r' m = v;
  erase_ends c t a n : ends (lib_erase c t a n);
  partition_ends c : ends (lib_partition c);
  reset_ends : ends lib_reset;
  bus_error_ends : ends lib_bus_error;
  cache_ends o t : ends (lib_cache o t);
  switch_ends i v t : ends (lib_switch i v t);
  hpi_ends t : ends (lib_hpi t);
  notify_ends o t : ends (lib_notify o t);
  power_ends o : ends (lib_power o);
  ecsd_ends : ends lib_ext_csd;
  assd_ends : ends lib_assd_init;
  length_ends v : ends (lib_block_length v);
  retune_ends : ends lib_retune;
  buffer_ends n : ends (lib_buffer n);
  sector_pos k : 0 < di_sector_size (lib_dev_info k);
  blksz_pos k : 0 < ecsd_blksz k
}.
Create HintDb lib_ends.
#[export] Hint Resolve alloc_ends send_ends status_ends stop_ends wait_ends erase_ends partition_ends reset_ends bus_error_ends
  cache_ends switch_ends hpi_ends notify_ends power_ends ecsd_ends assd_ends length_ends retune_ends buffer_ends : lib_ends.

(** ** The relation *)

(** A partition keeps its place, and its protection once it has it. *)
Definition same_part (p q : partition) : Prop :=
  config q = config p /\ pname q = pname p /\ blk_shft q = blk_shft p /\ slba q = slba p /\ elba q = elba p /\ nlba q = nlba p /\
  (has (pflags p) SDMMC_PFLAG_WP = true -> has (pflags q) SDMMC_PFLAG_WP = true).
Definition same_target (t u : target) : Prop :=
  nluns u = nluns t /\ tblksz u = tblksz t /\ Forall2 same_part (partitions t) (partitions u).
Definition same_req (q r : ccb) : Prop :=
  func_code r = func_code q /\ cam_flags r = cam_flags q /\ target_id r = target_id q /\ target_lun r = target_lun q /\
  cdb r = cdb q /\ dxfer_len r = dxfer_len q /\ data_ptr r = data_ptr q /\ sg_list r = sg_list q /\
  cam_timeout r = cam_timeout q /\ length (data r) = length (data q) /\ (length <$> sense r) = (length <$> sense q).

(** The library was called, as [P] allows, and a dirty cache is clean only
    after a flush. *)
Definition called {L} (P : call -> Prop) (s s' : sim L) : Prop :=
  exists l, calls s' = calls s ++ l /\ Forall P l /\
    (has (eflags (ext s)) SDMMC_EFLAG_VCACHE_DIRTY = true -> has (eflags (ext s')) SDMMC_EFLAG_VCACHE_DIRTY = false ->
     CCache SDIO_CACHE_FLUSH EOK ∈ l).

Record step {L} (R : dev_info -> Prop) (P : call -> Prop) (s s' : sim L) : Prop := Step {
  step_calls : called P s s';
  step_targets : Forall2 same_target (targets (ext s)) (targets (ext s'));
  step_ntargs : ntargs (ext s') = ntargs (ext s);
  step_req : same_req (req s) (req s');
  step_dev : R (dev_inf (ext s'));
  step_relwr : has (eflags (ext s')) SDMMC_EFLAG_RELWR = true -> has (eflags (ext s)) SDMMC_EFLAG_RELWR = true;
  step_host : hc_inf_caps (ext s') = hc_inf_caps (ext s) /\ dtype (ext s') = dtype (ext s)
}.

#[export] Instance same_part_refl : Reflexive same_part.
Proof. intros p. repeat split; auto. Qed.
#[export] Instance same_part_trans : Transitive same_part.
Proof. intros p q r (?&?&?&?&?&?&F) (?&?&?&?&?&?&G). repeat split; try congruence. auto. Qed.
#[export] Instance same_target_refl : Reflexive same_target.
Proof. intros t. by repeat split. Qed.
#[export] Instance same_target_trans : Transitive same_target.
Proof. intros t u v (?&?&F) (?&?&G). repeat split; try congruence. by etrans. Qed.
#[export] Instance same_req_refl : Reflexive same_req.
Proof. intros q. by repeat split. Qed.
#[export] Instance same_req_trans : Transitive same_req.
Proof. intros q r t F G. unfold same_req in *. destruct_and!. split_and!; congruence. Qed.

Lemma called_trans {L} P (s t u : sim L) : called P s t -> called P t u -> called P s u.
Proof.
  intros (l & E & A & F) (m & E' & A' & F'). exists (l ++ m). rewrite E', E, app_assoc. split; [done|]. split; [by apply Forall_app|].
  intros HD HC. apply elem_of_app. destruct (has (eflags (ext t)) SDMMC_EFLAG_VCACHE_DIRTY) eqn:ED; auto.
Qed.
Lemma req_step_trans {L} R P (s t u : sim L) : step R P s t -> step R P t u -> step R P s u.
Proof.
  intros [] []. constructor; [by eapply called_trans|by etrans|congruence|by etrans|done|auto|naive_solver congruence].
Qed.
Lemma req_step_refl {L} (R : dev_info -> Prop) P (s : sim L) : R (dev_inf (ext s)) -> step R P s s.
Proof. intros HR. constructor; [|done..]. exists []. rewrite app_nil_r. split_and!; [done|constructor|congruence]. Qed.
Lemma step_weaken {L} (R R' : dev_info -> Prop) P (s s' : sim L) : (forall d, R d -> R' d) -> step R P s s' -> step R' P s s'.
Proof. intros HR []. by constructor; auto. Qed.

(** Calls that carry no data, erase nothing and change no partition. *)
Definition maint (c : call) : bool := match c with CSend _ _ _ _ _ | CErase _ _ _ _ _ | CPartition _ _ => false | _ => true end.

Lemma dirty_ldiff m : has m SDMMC_EFLAG_VCACHE_DIRTY = false ->
  forall v, has v SDMMC_EFLAG_VCACHE_DIRTY = true -> has (Z.ldiff v m) SDMMC_EFLAG_VCACHE_DIRTY = true.
Proof. change SDMMC_EFLAG_VCACHE_DIRTY with (2 ^ 11). intros Hm v Hv. by rewrite has_ldiff, Hv, Hm by done. Qed.
Lemma relwr_ldiff m v : has (Z.ldiff v m) SDMMC_EFLAG_RELWR = true -> has v SDMMC_EFLAG_RELWR = true.
Proof. change SDMMC_EFLAG_RELWR with (2 ^ 12). rewrite has_ldiff by done. by destruct (has v _). Qed.
Lemma relwr_lor m v : has m SDMMC_EFLAG_RELWR = false -> has (Z.lor v m) SDMMC_EFLAG_RELWR = true -> has v SDMMC_EFLAG_RELWR = true.
Proof. change SDMMC_EFLAG_RELWR with (2 ^ 12). intros Hm. rewrite has_lor, Hm, orb_false_r by done. done. Qed.
Lemma dirty_lor m : forall v, has v SDMMC_EFLAG_VCACHE_DIRTY = true -> has (Z.lor v m) SDMMC_EFLAG_VCACHE_DIRTY = true.
Proof. change SDMMC_EFLAG_VCACHE_DIRTY with (2 ^ 11). intros v Hv. by rewrite has_lor, Hv by done. Qed.

#[export] Hint Extern 0 (maint _ = true) => reflexivity : lib_ends.

(** ** Pieces of code, from any state that is reached from [s0] *)
Section runs.
Context {L : Type} `{sdio_lib L} `{!sdio_lib_laws L}.

Definition runs (R : dev_info -> Prop) (P : call -> Prop) (s0 : sim L) {A} (m : M (sim L) A) : Prop :=
  forall s, step R P s0 s -> post m s (fun _ s' => step R P s0 s').

Lemma runs_ret R P (s0 : sim L) {A} (a : A) : runs R P s0 (mret a).
Proof. intros s Hs. by apply post_ret. Qed.
Lemma runs_bind R P (s0 : sim L) {A B} (m : M (sim L) A) (k : A -> M (sim L) B) : runs R P s0 m -> (forall a, runs R P s0 (k a)) -> runs R P s0 (x ← m; k x).
Proof. intros Hm Hk s Hs. apply post_bind. eapply post_mono; [by apply Hm|]. intros a s' Hs'. by apply Hk. Qed.
Lemma runs_gets R P (s0 : sim L) {A B} (f : sim L -> A) (k : A -> M (sim L) B) :
  (forall s, step R P s0 s -> runs R P s0 (k (f s))) -> runs R P s0 (x ← gets f; k x).
Proof. intros Hk s Hs. apply post_bind, post_gets. by apply Hk. Qed.
Lemma runs_if R P (s0 : sim L) {A} (b : bool) (m n : M (sim L) A) : runs R P s0 m -> runs R P s0 n -> runs R P s0 (if b then m else n).
Proof. by destruct b. Qed.
Lemma runs_decide R P (s0 : sim L) {A} (b : Prop) `{Decision b} (m n : M (sim L) A) : runs R P s0 m -> runs R P s0 n -> runs R P s0 (if decide b then m else n).
Proof. by case_decide. Qed.

Lemma step_event R (P : call -> Prop) (s0 : sim L) s c k : P c -> step R P s0 s -> step R P s0 (Sim (ext s) k (req s) (calls s ++ [c])).
Proof.
  intros Hc Hs. eapply req_step_trans; [done|]. constructor; [|done|done|done|by destruct Hs|done|done].
  exists [c]. split_and!; [done|by repeat constructor|cbn [ext]; congruence].
Qed.
Lemma runs_call R P (s0 : sim L) {A} (m : M L A) ev : ends m -> (forall a, P (ev a)) -> runs R P s0 (lib_call m ev).
Proof.
  intros Hm HP s Hs. destruct (Hm (lib s)) as [[a k] E]. exists a, (Sim (ext s) k (req s) (calls s ++ [ev a])).
  unfold lib_call. rewrite E. split; [done|]. by apply step_event.
Qed.
Lemma runs_quiet R P (s0 : sim L) {A} (m : M L A) : ends m -> runs R P s0 (lib_quiet m).
Proof.
  intros Hm s Hs. destruct (Hm (lib s)) as [[a k] E]. exists a, (Sim (ext s) k (req s) (calls s)).
  unfold lib_quiet. rewrite E. split; [done|]. eapply req_step_trans; [done|]. constructor; [|done|done|done|by destruct Hs|done|done].
  exists []. cbn [calls ext]. rewrite app_nil_r. split_and!; [done|constructor|congruence].
Qed.

(** An update of the adapter's data that keeps targets, device and the dirty flag. *)
Definition quiet (R : dev_info -> Prop) (f : sim_ext -> sim_ext) : Prop := forall x,
  Forall2 same_target (targets x) (targets (f x)) /\ ntargs (f x) = ntargs x /\ (R (dev_inf x) -> R (dev_inf (f x))) /\
  (has (eflags x) SDMMC_EFLAG_VCACHE_DIRTY = true -> has (eflags (f x)) SDMMC_EFLAG_VCACHE_DIRTY = true) /\
  (has (eflags (f x)) SDMMC_EFLAG_RELWR = true -> has (eflags x) SDMMC_EFLAG_RELWR = true) /\
  hc_inf_caps (f x) = hc_inf_caps x /\ dtype (f x) = dtype x.
Lemma runs_upd R P (s0 : sim L) f : quiet R f -> runs R P s0 (upd_ext f).
Proof.
  intros Hf s Hs. destruct (Hf (ext s)) as (Ht & Hn & HR & Hd & Hr & Hh). apply post_modify. eapply req_step_trans; [done|].
  constructor; cbn [ext req calls]; [|done|done|done|by apply HR; destruct Hs|done|done].
  exists []. cbn [ext calls]. rewrite app_nil_r. split_and!; [done|constructor|]. intros E. rewrite (Hd E). discriminate.
Qed.
Lemma runs_flags R P (s0 : sim L) f :
  (forall v, has v SDMMC_EFLAG_VCACHE_DIRTY = true -> has (f v) SDMMC_EFLAG_VCACHE_DIRTY = true) ->
  (forall v, has (f v) SDMMC_EFLAG_RELWR = true -> has v SDMMC_EFLAG_RELWR = true) -> runs R P s0 (upd_eflags f).
Proof. intros Hf Hr. apply runs_upd. intros x. split_and!; [reflexivity|done|done|exact (Hf _)|exact (Hr _)|done|done]. Qed.
Lemma runs_req R P (s0 : sim L) f : (forall s, step R P s0 s -> same_req (req s) (f (req s))) -> runs R P s0 (upd_req f).
Proof.
  intros Hf s Hs. apply post_modify. eapply req_step_trans; [done|]. constructor; cbn [ext req calls]; [|done|done|by apply Hf|by destruct Hs|done|done].
  exists []. cbn [ext calls]. rewrite app_nil_r. split_and!; [done|constructor|congruence].
Qed.

(** ** Adapters whose counts fit their arrays *)
Definition fits (x : sim_ext) : Prop :=
  (Z.to_nat (ntargs x) < length (targets x))%nat /\
  Forall (fun t => (Z.to_nat (nluns t) < length (partitions t))%nat) (targets x).

Lemma same_targets_fit R P (s0 : sim L) s : step R P s0 s -> fits (ext s0) -> fits (ext s).
Proof.
  intros [_ Ht Hn _ _ _ _] [Hl Hf]. split; [by rewrite Hn, <- (Forall2_length _ _ _ Ht)|].
  clear Hl Hn. induction Ht as [|t u l k (En & _ & Hp) ? IH]; [constructor|].
  apply Forall_cons in Hf as [Hlt Hf]. constructor; [|auto]. by rewrite En, <- (Forall2_length _ _ _ Hp).
Qed.
Lemma same_targets_at R P (s0 : sim L) s id lun p : step R P s0 s -> part_at (ext s0) id lun = Some p ->
  exists q, part_at (ext s) id lun = Some q /\ same_part p q.
Proof.
  intros [_ Ht _ _ _ _ _]. unfold part_at. destruct (targets (ext s0) !! Z.to_nat id) as [t|] eqn:E; [|done]. cbn. intros Ep.
  destruct (Forall2_lookup_l _ _ _ _ _ Ht E) as (u & -> & _ & _ & Hp). cbn. by eapply Forall2_lookup_l.
Qed.
Lemma map_some {A} (P : A -> A -> Prop) `{!Reflexive P} (f : A -> A) n l :
  (forall a, P a (f a)) -> Forall2 P l (map f (take n l) ++ drop n l).
Proof. intros Hf. revert n. induction l as [|a l IH]; intros [|n]; cbn [take drop map app]; by repeat constructor; try apply Forall2_reflexive; auto. Qed.
Lemma targets_alter f i l : (forall t, same_target t (f t)) -> Forall2 same_target l (alter f i l).
Proof. intros Hf. revert i. induction l as [|t l IH]; intros [|i]; constructor; auto; apply reflexivity. Qed.
Lemma parts_alter f i l : (forall t, same_part t (f t)) -> Forall2 same_part l (alter f i l).
Proof. intros Hf. revert i. induction l as [|t l IH]; intros [|i]; constructor; auto; apply reflexivity. Qed.
Lemma quiet_part R id lun f : (forall p, same_part p (f p)) -> quiet R (upd_part id lun f).
Proof.
  intros Hf x. repeat split; auto. apply targets_alter. intros t. repeat split. by apply parts_alter.
Qed.
Lemma flag_part_same a v p : same_part p (flag_part a v p).
Proof.
  unfold flag_part. destruct (_ =? _); [|done]. repeat split. cbn [pflags set_pflags].
  change SDMMC_PFLAG_WP with (2 ^ 0). intros E. by rewrite has_lor, E by lia.
Qed.
Lemma runs_attr R P (s0 : sim L) a v : fits (ext s0) -> runs R P s0 (sdmmc_set_partition_attr a v).
Proof.
  intros Hfit. apply runs_gets. intros s Hs. destruct (same_targets_fit _ _ _ _ Hs Hfit) as [Hl Hf].
  rewrite decide_True by done. destruct (forallb _ _) eqn:E.
  - apply runs_upd. intros x. repeat split; auto. apply (map_some same_target). intros t. repeat split.
    apply (map_some same_part), flag_part_same.
  - exfalso. apply not_true_iff_false in E. apply E. clear E. apply forallb_forall. intros t Ht. apply bool_decide_eq_true_2.
    apply (Forall_take _ (S (Z.to_nat (ntargs (ext s))))) in Hf. rewrite Forall_forall in Hf. by apply Hf, list_elem_of_In.
Qed.

End runs.

(** ** Requests that fit: the arrays have the partition, the buffers have room *)
Record fine (q : ccb) (x : sim_ext) : Prop := Fine {
  fine_fits : fits x;
  fine_part : is_Some (part_at x (target_id q) (target_lun q));
  fine_sense : match sense q with Some l => (20 <= length l)%nat | None => True end
}.

(** ** Automation: one step of the code at a time, known pieces from the database *)
Create HintDb runs.
Ltac run := repeat match goal with
  | |- runs _ _ _ (mret _) => apply runs_ret
  | |- runs _ _ _ _ => solve [eauto 3 with runs nocore]
  | |- runs _ _ _ (mbind _ (gets _)) => apply runs_gets; intros ?s ?Hs
  | |- runs _ _ _ (mbind _ _) => apply runs_bind; [|intros ?]
  | |- runs _ _ _ (lib_call _ _) => apply runs_call; [solve [auto with lib_ends nocore]|solve [intros ?; auto with lib_ends nocore]]
  | |- runs _ _ _ (lib_quiet _) => apply runs_quiet; solve [auto with lib_ends nocore]
  | |- runs _ _ _ (if _ then _ else _) => first [apply runs_if|apply runs_decide]
  | |- runs _ _ _ (match ?x with _ => _ end) => destruct x
  end.
Ltac flags := apply runs_flags; [first [by apply dirty_ldiff|by apply dirty_lor]|intros ?; first [apply relwr_ldiff|by apply relwr_lor]].
Ltac upd := apply runs_upd; intros ?; cbv beta; repeat case_match;
  (split_and!; [reflexivity|done|done|first [done|by apply dirty_ldiff|by apply dirty_lor]|
    first [done|apply relwr_ldiff|by apply relwr_lor]|done|done]).
#[export] Hint Extern 1 (runs _ _ _ (upd_eflags _)) => flags : runs.
#[export] Hint Extern 1 (runs _ _ _ (upd_ext _)) => upd : runs.
#[export] Hint Extern 1 (runs _ _ _ (upd_req (fun r => set_cam _ _ (sense r) r))) => apply runs_req; by repeat split : runs.

Section pieces.
Context {L : Type} `{sdio_lib L} `{!sdio_lib_laws L} (R : dev_info -> Prop) (P : call -> Prop) (Hm : forall c, maint c = true -> P c) (s0 : sim L) (Hfine : fine (req s0) (ext s0)).

Lemma runs_part {B} (k : partition -> M (sim L) B) :
  (forall p q, part_at (ext s0) (target_id (req s0)) (target_lun (req s0)) = Some p -> same_part p q -> runs R P s0 (k q)) ->
  runs R P s0 (p ← the_part; k p).
Proof.
  intros Hk s Hs. destruct (fine_part _ _ Hfine) as [p Hp]. destruct (same_targets_at _ _ _ _ _ _ _ Hs Hp) as (q & Eq & Hq).
  apply post_bind. exists q, s. split; [|by eapply Hk]. unfold the_part. rewrite gets_bind.
  destruct (step_req _ _ _ _ Hs) as (_ & _ & -> & -> & _). by rewrite Eq.
Qed.
Lemma runs_the_part : runs R P s0 the_part.
Proof.
  intros s Hs. destruct (runs_part mret (fun p q _ _ => runs_ret R P s0 q) s Hs) as (q & s' & E & H'). exists q, s'.
  split; [|done]. unfold mbind, M_bind in E. by destruct (the_part s) as [[? ?]|].
Qed.
Lemma step_sense s : step R P s0 s -> (length <$> sense (req s)) = (length <$> sense (req s0)).
Proof. intros Hs. by destruct (step_req _ _ _ _ Hs) as (_&_&_&_&_&_&_&_&_&_&?). Qed.
Lemma step_data s : step R P s0 s -> length (data (req s)) = length (data (req s0)).
Proof. intros Hs. by destruct (step_req _ _ _ _ Hs) as (_&_&_&_&_&_&_&_&_&?&_). Qed.
Lemma runs_cam st sc b : (length <$> b) = (length <$> sense (req s0)) -> runs R P s0 (upd_req (set_cam st sc b)).
Proof. intros Hb. apply runs_req. intros s Hs. repeat split. cbn [sense set_cam]. rewrite Hb. symmetry. by apply step_sense. Qed.
Lemma runs_sense key asc ascq : runs R P s0 (sdmmc_sense key asc ascq).
Proof.
  apply runs_gets. intros s Hs. apply runs_if; [apply runs_ret|]. pose proof (step_sense _ Hs) as E.
  pose proof (fine_sense _ _ Hfine) as Hl.
  destruct (sense (req s)) as [l|]; [|apply runs_bind; [by apply runs_cam|intros; apply runs_ret]].
  destruct (sense (req s0)) as [l0|] eqn:E0; [|done]. injection E as E.
  apply runs_if; [apply runs_bind; [apply runs_cam; rewrite E0; cbn; congruence|intros; apply runs_ret]|].
  rewrite decide_False by lia. apply runs_bind; [apply runs_cam|intros; apply runs_ret].
  rewrite E0. cbn -[app drop]. rewrite length_app, length_drop. cbn [length sense_bytes]. f_equal. lia.
Qed.

(** ** The operations, bottom up *)
#[local] Hint Resolve runs_sense runs_the_part : runs.
Lemma runs_put off b : (off + length b <= length (data (req s0)))%nat -> runs R P s0 (put_data off b).
Proof.
  intros Hl. apply runs_gets. intros s Hs. rewrite decide_True by by rewrite (step_data _ Hs).
  apply runs_req. intros s' Hs'. repeat split. cbn [data set_data]. by rewrite length_inserts, (step_data _ Hs), (step_data _ Hs').
Qed.
Lemma runs_count r w t e d : runs R P s0 (count r w t e d).
Proof. apply runs_gets. intros s _. apply runs_upd, quiet_part. intros q. by repeat split. Qed.
#[local] Hint Resolve runs_count : runs.

Lemma runs_error e : runs R P s0 (sdmmc_error e).
Proof. unfold sdmmc_error. destruct e; run. Qed.
#[local] Hint Resolve runs_error : runs.
Lemma runs_unit_ready : runs R P s0 sdmmc_unit_ready.
Proof. unfold sdmmc_unit_ready. run. Qed.
#[local] Hint Resolve runs_unit_ready : runs.
Lemma runs_cdb i : runs R P s0 (cdb_byte i).
Proof. intros s Hs. by apply post_gets. Qed.
#[local] Hint Resolve runs_cdb : runs.
Lemma runs_pm op : runs R P s0 (sdmmc_pm op).
Proof. unfold sdmmc_pm. run. Qed.
#[local] Hint Resolve runs_pm : runs.
Lemma runs_flush : runs R P s0 sdmmc_cache_flush.
Proof.
  unfold sdmmc_cache_flush. apply runs_gets. intros s Hs. apply runs_if; [|run]. clear s Hs. intros s Hs. apply post_bind.
  destruct (cache_ends SDIO_CACHE_FLUSH (SDIO_TIME_DEFAULT * 5) (lib s)) as [[e k] E].
  exists e, (Sim (ext s) k (req s) (calls s ++ [CCache SDIO_CACHE_FLUSH e])). unfold lib_call. rewrite E. split; [done|].
  pose proof (step_event _ _ _ s (CCache SDIO_CACHE_FLUSH e) k (Hm (CCache SDIO_CACHE_FLUSH e) eq_refl) Hs) as Hs'. case_decide; [subst e|by apply post_bind, post_ret, post_ret].
  apply post_bind, post_modify, post_ret. eapply req_step_trans; [exact Hs|]. constructor; [|done|done|done|by destruct Hs|exact (relwr_ldiff _ _)|done].
  eexists. split_and!; [done|by repeat constructor; apply Hm|]. intros _ _. by apply list_elem_of_singleton.
Qed.
#[local] Hint Resolve runs_flush : runs.
Lemma runs_bkops_cfg op : runs R P s0 (sdmmc_bkops_cfg op).
Proof. unfold sdmmc_bkops_cfg. run. Qed.
#[local] Hint Resolve runs_bkops_cfg : runs.
Lemma runs_dev_cfg : runs R P s0 sdmmc_dev_cfg.
Proof. unfold sdmmc_dev_cfg. run. Qed.
Lemma runs_set_attr a v : runs R P s0 (sdmmc_set_partition_attr a v).
Proof. by apply runs_attr, (fine_fits _ _ Hfine). Qed.
#[local] Hint Resolve runs_dev_cfg runs_set_attr : runs.
Lemma runs_reset : runs R P s0 sdmmc_reset.
Proof. unfold sdmmc_reset. run. Qed.
#[local] Hint Resolve runs_reset : runs.
Lemma runs_bkops tick : runs R P s0 (sdmmc_bkops tick).
Proof. unfold sdmmc_bkops. run. Qed.
#[local] Hint Resolve runs_bkops : runs.

(** Data for the system: the buffer has room for the largest answer. *)
Section answers.
Context (Hroom : (96 <= length (data (req s0)))%nat) (Hlen : 0 <= dxfer_len (req s0) <= Z.of_nat (length (data (req s0)))).
Lemma runs_clear n : 0 <= n <= Z.of_nat (length (data (req s0))) -> runs R P s0 (clear_data n).
Proof. intros Hn. apply runs_put. rewrite length_replicate. lia. Qed.
Lemma runs_clear_all s : step R P s0 s -> runs R P s0 (clear_data (dxfer_len (req s))).
Proof. intros Hs. apply runs_clear. by destruct (step_req _ _ _ _ Hs) as (_&_&_&_&_&->&_). Qed.
Lemma runs_put' off b : (off + length b <= 96)%nat -> runs R P s0 (put_data off b).
Proof. intros Hb. apply runs_put. lia. Qed.
Lemma runs_clear_8 : runs R P s0 (clear_data 8).
Proof. apply runs_clear. lia. Qed.
Lemma runs_clear_96 : runs R P s0 (clear_data 96).
Proof. apply runs_clear. lia. Qed.
#[local] Hint Resolve runs_clear_all runs_clear_8 runs_clear_96 : runs.
#[local] Hint Extern 1 (runs _ _ _ (put_data _ _)) => apply runs_put'; cbn; repeat case_match; cbn; lia : runs.
Lemma field_length n l : (0 < n)%nat -> (length (field_text n l) <= n)%nat.
Proof. intros Hn. unfold field_text. rewrite length_app, length_take. cbn. lia. Qed.
Lemma runs_field off n l : (0 < n)%nat -> (off + n <= 96)%nat -> runs R P s0 (put_data off (field_text n l)).
Proof. intros Hn Ho. apply runs_put'. pose proof (field_length n l Hn). lia. Qed.
#[local] Hint Extern 0 (runs _ _ _ (put_data _ (field_text _ _))) => apply runs_field; lia : runs.
Lemma runs_capacity a : runs R P s0 (sdmmc_capacity a).
Proof. unfold sdmmc_capacity. run. Qed.
#[local] Hint Resolve runs_capacity : runs.
Lemma runs_service_action : runs R P s0 sdmmc_service_action.
Proof. unfold sdmmc_service_action. run. Qed.
Lemma runs_mode_select : runs R P s0 sdmmc_mode_select.
Proof.
  unfold sdmmc_mode_select. apply runs_gets. intros s Hs. pose proof (step_data _ Hs) as E.
  destruct (lookup_lt_is_Some_2 (data (req s)) 8) as [page ->]; [lia|]. apply runs_if; [|run].
  unfold mpage_caching_select. apply runs_gets. intros s1 Hs1. apply runs_gets. intros s2 Hs2. pose proof (step_data _ Hs2) as E2.
  destruct (lookup_lt_is_Some_2 (data (req s2)) 10) as [fl ->]; [lia|]. run.
Qed.
Lemma runs_mode_sense : runs R P s0 sdmmc_mode_sense.
Proof.
  unfold sdmmc_mode_sense, sdmmc_mpage_rw_err, mpage_caching_sense. run.
Qed.
Lemma runs_inquiry d : runs R P s0 (sdmmc_inquiry d).
Proof.
  unfold sdmmc_inquiry, sdmmc_evpd_inquiry, sdmmc_std_inquiry. run.
Qed.
End answers.

Lemma runs_spindle : runs R P s0 sdmmc_spindle.
Proof. unfold sdmmc_spindle. run. Qed.
Lemma runs_sync n : runs R P s0 (sdmmc_sync n).
Proof. unfold sdmmc_sync. run. Qed.

End pieces.
#[export] Hint Resolve runs_sense runs_the_part runs_count runs_error runs_unit_ready runs_cdb runs_pm runs_flush runs_bkops_cfg
  runs_dev_cfg runs_set_attr runs_reset runs_bkops runs_capacity runs_service_action runs_mode_select runs_mode_sense runs_inquiry
  runs_spindle runs_sync : runs.

(** ** Data transfer

    Device information is what it was, or, after an error, what the library
    gives then. *)
Section transfer.
Context {L : Type} `{sdio_lib L} `{!sdio_lib_laws L} (P : call -> Prop) (Hall : forall c, P c) (s0 : sim L) (Hfine : fine (req s0) (ext s0)).

Definition sectors (d : dev_info) : Prop := 0 < di_sector_size d.
Definition same_dev : dev_info -> Prop := eq (dev_inf (ext s0)).
Context (Hss : sectors (dev_inf (ext s0))).
Let HM c : maint c = true -> P c.
Proof. auto. Qed.
Lemma runs_send R c a t : runs R P s0 (lib_send_cmd c a t).
Proof. unfold lib_send_cmd. run. Qed.
#[local] Hint Resolve runs_send : runs.
Lemma same_sectors s : step same_dev P s0 s -> step sectors P s0 s.
Proof. apply step_weaken. by intros d <-. Qed.
Lemma runs_status R r : runs R P s0 (call_status r).
Proof. unfold call_status. run. Qed.
Lemma runs_stop R : runs R P s0 call_stop.
Proof. unfold call_stop. run. Qed.
#[local] Hint Resolve runs_status runs_stop : runs.
Lemma runs_done R f d t r : runs R P s0 (rw_done f d t r).
Proof. unfold rw_done. run. Qed.
Lemma runs_failed R e r : runs R P s0 (rw_failed e r).
Proof. unfold rw_failed. run. Qed.
#[local] Hint Resolve runs_done runs_failed : runs.
Lemma runs_recover f e b r : runs sectors P s0 (rw_recover f e b r).
Proof.
  unfold rw_recover. run; apply runs_upd; intros ?; split_and!; try done. intros _. apply sector_pos.
Qed.

(** Code that changes device information only when it fails. *)
Definition rw_runs (m : M (sim L) errno) : Prop := forall s, step same_dev P s0 s ->
  post m s (fun e s' => step sectors P s0 s' /\ (e = EOK -> step same_dev P s0 s')).
Lemma rw_bind {A} (m : M (sim L) A) k : runs same_dev P s0 m -> (forall a, rw_runs (k a)) -> rw_runs (x ← m; k x).
Proof. intros Hm Hk s Hs. apply post_bind. eapply post_mono; [by apply Hm|]. intros a s' Hs'. by apply Hk. Qed.
Lemma rw_keep m : runs same_dev P s0 m -> rw_runs m.
Proof. intros Hm s Hs. eapply post_mono; [by apply Hm|]. intros e s' Hs'. split; [by apply same_sectors|done]. Qed.
Lemma rw_end_runs f c y : rw_runs (rw_end f c y).
Proof.
  unfold rw_end. apply rw_bind; [run|]. intros _. case_decide as E; [apply rw_keep; run|].
  intros s Hs. apply post_bind. eapply post_mono; [by apply runs_recover, same_sectors|]. intros u s' Hs'. apply post_ret. split; [done|]. intros E'. by destruct E.
Qed.
Lemma rw_rw f a n l t : rw_runs (sdmmc_rw f a n l t).
Proof.
  unfold sdmmc_rw. intros s Hs. apply post_bind, post_gets. rewrite (proj2 (Z.eqb_neq _ _)).
  2: { rewrite <- (step_dev _ _ _ _ Hs). unfold sectors in Hss. lia. }
  match goal with |- post ?m _ _ => cut (rw_runs m); [intros Hm; by apply Hm|] end. clear Hs.
  apply rw_bind; [run|]. intros [c|]; [|apply rw_keep; run]. apply rw_bind; [run|]. intros r.
  case_decide; [apply rw_keep; run|]. apply rw_bind; [run|]. intros y. apply rw_end_runs.
Qed.

(** A legacy reliable write ends: its pieces are whole blocks, and are not empty. *)
Lemma piece_bounds lba rel n : 0 < rel < 2 ^ 23 -> 0 < n < 2 ^ 32 -> n mod 512 = 0 ->
  512 <= piece lba rel n <= n /\ piece lba rel n mod 512 = 0.
Proof.
  intros Hr Hn Hm. unfold piece. unfold u32. rewrite (Z.mod_small (rel * 512)) by lia.
  assert (512 <= n) by (rewrite (Z.div_mod n 512), Hm in Hn |- * by lia; lia).
  repeat case_match; zbool; rewrite ?Z.mod_mul by lia; try done; lia.
Qed.
Definition whole (n : Z) : Prop := 0 <= n < 2 ^ 32 /\ n mod 512 = 0.
Definition legacy_fine (q : ccb) (d : dev_info) : Prop :=
  0 < di_rel_wr_sec_c d < 2 ^ 23 /\ Forall (fun e => whole (sg_count e)) (req_sgl q).
Context (Hrel : 0 < di_rel_wr_sec_c (dev_inf (ext s0)) < 2 ^ 23).
Lemma rel_entry_runs fuel f lba a n s : whole n -> n < Z.of_nat fuel -> step same_dev P s0 s ->
  post (rel_entry fuel f lba a n) s (fun y s' => step sectors P s0 s' /\ (fst y = EOK -> step same_dev P s0 s')).
Proof.
  revert lba a n s. induction fuel as [|fuel IH]; intros lba a n s [Hn Hm] Hf Hs; [lia|]. cbn [rel_entry].
  destruct (Z.eqb_spec n 0) as [->|Hn0]; [apply post_ret; split; [by apply same_sectors|done]|].
  apply post_bind, post_gets, post_bind, post_gets. pose proof (step_dev _ _ _ _ Hs) as ED. unfold same_dev in ED.
  cbv zeta. rewrite <- !ED.
  destruct (piece_bounds lba (di_rel_wr_sec_c (dev_inf (ext s0))) n) as [Hp Hpm]; [done|lia|done|].
  apply post_bind. eapply post_mono; [by apply rw_rw|]. intros e s' [Hw Hk]. case_decide as E; [by apply post_ret|].
  apply IH; [|unfold u32; rewrite Z.mod_small; lia|by apply Hk].
  unfold u32. rewrite Z.mod_small by lia. split; [lia|]. by rewrite Zminus_mod, Hm, Hpm.
Qed.
Lemma rel_write_runs f lba l : Forall (fun e => whole (sg_count e)) l -> rw_runs (rel_write f lba l).
Proof.
  revert lba. induction l as [|e l IH]; intros lba Hl; [apply rw_keep; cbn; run|]. apply Forall_cons in Hl as [He Hl].
  intros s Hs. cbn [rel_write]. apply post_bind. eapply post_mono; [by apply rel_entry_runs; [|destruct He; lia|]|].
  intros [st lba'] s' [Hw Hk]. case_decide as E; [by apply post_ret|]. apply IH; [done|]. by apply Hk.
Qed.
End transfer.

(** ** Whole requests *)

(** The request is a reliable write that the card does in pieces. *)
Definition legacy (q : ccb) (x : sim_ext) : bool :=
  has (write_flags x SCF_DIR_OUT (default 0 (cdb q !! 1%nat))) SCF_SBC_RLW && negb (has (di_caps (dev_inf x)) DEV_CAP_WR_REL_ENH).

Lemma write_flags_in x opt : has (write_flags x SCF_DIR_IN opt) SCF_SBC_RLW = false.
Proof. done. Qed.
Lemma write_flags_out x opt : has (write_flags x SCF_DIR_OUT opt) SCF_SBC_RLW =
  has (eflags x) SDMMC_EFLAG_RELWR || (has opt RW_OPT_FUA && has (di_caps (dev_inf x)) DEV_CAP_WR_REL).
Proof. unfold write_flags. change (has SCF_DIR_OUT SCF_DIR_OUT) with true. cbn [andb]. by case_match. Qed.
Lemma phys_rlw b f : has (if b : bool then Z.lor f SCF_DATA_PHYS else f) SCF_SBC_RLW = has f SCF_SBC_RLW.
Proof. destruct b; [|done]. exact (has_set_other f SCF_SBC_RLW SCF_DATA_PHYS eq_refl). Qed.

Section requests.
Context {L : Type} `{sdio_lib L} `{!sdio_lib_laws L} (P : call -> Prop) (Hall : forall c, P c) (s0 : sim L) (Hfine : fine (req s0) (ext s0)).
Context (Hss : sectors (dev_inf (ext s0))).
Let HM c : maint c = true -> P c.
Proof. auto. Qed.
#[local] Hint Resolve runs_send : runs.

(** Code that changes device information at its end, if at all. *)
Definition half {A} (m : M (sim L) A) : Prop := forall s, step (same_dev s0) P s0 s -> post m s (fun _ s' => step sectors P s0 s').
Lemma half_keep {A} (m : M (sim L) A) : runs (same_dev s0) P s0 m -> half m.
Proof. intros Hm s Hs. eapply post_mono; [by apply Hm|]. intros ? ?. by apply same_sectors. Qed.
Lemma half_bind {A B} (m : M (sim L) A) (k : A -> M (sim L) B) : runs (same_dev s0) P s0 m -> (forall a, half (k a)) -> half (x ← m; k x).
Proof. intros Hm Hk s Hs. apply post_bind. eapply post_mono; [by apply Hm|]. intros a s' Hs'. by apply Hk. Qed.
Lemma half_end {A} (m : M (sim L) errno) (k : errno -> M (sim L) A) : rw_runs P s0 m -> (forall e, runs sectors P s0 (k e)) -> half (x ← m; k x).
Proof. intros Hm Hk s Hs. apply post_bind. eapply post_mono; [by apply Hm|]. intros a s' [Hs' _]. by apply Hk. Qed.
Lemma half_gets {A B} (f : sim L -> A) (k : A -> M (sim L) B) :
  (forall s, step (same_dev s0) P s0 s -> half (k (f s))) -> half (x ← gets f; k x).
Proof. intros Hk s Hs. apply post_bind, post_gets. by apply Hk. Qed.
Ltac halfs := repeat match goal with
  | |- half (mbind _ (gets _)) => apply half_gets; intros ?s ?Hs
  | |- half (if _ then _ else _) => case_match; [by apply half_keep; run|]
  | |- half (mbind _ _) => apply half_bind; [solve [run]|intros ?]
  end.

Lemma read_half : half (sdmmc_read_write SCF_DIR_IN).
Proof.
  unfold sdmmc_read_write. halfs. rewrite phys_rlw, write_flags_in. cbn [andb].
  apply half_end; [by apply rw_rw|]. intros e. run.
Qed.
Lemma legacy_later s x q : step (same_dev s0) P s0 s -> ext s = x -> cdb q = cdb (req s0) ->
  has (write_flags x SCF_DIR_OUT (default 0 (cdb q !! 1%nat))) SCF_SBC_RLW = true ->
  has (write_flags (ext s0) SCF_DIR_OUT (default 0 (cdb (req s0) !! 1%nat))) SCF_SBC_RLW = true.
Proof.
  intros Hs <- ->. rewrite !write_flags_out, <- (step_dev _ _ _ _ Hs). intros [E|E]%orb_true_iff; apply orb_true_iff; [left|by right].
  by apply (step_relwr _ _ _ _ Hs).
Qed.
Lemma step_cdb R s : step R P s0 s -> cdb (req s) = cdb (req s0) /\ req_sgl (req s) = req_sgl (req s0).
Proof. intros Hs. destruct (step_req _ _ _ _ Hs) as (?&F&?&?&?&D&A&G&_). split; [done|]. unfold req_sgl. by rewrite F, G, A, D. Qed.
Lemma write_half : (legacy (req s0) (ext s0) = true -> legacy_fine (req s0) (dev_inf (ext s0))) -> half (sdmmc_read_write SCF_DIR_OUT).
Proof.
  intros Hleg. unfold sdmmc_read_write. halfs. rewrite phys_rlw.
  apply half_end; [|intros e; run]. match goal with |- rw_runs _ _ (if ?b then _ else _) => destruct b eqn:E end; [|by apply rw_rw]. apply andb_true_iff in E as [E1 E2].
  destruct (step_cdb _ s1 ltac:(eassumption)) as [Ec Eg]. rewrite Eg.
  destruct Hleg as [Hr Hw]; [|by apply rel_write_runs].
  unfold legacy. rewrite (legacy_later s _ _ Hs eq_refl Ec E1). pose proof (step_dev _ _ _ _ Hs1) as ED. unfold same_dev in ED. by rewrite ED.
Qed.
#[local] Hint Extern 1 (runs _ _ _ (erase_call _ _ _)) => unfold erase_call; run : runs.
Lemma runs_write_same R : runs R P s0 sdmmc_write_same.
Proof. unfold sdmmc_write_same. run. Qed.
Lemma runs_erase12 : 512 <= di_erase_size (dev_inf (ext s0)) -> runs (same_dev s0) P s0 sdmmc_erase12.
Proof.
  intros He. unfold sdmmc_erase12. apply runs_gets. intros s Hs. rewrite <- (step_dev _ _ _ _ Hs).
  assert (1 <= di_erase_size (dev_inf (ext s0)) / 512) by (apply Z.div_le_lower_bound; lia).
  rewrite (proj2 (Z.eqb_neq _ _)) by lia. run.
Qed.
Lemma runs_switch R i v : runs R P s0 (wp_switch i v).
Proof. unfold wp_switch. run. Qed.
#[local] Hint Resolve runs_switch : runs.
Lemma runs_enter R : runs R P s0 ffu_enter.
Proof. unfold ffu_enter. run. Qed.
#[local] Hint Resolve runs_enter : runs.
Lemma fine_later R s : step R P s0 s -> fine (req s) (ext s).
Proof.
  intros Hs. constructor.
  - by apply (same_targets_fit _ _ _ _ Hs), Hfine.
  - destruct (fine_part _ _ Hfine) as [p Hp]. destruct (same_targets_at _ _ _ _ _ _ _ Hs Hp) as (q & Eq & _).
    destruct (step_req _ _ _ _ Hs) as (_ & _ & -> & -> & _). by exists q.
  - pose proof (fine_sense _ _ Hfine) as Hl. pose proof (step_sense _ _ _ _ Hs) as E.
    destruct (sense (req s)) as [l|], (sense (req s0)) as [k|]; try done. injection E as E. lia.
Qed.
Lemma runs_rw f a n l t : runs sectors P s0 (sdmmc_rw f a n l t).
Proof.
  intros s Hs. eapply post_mono; [apply (rw_rw P Hall s); [by eapply fine_later|exact (step_dev _ _ _ _ Hs)|by apply req_step_refl]|].
  intros e s' [Hs' _]. by eapply req_step_trans.
Qed.
Lemma runs_size v : 0 < v -> runs sectors P s0 (upd_sector_size v).
Proof. intros Hv. apply runs_upd. intros x. by split_and!. Qed.
#[local] Hint Resolve runs_rw runs_size : runs.
Lemma runs_ffu_write n d : 0 < d -> runs sectors P s0 (ffu_write n d).
Proof. intros Hd. unfold ffu_write, or_cmp. run. apply runs_size, blksz_pos. Qed.
Lemma runs_ffu n : runs sectors P s0 (sdmmc_ffu n).
Proof. unfold sdmmc_ffu, or_cmp. run; apply runs_ffu_write; by case_match. Qed.

(** ** The request is one that the layer can do *)
Definition opcode_of (q : ccb) : Z := default 0 (cdb q !! 0%nat).
Definition answer_ops : list Z := [SC_INQUIRY; SC_RD_CAP; SC_MSELECT10; SC_MSENSE10; SC_SERVICE_ACTION_IN16].
Record scsi_fine (q : ccb) (x : sim_ext) : Prop := ScsiFine {
  sf_room : opcode_of q ∈ answer_ops -> (96 <= length (data q))%nat /\ 0 <= dxfer_len q <= Z.of_nat (length (data q));
  sf_erase : opcode_of q = SC_ERASE12 -> 512 <= di_erase_size (dev_inf x);
  sf_legacy : opcode_of q = SC_WRITE10 -> legacy q x = true -> legacy_fine q (dev_inf x)
}.
Context (Hscsi : scsi_fine (req s0) (ext s0)).
Lemma half_case {A} (b : bool) (m n : M (sim L) A) : (b = true -> half m) -> half n -> half (if b then m else n).
Proof. destruct b; auto. Qed.
Lemma room_for op : opcode_of (req s0) = op -> bool_decide (op ∈ answer_ops) = true ->
  (96 <= length (data (req s0)))%nat /\ 0 <= dxfer_len (req s0) <= Z.of_nat (length (data (req s0))).
Proof. intros E Hin%bool_decide_eq_true_1. apply (sf_room _ _ Hscsi). by rewrite E. Qed.
Lemma scsi_half n d : half (sdmmc_scsi_io n d).
Proof.
  unfold sdmmc_scsi_io, cdb_byte. do 3 (apply half_gets; intros ? ?). destruct (step_cdb _ s2 ltac:(eassumption)) as [-> _].
  change (default 0 (cdb (req s0) !! 0%nat)) with (opcode_of (req s0)).
  repeat (apply half_case; [intros E|]); try apply Z.eqb_eq in E;
    try (destruct (room_for _ E eq_refl) as [Hd Hx]); try (apply half_keep; by run).
  - apply read_half.
  - apply half_bind; [run|]. intros _. apply write_half. by apply (sf_legacy _ _ Hscsi).
  - apply half_keep, runs_erase12. by apply (sf_erase _ _ Hscsi).
  - intros s' Hs'. apply runs_ffu. by apply same_sectors.
  - apply half_keep, runs_write_same.
Qed.
Lemma start_half n d : half (start_scsi n d).
Proof.
  unfold start_scsi. apply half_bind; [run|]. intros _ s Hs. apply post_bind. eapply post_mono; [by apply scsi_half|].
  intros st s' Hs'. revert s' Hs'. change (runs sectors P s0 (finish_ccb st)). unfold finish_ccb. run.
Qed.
End requests.

(** ** Erasing, in the range of a partition *)
Section erasing.
Context {L : Type} `{sdio_lib L} `{!sdio_lib_laws L} (s0 : sim L) (Hfine : fine (req s0) (ext s0)).
Context (p0 : partition) (Hp0 : part_at (ext s0) (target_id (req s0)) (target_lun (req s0)) = Some p0).
Context (Hplace : 0 <= slba p0 /\ 0 < nlba p0 /\ slba p0 + nlba p0 <= 2 ^ 63).

(** Of the calls that touch the card's data, only erasing inside of the partition. *)
Definition in_partition (p : partition) (c : call) : Prop :=
  match c with CErase _ _ a n _ => slba p <= a /\ a + n <= slba p + nlba p | _ => maint c = true end.
Let Hm c : maint c = true -> in_partition p0 c.
Proof. by destruct c. Qed.
Lemma inside p a n : same_part p0 p -> outside p a n = false -> slba p0 <= a -> 0 <= n < 2 ^ 32 ->
  slba p0 <= a /\ a + n <= slba p0 + nlba p0.
Proof.
  intros (_ & _ & _ & Es & _ & En & _). unfold outside. rewrite Es, En. intros [H1 H2]%orb_false_iff. intros Ha Hn.
  apply Z.ltb_ge in H1, H2. unfold u64 in *. rewrite (Z.mod_small (slba p0 + nlba p0 - 1)) in H1, H2 by lia.
  destruct (decide (a + n = 0)) as [E|E]; [lia|]. rewrite Z.mod_small in H2 by lia. lia.
Qed.
Lemma runs_erase R t a n : slba p0 <= a /\ a + n <= slba p0 + nlba p0 -> runs R (in_partition p0) s0 (erase_call t a n).
Proof. intros Ha. unfold erase_call. run. Qed.
Lemma runs_erase_and R t a n c : slba p0 <= a /\ a + n <= slba p0 + nlba p0 -> runs R (in_partition p0) s0 c ->
  runs R (in_partition p0) s0 (erase_and t a n c).
Proof.
  intros Ha Hc. unfold erase_and. apply runs_bind; [by apply runs_erase|]. intros e. apply runs_bind; [|intros; apply runs_ret].
  apply runs_decide; [done|apply runs_ret].
Qed.
Lemma start_inside a p : same_part p0 p -> 0 <= a < 2 ^ 63 -> slba p0 <= u64 (slba p + a).
Proof. intros (_ & _ & _ & -> & _) Ha. unfold u64. rewrite Z.mod_small by lia. lia. Qed.
#[local] Hint Resolve runs_erase_and runs_ret : runs.
Lemma erase_devctl_runs er : 0 <= er_lba er < 2 ^ 63 -> 512 <= di_erase_size (dev_inf (ext s0)) ->
  runs (same_dev s0) (in_partition p0) s0 (sdmmc_erase_devctl er).
Proof.
  intros Hl He. unfold sdmmc_erase_devctl. apply runs_gets. intros s Hs. pose proof (step_dev _ _ _ _ Hs) as ED. unfold same_dev in ED.
  rewrite <- ED. assert (1 <= di_erase_size (dev_inf (ext s0)) / 512) by (apply Z.div_le_lower_bound; lia).
  assert ((di_erase_size (dev_inf (ext s0)) / 512 =? 0) = false) as E0 by (apply Z.eqb_neq; lia). cbv beta zeta. rewrite E0.
  apply (runs_part _ _ _ Hfine). intros p q Ep Hq. assert (p = p0) as -> by congruence.
  apply runs_bind; [run|]. intros st. apply runs_if; [run|]. destruct (outside _ _ _) eqn:Eo; [run|].
  pose proof (inside _ _ _ Hq Eo (start_inside _ _ Hq Hl) (u32_range _)) as Hin.
  run.
Qed.
Lemma dsm_runs R p l t : same_part p0 p -> Forall (fun r => 0 <= fst r < 2 ^ 63) l -> runs R (in_partition p0) s0 (sdmmc_dsm p l t).
Proof.
  intros Hq. induction l as [|[a n] l IH]; intros Hl; cbn [sdmmc_dsm]; [run|]. apply Forall_cons in Hl as [Ha Hl].
  destruct (outside _ _ _) eqn:Eo; [run|].
  pose proof (inside _ _ _ Hq Eo (start_inside _ _ Hq Ha) (u32_range _)) as Hin. apply runs_bind; [by apply runs_erase|]. intros e.
  apply runs_decide; [run|]. apply runs_bind; [|intros _; by apply IH]. unfold dsm_count. run.
Qed.
Lemma dsm_devctl_runs R o1 o2 z1 z2 size d : Forall (fun r => 0 <= fst r < 2 ^ 63) (ranges d) ->
  runs R (in_partition p0) s0 (sdmmc_dsm_devctl o1 o2 z1 z2 size d).
Proof.
  intros Hl. unfold sdmmc_dsm_devctl. apply runs_gets. intros s Hs. apply (runs_part _ _ _ Hfine). intros p q Ep Hq.
  assert (p = p0) as -> by congruence. pose proof (fun t => dsm_runs R q (ranges d) t Hq Hl). run.
Qed.
End erasing.
