(* ===== verification/SimRw.v ===== *)
(** * Data transfer of the SCSI layer: what it asks the card for (theorems on Sim.v)

    The calls of one transfer, in order, for every way it can end; and from
    there what reading and writing do. *)
From S2P Require Import Prelude Driver SdioReg SdioConst Sdhci SdioCmd SimConst Sim SimReq SimStep.
Open Scope Z_scope.

Definition quietly (c : call) : Prop := maint c = true.

Section logs.
Context {L : Type} `{sdio_lib L} `{!sdio_lib_laws L}.
Definition ok (s : sim L) : Prop := fine (req s) (ext s) /\ sectors (dev_inf (ext s)).
Definition anything (c : call) : Prop := True.

(** A run from a good state, and what it adds to the calls. *)
Definition logs {A} (m : M (sim L) A) (s : sim L) (Q : A -> list call -> Prop) : Prop :=
  post m s (fun a s' => exists l, calls s' = calls s ++ l /\ Q a l /\ step sectors anything s s').

Lemma ok_later s s' : ok s -> step sectors anything s s' -> ok s'.
Proof. intros [Hf _] Hs. split; [by eapply fine_later|exact (step_dev _ _ _ _ Hs)]. Qed.
Lemma logs_ret {A} (a : A) s (Q : A -> list call -> Prop) : ok s -> Q a [] -> logs (mret a) s Q.
Proof. intros [_ Hs] HQ. apply post_ret. exists []. rewrite app_nil_r. split_and!; [done..|by apply req_step_refl]. Qed.
Lemma logs_gets {A B} (f : sim L -> A) (k : A -> M (sim L) B) s Q : logs (k (f s)) s Q -> logs (x ← gets f; k x) s Q.
Proof. intros Hk. by apply post_bind, post_gets. Qed.
Lemma logs_bind {A B} (m : M (sim L) A) (k : A -> M (sim L) B) s Q1 Q :
  ok s -> logs m s Q1 -> (forall a l s', ok s' -> Q1 a l -> logs (k a) s' (fun b l' => Q b (l ++ l'))) -> logs (x ← m; k x) s Q.
Proof.
  intros Hok Hm Hk. apply post_bind. eapply post_mono; [exact Hm|]. intros a s1 (l & El & HQ & Hs).
  eapply post_mono; [apply (Hk a l s1); [by eapply ok_later|done]|]. intros b s2 (l' & El' & HQ' & Hs').
  exists (l ++ l'). rewrite El', El, app_assoc. split_and!; [done..|by eapply req_step_trans].
Qed.
Lemma logs_mono {A} (m : M (sim L) A) s (Q Q' : A -> list call -> Prop) : logs m s Q -> (forall a l, Q a l -> Q' a l) -> logs m s Q'.
Proof. intros Hm HQ. eapply post_mono; [exact Hm|]. intros a s' (l & E & ? & ?). exists l. auto. Qed.
Lemma logs_call {A B} (m : M L A) ev (k : A -> M (sim L) B) s Q : ok s -> ends m ->
  (forall a k', m (lib s) = Some (a, k') -> let s' := Sim (ext s) k' (req s) (calls s ++ [ev a]) in ok s' -> logs (k a) s' (fun b l => Q b (ev a :: l))) ->
  logs (x ← lib_call m ev; k x) s Q.
Proof.
  intros Hok Hm Hk. destruct (Hm (lib s)) as [[a k'] E]. apply post_bind.
  exists a, (Sim (ext s) k' (req s) (calls s ++ [ev a])). unfold lib_call. rewrite E. split; [done|].
  eapply post_mono; [apply (Hk a k'); [exact E|exact Hok]|]. intros b s2 (l & El & HQ & Hs). exists (ev a :: l).
  rewrite El. cbn [calls]. rewrite <- app_assoc. split_and!; [done..|]. eapply req_step_trans; [|exact Hs].
  apply step_event; [done|]. by apply req_step_refl, Hok.
Qed.
Lemma logs_quiet {A B} (m : M L A) (k : A -> M (sim L) B) s Q : ok s -> ends m ->
  (forall a k', let s' := Sim (ext s) k' (req s) (calls s) in ok s' -> logs (k a) s' Q) -> logs (x ← lib_quiet m; k x) s Q.
Proof.
  intros Hok Hm Hk. destruct (Hm (lib s)) as [[a k'] E]. apply post_bind.
  exists a, (Sim (ext s) k' (req s) (calls s)). unfold lib_quiet. rewrite E. split; [done|].
  eapply post_mono; [apply (Hk a k'); exact Hok|]. intros b s2 (l & El & HQ & Hs). exists l. split_and!; [done..|].
  by destruct Hs.
Qed.
Lemma logs_runs {A} (m : M (sim L) A) s P : ok s -> runs sectors P s m -> logs m s (fun _ => Forall P).
Proof.
  intros [_ Hok] Hm. eapply post_mono; [by apply Hm, req_step_refl|]. intros a s' Hst.
  destruct (step_calls _ _ _ _ Hst) as (l & E & Hl & Hd). exists l. split_and!; [done..|].
  destruct Hst. constructor; [|done..]. exists l. split_and!; [done| |done]. by eapply Forall_impl.
Qed.
End logs.

(** ** One transfer *)

(** The command in [x]; the calls after it that a success has; a response without errors. *)
Definition open_ended (x : sim_ext) (flgs dlen : Z) : bool :=
  has flgs SCF_MULTIBLK && negb (has flgs SCF_SBC) && (di_sector_size (dev_inf x) <? dlen) && negb (has (hc_inf_caps x) HC_CAP_ACMD12).
Definition stops (x : sim_ext) (flgs dlen : Z) : list call := if open_ended x flgs dlen then [CStop EOK] else [].
Definition clean (rsp : Z) : Prop := rw_result EOK CS_CMD_CMP rsp = EOK.

Lemma rw_result_ok st cs rsp : rw_result st cs rsp = EOK -> st = EOK /\ cs = CS_CMD_CMP /\ clean rsp.
Proof.
  unfold clean, rw_result. repeat case_match; try done. intros ->. by zbool.
Qed.

Inductive rw_says (x : sim_ext) (flgs addr dlen : Z) (l : list sge) (t : Z) : errno -> list call -> Prop :=
| SaysNoMem : rw_says x flgs addr dlen l t ENOMEM []
| SaysRemoved c c' :
    rw_says x flgs addr dlen l t ENXIO [CSend (rw_cmd x flgs addr dlen l c) (Z.shiftr (rw_addr x addr) 32) (u32 (t * 1000)) ENXIO c']
| SaysRead c c' :
    has (rw_flags x flgs dlen) SCF_DIR_OUT = false -> cstatus c' = CS_CMD_CMP -> clean (rsp0 c') ->
    rw_says x flgs addr dlen l t EOK
      (CSend (rw_cmd x flgs addr dlen l c) (Z.shiftr (rw_addr x addr) 32) (u32 (t * 1000)) EOK c' :: stops x (rw_flags x flgs dlen) dlen)
| SaysWritten c c' r :
    has (rw_flags x flgs dlen) SCF_DIR_OUT = true -> cstatus c' = CS_CMD_CMP -> clean r -> not_ready r = false ->
    rw_says x flgs addr dlen l t EOK
      (CSend (rw_cmd x flgs addr dlen l c) (Z.shiftr (rw_addr x addr) 32) (u32 (t * 1000)) EOK c' ::
       stops x (rw_flags x flgs dlen) dlen ++ [CWait EOK r])
| SaysError c c' e st mid e1 r rest :
    e <> EOK -> Forall quietly mid -> Forall quietly rest -> (e1 = EOK /\ not_ready r = false) \/ CReset ∈ rest ->
    rw_says x flgs addr dlen l t e
      (CSend (rw_cmd x flgs addr dlen l c) (Z.shiftr (rw_addr x addr) 32) (u32 (t * 1000)) st c' :: mid ++ CStatus e1 r :: rest).

Section transfer.
Context {L : Type} `{sdio_lib L} `{!sdio_lib_laws L}.
Lemma maint_quietly c : maint c = true -> quietly c.
Proof. done. Qed.
#[local] Hint Resolve maint_quietly : lib_ends runs.
Lemma logs_quietly {A} (m : M (sim L) A) s : ok s -> (fine (req s) (ext s) -> runs sectors quietly s m) -> logs m s (fun _ => Forall quietly).
Proof. intros [Hf Hs] Hm. apply logs_runs; [done|auto]. Qed.
Lemma logs_case {A} (b : Prop) `{Decision b} (m n : M (sim L) A) s Q :
  (b -> logs m s Q) -> (~ b -> logs n s Q) -> logs (if decide b then m else n) s Q.
Proof. by case_decide; auto. Qed.

Lemma logs_status r s : ok s ->
  logs (call_status r) s (fun b l => exists e r', l = [CStatus e r'] /\ (fst b = false -> e = EOK /\ not_ready r' = false)).
Proof.
  intros Hok. unfold call_status. apply logs_call; [done|auto with lib_ends|]. intros [e r'] k E s' Hok'. cbn [fst snd].
  apply logs_ret; [done|]. exists e, r'. split; [done|]. cbn [fst]. intros [E1 E2]%orb_false_iff.
  apply negb_false_iff, bool_decide_eq_true in E1. subst e. by rewrite decide_True in E2.
Qed.

Lemma logs_silent {A} (m : M (sim L) A) s : ok s -> runs sectors (fun _ => False) s m -> logs m s (fun (_ : A) l => l = []).
Proof. intros Hok Hm. eapply logs_mono; [by apply logs_runs|]. intros a l Hl. by destruct Hl. Qed.
Lemma logs_part s : ok s -> logs (L:=L) the_part s (fun _ l => l = []).
Proof. intros Hok. apply logs_silent; [done|]. by apply runs_the_part, Hok. Qed.
Lemma logs_count r w t e d s : ok s -> logs (L:=L) (count r w t e d) s (fun _ l => l = []).
Proof. intros Hok. apply logs_silent; [done|]. apply runs_count. Qed.

(** After a command that was done: the stop, the wait, the counters. *)
Lemma logs_stops (b : bool) s : ok s ->
  logs (if b then e ← call_stop; mret (if decide (e = EOK) then EOK else ETIMEDOUT) else mret EOK) s
    (fun st l => Forall quietly l /\ (st = EOK -> l = if b then [CStop EOK] else [])).
Proof.
  intros Hok. destruct b; [|by apply logs_ret]. unfold call_stop. apply logs_call; [done|auto with lib_ends|]. intros e k _ s' Hok'.
  apply logs_ret; [done|]. split; [by repeat constructor|]. by case_decide as E; [rewrite E|].
Qed.
Lemma logs_wait (b : bool) st n r s : ok s ->
  logs (if b then w ← lib_call (lib_wait READY_MSK READY n r) (fun w => CWait (fst w) (snd w));
                  (if decide (fst w = EOK) then mret () else call_stop;; mret ());; mret w else mret (st, r)) s
    (fun y l => Forall quietly l /\
       (fst y = EOK -> if b then l = [CWait EOK (snd y)] /\ not_ready (snd y) = false else l = [] /\ y = (st, r))).
Proof.
  intros Hok. destruct b; [|by apply logs_ret]. apply logs_call; [done|auto with lib_ends|]. intros [e r'] k E s' Hok'. cbn [fst snd].
  case_decide as He; [subst e|].
  - apply logs_ret; [done|]. split; [by repeat constructor|]. intros _. cbn [snd]. split; [done|].
    unfold not_ready. by rewrite (wait_shows _ _ _ _ _ _ _ E), Z.eqb_refl.
  - eapply (logs_bind _ _ _ (fun _ l => Forall quietly l)); [done| |].
    + apply logs_quietly; [done|]. intros Hok2. unfold call_stop. run.
    + intros _ l s2 Hok2 Hl. apply logs_ret; [done|]. split; [|done]. rewrite app_nil_r. by constructor.
Qed.
Lemma logs_done f n t r s : ok s -> logs (rw_done f n t r) s (fun y l => Forall quietly l /\
  (fst y = EOK -> if has f SCF_DIR_OUT then l = stops (ext s) f n ++ [CWait EOK (snd y)] /\ not_ready (snd y) = false
                  else l = stops (ext s) f n /\ snd y = r)).
Proof.
  intros Hok. unfold rw_done. apply logs_gets. eapply logs_bind; [done|by apply logs_part|]. intros p l s1 Hok1 ->.
  eapply logs_bind; [done|by apply logs_stops|]. intros st l1 s2 Hok2 [Hl1 E1].
  eapply logs_bind; [done|by apply (logs_wait (bool_decide (st = EOK) && has f SCF_DIR_OUT))|]. intros y l2 s3 Hok3 [Hl2 E2].
  eapply (logs_bind _ _ _ (fun _ l => l = [])); [done|repeat case_match; first [by apply logs_count|by apply logs_ret]|].
  intros _ l3 s4 Hok4 ->. apply logs_ret; [done|]. cbn [app]. rewrite !app_nil_r. split; [by apply Forall_app|].
  intros Ey. specialize (E2 Ey).
  assert (st = EOK) as ->.
  { destruct (decide (st = EOK)) as [|Hne]; [done|]. rewrite bool_decide_eq_false_2 in E2 by done. cbn in E2. destruct E2 as [_ ->]. by destruct Hne. }
  rewrite (E1 eq_refl). rewrite bool_decide_eq_true_2 in E2 by done. cbn [andb] in E2. unfold stops, open_ended.
  destruct (has f SCF_DIR_OUT); destruct E2 as [-> E2]; (split; [by rewrite ?app_nil_r|]); [done|by rewrite E2].
Qed.
Lemma logs_failed e r s : ok s -> logs (rw_failed e r) s (fun y l => Forall quietly l /\ (e <> EOK -> fst y <> EOK)).
Proof.
  intros Hok. unfold rw_failed. eapply logs_bind; [done|by apply logs_status|]. intros [b r'] l s1 Hok1 (e1 & r1 & -> & _).
  destruct b; [|by apply logs_ret; [|split; [repeat constructor|]]]. unfold call_stop.
  apply logs_call; [done|auto with lib_ends|]. intros e2 k _ s2 Hok2. apply logs_ret; [done|].
  split; [by repeat constructor|]. intros He. by case_decide.
Qed.

Lemma logs_reset s : ok s -> logs sdmmc_reset s (fun _ l => Forall quietly l /\ CReset ∈ l).
Proof.
  intros Hok. unfold sdmmc_reset. apply logs_call; [done|auto with lib_ends|]. intros e k _ s1 Hok1.
  eapply logs_mono; [apply logs_quietly; [done|]; intros Hf; run|]. intros a l Hl. split; [by constructor|apply list_elem_of_here].
Qed.

(** What follows an error: the card is ready for data, or the controller is reset. *)
Lemma logs_recover f e b r s : ok s -> logs (rw_recover f e b r) s (fun _ l => exists e1 r1 rest,
  l = CStatus e1 r1 :: rest /\ Forall quietly rest /\ ((e1 = EOK /\ not_ready r1 = false) \/ CReset ∈ rest)).
Proof.
  intros Hok. unfold rw_recover. eapply logs_bind; [done|by apply logs_status|]. intros [bad r'] l s1 Hok1 (e1 & r1 & -> & Hr).
  cbn [fst] in *. eapply (logs_bind _ _ _ (fun _ l => Forall quietly l /\ (bad = true -> CReset ∈ l))); [done| |].
  - destruct bad; [|by apply logs_ret].
    eapply logs_bind; [done|by apply logs_reset|]. intros _ l s2 Hok2 [Hl Hin]. apply logs_ret; [done|]. by rewrite app_nil_r.
  - intros _ l s2 Hok2 [Hl Hb]. eapply logs_mono; [apply logs_quietly; [done|]|].
    + intros Hf. run; apply runs_upd; intros ?; split_and!; try done. intros _. apply sector_pos.
    + intros a l' Hl'. exists e1, r1, (l ++ l'). split_and!; [done|by apply Forall_app|].
      destruct bad; [right|left; by apply Hr]. apply elem_of_app. left. by apply Hb.
Qed.
Lemma logs_end f c' y s : ok s -> logs (rw_end f c' y) s (fun e l => e = rw_result (fst y) (cstatus c') (snd y) /\
  (if decide (e = EOK) then l = [] else exists e1 r1 rest, l = CStatus e1 r1 :: rest /\ Forall quietly rest /\
     ((e1 = EOK /\ not_ready r1 = false) \/ CReset ∈ rest))).
Proof.
  intros Hok. unfold rw_end. eapply (logs_bind _ _ _ (fun _ l => l = [])); [done| |].
  { apply logs_silent; [done|]. run. }
  intros _ l s1 Hok1 ->. case_decide as E.
  - apply logs_ret; [done|]. by rewrite decide_True.
  - eapply logs_bind; [done|by apply logs_recover|]. intros u l s2 Hok2 Hl. apply logs_ret; [done|].
    rewrite decide_False, app_nil_r by done. done.
Qed.

(** Every way a transfer can end. *)
Lemma logs_rw f a n l t s : ok s -> logs (sdmmc_rw f a n l t) s (rw_says (ext s) f a n l t).
Proof.
  intros Hok. unfold sdmmc_rw. apply logs_gets. rewrite (proj2 (Z.eqb_neq _ _)); [|destruct Hok as [_ Hs]; unfold sectors in Hs; lia].
  apply logs_quiet; [done|auto with lib_ends|]. intros [c|] k s1 Hok1; [|apply logs_ret; [done|constructor]].
  unfold lib_send_cmd. apply logs_call; [done|auto with lib_ends|]. intros [st c'] k2 _ s2 Hok2. cbn [fst snd].
  case_decide as E; [subst st; apply logs_ret; [done|constructor]|].
  case_decide as E2; [subst st|].
  - eapply logs_bind; [done|by apply logs_done|]. intros y m s3 Hok3 [Hm Hy].
    eapply logs_mono; [by apply logs_end|]. intros e l2 [-> Hl2]. case_decide as E3.
    + subst l2. rewrite E3, app_nil_r. apply rw_result_ok in E3 as (E3 & E4 & E5). specialize (Hy E3).
      change (ext s2) with (ext s) in Hy.
      destruct (has _ SCF_DIR_OUT) eqn:Eo; destruct Hy as [-> Hy]; [by eapply SaysWritten|]. apply SaysRead; [done..|by rewrite <- Hy].
    + destruct Hl2 as (e1 & r1 & rest & -> & Hr & Hor). by apply SaysError.
  - eapply logs_bind; [done|by apply logs_failed|]. intros y m s3 Hok3 [Hm Hy]. specialize (Hy E2).
    eapply logs_mono; [by apply logs_end|]. intros e l2 [-> Hl2]. rewrite decide_False in Hl2.
    + destruct Hl2 as (e1 & r1 & rest & -> & Hr & Hor). apply SaysError; try done. intros Er. by apply rw_result_ok in Er as [? _].
    + intros Er. by apply rw_result_ok in Er as [? _].
Qed.

(** The device and the controller are those of [s], for the code that follows. *)
Lemma logs_runs_bind {A B} (m : M (sim L) A) (k : A -> M (sim L) B) s P Q : ok s -> runs (same_dev s) P s m ->
  (forall a l s', ok s' -> Forall P l -> step (same_dev s) P s s' -> logs (k a) s' (fun b l' => Q b (l ++ l'))) ->
  logs (x ← m; k x) s Q.
Proof.
  intros [Hf Hs] Hm Hk. apply post_bind. eapply post_mono; [by apply Hm, req_step_refl|]. intros a s1 Hst.
  destruct (step_calls _ _ _ _ Hst) as (l & El & Hl & Hd).
  assert (step sectors anything s s1) as Hst'.
  { apply (same_sectors _ _ Hs). destruct Hst. constructor; [|done..]. exists l. split_and!; [done| |done]. by eapply Forall_impl. }
  eapply post_mono; [apply (Hk a l s1); [by eapply ok_later|done..]|]. intros b s2 (l' & El' & HQ & Hs').
  exists (l ++ l'). rewrite El', El, app_assoc. split_and!; [done..|by eapply req_step_trans].
Qed.
End transfer.

(** A transfer depends on the device and the controller only. *)
Lemma rw_says_ext x y f a n l t e d : dev_inf y = dev_inf x -> hc_inf_caps y = hc_inf_caps x ->
  rw_says x f a n l t e d -> rw_says y f a n l t e d.
Proof.
  intros Ed Eh. assert (rw_flags y f n = rw_flags x f n) as Ef by (unfold rw_flags; by rewrite Ed, Eh).
  assert (rw_addr y a = rw_addr x a) as Ea by (unfold rw_addr; by rewrite Ed).
  assert (forall c, rw_cmd y f a n l c = rw_cmd x f a n l c) as Ec by (intros c; unfold rw_cmd; by rewrite Ef, Ea, Ed).
  assert (stops y (rw_flags x f n) n = stops x (rw_flags x f n) n) as Es by (unfold stops, open_ended; by rewrite Ed, Eh).
  destruct 1; rewrite <- ?Ec, <- ?Ea, <- ?Es, <- ?Ef; constructor; by rewrite ?Ef.
Qed.

(** ** Reliable writes in pieces: the scatter list, in order, to consecutive blocks *)
Inductive rel_covers (x : sim_ext) (f t : Z) : Z -> list sge -> list call -> Prop :=
| CoversAll lba : rel_covers x f t lba [] []
| CoversEntry lba a r d : rel_covers x f t lba r d -> rel_covers x f t lba (Sge a 0 :: r) d
| CoversPiece lba a n c r d1 d2 :
    0 < c <= n -> c mod 512 = 0 -> rw_says x f lba c [Sge a c] t EOK d1 ->
    rel_covers x f t (u64 (lba + c / 512)) (Sge (u64 (a + c)) (n - c) :: r) d2 ->
    rel_covers x f t lba (Sge a n :: r) (d1 ++ d2).

Section reliable.
Context {L : Type} `{sdio_lib L} `{!sdio_lib_laws L}.

(** Like [logs], for code that leaves device and request alone when it succeeds. *)
Definition rel_logs {A} (m : M (sim L) A) (s : sim L) (e : A -> errno) (Q : A -> list call -> Prop) : Prop :=
  post m s (fun a s' => exists l, calls s' = calls s ++ l /\ Q a l /\ step sectors anything s s' /\
    (e a = EOK -> dev_inf (ext s') = dev_inf (ext s))).
Lemma rel_rw f a n l t (s : sim L) : ok s -> rel_logs (sdmmc_rw f a n l t) s (fun e => e) (rw_says (ext s) f a n l t).
Proof.
  intros Hok. destruct (logs_rw f a n l t s Hok) as (e & s' & E & d & Ed & Hd & Hs). exists e, s'. split; [done|].
  exists d. split_and!; [done..|]. intros ->. destruct Hok as [Hf Hss].
  destruct (rw_rw anything (fun _ => I) s Hf Hss f a n l t s) as (e' & s'' & E' & _ & Hk); [by apply req_step_refl|].
  rewrite E in E'. injection E' as <- <-. symmetry. exact (step_dev _ _ _ _ (Hk eq_refl)).
Qed.

Context (x : sim_ext) (t : Z) (Hrel : 0 < di_rel_wr_sec_c (dev_inf x) < 2 ^ 23).
Definition alike (s : sim L) : Prop :=
  ok s /\ dev_inf (ext s) = dev_inf x /\ hc_inf_caps (ext s) = hc_inf_caps x /\ cam_timeout (req s) = t.
Lemma alike_later s s' : alike s -> step sectors anything s s' -> dev_inf (ext s') = dev_inf (ext s) -> alike s'.
Proof.
  intros (Hok & Hd & Hh & Ht) Hst E. split_and!; [by eapply ok_later|congruence| |].
  - by rewrite (proj1 (step_host _ _ _ _ Hst)).
  - by destruct (step_req _ _ _ _ Hst) as (_&_&_&_&_&_&_&_&->&_).
Qed.
Lemma rel_entry_covers fuel f lba a n s : alike s -> whole n -> n < Z.of_nat fuel ->
  post (rel_entry fuel f lba a n) s (fun y s' => exists d, calls s' = calls s ++ d /\ step sectors anything s s' /\
    (fst y = EOK -> dev_inf (ext s') = dev_inf (ext s) /\
       forall r d2, rel_covers x f t (snd y) r d2 -> rel_covers x f t lba (Sge a n :: r) (d ++ d2))).
Proof.
  revert lba a n s. induction fuel as [|fuel IH]; intros lba a n s Hs [Hn Hm] Hf; [lia|]. cbn [rel_entry].
  destruct (Z.eqb_spec n 0) as [->|Hn0].
  { apply post_ret. exists []. rewrite app_nil_r. split_and!; [done|apply req_step_refl, Hs|]. intros _. split; [done|]. by constructor. }
  apply post_bind, post_gets, post_bind, post_gets. destruct Hs as (Hok & Hd & Hh & Ht). cbv zeta. rewrite Hd, Ht.
  destruct (piece_bounds lba (di_rel_wr_sec_c (dev_inf x)) n) as [Hp Hpm]; [done|lia|done|].
  set (c := piece lba (di_rel_wr_sec_c (dev_inf x)) n) in *.
  apply post_bind. eapply post_mono; [by apply rel_rw|]. intros e s1 (d1 & E1 & H1 & Hst1 & Hk). case_decide as Ee.
  { apply post_ret. exists d1. split_and!; [done..|]. intros E. by destruct Ee. }
  assert (e = EOK) as -> by by destruct (decide (e = EOK)). specialize (Hk eq_refl).
  eapply post_mono; [apply IH; [by eapply alike_later| |unfold u32; rewrite Z.mod_small; lia]|].
  { unfold u32. rewrite Z.mod_small by lia. split; [lia|]. by rewrite Zminus_mod, Hm, Hpm. }
  intros y s2 (d & E2 & Hst2 & Hy). exists (d1 ++ d). rewrite E2, E1, app_assoc. split_and!; [done|by eapply req_step_trans|].
  intros Ey. destruct (Hy Ey) as [Ed Hc]. split; [congruence|]. intros r d2 Hr. rewrite <- app_assoc.
  apply CoversPiece with c; [lia|done|by eapply rw_says_ext; [..|exact H1]|].
  assert (n - c = u32 (n - c)) as -> by (unfold u32; rewrite Z.mod_small; lia). by apply Hc.
Qed.
Lemma rel_write_covers f l s lba : alike s -> Forall (fun e => whole (sg_count e)) l ->
  logs (rel_write f lba l) s (fun e d => e = EOK -> rel_covers x f t lba l d).
Proof.
  revert lba s. induction l as [|[a n] l IH]; intros lba s Hs Hl; [apply logs_ret; [apply Hs|constructor]|].
  apply Forall_cons in Hl as [Hn Hl]. cbn [rel_write sg_address sg_count]. cbn [sg_count] in Hn. apply post_bind.
  eapply post_mono; [apply rel_entry_covers; [done..|destruct Hn; lia]|]. intros [st lba'] s1 (d & E & Hst & Hy). case_decide as Ee.
  { apply post_ret. exists d. split_and!; [done| |done]. intros E'. by destruct Ee. }
  assert (st = EOK) as -> by by destruct (decide (st = EOK)). destruct (Hy eq_refl) as [Ed Hc].
  eapply post_mono; [apply (IH lba' s1); [by eapply alike_later|done]|]. intros e s2 (d2 & E2 & He & Hst2).
  exists (d ++ d2). rewrite E2, E, app_assoc. split_and!; [done| |by eapply req_step_trans]. auto.
Qed.
End reliable.
