(* ===== verification/SimDisk.v ===== *)
(** * What the SCSI layer promises to the system (theorems on Sim.v and SimReq.v)

    Reading and writing, protection after a lost cache, erasing, capacity,
    partitions. *)
From S2P Require Import Prelude Driver SdioReg SdioConst Sdhci SdioCmd SimConst Sim SimReq SimStep SimRw.
Open Scope Z_scope.

(** ** Requests that are refused *)
Definition refused (x : sim_ext) (p : partition) (flgs : Z) : bool :=
  negb (has (eflags x) SDMMC_EFLAG_PRESENT) || (nlba p =? 0) || has (di_flags (dev_inf x)) DEV_FLAG_CARD_LOCKED ||
  (has flgs SCF_DIR_OUT && has (pflags p) SDMMC_PFLAG_WP) || (Z.land (config p) MMC_PART_MSK =? MMC_PART_RPMB).

(** ** What a transfer that succeeds has asked for *)
Definition transfer_flags (x : sim_ext) (q : ccb) (flgs : Z) : Z :=
  let f := write_flags x flgs (default 0 (cdb q !! 1%nat)) in if has (cam_flags q) CAM_DATA_PHYS then Z.lor f SCF_DATA_PHYS else f.
Definition transferred (x : sim_ext) (q : ccb) (p : partition) (flgs : Z) (d : list call) : Prop :=
  let f := transfer_flags x q flgs in
  let lba := start_block p (fst (sdmmc_ccb_lba (cdb q))) in
  if has f SCF_SBC_RLW && negb (has (di_caps (dev_inf x)) DEV_CAP_WR_REL_ENH)
  then rel_covers x f (cam_timeout q) lba (req_sgl q) d
  else rw_says x f lba (dxfer_len q) (req_sgl q) (cam_timeout q) EOK d.

(** ** Where data goes

    PARTITION_ACCESS of the card after a call: selecting a partition sets it, and a reset clears it, so that the card
    is back in its user area. *)
Definition selects (sel : Z) (c : call) : Z :=
  match c with CPartition conf EOK => Z.land conf MMC_PART_MSK | CReset => MMC_PART_USER | _ => sel end.
(** Every data command of [l] is sent with partition [v] selected, when it is [sel] before. *)
Fixpoint goes_to (v sel : Z) (l : list call) : Prop :=
  match l with
  | [] => True
  | c :: r => match c with CSend _ _ _ _ _ => sel = v | _ => True end /\ goes_to v (selects sel c) r
  end.
Definition was_reset (l : list call) : bool := existsb (fun c => match c with CReset => true | _ => false end) l.
Definition selects_none (c : call) : Prop := match c with CPartition _ _ | CReset => False | _ => True end.

Lemma goes_to_app v sel l r : goes_to v sel (l ++ r) <-> goes_to v sel l /\ goes_to v (foldl selects sel l) r.
Proof. revert sel. induction l as [|c l IH]; intros sel; cbn; [tauto|]. rewrite IH. tauto. Qed.
Lemma quietly_goes v sel l : Forall quietly l -> goes_to v sel l.
Proof. intros Hl. revert sel. induction Hl as [|c l Hc _ IH]; intros sel; [done|]. split; [by destruct c|apply IH]. Qed.
Lemma quietly_selects sel l : Forall quietly l -> foldl selects sel l = if was_reset l then MMC_PART_USER else sel.
Proof.
  intros Hl. revert sel. induction Hl as [|c l Hc Hl IH]; intros sel; [done|]. cbn [foldl was_reset existsb]. rewrite IH.
  destruct c; try done. by destruct (was_reset l).
Qed.
Lemma none_goes v l : Forall selects_none l -> goes_to v v l.
Proof. induction 1 as [|c l Hc _ IH]; [done|]. by destruct c. Qed.
Lemma none_reset l r : Forall selects_none r -> was_reset (l ++ r) = was_reset l.
Proof.
  intros Hr. unfold was_reset. rewrite existsb_app. assert (existsb (fun c => match c with CReset => true | _ => false end) r = false) as ->.
  { induction Hr as [|c r Hc _ IH]; [done|]. by destruct c. }
  by rewrite orb_false_r.
Qed.
Lemma done_selects_none x f a n l t d : rw_says x f a n l t EOK d -> Forall selects_none d.
Proof.
  inversion 1; subst; try done; (constructor; [done|]); unfold stops; case_match; by repeat constructor.
Qed.
Lemma covers_selects_none x f t lba l d : rel_covers x f t lba l d -> Forall selects_none d.
Proof. induction 1 as [| |? ? ? ? ? ? ? ? ? Hd]; [constructor|done|]. apply Forall_app. split; [by eapply done_selects_none|done]. Qed.
Lemma transferred_selects_none x q p flgs d : transferred x q p flgs d -> Forall selects_none d.
Proof. unfold transferred. case_match; [apply covers_selects_none|apply done_selects_none]. Qed.
Lemma transferred_goes x q p flgs pre d sel : Forall quietly pre -> transferred x q p flgs d ->
  let l := CPartition (config p) EOK :: pre ++ d in
  goes_to (if was_reset l then MMC_PART_USER else Z.land (config p) MMC_PART_MSK) sel l.
Proof.
  intros Hp Hd%transferred_selects_none. cbv zeta. cbn [was_reset existsb]. change (existsb _ _) with (was_reset (pre ++ d)).
  rewrite none_reset by done. split; [done|]. apply goes_to_app. split; [by apply quietly_goes|].
  cbn [selects]. rewrite quietly_selects by done. by apply none_goes.
Qed.

Section disk.
Context {L : Type} `{sdio_lib L} `{!sdio_lib_laws L}.

Lemma part_bind {B} (k : partition -> M (sim L) B) (s : sim L) p Q : part_at (ext s) (target_id (req s)) (target_lun (req s)) = Some p ->
  logs (k p) s Q -> logs (q ← the_part; k q) s Q.
Proof. intros Ep Hk. apply post_bind. exists p, s. split; [|done]. unfold the_part. rewrite gets_bind. by rewrite Ep. Qed.

(** An error never looks like success, and makes no calls. *)
Lemma logs_sense k a b (s : sim L) : ok s -> logs (sdmmc_sense k a b) s (fun st l => l = [] /\ st <> CAM_REQ_CMP).
Proof.
  intros Hok. assert (logs (sdmmc_sense k a b) s (fun _ l => l = [])) as Hl.
  { apply logs_silent; [done|]. by apply runs_sense, Hok. }
  destruct Hl as (st & s' & E & l & El & -> & Hs). exists st, s'. split; [done|]. exists []. split_and!; [done..| |done].
  revert E. unfold sdmmc_sense. rewrite gets_bind. case_match; [by intros [= <- _]|].
  destruct (sense (req s)) as [z|]; [case_match; [by intros [= <- _]|case_decide; [done|by intros [= <- _]]]|by intros [= <- _]].
Qed.
Lemma logs_error e (s : sim L) : ok s -> logs (sdmmc_error e) s (fun st l => l = [] /\ st <> CAM_REQ_CMP).
Proof.
  intros Hok. unfold sdmmc_error. destruct e; try (by apply logs_sense); try (by apply logs_ret).
  eapply logs_bind; [done|apply logs_silent; [done|run]|]. intros u l s' Hok' ->. by apply logs_ret.
Qed.
Lemma logs_ready (s : sim L) p : ok s -> part_at (ext s) (target_id (req s)) (target_lun (req s)) = Some p ->
  logs sdmmc_unit_ready s (fun st l => l = [] /\
    (st = CAM_REQ_CMP <-> has (eflags (ext s)) SDMMC_EFLAG_PRESENT = true /\ nlba p <> 0)).
Proof.
  intros Hok Ep. unfold sdmmc_unit_ready. apply logs_gets. destruct (has _ _) eqn:Ef.
  - change (logs (p ← the_part; if nlba p =? 0 then sdmmc_error ENXIO else mret CAM_REQ_CMP) s
      (fun st l => l = [] /\ (st = CAM_REQ_CMP <-> true = true /\ nlba p <> 0))).
    eapply part_bind; [done|]. case_match; zbool.
    + eapply logs_mono; [by apply logs_error|]. naive_solver.
    + apply logs_ret; [done|]. naive_solver.
  - eapply logs_bind; [done|by apply logs_error|]. intros st l s1 Hok1 [-> Hst].
    eapply logs_bind; [done|by apply logs_part|]. intros q l s2 Hok2 ->. case_match.
    + eapply logs_mono; [by apply logs_error|]. naive_solver.
    + apply logs_ret; [done|]. naive_solver.
Qed.
Lemma ready_eq (s : sim L) p : part_at (ext s) (target_id (req s)) (target_lun (req s)) = Some p ->
  has (eflags (ext s)) SDMMC_EFLAG_PRESENT = true -> nlba p <> 0 -> sdmmc_unit_ready s = Some (CAM_REQ_CMP, s).
Proof.
  intros Ep Ef En. unfold sdmmc_unit_ready, the_part. rewrite gets_bind, Ef, ret_bind.
  erewrite bind_eq; [|rewrite gets_bind, Ep; reflexivity]. by rewrite (proj2 (Z.eqb_neq _ _)).
Qed.
Lemma refused_ready (s : sim L) p flgs : part_at (ext s) (target_id (req s)) (target_lun (req s)) = Some p ->
  refused (ext s) p flgs = false -> sdmmc_unit_ready s = Some (CAM_REQ_CMP, s).
Proof. intros Ep (((( E1 & E2)%orb_false_iff & _)%orb_false_iff & _)%orb_false_iff & _)%orb_false_iff. apply (ready_eq _ p); [done| |]; zbool; by destruct (has _ _). Qed.
Lemma logs_refused (s : sim L) p flgs : ok s -> part_at (ext s) (target_id (req s)) (target_lun (req s)) = Some p ->
  refused (ext s) p flgs = true -> logs (sdmmc_read_write flgs) s (fun st l => l = [] /\ st <> CAM_REQ_CMP).
Proof.
  intros Hok Ep Hr. unfold sdmmc_read_write. eapply part_bind; [done|].
  destruct (has (eflags (ext s)) SDMMC_EFLAG_PRESENT && negb (nlba p =? 0)) eqn:Er.
  - apply andb_true_iff in Er as [E1 E2]. apply negb_true_iff in E2.
    apply post_bind. exists CAM_REQ_CMP, s. split; [apply (ready_eq _ p); zbool; done|]. cbn [negb Z.eqb Pos.eqb].
    apply logs_gets, logs_gets. unfold refused in Hr. rewrite E1, E2 in Hr. cbn [negb orb] in Hr.
    destruct (has (di_flags _) _); [by apply logs_error|]. destruct (_ && _); [by apply logs_error|].
    destruct (_ =? MMC_PART_RPMB); [by apply logs_ret|done].
  - eapply logs_bind; [done|by apply logs_ready|]. intros st l s1 Hok1 [-> Hst].
    assert (st <> CAM_REQ_CMP) as Hne.
    { intros E%Hst. destruct E as [E1 E2]. by rewrite E1, (proj2 (Z.eqb_neq _ _) E2) in Er. }
    rewrite (proj2 (Z.eqb_neq st _) Hne). by apply logs_ret.
Qed.

Lemma rw_case (x : sim_ext) f lba n l t (s : sim L) : alike x t s ->
  (has f SCF_SBC_RLW && negb (has (di_caps (dev_inf x)) DEV_CAP_WR_REL_ENH) = true ->
   0 < di_rel_wr_sec_c (dev_inf x) < 2 ^ 23 /\ Forall (fun e => whole (sg_count e)) l) ->
  logs (if has f SCF_SBC_RLW && negb (has (di_caps (dev_inf x)) DEV_CAP_WR_REL_ENH) then rel_write f lba l else sdmmc_rw f lba n l t) s
    (fun e d => e = EOK -> if has f SCF_SBC_RLW && negb (has (di_caps (dev_inf x)) DEV_CAP_WR_REL_ENH)
       then rel_covers x f t lba l d else rw_says x f lba n l t EOK d).
Proof.
  intros Hs Hleg. destruct (_ && _).
  - destruct (Hleg eq_refl). by apply rel_write_covers.
  - destruct Hs as (Hok & Hd & Hh & _). eapply logs_mono; [by apply logs_rw|]. intros e d Hd' ->. by eapply rw_says_ext; [..|exact Hd'].
Qed.
Lemma accepted_part (x : sim_ext) p flgs : refused x p flgs = false ->
  has (di_flags (dev_inf x)) DEV_FLAG_CARD_LOCKED = false /\ has flgs SCF_DIR_OUT && has (pflags p) SDMMC_PFLAG_WP = false /\
  (Z.land (config p) MMC_PART_MSK =? MMC_PART_RPMB) = false.
Proof. intros (((_ & E1)%orb_false_iff & E2)%orb_false_iff & E3)%orb_false_iff. done. Qed.

(** A request that is not refused selects the partition, sees to background
    operations, and transfers; success has all of this. *)
Lemma logs_accepted (s : sim L) p flgs : ok s -> part_at (ext s) (target_id (req s)) (target_lun (req s)) = Some p ->
  refused (ext s) p flgs = false ->
  (has (write_flags (ext s) flgs (default 0 (cdb (req s) !! 1%nat))) SCF_SBC_RLW &&
     negb (has (di_caps (dev_inf (ext s))) DEV_CAP_WR_REL_ENH) = true -> legacy_fine (req s) (dev_inf (ext s))) ->
  logs (sdmmc_read_write flgs) s (fun st l => st = CAM_REQ_CMP -> exists pre d,
    l = CPartition (config p) EOK :: pre ++ d /\ Forall quietly pre /\ transferred (ext s) (req s) p flgs d).
Proof.
  intros Hok Ep Hr Hleg. unfold sdmmc_read_write. eapply part_bind; [done|].
  apply post_bind. exists CAM_REQ_CMP, s. split; [by eapply refused_ready|]. cbn [negb Z.eqb Pos.eqb].
  apply logs_gets, logs_gets. destruct (accepted_part _ _ _ Hr) as (E1 & E2 & E3). rewrite E1, E2, E3.
  apply logs_call; [done|auto with lib_ends|]. intros e k _ s1 Hok1. case_decide as Ee.
  { eapply logs_bind; [done|by apply logs_reset|]. intros u l s2 Hok2 _. eapply logs_mono; [by apply logs_error|].
    intros st l' [_ Hst] E. by destruct Hst. }
  assert (e = EOK) as -> by by destruct (decide (e = EOK)).
  eapply (logs_runs_bind _ _ _ quietly); [done|apply runs_bkops; [done|apply Hok1]|]. intros u pre s2 Hok2 Hpre Hst2.
  apply logs_gets. pose proof (step_dev _ _ _ _ Hst2) as Ed. unfold same_dev in Ed. cbn [s1 ext] in Ed. rewrite <- Ed.
  change (if has (cam_flags (req s)) CAM_DATA_PHYS then _ else _) with (transfer_flags (ext s) (req s) flgs).
  eapply logs_bind; [done|apply (rw_case (ext s))|].
  - split_and!; [done|done|by rewrite (proj1 (step_host _ _ _ _ Hst2))|]. by destruct (step_req _ _ _ _ Hst2) as (_&_&_&_&_&_&_&_&->&_).
  - unfold transfer_flags. by rewrite phys_rlw.
  - intros e d s3 Hok3 Hd. case_decide as Ee2.
    + subst e. apply logs_ret; [done|]. intros _. exists pre, d. rewrite app_nil_r. split_and!; [done..|]. by apply Hd.
    + eapply logs_mono; [by apply logs_error|]. intros st l' [_ Hst] E. by destruct Hst.
Qed.

(** ** A reset that loses a dirty cache *)
Lemma lookup_some {A} (f : A -> A) n l i : (i < n)%nat -> (map f (take n l) ++ drop n l) !! i = f <$> l !! i.
Proof.
  revert n i. induction l as [|a l IH]; intros [|n] [|i] Hi; try lia; try done. cbn. apply IH. lia.
Qed.
Lemma set_attr_at a v x id lun p t : targets x !! Z.to_nat id = Some t -> part_at x id lun = Some p ->
  (Z.to_nat id <= Z.to_nat (ntargs x))%nat -> (Z.to_nat lun <= Z.to_nat (nluns t))%nat ->
  part_at (set_attr a v x) id lun = Some (flag_part a v p).
Proof.
  intros Et Ep Hi Hl. unfold part_at in *. cbn [targets set_attr set_targets]. rewrite lookup_some, Et by lia.
  rewrite Et in Ep. cbn in *. unfold partitions at 1. rewrite lookup_some by lia. by rewrite Ep.
Qed.
Lemma attr_eq a v (s : sim L) : fits (ext s) ->
  sdmmc_set_partition_attr a v s = Some ((), Sim (set_attr a v (ext s)) (lib s) (req s) (calls s)).
Proof.
  intros [Hl Hf]. unfold sdmmc_set_partition_attr. rewrite gets_bind, decide_True by done.
  assert (forallb (fun t => bool_decide (Z.to_nat (nluns t) < length (partitions t))%nat) (take (S (Z.to_nat (ntargs (ext s)))) (targets (ext s))) = true) as ->; [|done].
  apply forallb_forall. intros t Ht. apply bool_decide_eq_true_2.
  apply (Forall_take _ (S (Z.to_nat (ntargs (ext s))))) in Hf. rewrite Forall_forall in Hf. by apply Hf, list_elem_of_In.
Qed.
Lemma flag_wp p : Z.land (config p) MMC_PART_MSK = MMC_PART_USER ->
  has (pflags (flag_part MMC_PART_USER SDMMC_PFLAG_WP p)) SDMMC_PFLAG_WP = true.
Proof. intros E. unfold flag_part. rewrite E, Z.eqb_refl. cbn [pflags set_pflags]. by apply has_set. Qed.
Context (s : sim L) (id lun : Z) (p : partition) (t : target) (Hok : ok s).
Context (Hp : part_at (ext s) id lun = Some p).
Context (Ht : targets (ext s) !! Z.to_nat id = Some t).
Context (Hid : (Z.to_nat id <= Z.to_nat (ntargs (ext s)))%nat) (Hlun : (Z.to_nat lun <= Z.to_nat (nluns t))%nat).
Context (Huser : Z.land (config p) MMC_PART_MSK = MMC_PART_USER) (Hcache : dirty_cache (ext s) = true).
Context (Hdirty : has (eflags (ext s)) SDMMC_EFLAG_VCACHE_DIRTY = true).
Lemma reset_marks : post sdmmc_reset s (fun _ s' => exists l q, calls s' = calls s ++ l /\ Forall quietly l /\ ok s' /\
  part_at (ext s') id lun = Some q /\ has (pflags q) SDMMC_PFLAG_WP = true).
Proof.
  unfold sdmmc_reset. apply post_bind. destruct (reset_ends (lib s)) as [[e k] E]. eexists _, _. unfold lib_call. rewrite E. split; [done|].
  apply post_bind, post_gets. cbn [ext]. rewrite Hcache, Hdirty. apply post_bind, post_bind. destruct Hok as [Hf Hs].
  set (s1 := Sim (ext s) k (req s) (calls s ++ [CReset])).
  exists (), (Sim (set_attr MMC_PART_USER SDMMC_PFLAG_WP (ext s)) k (req s) (calls s1)). split; [by apply (attr_eq _ _ s1), Hf|].
  set (s2 := Sim _ _ _ _).
  destruct (runs_set_attr sectors quietly s1 Hf MMC_PART_USER SDMMC_PFLAG_WP s1 (req_step_refl _ _ s1 Hs)) as (u & s2' & E2 & H2).
  rewrite (attr_eq _ _ s1) in E2 by apply Hf. injection E2 as <- <-. change (step sectors quietly s1 s2) in H2.
  assert (fine (req s2) (ext s2)) as Hf2 by (apply (fine_later quietly s1 Hf sectors), H2).
  pose proof maint_quietly as HM. assert (sectors (dev_inf (ext s2))) as Hs2 by exact (step_dev _ _ _ _ H2).
  eapply post_mono; [apply (runs_flags sectors quietly s2); [by apply dirty_ldiff|intros v; apply relwr_ldiff|by apply req_step_refl]|].
  intros u3 s3 H3. apply post_bind. eapply post_mono; [apply (runs_dev_cfg sectors quietly HM s2); exact H3|]. intros u4 s4 H4. apply post_ret.
  destruct (same_targets_at _ _ _ _ id lun _ H4
    (set_attr_at MMC_PART_USER SDMMC_PFLAG_WP _ _ _ _ _ Ht Hp Hid Hlun)) as (q & Eq & Hq).
  destruct (step_calls _ _ _ _ H4) as (l & El & Hl & _). exists (CReset :: l), q.
  split_and!; try done.
  - rewrite El. cbn [s2 s1 calls]. by rewrite <- app_assoc.
  - by constructor.
  - split; [by apply (fine_later quietly s2 Hf2 sectors)|exact (step_dev _ _ _ _ H4)].
  - destruct Hq as (_ & _ & _ & _ & _ & _ & Hw). by apply Hw, flag_wp.
Qed.
End disk.

(** ** Capacity *)
Lemma be_value_app l b : be_value (l ++ [b]) = be_value l * 256 + b.
Proof. unfold be_value. by rewrite foldl_app. Qed.
Lemma foldl_be l a : foldl (fun a b => a * 256 + b) a l = a * 256 ^ Z.of_nat (length l) + be_value l.
Proof.
  revert a. induction l as [|b l IH]; intros a; [unfold be_value; cbn; lia|].
  unfold be_value. cbn [foldl length]. rewrite !IH. rewrite Nat2Z.inj_succ, Z.pow_succ_r by lia. lia.
Qed.
Lemma be_bytes_length n v : length (be_bytes n v) = n.
Proof. induction n; [done|]. cbn [be_bytes length]. by f_equal. Qed.
Lemma be_value_bytes n v : be_value (be_bytes n v) = v mod 256 ^ Z.of_nat n.
Proof.
  induction n as [|n IH]; [by rewrite Z.mod_1_r|]. cbn [be_bytes]. unfold be_value. cbn [foldl]. rewrite foldl_be, be_bytes_length, IH.
  rewrite Nat2Z.inj_succ, Z.pow_succ_r by lia. rewrite (Z.mul_comm 256), Z.rem_mul_r by lia. lia.
Qed.
Lemma inserts_split {A} off (b l : list A) : (off + length b <= length l)%nat ->
  list_inserts off b l = take off l ++ b ++ drop (off + length b) l.
Proof.
  revert off l. induction b as [|a b IH]; intros off l Hl; cbn [list_inserts length] in *.
  - rewrite Nat.add_0_r. cbn [app]. by rewrite take_drop.
  - rewrite insert_take_drop; [|rewrite length_inserts; lia]. rewrite IH by lia.
    rewrite take_app_le, take_take by (rewrite length_take; lia). rewrite Nat.min_l by lia. f_equal. cbn [app]. f_equal.
    rewrite drop_app_ge by (rewrite length_take; lia). rewrite length_take, Nat.min_l by lia.
    replace (S off - S off)%nat with 0%nat by lia. rewrite drop_0. do 2 f_equal. lia.
Qed.

Section capacity.
Context {L : Type} `{sdio_lib L}.
Lemma put_eq off b (s : sim L) : (off + length b <= length (data (req s)))%nat ->
  put_data off b s = Some ((), Sim (ext s) (lib s) (set_data (take off (data (req s)) ++ b ++ drop (off + length b) (data (req s))) (req s)) (calls s)).
Proof. intros Hl. unfold put_data. rewrite gets_bind, decide_True by done. by rewrite <- inserts_split. Qed.
Lemma post_eq {S A} (m : M S A) s a s' (Q : A -> S -> Prop) : m s = Some (a, s') -> Q a s' -> post m s Q.
Proof. intros E HQ. by exists a, s'. Qed.
Context (s : sim L) (p : partition) (t : target).
Context (Hp : part_at (ext s) (target_id (req s)) (target_lun (req s)) = Some p) (Ht : targets (ext s) !! Z.to_nat (target_id (req s)) = Some t).
Context (Hready : has (eflags (ext s)) SDMMC_EFLAG_PRESENT = true) (Hn : 0 < nlba p < 2 ^ 64) (Hb : 0 <= tblksz t < 2 ^ 32).
Context (Hroom : (16 <= length (data (req s)))%nat).
Ltac start := unfold sdmmc_capacity; apply post_bind, post_gets, post_bind, post_gets, post_bind;
  apply (post_eq _ _ p s); [unfold the_part; by rewrite gets_bind, Hp|]; cbv zeta; rewrite Ht;
  apply post_bind, (post_eq _ _ CAM_REQ_CMP s); [apply (ready_eq _ p); [done..|lia]|];
  cbn [negb Z.eqb Pos.eqb]; apply post_bind, post_modify, post_bind.
Lemma last_block : u64 (nlba p - 1) = nlba p - 1.
Proof. unfold u64. rewrite Z.mod_small; lia. Qed.
Ltac fields := cbn [ext lib req calls data set_data set_cam scsi_status take app fmap option_fmap option_map default];
  unfold id; rewrite ?last_block, ?take_0, ?app_nil_l, <- ?app_assoc.
Lemma capacity10 : post (sdmmc_capacity 0) s (fun st s' => st = CAM_REQ_CMP /\ scsi_status (req s') = SCS_GOOD /\
  be_value (take 4 (data (req s'))) = Z.min (nlba p - 1) RD_CAP_MAX_LBA32 /\ be_value (take 4 (drop 4 (data (req s')))) = tblksz t).
Proof.
  start. eapply post_eq; [apply put_eq; cbn [data req set_cam]; rewrite length_app, !be_bytes_length; lia|]. apply post_ret. fields.
  rewrite take_app_length' by by rewrite be_bytes_length.
  rewrite drop_app_length', take_app_length' by by rewrite be_bytes_length. rewrite !be_value_bytes.
  rewrite (Z.mod_small (tblksz t)) by done. split_and!; [done..| |done].
  unfold RD_CAP_MAX_LBA32. case_match; zbool; rewrite Z.mod_small; lia.
Qed.
Lemma capacity16 : post (sdmmc_capacity SAI_READ_CAPACITY_16) s (fun st s' => st = CAM_REQ_CMP /\ scsi_status (req s') = SCS_GOOD /\
  be_value (take 8 (data (req s'))) = nlba p - 1 /\ be_value (take 4 (drop 8 (data (req s')))) = tblksz t /\
  data (req s') !! 14%nat = Some (if has (di_caps (dev_inf (ext s))) DEV_CAP_TRIM then RD_CAP_TPE else 0)).
Proof.
  start. cbn [Z.eqb Pos.eqb SAI_READ_CAPACITY_16]. apply post_bind.
  eapply post_eq; [apply put_eq; cbn [data req set_cam]; rewrite length_app, !be_bytes_length; lia|]. fields.
  rewrite length_app, !be_bytes_length. set (d := be_bytes 8 _ ++ _).
  assert (13 < length d)%nat as Hd by (unfold d; rewrite !length_app, !be_bytes_length, length_drop; lia).
  eapply post_eq; [apply put_eq; cbn [data req set_data set_cam length]; unfold d; rewrite !length_app, !be_bytes_length, length_drop; lia|].
  apply post_ret. fields.
  assert (forall n, (n <= 13)%nat -> take n (take 13 d ++ [0; if has (di_caps (dev_inf (ext s))) DEV_CAP_TRIM then RD_CAP_TPE else 0; 0] ++ drop (13 + length [0; if has (di_caps (dev_inf (ext s))) DEV_CAP_TRIM then RD_CAP_TPE else 0; 0]) d) = take n d) as Htk.
  { intros n Hle. rewrite take_app_le by (rewrite length_take; lia). by rewrite take_take, Nat.min_l. }
  split_and!; [done..| | |].
  - rewrite Htk by lia. unfold d. rewrite take_app_length', be_value_bytes by by rewrite be_bytes_length. rewrite Z.mod_small; lia.
  - rewrite take_drop_commute, Htk by lia. rewrite <- take_drop_commute. unfold d.
    rewrite drop_app_length', take_app_length', be_value_bytes by by rewrite be_bytes_length. by rewrite Z.mod_small.
  - rewrite lookup_app_r by (rewrite length_take; lia). by rewrite length_take, Nat.min_l by lia.
Qed.
End capacity.

(** ** The partitions of a card *)
Lemma part_upd_eq id lun f x : part_at (upd_part id lun f x) id lun = f <$> part_at x id lun.
Proof.
  unfold part_at, upd_part. cbn [targets set_targets]. rewrite list_lookup_alter_eq. destruct (targets x !! _) as [t|]; [|done].
  cbn. apply list_lookup_alter_eq.
Qed.
Lemma part_upd_ne id id' f x : Z.to_nat id <> Z.to_nat id' -> part_at (upd_part id 0 f x) id' 0 = part_at x id' 0.
Proof. intros Hne. unfold part_at, upd_part. cbn [targets set_targets]. by rewrite list_lookup_alter_ne. Qed.
Lemma part_upd_some id f x id' : is_Some (part_at x id' 0) -> is_Some (part_at (upd_part id 0 f x) id' 0).
Proof.
  intros [p Hp]. destruct (decide (Z.to_nat id = Z.to_nat id')) as [E|Hne]; [|rewrite part_upd_ne by done; by exists p].
  unfold part_at, upd_part in *. cbn [targets set_targets]. rewrite E, list_lookup_alter_eq. destruct (targets x !! _) as [t|]; [|done].
  cbn in *. rewrite list_lookup_alter_eq, Hp. by eexists.
Qed.

Definition part_blocks (d : dev_info) (ecsd : list Z) (i : Z) : Z :=
  let b j := ecsd_byte ecsd (ECSD_GP_SIZE + j + (i - 4) * 3) in
  if i =? 0 then di_sectors d
  else if i <=? 2 then u64 (ecsd_byte ecsd ECSD_BOOT_SIZE_MULT * MMC_BOOT_SIZE_MULT) / 512
  else if i =? 3 then u64 (ecsd_byte ecsd ECSD_RPMB_SIZE_MULT * MMC_RPMB_SIZE_MULT) / 512
  else u32 (u64 (Z.lor (Z.lor (b 0) (Z.shiftl (b 1) 8)) (Z.shiftl (b 2) 16) *
         u64 (ecsd_byte ecsd ECSD_HC_WP_GRP_SIZE * ecsd_byte ecsd ECSD_ERASE_GRP_SIZE * MMC_ERASE_GRP_512K)) / 512).

(** Partition [i] of the card, at target [i]. *)
Definition is_part (d : dev_info) (ecsd : list Z) (i : Z) (q : partition) : Prop :=
  config q = Z.lor (Z.ldiff (ecsd_byte ecsd ECSD_PART_CONFIG) ECSD_PC_ACCESS_MSK) i /\ slba q = 0 /\ nlba q = part_blocks d ecsd i.
Lemma enhanced_part d ecsd i b q : is_part d ecsd i q -> is_part d ecsd i (enhanced b q).
Proof. by destruct b. Qed.
Lemma part_config b i : 0 <= i < 8 -> Z.land (Z.lor (Z.ldiff b 7) i) 7 = i.
Proof.
  intros Hi. rewrite Z.land_lor_distr_l. assert (Z.land (Z.ldiff b 7) 7 = 0) as -> by (rewrite Z.ldiff_land, <- Z.land_assoc; apply Z.land_0_r).
  change 7 with (Z.ones 3). rewrite Z.land_ones by lia. apply Z.mod_small. lia.
Qed.

Section layout.
Context {L : Type} `{sdio_lib L}.
Definition eight (x : sim_ext) : Prop := forall i, 0 <= i < 8 -> is_Some (part_at x i 0).
Lemma eight_upd id f x : eight x -> eight (upd_part id 0 f x).
Proof. intros Hx i Hi. by apply part_upd_some, Hx. Qed.
Lemma post_with_part id f (s : sim L) Q : 0 <= id < 8 -> eight (ext s) ->
  Q () (Sim (upd_part id 0 f (ext s)) (lib s) (req s) (calls s)) -> post (with_part id f) s Q.
Proof. intros Hi Hx HQ. apply post_bind, post_gets. destruct (Hx id Hi) as [p ->]. by apply post_modify. Qed.
Context (s : sim L).
Definition placed (k : Z) (s' : sim L) : Prop := lib s' = lib s /\ req s' = req s /\ calls s' = calls s /\ eight (ext s') /\
  forall i, 0 <= i < k -> exists q, part_at (ext s') i 0 = Some q /\ is_part (dev_inf (ext s)) (raw_ecsd (lib s)) i q.
Lemma place_step id f s1 : placed id s1 -> 0 <= id < 8 -> (forall p, is_part (dev_inf (ext s)) (raw_ecsd (lib s)) id (f p)) ->
  post (with_part id f;; add_target) s1 (fun _ => placed (id + 1)).
Proof.
  intros (El & Er & Ec & He & Hq) Hid Hf. apply post_bind, post_with_part; [done..|]. apply post_modify.
  split_and!; [done..|by apply eight_upd|]. intros i Hi. cbn [ext]. destruct (decide (i = id)) as [->|Hne].
  - exists (f (default (Part 0 0 [] 0 0 0 0 0 0 0 0 0) (part_at (ext s1) id 0))). split; [|apply Hf].
    change (part_at (upd_part id 0 f (ext s1)) id 0 = Some (f (default (Part 0 0 [] 0 0 0 0 0 0 0 0 0) (part_at (ext s1) id 0)))).
    rewrite part_upd_eq. by destruct (He id Hid) as [p ->].
  - destruct (Hq i) as (q & Eq & HP); [lia|]. exists q. split; [|done].
    change (part_at (upd_part id 0 f (ext s1)) i 0 = Some q). rewrite part_upd_ne; [done|lia].
Qed.
Lemma boot_places pidx s1 : placed (1 + pidx) s1 -> 0 <= pidx < 2 ->
  post (boot_part (raw_ecsd (lib s)) (Z.ldiff (ecsd_byte (raw_ecsd (lib s)) ECSD_PART_CONFIG) ECSD_PC_ACCESS_MSK) pidx) s1 (fun _ => placed (2 + pidx)).
Proof.
  intros Hs Hp. eapply post_mono; [apply (place_step (1 + pidx)); [done|lia|]|by intros ? ?; replace (2 + pidx) with (1 + pidx + 1) by lia].
  intros p. apply enhanced_part. split_and!; [done..|]. cbn [nlba place]. unfold part_blocks. by rewrite (proj2 (Z.eqb_neq _ _)), (proj2 (Z.leb_le _ _)) by lia.
Qed.
Lemma gp_places pidx s1 : placed (4 + pidx) s1 -> 0 <= pidx < 4 ->
  post (gp_part (raw_ecsd (lib s)) (Z.ldiff (ecsd_byte (raw_ecsd (lib s)) ECSD_PART_CONFIG) ECSD_PC_ACCESS_MSK)
    (u64 (ecsd_byte (raw_ecsd (lib s)) ECSD_HC_WP_GRP_SIZE * ecsd_byte (raw_ecsd (lib s)) ECSD_ERASE_GRP_SIZE * MMC_ERASE_GRP_512K)) pidx) s1
    (fun _ => placed (5 + pidx)).
Proof.
  intros Hs Hp. eapply post_mono; [apply (place_step (4 + pidx)); [done|lia|]|by intros ? ?; replace (5 + pidx) with (4 + pidx + 1) by lia].
  intros p. apply enhanced_part. split_and!; [done..|]. cbn [nlba place]. unfold part_blocks.
  rewrite (proj2 (Z.eqb_neq (4 + pidx) 0)), (proj2 (Z.leb_gt (4 + pidx) 2)), (proj2 (Z.eqb_neq (4 + pidx) 3)) by lia.
  by replace (4 + pidx - 4) with pidx by lia.
Qed.
Lemma enum_places s1 : placed 1 s1 -> post sdmmc_partition_enum s1 (fun _ => placed 8).
Proof.
  intros Hs. unfold sdmmc_partition_enum. apply post_bind, post_gets. destruct Hs as [El Hs]. rewrite El. cbv zeta. cbn [for_each].
  apply post_bind, post_bind. eapply post_mono; [apply (boot_places 0); [by split|lia]|]. intros u2 s2 H2.
  apply post_bind. eapply post_mono; [apply (boot_places 1); [done|lia]|]. intros u3 s3 H3. apply post_ret.
  apply post_bind. eapply post_mono; [apply (place_step 3); [done|lia|done]|]. intros u4 s4 H4.
  apply post_bind. eapply post_mono; [apply (gp_places 0); [done|lia]|]. intros u5 s5 H5.
  apply post_bind. eapply post_mono; [apply (gp_places 1); [done|lia]|]. intros u6 s6 H6.
  apply post_bind. eapply post_mono; [apply (gp_places 2); [done|lia]|]. intros u7 s7 H7.
  apply post_bind. eapply post_mono; [apply (gp_places 3); [done|lia]|]. intros u8 s8 H8. by apply post_ret.
Qed.
Lemma layout : eight (ext s) -> dtype (ext s) = DEV_TYPE_MMC -> has (eflags (ext s)) SDMMC_EFLAG_PARTITIONS = true ->
  post sdmmc_partition_config s (fun _ => placed 8).
Proof.
  intros Hx Hd Hf. unfold sdmmc_partition_config. apply post_bind, post_gets, post_bind, post_modify, post_bind.
  set (x1 := set_targets _ _ _). assert (eight x1) as Hx1.
  { intros i Hi. destruct (Hx i Hi) as [p Hp]. exists p. unfold part_at in *. cbn [targets x1 set_targets].
    rewrite list_lookup_fmap. by destruct (targets (ext s) !! _). }
  apply post_with_part; [done..|]. rewrite Hd. cbn [Z.eqb Pos.eqb DEV_TYPE_MMC]. apply post_bind, post_gets, post_bind.
  apply post_with_part; [done|by apply eight_upd|]. rewrite Hf. apply enum_places. cbn [ext lib req calls].
  split_and!; [done..|by apply eight_upd, eight_upd|]. intros i Hi. assert (i = 0) as -> by lia. cbn [ext].
  rewrite !part_upd_eq. destruct (Hx1 0) as [p ->]; [lia|]. eexists. split; [done|]. split_and!; [|done..].
  cbn [config place]. by rewrite Z.lor_0_r.
Qed.
End layout.

(** ** Write protection: one command for each group of the range *)
Inductive wp_covers (x : sim_ext) (op grp : Z) : Z -> Z -> list call -> Prop :=
| WpDone lba : wp_covers x op grp lba 0 []
| WpGroup lba n c c' d : 0 < n -> opcode c = op -> arg c = u32 (wp_addr x lba) ->
    wp_covers x op grp (u64 (lba + grp)) (n - Z.min n grp) d ->
    wp_covers x op grp lba n (CSend c 0 (SDMMC_TIME_DEFAULT * 1000) EOK c' :: d).

Lemma wp_covers_ext x y op grp lba n d : dev_inf y = dev_inf x -> wp_covers x op grp lba n d -> wp_covers y op grp lba n d.
Proof. intros E. induction 1; constructor; [done..| |done]. by unfold wp_addr in *; rewrite E. Qed.

Section protect.
Context {L : Type} `{sdio_lib L} `{!sdio_lib_laws L}.
Lemma logs_wp_loop fuel op grp lba n c (s : sim L) : ok s -> 0 < grp -> 0 <= n <= Z.of_nat fuel ->
  logs (wp_loop fuel op grp lba n c) s (fun e d => e = EOK -> wp_covers (ext s) op grp lba n d).
Proof.
  intros Hok Hg. revert lba n c s Hok. induction fuel as [|fuel IH]; intros lba n c s Hok Hn.
  { assert (n = 0) as -> by lia. apply logs_ret; [done|constructor]. }
  cbn [wp_loop]. destruct (Z.eqb_spec n 0) as [->|Hn0]; [apply logs_ret; [done|constructor]|].
  apply logs_gets. unfold lib_send_cmd. apply logs_call; [done|auto with lib_ends|]. intros [e c'] k _ s1 Hok1. cbn [fst snd].
  case_decide as Ee; [by apply logs_ret|]. assert (e = EOK) as -> by by destruct (decide (e = EOK)).
  eapply logs_mono; [apply IH; [done|lia]|]. intros e d Hd E. constructor; [lia|done|done|]. by apply Hd.
Qed.
Lemma logs_setup part mode (s : sim L) : ok s -> logs (wp_setup part mode) s (fun _ => Forall quietly).
Proof. intros Hok. apply logs_quietly; [done|]. intros Hf. pose proof maint_quietly. unfold wp_setup, wp_switch. run. Qed.
Lemma logs_protect op part mode lba n prot (s : sim L) : ok s -> op = MMC_SET_WRITE_PROT \/ op = MMC_CLR_WRITE_PROT -> 0 <= n ->
  0 <= di_wp_size (dev_inf (ext s)) ->
  logs (sdmmc_write_protect op part mode lba n prot) s (fun r l => snd r = prot /\ (fst r = EOK -> exists pre d,
    l = CPartition part EOK :: pre ++ d /\ Forall quietly pre /\
    wp_covers (ext s) op (di_wp_size (dev_inf (ext s)) / 512) lba n d)).
Proof.
  intros Hok Hop Hn Hw. unfold sdmmc_write_protect. apply logs_gets. cbv zeta. case_match; [by apply logs_ret|]. zbool.
  assert (0 <= di_wp_size (dev_inf (ext s)) / 512) by (apply Z.div_pos; lia).
  case_match; [by apply logs_ret|]. apply logs_call; [done|auto with lib_ends|]. intros e k _ s1 Hok1.
  case_decide as Ee; [by apply logs_ret|]. assert (e = EOK) as -> by by destruct (decide (e = EOK)).
  apply (logs_runs_bind _ _ _ quietly); [done| |].
  { pose proof maint_quietly. destruct Hok1. unfold wp_setup, wp_switch. run. }
  intros e pre s2 Hok2 Hpre Hst. case_decide as Ee2; [by apply logs_ret|].
  apply logs_quiet; [done|auto with lib_ends|]. intros [c|] k2 s3 Hok3; [|by apply logs_ret].
  assert ((op =? MMC_SET_WRITE_PROT) || (op =? MMC_CLR_WRITE_PROT) = true) as -> by by destruct Hop as [-> | ->].
  eapply logs_bind; [done|apply logs_wp_loop; [done|lia|lia]|]. intros e2 d s4 Hok4 Hd. apply logs_ret; [done|]. split; [done|].
  intros E. exists pre, d. rewrite app_nil_r. split_and!; [done..|]. eapply wp_covers_ext; [|by apply Hd].
  exact (step_dev _ _ _ _ Hst).
Qed.
End protect.
