(* ===== verification/SimProp.v ===== *)
(** * The SCSI layer: its properties, with a library to try them on

    Theorems on Sim.v and SimReq.v, from the lemmas of SimStep.v, SimRw.v and
    SimDisk.v. *)
From S2P Require Import Prelude Driver SdioReg SdioConst Sdhci SdioCmd SimConst Sim SimReq SimStep SimRw SimDisk.
Open Scope Z_scope.

(** ** A library whose card answers every data command with [answer], an interrupt with [hpi_says] *)
Record card := Card { answer : errno; last_rsp : Z; card_ecsd : list Z; hpi_says : errno }.
Definition example_info : dev_info := DevInfo (Z.lor DEV_CAP_HC (Z.lor DEV_CAP_CMD23 (Z.lor DEV_CAP_TRIM DEV_CAP_CACHE))) 0 4096 512 524288 4194304 1 0x10 [] 0.
Definition answered (k : card) (c : sdio_cmd_t) : sdio_cmd_t :=
  Cmd (cflags c) (if decide (answer k = EOK) then CS_CMD_CMP else CS_DATA_CRC_ERR) (opcode c) (arg c) [last_rsp k; 0; 0; 0]
    (Sdhci.blks c) (Sdhci.blksz c) (sgl c).
#[export] Instance toy : sdio_lib card := {|
  lib_alloc := mret (Some zero_cmd);
  lib_send c _ _ := fun k => Some ((answer k, answered k c), k);
  lib_status := fun k => Some ((EOK, last_rsp k), k);
  lib_stop := mret EOK;
  lib_wait m v _ _ := mret (if Z.land v m =? v then (EOK, v) else (ETIMEDOUT, 0));
  lib_erase _ _ _ _ := mret EOK; lib_partition _ := mret EOK; lib_reset := mret EOK; lib_bus_error := mret EOK;
  lib_cache _ _ := mret EOK; lib_switch _ _ _ := mret EOK; lib_hpi _ := fun k => Some (hpi_says k, k); lib_notify _ _ := mret EOK;
  lib_power _ := mret EOK; lib_ext_csd := mret (EOK, []); lib_assd_init := mret ();
  lib_block_length _ := mret EOK; lib_retune := mret EOK; lib_buffer _ := mret None; lib_bytes _ _ _ := [];
  raw_ecsd := card_ecsd; ecsd_blksz _ := 512; lib_dev_info _ := example_info
|}.
#[export] Instance toy_laws : sdio_lib_laws card.
Proof.
  constructor; try (intros; intros k; by eexists); try done.
  intros m v t r k r' k'. cbn. case_match; [|done]. intros [= <- <-]. by zbool.
Qed.

Definition example_part (c n : Z) : partition := Part 0 c [] 0 0 (n - 1) n 0 0 0 0 0.
Definition example_ext (f : Z) : sim_ext :=
  SimExt f HC_CAP_DMA DEV_TYPE_MMC example_info 0 0 1 PM_IDLE 0 (replicate 8 (Targ 0 512 (replicate 8 (example_part 0 4096)))).
Definition example_ccb (c : list Z) (n : Z) (l : list Z) : ccb :=
  Ccb XPT_SCSI_IO 0 0 0 c n 0x1000 [] 5 l 0 0 (Some (replicate 20 0)).
Definition example_sim (e : errno) (f : Z) (q : ccb) : sim card := Sim (example_ext f) (Card e READY (replicate 512 1) EOK) q [].
(** READ(10) and WRITE(10) of 8 blocks from block 16. *)
Definition read8 : ccb := example_ccb [SC_READ10; 0; 0; 0; 0; 16; 0; 0; 8; 0] 4096 [].
Definition write8 : ccb := example_ccb [SC_WRITE10; 0; 0; 0; 0; 16; 0; 0; 8; 0] 4096 [].

Lemma example_ok e f q : target_id q = 0 -> target_lun q = 0 -> sense q = Some (replicate 20 0) -> ok (example_sim e f q).
Proof.
  intros Hi Hl Hs. split; [|done]. constructor; cbn [req ext example_sim].
  - split; [cbn; lia|]. cbn [targets example_ext]. apply Forall_replicate. cbn. lia.
  - rewrite Hi, Hl. by eexists.
  - by rewrite Hs.
Qed.
#[export] Hint Resolve example_ok : core.

(** ** Any request *)

(** C34 (type): A SCSI request that fits the adapter ends, from its dispatch to its status: no access leaves the arrays of targets
    and partitions or the buffers, nothing is divided by zero, no loop is endless.  The partitions keep their place, a
    protected partition stays protected, the request keeps its parameters and the size of its buffers, and a dirty cache
    is clean afterwards only if a flush succeeded. *)
Theorem request_keeps {L} `{sdio_lib_laws L} (n : errno -> Z) (d : Z) (s : sim L) :
  ok s -> scsi_fine (req s) (ext s) -> post (start_scsi n d) s (fun _ s' => step sectors anything s s').
Proof. intros [Hf Hs] Hr. eapply (start_half anything (fun _ => I) s Hf Hs Hr). by apply req_step_refl. Qed.
Lemma request_keeps_witness : post (start_scsi (fun _ => 5) 0) (example_sim EOK SDMMC_EFLAG_PRESENT write8)
  (fun _ s' => step sectors anything (example_sim EOK SDMMC_EFLAG_PRESENT write8) s').
Proof.
  apply request_keeps; [by apply example_ok|]. constructor; [|done|done].
  intros Hin. exfalso. revert Hin. apply (bool_decide_eq_false_1 _). reflexivity.
Defined.

(** ** One transfer *)

(** The command for [n] bytes from block [a], said without the code's functions. *)
Definition is_transfer (x : sim_ext) (flgs a n : Z) (l : list sge) (c : sdio_cmd_t) (hi : Z) : Prop :=
  let size := di_sector_size (dev_inf x) in
  let multi := (size <? n) || has flgs SCF_SBC_RLW in
  opcode c = (if has flgs SCF_DIR_IN then 17 else 24) + (if multi then 1 else 0) /\
  arg c + 2 ^ 32 * hi = (if has (di_caps (dev_inf x)) DEV_CAP_HC then a else (a * size) mod 2 ^ 64) /\
  Sdhci.blks c = n / size /\ Sdhci.blksz c = size /\ sgl c = l /\
  has (cflags c) SCF_SBC = ((size <? n) && negb (has (hc_inf_caps x) HC_CAP_ACMD12) && has (di_caps (dev_inf x)) DEV_CAP_CMD23) ||
                            has flgs SCF_SBC_RLW.
Definition plain (flgs : Z) : Prop := has flgs (Z.lor SCF_MULTIBLK (Z.lor SCF_SBC SCF_SUA)) = false.
Lemma plain_bits flgs : plain flgs -> has flgs SCF_MULTIBLK = false /\ has flgs SCF_SBC = false.
Proof.
  unfold plain, has. rewrite !Z.land_lor_distr_r. intros E%negb_false_iff%Z.eqb_eq.
  apply Z.lor_eq_0_iff in E as [-> E]. by apply Z.lor_eq_0_iff in E as [-> _].
Qed.
Lemma flag_table : has SCF_SBC SCF_MULTIBLK = false /\ has SCF_SBC SCF_DIR_IN = false /\ has SCF_SBC SCF_SBC = true /\ has SCF_SBC SCF_SBC_RLW = false /\
  has SCF_MULTIBLK SCF_MULTIBLK = true /\ has SCF_MULTIBLK SCF_DIR_IN = false /\ has SCF_MULTIBLK SCF_SBC = false /\ has SCF_MULTIBLK SCF_SBC_RLW = false /\
  has SCF_SUA SCF_SBC = false /\ has (Z.lor SCF_CTYPE_ADTC SCF_RSP_R1) SCF_SBC = false.
Proof. done. Qed.
Lemma rw_flags_bits x flgs n : plain flgs ->
  has (rw_flags x flgs n) SCF_DIR_IN = has flgs SCF_DIR_IN /\
  has (rw_flags x flgs n) SCF_MULTIBLK = (di_sector_size (dev_inf x) <? n) || has flgs SCF_SBC_RLW /\
  has (rw_flags x flgs n) SCF_SBC = ((di_sector_size (dev_inf x) <? n) && negb (has (hc_inf_caps x) HC_CAP_ACMD12) &&
    has (di_caps (dev_inf x)) DEV_CAP_CMD23) || has flgs SCF_SBC_RLW.
Proof.
  intros [Hm Hs]%plain_bits. destruct flag_table as (T1 & T2 & T3 & T4 & T5 & T6 & T7 & T8 & T9 & T10). unfold rw_flags.
  destruct (_ <? n), (negb (has (hc_inf_caps x) _)), (has (di_caps _) _), (has flgs SCF_SBC_RLW) eqn:Er;
    cbn [andb orb]; rewrite ?has_or, ?T4, ?T8, ?Er; cbn [andb orb]; rewrite ?has_or, ?Hm, ?Hs, ?T1, ?T2, ?T3, ?T5, ?T6, ?T7; cbn [orb];
    rewrite ?orb_true_r, ?orb_false_r; done.
Qed.
Lemma rw_cmd_is x flgs a n l c : plain flgs -> 0 <= a < 2 ^ 64 ->
  is_transfer x flgs a n l (rw_cmd x flgs a n l c) (Z.shiftr (rw_addr x a) 32).
Proof.
  intros Hp Ha. destruct (rw_flags_bits x flgs n Hp) as (B1 & B2 & B3).
  destruct flag_table as (_ & _ & _ & _ & _ & _ & _ & _ & T9 & T10). unfold is_transfer, rw_cmd, sdio_setup_cmd_io, sdio_setup_cmd.
  cbn [opcode arg Sdhci.blks Sdhci.blksz sgl cflags]. split_and!; [| |done..|].
  - unfold rw_opcode. rewrite B1, B2. destruct (has flgs SCF_DIR_IN), (_ || _); reflexivity.
  - unfold u32. rewrite Z.shiftr_div_pow2 by lia. rewrite Z.add_comm, <- Z.div_mod by lia. unfold rw_addr, u64. done.
  - rewrite has_or, T10. cbn [orb]. destruct (_ <? rw_addr x a); [rewrite has_or, T9, orb_false_r|]; exact B3.
Qed.

Definition data_calls (d : list call) : list call := filter (fun c => maint c = false) d.
Lemma quietly_none d : Forall quietly d -> data_calls d = [].
Proof. induction 1 as [|c d Hc _ IH]; [done|]. unfold data_calls in *. rewrite filter_cons, IH. unfold quietly in Hc. by rewrite Hc. Qed.
Lemma stops_quietly x f n : Forall quietly (stops x f n).
Proof. unfold stops. case_match; by repeat constructor. Qed.
Lemma says_calls x f a n l t e d : rw_says x f a n l t e d -> d = [] \/ exists c st c' r,
  d = CSend (rw_cmd x f a n l c) (Z.shiftr (rw_addr x a) 32) (u32 (t * 1000)) st c' :: r /\ Forall quietly r.
Proof.
  destruct 1; [by left|right..]; do 3 eexists; eexists; (split; [reflexivity|]).
  - constructor.
  - apply stops_quietly.
  - apply Forall_app. split; [apply stops_quietly|by repeat constructor].
  - apply Forall_app. split; [done|by constructor].
Qed.
Lemma says_one x f a n l t e d : plain f -> 0 <= a < 2 ^ 64 -> rw_says x f a n l t e d ->
  (length (data_calls d) <= 1)%nat /\ forall c hi t' e' c', CSend c hi t' e' c' ∈ d -> is_transfer x f a n l c hi.
Proof.
  intros Hp Ha [->|(c & st & c' & r & -> & Hr)]%says_calls.
  - split; [cbn; lia|]. intros ? ? ? ? ? Hin. by apply not_elem_of_nil in Hin.
  - split; [unfold data_calls; rewrite filter_cons; cbn [maint]; rewrite decide_True by done; cbn [length];
      change (filter _ r) with (data_calls r); rewrite (quietly_none r Hr); cbn; lia|].
    intros c2 hi t' e' c2' [[= -> -> _ _ _]|Hin]%elem_of_cons; [by apply rw_cmd_is|].
    rewrite Forall_forall in Hr. by apply Hr in Hin.
Qed.

(** C28 (refinement): Every way a transfer can end, with the calls of the library that it has then made, in order.  There is at most
    one data command: for exactly these blocks, single or multiple and with or without a block count as the controller and the
    card have it.  EOK means that the command was completed without an error in the response, that an open-ended one was
    stopped, and that after a write the card was seen ready.  After an error the card is seen ready for data or the
    controller is reset. *)
Theorem transfer_calls {L} `{sdio_lib_laws L} (flgs a n : Z) (l : list sge) (t : Z) (s : sim L) :
  ok s -> plain flgs -> 0 <= a < 2 ^ 64 ->
  logs (sdmmc_rw flgs a n l t) s (fun e d => rw_says (ext s) flgs a n l t e d /\
    (length (data_calls d) <= 1)%nat /\
    forall c hi t' e' c', CSend c hi t' e' c' ∈ d -> is_transfer (ext s) flgs a n l c hi).
Proof.
  intros Hok Hp Ha. eapply logs_mono; [by apply logs_rw|]. intros e d Hd. split; [done|]. by eapply says_one.
Qed.
Lemma transfer_calls_witness : logs (sdmmc_rw SCF_DIR_OUT 16 4096 [Sge 0x1000 4096] 5) (example_sim EIO SDMMC_EFLAG_PRESENT write8)
  (fun e d => rw_says (example_ext SDMMC_EFLAG_PRESENT) SCF_DIR_OUT 16 4096 [Sge 0x1000 4096] 5 e d /\ (length (data_calls d) <= 1)%nat /\
    forall c hi t' e' c', CSend c hi t' e' c' ∈ d -> is_transfer (example_ext SDMMC_EFLAG_PRESENT) SCF_DIR_OUT 16 4096 [Sge 0x1000 4096] c hi).
Proof. apply (transfer_calls SCF_DIR_OUT 16 4096 [Sge 0x1000 4096] 5 (example_sim EIO SDMMC_EFLAG_PRESENT write8)); [by apply example_ok|reflexivity|lia]. Defined.

(** The first block of a READ(10) or WRITE(10) on the card, from the bytes of the descriptor. *)
Definition first_block (q : ccb) (p : partition) : Z :=
  let b i := default 0 (cdb q !! i) in
  (b 2%nat * 2 ^ 24 + b 3%nat * 2 ^ 16 + b 4%nat * 2 ^ 8 + b 5%nat) * 2 ^ blk_shft p + slba p.
Definition is_rw10 (q : ccb) : Prop := (6 <= length (cdb q))%nat /\ (opcode_of q = SC_READ10 \/ opcode_of q = SC_WRITE10).
Lemma start_is q p : is_rw10 q -> 0 <= blk_shft p -> 0 <= first_block q p < 2 ^ 64 -> 0 <= slba p -> Forall (fun b => 0 <= b) (cdb q) ->
  start_block p (fst (sdmmc_ccb_lba (cdb q))) = first_block q p.
Proof.
  intros [Hl Ho] Hs Hb Hp Hc. unfold sdmmc_ccb_lba. change (default 0 (cdb q !! 0%nat)) with (opcode_of q).
  assert ((opcode_of q =? SC_READ10) || (opcode_of q =? SC_WRITE10) = true) as -> by by destruct Ho as [-> | ->].
  cbn [fst]. revert Hb Hc. unfold first_block, start_block, bytes_of, be_value.
  destruct (cdb q) as [|b0 [|b1 [|b2 [|b3 [|b4 [|b5 r]]]]]]; cbn in Hl; try lia. cbn [drop take foldl lookup list_lookup default id].
  rewrite !Forall_cons. intros Hb (_ & _ & H2 & H3 & H4 & H5 & _). cbn in Hb |- *.
  rewrite take_0. cbn [foldl]. replace ((((0 * 256 + b2) * 256 + b3) * 256 + b4) * 256 + b5) with (b2 * 2 ^ 24 + b3 * 2 ^ 16 + b4 * 2 ^ 8 + b5) by lia.
  set (v := b2 * 2 ^ 24 + b3 * 2 ^ 16 + b4 * 2 ^ 8 + b5) in *. assert (0 <= v) by (unfold v; lia).
  assert (0 <= v * 2 ^ blk_shft p) by (apply Z.mul_nonneg_nonneg; [done|by apply Z.pow_nonneg]). unfold u64.
  destruct (Z.eqb_spec (blk_shft p) 0) as [E|_]; [rewrite E, Z.pow_0_r, Z.mul_1_r in *; by apply Z.mod_small|].
  rewrite Z.shiftl_mul_pow2, (Z.mod_small (v * _)) by lia. by rewrite Z.mod_small.
Qed.
Lemma transfer_plain x q flgs : flgs = SCF_DIR_IN \/ flgs = SCF_DIR_OUT -> plain (transfer_flags x q flgs).
Proof. intros Hf. unfold transfer_flags, write_flags, plain. destruct Hf as [-> | ->]; repeat case_match; reflexivity. Qed.
Lemma done_command x q p flgs pre d : flgs = SCF_DIR_IN \/ flgs = SCF_DIR_OUT -> is_rw10 q -> 0 <= blk_shft p -> 0 <= slba p ->
  0 <= first_block q p < 2 ^ 64 -> Forall (fun b => 0 <= b) (cdb q) -> Forall quietly pre ->
  has (transfer_flags x q flgs) SCF_SBC_RLW && negb (has (di_caps (dev_inf x)) DEV_CAP_WR_REL_ENH) = false -> transferred x q p flgs d ->
  forall c hi t e c', CSend c hi t e c' ∈ CPartition (config p) EOK :: pre ++ d ->
    is_transfer x (transfer_flags x q flgs) (first_block q p) (dxfer_len q) (req_sgl q) c hi.
Proof.
  intros Hf Hq Hs Hp Hb Hc Hpre Hl Ht c hi t e c' Hin. unfold transferred in Ht. rewrite Hl, (start_is _ _ Hq Hs Hb Hp Hc) in Ht.
  apply elem_of_cons in Hin as [Hin|Hin]; [done|]. apply elem_of_app in Hin as [Hin|Hin].
  - rewrite Forall_forall in Hpre. by apply Hpre in Hin.
  - eapply (says_one x); [by apply transfer_plain|done|exact Ht|exact Hin].
Qed.

(** C26 (functional): READ(10) and WRITE(10).  Without a card, on an empty or protected partition, with a locked card or for RPMB
    there is no call of the library and no success.  Otherwise success means: the partition was selected, background
    operations were seen to, and then cam_dxfer_len bytes were transferred, by one command for the block that the
    descriptor's bytes give, moved by the partition's start, or, in a legacy reliable write, by pieces that cover the
    scatter list in order.  The descriptor's own count of blocks is not looked at.  Every data command is sent with the
    partition of the request selected, unless background operations could not be interrupted and the card was reset on
    the way: then it is sent with the user area selected, whatever partition the request is for. *)
Theorem read_write_transfers {L} `{sdio_lib_laws L} (flgs : Z) (p : partition) (s : sim L) :
  ok s -> part_at (ext s) (target_id (req s)) (target_lun (req s)) = Some p -> flgs = SCF_DIR_IN \/ flgs = SCF_DIR_OUT ->
  is_rw10 (req s) -> Forall (fun b => 0 <= b) (cdb (req s)) ->
  0 <= blk_shft p /\ 0 <= slba p /\ 0 <= first_block (req s) p < 2 ^ 64 ->
  let legacy := has (transfer_flags (ext s) (req s) flgs) SCF_SBC_RLW && negb (has (di_caps (dev_inf (ext s))) DEV_CAP_WR_REL_ENH) in
  (legacy = true -> legacy_fine (req s) (dev_inf (ext s))) ->
  logs (sdmmc_read_write flgs) s (fun st l => if refused (ext s) p flgs then l = [] /\ st <> CAM_REQ_CMP else
    st = CAM_REQ_CMP ->
    (exists pre d, l = CPartition (config p) EOK :: pre ++ d /\ Forall quietly pre /\ transferred (ext s) (req s) p flgs d) /\
    (forall sel, goes_to (if was_reset l then MMC_PART_USER else Z.land (config p) MMC_PART_MSK) sel l) /\
    (legacy = false -> forall c hi t e c', CSend c hi t e c' ∈ l ->
       is_transfer (ext s) (transfer_flags (ext s) (req s) flgs) (first_block (req s) p) (dxfer_len (req s)) (req_sgl (req s)) c hi)).
Proof.
  intros Hok Hp Hf Hq Hc (Hs & Hsl & Hb) legacy Hl. destruct (refused _ _ _) eqn:E; [by apply logs_refused with p|].
  eapply logs_mono; [apply (logs_accepted s p); [done..|]|].
  - intros E2. apply Hl. unfold legacy, transfer_flags. by rewrite phys_rlw.
  - intros st l Hst Est. destruct (Hst Est) as (pre & d & -> & Hpre & Ht). split; [by exists pre, d|].
    split; [intros sel; by eapply transferred_goes|]. intros El. by eapply done_command.
Qed.
Lemma read_write_transfers_witness :
  logs (sdmmc_read_write SCF_DIR_IN) (example_sim EOK SDMMC_EFLAG_PRESENT read8) (fun st l =>
    if refused (example_ext SDMMC_EFLAG_PRESENT) (example_part 0 4096) SCF_DIR_IN then l = [] /\ st <> CAM_REQ_CMP else
    st = CAM_REQ_CMP ->
    (exists pre d, l = CPartition 0 EOK :: pre ++ d /\ Forall quietly pre /\
       transferred (example_ext SDMMC_EFLAG_PRESENT) read8 (example_part 0 4096) SCF_DIR_IN d) /\
    (forall sel, goes_to (if was_reset l then MMC_PART_USER else Z.land 0 MMC_PART_MSK) sel l) /\
    (false = false -> forall c hi t e c', CSend c hi t e c' ∈ l ->
       is_transfer (example_ext SDMMC_EFLAG_PRESENT) SCF_DIR_IN 16 4096 [Sge 0x1000 4096] c hi)) /\
  exists s', sdmmc_read_write SCF_DIR_IN (example_sim EOK SDMMC_EFLAG_PRESENT read8) = Some (CAM_REQ_CMP, s').
Proof.
  split; [|eexists; vm_compute; reflexivity].
  apply (read_write_transfers SCF_DIR_IN (example_part 0 4096) (example_sim EOK SDMMC_EFLAG_PRESENT read8)); try done;
    [by apply example_ok|by left|split; [cbn; lia|by left]|by repeat constructor].
Defined.

(** A write to a boot partition, while background operations run that the card does not interrupt: it is reported as
    done, and its data is in the user area. *)
Definition busy_ext : sim_ext :=
  SimExt (Z.lor SDMMC_EFLAG_PRESENT SDMMC_EFLAG_BKOPS) HC_CAP_DMA DEV_TYPE_MMC example_info 0 BKOPS_STATUS_OPERATIONS_INPROG 1 PM_IDLE 0
    (replicate 8 (Targ 0 512 (replicate 8 (example_part MMC_PART_BOOT1 4096)))).
Lemma reset_moves_write : exists s', sdmmc_read_write SCF_DIR_OUT (Sim busy_ext (Card EOK READY (replicate 512 1) ETIMEDOUT) write8 []) = Some (CAM_REQ_CMP, s') /\
  was_reset (calls s') = true /\ goes_to MMC_PART_USER MMC_PART_BOOT1 (calls s') /\ ~ goes_to MMC_PART_BOOT1 MMC_PART_BOOT1 (calls s').
Proof.
  eexists. split_and!; [vm_compute; reflexivity|vm_compute; reflexivity|vm_compute; tauto|]. vm_compute. intros Hg. by destruct_and!.
Qed.

(** ** Protection *)

(** The adapter after one more request, as CAM hands it over. *)
Definition ask {L} (q : ccb) (s : sim L) : sim L := Sim (ext s) (lib s) q (calls s).
(** Any number of SCSI requests that fit the adapter, one after the other, from one state to another. *)
Inductive served {L} `{sdio_lib L} (n : errno -> Z) (d : Z) (s : sim L) : sim L -> Prop :=
| ServedNone : served n d s s
| ServedOne s1 q u s2 : served n d s s1 -> fine q (ext s1) -> scsi_fine q (ext s1) ->
    start_scsi n d (ask q s1) = Some (u, s2) -> served n d s s2.

Lemma served_keeps {L} `{sdio_lib_laws L} n d (s s' : sim L) id lun p : served n d s s' -> sectors (dev_inf (ext s)) ->
  part_at (ext s) id lun = Some p -> sectors (dev_inf (ext s')) /\ exists q, part_at (ext s') id lun = Some q /\ same_part p q.
Proof.
  intros Hs Hsec Hp. induction Hs as [|s1 r u s2 _ (Hsec1 & q1 & E1 & Hq1) Hf Hr E]; [by split; [|exists p]|].
  destruct (start_half anything (fun _ => I) (ask r s1) Hf Hsec1 Hr n d (ask r s1)) as (u' & s2' & E' & Hst); [by apply req_step_refl|].
  rewrite E in E'. injection E' as <- <-. split; [exact (step_dev _ _ _ _ Hst)|].
  destruct (same_targets_at _ _ _ _ id lun _ Hst E1) as (q & Eq & Hq). exists q. split; [done|]. by etrans.
Qed.

(** C27 (safety): When a reset loses the card's cache with data in it, WRITE(10) never succeeds again on a user partition of the
    targets that the adapter counts, however many SCSI requests come in between: it fails, and calls nothing of the
    library, so that it neither selects a partition nor sends data.  The reset itself sends no data.  This is about
    sdmmc_read_write, the handler of WRITE(10); the firmware update and erasing do not look at the protection, as the
    two lemmas below show. *)
Theorem lost_cache_protects {L} `{sdio_lib_laws L} (n : errno -> Z) (d : Z) (s : sim L) (id lun : Z) (p : partition) (t : target) :
  ok s -> part_at (ext s) id lun = Some p -> targets (ext s) !! Z.to_nat id = Some t -> (Z.to_nat id <= Z.to_nat (ntargs (ext s)))%nat ->
  (Z.to_nat lun <= Z.to_nat (nluns t))%nat -> Z.land (config p) MMC_PART_MSK = MMC_PART_USER ->
  dirty_cache (ext s) = true -> has (eflags (ext s)) SDMMC_EFLAG_VCACHE_DIRTY = true ->
  post sdmmc_reset s (fun _ s1 => (exists l, calls s1 = calls s ++ l /\ Forall quietly l) /\
    forall s2 q, served n d s1 s2 -> fine q (ext s2) -> target_id q = id -> target_lun q = lun ->
      logs (sdmmc_read_write SCF_DIR_OUT) (ask q s2) (fun st l => l = [] /\ st <> CAM_REQ_CMP)).
Proof.
  intros Hok Hp Ht Hid Hl Hu Hc Hd. eapply post_mono; [by eapply (reset_marks s id lun p t)|].
  intros e s1 (l & q1 & El & Hq & [_ Hs1] & E1 & Hw). split; [by exists l|]. intros s2 q Hsv Hf <- <-.
  destruct (served_keeps n d s1 s2 _ _ q1 Hsv Hs1 E1) as (Hs2 & q2 & E2 & Hsame).
  apply (logs_refused (ask q s2) q2); [done..|]. unfold refused. destruct Hsame as (_ & _ & _ & _ & _ & _ & Hk). rewrite (Hk Hw).
  change (has SCF_DIR_OUT SCF_DIR_OUT) with true. cbn [andb]. by rewrite !orb_true_r.
Qed.
Definition cached : Z := Z.lor SDMMC_EFLAG_PRESENT (Z.lor SDMMC_EFLAG_CACHE SDMMC_EFLAG_VCACHE_DIRTY).
Lemma lost_cache_protects_witness : post sdmmc_reset (example_sim EOK cached write8) (fun _ s1 =>
  (exists l, calls s1 = [] ++ l /\ Forall quietly l) /\
  forall s2 q, served (fun _ => 5) 0 s1 s2 -> fine q (ext s2) -> target_id q = 0 -> target_lun q = 0 ->
    logs (sdmmc_read_write SCF_DIR_OUT) (ask q s2) (fun st l => l = [] /\ st <> CAM_REQ_CMP)).
Proof.
  apply (lost_cache_protects (fun _ => 5) 0 (example_sim EOK cached write8) 0 0 (example_part 0 4096) (Targ 0 512 (replicate 8 (example_part 0 4096))));
    [by apply example_ok|reflexivity|reflexivity|cbn; lia|cbn; lia|reflexivity|reflexivity|reflexivity].
Defined.
(** WRITE BUFFER and ERASE(12) to a protected user partition: both succeed, the one with a data command in the user
    area, the other with an erase. *)
Definition kept_part : partition := set_pflags SDMMC_PFLAG_WP (example_part 0 4096).
Definition kept_sim (q : ccb) : sim card :=
  Sim (SimExt SDMMC_EFLAG_PRESENT HC_CAP_DMA DEV_TYPE_MMC example_info 0 0 1 PM_IDLE 0 (replicate 8 (Targ 0 512 (replicate 8 kept_part))))
    (Card EOK READY (<[Z.to_nat ECSD_REV := ECSD_REV_V5]> (<[Z.to_nat ECSD_SUPPORTED_MODES := ECSD_FFU_SUPPORTED]> (replicate 512 0))) EOK) q [].
Definition sends (l : list call) : bool := existsb (fun c => match c with CSend _ _ _ _ _ => true | _ => false end) l.
Definition erases (l : list call) : bool := existsb (fun c => match c with CErase _ _ _ _ _ => true | _ => false end) l.
Lemma ffu_unprotected :
  (exists st s', sdmmc_read_write SCF_DIR_OUT (kept_sim write8) = Some (st, s') /\ st <> CAM_REQ_CMP /\ calls s' = []) /\
  exists s', sdmmc_ffu (fun _ => 5) (kept_sim (example_ccb [SC_WR_BUF; WB_MODE_DNLD_MC; 1; 0; 0; 0; 0; 2; 0; 0] 512 [])) = Some (CAM_REQ_CMP, s') /\
    sends (calls s') = true.
Proof. split; [do 2 eexists; split_and!; [vm_compute; reflexivity|done|reflexivity]|eexists; split; vm_compute; reflexivity]. Qed.
Lemma erase_unprotected : exists s',
  sdmmc_erase12 (kept_sim (example_ccb [SC_ERASE12; 0; 0; 0; 0; 0; 0; 0; 16; 0; 0; 0] 0 [])) = Some (CAM_REQ_CMP, s') /\ erases (calls s') = true.
Proof. eexists. split; vm_compute; reflexivity. Qed.

(** An erase request of a device control, alone or as a list of ranges, touches only blocks of its partition: of all
    the calls of the library, those that erase lie in it, and no other changes data. *)
Theorem erase_in_partition {L} `{sdio_lib_laws L} (s : sim L) (p : partition) (er : sdmmc_erase) (o1 o2 z1 z2 size : Z) (d : data_set_mgnt) :
  ok s -> part_at (ext s) (target_id (req s)) (target_lun (req s)) = Some p ->
  0 <= slba p /\ 0 < nlba p /\ slba p + nlba p <= 2 ^ 63 -> 512 <= di_erase_size (dev_inf (ext s)) ->
  0 <= er_lba er < 2 ^ 63 -> Forall (fun r => 0 <= fst r < 2 ^ 63) (ranges d) ->
  logs (sdmmc_erase_devctl er) s (fun _ => Forall (in_partition p)) /\
  logs (sdmmc_dsm_devctl o1 o2 z1 z2 size d) s (fun _ => Forall (in_partition p)).
Proof.
  intros Hok Hp Hpl He Hl Hr. pose proof Hok as [Hf Hs].
  assert (forall A (m : M (sim L) A), runs (same_dev s) (in_partition p) s m -> logs m s (fun _ => Forall (in_partition p))) as Hlog.
  { intros A m Hm. eapply post_mono; [by apply Hm, req_step_refl|]. intros a s' Hst.
    destruct (step_calls _ _ _ _ Hst) as (l & E & Hall & Hd). exists l. split_and!; [done..|]. apply (same_sectors _ _ Hs).
    destruct Hst. constructor; [|done..]. exists l. split_and!; [done| |done]. by eapply Forall_impl. }
  split; apply Hlog; [by apply erase_devctl_runs|by apply dsm_devctl_runs].
Qed.
Lemma erase_in_partition_witness :
  logs (sdmmc_erase_devctl (Erase SDMMC_ERASE_ACTION_TRIM 8 16)) (example_sim EOK SDMMC_EFLAG_PRESENT write8) (fun _ => Forall (in_partition (example_part 0 4096))) /\
  logs (sdmmc_dsm_devctl 1 2 8 16 24 (Dsm 1 [(8, 16)])) (example_sim EOK SDMMC_EFLAG_PRESENT write8) (fun _ => Forall (in_partition (example_part 0 4096))).
Proof.
  apply (erase_in_partition (example_sim EOK SDMMC_EFLAG_PRESENT write8)); [by apply example_ok|reflexivity|cbn; lia|cbn; lia|cbn; lia|].
  repeat constructor; cbn; lia.
Defined.

(** Setting or clearing write protection first selects the partition; success means that one command was sent for
    each group of the range, to consecutive groups, for the blocks of the range and no group more. *)
Theorem protects_groups {L} `{sdio_lib_laws L} (op part mode lba n prot : Z) (s : sim L) :
  ok s -> op = MMC_SET_WRITE_PROT \/ op = MMC_CLR_WRITE_PROT -> 0 <= n -> 0 <= di_wp_size (dev_inf (ext s)) ->
  logs (sdmmc_write_protect op part mode lba n prot) s (fun r l => snd r = prot /\ (fst r = EOK -> exists pre d,
    l = CPartition part EOK :: pre ++ d /\ Forall quietly pre /\
    wp_covers (ext s) op (di_wp_size (dev_inf (ext s)) / 512) lba n d)).
Proof. apply logs_protect. Qed.
Lemma protects_groups_witness : logs (sdmmc_write_protect MMC_CLR_WRITE_PROT 0 0 8192 16384 0) (example_sim EOK SDMMC_EFLAG_PRESENT write8)
  (fun r l => snd r = 0 /\ (fst r = EOK -> exists pre d, l = CPartition 0 EOK :: pre ++ d /\ Forall quietly pre /\
    wp_covers (example_ext SDMMC_EFLAG_PRESENT) MMC_CLR_WRITE_PROT 8192 8192 16384 d)).
Proof.
  apply (protects_groups MMC_CLR_WRITE_PROT 0 0 8192 16384 0 (example_sim EOK SDMMC_EFLAG_PRESENT write8));
    [by apply example_ok|by right|lia|cbn; lia].
Defined.

(** ** Size and partitions *)

(** What READ CAPACITY (10) and (16) leave in the buffer reads back as the last block of the partition, which the
    first saturates at 32 bits, and as the block size; the longer answer says whether blocks can be trimmed. *)
Theorem capacity_tells {L} `{sdio_lib L} (s : sim L) (p : partition) (t : target) :
  part_at (ext s) (target_id (req s)) (target_lun (req s)) = Some p -> targets (ext s) !! Z.to_nat (target_id (req s)) = Some t ->
  has (eflags (ext s)) SDMMC_EFLAG_PRESENT = true -> 0 < nlba p < 2 ^ 64 -> 0 <= tblksz t < 2 ^ 32 -> (16 <= length (data (req s)))%nat ->
  post (sdmmc_capacity 0) s (fun st s' => st = CAM_REQ_CMP /\ scsi_status (req s') = SCS_GOOD /\
    be_value (take 4 (data (req s'))) = Z.min (nlba p - 1) RD_CAP_MAX_LBA32 /\ be_value (take 4 (drop 4 (data (req s')))) = tblksz t) /\
  post (sdmmc_capacity SAI_READ_CAPACITY_16) s (fun st s' => st = CAM_REQ_CMP /\ scsi_status (req s') = SCS_GOOD /\
    be_value (take 8 (data (req s'))) = nlba p - 1 /\ be_value (take 4 (drop 8 (data (req s')))) = tblksz t /\
    data (req s') !! 14%nat = Some (if has (di_caps (dev_inf (ext s))) DEV_CAP_TRIM then RD_CAP_TPE else 0)).
Proof. intros Hp Ht Hr Hn Hb Hl. split; [by apply capacity10|by apply capacity16]. Qed.
Definition asks : ccb := example_ccb [SC_RD_CAP; 0; 0; 0; 0; 0; 0; 0; 0; 0] 32 (replicate 32 0xff).
Lemma capacity_tells_witness :
  post (sdmmc_capacity 0) (example_sim EOK SDMMC_EFLAG_PRESENT asks) (fun st s' => st = CAM_REQ_CMP /\ scsi_status (req s') = SCS_GOOD /\
    be_value (take 4 (data (req s'))) = Z.min 4095 RD_CAP_MAX_LBA32 /\ be_value (take 4 (drop 4 (data (req s')))) = 512) /\
  post (sdmmc_capacity SAI_READ_CAPACITY_16) (example_sim EOK SDMMC_EFLAG_PRESENT asks) (fun st s' => st = CAM_REQ_CMP /\ scsi_status (req s') = SCS_GOOD /\
    be_value (take 8 (data (req s'))) = 4095 /\ be_value (take 4 (drop 8 (data (req s')))) = 512 /\ data (req s') !! 14%nat = Some RD_CAP_TPE).
Proof.
  apply (capacity_tells (example_sim EOK SDMMC_EFLAG_PRESENT asks) (example_part 0 4096) (Targ 0 512 (replicate 8 (example_part 0 4096))));
    [reflexivity|reflexivity|reflexivity|cbn; lia|cbn; lia|cbn; lia].
Defined.

(** The partitions of an MMC card are laid out so that target i gets partition i: its configuration word selects
    i and keeps the card's other bits, it starts at block 0 and has the size that the card's registers give. *)
Theorem partitions_laid_out {L} `{sdio_lib L} (s : sim L) :
  (forall i, 0 <= i < 8 -> is_Some (part_at (ext s) i 0)) -> dtype (ext s) = DEV_TYPE_MMC -> has (eflags (ext s)) SDMMC_EFLAG_PARTITIONS = true ->
  post sdmmc_partition_config s (fun _ s' => lib s' = lib s /\ req s' = req s /\ calls s' = calls s /\
    forall i, 0 <= i < 8 -> exists q, part_at (ext s') i 0 = Some q /\ Z.land (config q) MMC_PART_MSK = i /\
      Z.ldiff (config q) 7 = Z.ldiff (ecsd_byte (raw_ecsd (lib s)) ECSD_PART_CONFIG) 7 /\ slba q = 0 /\
      nlba q = part_blocks (dev_inf (ext s)) (raw_ecsd (lib s)) i).
Proof.
  intros He Hd Hf. eapply post_mono; [by apply layout|]. intros u s' (El & Er & Ec & _ & Hq). split_and!; [done..|].
  intros i Hi. destruct (Hq i Hi) as (q & Eq & Hc & Hs & Hn). exists q. rewrite Hc. split_and!; [done|by apply part_config| |done|done].
  apply Z.bits_inj'. intros j Hj. rewrite !Z.ldiff_spec, Z.lor_spec, Z.ldiff_spec.
  change ECSD_PC_ACCESS_MSK with 7. change 7 with (Z.ones 3). rewrite (Z.testbit_ones_nonneg 3) by lia.
  destruct (Z.ltb_spec j 3); cbn [negb]; [by rewrite !andb_false_r|]. rewrite !andb_true_r.
  rewrite (Z.bits_above_log2 i j), orb_false_r; [done|lia|]. destruct (decide (i = 0)) as [->|]; [cbn; lia|].
  assert (Z.log2 i < 3) by (apply Z.log2_lt_pow2; lia). lia.
Qed.
Definition example_mmc : sim card := example_sim EOK (Z.lor SDMMC_EFLAG_PRESENT SDMMC_EFLAG_PARTITIONS) asks.
Lemma partitions_laid_out_witness : post sdmmc_partition_config example_mmc
  (fun _ s' => lib s' = lib example_mmc /\ req s' = req example_mmc /\ calls s' = calls example_mmc /\
    forall i, 0 <= i < 8 -> exists q, part_at (ext s') i 0 = Some q /\ Z.land (config q) MMC_PART_MSK = i /\
      Z.ldiff (config q) 7 = Z.ldiff (ecsd_byte (raw_ecsd (lib example_mmc)) ECSD_PART_CONFIG) 7 /\ slba q = 0 /\
      nlba q = part_blocks (dev_inf (ext example_mmc)) (raw_ecsd (lib example_mmc)) i).
Proof.
  apply (partitions_laid_out example_mmc); [|reflexivity|reflexivity].
  intros i Hi. assert (i = 0 \/ i = 1 \/ i = 2 \/ i = 3 \/ i = 4 \/ i = 5 \/ i = 6 \/ i = 7) as Hc by lia.
  destruct Hc as [->|[->|[->|[->|[->|[->|[->| ->]]]]]]]; by eexists.
Defined.
