(* ===== verification/MmcConst.v ===== *)
(** * Constants of eMMC devices and of their bus (devb/sdmmc/sdiodi)

    The names are the sources'. *)
From S2P Require Import Prelude.
Open Scope Z_scope.

(** ** include/mmc.h *)
Definition ECSD_REV_V4_2 : Z := 2.
Definition ECSD_REV_V4_3 : Z := 3.
Definition ECSD_REV_V4_4 : Z := 4.
Definition ECSD_REV_V4_5 : Z := 6.
Definition ECSD_REV_V5_1 : Z := 8.
Definition ECSD_SEC_CNT : Z := 0xd4.
Definition ECSD_SEC_CNT_2GB : Z := 0x400000.
Definition ECSD_ACC_SIZE : Z := 0xe1.
Definition ECSD_REL_WR_SEC_C : Z := 0xde.
Definition ECSD_WR_REL_PARAM : Z := 0xa6.
Definition ECSD_WRP_EN_REL_WR : Z := 4.
Definition ECSD_S_A_TIMEOUT : Z := 0xd9.
Definition ECSD_SEC_FEATURE_SUPPORT : Z := 0xe7.
Definition ECSD_SEC_GB_CL_EN : Z := 0x10.
Definition ECSD_SEC_ER_EN : Z := 1.
Definition ECSD_SEC_SANITIZE : Z := 0x40.
Definition ECSD_BKOPS_SUPPORTED : Z := 0x1f6.
Definition ECSD_BKOPS_SUP : Z := 1.
Definition ECSD_HPI_FEATURES : Z := 0x1f7.
Definition EXT_HPI_FEATURES_SUP_CMD12 : Z := 2.
Definition EXT_HPI_FEATURES_SUPPORTED : Z := 1.
Definition MDT_YEAR_2010 : Z := 2010.
Definition MDT_YEAR_2013 : Z := 2013.
Definition MDT_YEAR_1997 : Z := 1997.
Definition ECSD_USE_NATIVE_SECTOR : Z := 0x3e.
Definition ECSD_USE_NATIVE_SECTOR_EN : Z := 1.
Definition ECSD_NATIVE_SECTOR_SIZE : Z := 0x3f.
Definition ECSD_NATIVE_SECTOR_MSK : Z := 1.
Definition ECSD_NATIVE_SECTOR_512 : Z := 0.
Definition ECSD_CACHE_SIZE : Z := 0xf9.
Definition ECSD_DRIVER_STRENGTH : Z := 0xc5.
Definition ECSD_STROBE_SUPPORT : Z := 0xb8.
Definition ECSD_CARD_TYPE : Z := 0xc4.
Definition ECSD_CARD_TYPE_MSK : Z := 0xff.
Definition ECSD_CARD_TYPE_HS400 : Z := 0xc0.
Definition ECSD_CARD_TYPE_HS400_1_8V : Z := 0x40.
Definition ECSD_CARD_TYPE_HS400_1_2V : Z := 0x80.
Definition ECSD_CARD_TYPE_HS200 : Z := 0x30.
Definition ECSD_CARD_TYPE_HS200_1_8V : Z := 0x10.
Definition ECSD_CARD_TYPE_HS200_1_2V : Z := 0x20.
Definition ECSD_CARD_TYPE_52MHZ : Z := 0xe.
Definition ECSD_CARD_TYPE_DDR : Z := 0xc.
Definition ECSD_CARD_TYPE_DDR_1_8V : Z := 4.
Definition ECSD_CARD_TYPE_DDR_1_2V : Z := 8.
Definition ECSD_PARTITION_SWITCH_TIME : Z := 0xc7.
Definition ECSD_OUT_OF_INTERRUPT_TIME : Z := 0xc6.
Definition ECSD_ERASE_GRP_DEF : Z := 0xaf.
Definition ECSD_EGD_EN : Z := 1.
Definition ECSD_HS_TIMING : Z := 0xb9.
Definition ECSD_HS_TIMING_DRV_TYPE_SHFT : Z := 4.
Definition ECSD_HS_TIMING_HS : Z := 1.
Definition ECSD_HS_TIMING_HS200 : Z := 2.
Definition ECSD_HS_TIMING_HS400 : Z := 3.
Definition ECSD_BUS_WIDTH : Z := 0xb7.
Definition ECSD_BUS_WIDTH_8 : Z := 2.
Definition ECSD_BUS_WIDTH_DDR : Z := 4.
Definition ECSD_BUS_WIDTH_ES : Z := 0x80.
Definition ECSD_HPI_MGMT : Z := 0xa1.
Definition ECSD_HPI_MGMT_EN : Z := 1.
Definition MMC_EXT_CSD_SIZE : Z := 0x200.
Definition MMC_SEND_EXT_CSD : Z := 8.
Definition MMC_BUSTEST_W : Z := 0x13.
Definition MMC_BUSTEST_R : Z := 0xe.
Definition MMC_READ_MULTIPLE_BLOCK : Z := 0x12.
Definition MMC_WRITE_MULTIPLE_BLOCK : Z := 0x19.
Definition ECSD_POWER_OFF_LONG : Z := 3.
Definition ECSD_POWER_OFF_LONG_TIME : Z := 0xf7.

(** ** internal.h *)
Definition SDIO_BLKSZ_512 : Z := 512.
Definition SDIO_BLKSZ_4K : Z := 4096.
Definition DEV_FLAG_BKOPS : Z := 0x1000.
Definition DEV_FLAG_HS : Z := 0x80.
Definition SIGNAL_VOLTAGE_1_2 : Z := 4.
Definition DTR_MAX_HS400 : Z := 200000000.
Definition DTR_MAX_HS200 : Z := 200000000.
Definition DTR_MAX_HS52 : Z := 52000000.
Definition DTR_MAX_HS26 : Z := 26000000.
Definition DTR_MIN_LS : Z := 100000.
Definition DTR_HS_DEC : Z := 5000000.
Definition DTR_LS_DEC : Z := 50000.
Definition HC_FLAG_SKIP_PWRUP : Z := 0x80.
Definition DEV_ERRATA_ACMD12 : Z := 1.
Definition DEV_ERRATA_DISCARD_SUP : Z := 2.
Definition SDIO_MAX_BUS_ERRS : Z := 2.
Definition SDIO_RESET_RETRIES : Z := 3.
Definition BUS_MODE_OPEN_DRAIN : Z := 0.
Definition SIGNAL_VOLTAGE_3_0 : Z := 2.

(** ** include/sdiodi.h *)
Definition DEV_CAP_SLEEP : Z := 0x400.
Definition DEV_CAP_HPI_CMD12 : Z := 0x1000.
Definition DEV_CAP_SANITIZE : Z := 0x80.
Definition DEV_CAP_PWROFF_NOTIFY : Z := 0x20000.
Definition DEV_CAP_HS400ES : Z := 0x40000.
Definition DEV_CAP_HS400 : Z := 0x10000.
Definition DEV_CAP_HS200 : Z := 4.
Definition DEV_CAP_HS : Z := 2.
Definition DEV_CAP_DDR50 : Z := 8.
Definition TIMING_HS400ES : Z := 0xa.
Definition HC_CAP_HS400 : Z := 0x10000.
Definition HC_CAP_HS400ES : Z := 0x400000000.
Definition HC_CAP_HS200 : Z := 0x8000.
Definition HC_CAP_SV_1_2V : Z := 0x10000000.
Definition HC_CAP_SV_3_0V : Z := 0x40000000.
Definition CSD_SPEC_VER_4 : Z := 4.
Definition SDHCI_TUNING_TIMEOUT : Z := 150.
