(* ===== verification/MmcBus.v ===== *)
(** * Bringing up an eMMC: its extended CSD, its bus and its modes (sdiodi/mmc.c)

    The command layer of SdioCmd.v with more entries of the controller: its
    timing, the width of its bus, tuning.  The state adds what the driver
    knows of the device, and a list of what was done to the link between the
    controller and the device, for the theorems; nothing reads it.  What a
    read leaves in memory is a function of the commands so far. *)
From S2P Require Import Prelude Driver SdioReg SdioConst SimConst MmcConst Sdhci SdioCmd.
Open Scope Z_scope.

(** ** The state *)
Class bus_entry (C : Type) := {
  entry_timing : Z -> M C errno;
  entry_bus_width : Z -> M C errno;
  entry_tune : Z -> M C errno
}.

Record sdio_ecsd := Ecsd {
  e_blksz : Z; e_sectors : Z; e_acc_size : Z; dtr_max_hs : Z; s_a_timeout : Z;
  ext_csd_rev : Z; card_type : Z; driver_strength : Z;
  erase_grp_def : Z; hc_erase_group_size : Z; hc_wp_grp_size : Z; user_wp : Z; part_config : Z; strobe : Z; bkops_en : Z
}.
Definition no_ecsd : sdio_ecsd := Ecsd 0 0 0 0 0 0 0 0 0 0 0 0 0 0 0.
Definition set_sectors (n : Z) (e : sdio_ecsd) : sdio_ecsd :=
  Ecsd (e_blksz e) n (e_acc_size e) (dtr_max_hs e) (s_a_timeout e) (ext_csd_rev e) (card_type e) (driver_strength e)
    (erase_grp_def e) (hc_erase_group_size e) (hc_wp_grp_size e) (user_wp e) (part_config e) (strobe e) (bkops_en e).
Definition set_rev (rev size : Z) (e : sdio_ecsd) : sdio_ecsd :=
  Ecsd size (e_sectors e) (e_acc_size e) (dtr_max_hs e) (s_a_timeout e) rev (card_type e) (driver_strength e)
    (erase_grp_def e) (hc_erase_group_size e) (hc_wp_grp_size e) (user_wp e) (part_config e) (strobe e) (bkops_en e).
Definition set_access (part acc sa : Z) (e : sdio_ecsd) : sdio_ecsd :=
  Ecsd (e_blksz e) (e_sectors e) acc (dtr_max_hs e) sa (ext_csd_rev e) (card_type e) (driver_strength e)
    (erase_grp_def e) (hc_erase_group_size e) (hc_wp_grp_size e) (user_wp e) part (strobe e) (bkops_en e).
Definition set_bkops_en (v : Z) (e : sdio_ecsd) : sdio_ecsd :=
  Ecsd (e_blksz e) (e_sectors e) (e_acc_size e) (dtr_max_hs e) (s_a_timeout e) (ext_csd_rev e) (card_type e) (driver_strength e)
    (erase_grp_def e) (hc_erase_group_size e) (hc_wp_grp_size e) (user_wp e) (part_config e) (strobe e) v.
Definition set_strength (v : Z) (e : sdio_ecsd) : sdio_ecsd :=
  Ecsd (e_blksz e) (e_sectors e) (e_acc_size e) (dtr_max_hs e) (s_a_timeout e) (ext_csd_rev e) (card_type e) v
    (erase_grp_def e) (hc_erase_group_size e) (hc_wp_grp_size e) (user_wp e) (part_config e) (strobe e) (bkops_en e).
Definition set_strobe (v : Z) (e : sdio_ecsd) : sdio_ecsd :=
  Ecsd (e_blksz e) (e_sectors e) (e_acc_size e) (dtr_max_hs e) (s_a_timeout e) (ext_csd_rev e) (card_type e) (driver_strength e)
    (erase_grp_def e) (hc_erase_group_size e) (hc_wp_grp_size e) (user_wp e) (part_config e) v (bkops_en e).
Definition set_card_type (v : Z) (e : sdio_ecsd) : sdio_ecsd :=
  Ecsd (e_blksz e) (e_sectors e) (e_acc_size e) (dtr_max_hs e) (s_a_timeout e) (ext_csd_rev e) v (driver_strength e)
    (erase_grp_def e) (hc_erase_group_size e) (hc_wp_grp_size e) (user_wp e) (part_config e) (strobe e) (bkops_en e).
Definition set_dtr_max_hs (v : Z) (e : sdio_ecsd) : sdio_ecsd :=
  Ecsd (e_blksz e) (e_sectors e) (e_acc_size e) v (s_a_timeout e) (ext_csd_rev e) (card_type e) (driver_strength e)
    (erase_grp_def e) (hc_erase_group_size e) (hc_wp_grp_size e) (user_wp e) (part_config e) (strobe e) (bkops_en e).
Definition set_groups (def erase wp user : Z) (e : sdio_ecsd) : sdio_ecsd :=
  Ecsd (e_blksz e) (e_sectors e) (e_acc_size e) (dtr_max_hs e) (s_a_timeout e) (ext_csd_rev e) (card_type e) (driver_strength e)
    def erase wp user (part_config e) (strobe e) (bkops_en e).
Definition set_grp_def (v : Z) (e : sdio_ecsd) : sdio_ecsd :=
  set_groups v (hc_erase_group_size e) (hc_wp_grp_size e) (user_wp e) e.

(** What is known of the device beside [sdev], and hc->drv_type. *)
Record mmc := Mmc {
  m_csd : csd; m_cid : cid; m_ecsd : sdio_ecsd; raw_ecsd : list Z; rel_wr_sec_c : Z; wp_size : Z; erase_size : Z; m_drv_type : Z
}.
Definition set_m_csd (c : csd) (m : mmc) : mmc :=
  Mmc c (m_cid m) (m_ecsd m) (raw_ecsd m) (rel_wr_sec_c m) (wp_size m) (erase_size m) (m_drv_type m).
Definition set_m_cid (c : cid) (m : mmc) : mmc :=
  Mmc (m_csd m) c (m_ecsd m) (raw_ecsd m) (rel_wr_sec_c m) (wp_size m) (erase_size m) (m_drv_type m).
Definition set_m_ecsd (e : sdio_ecsd) (m : mmc) : mmc :=
  Mmc (m_csd m) (m_cid m) e (raw_ecsd m) (rel_wr_sec_c m) (wp_size m) (erase_size m) (m_drv_type m).
Definition set_raw_ecsd (l : list Z) (m : mmc) : mmc :=
  Mmc (m_csd m) (m_cid m) (m_ecsd m) l (rel_wr_sec_c m) (wp_size m) (erase_size m) (m_drv_type m).
Definition set_rel_wr (n : Z) (m : mmc) : mmc :=
  Mmc (m_csd m) (m_cid m) (m_ecsd m) (raw_ecsd m) n (wp_size m) (erase_size m) (m_drv_type m).
Definition set_sizes (wp erase : Z) (m : mmc) : mmc :=
  Mmc (m_csd m) (m_cid m) (m_ecsd m) (raw_ecsd m) (rel_wr_sec_c m) wp erase (m_drv_type m).
Definition set_m_drv_type (t : Z) (m : mmc) : mmc :=
  Mmc (m_csd m) (m_cid m) (m_ecsd m) (raw_ecsd m) (rel_wr_sec_c m) (wp_size m) (erase_size m) t.
Definition set_dtr_max (v : Z) (c : csd) : csd :=
  Csd (csd_structure c) (spec_vers c) (taac c) (nsac c) (tran_speed c) (ccc c) (read_bl_len c) (read_bl_partial c)
    (write_blk_misalign c) (read_blk_misalign c) (dsr_imp c) (c_size c) (vdd_r_curr_min c) (vdd_r_curr_max c) (vdd_w_curr_min c)
    (vdd_w_curr_max c) (c_size_mult c) (erase_blk_en c) (erase_grp_size c) (erase_grp_mult c) (sector_size c) (wp_grp_size c)
    (wp_grp_enable c) (r2w_factor c) (write_bl_len c) (write_bl_partial c) (write_protect c) v (SdioReg.blksz c) (sectors c).
Definition set_year (y : Z) (c : cid) : cid := Cid (mid c) (oid c) (pnm c) (prv c) (psn c) (month c) y.

Definition set_partition_time (v : Z) (d : sdev) : sdev :=
  Dev (dcaps d) (rca d) (block_length d) (pactive d) (csd_blksz d) (dev_ocr d) (bus_modes d) (raw_cid d) v (raw_csd d).

(** What was done to the link, with the result. *)
Inductive bus_event :=
| Switched (index value : Z) (e : errno)
| Timed (timing : Z) (e : errno)
| Widened (width : Z) (e : errno)
| Clocked (clk : Z) (e : errno)
| Tuned (op : Z) (e : errno)
| Powered (voltage : Z) (e : errno)
| Waited (e : errno)
| Functioned (mode grp val : Z) (e : errno) (status : list Z)
| Spread (width : Z) (e : errno)
| Driven (type : Z) (e : errno)
| Wrote (data : list Z) (e : errno).

Record mst (C : Type) := Mst { cmds : cst C; mdev : mmc; done : list bus_event }.
Arguments Mst {C}. Arguments cmds {C}. Arguments mdev {C}. Arguments done {C}.

(** [if( ( status = m ) ) return( status ); k] *)
Definition ok_then {S} (m k : M S errno) : M S errno := e ← m; if decide (e <> EOK) then mret e else k.
Notation "m !; k" := (ok_then m k) (at level 100, k at level 200, right associativity) : bsp_scope.

Section bus.
Context {C : Type} `{sdio_hc_entry C} `{bus_entry C} (no_memory no_buffer : list issued -> bool).

(** The bytes in the buffer of a read after the commands so far, and the
    address of the buffers. *)
Context (transferred : list issued -> list Z) (buffer : Z).

Definition cmd_ {A} (m : M (cst C) A) : M (mst C) A := fun s =>
  match m (cmds s) with None => None | Some (a, c) => Some (a, Mst c (mdev s) (done s)) end.
Definition upd_cmds (f : cst C -> cst C) (s : mst C) : mst C := Mst (f (cmds s)) (mdev s) (done s).
Definition upd_mdev (f : mmc -> mmc) (s : mst C) : mst C := Mst (cmds s) (f (mdev s)) (done s).
Definition note (ev : errno -> bus_event) (m : M (mst C) errno) : M (mst C) errno :=
  e ← m; modify (fun s => Mst (cmds s) (mdev s) (done s ++ [ev e]));; mret e.

Definition ecsd : M (mst C) sdio_ecsd := gets (fun s => m_ecsd (mdev s)).
Definition upd_ecsd (f : sdio_ecsd -> sdio_ecsd) : M (mst C) () := modify (upd_mdev (fun m => set_m_ecsd (f (m_ecsd m)) m)).
Definition hcaps : M (mst C) Z := gets (fun s => hc_caps (ctl (cmds s))).
Definition caps : M (mst C) Z := gets (fun s => dcaps (dev (cmds s))).
Definition upd_caps (f : Z -> Z) : M (mst C) () := modify (upd_cmds (upd_dev (fun d => set_csd (f (dcaps d)) (csd_blksz d) d))).
Definition flags : M (mst C) Z := gets (fun s => dev_flags (ctl (cmds s))).
Definition upd_dflags (f : Z -> Z) : M (mst C) () := cmd_ (upd_dev_flags f).

(** ** base.c *)
Definition sdio_timing (timing : Z) : M (mst C) errno := note (Timed timing) (cmd_ (hc_call (entry_timing timing))).
Definition sdio_bus_width (width : Z) : M (mst C) errno := note (Widened width) (cmd_ (hc_call (entry_bus_width width))).
Definition sdio_signal_voltage (voltage : Z) : M (mst C) errno :=
  note (Powered voltage) (cmd_ (hc_call (entry_signal_voltage voltage))).
Definition sdio_tune (op : Z) : M (mst C) errno := note (Tuned op) (cmd_ (hc_call (entry_tune op))).
Definition sdio_clock (clk : Z) : M (mst C) errno := note (Clocked clk) (cmd_ (SdioCmd.sdio_clock clk)).
Definition sdio_bus_mode (mode : Z) : M (mst C) errno := cmd_ (hc_call (entry_bus_mode mode)).

(** _sdio_wait_card_status( dev, NULL, CDS_READY_FOR_DATA, ... ) *)
Definition wait_ready : M (mst C) errno :=
  note Waited (cmd_ (_sdio_wait_card_status no_memory (send_cmd no_memory) CDS_READY_FOR_DATA CDS_READY_FOR_DATA SDIO_TIME_DEFAULT)).

(** mmc_switch and _mmc_switch, with the command set, the mode and the time
    that all calls here have. *)
Definition switch_ (index value : Z) (wrdy : bool) : M (mst C) errno :=
  note (Switched index value)
    (cmd_ (_mmc_switch no_memory MMC_SWITCH_CMDSET_DFLT MMC_SWITCH_MODE_WRITE index value SDIO_TIME_DEFAULT wrdy)).
Definition switch (index value : Z) : M (mst C) errno := switch_ index value true.

(** ** The extended CSD *)
Definition raw (i : Z) : M (mst C) Z := gets (fun s => default 0 (raw_ecsd (mdev s) !! Z.to_nat i)).
Definition add_caps (v : Z) : M (mst C) () := upd_caps (fun c => Z.lor c v).

Definition ecsd_v4_2 : M (mst C) () :=
  b0 ← raw ECSD_SEC_CNT; b1 ← raw (ECSD_SEC_CNT + 1); b2 ← raw (ECSD_SEC_CNT + 2); b3 ← raw (ECSD_SEC_CNT + 3);
  let n := Z.lor (Z.lor b0 (Z.shiftl b1 8)) (Z.lor (Z.shiftl b2 16) (Z.shiftl b3 24)) in
  upd_ecsd (set_sectors n);;
  if ECSD_SEC_CNT_2GB <? n then add_caps DEV_CAP_HC else mret ().

Definition ecsd_v4_3 : M (mst C) () :=
  pc ← raw ECSD_PART_CONFIG; acc ← raw ECSD_ACC_SIZE; sa ← raw ECSD_S_A_TIMEOUT;
  rel ← raw ECSD_REL_WR_SEC_C; param ← raw ECSD_WR_REL_PARAM;
  let part := Z.land pc ECSD_PC_ACCESS_MSK in
  upd_ecsd (set_access part (if acc =? 0 then 0 else u32 (512 * Z.shiftl 1 (acc - 1)))
    (if negb (sa =? 0) && (sa <=? 0x17) then Z.shiftl 1 sa else 0));;
  modify (upd_cmds (upd_dev (set_pactive part)));; modify (upd_mdev (set_rel_wr rel));;
  (if has param ECSD_WRP_EN_REL_WR then add_caps (Z.lor DEV_CAP_WR_REL DEV_CAP_WR_REL_ENH) else mret ());;
  add_caps DEV_CAP_SLEEP.

Definition ecsd_v4_4 : M (mst C) () :=
  f ← raw ECSD_SEC_FEATURE_SUPPORT;
  (if has f ECSD_SEC_GB_CL_EN then add_caps DEV_CAP_TRIM else mret ());;
  if has f ECSD_SEC_ER_EN then add_caps DEV_CAP_SECURE else mret ().

Definition ecsd_v4_41 : M (mst C) () :=
  sup ← raw ECSD_BKOPS_SUPPORTED; en ← raw ECSD_BKOPS_EN; hpi ← raw ECSD_HPI_FEATURES;
  (if has sup ECSD_BKOPS_SUP then
     add_caps DEV_CAP_BKOPS;; upd_ecsd (set_bkops_en en);;
     if has en ECSD_BKOPS_ENABLE then upd_dflags (fun f => Z.lor f DEV_FLAG_BKOPS) else mret ()
   else mret ());;
  (if has hpi EXT_HPI_FEATURES_SUP_CMD12 then add_caps DEV_CAP_HPI_CMD12 else mret ());;
  modify (upd_mdev (fun m => if year (m_cid m) <? MDT_YEAR_2010
    then set_m_cid (set_year (year (m_cid m) + (MDT_YEAR_2013 - MDT_YEAR_1997)) (m_cid m)) m else m)).

Definition ecsd_v4_5 : M (mst C) errno :=
  use ← raw ECSD_USE_NATIVE_SECTOR; size ← raw ECSD_NATIVE_SECTOR_SIZE;
  (if has use ECSD_USE_NATIVE_SECTOR_EN then
     let n := Z.land size ECSD_NATIVE_SECTOR_MSK in
     e ← ecsd;
     if n =? ECSD_NATIVE_SECTOR_512 then upd_ecsd (set_rev (ext_csd_rev e) SDIO_BLKSZ_512);; mret EOK
     else if n =? ECSD_NATIVE_SECTOR_4K then upd_ecsd (set_rev (ext_csd_rev e) SDIO_BLKSZ_4K);; mret EOK
     else mret EINVAL
   else mret EOK) !;
  (c0 ← raw ECSD_CACHE_SIZE; c1 ← raw (ECSD_CACHE_SIZE + 1); c2 ← raw (ECSD_CACHE_SIZE + 2); c3 ← raw (ECSD_CACHE_SIZE + 3);
   strength ← raw ECSD_DRIVER_STRENGTH; f ← raw ECSD_SEC_FEATURE_SUPPORT;
   (if forallb (Z.eqb 0) [c0; c1; c2; c3] then mret () else add_caps DEV_CAP_CACHE);;
   upd_ecsd (set_strength strength);;
   modify (upd_mdev (fun m => if has strength (Z.shiftl 1 (m_drv_type m)) then m else set_m_drv_type 0 m));;
   (if has f ECSD_SEC_SANITIZE then add_caps DEV_CAP_SANITIZE else mret ());;
   add_caps (Z.lor DEV_CAP_DISCARD DEV_CAP_PWROFF_NOTIFY);; mret EOK).

Definition ecsd_v5_1 : M (mst C) () :=
  st ← raw ECSD_STROBE_SUPPORT; upd_ecsd (set_strobe st);;
  k ← hcaps;
  (if has k HC_CAP_HS400ES && negb (st =? 0) then add_caps DEV_CAP_HS400ES else mret ());;
  upd_caps (fun c => if has c DEV_CAP_BKOPS then Z.lor c DEV_CAP_BKOPS_AUTO else c).

(** Both sides can do it at 1.8 V or at 1.2 V. *)
Definition common_voltage (k sv18 t t18 t12 : Z) : bool :=
  (has k sv18 && has t t18) || (has k HC_CAP_SV_1_2V && has t t12).
Definition HS400_caps : Z := Z.lor HC_CAP_HS400 HC_CAP_HS400ES.

Definition ecsd_modes : M (mst C) () :=
  ct ← raw ECSD_CARD_TYPE; k ← hcaps;
  let t := Z.land ct ECSD_CARD_TYPE_MSK in
  upd_ecsd (set_card_type t);;
  (if has k HS400_caps && has t ECSD_CARD_TYPE_HS400 &&
      common_voltage k HC_CAP_SV_1_8V t ECSD_CARD_TYPE_HS400_1_8V ECSD_CARD_TYPE_HS400_1_2V
   then add_caps (Z.lor DEV_CAP_HS400 DEV_CAP_HS);; upd_ecsd (set_dtr_max_hs DTR_MAX_HS400) else mret ());;
  (if has k HC_CAP_HS200 && has t ECSD_CARD_TYPE_HS200 &&
      common_voltage k HC_CAP_SV_1_8V t ECSD_CARD_TYPE_HS200_1_8V ECSD_CARD_TYPE_HS200_1_2V
   then add_caps (Z.lor DEV_CAP_HS200 DEV_CAP_HS);; upd_ecsd (set_dtr_max_hs DTR_MAX_HS200) else mret ());;
  c ← caps;
  (if negb (has c DEV_CAP_HS) && has k HC_CAP_HS && has t ECSD_CARD_TYPE_52MHZ
   then add_caps DEV_CAP_HS;; upd_ecsd (set_dtr_max_hs DTR_MAX_HS52) else mret ());;
  c ← caps;
  (if has c DEV_CAP_HS then mret () else upd_ecsd (set_dtr_max_hs DTR_MAX_HS26));;
  if has k HC_CAP_DDR50 && has t ECSD_CARD_TYPE_DDR &&
     common_voltage k (Z.lor HC_CAP_SV_3_0V HC_CAP_SV_1_8V) t ECSD_CARD_TYPE_DDR_1_8V ECSD_CARD_TYPE_DDR_1_2V
  then add_caps DEV_CAP_DDR50 else mret ().

(** dev->raw_ecsd; mmc_set_partition reads its time from there. *)
Definition put_raw (l : list Z) : M (mst C) () :=
  modify (upd_mdev (set_raw_ecsd l));;
  modify (upd_cmds (upd_dev (set_partition_time (default 0 (l !! Z.to_nat ECSD_PARTITION_SWITCH_TIME))))).

(** A zero of the register becomes a second. *)
Definition default_time (i : Z) : M (mst C) () :=
  t ← raw i; l ← gets (fun s => raw_ecsd (mdev s)); if t =? 0 then put_raw (<[Z.to_nat i := 100]> l) else mret ().

Definition ecsd_times : M (mst C) () :=
  default_time ECSD_PARTITION_SWITCH_TIME;; default_time ECSD_OUT_OF_INTERRUPT_TIME;;
  def ← raw ECSD_ERASE_GRP_DEF; erase ← raw ECSD_ERASE_GRP_SIZE; wp ← raw ECSD_HC_WP_GRP_SIZE; user ← raw ECSD_USER_WP;
  upd_ecsd (set_groups def erase wp user).

Definition from_rev (rev v : Z) (m : M (mst C) ()) : M (mst C) () := if v <=? rev then m else mret ().
Definition mmc_parse_ext_csd : M (mst C) errno :=
  rev ← raw ECSD_REV;
  upd_ecsd (fun _ => set_rev rev SDIO_DFLT_BLKSZ no_ecsd);; modify (upd_cmds (upd_dev (set_pactive 0)));;
  add_caps DEV_CAP_CMD23;;
  from_rev rev ECSD_REV_V4_2 ecsd_v4_2;; from_rev rev ECSD_REV_V4_3 ecsd_v4_3;;
  from_rev rev ECSD_REV_V4_4 ecsd_v4_4;; from_rev rev ECSD_REV_V4_41 ecsd_v4_41;;
  (if ECSD_REV_V4_5 <=? rev then ecsd_v4_5 else mret EOK) !;
  (from_rev rev ECSD_REV_V5_1 ecsd_v5_1;; ecsd_modes;; ecsd_times;; mret EOK).

(** ** Sizes and times of erasing *)
Definition mmc_wp_grp_size (m : mmc) : Z :=
  let e := m_ecsd m in let c := m_csd m in
  if negb (erase_grp_def e =? 0) then u64 (hc_wp_grp_size e * hc_erase_group_size e * MMC_ERASE_GRP_512K)
  else (erase_grp_size c + 1) * (erase_grp_mult c + 1) * (wp_grp_size c + 1) * 512.
Definition mmc_erase_grp_size (m : mmc) : Z :=
  let e := m_ecsd m in let c := m_csd m in
  if negb (erase_grp_def e =? 0) then u64 (hc_erase_group_size e * MMC_ERASE_GRP_512K)
  else (erase_grp_size c + 1) * (erase_grp_mult c + 1) * 512.

(** The milliseconds for a kind of erase, for one group. *)
Definition erase_mult (m : mmc) (etype : Z) : Z :=
  let r i := default 0 (raw_ecsd m !! Z.to_nat i) in
  if erase_grp_def (m_ecsd m) =? 0 then MMC_ERASE_TIMEOUT
  else if (etype =? MMC_ERASE_TRIM) || (etype =? MMC_ERASE_DISCARD) then MMC_ERASE_TIMEOUT * r ECSD_TRIM_MULT
  else if etype =? MMC_ERASE_SECURE then MMC_ERASE_TIMEOUT * r ECSD_ERASE_MULT * r ECSD_SEC_ERASE_MULT
  else if (etype =? MMC_ERASE_SECURE_TRIM) || (etype =? MMC_ERASE_SECURE_TRIM_PURGE)
  then MMC_ERASE_TIMEOUT * r ECSD_ERASE_MULT * r ECSD_SEC_TRIM_MULT
  else MMC_ERASE_TIMEOUT * r ECSD_ERASE_MULT.

(** None: a division by zero. *)
Definition mmc_erase_timeout (m : mmc) (etype nlba : Z) : option Z :=
  let grp := mmc_erase_grp_size m / 512 in
  if grp =? 0 then None
  else Some (Z.max (u64 (u32 (erase_mult m etype) * u64 (nlba / grp + 2))) MMC_ERASE_TIMEOUT_MIN).

(** mmc_erase of SdioCmd.v with its time. *)
Definition mmc_erase_timed (partition flgs lba nlba : Z) : M (mst C) errno :=
  m ← gets mdev;
  match mmc_erase_timeout m flgs nlba with
  | Some t => cmd_ (mmc_erase no_memory partition flgs lba nlba t)
  | None => if nlba =? 0 then cmd_ (mmc_erase no_memory partition flgs lba nlba 0) else crash
  end.

(** ** Commands with a block of data *)

(** A read of [n] bytes in one block, into a buffer that is filled. *)
Definition read_cmd (c : sdio_cmd_t) (n : Z) (timeout : Z) : M (mst C) (errno * list Z) :=
  x ← cmd_ (send_cmd no_memory (sdio_setup_cmd_io c SCF_DIR_IN 1 n [Sge buffer n]) timeout 0);
  l ← gets (fun s => transferred (sent (cmds s))); mret (fst x, l).

Definition mmc_send_ext_csd : M (mst C) (errno * list Z) :=
  o ← cmd_ (sdio_alloc_cmd no_memory); b ← gets (fun s => no_buffer (sent (cmds s)));
  match o with
  | None => mret (ENOMEM, [])
  | Some c =>
      if (b : bool) then mret (ENOMEM, [])
      else read_cmd (sdio_setup_cmd c (Z.lor SCF_CTYPE_ADTC SCF_RSP_R1) MMC_SEND_EXT_CSD 0) MMC_EXT_CSD_SIZE SDIO_TIME_DEFAULT
  end.

(** mmc_gen_man_cmd: a general command; [buf] is what is written, the second
    result what was read. *)
Definition mmc_gen_man_cmd (op blklen blkcnt a flgs : Z) (buf : list Z) : M (mst C) (errno * list Z) :=
  if 1 <? blkcnt then mret (ENOTSUP, buf)
  else
    o ← cmd_ (sdio_alloc_cmd no_memory);
    match o with
    | None => mret (ENOMEM, buf)
    | Some c =>
        let c := sdio_setup_cmd c (Z.ldiff flgs SCF_DATA_MSK) op a in
        let time := u32 (SDIO_TIME_DEFAULT * 5) in
        if negb (has flgs SCF_CTYPE_ADTC) then x ← cmd_ (send_cmd no_memory c time 0); mret (fst x, buf)
        else
          e ← (if blklen =? SDIO_DFLT_BLKSZ then mret EOK else cmd_ (_sdio_set_block_length no_memory blklen));
          if decide (e <> EOK) then mret (e, buf)
          else
            b ← gets (fun s => no_buffer (sent (cmds s)));
            if (b : bool) then mret (ENOMEM, buf)
            else
              let c := sdio_setup_cmd_io c (Z.land flgs SCF_DATA_MSK) blkcnt blklen [Sge buffer (u32 (blklen * blkcnt))] in
              x ← cmd_ (send_cmd no_memory c time 0);
              l ← gets (fun s => transferred (sent (cmds s)));
              let got := if bool_decide (fst x = EOK) && has flgs SCF_DIR_IN then l else buf in
              if blklen =? SDIO_DFLT_BLKSZ then mret (fst x, got)
              else e ← cmd_ (_sdio_set_block_length no_memory SDIO_DFLT_BLKSZ); mret (e, got)
    end.

(** ** The width of the bus *)
Definition bus_pattern (width : Z) : list Z := if width =? 8 then [0x55; 0xaa; 0; 0; 0; 0; 0; 0] else [0x5a; 0; 0; 0].
Definition pattern_seen (width : Z) (data : list Z) : bool :=
  forallb (fun i => Z.lxor (default 0 (bus_pattern width !! i)) (default 0 (data !! i)) =? 0xff) (seq 0 (Z.to_nat (width / 4))).
Definition mmc_bus_test (width : Z) : M (mst C) errno :=
  o ← cmd_ (sdio_alloc_cmd no_memory); b ← gets (fun s => no_buffer (sent (cmds s)));
  match o with
  | None => mret ENOMEM
  | Some c =>
      if (b : bool) then mret ENOMEM
      else
        x ← cmd_ (send_cmd no_memory (sdio_setup_cmd_io (sdio_setup_cmd c (Z.lor SCF_CTYPE_ADTC SCF_RSP_R1) MMC_BUSTEST_W 0)
                    SCF_DIR_OUT 1 width [Sge buffer width]) SDIO_TIME_DEFAULT 0);
        y ← read_cmd (sdio_setup_cmd (snd x) (Z.lor SCF_CTYPE_ADTC SCF_RSP_R1) MMC_BUSTEST_R 0) width SDIO_TIME_DEFAULT;
        mret (if decide (fst y = EOK) then if pattern_seen width (snd y) then EOK else EIO else fst y)
  end.

(** [for( ; width >= 4; width >>= 1 )] *)
Fixpoint try_widths (l : list Z) : M (mst C) Z :=
  match l with
  | [] => mret BUS_WIDTH_1
  | width :: l' =>
      e ← switch ECSD_BUS_WIDTH (width / 4);
      if decide (e <> EOK) then try_widths l'
      else
        sdio_bus_width width;;
        e ← mmc_bus_test width;
        if decide (e = EOK) then mret width else try_widths l'
  end.
Definition widest (k : Z) : Z := if has k HC_CAP_BW8 then BUS_WIDTH_8 else if has k HC_CAP_BW4 then BUS_WIDTH_4 else BUS_WIDTH_1.
Definition mmc_bus_width (flg : bool) : M (mst C) Z :=
  k ← hcaps;
  let width := widest k in
  if (width =? BUS_WIDTH_1) || negb flg then mret width
  else try_widths (if width =? BUS_WIDTH_8 then [BUS_WIDTH_8; BUS_WIDTH_4] else [BUS_WIDTH_4]).

(** ** The modes of the link *)
(** HS_TIMING with the strength of the driver. *)
Definition timing_value (m : mmc) (t : Z) : Z := Z.lor (Z.shiftl (m_drv_type m) ECSD_HS_TIMING_DRV_TYPE_SHFT) t.

(** 1.2 V and then 1.8 V, where both sides can; EINVAL if they cannot. *)
Definition pick_voltage (sv12 sv18 : bool) : M (mst C) errno :=
  e ← (if sv12 then sdio_signal_voltage SIGNAL_VOLTAGE_1_2 else mret EINVAL);
  if negb (bool_decide (e = EOK)) && sv18 then sdio_signal_voltage SIGNAL_VOLTAGE_1_8 else mret e.

Definition mmc_init_hs : M (mst C) errno :=
  upd_ecsd (fun e => if DTR_MAX_HS52 <? dtr_max_hs e then set_dtr_max_hs DTR_MAX_HS52 e else e);;
  switch ECSD_HS_TIMING ECSD_HS_TIMING_HS !; sdio_timing TIMING_HS !;
  (e ← ecsd; sdio_clock (dtr_max_hs e);; upd_dflags (fun f => Z.lor f DEV_FLAG_HS);; mret EOK).

Definition _mmc_init_hs200 (bus_width : Z) : M (mst C) errno :=
  switch ECSD_BUS_WIDTH (bus_width / 4) !;
  (sdio_bus_width bus_width;; m ← gets mdev; switch ECSD_HS_TIMING (timing_value m ECSD_HS_TIMING_HS200)) !;
  sdio_timing TIMING_HS200 !;
  (e ← ecsd; sdio_clock (dtr_max_hs e);; sdio_tune MMC_SEND_TUNING_BLOCK).

Definition mmc_init_hs200 (bus_width : Z) : M (mst C) errno :=
  e ← ecsd; k ← hcaps;
  pick_voltage (has (card_type e) ECSD_CARD_TYPE_HS200_1_2V && has k HC_CAP_SV_1_2V)
    (has (card_type e) ECSD_CARD_TYPE_HS200_1_8V && has k HC_CAP_SV_1_8V) !;
  _mmc_init_hs200 bus_width !;
  (upd_dflags (fun f => Z.lor f DEV_FLAG_HS200);; mret EOK).

Definition mmc_init_hs400es (bus_width : Z) : M (mst C) errno :=
  e ← ecsd; k ← hcaps;
  pick_voltage (has (card_type e) ECSD_CARD_TYPE_HS400_1_2V && has k HC_CAP_SV_1_2V)
    (has (card_type e) ECSD_CARD_TYPE_HS400_1_8V && has k HC_CAP_SV_1_8V) !;
  switch ECSD_BUS_WIDTH (bus_width / 4) !;
  (sdio_bus_width bus_width;; switch ECSD_HS_TIMING ECSD_HS_TIMING_HS) !;
  sdio_timing TIMING_HS !;
  (sdio_clock DTR_MAX_HS52;;
   switch ECSD_BUS_WIDTH (Z.lor ECSD_BUS_WIDTH_ES (Z.lor ECSD_BUS_WIDTH_8 ECSD_BUS_WIDTH_DDR))) !;
  (m ← gets mdev; switch ECSD_HS_TIMING (timing_value m ECSD_HS_TIMING_HS400)) !;
  sdio_timing TIMING_HS400ES !;
  (e ← ecsd; sdio_clock (dtr_max_hs e);; upd_dflags (fun f => Z.lor f DEV_FLAG_HS400ES);; mret EOK).

(** The result of the first wait is dropped. *)
Definition mmc_hs200_to_hs400 : M (mst C) errno :=
  switch_ ECSD_HS_TIMING ECSD_HS_TIMING_HS false !;
  sdio_timing TIMING_HS !;
  (sdio_clock DTR_MAX_HS52;; wait_ready;; switch ECSD_BUS_WIDTH (Z.lor ECSD_BUS_WIDTH_8 ECSD_BUS_WIDTH_DDR)) !;
  (m ← gets mdev; switch ECSD_HS_TIMING (timing_value m ECSD_HS_TIMING_HS400)) !;
  sdio_timing TIMING_HS400 !;
  (e ← ecsd; sdio_clock (dtr_max_hs e);; wait_ready) !;
  (upd_dflags (fun f => Z.lor (Z.ldiff f DEV_FLAG_HS200) DEV_FLAG_HS400);; mret EOK).

(** HS400 goes through HS200, and goes on when HS200 failed. *)
Definition mmc_init_hs400 (bus_width : Z) : M (mst C) errno :=
  e ← ecsd; k ← hcaps;
  let t := card_type e in
  pick_voltage (has t ECSD_CARD_TYPE_HS400_1_2V && has t ECSD_CARD_TYPE_HS200_1_2V && has k HC_CAP_SV_1_2V)
    (has t ECSD_CARD_TYPE_HS400_1_8V && has t ECSD_CARD_TYPE_HS200_1_8V && has k HC_CAP_SV_1_8V) !;
  (status ← _mmc_init_hs200 bus_width;
   (if decide (status = EOK) then upd_dflags (fun f => Z.lor f DEV_FLAG_HS200) else mret ());;
   mmc_hs200_to_hs400).

Definition mmc_hs400_to_hs200 : M (mst C) errno :=
  (sdio_clock DTR_MAX_HS52;; switch_ ECSD_HS_TIMING ECSD_HS_TIMING_HS false) !;
  (sdio_timing TIMING_DDR50;; wait_ready) !;
  switch ECSD_BUS_WIDTH ECSD_BUS_WIDTH_8 !; wait_ready !;
  sdio_timing TIMING_HS !;
  (m ← gets mdev; switch ECSD_HS_TIMING (timing_value m ECSD_HS_TIMING_HS200)) !;
  sdio_timing TIMING_HS200 !; wait_ready !;
  (e ← ecsd; sdio_clock (dtr_max_hs e);; upd_dflags (fun f => Z.ldiff (Z.lor f DEV_FLAG_HS200) DEV_FLAG_HS400);; mret EOK).

Definition mmc_retune : M (mst C) errno :=
  f ← flags;
  (if has f DEV_FLAG_HS400 then mmc_hs400_to_hs200 else mret EOK) !;
  sdio_tune MMC_SEND_TUNING_BLOCK !;
  (if has f DEV_FLAG_HS400 then mmc_hs200_to_hs400 else mret EOK).

Definition mmc_init_ddr (bus_width : Z) : M (mst C) errno :=
  e ← ecsd; k ← hcaps;
  (if has (card_type e) ECSD_CARD_TYPE_DDR_1_2V && has k HC_CAP_SV_1_2V then sdio_signal_voltage SIGNAL_VOLTAGE_1_2 else mret EOK) !;
  switch ECSD_BUS_WIDTH (Z.lor (bus_width / 4) ECSD_BUS_WIDTH_DDR) !;
  (sdio_bus_width bus_width;; sdio_timing TIMING_DDR50;; upd_dflags (fun f => Z.lor f DEV_FLAG_DDR);; mret EOK).

Definition HS_flags : Z := Z.lor DEV_FLAG_HS200 (Z.lor DEV_FLAG_HS400 DEV_FLAG_HS400ES).

(** mmc_init_bus: the fastest modes first; their results are dropped. *)
Definition try_hs400es (w : Z) : M (mst C) () :=
  c ← caps; e ← ecsd;
  if has c DEV_CAP_HS400ES && (DTR_MAX_HS52 <? dtr_max_hs e) && (BUS_WIDTH_8 <=? w) then mmc_init_hs400es w;; mret () else mret ().
Definition try_hs400 (w : Z) : M (mst C) () :=
  f ← flags; c ← caps; e ← ecsd;
  if negb (has f DEV_FLAG_HS400ES) && has c DEV_CAP_HS400 && (DTR_MAX_HS52 <? dtr_max_hs e) && (BUS_WIDTH_8 <=? w)
  then mmc_init_hs400 w;; mret () else mret ().
Definition try_hs200 (w : Z) : M (mst C) () :=
  f ← flags; c ← caps; e ← ecsd;
  if negb (has f (Z.lor DEV_FLAG_HS400 DEV_FLAG_HS400ES)) && has c DEV_CAP_HS200 && (DTR_MAX_HS52 <? dtr_max_hs e) && (BUS_WIDTH_4 <=? w)
  then mmc_init_hs200 w;; mret () else mret ().
Definition try_hs : M (mst C) () :=
  f ← flags; c ← caps;
  if negb (has f HS_flags) && has c DEV_CAP_HS then mmc_init_hs;; mret () else mret ().
Definition try_wide (w : Z) : M (mst C) () :=
  f ← flags;
  if has f DEV_FLAG_HS && (BUS_WIDTH_4 <=? w) then
    c ← caps;
    (if has c DEV_CAP_DDR50 then mmc_init_ddr w;; mret () else mret ());;
    f ← flags;
    if has f DEV_FLAG_DDR then mret ()
    else
      e ← switch ECSD_BUS_WIDTH (w / 4);
      if decide (e = EOK) then sdio_bus_width w;; mret () else mret ()
  else mret ().
Definition low_speed : M (mst C) () :=
  f ← flags; m ← gets mdev;
  if has f (Z.lor HS_flags DEV_FLAG_HS) then mret () else sdio_timing TIMING_LS;; sdio_clock (dtr_max (m_csd m));; mret ().
Definition mmc_init_bus : M (mst C) errno :=
  w ← mmc_bus_width false;
  try_hs400es w;; try_hs400 w;; try_hs200 w;; try_hs;; try_wide w;; low_speed;;
  cmd_ (_sdio_set_block_length no_memory SDIO_DFLT_BLKSZ).

(** A mode with too many errors is given up for the next one. *)
Definition forget (cap flag : Z) : M (mst C) () := upd_caps (fun c => Z.ldiff c cap);; upd_dflags (fun f => Z.ldiff f flag).
Definition slow_down : M (mst C) () :=
  f ← flags;
  if has f DEV_FLAG_HS400ES then forget DEV_CAP_HS400ES DEV_FLAG_HS400ES
  else if has f DEV_FLAG_HS400 then forget DEV_CAP_HS400 DEV_FLAG_HS400
  else if has f DEV_FLAG_HS200 then forget DEV_CAP_HS200 DEV_FLAG_HS200;; upd_ecsd (set_dtr_max_hs DTR_MAX_HS52)
  else if has f DEV_FLAG_DDR then forget DEV_CAP_DDR50 DEV_FLAG_DDR
  else if has f DEV_FLAG_HS then
    upd_dflags (fun f => Z.ldiff f DEV_FLAG_HS);;
    upd_ecsd (fun e => if dtr_max_hs e =? DTR_MAX_HS26 then e
                       else set_dtr_max_hs (Z.max DTR_MAX_HS26 (u32 (dtr_max_hs e - DTR_HS_DEC))) e)
  else modify (upd_mdev (fun m => set_m_csd (set_dtr_max (Z.max DTR_MIN_LS (u32 (dtr_max (m_csd m) - DTR_LS_DEC))) (m_csd m)) m)).
Definition mmc_bus_error : M (mst C) errno := slow_down;; mmc_init_bus.

(** ** Errata *)
Record device_errata := Errata { er_pnm : list Z; er_mid : Z; er_oid : Z; prv_s : Z; prv_e : Z; erev : Z; errata : Z; er_rsettle : Z }.
Definition DEV_ERRATA_WILDCARD : Z := 0xffffffff.
Definition MAG2GA : list Z := [0x4d; 0x41; 0x47; 0x32; 0x47; 0x41].
Definition MBG4GA : list Z := [0x4d; 0x42; 0x47; 0x34; 0x47; 0x41].
Definition MCG8GA : list Z := [0x4d; 0x43; 0x47; 0x38; 0x47; 0x41].
Definition SEM08G : list Z := [0x53; 0x45; 0x4d; 0x30; 0x38; 0x47].
Definition mmc_errata : list device_errata :=
  [Errata MAG2GA 0x15 0 0 6 ECSD_REV_V4_41 (Z.lor DEV_ERRATA_ACMD12 DEV_ERRATA_DISCARD_SUP) 0;
   Errata MAG2GA 0x15 0 0 DEV_ERRATA_WILDCARD ECSD_REV_V4_41 DEV_ERRATA_DISCARD_SUP 0;
   Errata MBG4GA 0x15 0 0 6 ECSD_REV_V4_41 (Z.lor DEV_ERRATA_ACMD12 DEV_ERRATA_DISCARD_SUP) 0;
   Errata MBG4GA 0x15 0 0 DEV_ERRATA_WILDCARD ECSD_REV_V4_41 DEV_ERRATA_DISCARD_SUP 0;
   Errata MCG8GA 0x15 0 0 DEV_ERRATA_WILDCARD ECSD_REV_V4_41 DEV_ERRATA_DISCARD_SUP 0;
   Errata SEM08G 0x45 0 0 DEV_ERRATA_WILDCARD DEV_ERRATA_WILDCARD DEV_ERRATA_DISCARD_SUP 0].
Definition fits_or_any (v w : Z) : bool := (v =? w) || (w =? DEV_ERRATA_WILDCARD).
Definition has_errata (c : cid) (rev : Z) (x : device_errata) : bool :=
  bool_decide (take (length (er_pnm x)) (pnm c) = er_pnm x) && fits_or_any (mid c) (er_mid x) && fits_or_any (oid c) (er_oid x) &&
  fits_or_any rev (erev x) && (prv_s x <=? prv c) && (prv c <=? prv_e x).
Definition sdio_device_errata (c : cid) (rev : Z) (l : list device_errata) : option device_errata := List.find (has_errata c rev) l.
Definition sdio_reconcile_errata (x : device_errata) : M (mst C) () :=
  if has (errata x) DEV_ERRATA_ACMD12
  then modify (upd_cmds (upd_ctl (fun k => set_hc_caps (Z.ldiff (hc_caps k) HC_CAP_ACMD12) k))) else mret ().

(** ** mmc_init_device and mmc_ident *)

(** The registers of a new device. *)
Definition new_csd : M (mst C) errno :=
  x ← cmd_ (sdio_send_csd no_memory);
  if decide (fst x <> EOK) then mret (fst x)
  else
    let c := mmc_parse_csd (snd x) in
    modify (upd_mdev (set_m_csd c));; modify (upd_cmds (upd_dev (fun d => set_csd (dcaps d) (SdioReg.blksz c) d)));;
    d ← gets (fun s => dev (cmds s));
    match mmc_parse_cid (spec_vers c) (raw_cid d) with
    | None => mret EINVAL
    | Some i => modify (upd_mdev (set_m_cid i));; mret EOK
    end.
Definition new_ecsd : M (mst C) errno :=
  x ← mmc_send_ext_csd;
  if decide (fst x <> EOK) then mret (fst x) else put_raw (snd x);; mmc_parse_ext_csd.

(** The registers of version 4; [rocr] is the answer to SEND_OP_COND. *)
Definition set_v4 (rocr : Z) (again : bool) : M (mst C) errno :=
  (if again then mret EOK else new_ecsd) !;
  (grp ← raw ECSD_ERASE_GRP_SIZE; mult ← raw ECSD_ERASE_MULT;
   if negb (grp =? 0) && negb (mult =? 0)
   then switch ECSD_ERASE_GRP_DEF ECSD_EGD_EN !; (upd_ecsd (set_grp_def 1);; mret EOK) else mret EOK) !;
  ((if has rocr OCR_HCS then add_caps DEV_CAP_HC else mret ());;
   hpi ← raw ECSD_HPI_FEATURES;
   if has hpi EXT_HPI_FEATURES_SUPPORTED then switch ECSD_HPI_MGMT ECSD_HPI_MGMT_EN else mret EOK).
Definition new_errata : M (mst C) () :=
  m ← gets mdev;
  match sdio_device_errata (m_cid m) (ext_csd_rev (m_ecsd m)) mmc_errata with
  | None => mret ()
  | Some x => sdio_reconcile_errata x;; if has (errata x) DEV_ERRATA_DISCARD_SUP then add_caps DEV_CAP_DISCARD else mret ()
  end.
Definition set_up (rocr : Z) (again : bool) : M (mst C) errno :=
  m ← gets mdev;
  (if CSD_SPEC_VER_4 <=? spec_vers (m_csd m) then set_v4 rocr again else mret EOK) !;
  ((if again then mret () else new_errata);;
   modify (upd_mdev (fun m => set_sizes (u32 (mmc_wp_grp_size m)) (u32 (mmc_erase_grp_size m)) m));;
   mmc_init_bus).

(** [again] is the argument flgs: the device is known. *)
Definition mmc_init_device (ocr : Z) (again : bool) : M (mst C) errno :=
  k ← gets (fun s => hc_flags (ctl (cmds s)));
  (if has k HC_FLAG_SKIP_PWRUP then mret EOK else cmd_ (sdio_go_idle no_memory)) !;
  (x ← cmd_ (mmc_send_op_cond no_memory (Z.lor ocr OCR_HCS));
   let '(status, rocr) := x in
   if decide (status <> EOK) then mret status
   else
     y ← cmd_ (sdio_all_send_cid no_memory);
     let '(status, cid) := y in
     d ← gets (fun s => dev (cmds s));
     if decide (status <> EOK) then mret status
     else if again && negb (bool_decide (raw_cid d = cid)) then mret ENXIO
     else
       modify (upd_cmds (upd_dev (fun d => set_rca 1 (set_cid cid d))));;
       cmd_ (mmc_set_relative_addr no_memory 1) !;
       (sdio_bus_mode BUS_MODE_PUSH_PULL;; if again then mret EOK else new_csd) !;
       cmd_ (sdio_select_card no_memory 1) !;
       (f ← flags; if has f DEV_FLAG_LOCKED then mret EOK else set_up rocr again)).

Definition mmc_ident : M (mst C) errno :=
  k ← gets (fun s => hc_flags (ctl (cmds s))); d ← gets (fun s => dev (cmds s));
  e ← (if has k HC_FLAG_SKIP_PWRUP then mmc_init_device (dev_ocr d) false else mret EINVAL);
  if decide (e = EOK) then mret EOK
  else
    cmd_ (sdio_go_idle no_memory) !;
    (x ← cmd_ (mmc_send_op_cond no_memory 0);
     if decide (fst x <> EOK) then mret (fst x)
     else
       cmd_ (sdio_select_voltage (snd x)) !;
       (d ← gets (fun s => dev (cmds s)); mmc_init_device (dev_ocr d) false)).
End bus.
