(* ===== verification/MmcPlan.v ===== *)
(** * What the steps of MmcBus.v do to the link

    A mode of the link is entered by a list of steps, some of which end the
    attempt when they fail; [follows] says which events such a list gives.
    The functions of MmcBus.v are shown to follow the lists that the standard
    asks for. *)
From S2P Require Import Prelude Driver SdioReg SdioConst SimConst MmcConst Sdhci SdioCmd SdioSend SdioCard MmcBus.
Open Scope Z_scope.

(** ** Laws of the entries *)

(** The flags of the device that name its mode. *)
Definition MODES : Z := Z.lor DEV_FLAG_HS (Z.lor DEV_FLAG_DDR (Z.lor DEV_FLAG_UHS HS_flags)).
Definition modes_of {C} `{sdio_hc_entry C} (k : C) : Z := Z.land (dev_flags k) MODES.
Definition calm {C} `{sdio_hc_entry C} {A} (m : M C A) : Prop := forall k,
  post m k (fun _ k' => hc_caps k' = hc_caps k /\ modes_of k' = modes_of k).

Class bus_laws (C : Type) `{hc_entry_laws C} `{bus_entry C} := {
  flags_set v k : dev_flags (set_dev_flags v k) = v;
  flags_caps v k : dev_flags (set_hc_caps v k) = dev_flags k;
  flags_hc v k : dev_flags (set_hc_flags v k) = dev_flags k;
  cmd_modes c t k e c' k' : entry_cmd c t k = Some ((e, c'), k') -> modes_of k' = modes_of k;
  timing_calm t : calm (entry_timing t);
  width_calm w : calm (entry_bus_width w);
  tune_calm : calm (entry_tune MMC_SEND_TUNING_BLOCK);
  clk_calm v : calm (entry_clk v);
  voltage_calm v : calm (entry_signal_voltage v)
}.

(** A controller that takes every timing, width and clock, as the sdhci driver
    does.  Most callers drop these results. *)
Class obedient (C : Type) `{sdio_hc_entry C} `{bus_entry C} : Prop := {
  timing_taken t k e k' : entry_timing t k = Some (e, k') -> e = EOK;
  width_taken w k e k' : entry_bus_width w k = Some (e, k') -> e = EOK;
  clk_taken c k e k' : entry_clk c k = Some (e, k') -> e = EOK
}.

(** ** Steps *)
Definition step : Type := bool * (errno -> bus_event).
Inductive follows : list step -> list bus_event -> errno -> Prop :=
| follows_end : follows [] [] EOK
| follows_fail ev p e : e <> EOK -> follows ((true, ev) :: p) [ev e] e
| follows_go b ev p e l e' : (b = true -> e = EOK) -> follows p l e' -> follows ((b, ev) :: p) (ev e :: l) e'.

Section plan.
Context {C : Type} `{bus_laws C} (no_memory : list issued -> bool).

Definition modes (s : mst C) : Z := modes_of (ctl (cmds s)).
Definition k_caps (s : mst C) : Z := hc_caps (ctl (cmds s)).

(** ** The commands keep the mode *)
Definition tame {A} (m : M (cst C) A) : Prop := forall s a s', m s = Some (a, s') -> modes_of (ctl s') = modes_of (ctl s).
Lemma tame_ret {A} (a : A) : tame (mret a).
Proof. by intros s b s' [= _ <-]. Qed.
Lemma tame_gets {A} (f : cst C -> A) : tame (gets f).
Proof. by intros s b s' [= _ <-]. Qed.
Lemma tame_crash {A} : tame (crash (A:=A)).
Proof. done. Qed.
Lemma tame_bind {A B} (m : M (cst C) A) (f : A -> M (cst C) B) : tame m -> (forall a, tame (f a)) -> tame (x ← m; f x).
Proof.
  intros Hm Hf s b s' E. unfold mbind, M_bind in E. destruct (m s) as [[a s1]|] eqn:Em; [|done].
  by rewrite (Hf _ _ _ _ E), (Hm _ _ _ Em).
Qed.
Lemma tame_modify f : (forall s, modes_of (ctl (f s)) = modes_of (ctl s)) -> tame (modify f).
Proof. by intros Hf s b s' [= _ <-]. Qed.
Lemma tame_alloc : tame (sdio_alloc_cmd no_memory).
Proof. by intros s b s' [= _ <-]. Qed.
Lemma tame_issue c t : tame (sdio_issue c t).
Proof.
  intros s [e c'] s'. unfold sdio_issue. destruct (entry_cmd c t (ctl s)) as [[[e1 c1] k]|] eqn:E; [|done].
  intros [= _ _ <-]. by eapply cmd_modes.
Qed.
Lemma tame_tuning : tame ask_tuning.
Proof. apply tame_modify. intros s. simpl. destruct (_ && _); [|done]. unfold modes_of. by rewrite flags_hc. Qed.
Lemma tame_caps v : tame (modify (upd_ctl (set_hc_caps v))).
Proof. apply tame_modify. intros s. simpl. unfold modes_of. by rewrite flags_caps. Qed.
Lemma tame_more_caps f : tame (modify (upd_ctl (fun k => set_hc_caps (f k) k))).
Proof. apply tame_modify. intros s. simpl. unfold modes_of. by rewrite flags_caps. Qed.
Lemma tame_dev f : tame (modify (upd_dev f)).
Proof. by apply tame_modify. Qed.
Create HintDb tame.
#[local] Hint Resolve tame_ret tame_gets tame_crash tame_alloc tame_issue tame_tuning tame_caps tame_more_caps tame_dev : tame.
Ltac tame := repeat (first
  [ solve [auto 2 with tame] | apply tame_bind; [|intros ?]
  | match goal with
    | |- tame (if ?b then _ else _) => destruct b
    | |- tame (match ?x with _ => _ end) => destruct x
    end ]; cbv zeta).

Section sender.
Context (send : sdio_cmd_t -> Z -> nat -> M (cst C) (errno * sdio_cmd_t)) (Hs : forall c t n, tame (send c t n)).
#[local] Hint Resolve Hs : tame.
Lemma tame_wait_loop n mask val r : tame (wait_loop no_memory send n mask val r).
Proof. revert r. induction n; intros; cbn [wait_loop]; unfold _sdio_send_status; tame. Qed.
#[local] Hint Resolve tame_wait_loop : tame.
Lemma tame_wait mask val t : tame (_sdio_wait_card_status no_memory send mask val t).
Proof. unfold _sdio_wait_card_status, _sdio_wait_card_rsp. tame. Qed.
#[local] Hint Resolve tame_wait : tame.
Lemma tame_round c t : tame (send_round no_memory send c t).
Proof. unfold send_round, send_prelude, send_own, sd_app_cmd, _sdio_set_block_count, with_cmd. tame. Qed.
#[local] Hint Resolve tame_round : tame.
Lemma tame_loop n c t : tame (send_loop no_memory send n c t).
Proof. revert c. induction n; intros; cbn [send_loop]; tame. Qed.
End sender.
#[local] Hint Resolve tame_loop tame_wait : tame.
Lemma tame_level n c t r : tame (_sdio_send_cmd no_memory n c t r).
Proof. revert c t r. induction n; intros; cbn [_sdio_send_cmd]; tame. Qed.
Lemma tame_send c t r : tame (send_cmd no_memory c t r).
Proof. apply tame_level. Qed.
#[local] Hint Resolve tame_send : tame.
Lemma tame_switch cmdset mode i v t w : tame (_mmc_switch no_memory cmdset mode i v t w).
Proof. unfold _mmc_switch, with_cmd. tame. Qed.
Lemma tame_block_length n : tame (_sdio_set_block_length no_memory n).
Proof. unfold _sdio_set_block_length, simple_cmd, with_cmd. tame. Qed.

(** ** What a step does *)
Definition switch_arg (i v : Z) : Z :=
  Z.lor (Z.lor (Z.shiftl MMC_SWITCH_MODE_WRITE 24) (Z.shiftl i 16)) (Z.lor (Z.shiftl v 8) MMC_SWITCH_CMDSET_DFLT).

(** An obedient controller refuses a clock only below its slowest one. *)
Definition heeded (ev : bus_event) : Prop :=
  match ev with
  | Timed _ e | Widened _ e => obedient C -> e = EOK
  | Clocked _ e => obedient C -> e = EOK \/ e = EINVAL
  | _ => True
  end.

(** The list does not claim a switch that the device did not complete. *)
Definition backed (tr : list issued) (ev : bus_event) : Prop :=
  match ev with
  | Switched i v EOK => exists x, x ∈ tr /\ completed x /\ is_cmd MMC_SWITCH (switch_arg i v) x
  | Timed _ _ | Widened _ _ | Clocked _ _ => heeded ev
  | _ => True
  end.
Definition eff (s s' : mst C) (l : list bus_event) : Prop :=
  dev (cmds s') = dev (cmds s) /\ mdev s' = mdev s /\ k_caps s' = k_caps s /\ done s' = done s ++ l /\
  exists tr, sent (cmds s') = sent (cmds s) ++ tr /\ Forall (backed tr) l.
Definition prim (m : M (mst C) errno) (ev : errno -> bus_event) : Prop := forall s,
  post m s (fun e s' => eff s s' [ev e] /\ modes s' = modes s).

Lemma backed_more tr tr' ev : (forall x, x ∈ tr -> x ∈ tr') -> backed tr ev -> backed tr' ev.
Proof. destruct ev as [i v []| | | | | | | | | |]; try done. intros Hx (x & Hi & Hc). exists x. auto. Qed.
Lemma eff_refl s : eff s s [].
Proof. repeat (split; [done|]). split; [by rewrite app_nil_r|]. exists []. by rewrite app_nil_r. Qed.
Lemma eff_trans s1 s2 s3 l l' : eff s1 s2 l -> eff s2 s3 l' -> eff s1 s3 (l ++ l').
Proof.
  intros (A1 & A2 & A3 & A4 & tr & A5 & A6) (B1 & B2 & B3 & B4 & tr' & B5 & B6).
  split; [congruence|]. split; [congruence|]. split; [congruence|]. split; [by rewrite B4, A4, app_assoc|].
  exists (tr ++ tr'). split; [by rewrite B5, A5, app_assoc|]. apply Forall_app. split.
  - eapply Forall_impl; [exact A6|]. intros ev. apply backed_more. intros x Hx. apply elem_of_app. by left.
  - eapply Forall_impl; [exact B6|]. intros ev. apply backed_more. intros x Hx. apply elem_of_app. by right.
Qed.

(** A step from what it does before it is noted. *)
Lemma prim_note ev (m : M (cst C) errno) : (forall s, post m s (fun e s' => dev s' = dev s /\ hc_caps (ctl s') = hc_caps (ctl s) /\
    modes_of (ctl s') = modes_of (ctl s) /\ exists tr, sent s' = sent s ++ tr /\ backed tr (ev e))) ->
  prim (note ev (cmd_ m)) ev.
Proof.
  intros Hm s. destruct (Hm (cmds s)) as (e & c & E & E1 & E2 & E3 & tr & E4 & E5).
  exists e, (Mst c (mdev s) (done s ++ [ev e])). split.
  - unfold note, cmd_, mbind, M_bind, modify. by rewrite E.
  - split; [|exact E3]. do 4 (split; [done|]). exists tr. split; [done|]. by constructor.
Qed.
Lemma prim_call ev (m : M C errno) : calm m -> (forall k e k', m k = Some (e, k') -> backed [] (ev e)) -> prim (note ev (cmd_ (hc_call m))) ev.
Proof.
  intros Hm Hb. apply prim_note. intros s. destruct (Hm (ctl s)) as (e & k & E & E1 & E2).
  exists e, (Cst k (dev s) (sent s)). split; [unfold hc_call; by rewrite E|]. do 3 (split; [done|]). exists []. rewrite app_nil_r.
  split; [done|]. by eapply Hb.
Qed.
Lemma prim_timing t : prim (sdio_timing t) (Timed t).
Proof. apply prim_call; [apply timing_calm|]. intros k e k' E Ho. by eapply timing_taken. Qed.
Lemma prim_width w : prim (sdio_bus_width w) (Widened w).
Proof. apply prim_call; [apply width_calm|]. intros k e k' E Ho. by eapply width_taken. Qed.
Lemma prim_tune : prim (sdio_tune MMC_SEND_TUNING_BLOCK) (Tuned MMC_SEND_TUNING_BLOCK).
Proof. by apply prim_call; [apply tune_calm|]. Qed.
Lemma prim_voltage v : prim (sdio_signal_voltage v) (Powered v).
Proof. by apply prim_call; [apply voltage_calm|]. Qed.
Lemma prim_clock v : prim (sdio_clock v) (Clocked v).
Proof.
  apply prim_note. intros s. unfold SdioCmd.sdio_clock. apply post_bind, post_gets. destruct (v <? _).
  { apply post_ret. do 3 (split; [done|]). exists []. rewrite app_nil_r. split; [done|]. by right. }
  match goal with |- context [entry_clk ?x] => destruct (clk_calm x (ctl s)) as (e & k & E & E1 & E2) end.
  exists e, (Cst k (dev s) (sent s)). split; [unfold hc_call; by rewrite E|]. do 3 (split; [done|]). exists []. rewrite app_nil_r.
  split; [done|]. intros Ho. left. by eapply clk_taken.
Qed.
Lemma post_and {S A} (m : M S A) s P Q : post m s P -> (forall a s', m s = Some (a, s') -> Q a s') -> post m s (fun a s' => P a s' /\ Q a s').
Proof. intros (a & s' & E & HP) HQ. exists a, s'. auto. Qed.

Lemma wait_post mask val t s : post (_sdio_wait_card_status no_memory (send_cmd no_memory) mask val t) s (fun e s' =>
  dev s' = dev s /\ hc_caps (ctl s') = hc_caps (ctl s) /\ exists tr, sent s' = sent s ++ tr).
Proof.
  apply post_bind. eapply post_mono; [apply (wait_loop_ok no_memory 1)|]. intros o s' ([HD HK] & tr & E & _).
  apply post_ret. do 2 (split; [done|]). by exists tr.
Qed.
Lemma prim_wait : prim (wait_ready no_memory) Waited.
Proof.
  apply prim_note. intros s. eapply post_mono; [apply post_and; [apply wait_post|exact (fun a s' => tame_wait _ tame_send _ _ _ s a s')]|].
  intros e s' [(HD & HK & tr & E) HM]. do 3 (split; [done|]). by exists tr.
Qed.
Lemma prim_switch i v w : prim (switch_ no_memory i v w) (Switched i v).
Proof.
  apply prim_note. intros s.
  eapply post_mono; [apply (post_and _ _ (fun e s' => dev s' = dev s /\ hc_caps (ctl s') = hc_caps (ctl s) /\
    exists tr, sent s' = sent s ++ tr /\ backed tr (Switched i v e))); [|exact (fun a s' => tame_switch _ _ _ _ _ _ s a s')]|].
  - apply with_cmd_ok; [do 2 (split; [done|]); exists []; by rewrite app_nil_r|]. cbv zeta.
    apply post_bind. eapply post_mono; [by apply send_plain|]. intros [e c] s1 ([HD HK] & _ & xs & x & E & _ & _ & HI & He & _).
    cbn [fst snd] in *. destruct (bool_decide_reflect (e = EOK)) as [->|Hn]; cbn [andb].
    + assert (backed (xs ++ [x]) (Switched i v EOK)) as Hb.
      { exists x. split; [set_solver|]. split; [by apply result_eok|]. apply Forall_app in HI as [_ HI]. rewrite Forall_singleton in HI. exact HI. }
      destruct w; [|apply post_ret; do 2 (split; [done|]); by exists (xs ++ [x])].
      eapply post_mono; [apply wait_post|]. intros e s2 (HD2 & HK2 & tr & E2). split; [congruence|]. split; [congruence|].
      exists ((xs ++ [x]) ++ tr). split; [by rewrite E2, E, <- !app_assoc|]. destruct e; try done.
      eapply backed_more; [|exact Hb]. set_solver.
    + apply post_ret. do 2 (split; [done|]). exists (xs ++ [x]). split; [done|]. by destruct e.
  - intros e s' [(HD & HK & tr & E) HM]. do 3 (split; [done|]). by exists tr.
Qed.

(** ** Following a list of steps *)

(** [F] is what success does to the mode. *)
Definition runs_plan (F : Z -> Z) (m : M (mst C) errno) (s : mst C) (p : list step) : Prop :=
  post m s (fun e s' => exists l, eff s s' l /\ follows p l e /\ modes s' = if decide (e = EOK) then F (modes s) else modes s).

Lemma plan_check F m k ev s p : prim m ev ->
  (forall s1, mdev s1 = mdev s -> k_caps s1 = k_caps s -> runs_plan F k s1 p) -> runs_plan F (m !; k) s ((true, ev) :: p).
Proof.
  intros Hm Hk. apply post_bind. eapply post_mono; [apply Hm|]. intros e s1 [He Hmo].
  destruct (decide (e <> EOK)) as [Hn|Hn].
  { apply post_ret. exists [ev e]. split; [done|]. split; [by constructor|]. by rewrite decide_False. }
  apply dec_stable in Hn as ->. pose proof He as (_ & Em & Ek & _). eapply post_mono; [by apply Hk|].
  intros e s2 (l & Hl & Hf & Hm2). exists (ev EOK :: l). split; [by apply (eff_trans s s1 s2 [ev EOK])|].
  split; [by constructor|]. by rewrite Hm2, Hmo.
Qed.
Lemma plan_any F m k ev s p : prim m ev ->
  (forall s1, mdev s1 = mdev s -> k_caps s1 = k_caps s -> runs_plan F k s1 p) -> runs_plan F (m;; k) s ((false, ev) :: p).
Proof.
  intros Hm Hk. apply post_bind. eapply post_mono; [apply Hm|]. intros e s1 [He Hmo].
  pose proof He as (_ & Em & Ek & _). eapply post_mono; [by apply Hk|].
  intros e2 s2 (l & Hl & Hf & Hm2). exists (ev e :: l). split; [by apply (eff_trans s s1 s2 [ev e])|].
  split; [by constructor|]. by rewrite Hm2, Hmo.
Qed.
Lemma plan_last m ev s : prim m ev -> runs_plan id m s [(true, ev)].
Proof.
  intros Hm. eapply post_mono; [apply Hm|]. intros e s1 [He Hmo]. exists [ev e]. split; [done|].
  split; [|by destruct (decide (e = EOK))]. destruct (decide (e = EOK)) as [->|]; repeat constructor; done.
Qed.
Lemma plan_assoc {A} F (a : M (mst C) A) b k s p : runs_plan F (a;; (b !; k)) s p -> runs_plan F ((a;; b) !; k) s p.
Proof.
  intros (e & s' & E & HP). exists e, s'. split; [|done]. rewrite <- E. unfold ok_then, mbind, M_bind.
  by destruct (a s) as [[? ?]|].
Qed.
Lemma plan_gets {A} F (f : mst C -> A) k s p : runs_plan F (k (f s)) s p -> runs_plan F (x ← gets f; k x) s p.
Proof. done. Qed.
Lemma plan_gets_check {A} F (f : mst C -> A) b k s p : runs_plan F (b (f s) !; k) s p -> runs_plan F ((x ← gets f; b x) !; k) s p.
Proof. done. Qed.
Lemma plan_flags f F s : (forall x, Z.land (f x) MODES = F (Z.land x MODES)) -> runs_plan F (upd_dflags f;; mret EOK) s [].
Proof.
  intros Hf. apply post_bind. eexists (), _. split; [reflexivity|]. apply post_ret. exists [].
  split; [|split; [constructor|]].
  - split; [done|]. split; [done|]. split; [apply caps_dev_flags|]. split; [by rewrite app_nil_r|]. exists []. by rewrite app_nil_r.
  - simpl. unfold modes, modes_of. simpl. by rewrite flags_set.
Qed.

(** ** The modes of the standard, as steps *)
Definition must (ev : errno -> bus_event) : step := (true, ev).
Definition may (ev : errno -> bus_event) : step := (false, ev).
Definition dtr (m : mmc) : Z := dtr_max_hs (m_ecsd m).

Definition hs_steps (m : mmc) : list step :=
  [must (Switched ECSD_HS_TIMING ECSD_HS_TIMING_HS); must (Timed TIMING_HS); may (Clocked (dtr m))].
Definition hs200_steps (m : mmc) (w : Z) : list step :=
  [must (Switched ECSD_BUS_WIDTH (w / 4)); may (Widened w);
   must (Switched ECSD_HS_TIMING (timing_value m ECSD_HS_TIMING_HS200)); must (Timed TIMING_HS200); may (Clocked (dtr m));
   must (Tuned MMC_SEND_TUNING_BLOCK)].
Definition hs400es_steps (m : mmc) (w : Z) : list step :=
  [must (Switched ECSD_BUS_WIDTH (w / 4)); may (Widened w);
   must (Switched ECSD_HS_TIMING ECSD_HS_TIMING_HS); must (Timed TIMING_HS); may (Clocked DTR_MAX_HS52);
   must (Switched ECSD_BUS_WIDTH 0x86);
   must (Switched ECSD_HS_TIMING (timing_value m ECSD_HS_TIMING_HS400)); must (Timed TIMING_HS400ES); may (Clocked (dtr m))].
Definition up_steps (m : mmc) : list step :=
  [must (Switched ECSD_HS_TIMING ECSD_HS_TIMING_HS); must (Timed TIMING_HS); may (Clocked DTR_MAX_HS52); may Waited;
   must (Switched ECSD_BUS_WIDTH 6);
   must (Switched ECSD_HS_TIMING (timing_value m ECSD_HS_TIMING_HS400)); must (Timed TIMING_HS400); may (Clocked (dtr m)); must Waited].
Definition down_steps (m : mmc) : list step :=
  [may (Clocked DTR_MAX_HS52); must (Switched ECSD_HS_TIMING ECSD_HS_TIMING_HS); may (Timed TIMING_DDR50); must Waited;
   must (Switched ECSD_BUS_WIDTH ECSD_BUS_WIDTH_8); must Waited; must (Timed TIMING_HS);
   must (Switched ECSD_HS_TIMING (timing_value m ECSD_HS_TIMING_HS200)); must (Timed TIMING_HS200); must Waited; may (Clocked (dtr m))].
Definition ddr_steps (w : Z) : list step :=
  [must (Switched ECSD_BUS_WIDTH (Z.lor (w / 4) ECSD_BUS_WIDTH_DDR)); may (Widened w); may (Timed TIMING_DDR50)].

Ltac plan_step :=
  match goal with
  | |- runs_plan _ (_ ← ecsd; _) _ _ => apply plan_gets
  | |- runs_plan _ (_ ← gets _; _) _ _ => apply plan_gets
  | |- runs_plan _ ((_ ← gets _; _) !; _) _ _ => apply plan_gets_check
  | |- runs_plan _ ((_ ← ecsd; _) !; _) _ _ => apply plan_gets_check
  | |- runs_plan _ ((_;; _) !; _) _ _ => apply plan_assoc
  | |- runs_plan _ (_ !; _) _ _ => apply plan_check; [first [apply prim_switch|apply prim_timing|apply prim_wait]|intros ? ? ?]
  | |- runs_plan _ (sdio_bus_width _;; _) _ _ => apply plan_any; [apply prim_width|intros ? ? ?]
  | |- runs_plan _ (sdio_clock _;; _) _ _ => apply plan_any; [apply prim_clock|intros ? ? ?]
  | |- runs_plan _ (sdio_timing _;; _) _ _ => apply plan_any; [apply prim_timing|intros ? ? ?]
  | |- runs_plan _ (wait_ready _;; _) _ _ => apply plan_any; [apply prim_wait|intros ? ? ?]
  end.
Ltac same_dev := cbv beta; repeat match goal with E : mdev ?s1 = mdev _ |- context [mdev ?s1] => rewrite E end.
Ltac plan := repeat (plan_step; same_dev).
Lemma land_modes_lor f c : Z.land (Z.lor f c) MODES = Z.lor (Z.land f MODES) (Z.land c MODES).
Proof. apply Z.land_lor_distr_l. Qed.
Lemma land_modes_ldiff f c : Z.land (Z.ldiff f c) MODES = Z.ldiff (Z.land f MODES) c.
Proof. apply Z.bits_inj'. intros i Hi. rewrite !Z.land_spec, !Z.ldiff_spec, Z.land_spec. by destruct (Z.testbit f i), (Z.testbit c i), (Z.testbit MODES i). Qed.
Ltac mode_flags := apply plan_flags; intros; rewrite ?land_modes_ldiff, ?land_modes_lor, ?land_modes_ldiff; reflexivity.

Lemma runs_hs s : runs_plan (fun x => Z.lor x DEV_FLAG_HS)
  (switch no_memory ECSD_HS_TIMING ECSD_HS_TIMING_HS !; sdio_timing TIMING_HS !;
   (e ← ecsd; sdio_clock (dtr_max_hs e);; upd_dflags (fun f => Z.lor f DEV_FLAG_HS);; mret EOK)) s (hs_steps (mdev s)).
Proof. unfold hs_steps, switch. plan. mode_flags. Qed.
Lemma runs_hs200 s w : runs_plan id (_mmc_init_hs200 no_memory w) s (hs200_steps (mdev s) w).
Proof. unfold hs200_steps, _mmc_init_hs200, switch. plan. apply plan_last, prim_tune. Qed.
Lemma runs_up s : runs_plan (fun x => Z.lor (Z.ldiff x DEV_FLAG_HS200) DEV_FLAG_HS400) (mmc_hs200_to_hs400 no_memory) s (up_steps (mdev s)).
Proof. unfold up_steps, mmc_hs200_to_hs400, switch. plan. mode_flags. Qed.
Lemma runs_down s : runs_plan (fun x => Z.ldiff (Z.lor x DEV_FLAG_HS200) DEV_FLAG_HS400) (mmc_hs400_to_hs200 no_memory) s (down_steps (mdev s)).
Proof. unfold down_steps, mmc_hs400_to_hs200, switch. plan. mode_flags. Qed.

(** ** The voltage first *)
Definition allowed (sv12 sv18 : bool) (v : Z) : Prop := v = SIGNAL_VOLTAGE_1_2 /\ sv12 = true \/ v = SIGNAL_VOLTAGE_1_8 /\ sv18 = true.
Definition is_power (ev : bus_event) : Prop := exists v e, ev = Powered v e.
Definition powered (sv12 sv18 : bool) (l : list bus_event) : Prop := exists v, Powered v EOK ∈ l /\ allowed sv12 sv18 v.

Lemma post_prim m ev s (Q : errno -> mst C -> Prop) : prim m ev ->
  (forall e s', eff s s' [ev e] -> modes s' = modes s -> Q e s') -> post m s Q.
Proof. intros Hm HQ. eapply post_mono; [apply Hm|]. intros e s' [He Hmo]. by apply HQ. Qed.

Lemma pick_ok a b s : post (pick_voltage a b) s (fun e s' => exists l, eff s s' l /\ modes s' = modes s /\ Forall is_power l /\
  (e = EOK -> powered a b l)).
Proof.
  unfold pick_voltage. apply post_bind.
  apply (post_mono _ _ (fun e s1 => exists l, eff s s1 l /\ modes s1 = modes s /\ Forall is_power l /\ (e = EOK -> powered a b l))).
  { destruct a.
    - eapply post_prim; [apply prim_voltage|]. intros e s1 He Hm. exists [Powered SIGNAL_VOLTAGE_1_2 e]. split; [done|]. split; [done|].
      split; [constructor; [by do 2 eexists|constructor]|]. intros ->. exists SIGNAL_VOLTAGE_1_2. split; [set_solver|by left].
    - apply post_ret. exists []. split; [apply eff_refl|]. split; [done|]. by split; [constructor|]. }
  intros e s1 (l & He & Hm & Hl & Hp). destruct (bool_decide_reflect (e = EOK)) as [->|Hn]; cbn [negb andb].
  { apply post_ret. by exists l. }
  destruct b; [|apply post_ret; exists l; do 3 (split; [done|]); by intros ->].
  eapply post_prim; [apply prim_voltage|]. intros e2 s2 He2 Hm2. exists (l ++ [Powered SIGNAL_VOLTAGE_1_8 e2]).
  split; [by eapply eff_trans|]. split; [congruence|]. split; [apply Forall_app; split; [done|]; constructor; [by do 2 eexists|constructor]|].
  intros ->. exists SIGNAL_VOLTAGE_1_8. split; [set_solver|by right].
Qed.

(** A mode after the voltage: [l] are its own events. *)
Definition mode_run (F : Z -> Z) (m : M (mst C) errno) (s : mst C) (a b : bool) (p : list step) : Prop :=
  post m s (fun e s' => exists lv l, eff s s' (lv ++ l) /\ Forall is_power lv /\
    (e <> EOK /\ l = [] /\ modes s' = modes s \/
     powered a b lv /\ follows p l e /\ modes s' = if decide (e = EOK) then F (modes s) else modes s)).
Lemma mode_pick F k s a b p : (forall s1, mdev s1 = mdev s -> k_caps s1 = k_caps s -> runs_plan F k s1 p) ->
  mode_run F (pick_voltage a b !; k) s a b p.
Proof.
  intros Hk. apply post_bind. eapply post_mono; [apply pick_ok|]. intros e s1 (lv & He & Hm & Hl & Hp).
  destruct (decide (e <> EOK)) as [Hn|Hn].
  { apply post_ret. exists lv, []. rewrite app_nil_r. split; [done|]. split; [done|]. by left. }
  apply dec_stable in Hn as ->. pose proof He as (_ & Em & Ek & _). eapply post_mono; [by apply Hk|].
  intros e s2 (l & Hl2 & Hf & Hm2). exists lv, l. split; [by eapply eff_trans|]. split; [done|]. right.
  split; [by apply Hp|]. split; [done|]. by rewrite Hm2, Hm.
Qed.
Lemma plan_after F m k s p : runs_plan id m s p -> (forall s1, runs_plan F k s1 []) -> runs_plan F (m !; k) s p.
Proof.
  intros Hm Hk. apply post_bind. eapply post_mono; [apply Hm|]. intros e s1 (l & He & Hf & Hmo).
  destruct (decide (e <> EOK)) as [Hn|Hn].
  { apply post_ret. exists l. split; [done|]. split; [done|]. by rewrite Hmo, !decide_False. }
  apply dec_stable in Hn as ->. rewrite decide_True in Hmo by done. eapply post_mono; [apply Hk|].
  intros e s2 (l2 & He2 & Hf2 & Hm2). inversion Hf2; subst. exists l. rewrite <- (app_nil_r l) at 1.
  split; [by eapply eff_trans|]. split; [done|]. rewrite Hm2, !decide_True by done. by rewrite Hmo.
Qed.

Lemma run_hs200 w s : let k := k_caps s in let t := card_type (m_ecsd (mdev s)) in
  mode_run (fun x => Z.lor x DEV_FLAG_HS200) (mmc_init_hs200 no_memory w) s
    (has t ECSD_CARD_TYPE_HS200_1_2V && has k HC_CAP_SV_1_2V) (has t ECSD_CARD_TYPE_HS200_1_8V && has k HC_CAP_SV_1_8V)
    (hs200_steps (mdev s) w).
Proof.
  apply mode_pick. intros s1 Em _. apply plan_after; [rewrite <- Em; apply runs_hs200|]. intros s2. mode_flags.
Qed.
Lemma run_hs400es w s : let k := k_caps s in let t := card_type (m_ecsd (mdev s)) in
  mode_run (fun x => Z.lor x DEV_FLAG_HS400ES) (mmc_init_hs400es no_memory w) s
    (has t ECSD_CARD_TYPE_HS400_1_2V && has k HC_CAP_SV_1_2V) (has t ECSD_CARD_TYPE_HS400_1_8V && has k HC_CAP_SV_1_8V)
    (hs400es_steps (mdev s) w).
Proof. apply mode_pick. intros s1 Em _. unfold hs400es_steps, switch. plan. mode_flags. Qed.

(** HS400: the steps of HS200 up to where they fail, and then on. *)
Definition run_400 (w : Z) (s : mst C) (a b : bool) (m : M (mst C) errno) : Prop :=
  post m s (fun e s' => exists lv l1 l2 e1, eff s s' (lv ++ l1 ++ l2) /\ Forall is_power lv /\
    (e <> EOK /\ l1 = [] /\ l2 = [] /\ modes s' = modes s \/
     powered a b lv /\ follows (hs200_steps (mdev s) w) l1 e1 /\ follows (up_steps (mdev s)) l2 e /\
     modes s' = let x := if decide (e1 = EOK) then Z.lor (modes s) DEV_FLAG_HS200 else modes s in
                if decide (e = EOK) then Z.lor (Z.ldiff x DEV_FLAG_HS200) DEV_FLAG_HS400 else x)).
Lemma run_hs400 w s : let k := k_caps s in let t := card_type (m_ecsd (mdev s)) in
  run_400 w s (has t ECSD_CARD_TYPE_HS400_1_2V && has t ECSD_CARD_TYPE_HS200_1_2V && has k HC_CAP_SV_1_2V)
    (has t ECSD_CARD_TYPE_HS400_1_8V && has t ECSD_CARD_TYPE_HS200_1_8V && has k HC_CAP_SV_1_8V) (mmc_init_hs400 no_memory w).
Proof.
  apply post_bind, post_gets, post_bind, post_gets, post_bind. eapply post_mono; [apply pick_ok|]. intros e s1 (lv & He & Hm & Hl & Hp).
  destruct (decide (e <> EOK)) as [Hn|Hn].
  { apply post_ret. exists lv, [], [], e. rewrite app_nil_r. split; [done|]. split; [done|]. by left. }
  apply dec_stable in Hn as ->. pose proof He as (_ & Em & _). apply post_bind. eapply post_mono; [apply runs_hs200|].
  intros e1 s2 (l1 & He1 & Hf1 & Hm1). rewrite Em in Hf1. apply post_bind.
  apply (post_mono _ _ (fun _ s3 => eff s1 s3 l1 /\ modes s3 = if decide (e1 = EOK) then Z.lor (modes s) DEV_FLAG_HS200 else modes s)).
  { destruct (decide (e1 = EOK)) as [->|Hn]; [|apply post_ret; by rewrite Hm1].
    assert (runs_plan (fun x => Z.lor x DEV_FLAG_HS200) (upd_dflags (fun f => Z.lor f DEV_FLAG_HS200);; mret EOK) s2 []) as Hr by mode_flags.
    destruct Hr as (e & s3 & E & l & He3 & Hf3 & Hm3). inversion Hf3; subst. rewrite decide_True in Hm3 by done.
    exists (), s3. split; [revert E; unfold mbind, M_bind; by destruct (upd_dflags _ s2) as [[[] ?]|]; intros [= ->]|].
    split; [rewrite <- (app_nil_r l1); by eapply eff_trans|]. rewrite Hm3, Hm1. unfold id. by destruct (decide (EOK = EOK)); rewrite Hm. }
  intros _ s3 [He3 Hm3]. pose proof He3 as (_ & Em3 & _). eapply post_mono; [apply runs_up|].
  intros e s4 (l2 & He4 & Hf4 & Hm4). rewrite Em3, Em in Hf4. exists lv, l1, l2, e1.
  split; [eapply eff_trans; [done|]; by eapply eff_trans|]. split; [done|]. right. split; [by apply Hp|]. do 2 (split; [done|]).
  by rewrite Hm4, Hm3.
Qed.

Lemma run_ddr w s : post (mmc_init_ddr no_memory w) s (fun e s' => exists lv l, eff s s' (lv ++ l) /\ Forall is_power lv /\
  (e <> EOK /\ l = [] /\ modes s' = modes s \/
   follows (ddr_steps w) l e /\ modes s' = if decide (e = EOK) then Z.lor (modes s) DEV_FLAG_DDR else modes s)).
Proof.
  apply post_bind, post_gets, post_bind, post_gets, post_bind.
  apply (post_mono _ _ (fun e s1 => exists lv, eff s s1 lv /\ modes s1 = modes s /\ Forall is_power lv)).
  { destruct (_ && _).
    - eapply post_prim; [apply prim_voltage|]. intros e s1 He Hm. eexists. split; [done|]. split; [done|].
      by constructor; [do 2 eexists|constructor].
    - apply post_ret. exists []. split; [apply eff_refl|done]. }
  intros e s1 (lv & He & Hm & Hl). destruct (decide (e <> EOK)) as [Hn|Hn].
  { apply post_ret. exists lv, []. rewrite app_nil_r. split; [done|]. split; [done|]. by left. }
  assert (runs_plan (fun x => Z.lor x DEV_FLAG_DDR) (switch no_memory ECSD_BUS_WIDTH (Z.lor (w / 4) ECSD_BUS_WIDTH_DDR) !;
    (sdio_bus_width w;; sdio_timing TIMING_DDR50;; upd_dflags (fun f => Z.lor f DEV_FLAG_DDR);; mret EOK)) s1 (ddr_steps w)) as Hr.
  { unfold ddr_steps, switch. plan. mode_flags. }
  eapply post_mono; [exact Hr|]. intros e2 s2 (l & He2 & Hf & Hm2). exists lv, l. split; [by eapply eff_trans|]. split; [done|].
  right. split; [done|]. by rewrite Hm2, Hm.
Qed.
End plan.
