(* ===== verification/MmcLink.v ===== *)
(** * The link of an eMMC: the modes that the two sides are in

    The state of both sides of the link after a list of events, what it has
    to be in each mode, and what each part of mmc_init_bus makes of it. *)
From S2P Require Import Prelude Driver SdioReg SdioConst SimConst MmcConst Sdhci SdioCmd SdioSend SdioCard MmcBus MmcPlan.
Open Scope Z_scope.

(** HS_TIMING and BUS_WIDTH of the device and the timing, the width and the
    clock of the controller as each side acknowledged them, unknown after a
    refusal; the width and the clock that were asked for last; and the timing
    the controller was tuned in. *)
Record link := Link {
  l_hs : option Z; l_bw : option Z; l_tim : option Z; l_width : option Z; l_rate : option Z;
  l_wid : Z; l_clk : Z; l_tuned : option Z
}.
Definition known (v : Z) (e : errno) : option Z := if decide (e = EOK) then Some v else None.
Definition link_step (L : link) (ev : bus_event) : link :=
  match ev with
  | Switched i v e =>
      if i =? ECSD_HS_TIMING then Link (known v e) (l_bw L) (l_tim L) (l_width L) (l_rate L) (l_wid L) (l_clk L) (l_tuned L)
      else if i =? ECSD_BUS_WIDTH then Link (l_hs L) (known v e) (l_tim L) (l_width L) (l_rate L) (l_wid L) (l_clk L) (l_tuned L) else L
  | Timed t e => Link (l_hs L) (l_bw L) (known t e) (l_width L) (l_rate L) (l_wid L) (l_clk L) (l_tuned L)
  | Widened w e => Link (l_hs L) (l_bw L) (l_tim L) (known w e) (l_rate L) w (l_clk L) (l_tuned L)
  | Clocked c e => Link (l_hs L) (l_bw L) (l_tim L) (l_width L) (known c e) (l_wid L) c (l_tuned L)
  | Tuned _ e => Link (l_hs L) (l_bw L) (l_tim L) (l_width L) (l_rate L) (l_wid L) (l_clk L) (if decide (e = EOK) then l_tim L else None)
  | _ => L
  end.
Definition power_up : link := Link None None None None None 0 0 None.
Definition link_of (l : list bus_event) : link := foldl link_step power_up l.

(** ** What a list of events shows *)

(** [d] are the events before a call, [l] those after some of it. *)
Definition seen (d l : list bus_event) (Q : list bus_event -> Prop) : Prop := exists l1 l2 l3, l = d ++ l1 ++ l2 ++ l3 /\ Q l2.

(** The controller refused a timing or a width, or a clock. *)
Definition refuses_setting (ev : bus_event) : Prop := match ev with Timed _ e | Widened _ e => e <> EOK | _ => False end.
Definition unclocked (ev : bus_event) : Prop := match ev with Clocked _ e => e <> EOK | _ => False end.
Definition has_event (P : bus_event -> Prop) (l : list bus_event) : Prop := exists ev, l = [ev] /\ P ev.

(** What the controller acknowledged; or it is not known, and a refusal that
    the code does not look at is among the events of the call. *)
Definition took (P : bus_event -> Prop) (d l : list bus_event) (o : option Z) (v : Z) : Prop :=
  o = Some v \/ o = None /\ seen d l (has_event P).

(** ** The modes *)
Definition failed (p : list MmcPlan.step) (l : list bus_event) : Prop := exists e, follows p l e /\ e <> EOK.

(** Both sides and the clock [c]. *)
Definition set_to (d l : list bus_event) (hs bw tim c : Z) (L : link) : Prop :=
  l_hs L = Some hs /\ l_bw L = Some bw /\ l_tim L = Some tim /\ took unclocked d l (l_rate L) c.
Definition in_hs400es (d l : list bus_event) (m : mmc) (w : Z) (L : link) : Prop :=
  set_to d l (timing_value m ECSD_HS_TIMING_HS400) 0x86 TIMING_HS400ES (dtr m) L /\ took refuses_setting d l (l_width L) w.
Definition in_hs200 (d l : list bus_event) (m : mmc) (w : Z) (L : link) : Prop :=
  set_to d l (timing_value m ECSD_HS_TIMING_HS200) (w / 4) TIMING_HS200 (dtr m) L /\ took refuses_setting d l (l_width L) w /\
  l_tuned L = Some TIMING_HS200.

(** HS400 with the last clock asked for; and with what the controller took,
    at the width and tuned unless a step of HS200 failed on the way. *)
Definition in_hs400 (m : mmc) (L : link) : Prop :=
  l_hs L = Some (timing_value m ECSD_HS_TIMING_HS400) /\ l_bw L = Some 6 /\ l_tim L = Some TIMING_HS400 /\ l_clk L = dtr m.
Definition via_hs200 (d l : list bus_event) (m : mmc) (w : Z) (L : link) : Prop :=
  set_to d l (timing_value m ECSD_HS_TIMING_HS400) 6 TIMING_HS400 (dtr m) L /\
  (took refuses_setting d l (l_width L) w /\ l_tuned L = Some TIMING_HS200 \/ seen d l (failed (hs200_steps m w))).

(** HS200 was reached and tuned, and a step from there to HS400 failed. *)
Definition half_way (m : mmc) (w : Z) (l : list bus_event) : Prop :=
  exists l1 l2, l = l1 ++ l2 /\ follows (hs200_steps m w) l1 EOK /\ failed (up_steps m) l2.

Definition in_hs (d l : list bus_event) (m : mmc) (L : link) : Prop :=
  l_hs L = Some ECSD_HS_TIMING_HS /\ took unclocked d l (l_rate L) (dtr m).
Definition in_ddr (d l : list bus_event) (w : Z) (L : link) : Prop :=
  l_bw L = Some (Z.lor (w / 4) ECSD_BUS_WIDTH_DDR) /\ took refuses_setting d l (l_width L) w /\ took refuses_setting d l (l_tim L) TIMING_DDR50.
Definition in_sdr (d l : list bus_event) (w : Z) (L : link) : Prop :=
  l_tim L = Some TIMING_HS /\ (BUS_WIDTH_4 <= w -> forall v, l_bw L = Some v -> v = w / 4 /\ took refuses_setting d l (l_width L) w).
Definition in_ls (d l : list bus_event) (m : mmc) (L : link) : Prop :=
  took refuses_setting d l (l_tim L) TIMING_LS /\ took unclocked d l (l_rate L) (dtr_max (m_csd m)).

(** More events after these change nothing. *)
Lemma seen_more d l l' Q : seen d l Q -> seen d (l ++ l') Q.
Proof. intros (l1 & l2 & l3 & -> & HQ). exists l1, l2, (l3 ++ l'). split; [by rewrite <- !app_assoc|done]. Qed.
Lemma took_more P d l l' o v : took P d l o v -> took P d (l ++ l') o v.
Proof. intros [E|[E Hs]]; [by left|right]. split; [done|by apply seen_more]. Qed.
Lemma seen_here d b a x c (Q : list bus_event -> Prop) l : l = (d ++ b) ++ a ++ x ++ c -> Q x -> seen d l Q.
Proof. intros -> HQ. exists (b ++ a), x, c. by rewrite <- !app_assoc. Qed.

(** ** What the steps lead to *)
Lemma link_of_app l l' : link_of (l ++ l') = foldl link_step (link_of l) l'.
Proof. apply foldl_app. Qed.
Lemma link_powers L l : Forall is_power l -> foldl link_step L l = L.
Proof. intros Hl. induction Hl as [|ev l (v & e & ->) Hl IH]; [done|]. exact IH. Qed.

Ltac unroll :=
  repeat match goal with H : follows (_ :: _) _ EOK |- _ => inversion H; clear H; subst; try congruence end;
  repeat match goal with H : follows [] _ _ |- _ => inversion H; clear H; subst end;
  repeat match goal with H : true = true -> _ = EOK |- _ => specialize (H eq_refl); subst | H : false = true -> _ |- _ => clear H end.

(** A step that may fail, among the events [l] after [d ++ b]. *)
Lemma took_known P d b a ev c l v e : l = (d ++ b) ++ a ++ [ev] ++ c -> (e <> EOK -> P ev) -> took P d l (known v e) v.
Proof.
  intros El HP. unfold took, known. destruct (decide (e = EOK)) as [_|Hn]; [by left|right]. split; [done|].
  eapply seen_here; [exact El|]. exists ev. auto.
Qed.
Ltac find_step H := first
  [ exact (took_known _ _ _ [] _ _ _ _ _ H (fun h => h))
  | exact (took_known _ _ _ [_] _ _ _ _ _ H (fun h => h))
  | exact (took_known _ _ _ [_; _] _ _ _ _ _ H (fun h => h))
  | exact (took_known _ _ _ [_; _; _] _ _ _ _ _ H (fun h => h))
  | exact (took_known _ _ _ [_; _; _; _] _ _ _ _ _ H (fun h => h))
  | exact (took_known _ _ _ [_; _; _; _; _; _; _] _ _ _ _ _ H (fun h => h))
  | exact (took_known _ _ _ [_; _; _; _; _; _; _; _] _ _ _ _ _ H (fun h => h)) ].
Lemma reach_hs400es d b m w l L : follows (hs400es_steps m w) l EOK -> in_hs400es d ((d ++ b) ++ l) m w (foldl link_step L l).
Proof.
  unfold hs400es_steps, must, may. intros Hf. pose proof (eq_refl ((d ++ b) ++ l)) as El. revert El. unroll. intros El.
  repeat split; find_step El.
Qed.
Lemma reach_hs400 m l L : follows (up_steps m) l EOK -> in_hs400 m (foldl link_step L l).
Proof. unfold up_steps, must, may. intros Hf. unroll. by repeat split. Qed.
Lemma reach_up d b m l L : follows (up_steps m) l EOK ->
  set_to d ((d ++ b) ++ l) (timing_value m ECSD_HS_TIMING_HS400) 6 TIMING_HS400 (dtr m) (foldl link_step L l) /\
  l_width (foldl link_step L l) = l_width L /\ l_tuned (foldl link_step L l) = l_tuned L.
Proof.
  unfold up_steps, must, may. intros Hf. pose proof (eq_refl ((d ++ b) ++ l)) as El. revert El. unroll. intros El.
  repeat split; find_step El.
Qed.
Lemma reach_hs200 d b m w l L : follows (hs200_steps m w) l EOK -> in_hs200 d ((d ++ b) ++ l) m w (foldl link_step L l).
Proof.
  unfold hs200_steps, must, may. intros Hf. pose proof (eq_refl ((d ++ b) ++ l)) as El. revert El. unroll. intros El.
  repeat split; find_step El.
Qed.
Lemma reach_hs d b m l L : follows (hs_steps m) l EOK ->
  in_hs d ((d ++ b) ++ l) m (foldl link_step L l) /\ l_tim (foldl link_step L l) = Some TIMING_HS.
Proof.
  unfold hs_steps, must, may. intros Hf. pose proof (eq_refl ((d ++ b) ++ l)) as El. revert El. unroll. intros El.
  repeat split; find_step El.
Qed.

(** ** The voltage before the fast modes *)
Definition fast_timing (v : Z) : bool := ECSD_HS_TIMING_HS <? Z.land v 15.
Definition supported (k t u : Z) : Prop :=
  u = SIGNAL_VOLTAGE_1_2 /\ has k HC_CAP_SV_1_2V = true /\ has t (Z.lor ECSD_CARD_TYPE_HS200_1_2V ECSD_CARD_TYPE_HS400_1_2V) = true \/
  u = SIGNAL_VOLTAGE_1_8 /\ has k HC_CAP_SV_1_8V = true /\ has t (Z.lor ECSD_CARD_TYPE_HS200_1_8V ECSD_CARD_TYPE_HS400_1_8V) = true.
Definition volts_first (k t : Z) (l : list bus_event) : Prop := forall l1 v e l2,
  l = l1 ++ Switched ECSD_HS_TIMING v e :: l2 -> fast_timing v = true -> exists u, Powered u EOK ∈ l1 /\ supported k t u.
Definition slow (ev : bus_event) : Prop :=
  match ev with Switched i v _ => i = ECSD_HS_TIMING -> fast_timing v = false | _ => True end.

Lemma volts_slow k t l : Forall slow l -> volts_first k t l.
Proof.
  intros Hl l1 v e l2 -> Hf. apply Forall_app in Hl as [_ Hl]. apply Forall_cons in Hl as [Hl _]. by rewrite (Hl eq_refl) in Hf.
Qed.
Lemma volts_app k t l l' : volts_first k t l -> volts_first k t l' -> volts_first k t (l ++ l').
Proof.
  intros H1 H2 l1 v e l2 E Hf. apply app_eq_inv in E as [(x & -> & E)|(x & -> & E)].
  - destruct x as [|y x].
    + destruct (H2 [] v e l2 (eq_sym E) Hf) as (u & Hu & _). by apply not_elem_of_nil in Hu.
    + injection E as <- E. by apply (H1 l1 v e x).
  - destruct (H2 _ _ _ _ E Hf) as (u & Hu & Hs). exists u. split; [|done]. apply elem_of_app. by right.
Qed.
Lemma volts_power k t lv l : Forall is_power lv -> (exists u, Powered u EOK ∈ lv /\ supported k t u) -> volts_first k t (lv ++ l).
Proof.
  intros Hl (u & Hu & Hs) l1 v e l2 E Hf. exists u. split; [|done]. apply app_eq_inv in E as [(x & -> & E)|(x & -> & E)].
  - destruct x as [|y x]; [by rewrite app_nil_r in Hu|]. injection E as <- E. apply Forall_app in Hl as [_ Hl].
    by apply Forall_cons in Hl as [(? & ? & [=]) _].
  - apply elem_of_app. by left.
Qed.
Lemma power_slow l : Forall is_power l -> Forall slow l.
Proof. intros Hl. eapply Forall_impl; [exact Hl|]. by intros ev (v & e & ->). Qed.
Lemma follows_slow p l e : follows p l e -> Forall (fun st : step => forall e, slow (snd st e)) p -> Forall slow l.
Proof.
  induction 1 as [|ev p e Hn|b ev p e l e' He Hf IH]; intros Hp; [done|..]; apply Forall_cons in Hp as [Hs Hp];
    constructor; auto.
Qed.
Lemma has_l a b c : has a b = true -> has a (Z.lor b c) = true.
Proof. intros Hb. by rewrite has_or_r, Hb. Qed.
Lemma has_r a b c : has a c = true -> has a (Z.lor b c) = true.
Proof. rewrite Z.lor_comm. apply has_l. Qed.
Lemma power_supported k t b12 b18 lv : powered b12 b18 lv ->
  (b12 = true -> has k HC_CAP_SV_1_2V = true /\ has t (Z.lor ECSD_CARD_TYPE_HS200_1_2V ECSD_CARD_TYPE_HS400_1_2V) = true) ->
  (b18 = true -> has k HC_CAP_SV_1_8V = true /\ has t (Z.lor ECSD_CARD_TYPE_HS200_1_8V ECSD_CARD_TYPE_HS400_1_8V) = true) ->
  exists u, Powered u EOK ∈ lv /\ supported k t u.
Proof. intros (u & Hu & [[-> Hb]|[-> Hb]]) H12 H18; eexists; (split; [exact Hu|]); [left|right]; auto. Qed.

Section stages.
Context {C : Type} `{bus_laws C} (no_memory : list issued -> bool).

Lemma has_modes f x : Z.land MODES x = x -> has f x = has (Z.land f MODES) x.
Proof. intros Hx. unfold has. by rewrite <- Z.land_assoc, Hx. Qed.
Lemma flags_eq x (s : mst C) (v : Z) : Z.land MODES x = x -> modes s = v -> has (dev_flags (ctl (cmds s))) x = has v x.
Proof. intros Hx Hm. rewrite has_modes by done. unfold modes, modes_of in Hm. by rewrite Hm. Qed.

(** What the parts of mmc_init_bus keep. *)
Definition goes (s s' : mst C) : Prop :=
  exists l, done s' = done s ++ l /\ volts_first (k_caps s) (card_type (m_ecsd (mdev s))) l /\ Forall heeded l.
Definition same_device (s s' : mst C) : Prop :=
  dev (cmds s') = dev (cmds s) /\ mdev s' = mdev s /\ k_caps s' = k_caps s /\ goes s s'.
Lemma eff_same s s' l : eff s s' l -> volts_first (k_caps s) (card_type (m_ecsd (mdev s))) l -> same_device s s'.
Proof.
  intros (? & ? & ? & ? & tr & _ & Hb) Hv. do 3 (split; [done|]). exists l. split; [done|]. split; [done|].
  eapply Forall_impl; [exact Hb|]. by intros [].
Qed.
Lemma mode_volts s (l : list bus_event) a b lv : Forall is_power lv -> l = [] \/ powered a b lv ->
  (a = true -> has (k_caps s) HC_CAP_SV_1_2V = true /\ has (card_type (m_ecsd (mdev s))) (Z.lor ECSD_CARD_TYPE_HS200_1_2V ECSD_CARD_TYPE_HS400_1_2V) = true) ->
  (b = true -> has (k_caps s) HC_CAP_SV_1_8V = true /\ has (card_type (m_ecsd (mdev s))) (Z.lor ECSD_CARD_TYPE_HS200_1_8V ECSD_CARD_TYPE_HS400_1_8V) = true) ->
  volts_first (k_caps s) (card_type (m_ecsd (mdev s))) (lv ++ l).
Proof.
  intros Hl [->|Hp] Ha Hb; [rewrite app_nil_r; by apply volts_slow, power_slow|].
  apply volts_power; [done|]. by eapply power_supported.
Qed.
Lemma eff_link s s' l : eff s s' l -> link_of (done s') = foldl link_step (link_of (done s)) l.
Proof. intros (_ & _ & _ & E & _). by rewrite E, link_of_app. Qed.

(** The fast modes as they can be found in a call that began with the events
    [d]; [again] is what the flag of HS200 then stands for. *)
Definition fast (again : mst C -> Prop) (d : list bus_event) (w : Z) (s : mst C) : Prop :=
  modes s = 0 \/ (modes s = DEV_FLAG_HS400ES /\ in_hs400es d (done s) (mdev s) w (link_of (done s))) \/
  (modes s = DEV_FLAG_HS400 /\ via_hs200 d (done s) (mdev s) w (link_of (done s))) \/ (modes s = DEV_FLAG_HS200 /\ again s).
Definition es_or_none (d : list bus_event) (w : Z) (s : mst C) : Prop :=
  modes s = 0 \/ (modes s = DEV_FLAG_HS400ES /\ in_hs400es d (done s) (mdev s) w (link_of (done s))).
Definition stale (d : list bus_event) (w : Z) (s : mst C) : Prop := seen d (done s) (half_way (mdev s) w).
Definition hs200_or (d : list bus_event) (w : Z) (s : mst C) : Prop :=
  stale d w s \/ in_hs200 d (done s) (mdev s) w (link_of (done s)).
Definition begun (d : list bus_event) (s : mst C) : Prop := exists b, done s = d ++ b.

Lemma goes_refl s : goes s s.
Proof. exists []. split; [by rewrite app_nil_r|]. split; [by apply volts_slow|constructor]. Qed.
Lemma begun_more d s s' : begun d s -> same_device s s' -> begun d s'.
Proof. intros [b Hb] (_ & _ & _ & l & E & _). exists (b ++ l). by rewrite E, Hb, app_assoc. Qed.
Lemma device_refl s : same_device s s.
Proof. do 3 (split; [done|]). apply goes_refl. Qed.
Lemma device_trans s s1 s2 : same_device s s1 -> same_device s1 s2 -> same_device s s2.
Proof.
  intros (A1 & A2 & A3 & l & A4 & A5 & A6) (B1 & B2 & B3 & l' & B4 & B5 & B6). do 3 (split; [congruence|]). exists (l ++ l').
  rewrite B4, A4, app_assoc. split; [done|]. split; [|by apply Forall_app]. apply volts_app; [done|]. by rewrite <- A3, <- A2.
Qed.
Lemma skip_stage (Q : mst C -> Prop) s : Q s -> post (mret ()) s (fun _ s' => same_device s s' /\ Q s').
Proof. intros HQ. apply post_ret. split; [apply device_refl|done]. Qed.
Ltac both := let Hb := fresh in intros Hb; repeat (apply andb_prop in Hb as [Hb ?]); split; [done|]; first [by apply has_l|by apply has_r].
Ltac voltage Hr := eapply mode_volts; [done|exact Hr|both|both].

Lemma es_stage d w s : begun d s -> modes s = 0 -> post (try_hs400es no_memory w) s (fun _ s' => same_device s s' /\ es_or_none d w s').
Proof.
  intros [b Hd] Hm. apply post_bind, post_gets, post_bind, post_gets. destruct (_ && _); [|by apply skip_stage; left].
  apply post_bind. eapply post_mono; [apply run_hs400es|]. intros e s' (lv & l & He & Hl & Hc). apply post_ret.
  assert (Hv : l = [] \/ _) by (destruct Hc as [(_ & ? & _)|(Hp & _)]; [by left|right; exact Hp]).
  pose proof He as (_ & Em & _ & Ed & _). split; [eapply eff_same; [exact He|]; voltage Hv|]. rewrite Hm in Hc.
  destruct Hc as [(_ & _ & Hc)|(_ & Hf & Hc)]; [by left|]. destruct (decide (e = EOK)) as [->|]; [|by left].
  right. split; [done|]. rewrite (eff_link _ _ _ He), foldl_app, (link_powers _ lv), Em, Ed, Hd, (app_assoc (d ++ b)), <- (app_assoc d b lv) by done.
  by apply reach_hs400es.
Qed.

(** After HS200 and the steps up from it, which the code takes in any case. *)
Lemma up_via d b m w l1 l2 e1 L : follows (hs200_steps m w) l1 e1 -> follows (up_steps m) l2 EOK ->
  via_hs200 d ((d ++ b) ++ l1 ++ l2) m w (foldl link_step (foldl link_step L l1) l2).
Proof.
  intros F1 F2. rewrite app_assoc, <- (app_assoc d b l1).
  destruct (reach_up d (b ++ l1) m l2 (foldl link_step L l1) F2) as (Hs & Ew & Et). split; [exact Hs|].
  destruct (decide (e1 = EOK)) as [->|Hn]; [left|right].
  - destruct (reach_hs200 d b m w l1 L F1) as (_ & Hw & Ht). rewrite Ew, Et. split; [|done].
    rewrite (app_assoc d b l1). by apply took_more.
  - rewrite (app_assoc d b l1). apply seen_more. apply (seen_here d b [] l1 []); [by rewrite (app_nil_r l1)|]. by exists e1.
Qed.
Lemma hs400_stage d w s : begun d s -> es_or_none d w s ->
  post (try_hs400 no_memory w) s (fun _ s' => same_device s s' /\ fast (stale d w) d w s').
Proof.
  intros [b Hd] Hs. apply post_bind, post_gets, post_bind, post_gets, post_bind, post_gets.
  assert (fast (stale d w) d w s) as Hskip by (unfold fast, es_or_none in *; tauto).
  destruct (negb _ && _ && _ && _) eqn:Eb; [|by apply skip_stage].
  do 2 apply andb_prop in Eb as [Eb _]. apply andb_prop in Eb as [Eb Ec].
  apply post_bind. eapply post_mono; [apply run_hs400|]. intros e s' (lv & l1 & l2 & e1 & He & Hl & Hc). apply post_ret.
  assert (Hv : l1 ++ l2 = [] \/ _) by (destruct Hc as [(_ & -> & -> & _)|(Hp & _)]; [by left|right; exact Hp]).
  pose proof He as (_ & Em & _ & Ed & _). split; [eapply eff_same; [exact He|]; voltage Hv|].
  assert (done s' = (d ++ b ++ lv) ++ l1 ++ l2) as Ed' by (by rewrite Ed, Hd, <- !app_assoc).
  destruct Hs as [Hm|[Hm _]]; [|by rewrite (flags_eq _ _ _ eq_refl Hm) in Eb].
  rewrite Hm in Hc. destruct Hc as [(_ & _ & _ & Hc)|(_ & Hf1 & Hf & Hc)]; [by left|]. destruct (decide (e = EOK)) as [->|Hn].
  - do 2 right; left. split; [by rewrite Hc; destruct (decide (e1 = EOK))|].
    rewrite (eff_link _ _ _ He), !foldl_app, (link_powers _ lv), Em, Ed' by done. by eapply up_via.
  - destruct (decide (e1 = EOK)) as [->|]; [|by left]. do 3 right. split; [done|]. unfold stale. rewrite Em.
    apply (seen_here d (b ++ lv) [] (l1 ++ l2) []); [by rewrite (app_nil_r (l1 ++ l2))|]. exists l1, l2. split; [done|]. split; [done|]. by exists e.
Qed.
Lemma stale_more d w s s' l : stale d w s -> eff s s' l -> stale d w s'.
Proof. intros Hs (_ & Em & _ & Ed & _). unfold stale. rewrite Em, Ed. by apply seen_more. Qed.
Lemma hs200_stage d w s : begun d s -> fast (stale d w) d w s ->
  post (try_hs200 no_memory w) s (fun _ s' => same_device s s' /\ fast (hs200_or d w) d w s').
Proof.
  intros [b Hd] Hs. apply post_bind, post_gets, post_bind, post_gets, post_bind, post_gets.
  assert (fast (hs200_or d w) d w s) as Hskip by (unfold fast, hs200_or in *; tauto).
  destruct (negb _ && _ && _ && _) eqn:Eb; [|by apply skip_stage].
  do 3 apply andb_prop in Eb as [Eb _].
  apply post_bind. eapply post_mono; [apply run_hs200|]. intros e s' (lv & l & He & Hl & Hr). apply post_ret.
  assert (Hv : l = [] \/ _) by (destruct Hr as [(_ & ? & _)|(Hp & _)]; [by left|right; exact Hp]).
  pose proof He as (_ & Em & _ & Ed & _). split; [eapply eff_same; [exact He|]; voltage Hv|].
  assert (modes s = 0 \/ modes s = DEV_FLAG_HS200 /\ stale d w s) as Hm.
  { destruct Hs as [Hm|[[Hm _]|[[Hm _]|Hm]]]; [by left| | |by right]; by rewrite (flags_eq _ _ _ eq_refl Hm) in Eb. }
  assert (modes s' = modes s -> fast (hs200_or d w) d w s') as Hstale.
  { intros Hms. destruct Hm as [Hm|[Hm Hl2]]; [left; congruence|]. do 3 right. split; [congruence|]. left. by eapply stale_more. }
  destruct Hr as [(_ & _ & Hr)|(_ & Hf & Hr)]; [by apply Hstale|]. destruct (decide (e = EOK)) as [->|]; [|by apply Hstale].
  do 3 right. split; [destruct Hm as [Hm|[Hm _]]; by rewrite Hr, Hm|]. right.
  rewrite (eff_link _ _ _ He), foldl_app, (link_powers _ lv), Em, Ed, Hd, (app_assoc (d ++ b)), <- (app_assoc d b lv) by done.
  by apply reach_hs200.
Qed.

(** What the later parts keep: HS can lower the clock of the mode. *)
Definition lowered (m : mmc) : mmc :=
  set_m_ecsd (let e := m_ecsd m in if DTR_MAX_HS52 <? dtr_max_hs e then set_dtr_max_hs DTR_MAX_HS52 e else e) m.
Definition kept (s s' : mst C) : Prop :=
  dev (cmds s') = dev (cmds s) /\ k_caps s' = k_caps s /\ (mdev s' = mdev s \/ mdev s' = lowered (mdev s)) /\ goes s s'.
Lemma kept_same s s' : same_device s s' -> kept s s'.
Proof. intros (? & ? & ? & ?). do 2 (split; [done|]). split; [by left|done]. Qed.
Lemma type_lowered m : card_type (m_ecsd (lowered m)) = card_type (m_ecsd m).
Proof. unfold lowered. simpl. by destruct (_ <? _). Qed.
Lemma kept_before s s1 s2 : same_device s s1 -> kept s1 s2 -> kept s s2.
Proof.
  intros (A1 & A2 & A3 & l & A4 & A5 & A6) (B1 & B3 & B2 & l' & B4 & B5 & B6). do 2 (split; [congruence|]).
  split; [rewrite <- A2; exact B2|]. exists (l ++ l'). rewrite B4, A4, app_assoc. split; [done|]. split; [|by apply Forall_app].
  apply volts_app; [done|]. by rewrite <- A3, <- A2.
Qed.
Lemma kept_then s s1 s2 : kept s s1 -> same_device s1 s2 -> kept s s2.
Proof.
  intros (A1 & A3 & A2 & l & A4 & A5 & A6) (B1 & B2 & B3 & l' & B4 & B5 & B6). do 2 (split; [congruence|]).
  split; [by rewrite B2|]. exists (l ++ l'). rewrite B4, A4, app_assoc. split; [done|]. split; [|by apply Forall_app].
  apply volts_app; [done|]. rewrite <- A3. destruct A2 as [A2|A2]; rewrite A2 in B5; [done|]. by rewrite type_lowered in B5.
Qed.
Lemma begun_kept d s s' : begun d s -> kept s s' -> begun d s'.
Proof. intros [b Hb] (_ & _ & _ & l & E & _). exists (b ++ l). by rewrite E, Hb, app_assoc. Qed.

Definition in_sdr_or_wider (d : list bus_event) (w : Z) (s : mst C) : Prop := let l := done s in let L := link_of l in
  modes s = DEV_FLAG_HS /\ in_hs d l (mdev s) L /\ in_sdr d l w L \/
  modes s = Z.lor DEV_FLAG_HS DEV_FLAG_DDR /\ in_hs d l (mdev s) L /\ in_ddr d l w L.
Definition fresh_hs (d : list bus_event) (s : mst C) : Prop := let L := link_of (done s) in
  modes s = DEV_FLAG_HS /\ in_hs d (done s) (mdev s) L /\ l_tim L = Some TIMING_HS.

Lemma hs_slow m : Forall (fun st : MmcPlan.step => forall e, slow (snd st e)) (hs_steps m).
Proof. by repeat constructor. Qed.
Lemma ddr_slow w : Forall (fun st : MmcPlan.step => forall e, slow (snd st e)) (ddr_steps w).
Proof. by repeat constructor. Qed.
Lemma hs_stage (again : mst C -> Prop) d w s : begun d s -> fast again d w s ->
  post (try_hs no_memory) s (fun _ s' => kept s s' /\ (same_device s s' /\ fast again d w s' \/ modes s' = 0 \/ fresh_hs d s')).
Proof.
  intros [b Hd] Hs. apply post_bind, post_gets, post_bind, post_gets. destruct (_ && _) eqn:Eb.
  2:{ apply post_ret. split; [apply kept_same, device_refl|]. left. split; [apply device_refl|done]. }
  apply andb_prop in Eb as [Eb _].
  assert (modes s = 0) as Hm.
  { destruct Hs as [Hm|[[Hm _]|[[Hm _]|[Hm _]]]]; [done|..]; by rewrite (flags_eq _ _ _ eq_refl Hm) in Eb. }
  apply post_bind. unfold mmc_init_hs. apply post_bind. eexists (), (upd_mdev lowered s). split; [reflexivity|].
  eapply post_mono; [apply runs_hs|]. intros e s' (l & He & Hf & Hr). apply post_ret.
  assert (volts_first (k_caps (upd_mdev lowered s)) (card_type (m_ecsd (mdev (upd_mdev lowered s)))) l) as Hv by (by eapply volts_slow, follows_slow, hs_slow).
  destruct (eff_same _ _ _ He Hv) as (E1 & E2 & E3 & l' & E4 & _ & E6).
  split. { do 2 (split; [done|]). split; [by right|]. exists l'. split; [done|]. split; [|done].
    destruct He as (_ & _ & _ & E4' & _). rewrite E4' in E4. apply (inj (app _)) in E4 as <-. by eapply volts_slow, follows_slow, hs_slow. } right.
  change (modes (upd_mdev lowered s)) with (modes s) in Hr. rewrite Hm in Hr.
  destruct (decide (e = EOK)) as [->|]; [|by left]. right. unfold fresh_hs. pose proof He as (_ & _ & _ & Ed & _).
  rewrite (eff_link _ _ _ He), E2, Ed. change (done (upd_mdev lowered s)) with (done s). rewrite Hd.
  split; [done|]. by apply (reach_hs _ _ _ _ _ Hf).
Qed.

Lemma ddr_link d b w l e L : follows (ddr_steps w) l e ->
  l_hs (foldl link_step L l) = l_hs L /\ l_rate (foldl link_step L l) = l_rate L /\
  (e = EOK -> in_ddr d ((d ++ b) ++ l) w (foldl link_step L l)) /\ (e <> EOK -> l_tim (foldl link_step L l) = l_tim L).
Proof.
  unfold ddr_steps, must, may. intros Hf. inversion Hf as [|? ? ? Hn|b1 ev p e1 l1 e' He Hf1]; subst; [by repeat split|].
  rewrite (He eq_refl). clear Hf He. inversion Hf1 as [| |b2 ev2 p2 e2 l2 e2' He Hf2]; subst. clear Hf1 He.
  inversion Hf2 as [| |b3 ev3 p3 e3 l3 e3' He Hf3]; subst. clear Hf2 He. inversion Hf3; subst.
  split; [done|]. split; [done|]. split; [|done]. intros _.
  match goal with |- in_ddr _ ?x _ _ => pose proof (eq_refl x) as El; revert El end. intros El. repeat split; find_step El.
Qed.
Lemma hs_more d m s s' l : in_hs d (done s) m (link_of (done s)) -> eff s s' l ->
  l_hs (link_of (done s')) = l_hs (link_of (done s)) -> l_rate (link_of (done s')) = l_rate (link_of (done s)) ->
  in_hs d (done s') m (link_of (done s')).
Proof. intros [Hh Hr] (_ & _ & _ & Ed & _) E1 E2. unfold in_hs. rewrite E1, E2, Ed. split; [done|]. by apply took_more. Qed.
Lemma slow_same s s' l : eff s s' l -> Forall slow l -> same_device s s'.
Proof. intros He Hl. eapply eff_same; [exact He|]. by apply volts_slow. Qed.

(** DDR, or still HS. *)
Definition ddr_tried (d : list bus_event) (w : Z) (s : mst C) : Prop := let L := link_of (done s) in in_hs d (done s) (mdev s) L /\
  (modes s = DEV_FLAG_HS /\ l_tim L = Some TIMING_HS \/ modes s = Z.lor DEV_FLAG_HS DEV_FLAG_DDR /\ in_ddr d (done s) w L).
Lemma try_ddr d w s : begun d s -> fresh_hs d s ->
  post (mmc_init_ddr no_memory w;; mret ()) s (fun _ s' => same_device s s' /\ ddr_tried d w s').
Proof.
  intros [b Hd] (Hm & Hh & Ht). apply post_bind. eapply post_mono; [apply run_ddr|]. intros e s1 (lv & l & He & Hl & Hr). apply post_ret.
  pose proof He as (_ & Em & _ & Ed & _).
  split; [eapply slow_same; [exact He|]; apply Forall_app; split; [by apply power_slow|];
    destruct Hr as [(_ & -> & _)|[Hf _]]; [done|by eapply follows_slow, ddr_slow]|].
  assert (link_of (done s1) = foldl link_step (link_of (done s)) l) as EL by (by rewrite (eff_link _ _ _ He), foldl_app, (link_powers _ lv)).
  unfold ddr_tried. rewrite Em.
  destruct Hr as [(_ & -> & Hr)|[Hf Hr]].
  { cbn in EL. split; [eapply hs_more; [exact Hh|exact He|by rewrite EL..]|]. left. by rewrite Hr, Hm, EL. }
  destruct (ddr_link d (b ++ lv) _ _ _ (link_of (done s)) Hf) as (F1 & F2 & F3 & F4).
  split; [eapply hs_more; [exact Hh|exact He|by rewrite EL..]|].
  rewrite Hr, Hm, EL. destruct (decide (e = EOK)) as [He1|Hn]; [right|left; by rewrite F4]. split; [done|].
  specialize (F3 He1). rewrite <- (app_assoc d), <- app_assoc, (app_assoc d), <- Hd, <- Ed in F3. exact F3.
Qed.
Lemma wide_stage (again : mst C -> Prop) d w s : begun d s -> fast again d w s \/ modes s = 0 \/ fresh_hs d s ->
  post (try_wide no_memory w) s (fun _ s' => same_device s s' /\
    (s' = s /\ (fast again d w s \/ modes s = 0) \/ in_sdr_or_wider d w s')).
Proof.
  intros Hd Hs. apply post_bind, post_gets.
  destruct (has (dev_flags (ctl (cmds s))) DEV_FLAG_HS && (BUS_WIDTH_4 <=? w)) eqn:Eb.
  2:{ apply post_ret. split; [apply device_refl|]. destruct Hs as [Hs|[Hs|(Hm & Hi & Ht)]]; [by left; split; [|left]|by left; split; [|right]|].
    right. left. split; [done|]. split; [done|]. split; [done|]. rewrite (flags_eq _ _ _ eq_refl Hm) in Eb.
    apply Z.leb_gt in Eb. lia. }
  apply andb_prop in Eb as [Eb Hw].
  assert (fresh_hs d s) as Hf.
  { destruct Hs as [[Hm|[[Hm _]|[[Hm _]|[Hm _]]]]|[Hm|Hs]]; [..|done]; by rewrite (flags_eq _ _ _ eq_refl Hm) in Eb. }
  apply post_bind, post_gets, post_bind.
  apply (post_mono _ _ (fun _ s1 => same_device s s1 /\ ddr_tried d w s1)).
  { destruct (has _ DEV_CAP_DDR50); [by apply try_ddr|]. apply post_ret. split; [apply device_refl|]. destruct Hf as (? & ? & ?).
    split; [done|]. by left. }
  intros _ s1 (Hsd & Hh1 & Hc). pose proof (begun_more _ _ _ Hd Hsd) as [b Hd1]. apply post_bind, post_gets.
  destruct Hc as [[Hm1 Ht1]|[Hm1 Hi1]]; rewrite (flags_eq _ _ _ eq_refl Hm1);
    [change (has DEV_FLAG_HS DEV_FLAG_DDR) with false|change (has (Z.lor DEV_FLAG_HS DEV_FLAG_DDR) DEV_FLAG_DDR) with true].
  2:{ apply post_ret. split; [done|]. right. right. by split; [|split]. }
  apply post_bind. eapply post_prim; [apply prim_switch|]. intros e s2 He2 Hm2. pose proof He2 as (_ & E2 & _ & Ed2 & _).
  assert (same_device s s2) as Hsd2 by (eapply device_trans; [exact Hsd|]; eapply slow_same; [exact He2|]; by constructor).
  assert (in_hs d (done s2) (mdev s2) (link_of (done s2))) as Hh2.
  { rewrite E2. eapply hs_more; [exact Hh1|exact He2|by rewrite (eff_link _ _ _ He2)..]. }
  destruct (decide (e = EOK)) as [->|Hn].
  - apply post_bind. eapply post_prim; [apply prim_width|]. intros e s3 He3 Hm3. apply post_ret.
    pose proof He3 as (_ & F2 & _ & Ed3 & _).
    split; [eapply device_trans; [exact Hsd2|]; eapply slow_same; [exact He3|]; by constructor|]. right. left.
    split; [congruence|]. split.
    { rewrite F2. eapply hs_more; [exact Hh2|exact He3|by rewrite (eff_link _ _ _ He3)..]. }
    rewrite (eff_link _ _ _ He3), (eff_link _ _ _ He2). split; [done|].
    intros _ v [= <-]. split; [done|]. rewrite Ed3, Ed2, Hd1. rewrite <- (app_assoc d). eapply (took_known _ _ (b ++ _) [] _ []); [done|].
    exact (fun h => h).
  - apply post_ret. split; [done|]. right. left. split; [congruence|]. split; [done|].
    rewrite (eff_link _ _ _ He2). split; [done|]. intros _ v. simpl. unfold known. by rewrite decide_False.
Qed.
Lemma low_stage d s : begun d s -> modes s = 0 ->
  post low_speed s (fun _ s' => same_device s s' /\ modes s' = 0 /\ in_ls d (done s') (mdev s') (link_of (done s'))).
Proof.
  intros [b Hd] Hm. apply post_bind, post_gets, post_bind, post_gets. rewrite (flags_eq _ _ _ eq_refl Hm).
  change (has 0 (Z.lor HS_flags DEV_FLAG_HS)) with false.
  apply post_bind. eapply post_prim; [apply prim_timing|]. intros e1 s1 He1 Hm1.
  apply post_bind. eapply post_prim; [apply prim_clock|]. intros e2 s2 He2 Hm2. apply post_ret.
  pose proof (eff_trans _ _ _ _ _ He1 He2) as He. split; [eapply slow_same; [exact He|]; by repeat constructor|]. split; [congruence|].
  pose proof He as (_ & E2 & _ & Ed & _). rewrite (eff_link _ _ _ He), E2, Ed, Hd.
  pose proof (eq_refl ((d ++ b) ++ [Timed TIMING_LS e1] ++ [Clocked (dtr_max (m_csd (mdev s))) e2])) as El. split; find_step El.
Qed.

(** ** All of mmc_init_bus *)
Definition in_mode (d : list bus_event) (w : Z) (s : mst C) : Prop := let l := done s in let L := link_of l in
  modes s = DEV_FLAG_HS400ES /\ in_hs400es d l (mdev s) w L \/
  modes s = DEV_FLAG_HS400 /\ via_hs200 d l (mdev s) w L \/
  modes s = DEV_FLAG_HS200 /\ hs200_or d w s \/
  in_sdr_or_wider d w s \/
  modes s = 0 /\ in_ls d l (mdev s) L.

(** The length of the blocks is of the device's state. *)
Definition bus_kept (s s' : mst C) : Prop := dcaps (dev (cmds s')) = dcaps (dev (cmds s)) /\ k_caps s' = k_caps s /\
  (mdev s' = mdev s \/ mdev s' = lowered (mdev s)) /\ goes s s'.

Lemma block_ok n s : post (cmd_ (_sdio_set_block_length no_memory n)) s (fun _ s' => mdev s' = mdev s /\ done s' = done s /\
  modes s' = modes s /\ k_caps s' = k_caps s /\ dcaps (dev (cmds s')) = dcaps (dev (cmds s))).
Proof.
  assert (post (_sdio_set_block_length no_memory n) (cmds s) (fun _ c => modes_of (ctl c) = modes s /\ hc_caps (ctl c) = k_caps s /\
    dcaps (dev c) = dcaps (dev (cmds s)))) as (e & c & E & E1 & E2 & E3).
  { apply (post_mono _ _ (fun e c => (hc_caps (ctl c) = k_caps s /\ dcaps (dev c) = dcaps (dev (cmds s))) /\ modes_of (ctl c) = modes s)).
    2:{ intros e c [[? ?] ?]. done. }
    apply post_and; [|intros e c; apply (tame_block_length no_memory n)].
    apply post_bind, post_gets, post_bind, post_gets. destruct (_ && _); [by apply post_ret|]. destruct (_ =? n); [by apply post_ret|].
    apply post_bind. eapply post_mono; [by apply simple_kept|]. intros e c [HD HK]. apply post_bind.
    destruct (decide (e = EOK)); [apply post_modify|apply post_ret]; apply post_ret; simpl; by rewrite HD. }
  exists e, (Mst c (mdev s) (done s)). unfold cmd_. rewrite E. by repeat split.
Qed.
Lemma mode_ext d w s s' : mdev s' = mdev s -> done s' = done s -> modes s' = modes s -> in_mode d w s -> in_mode d w s'.
Proof. unfold in_mode, hs200_or, stale, in_sdr_or_wider. by intros -> -> ->. Qed.
Lemma last_stage d w s : begun d s -> fast (hs200_or d w) d w s \/ modes s = 0 \/ in_sdr_or_wider d w s ->
  post low_speed s (fun _ s' => same_device s s' /\ in_mode d w s').
Proof.
  intros Hd Hs. destruct (decide (modes s = 0)) as [Hm|Hn].
  { eapply post_mono; [by eapply low_stage|]. intros [] s' (Hsd & Hm' & Hi). split; [done|]. by do 4 right. }
  assert (in_mode d w s) as Hi by (unfold fast, in_mode in *; tauto).
  apply post_bind, post_gets, post_bind, post_gets.
  replace (has _ _) with true; [apply post_ret; split; [apply device_refl|done]|]. symmetry.
  destruct Hi as [[Hm _]|[[Hm _]|[[Hm _]|[[[Hm _]|[Hm _]]|[Hm _]]]]]; by rewrite (flags_eq _ _ _ eq_refl Hm).
Qed.
Lemma bus_ok no_buffer transferred buffer s : modes s = 0 -> post (mmc_init_bus no_memory no_buffer transferred buffer) s (fun _ s' =>
  bus_kept s s' /\ in_mode (done s) (widest (k_caps s)) s').
Proof.
  intros Hm. unfold mmc_init_bus. set (d := done s). set (w := widest (k_caps s)). apply post_bind.
  apply (post_mono _ _ (fun r s1 => r = w /\ s1 = s)).
  { apply post_bind, post_gets. rewrite orb_true_r. by apply post_ret. }
  intros r s0 [-> ->]. assert (begun d s) as B0 by (exists []; by rewrite app_nil_r).
  apply post_bind. eapply post_mono; [by apply es_stage|]. intros _ s1 [D1 F1]. pose proof (begun_more _ _ _ B0 D1) as G1.
  apply post_bind. eapply post_mono; [by apply hs400_stage|]. intros _ s2 [D2 F2]. pose proof (begun_more _ _ _ G1 D2) as G2.
  pose proof (device_trans _ _ _ D1 D2) as D02.
  apply post_bind. eapply post_mono; [by apply hs200_stage|]. intros _ s3 [D3 F3]. pose proof (begun_more _ _ _ G2 D3) as G3.
  pose proof (device_trans _ _ _ D02 D3) as D03.
  apply post_bind. eapply post_mono; [by apply (hs_stage (hs200_or d w) d w)|]. intros _ s4 [K4 F4]. pose proof (begun_kept _ _ _ G3 K4) as G4.
  pose proof (kept_before _ _ _ D03 K4) as K04.
  apply post_bind. eapply post_mono; [apply (wide_stage (hs200_or d w) d w); [done|]; destruct F4 as [[_ F4]|F4]; [left; exact F4|right; exact F4]|].
  intros _ s5 [D5 F5]. pose proof (kept_then _ _ _ K04 D5) as K05. pose proof (begun_more _ _ _ G4 D5) as G5.
  apply post_bind. eapply post_mono; [apply (last_stage d w); [done|]|].
  { destruct F5 as [[-> [F5|F5]]|F5]; [by left|by right; left|by right; right]. }
  intros _ s6 [D6 F6]. pose proof (kept_then _ _ _ K05 D6) as (A1 & A2 & A3 & l & A4 & A5).
  eapply post_mono; [apply block_ok|]. intros e s7 (E1 & E2 & E3 & E4 & E5). split; [|by eapply mode_ext].
  split; [by rewrite E5, A1|]. split; [congruence|]. split; [by rewrite E1|]. exists l. by rewrite E2.
Qed.

(** A controller that takes every timing and width refused none. *)
Lemma heeded_none d l l' : obedient C -> l = d ++ l' -> Forall heeded l' -> ~ seen d l (has_event refuses_setting).
Proof.
  intros Ho -> Hf (l1 & l2 & l3 & E & ev & -> & Hu). apply (inj (app d)) in E as ->.
  apply Forall_app in Hf as [_ Hf]. apply Forall_app in Hf as [Hf _]. apply Forall_cons in Hf as [Hf _].
  destruct ev; try done; exact (Hu (Hf Ho)).
Qed.
Lemma kept_heeds s s' : obedient C -> bus_kept s s' -> ~ seen (done s) (done s') (has_event refuses_setting).
Proof. intros Ho (_ & _ & _ & l & E & _ & Hf). by eapply heeded_none. Qed.
End stages.
