(* ===== verification/MmcMode.v ===== *)
(** * The mode flags of an eMMC

    Which flags mmc_init_bus and mmc_bus_error of MmcBus.v can set, that a
    bus error gives something up, and the way out of HS400 and back for
    tuning. *)
From S2P Require Import Prelude Driver SdioReg SdioConst SimConst MmcConst Sdhci SdioCmd SdioSend SdioCard MmcBus MmcPlan MmcLink.
Open Scope Z_scope.

(** ** A flag is set for a capability *)
Definition FAST_CAPS : list Z := [DEV_CAP_HS400ES; DEV_CAP_HS400; DEV_CAP_HS200].

(** HS200 is a step to HS400 too. *)
Definition grants : list (Z * Z) :=
  [(DEV_FLAG_HS400ES, DEV_CAP_HS400ES); (DEV_FLAG_HS400, DEV_CAP_HS400); (DEV_FLAG_HS200, Z.lor DEV_CAP_HS200 DEV_CAP_HS400);
   (DEV_FLAG_HS, DEV_CAP_HS); (DEV_FLAG_DDR, DEV_CAP_DDR50)].
Definition granted (c x : Z) : Prop := Forall (fun g => has x (fst g) = true -> has c (snd g) = true) grants.

Lemma land_ldiff x f b : Z.land (Z.ldiff x f) b = Z.ldiff (Z.land x b) f.
Proof. apply Z.bits_inj'. intros i Hi. rewrite !Z.land_spec, !Z.ldiff_spec, Z.land_spec. by destruct (Z.testbit x i), (Z.testbit f i), (Z.testbit b i). Qed.
Lemma has_less x f b : has (Z.ldiff x f) b = true -> has x b = true.
Proof.
  unfold has. rewrite !negb_true_iff, !Z.eqb_neq, land_ldiff. intros Hn Hz. rewrite Hz in Hn. by rewrite Z.ldiff_0_l in Hn.
Qed.
Lemma granted_lor c x f : granted c x -> granted c f -> granted c (Z.lor x f).
Proof.
  unfold granted. rewrite !Forall_forall. intros Hx Hf g Hg. rewrite has_or. intros [Hb|Hb]%orb_prop; auto.
Qed.
Lemma granted_less c x f : granted c x -> granted c (Z.ldiff x f).
Proof. unfold granted. rewrite !Forall_forall. intros Hx g Hg Hb. by eapply Hx, has_less. Qed.
Lemma granted_flag c flag cap : (forall g, g ∈ grants -> has flag (fst g) = true -> forall x, has x cap = true -> has x (snd g) = true) ->
  has c cap = true -> granted c flag.
Proof. intros Hg Hc. apply Forall_forall. intros g Hi Hb. by eapply Hg. Qed.

Lemma has_gone c m b : Z.land m b = b -> has (Z.ldiff c m) b = false.
Proof.
  intros Hb. unfold has. apply negb_false_iff, Z.eqb_eq. apply Z.bits_inj'. intros i Hi.
  rewrite Z.land_spec, Z.ldiff_spec, Z.bits_0, <- Hb, Z.land_spec. by destruct (Z.testbit c i), (Z.testbit m i).
Qed.
Lemma has_kept c m b : Z.land m b = 0 -> has (Z.ldiff c m) b = has c b.
Proof.
  intros Hb. unfold has. do 2 f_equal. apply Z.bits_inj'. intros i Hi. rewrite !Z.land_spec, Z.ldiff_spec.
  assert (Z.testbit (Z.land m b) i = false) as E by (by rewrite Hb, Z.bits_0). rewrite Z.land_spec in E.
  by destruct (Z.testbit c i), (Z.testbit m i), (Z.testbit b i).
Qed.
Lemma granted_not c x flag cap : granted c x -> (flag, cap) ∈ grants -> has c cap = false -> has x flag = false.
Proof.
  unfold granted. rewrite Forall_forall. intros Hg Hi Hc. specialize (Hg _ Hi). simpl in Hg. destruct (has x flag); [|done].
  by rewrite Hg in Hc.
Qed.

(** Without the fast modes. *)
Definition no_fast (x : Z) : Prop := has x HS_flags = false.
Definition FAST : Z := Z.lor DEV_CAP_HS400ES (Z.lor DEV_CAP_HS400 DEV_CAP_HS200).
Lemma no_fast_flags x : no_fast x -> has x DEV_FLAG_HS200 = false /\ has x DEV_FLAG_HS400 = false /\ has x DEV_FLAG_HS400ES = false.
Proof. unfold no_fast, HS_flags. rewrite !has_or_r. intros [? [? ?]%orb_false_elim]%orb_false_elim. done. Qed.
Lemma slow_granted c x : granted c x -> no_fast x -> granted (Z.ldiff c FAST) x.
Proof.
  intros Hg (H2 & H4 & He)%no_fast_flags. unfold granted in *. rewrite Forall_forall in *. intros g Hi Hx. specialize (Hg g Hi Hx).
  repeat (apply elem_of_cons in Hi as [->|Hi]; [cbn [fst snd] in *; first [congruence|by rewrite has_kept]|]). by apply not_elem_of_nil in Hi.
Qed.
Lemma granted_slow c x : granted (Z.ldiff c FAST) x -> no_fast x.
Proof.
  intros Hg. unfold no_fast, HS_flags. rewrite !has_or_r.
  rewrite (granted_not _ _ DEV_FLAG_HS200 (Z.lor DEV_CAP_HS200 DEV_CAP_HS400) Hg), (granted_not _ _ DEV_FLAG_HS400 DEV_CAP_HS400 Hg),
    (granted_not _ _ DEV_FLAG_HS400ES DEV_CAP_HS400ES Hg); first [done|by apply has_gone|unfold grants; set_solver].
Qed.

(** Tests of flags that are known. *)
Ltac consts := repeat match goal with |- context [has ?a ?b] =>
  let v := eval vm_compute in (has a b) in lazymatch v with true => idtac | false => idtac end; change (has a b) with v end.

Section modes.
Context {C : Type} `{bus_laws C} (no_memory : list issued -> bool).

(** What a capability of the device in [s] stands for in [c]; the fast modes
    need the clock as well. *)
Definition allows (c : Z) (s : mst C) : Prop := let d := dcaps (dev (cmds s)) in
  (DTR_MAX_HS52 < dtr (mdev s) -> forall x, x ∈ FAST_CAPS -> has d x = true -> has c x = true) /\
  (has d DEV_CAP_HS = true -> has c DEV_CAP_HS = true) /\ (has d DEV_CAP_DDR50 = true -> has c DEV_CAP_DDR50 = true).
Definition moves (s s' : mst C) : Prop := dcaps (dev (cmds s')) = dcaps (dev (cmds s)) /\ k_caps s' = k_caps s /\
  m_csd (mdev s') = m_csd (mdev s) /\ dtr (mdev s') <= dtr (mdev s) /\
  forall c, allows c s -> granted c (modes s) -> granted c (modes s').
Lemma moves_refl s : moves s s.
Proof. by repeat split. Qed.
Lemma moves_trans s s1 s2 : moves s s1 -> moves s1 s2 -> moves s s2.
Proof.
  intros (A1 & A2 & A3 & A4 & A5) (B1 & B2 & B3 & B4 & B5). repeat (split; [congruence || lia|]). intros c Hc Hg.
  apply B5; [|by apply A5]. destruct Hc as (H1' & H2' & H3'). split; [|by rewrite A1]. intros Hd x. rewrite A1. apply H1'. lia.
Qed.
Lemma eff_moves s s' l : eff s s' l -> (forall c, allows c s -> granted c (modes s) -> granted c (modes s')) -> moves s s'.
Proof. intros (E1 & E2 & E3 & _) Hg. unfold moves. by rewrite E1, E2, E3. Qed.

Definition stays (m : M (mst C) ()) : Prop := forall s, post m s (fun _ s' => moves s s').
Lemma stays_then m (k : M (mst C) errno) s0 s : stays m -> moves s0 s ->
  (forall s1, moves s0 s1 -> post k s1 (fun _ s' => moves s0 s')) -> post (m;; k) s (fun _ s' => moves s0 s').
Proof. intros Hm H0s Hk. apply post_bind. eapply post_mono; [apply Hm|]. intros [] s1 Hs. apply Hk. by eapply moves_trans. Qed.

(** The flag of a mode that needs the capability [cap]. *)
Ltac by_flag := cbv beta; match goal with |- granted _ (Z.lor _ ?f) => apply granted_lor; [assumption|eapply granted_flag; [|eassumption]] end;
  let g := fresh "g" in let Hg := fresh "Hg" in let x := fresh "x" in let Hx := fresh "Hx" in
  intros g Hg; repeat (apply elem_of_cons in Hg as [->|Hg]; [try done; intros _ x Hx; first [exact Hx|by apply has_l|by apply has_r]|]);
  by apply not_elem_of_nil in Hg.
Lemma fast_cap c s cap : allows c s -> cap ∈ FAST_CAPS -> (DTR_MAX_HS52 <? dtr (mdev s)) = true -> has (dcaps (dev (cmds s))) cap = true ->
  has c cap = true.
Proof. intros [Ha _] Hi Hd Hc. apply Ha; [by apply Z.ltb_lt|done|done]. Qed.
Ltac conds H := repeat match type of H with (_ && _)%bool = true => let H' := fresh H in apply andb_prop in H as [H H'] end.
Lemma mode_run_moves F (m : M (mst C) errno) s a b p : mode_run F m s a b p ->
  (forall c, allows c s -> granted c (modes s) -> granted c (F (modes s))) -> post (m;; mret ()) s (fun _ s' => moves s s').
Proof.
  intros Hm HF. apply post_bind. eapply post_mono; [exact Hm|]. intros e s' (lv & l & He & _ & Hr). apply post_ret.
  eapply eff_moves; [exact He|]. intros c Ha Hg. destruct Hr as [(_ & _ & ->)|(_ & _ & ->)]; [done|].
  destruct (decide (e = EOK)); auto.
Qed.

Lemma stays_es w : stays (try_hs400es no_memory w).
Proof.
  intros s. apply post_bind, post_gets, post_bind, post_gets. destruct (_ && _) eqn:E; [|apply post_ret, moves_refl]. conds E.
  eapply mode_run_moves; [apply run_hs400es|]. intros c Ha Hg.
  assert (has c DEV_CAP_HS400ES = true) by (eapply fast_cap; eauto; set_solver). by_flag.
Qed.
Lemma stays_400 w : stays (try_hs400 no_memory w).
Proof.
  intros s. apply post_bind, post_gets, post_bind, post_gets, post_bind, post_gets.
  destruct (_ && _) eqn:E; [|apply post_ret, moves_refl]. conds E.
  apply post_bind. eapply post_mono; [apply run_hs400|]. intros e s' (lv & l1 & l2 & e1 & He & _ & Hr). apply post_ret.
  eapply eff_moves; [exact He|]. intros c Ha Hg. destruct Hr as [(_ & _ & _ & ->)|(_ & _ & _ & ->)]; [done|]. cbv zeta.
  assert (has c DEV_CAP_HS400 = true) by (eapply fast_cap; eauto; set_solver).
  assert (granted c (if decide (e1 = EOK) then Z.lor (modes s) DEV_FLAG_HS200 else modes s)) as Hg1.
  { destruct (decide (e1 = EOK)); [by_flag|done]. }
  destruct (decide (e = EOK)); [|done]. pose proof (granted_less _ _ DEV_FLAG_HS200 Hg1). by_flag.
Qed.
Lemma stays_200 w : stays (try_hs200 no_memory w).
Proof.
  intros s. apply post_bind, post_gets, post_bind, post_gets, post_bind, post_gets.
  destruct (_ && _) eqn:E; [|apply post_ret, moves_refl]. conds E.
  eapply mode_run_moves; [apply run_hs200|]. intros c Ha Hg.
  assert (has c DEV_CAP_HS200 = true) by (eapply fast_cap; eauto; set_solver). by_flag.
Qed.
Lemma dtr_lowered m : dtr (lowered m) <= dtr m /\ (dtr (lowered m) <= DTR_MAX_HS52).
Proof. unfold lowered, dtr. simpl. destruct (DTR_MAX_HS52 <? _) eqn:E; simpl; [apply Z.ltb_lt in E|apply Z.ltb_ge in E]; lia. Qed.
Lemma moves_lowered s : moves s (upd_mdev lowered s).
Proof. repeat (split; [done|]). split; [apply dtr_lowered|done]. Qed.
Lemma stays_hs : stays (try_hs no_memory).
Proof.
  intros s. apply post_bind, post_gets, post_bind, post_gets. destruct (_ && _) eqn:E; [|apply post_ret, moves_refl]. conds E.
  apply post_bind. unfold mmc_init_hs. apply post_bind. eexists (), (upd_mdev lowered s). split; [reflexivity|].
  eapply post_mono; [apply runs_hs|]. intros e s' (l & He & _ & Hr). apply post_ret.
  eapply moves_trans; [apply moves_lowered|]. eapply eff_moves; [exact He|]. intros c (_ & Ha & _) Hg. rewrite Hr.
  destruct (decide (e = EOK)); [|done]. assert (has c DEV_CAP_HS = true) by auto. by_flag.
Qed.
Lemma prim_moves m ev s : prim m ev -> post (m;; mret ()) s (fun _ s' => moves s s').
Proof.
  intros Hm. apply post_bind. eapply post_prim; [exact Hm|]. intros e s' He Hs. apply post_ret.
  eapply eff_moves; [exact He|]. intros c _ Hg. by rewrite Hs.
Qed.
Lemma stays_wide w : stays (try_wide no_memory w).
Proof.
  intros s. apply post_bind, post_gets. destruct (_ && _); [|apply post_ret, moves_refl].
  apply post_bind, post_gets, post_bind. apply (post_mono _ _ (fun _ s1 => moves s s1)).
  { destruct (has _ DEV_CAP_DDR50) eqn:E; [|apply post_ret, moves_refl].
    apply post_bind. eapply post_mono; [apply run_ddr|]. intros e s' (lv & l & He & _ & Hr). apply post_ret.
    eapply eff_moves; [exact He|]. intros c (_ & _ & Ha) Hg. assert (has c DEV_CAP_DDR50 = true) by auto.
    destruct Hr as [(_ & _ & ->)|(_ & ->)]; [done|]. destruct (decide (e = EOK)); [by_flag|done]. }
  intros [] s1 Hm. apply post_bind, post_gets. destruct (has _ DEV_FLAG_DDR); [by apply post_ret|].
  apply post_bind. eapply post_prim; [apply prim_switch|]. intros e s2 He Hs.
  assert (moves s s2) as Hm2. { eapply moves_trans; [exact Hm|]. eapply eff_moves; [exact He|]. intros c _ Hg. by rewrite Hs. }
  destruct (decide (e = EOK)); [|by apply post_ret].
  eapply post_mono; [eapply prim_moves, prim_width|]. intros [] s3 Hm3. by eapply moves_trans.
Qed.
Lemma stays_low : stays low_speed.
Proof.
  intros s. apply post_bind, post_gets, post_bind, post_gets. destruct (has _ _); [apply post_ret, moves_refl|].
  apply post_bind. eapply post_prim; [apply prim_timing|]. intros e s1 He Hs.
  eapply post_mono; [eapply prim_moves, prim_clock|]. intros [] s2 Hm. eapply moves_trans; [|exact Hm].
  eapply eff_moves; [exact He|]. intros c _ Hg. by rewrite Hs.
Qed.
Lemma bus_moves no_buffer transferred buffer s : post (mmc_init_bus no_memory no_buffer transferred buffer) s (fun _ s' => moves s s').
Proof.
  apply post_bind. apply (post_mono _ _ (fun r s1 => s1 = s)).
  { apply post_bind, post_gets. rewrite orb_true_r. by apply post_ret. }
  intros w s0 ->.
  do 6 (apply stays_then;
    [first [apply stays_es|apply stays_400|apply stays_200|apply stays_hs|apply stays_wide|apply stays_low]|first [apply moves_refl|eassumption]|intros]).
  eapply post_mono; [apply block_ok|]. intros e s7 (B1 & B2 & B3 & B4 & B5).
  eapply moves_trans; [eassumption|]. unfold moves. rewrite B1, B3, B4, B5. by repeat split.
Qed.

(** ** A bus error gives something up *)

(** What a bus error takes away, by the mode it came in: a capability for
    good, or a part of the clock that the driver keeps for the mode, of HS or
    of the low speed.  This is what is kept; which mode the link is then in,
    and at what clock, is [in_mode]. *)
Definition gave_up (cap : Z) (s s' : mst C) : Prop :=
  dcaps (dev (cmds s')) = Z.ldiff (dcaps (dev (cmds s))) cap /\ dtr (mdev s') <= dtr (mdev s) /\ m_csd (mdev s') = m_csd (mdev s).
Definition slower (s s' : mst C) : Prop := let x := modes s in
  if has x DEV_FLAG_HS400ES then gave_up DEV_CAP_HS400ES s s' /\ has (modes s') DEV_FLAG_HS400ES = false
  else if has x DEV_FLAG_HS400 then gave_up DEV_CAP_HS400 s s' /\ has (modes s') DEV_FLAG_HS400 = false
  else if has x DEV_FLAG_HS200 then dcaps (dev (cmds s')) = Z.ldiff (dcaps (dev (cmds s))) DEV_CAP_HS200 /\ dtr (mdev s') <= DTR_MAX_HS52 /\
    no_fast (modes s')
  else if has x DEV_FLAG_DDR then gave_up DEV_CAP_DDR50 s s' /\ has (modes s') DEV_FLAG_DDR = false /\ no_fast (modes s')
  else if has x DEV_FLAG_HS then dcaps (dev (cmds s')) = dcaps (dev (cmds s)) /\ no_fast (modes s') /\
    (dtr (mdev s') < dtr (mdev s) \/ dtr (mdev s') <= DTR_MAX_HS26)
  else dcaps (dev (cmds s')) = dcaps (dev (cmds s)) /\
    (dtr_max (m_csd (mdev s')) < dtr_max (m_csd (mdev s)) \/ dtr_max (m_csd (mdev s')) = DTR_MIN_LS).

Lemma allows_self s : allows (dcaps (dev (cmds s))) s.
Proof. by repeat split. Qed.

(** What slow_down leaves. *)
Lemma forget_ok cap flag s : post (forget cap flag) s (fun _ s' => dcaps (dev (cmds s')) = Z.ldiff (dcaps (dev (cmds s))) cap /\
  mdev s' = mdev s /\ modes s' = Z.ldiff (modes s) flag).
Proof.
  apply post_bind. eexists (), _. split; [reflexivity|]. eexists (), _. split; [reflexivity|]. split; [done|]. split; [done|].
  unfold modes, modes_of. simpl. rewrite flags_set. apply land_ldiff.
Qed.
Lemma unflag_ok flag s : post (upd_dflags (fun f => Z.ldiff f flag)) s (fun _ s' => dev (cmds s') = dev (cmds s) /\
  mdev s' = mdev s /\ modes s' = Z.ldiff (modes s) flag).
Proof.
  eexists (), _. split; [reflexivity|]. split; [done|]. split; [done|]. unfold modes, modes_of. simpl. rewrite flags_set. apply land_ldiff.
Qed.
Lemma flag_is x (s : mst C) : Z.land MODES x = x -> has (dev_flags (ctl (cmds s))) x = has (modes s) x.
Proof. intros Hx. by apply flags_eq. Qed.

(** The slow modes stay slow. *)
Lemma bus_slow no_buffer transferred buffer s : dtr (mdev s) <= DTR_MAX_HS52 -> granted (dcaps (dev (cmds s))) (modes s) -> no_fast (modes s) ->
  post (mmc_init_bus no_memory no_buffer transferred buffer) s (fun _ s' => moves s s' /\ no_fast (modes s')).
Proof.
  intros Hd Hg Hf. eapply post_mono; [apply bus_moves|]. intros e s' Hm. split; [done|]. eapply granted_slow.
  destruct Hm as (_ & _ & _ & _ & Hm). apply Hm; [|by apply slow_granted].
  split; [lia|]. split; by rewrite has_kept.
Qed.

(** The clocks of a device that is up: HS has lowered its own, and they are at
    least what a bus error takes off; else the difference wraps. *)
Definition clocks_ok (s : mst C) : Prop := DTR_HS_DEC <= dtr (mdev s) < 2 ^ 32 /\ DTR_LS_DEC <= dtr_max (m_csd (mdev s)) < 2 ^ 32 /\
  (no_fast (modes s) -> modes s = 0 \/ dtr (mdev s) <= DTR_MAX_HS52).
Lemma gave_up_moves cap s s1 s2 : dcaps (dev (cmds s1)) = Z.ldiff (dcaps (dev (cmds s))) cap -> mdev s1 = mdev s -> moves s1 s2 -> gave_up cap s s2.
Proof. intros Hc Hd (M1 & _ & M3 & M4 & _). rewrite Hd in M3, M4. split; [congruence|done]. Qed.
Lemma granted_0 c : granted c 0.
Proof. by apply Forall_forall. Qed.
Lemma granted_hs c x : granted c x -> has x DEV_FLAG_HS = true -> granted c DEV_FLAG_HS.
Proof.
  intros Hg Hx. apply (granted_flag _ _ DEV_CAP_HS).
  - intros g Hi. by repeat (apply elem_of_cons in Hi as [->|Hi]; [done|]); apply not_elem_of_nil in Hi.
  - unfold granted in Hg. rewrite Forall_forall in Hg. apply (Hg (DEV_FLAG_HS, DEV_CAP_HS)); [unfold grants; set_solver|done].
Qed.
Lemma post_unbind {A B} (m : M (mst C) A) (k : A -> M (mst C) B) s Q : post (x ← m; k x) s Q -> post m s (fun a s' => post (k a) s' Q).
Proof. intros (b & s' & E & HQ). unfold mbind, M_bind in E. destruct (m s) as [[a s1]|] eqn:Em; [|done]. exists a, s1. split; [done|]. by exists b, s'. Qed.

(** The modes as mmc_init_bus leaves them. *)
Definition MODE_LIST : list Z := [DEV_FLAG_HS400ES; DEV_FLAG_HS400; DEV_FLAG_HS200; DEV_FLAG_HS; Z.lor DEV_FLAG_HS DEV_FLAG_DDR; 0].

Section error.
Context (no_buffer : list issued -> bool) (transferred : list issued -> list Z) (buffer : Z).
Definition again : M (mst C) errno := mmc_init_bus no_memory no_buffer transferred buffer.

Lemma again_granted s : granted (dcaps (dev (cmds s))) (modes s) -> post again s (fun _ s' => moves s s' /\ granted (dcaps (dev (cmds s'))) (modes s')).
Proof.
  intros Hg. eapply post_mono; [apply bus_moves|]. intros e s' Hm. split; [done|]. pose proof Hm as (M1 & _ & _ & _ & M5).
  rewrite M1. apply M5; [apply allows_self|done].
Qed.
Lemma give_up_ok cap flag s : granted (Z.ldiff (dcaps (dev (cmds s))) cap) (Z.ldiff (modes s) flag) -> (flag, cap) ∈ grants ->
  post (forget cap flag) s (fun _ s1 => mdev s1 = mdev s /\ modes s1 = Z.ldiff (modes s) flag /\
    granted (dcaps (dev (cmds s1))) (modes s1) /\
    forall s', moves s1 s' -> granted (dcaps (dev (cmds s'))) (modes s') -> gave_up cap s s' /\ has (modes s') flag = false).
Proof.
  intros Hg Hi. eapply post_mono; [apply forget_ok|]. intros [] s1 (E1 & E2 & E3). split; [done|]. split; [done|].
  split; [by rewrite E1, E3|]. intros s' Hm Hg'. split; [by eapply gave_up_moves|].
  pose proof Hm as (M1 & _). eapply granted_not; [exact Hg'|exact Hi|]. rewrite M1, E1. apply has_gone. by rewrite Z.land_diag.
Qed.
(** slow_down by the mode, and what the bus is brought up from. *)
Definition error_ok (s : mst C) : Prop := post slow_down s (fun _ s1 => post again s1 (fun _ s' =>
  granted (dcaps (dev (cmds s'))) (modes s') /\ slower s s')).
Ltac cascade Hm := apply post_bind, post_gets; rewrite !flag_is by reflexivity; unfold slower; rewrite Hm; consts.
Ltac known_grant := unfold grants; set_solver.

Lemma error_hs400es s : modes s = DEV_FLAG_HS400ES -> error_ok s.
Proof.
  intros Hm. unfold error_ok, slow_down. cascade Hm.
  eapply post_mono; [apply give_up_ok; [rewrite Hm; apply granted_0|known_grant]|]. intros [] s1 (_ & _ & Hg & Hr).
  eapply post_mono; [by apply again_granted|]. intros e s' [Hm' Hg']. split; [done|]. by apply Hr.
Qed.
Lemma error_hs400 s : modes s = DEV_FLAG_HS400 -> error_ok s.
Proof.
  intros Hm. unfold error_ok, slow_down. cascade Hm.
  eapply post_mono; [apply give_up_ok; [rewrite Hm; apply granted_0|known_grant]|]. intros [] s1 (_ & _ & Hg & Hr).
  eapply post_mono; [by apply again_granted|]. intros e s' [Hm' Hg']. split; [done|]. by apply Hr.
Qed.
Lemma again_slow s : dtr (mdev s) <= DTR_MAX_HS52 -> granted (dcaps (dev (cmds s))) (modes s) -> no_fast (modes s) ->
  post again s (fun _ s' => moves s s' /\ granted (dcaps (dev (cmds s'))) (modes s') /\ no_fast (modes s')).
Proof.
  intros Hd Hg Hf. eapply post_mono; [by apply bus_slow|]. intros e s' [Hm Hn]. split; [done|]. split; [|done].
  pose proof Hm as (M1 & _ & _ & _ & M5). rewrite M1. apply M5; [apply allows_self|done].
Qed.
Lemma error_hs200 s : modes s = DEV_FLAG_HS200 -> error_ok s.
Proof.
  intros Hm. unfold error_ok, slow_down. cascade Hm. apply post_bind.
  eapply post_mono; [apply forget_ok|]. intros [] s1 (E1 & E2 & E3). rewrite Hm in E3. apply post_modify.
  eapply post_mono; [apply again_slow|].
  - done.
  - change (granted (dcaps (dev (cmds s1))) (modes s1)). rewrite E3. apply granted_0.
  - change (no_fast (modes s1)). by rewrite E3.
  - intros e s' ((M1 & _ & _ & M4 & _) & Hg & Hn). split; [done|]. split; [by rewrite M1|]. by split.
Qed.
Lemma error_ddr s : modes s = Z.lor DEV_FLAG_HS DEV_FLAG_DDR -> granted (dcaps (dev (cmds s))) (modes s) -> clocks_ok s -> error_ok s.
Proof.
  intros Hm Hg (_ & _ & Hk). unfold error_ok, slow_down. cascade Hm.
  assert (granted (dcaps (dev (cmds s))) DEV_FLAG_HS) as Hh by (eapply granted_hs; [exact Hg|by rewrite Hm]).
  eapply post_mono; [apply give_up_ok; [rewrite Hm|known_grant]|].
  - change (Z.ldiff (Z.lor DEV_FLAG_HS DEV_FLAG_DDR) DEV_FLAG_DDR) with DEV_FLAG_HS. unfold granted in *. rewrite Forall_forall in *.
    intros g Hi Hx. specialize (Hh g Hi Hx).
    repeat (apply elem_of_cons in Hi as [->|Hi]; [cbn [fst snd] in *; first [done|by rewrite has_kept]|]). by apply not_elem_of_nil in Hi.
  - intros [] s1 (E2 & E3 & Hg1 & Hr). eapply post_mono; [apply again_slow|].
    + rewrite E2. destruct Hk as [Hk|Hk]; [by rewrite Hm|by rewrite Hm in Hk|done].
    + done.
    + by rewrite E3, Hm.
    + intros e s' (Hm' & Hg' & Hn). split; [done|]. destruct (Hr s' Hm' Hg'). by split; [|split].
Qed.
Lemma error_hs s : modes s = DEV_FLAG_HS -> clocks_ok s -> error_ok s.
Proof.
  intros Hm (Hd & _ & Hk). unfold error_ok, slow_down. cascade Hm. apply post_bind.
  eapply post_mono; [apply unflag_ok|]. intros [] s1 (E1 & E2 & E3). rewrite Hm in E3. apply post_modify.
  destruct Hk as [Hk|Hk]; [by rewrite Hm|by rewrite Hm in Hk|].
  set (d := if dtr (mdev s) =? DTR_MAX_HS26 then dtr (mdev s) else Z.max DTR_MAX_HS26 (dtr (mdev s) - DTR_HS_DEC)).
  match goal with |- post again ?s2 _ => assert (dtr (mdev s2) = d) as Ed end.
  { cbn -[Z.eqb Z.max]. rewrite E2. unfold d, dtr in *. destruct (_ =? DTR_MAX_HS26); [done|]. simpl.
    rewrite u32_id; [done|]. unfold DTR_HS_DEC in *. lia. }
  assert (d < dtr (mdev s) \/ d <= DTR_MAX_HS26) as Hd'.
  { unfold d. destruct (Z.eqb_spec (dtr (mdev s)) DTR_MAX_HS26); unfold DTR_MAX_HS26, DTR_HS_DEC in *; lia. }
  eapply post_mono; [apply again_slow|].
  - rewrite Ed. unfold DTR_MAX_HS26, DTR_MAX_HS52 in *. lia.
  - change (granted (dcaps (dev (cmds s1))) (modes s1)). rewrite E3. apply granted_0.
  - change (no_fast (modes s1)). by rewrite E3.
  - intros e s' ((M1 & _ & _ & M4 & _) & Hg & Hn). split; [done|]. split; [by rewrite M1, <- E1|]. split; [done|].
    rewrite Ed in M4. lia.
Qed.
Lemma error_low s : modes s = 0 -> clocks_ok s -> error_ok s.
Proof.
  intros Hm (_ & Hd & _). unfold error_ok, slow_down. cascade Hm. apply post_modify.
  eapply post_mono; [apply again_granted|].
  - change (granted (dcaps (dev (cmds s))) (modes s)). rewrite Hm. apply granted_0.
  - intros e s' [(M1 & _ & M3 & _) Hg]. split; [done|]. split; [done|]. rewrite M3. cbn -[Z.max].
    rewrite u32_id by (unfold DTR_LS_DEC in *; lia). unfold DTR_LS_DEC, DTR_MIN_LS. lia.
Qed.

Lemma post_meet {S A} (m : M S A) s P Q : post m s P -> post m s Q -> post m s (fun a s' => P a s' /\ Q a s').
Proof. intros HP (a & s' & E & HQ). destruct HP as (a1 & s1 & E1 & HP). rewrite E1 in E. injection E as -> ->. by exists a, s'. Qed.

(** But for DDR, which leaves the flag of HS, the bus is brought up again from
    no mode at all. *)
Lemma slow_zero s : modes s ∈ MODE_LIST -> has (modes s) DEV_FLAG_DDR = false ->
  post slow_down s (fun _ s1 => modes s1 = 0 /\ done s1 = done s /\ k_caps s1 = k_caps s).
Proof.
  intros Hi Hx. unfold MODE_LIST in Hi. unfold slow_down. apply post_bind, post_gets. rewrite !flag_is by reflexivity.
  repeat (apply elem_of_cons in Hi as [Hm|Hi]; [rewrite Hm in Hx |- *; consts; try discriminate Hx|]); [..|by apply not_elem_of_nil in Hi];
    eexists (), _; (split; [reflexivity|]); (split; [|split; [done|unfold k_caps; simpl; by rewrite ?caps_dev_flags]]);
    unfold modes, modes_of in *; simpl; by rewrite ?flags_set, ?land_modes_ldiff, Hm.
Qed.
End error.

(** Without a capability there is no flag. *)
Lemma has_part c m b : has c m = false -> Z.land m b = b -> has c b = false.
Proof.
  unfold has. rewrite !negb_false_iff, !Z.eqb_eq. intros Hc <-. by rewrite Z.land_assoc, Hc, Z.land_0_l.
Qed.
Lemma mode_zero d w c s : in_mode d w s -> granted c (modes s) -> has c (Z.lor FAST DEV_CAP_HS) = false -> modes s = 0.
Proof.
  intros Hi Hg Hc.
  assert (forall flag cap x, modes s = x -> has x flag = true -> (flag, cap) ∈ grants -> Z.land (Z.lor FAST DEV_CAP_HS) cap = cap -> False) as Hno.
  { intros flag cap x <- Hf Hin Hm. pose proof (granted_not _ _ flag cap Hg Hin (has_part _ _ _ Hc Hm)). congruence. }
  destruct Hi as [[Hm _]|[[Hm _]|[[Hm _]|[[[Hm _]|[Hm _]]|[Hm _]]]]]; [..|done]; exfalso;
    [apply (Hno DEV_FLAG_HS400ES DEV_CAP_HS400ES _ Hm)|apply (Hno DEV_FLAG_HS400 DEV_CAP_HS400 _ Hm)
    |apply (Hno DEV_FLAG_HS200 (Z.lor DEV_CAP_HS200 DEV_CAP_HS400) _ Hm)|apply (Hno DEV_FLAG_HS DEV_CAP_HS _ Hm)..]; first [done|unfold grants; set_solver].
Qed.

(** ** Tuning *)
Definition tuned_hs200 (m : mmc) (L : link) : Prop := l_hs L = Some (timing_value m ECSD_HS_TIMING_HS200) /\
  l_bw L = Some ECSD_BUS_WIDTH_8 /\ l_tim L = Some TIMING_HS200 /\ l_clk L = dtr m.
Lemma reach_down m l L : follows (down_steps m) l EOK -> tuned_hs200 m (foldl link_step L l).
Proof. unfold down_steps, must, may. intros Hf. unroll. by repeat split. Qed.
Definition retuned (s s' : mst C) : Prop := exists l1 l2, done s' = done s ++ l1 ++ Tuned MMC_SEND_TUNING_BLOCK EOK :: l2 /\
  tuned_hs200 (mdev s) (foldl link_step (link_of (done s)) l1) /\ in_hs400 (mdev s) (link_of (done s')).

Lemma retune_hs400 s : modes s = DEV_FLAG_HS400 -> post (mmc_retune no_memory) s (fun e s' => mdev s' = mdev s /\
  (modes s' = DEV_FLAG_HS400 \/ modes s' = DEV_FLAG_HS200 /\ e <> EOK) /\ (e = EOK -> retuned s s')).
Proof.
  intros Hm. apply post_bind, post_gets. rewrite !flag_is, Hm by reflexivity. consts.
  apply post_bind. eapply post_mono; [apply runs_down|]. intros e1 s1 (l1 & He1 & Hf1 & Hm1). rewrite Hm in Hm1.
  pose proof He1 as (_ & E1 & _). destruct (decide (e1 <> EOK)) as [Hn|Hn].
  { rewrite decide_False in Hm1 by done. apply post_ret. split; [done|]. split; [by left|done]. }
  apply dec_stable in Hn as ->. apply post_bind. eapply post_prim; [apply prim_tune|]. intros e2 s2 He2 Hm2.
  pose proof He2 as (_ & E2 & _). destruct (decide (e2 <> EOK)) as [Hn|Hn].
  { apply post_ret. split; [congruence|]. split; [right; split; [by rewrite Hm2|done]|done]. }
  apply dec_stable in Hn as ->. eapply post_mono; [apply runs_up|]. intros e3 s3 (l3 & He3 & Hf3 & Hm3).
  pose proof He3 as (_ & E3 & _). rewrite Hm2, Hm1 in Hm3. split; [congruence|]. split.
  { destruct (decide (e3 = EOK)); [by left|by right]. }
  intros ->. exists l1, l3. pose proof (eff_trans _ _ _ _ _ (eff_trans _ _ _ _ _ He1 He2) He3) as He.
  pose proof He as (_ & _ & _ & Ed & _). split; [by rewrite Ed, <- app_assoc|]. split; [by apply reach_down|].
  rewrite (eff_link _ _ _ He), foldl_app. rewrite <- E1, <- E2. by apply reach_hs400.
Qed.
Lemma retune_else s : has (modes s) DEV_FLAG_HS400 = false -> post (mmc_retune no_memory) s (fun e s' =>
  eff s s' [Tuned MMC_SEND_TUNING_BLOCK e] /\ modes s' = modes s).
Proof.
  intros Hm. apply post_bind, post_gets. rewrite !flag_is, Hm by reflexivity. apply post_bind, post_ret. cbn.
  apply post_bind. eapply post_prim; [apply prim_tune|]. intros e s' He Hs. destruct (decide (e <> EOK)) as [Hn|Hn].
  { by apply post_ret. }
  apply dec_stable in Hn as ->. by apply post_ret.
Qed.
End modes.
