(* ===== verification/MmcEcsd.v ===== *)
(** * The modes that the extended CSD offers

    mmc_parse_ext_csd of MmcBus.v gives the device the capability of a mode
    when the controller and the device both have it, at a voltage of both. *)
From S2P Require Import Prelude Driver SdioReg SdioConst SimConst MmcConst Sdhci SdioCmd SdioSend SdioCard MmcBus MmcPlan MmcLink MmcMode.
Open Scope Z_scope.

(** ** What is offered

    A mode that the controller has ([k] are its capabilities) and the device
    has ([t] are the types of its register), at a voltage that both have. *)
Definition SPEED : Z := Z.lor DEV_CAP_HS400ES (Z.lor DEV_CAP_HS400 (Z.lor DEV_CAP_HS200 (Z.lor DEV_CAP_DDR50 DEV_CAP_HS))).
Definition at_voltage (k t : Z) (l : list (Z * Z)) : bool := existsb (fun x => has k (fst x) && has t (snd x)) l.
Definition off_hs400 (k t : Z) : bool := has k HC_CAP_HS400 &&
  at_voltage k t [(HC_CAP_SV_1_8V, ECSD_CARD_TYPE_HS400_1_8V); (HC_CAP_SV_1_2V, ECSD_CARD_TYPE_HS400_1_2V)].
Definition off_hs200 (k t : Z) : bool := has k HC_CAP_HS200 &&
  at_voltage k t [(HC_CAP_SV_1_8V, ECSD_CARD_TYPE_HS200_1_8V); (HC_CAP_SV_1_2V, ECSD_CARD_TYPE_HS200_1_2V)].
Definition off_hs (k t : Z) : bool := has k HC_CAP_HS && has t ECSD_CARD_TYPE_52MHZ.
Definition off_ddr (k t : Z) : bool := has k HC_CAP_DDR50 &&
  at_voltage k t [(Z.lor HC_CAP_SV_3_0V HC_CAP_SV_1_8V, ECSD_CARD_TYPE_DDR_1_8V); (HC_CAP_SV_1_2V, ECSD_CARD_TYPE_DDR_1_2V)].

(** The enhanced strobe, which the register has from revision 5.1 on. *)
Definition strobe_in (l : list Z) : bool := let r i := default 0 (l !! Z.to_nat i) in
  (ECSD_REV_V5_1 <=? r ECSD_REV) && negb (r ECSD_STROBE_SUPPORT =? 0).
Definition off_hs400es (k : Z) (l : list Z) : bool := has k HC_CAP_HS400ES && strobe_in l.
Definition card_types (l : list Z) : Z := Z.land (default 0 (l !! Z.to_nat ECSD_CARD_TYPE)) ECSD_CARD_TYPE_MSK.
Definition offered (k : Z) (l : list Z) (c : Z) : Prop := let t := card_types l in
  has c DEV_CAP_HS400ES = off_hs400es k l /\
  has c DEV_CAP_HS400 = off_hs400 k t /\ has c DEV_CAP_HS200 = off_hs200 k t /\ has c DEV_CAP_DDR50 = off_ddr k t /\
  has c DEV_CAP_HS = off_hs400 k t || off_hs200 k t || off_hs k t.

(** A controller with the enhanced strobe has HS400 without it too. *)
Definition strobe_extra (k : Z) : Prop := has k HC_CAP_HS400ES = true -> has k HC_CAP_HS400 = true.
Lemma hs400_caps k : strobe_extra k -> has k HS400_caps = has k HC_CAP_HS400.
Proof. intros Hk. unfold HS400_caps. rewrite has_or_r. unfold strobe_extra in Hk. destruct (has k HC_CAP_HS400ES); [by rewrite Hk|by rewrite orb_false_r]. Qed.
Definition best_clock (k t : Z) : Z :=
  if off_hs400 k t || off_hs200 k t then DTR_MAX_HS200 else if off_hs k t then DTR_MAX_HS52 else DTR_MAX_HS26.
(** Large sectors of a size that is not known. *)
Definition odd_sectors (l : list Z) : bool := let r i := default 0 (l !! Z.to_nat i) in
  (ECSD_REV_V4_5 <=? r ECSD_REV) && has (r ECSD_USE_NATIVE_SECTOR) ECSD_USE_NATIVE_SECTOR_EN &&
  negb (Z.land (r ECSD_NATIVE_SECTOR_SIZE) ECSD_NATIVE_SECTOR_MSK =? ECSD_NATIVE_SECTOR_512) &&
  negb (Z.land (r ECSD_NATIVE_SECTOR_SIZE) ECSD_NATIVE_SECTOR_MSK =? ECSD_NATIVE_SECTOR_4K).

Section ecsd.
Context {C : Type} `{hc_entry_laws C}.
Definition speed (s : mst C) : Z := Z.land (dcaps (dev (cmds s))) SPEED.

(** A part that offers no mode. *)
Definition even (s s' : mst C) : Prop := raw_ecsd (mdev s') = raw_ecsd (mdev s) /\ k_caps s' = k_caps s /\ speed s' = speed s.
Definition plainly {A} (m : M (mst C) A) : Prop := forall s, post m s (fun _ s' => even s s').
Lemma even_refl s : even s s.
Proof. done. Qed.
Lemma even_trans s s1 s2 : even s s1 -> even s1 s2 -> even s s2.
Proof. intros (A1 & A2 & A3) (B1 & B2 & B3). repeat split; congruence. Qed.
Lemma plainly_ret {A} (a : A) : plainly (mret a).
Proof. intros s. apply post_ret, even_refl. Qed.
Lemma plainly_gets {A} (f : mst C -> A) : plainly (gets f).
Proof. intros s. apply post_gets, even_refl. Qed.
Lemma plainly_bind {A B} (m : M (mst C) A) (f : A -> M (mst C) B) : plainly m -> (forall a, plainly (f a)) -> plainly (x ← m; f x).
Proof.
  intros Hm Hf s. apply post_bind. eapply post_mono; [apply Hm|]. intros a s1 H1. eapply post_mono; [apply Hf|].
  intros b s2 H2. exact (even_trans _ _ _ H1 H2).
Qed.
Lemma plainly_caps f : (forall c, Z.land (f c) SPEED = Z.land c SPEED) -> plainly (upd_caps (C:=C) f).
Proof. intros Hf s. apply post_modify. split; [done|]. split; [done|]. apply Hf. Qed.
Lemma plainly_add v : Z.land v SPEED = 0 -> plainly (add_caps (C:=C) v).
Proof. intros Hv. apply plainly_caps. intros c. by rewrite Z.land_lor_distr_l, Hv, Z.lor_0_r. Qed.
Lemma plainly_mdev f : (forall m, raw_ecsd (f m) = raw_ecsd m) -> plainly (modify (upd_mdev (C:=C) f)).
Proof. intros Hf s. apply post_modify. split; [apply Hf|done]. Qed.
Lemma plainly_ecsd f : plainly (upd_ecsd (C:=C) f).
Proof. by apply plainly_mdev. Qed.
Lemma plainly_flags f : plainly (upd_dflags (C:=C) f).
Proof. intros s. eexists (), _. split; [reflexivity|]. split; [done|]. split; [apply caps_dev_flags|done]. Qed.
Lemma plainly_active p : plainly (modify (upd_cmds (C:=C) (upd_dev (set_pactive p)))).
Proof. intros s. apply post_modify. by split. Qed.
Definition ends_well (m : M (mst C) errno) : Prop := forall s, post m s (fun e s' => even s s' /\ e = EOK).
Lemma well_ret : ends_well (mret EOK).
Proof. intros s. apply post_ret. by split. Qed.
Lemma well_bind {A} (m : M (mst C) A) f : plainly m -> (forall a, ends_well (f a)) -> ends_well (x ← m; f x).
Proof.
  intros Hm Hf s. apply post_bind. eapply post_mono; [apply Hm|]. intros a s1 H1. eapply post_mono; [apply Hf|].
  intros e s2 [H2 ->]. split; [exact (even_trans _ _ _ H1 H2)|done].
Qed.
Create HintDb plainly.
Hint Resolve plainly_ret plainly_gets plainly_ecsd plainly_flags plainly_active : plainly.
Hint Extern 1 (plainly (raw _)) => apply plainly_gets : plainly.
Hint Extern 1 (plainly ecsd) => apply plainly_gets : plainly.
Hint Extern 1 (plainly hcaps) => apply plainly_gets : plainly.
Hint Extern 1 (plainly (add_caps _)) => apply plainly_add; reflexivity : plainly.
Ltac plainly := repeat (first
  [ solve [auto 2 with plainly] | apply plainly_bind; [|intros ?] | match goal with |- plainly (if ?b then _ else _) => destruct b end ]; cbv zeta).

Lemma plainly_v4_2 : plainly (ecsd_v4_2 (C:=C)).
Proof. unfold ecsd_v4_2. plainly. Qed.
Lemma plainly_v4_3 : plainly (ecsd_v4_3 (C:=C)).
Proof. unfold ecsd_v4_3. plainly. by apply plainly_mdev. Qed.
Lemma plainly_v4_4 : plainly (ecsd_v4_4 (C:=C)).
Proof. unfold ecsd_v4_4. plainly. Qed.
Lemma plainly_v4_41 : plainly (ecsd_v4_41 (C:=C)).
Proof. unfold ecsd_v4_41. plainly. apply plainly_mdev. intros m. by destruct (_ <? _). Qed.
Lemma v4_5_ok s : post (ecsd_v4_5 (C:=C)) s (fun e s' => even s s' /\
  (ECSD_REV_V4_5 <= default 0 (raw_ecsd (mdev s) !! Z.to_nat ECSD_REV) -> e = if odd_sectors (raw_ecsd (mdev s)) then EINVAL else EOK)).
Proof.
  unfold ecsd_v4_5. apply post_bind, post_gets, post_bind, post_gets, post_bind. unfold odd_sectors. cbv zeta.
  match goal with |- context [has (default 0 (raw_ecsd (mdev s) !! ?i)) ECSD_USE_NATIVE_SECTOR_EN] => set (u := has (default 0 (raw_ecsd (mdev s) !! i)) _) end.
  match goal with |- context [Z.land (default 0 (raw_ecsd (mdev s) !! ?i)) ECSD_NATIVE_SECTOR_MSK] => set (n := Z.land (default 0 (raw_ecsd (mdev s) !! i)) _) end.
  apply (post_mono _ _ (fun e s1 => even s s1 /\
    e = if u && negb (n =? ECSD_NATIVE_SECTOR_512) && negb (n =? ECSD_NATIVE_SECTOR_4K) then EINVAL else EOK)).
  { destruct u; [|by apply post_ret]. apply post_bind, post_gets. destruct (n =? ECSD_NATIVE_SECTOR_512).
    { apply post_bind. eapply post_mono; [apply plainly_ecsd|]. intros [] s1 Hs. by apply post_ret. }
    destruct (n =? ECSD_NATIVE_SECTOR_4K); [|by apply post_ret].
    apply post_bind. eapply post_mono; [apply plainly_ecsd|]. intros [] s1 Hs. by apply post_ret. }
  intros e s1 [Hs ->]. destruct (u && _ && _) eqn:Eu.
  - apply post_ret. split; [done|]. intros Hr. apply Z.leb_le in Hr. rewrite Hr. cbn [andb]. by rewrite Eu.
  - destruct (decide (EOK <> EOK)); [done|].
    match goal with |- post ?m s1 _ => assert (ends_well m) as Hk end.
    { repeat (apply well_bind; [solve [plainly]|intros ?]).
      apply well_bind; [apply plainly_mdev; intros m; by case_match|intros []].
      repeat (apply well_bind; [solve [plainly]|intros ?]). apply well_ret. }
    eapply post_mono; [apply Hk|]. intros e s2 [H2 ->]. split; [exact (even_trans _ _ _ Hs H2)|]. intros Hr.
    apply Z.leb_le in Hr. rewrite Hr. cbn [andb]. by rewrite Eu.
Qed.

(** One mode. *)
Definition at_state (c d : Z) (s s' : mst C) : Prop :=
  raw_ecsd (mdev s') = raw_ecsd (mdev s) /\ k_caps s' = k_caps s /\ dcaps (dev (cmds s')) = c /\ dtr (mdev s') = d.
Lemma offer_ok (b : bool) v d s : post (if b then add_caps (C:=C) v;; upd_ecsd (set_dtr_max_hs d) else mret ()) s (fun _ s' =>
  at_state (if b then Z.lor (dcaps (dev (cmds s))) v else dcaps (dev (cmds s))) (if b then d else dtr (mdev s)) s s').
Proof. destruct b; [|by apply post_ret]. apply post_bind, post_modify, post_modify. by repeat split. Qed.
Lemma at_then c d s s1 s2 c' d' : at_state c d s s1 -> at_state c' d' s1 s2 -> at_state c' d' s s2.
Proof. intros (A1 & A2 & _) (B1 & B2 & B3 & B4). repeat split; congruence. Qed.
Lemma voltage_any k a t b c : common_voltage k a t b c = at_voltage k t [(a, b); (HC_CAP_SV_1_2V, c)].
Proof. unfold common_voltage, at_voltage. cbn [existsb fst snd]. by rewrite orb_false_r. Qed.
Lemma type_any x t all sv18 k b c : Z.lor b c = all ->
  x && has t all && at_voltage k t [(sv18, b); (HC_CAP_SV_1_2V, c)] = x && at_voltage k t [(sv18, b); (HC_CAP_SV_1_2V, c)].
Proof.
  intros <-. rewrite has_or_r. unfold at_voltage. cbn [existsb fst snd]. rewrite orb_false_r.
  by destruct x, (has t b), (has t c), (has k sv18), (has k HC_CAP_SV_1_2V).
Qed.
Definition has_speeds (c : Z) (es h4 h2 h d : bool) : Prop :=
  has c DEV_CAP_HS400ES = es /\ has c DEV_CAP_HS400 = h4 /\ has c DEV_CAP_HS200 = h2 /\ has c DEV_CAP_HS = h /\ has c DEV_CAP_DDR50 = d.
Lemma speeds_lor c v es h4 h2 h d : has_speeds c es h4 h2 h d ->
  has_speeds (Z.lor c v) (es || has v DEV_CAP_HS400ES) (h4 || has v DEV_CAP_HS400) (h2 || has v DEV_CAP_HS200) (h || has v DEV_CAP_HS)
    (d || has v DEV_CAP_DDR50).
Proof. intros (<- & <- & <- & <- & <-). unfold has_speeds. by rewrite !has_or. Qed.
Lemma speeds_if (b : bool) c v es h4 h2 h d es' h4' h2' h' d' : has_speeds c es h4 h2 h d -> es' = es || b && has v DEV_CAP_HS400ES ->
  h4' = h4 || b && has v DEV_CAP_HS400 -> h2' = h2 || b && has v DEV_CAP_HS200 -> h' = h || b && has v DEV_CAP_HS ->
  d' = d || b && has v DEV_CAP_DDR50 -> has_speeds (if b then Z.lor c v else c) es' h4' h2' h' d'.
Proof. intros Hc -> -> -> -> ->. destruct b; [by apply speeds_lor|]. by rewrite !orb_false_r. Qed.
Lemma speeds_none c : Z.land c SPEED = 0 -> has_speeds c false false false false false.
Proof.
  intros Hc. assert (has c SPEED = false) as Hs by (unfold has; by rewrite Hc). unfold SPEED in Hs. rewrite !has_or_r in Hs.
  do 3 apply orb_false_elim in Hs as [? Hs]. by apply orb_false_elim in Hs as [? ?].
Qed.

(** Only the part of revision 5.1 gives HS400ES. *)
Lemma v5_1_ok s : speed s = 0 -> post (from_rev (C:=C) (default 0 (raw_ecsd (mdev s) !! Z.to_nat ECSD_REV)) ECSD_REV_V5_1 ecsd_v5_1) s
  (fun _ s' => raw_ecsd (mdev s') = raw_ecsd (mdev s) /\ k_caps s' = k_caps s /\
    has_speeds (dcaps (dev (cmds s'))) (off_hs400es (k_caps s) (raw_ecsd (mdev s))) false false false false).
Proof.
  intros Hs%speeds_none. unfold from_rev, off_hs400es, strobe_in. cbv zeta. destruct (_ <=? _).
  2:{ rewrite andb_false_r. by apply post_ret. }
  unfold ecsd_v5_1. apply post_bind, post_gets. cbn [andb].
  set (b := negb (default 0 (raw_ecsd (mdev s) !! Z.to_nat ECSD_STROBE_SUPPORT) =? 0)).
  apply post_bind, post_modify, post_bind, post_gets. change (hc_caps (ctl (cmds (upd_mdev _ s)))) with (k_caps s).
  apply post_bind, (post_mono _ _ (fun _ s1 => raw_ecsd (mdev s1) = raw_ecsd (mdev s) /\ k_caps s1 = k_caps s /\
    has_speeds (dcaps (dev (cmds s1))) (has (k_caps s) HC_CAP_HS400ES && b) false false false false)).
  { destruct (has (k_caps s) HC_CAP_HS400ES && b).
    - apply post_modify. split; [done|]. split; [done|]. exact (speeds_lor _ DEV_CAP_HS400ES _ _ _ _ _ Hs).
    - by apply post_ret. }
  intros [] s1 (R1 & K1 & S1). apply post_modify. split; [done|]. split; [done|]. simpl. destruct (has _ DEV_CAP_BKOPS); [|done].
  eapply (speeds_if true); [exact S1|by rewrite ?orb_false_r..].
Qed.

Lemma modes_ok es s : has_speeds (dcaps (dev (cmds s))) es false false false false -> strobe_extra (k_caps s) ->
  es = off_hs400es (k_caps s) (raw_ecsd (mdev s)) -> post (ecsd_modes (C:=C)) s (fun _ s' => let k := k_caps s in let l := raw_ecsd (mdev s) in
    raw_ecsd (mdev s') = l /\ k_caps s' = k /\ offered k l (dcaps (dev (cmds s'))) /\ dtr (mdev s') = best_clock k (card_types l)).
Proof.
  intros Hs Hx Ees. cbv zeta. unfold offered. rewrite <- Ees. cbv zeta. set (k := k_caps s) in *. set (t := card_types (raw_ecsd (mdev s))).
  unfold ecsd_modes. apply post_bind, post_gets, post_bind, post_gets. fold k.
  change (Z.land _ ECSD_CARD_TYPE_MSK) with t. apply post_bind, post_modify.
  match goal with |- post _ ?x _ => set (s0 := x) end. rewrite !voltage_any, !type_any by reflexivity.
  change (hc_caps (ctl (cmds s))) with k. rewrite (hs400_caps k Hx). fold (off_hs400 k t) (off_hs200 k t) (off_ddr k t).
  apply post_bind. eapply post_mono; [apply offer_ok|]. intros [] s1 A1.
  apply post_bind. eapply post_mono; [apply offer_ok|]. intros [] s2 A2. apply post_bind, post_gets.
  apply post_bind. eapply post_mono; [apply offer_ok|]. intros [] s3 A3. apply post_bind, post_gets.
  apply post_bind. apply (post_mono _ _ (fun _ s4 => at_state (dcaps (dev (cmds s3)))
    (if has (dcaps (dev (cmds s3))) DEV_CAP_HS then dtr (mdev s3) else DTR_MAX_HS26) s3 s4)).
  { destruct (has (dcaps (dev (cmds s3))) DEV_CAP_HS); [by apply post_ret|by apply post_modify]. }
  intros [] s4 A4. apply (post_mono _ _ (fun _ s5 => at_state
    (if off_ddr k t then Z.lor (dcaps (dev (cmds s4))) DEV_CAP_DDR50 else dcaps (dev (cmds s4))) (dtr (mdev s4)) s4 s5)).
  { destruct (off_ddr k t); [by apply post_modify|by apply post_ret]. }
  intros [] s5 A5. assert (at_state (dcaps (dev (cmds s5))) (dtr (mdev s5)) s0 s5) as (R & K & _).
  { eapply at_then; [exact A1|]. eapply at_then; [exact A2|]. eapply at_then; [exact A3|]. eapply at_then; [exact A4|].
    destruct A5 as (? & ? & ? & ?). by repeat split. }
  split; [exact R|]. split; [exact K|]. destruct A1 as (_ & _ & C1 & D1), A2 as (_ & _ & C2 & D2), A3 as (_ & _ & C3 & D3),
    A4 as (_ & _ & C4 & D4), A5 as (_ & _ & C5 & D5).
  assert (has_speeds (dcaps (dev (cmds s1))) es (off_hs400 k t) false (off_hs400 k t) false) as S1.
  { rewrite C1. eapply speeds_if; [exact Hs|..]; by destruct es, (off_hs400 k t). }
  assert (has_speeds (dcaps (dev (cmds s2))) es (off_hs400 k t) (off_hs200 k t) (off_hs400 k t || off_hs200 k t) false) as S2.
  { rewrite C2. eapply speeds_if; [exact S1|..]; by destruct es, (off_hs400 k t), (off_hs200 k t). }
  destruct S2 as (S2e & S24 & S22 & S2 & S2d). rewrite S2, <- andb_assoc in C3, D3.
  fold (off_hs k t) in C3, D3.
  assert (has_speeds (dcaps (dev (cmds s3))) es (off_hs400 k t) (off_hs200 k t) (off_hs400 k t || off_hs200 k t || off_hs k t) false) as S3.
  { rewrite C3. eapply speeds_if; [by repeat split|..]; rewrite ?S2e, ?S24, ?S22, ?S2, ?S2d; by destruct es, (off_hs400 k t), (off_hs200 k t), (off_hs k t). }
  destruct S3 as (S3e & S34 & S32 & S3 & S3d). rewrite S3 in D4. split.
  - assert (has_speeds (dcaps (dev (cmds s5))) es (off_hs400 k t) (off_hs200 k t) (off_hs400 k t || off_hs200 k t || off_hs k t) (off_ddr k t)) as (? & ? & ? & ? & ?).
    { rewrite C5, C4. eapply speeds_if; [by repeat split|..]; rewrite ?S3e, ?S34, ?S32, ?S3, ?S3d; by destruct es, (off_hs400 k t), (off_hs200 k t), (off_hs k t), (off_ddr k t). }
    by repeat split.
  - rewrite D5, D4, D3, D2, D1. unfold best_clock. by destruct (off_hs400 k t), (off_hs200 k t), (off_hs k t).
Qed.

Lemma default_ok i s : post (default_time (C:=C) i) s (fun _ s' => k_caps s' = k_caps s /\ dcaps (dev (cmds s')) = dcaps (dev (cmds s)) /\ dtr (mdev s') = dtr (mdev s)).
Proof. apply post_bind, post_gets, post_bind, post_gets. destruct (_ =? 0); [by apply post_bind, post_modify, post_modify|by apply post_ret]. Qed.
Lemma times_ok s : post (ecsd_times (C:=C)) s (fun _ s' => k_caps s' = k_caps s /\ dcaps (dev (cmds s')) = dcaps (dev (cmds s)) /\ dtr (mdev s') = dtr (mdev s)).
Proof.
  apply post_bind. eapply post_mono; [apply default_ok|]. intros [] s1 (A1 & A2 & A3).
  apply post_bind. eapply post_mono; [apply default_ok|]. intros [] s2 (B1 & B2 & B3).
  do 4 apply post_bind, post_gets. apply post_modify. unfold k_caps, dtr in *. simpl.
  repeat split; congruence.
Qed.
Lemma plainly_from rev v m : plainly m -> plainly (from_rev (C:=C) rev v m).
Proof. intros Hm. unfold from_rev. destruct (v <=? rev); [done|apply plainly_ret]. Qed.

Lemma plain_then {A B} (m : M (mst C) A) (f : A -> M (mst C) B) s0 s Q : plainly m -> even s0 s ->
  (forall a s1, even s0 s1 -> post (f a) s1 Q) -> post (x ← m; f x) s Q.
Proof.
  intros Hm H1 Hf. apply post_bind. eapply post_mono; [apply Hm|]. intros a s1 H2. apply Hf. exact (even_trans _ _ _ H1 H2).
Qed.
Lemma parse_ok s : speed s = 0 -> strobe_extra (k_caps s) -> post (mmc_parse_ext_csd (C:=C)) s (fun e s' => let l := raw_ecsd (mdev s) in
  let k := k_caps s in e = (if odd_sectors l then EINVAL else EOK) /\
  (e = EOK -> k_caps s' = k /\ offered k l (dcaps (dev (cmds s'))) /\ dtr (mdev s') = best_clock k (card_types l))).
Proof.
  intros Hs Hx. cbv zeta. apply post_bind, post_gets. set (rev := default 0 (raw_ecsd (mdev s) !! Z.to_nat ECSD_REV)).
  match goal with |- post ?m _ _ => assert (forall s1, even s s1 -> post m s1 (fun e s' => e = (if odd_sectors (raw_ecsd (mdev s)) then EINVAL else EOK) /\
    (e = EOK -> k_caps s' = k_caps s /\ offered (k_caps s) (raw_ecsd (mdev s)) (dcaps (dev (cmds s'))) /\
      dtr (mdev s') = best_clock (k_caps s) (card_types (raw_ecsd (mdev s)))))) as Hk; [|apply Hk, even_refl] end.
  intros s1 H1.
  do 7 (eapply plain_then; [|exact H1|clear dependent s1; intros _ s1 H1];
    [first [apply plainly_ecsd|apply plainly_active|apply plainly_add; reflexivity|apply plainly_from;
      first [apply plainly_v4_2|apply plainly_v4_3|apply plainly_v4_4|apply plainly_v4_41]]|]).
  apply post_bind.
  apply (post_mono _ _ (fun e s3 => even s s3 /\ e = if odd_sectors (raw_ecsd (mdev s)) then EINVAL else EOK)).
  { destruct (Z.leb_spec ECSD_REV_V4_5 rev) as [Hr|Hr].
    - eapply post_mono; [apply v4_5_ok|]. intros e s3 [H3 He]. split; [exact (even_trans _ _ _ H1 H3)|].
      destruct H1 as (E & _). rewrite E in He. by apply He.
    - apply post_ret. split; [done|]. unfold odd_sectors. fold rev. cbv zeta. by rewrite (proj2 (Z.leb_gt _ _) Hr). }
  intros e s3 [H3 ->]. destruct (odd_sectors _); [by apply post_ret|]. destruct (decide (EOK <> EOK)); [done|].
  destruct H3 as (R3 & K3 & S3). unfold rev. rewrite <- R3. apply post_bind.
  eapply post_mono; [apply v5_1_ok; by rewrite S3|]. rewrite R3, K3. intros [] s4 (R4 & K4 & S4).
  apply post_bind. eapply post_mono; [eapply modes_ok; [exact S4|by rewrite K4|by rewrite R4, K4]|]. rewrite R4, K4. intros [] s5 (R5 & K5 & O5 & D5).
  apply post_bind. eapply post_mono; [apply times_ok|]. intros [] s6 (K6 & C6 & D6). apply post_ret.
  split; [done|]. intros _. split; [congruence|]. split; [by rewrite C6|congruence].
Qed.
End ecsd.
