(* ===== verification/MmcProp.v ===== *)
(** * What holds of bringing up an eMMC

    The theorems on the modes of the link, from the lemmas of MmcLink.v,
    MmcMode.v and MmcEcsd.v, and a controller that does what it is told. *)
From S2P Require Import Prelude Driver SdioReg SdioConst SimConst MmcConst Sdhci SdioCmd SdioSend SdioCard MmcBus MmcPlan MmcLink MmcMode MmcEcsd.
Open Scope Z_scope.

(** ** A controller that does what it is told *)
#[export] Instance slot_bus : bus_entry slot := {|
  entry_timing _ := mret EOK; entry_bus_width _ := mret EOK; entry_tune _ := mret EOK
|}.
Definition example_hc : sdio_hc_entry slot := slot_entry good 0x300000.
Definition example_laws : @hc_entry_laws slot example_hc := good_laws.
Lemma slot_calm {A} (a : A) : @calm slot example_hc A (mret a).
Proof. intros k. by apply post_ret. Qed.
Definition slot_bus_laws : @bus_laws slot example_hc example_laws slot_bus.
Proof.
  split; try done.
  - intros c t k e c' k' [= _ _ <-]. done.
  - intros t. apply slot_calm.
  - intros t. apply slot_calm.
  - apply slot_calm.
  - intros t. apply slot_calm.
  - intros t. apply slot_calm.
Qed.
Lemma slot_obedient : @obedient slot example_hc slot_bus.
Proof. by split; intros ? ? ? ? [= <- _]. Qed.
Definition every_mode : Z := Z.lor HC_CAP_HS400ES (Z.lor HC_CAP_HS400 (Z.lor HC_CAP_HS200 (Z.lor HC_CAP_DDR50 (Z.lor HC_CAP_HS
  (Z.lor HC_CAP_BW8 HC_CAP_SV_1_8V))))).
Definition mmc_csd : csd := set_dtr_max 26000000 (mmc_parse_csd [0; 0; 0; 0]).
Definition mmc_cid : cid := Cid 0 0 [] 0 0 0 0.
Definition known_as (t d : Z) : sdio_ecsd := set_card_type t (set_dtr_max_hs d no_ecsd).
(** A device with the capabilities [c], in the modes [x]. *)
Definition fast_mmc (c x : Z) : mst slot :=
  Mst (Cst (Slot every_mode 0 x) (Dev c 1 512 0 512 0 0 [0; 0; 0; 0] 0 []) [])
    (Mmc mmc_csd mmc_cid (known_as 0x57 DTR_MAX_HS200) [] 0 0 0 0) [].
Definition nothing : list issued -> list Z := fun _ => [].
Definition all_caps : Z := Z.lor DEV_CAP_HC (Z.lor FAST (Z.lor DEV_CAP_HS DEV_CAP_DDR50)).

Section props.
Context {C : Type} `{bus_laws C} (no_memory no_buffer : list issued -> bool).
Context (transferred : list issued -> list Z) (buffer : Z).

(** C19 (kind: refinement): when mmc_init_bus ends, from no mode at all, the
    mode flags of the driver name the mode that the link is in, by what each
    side acknowledged ([in_mode]):
    - HS400ES and HS200: HS_TIMING and BUS_WIDTH of the device and the timing,
      width and clock of the controller are those of the mode, and HS200 is
      tuned;
    - HS400: the same, but the width of the controller and the tuning only if
      the steps of HS200 on the way succeeded, since the code goes on to HS400
      when they fail ([via_hs200]);
    - the flag of HS200 can also be left when HS200 was reached and tuned and a
      step from there to HS400 failed, and HS200 was not entered again
      ([half_way]); no other flag is left over;
    - HS, with DDR or without: HS_TIMING of the device, the timing and clock of
      the controller, and the width of both where the device took it;
    - no flag: the timing and the clock of the low speed at the controller.
    The results of setting a width, a clock, the timing of DDR and that of the
    low speed are dropped by the code: where the controller refused one, what
    it is set to is unknown, and the refusal is among the events of the call
    ([took]).  A controller that takes every timing and width has none. *)
Theorem bus_mode_agrees s : modes s = 0 -> post (mmc_init_bus no_memory no_buffer transferred buffer) s (fun _ s' =>
  in_mode (done s) (widest (k_caps s)) s' /\ (obedient C -> ~ seen (done s) (done s') (has_event refuses_setting))).
Proof. intros Hm. eapply post_mono; [by apply bus_ok|]. intros e s' [Hk Hi]. split; [done|]. intros Ho. exact (kept_heeds _ _ Ho Hk). Qed.

(** C21 (kind: safety): mmc_init_bus writes HS200 or HS400 to HS_TIMING only
    after the controller took a voltage, of 1.2 V and 1.8 V, that it has as a
    capability and that the type of the device allows for such a mode. *)
Theorem volts_before_fast s : modes s = 0 -> post (mmc_init_bus no_memory no_buffer transferred buffer) s (fun _ s' =>
  exists l, done s' = done s ++ l /\ volts_first (k_caps s) (card_type (m_ecsd (mdev s))) l).
Proof. intros Hm. eapply post_mono; [by apply bus_ok|]. by intros e s' [(_ & _ & _ & l & ? & ? & _) _]; exists l. Qed.


(** C29 (kind: functional): mmc_retune in HS400 tunes with both sides in
    HS200, over eight bits, and when it succeeds both are in HS400 again; a
    failure leaves the flag of one of the two.  In another mode it only
    tunes. *)
Theorem retune_returns s :
  (modes s = DEV_FLAG_HS400 -> post (mmc_retune no_memory) s (fun e s' => mdev s' = mdev s /\
    (modes s' = DEV_FLAG_HS400 \/ modes s' = DEV_FLAG_HS200 /\ e <> EOK) /\ (e = EOK -> retuned s s'))) /\
  (has (modes s) DEV_FLAG_HS400 = false -> post (mmc_retune no_memory) s (fun e s' =>
    eff s s' [Tuned MMC_SEND_TUNING_BLOCK e] /\ modes s' = modes s)).
Proof. split; [apply retune_hs400|apply retune_else]. Qed.

(** C30 (kind: functional): mmc_parse_ext_csd fails for a native sector of an
    unknown size alone; else a new device has HS400, HS200 and DDR as
    capabilities exactly when the controller and the device both have the mode
    at a voltage of both, HS with the first two or when both have 52 MHz, and
    the clock of the fastest of them.  HS400ES it has exactly when the
    controller has it and the register, from revision 5.1 on, the strobe; its
    voltage is asked for when it is entered.  The controller is assumed to
    have HS400 if it has HS400ES: with the latter alone the code gives the
    device HS400 too ([strobe_alone]). *)
Theorem ext_csd_offers s : speed s = 0 -> strobe_extra (k_caps s) -> post mmc_parse_ext_csd s (fun e s' => let l := raw_ecsd (mdev s) in
  let k := k_caps s in e = (if odd_sectors l then EINVAL else EOK) /\
  (e = EOK -> k_caps s' = k /\ offered k l (dcaps (dev (cmds s'))) /\ dtr (mdev s') = best_clock k (card_types l))).
Proof. apply parse_ok. Qed.
End props.

(** ** At a concrete input *)
Definition link_up (s : mst slot) : option (errno * mst slot) :=
  @mmc_init_bus slot example_hc slot_bus memory memory nothing 0 s.
Definition flags_of (r : option (errno * mst slot)) : option (errno * Z) := option_map (fun x => (fst x, tdev (ctl (cmds (snd x))))) r.

Lemma bus_mode_agrees_witness : flags_of (link_up (fast_mmc all_caps 0)) = Some (EOK, DEV_FLAG_HS400ES) /\
  flags_of (link_up (fast_mmc (Z.ldiff all_caps FAST) 0)) = Some (EOK, Z.lor DEV_FLAG_HS DEV_FLAG_DDR) /\
  post (@mmc_init_bus slot example_hc slot_bus memory memory nothing 0) (fast_mmc all_caps 0) (fun _ s' =>
    @in_mode slot example_hc [] BUS_WIDTH_8 s' /\ ~ seen [] (done s') (has_event refuses_setting)).
Proof.
  split; [vm_compute; reflexivity|]. split; [vm_compute; reflexivity|].
  destruct (bus_mode_agrees (H2:=slot_bus_laws) memory memory nothing 0 (fast_mmc all_caps 0) eq_refl) as (e & s' & E & Hi & Ho).
  exists e, s'. split; [exact E|]. split; [exact Hi|exact (Ho slot_obedient)].
Defined.
Lemma volts_before_fast_witness : post (@mmc_init_bus slot example_hc slot_bus memory memory nothing 0) (fast_mmc all_caps 0) (fun _ s' =>
  exists l, done s' = [] ++ l /\ volts_first every_mode 0x57 l).
Proof. exact (volts_before_fast (H2:=slot_bus_laws) memory memory nothing 0 (fast_mmc all_caps 0) eq_refl). Defined.


Lemma retune_returns_witness : let s := fast_mmc all_caps DEV_FLAG_HS400 in
  flags_of (@mmc_retune slot example_hc slot_bus memory s) = Some (EOK, DEV_FLAG_HS400) /\
  post (@mmc_retune slot example_hc slot_bus memory) s (fun e s' => mdev s' = mdev s /\
    (@modes slot example_hc s' = DEV_FLAG_HS400 \/ @modes slot example_hc s' = DEV_FLAG_HS200 /\ e <> EOK) /\ (e = EOK -> retuned s s')).
Proof.
  split; [vm_compute; reflexivity|].
  exact (proj1 (retune_returns (H2:=slot_bus_laws) memory (fast_mmc all_caps DEV_FLAG_HS400)) eq_refl).
Defined.

(** Revision 5.1 of the register, with the types of a fast device and the strobe. *)
Definition example_raw : list Z :=
  <[Z.to_nat ECSD_REV := ECSD_REV_V5_1]> (<[Z.to_nat ECSD_STROBE_SUPPORT := 1]> (<[Z.to_nat ECSD_CARD_TYPE := 0x57]> (replicate 512 0))).
Definition new_mmc (k : Z) : mst slot :=
  Mst (Cst (Slot k 0 0) (Dev 0 1 512 0 512 0 0 [0; 0; 0; 0] 0 []) []) (Mmc mmc_csd mmc_cid no_ecsd example_raw 0 0 0 0) [].
Lemma ext_csd_offers_witness : best_clock every_mode 0x57 = DTR_MAX_HS200 /\ off_hs400 every_mode 0x57 = true /\
  off_hs400es every_mode example_raw = true /\
  post (@mmc_parse_ext_csd slot example_hc) (new_mmc every_mode) (fun e s' => e = EOK /\
    (e = EOK -> @k_caps slot example_hc s' = every_mode /\ offered every_mode example_raw (dcaps (dev (cmds s'))) /\ dtr (mdev s') = DTR_MAX_HS200)).
Proof.
  split; [vm_compute; reflexivity|]. split; [vm_compute; reflexivity|]. split; [vm_compute; reflexivity|].
  exact (ext_csd_offers (H0:=example_laws) (new_mmc every_mode) eq_refl (fun _ => eq_refl)).
Defined.

(** A controller with HS400ES but not HS400: the device is given HS400. *)
Lemma strobe_alone : match @mmc_parse_ext_csd slot example_hc (new_mmc (Z.ldiff every_mode HC_CAP_HS400)) with
  | Some (e, s') => e = EOK /\ has (dcaps (dev (cmds s'))) DEV_CAP_HS400 = true
  | None => False
  end.
Proof. by vm_compute. Qed.
