(* ===== verification/MmcSdhci.v ===== *)
(** * The sdhci driver under the modes of an eMMC

    The entries of Sdhci.v have the laws that MmcPlan.v asks of a controller:
    they always come back and leave the capabilities and the mode flags
    alone, tuning included, whose command reads a block without a buffer. *)
From S2P Require Import Prelude Driver SdioReg SdioConst SimConst MmcConst Sdhci SdhciCtl SdioCmd SdioSend SdioCard SdhciEntry MmcBus MmcPlan MmcLink MmcMode MmcProp.
Open Scope Z_scope.

(** ** What tuning leaves alone *)
Definition holds {A} (m : M st A) : Prop := forall s a s', m s = Some (a, s') -> held s s'.
Lemma held_then s s' s'' : held s s' -> held s' s'' -> held s s''.
Proof. intros [E F] [E' F']. split; congruence. Qed.
Lemma holds_stays {A} (m : M st A) : SdhciEntry.stays m -> holds m.
Proof. intros Hm s a s' E. apply (Hm _ _ _ E). Qed.
Lemma holds_bind {A B} (m : M st A) (k : A -> M st B) : holds m -> (forall a, holds (k a)) -> holds (x ← m; k x).
Proof.
  intros Hm Hk s b s' E. unfold mbind, M_bind in E. destruct (m s) as [[a s1]|] eqn:Em; [|done].
  eapply held_then; [by eapply Hm|by eapply Hk].
Qed.
Lemma holds_modify f : (forall s, held s (f s)) -> holds (modify f).
Proof. intros Hf s b s' [= <- <-]. apply Hf. Qed.

(** The tuning command, of an eMMC or of an SD card. *)
Definition tunes (op : Z) : Prop := op = MMC_SEND_TUNING_BLOCK \/ op = SD_SEND_TUNING_BLOCK.
Definition tuning (op : Z) (s : st) : Prop :=
  opcode (cmd s) = op /\ sgl (cmd s) = [] /\ has (cflags (cmd s)) SCF_DATA_PHYS = false.
#[export] Instance tuning_log_only op : log_only (tuning op).
Proof. split; try done. intros c a s (E1 & E2 & _ & _ & _ & _ & E6) (H1 & H2 & H3). unfold tuning. simpl. split; [congruence|].
  split; congruence. Qed.

Section link.
Context (device : list event -> Z -> Z -> Z) (vtop_sg : list sge -> list sge) (errno_no : errno -> Z).
Context (fuel : nat) (irqs : Z -> nat).

Section tune.
Context (op : Z) (Hop : tunes op).
Lemma tuning_out w off v : keeps (tuning op) (sdhci_out w off v).
Proof. by apply keeps_modify. Qed.
Hint Extern 1 (keeps (tuning op) (sdhci_out _ _ _)) => apply tuning_out : keep.
Lemma tuning_ready sts cs : keeps (tuning op) (buffer_ready device fuel sts cs).
Proof.
  intros s Hs. unfold buffer_ready. destruct (has sts _); [|by apply post_ret]. apply post_bind, post_gets.
  rewrite (proj1 Hs). replace (_ || _) with true by (by destruct Hop as [E|E]; rewrite E). by apply post_ret.
Qed.
Hint Resolve tuning_ready : keep.
Lemma tuning_intr : keeps (tuning op) (sdhci_intr_event device fuel).
Proof. unfold sdhci_intr_event. keep. Qed.
Hint Resolve tuning_intr : keep.
Lemma tuning_wait n : keeps (tuning op) (sdio_wait_cmd device fuel n).
Proof. induction n; simpl; keep. Qed.
Hint Resolve tuning_wait : keep.
Lemma keeps_post {A} (I : st -> Prop) (m : M st A) s : keeps I m -> I s -> post m s (fun _ s' => I s').
Proof. auto. Qed.
Lemma tuning_xfer command imask : keeps (tuning op) (sdhci_xfer_setup device vtop_sg command imask).
Proof.
  intros s Hs. pose proof Hs as (_ & Hl & Hp). apply post_bind, post_gets, post_bind, post_gets.
  apply post_bind. eapply post_mono; [by apply (keeps_in device (tuning op))|]. intros v s1 H1. apply post_bind.
  eapply post_mono; [by apply (keeps_in device (tuning op))|]. intros v2 s2 H2. cbv zeta. rewrite Hl, Hp. apply post_bind, post_ret.
  apply post_bind. eapply (post_mono _ _ (fun r s' => tuning op s' /\ fst (fst (fst r)) = EINVAL)).
  { unfold setup_dma. apply post_bind, post_gets, post_bind, post_gets. pose proof H2 as (_ & -> & _). by apply post_ret. }
  intros [[[e h] h2] c2] s3 [H3 E]. cbn [fst] in E. subst e. cbn [negb bool_decide decide_rel errno_eq_dec orb andb]. rewrite andb_false_r.
  apply keeps_post; [keep|done].
Qed.
Lemma tuning_cmd : keeps (tuning op) (sdhci_cmd device vtop_sg).
Proof.
  unfold sdhci_cmd. keep. apply tuning_xfer.
Qed.
Lemma tuning_issue n : keeps (tuning op) (sdio_issue_cmd device vtop_sg errno_no fuel n).
Proof.
  unfold sdio_issue_cmd. pose proof tuning_cmd. keep; apply keeps_modify; intros s Hs; done.
Qed.
Lemma stays_drop n : SdhciEntry.stays (drop_data device n).
Proof. induction n; simpl; stay. apply stays_in. Qed.
Lemma any_drop n : keeps any (drop_data device n).
Proof. induction n; simpl; keep. Qed.
Lemma loop_ends tlc n tlen st h : keeps any (tune_loop device vtop_sg errno_no tlc fuel n op tlen st h).
Proof.
  revert st h. induction tlc as [|tlc IH]; intros e h s _; simpl; [by apply post_ret|]. apply post_bind, post_modify, post_bind.
  eapply post_mono; [by apply tuning_issue|]. intros e1 s1 _. destruct (decide (e1 <> EOK)); [by apply post_ret|].
  apply post_bind. eapply post_mono; [by apply any_drop|]. intros [] s2 _. apply keeps_post; [|done]. keep.
Qed.
Lemma loop_holds tlc n tlen st h : holds (tune_loop device vtop_sg errno_no tlc fuel n op tlen st h).
Proof.
  revert st h. induction tlc as [|tlc IH]; intros e h; simpl; [apply holds_stays, stays_ret|].
  apply holds_bind; [by apply holds_modify|]. intros []. apply holds_bind; [apply holds_stays, stays_issue|]. intros e1.
  destruct (decide (e1 <> EOK)); [apply holds_stays, stays_ret|]. apply holds_bind; [apply holds_stays, stays_drop|]. intros [].
  apply holds_bind; [apply holds_stays, stays_in|]. intros v. destruct (has _ _); [apply IH|apply holds_stays, stays_ret].
Qed.
Lemma tune_ends n : keeps any (sdhci_tune device vtop_sg errno_no fuel n op).
Proof. unfold sdhci_tune. keep. apply loop_ends. Qed.
Lemma tune_holds n : holds (sdhci_tune device vtop_sg errno_no fuel n op).
Proof.
  unfold sdhci_tune. do 2 (apply holds_bind; [apply holds_stays, stays_gets|intros ?]).
  destruct (_ <? _); [apply holds_stays, stays_ret|]. apply holds_bind; [apply holds_stays, stays_in|]. intros v.
  destruct (no_tuning _ _); [apply holds_stays, stays_ret|]. apply holds_bind; [apply holds_stays, stays_out|]. intros [].
  apply holds_bind; [apply loop_holds|]. intros [e h]. destruct (_ || _); [|apply holds_stays, stays_ret].
  apply holds_stays. pose proof (stays_out). stay.
Qed.
End tune.
Lemma timing_ends t : keeps any (sdhci_timing device t).
Proof. unfold sdhci_timing. pose proof (keeps_clk device any). keep. Qed.
Lemma timing_stays t : SdhciEntry.stays (sdhci_timing device t).
Proof.
  unfold sdhci_timing. pose proof (stays_clk device). pose proof (stays_in device). pose proof (stays_out).
  pose proof stays_set_bus. stay.
Qed.
Lemma width_ends w : keeps any (sdhci_bus_width device w).
Proof. unfold sdhci_bus_width. keep. Qed.
Lemma width_stays w : SdhciEntry.stays (sdhci_bus_width device w).
Proof. unfold sdhci_bus_width. pose proof (stays_in device). pose proof (stays_out). pose proof stays_set_bus. stay. Qed.

(** ** The instance *)
#[local] Existing Instance sdhci_entry.
#[local] Instance sdhci_bus : bus_entry st := {|
  entry_timing := sdhci_timing device; entry_bus_width := sdhci_bus_width device;
  entry_tune := sdhci_tune device vtop_sg errno_no fuel (irqs SDHCI_TUNING_TIMEOUT)
|}.

Lemma modes_held s s' : held s s' -> Z.land (dflags s') MODES = Z.land (dflags s) MODES.
Proof.
  assert (forall d, Z.land (Z.ldiff d DEV_FLAG_MEDIA_CHANGE) MODES = Z.land d MODES) as E.
  { intros d. apply Z.bits_inj'. intros i Hi. rewrite !Z.land_spec, Z.ldiff_spec.
    assert (Z.testbit (Z.land DEV_FLAG_MEDIA_CHANGE MODES) i = false) as Ei by apply Z.bits_0.
    rewrite Z.land_spec in Ei. by destruct (Z.testbit d i), (Z.testbit DEV_FLAG_MEDIA_CHANGE i), (Z.testbit MODES i). }
  intros [_ F]. unfold other_flags in F. by rewrite <- (E (dflags s')), <- (E (dflags s)), F.
Qed.
Lemma calm_held {A} (m : M st A) : keeps any m -> holds m -> @calm st (sdhci_entry device vtop_sg errno_no fuel irqs) A m.
Proof.
  intros H1 H2 k. destruct (H1 k I) as (a & k' & E & _). exists a, k'. split; [done|]. pose proof (H2 _ _ _ E) as Hh.
  split; [apply Hh|]. by apply modes_held.
Qed.

Lemma sdhci_bus_laws (HI : ie_reads_back device) :
  @bus_laws st _ (sdhci_is_controller device vtop_sg errno_no fuel irqs HI) sdhci_bus.
Proof.
  split; try done.
  - intros c t k e c' k' [E _]%entry_inv. apply stays_issue in E as [E _]. by apply modes_held in E.
  - intros t. apply calm_held; [apply timing_ends|apply holds_stays, timing_stays].
  - intros w. apply calm_held; [apply width_ends|apply holds_stays, width_stays].
  - apply calm_held; [apply tune_ends; by left|apply tune_holds].
  - intros v. apply calm_held; [apply (keeps_clk _ any)|apply holds_stays, stays_clk].
  - intros v. apply calm_held; [apply (keeps_voltage _ any)|apply holds_stays, stays_voltage].
Qed.

(** The driver takes every timing, width and clock. *)
Definition gives {A} (m : M st A) (a : A) : Prop := forall s b s', m s = Some (b, s') -> b = a.
Lemma gives_ret {A} (a : A) : gives (mret a) a.
Proof. by intros s b s' [= <- _]. Qed.
Lemma gives_bind {A B} (m : M st A) (k : A -> M st B) b : (forall a, gives (k a) b) -> gives (x ← m; k x) b.
Proof. intros Hk s c s' E. unfold mbind, M_bind in E. destruct (m s) as [[a s1]|]; [|done]. by eapply Hk. Qed.
Lemma sdhci_obedient : @obedient st (sdhci_entry device vtop_sg errno_no fuel irqs) sdhci_bus.
Proof.
  split; intros v k e k'; [apply (gives_bind _ _ EOK)|apply (gives_bind _ _ EOK)|apply (gives_bind _ _ EOK)]; intros ?;
    repeat (apply gives_bind; intros ?); apply gives_ret.
Qed.
End link.

Section over_sdhci.
Context (device : list event -> Z -> Z -> Z) (vtop_sg : list sge -> list sge) (errno_no : errno -> Z).
Context (fuel : nat) (irqs : Z -> nat) (no_memory no_buffer : list issued -> bool).
Context (transferred : list issued -> list Z) (buffer : Z).
#[local] Existing Instance sdhci_entry.
#[local] Existing Instance sdhci_bus.

(** C20 (kind: refinement): an eMMC at the sdhci driver, without the
    capability of HS400ES, for which the driver has no timing: whatever the
    registers of the controller read, apart from its interrupt enables, every
    entry of the driver comes back, tuning and its data included; and when
    mmc_init_bus ends the mode flags name the mode that the link is in, in the
    sense and with the exceptions of [bus_mode_agrees], where no timing and no
    width was refused, and a clock only below the slowest of the controller. *)
Theorem sdhci_mode_agrees s : ie_reads_back device ->
  let H := sdhci_entry device vtop_sg errno_no fuel irqs in let B := sdhci_bus device vtop_sg errno_no fuel irqs in
  @modes st H s = 0 -> has (dcaps (dev (cmds s))) DEV_CAP_HS400ES = false ->
  post (@mmc_init_bus st H B no_memory no_buffer transferred buffer) s (fun _ s' =>
    @in_mode st H (done s) (widest (@k_caps st H s)) s' /\ has (@modes st H s') DEV_FLAG_HS400ES = false /\
    ~ seen (done s) (done s') (has_event refuses_setting)).
Proof.
  intros HI. cbv zeta. intros Hm Hc. set (HL := sdhci_bus_laws device vtop_sg errno_no fuel irqs HI).
  eapply post_mono; [exact (post_meet _ _ _ _ (bus_ok (H2:=HL) no_memory no_buffer transferred buffer s Hm)
    (bus_moves (H2:=HL) no_memory no_buffer transferred buffer s))|].
  intros e s' ([Hk Hi] & _ & _ & _ & _ & Hmv). split; [exact Hi|]. split.
  - eapply (granted_not (dcaps (dev (cmds s))) _ _ DEV_CAP_HS400ES); [|unfold grants; set_solver|exact Hc].
    apply Hmv; [by repeat split|]. rewrite Hm. by apply Forall_forall.
  - exact (kept_heeds s s' (sdhci_obedient device vtop_sg errno_no fuel irqs) Hk).
Qed.
End over_sdhci.

Definition ready_mmc (c : Z) : mst st :=
  Mst (Cst (upd_hc (with_caps every_mode (hc (example_st 0 []))) (example_st 0 [])) (Dev c 1 512 0 512 0 0 [0; 0; 0; 0] 0 []) [])
    (Mmc mmc_csd mmc_cid (known_as 0x57 DTR_MAX_HS200) [] 0 0 0 0) [].
Lemma sdhci_mode_agrees_witness : let H := sdhci_entry ready_device (fun l => l) (fun _ => 1) 1 (fun _ => 1%nat) in
  let B := sdhci_bus ready_device (fun l => l) (fun _ => 1) 1 (fun _ => 1%nat) in
  option_map (fun x => (fst x, @modes st H (snd x), timing (bus (ctl (cmds (snd x))))))
    (@mmc_init_bus st H B memory memory nothing 0 (ready_mmc (Z.lor DEV_CAP_HC DEV_CAP_HS))) = Some (EOK, DEV_FLAG_HS, TIMING_HS) /\
  post (@mmc_init_bus st H B memory memory nothing 0) (ready_mmc (Z.lor DEV_CAP_HC DEV_CAP_HS)) (fun _ s' =>
    @in_mode st H [] BUS_WIDTH_8 s' /\ has (@modes st H s') DEV_FLAG_HS400ES = false /\ ~ seen [] (done s') (has_event refuses_setting)).
Proof.
  split; [vm_compute; reflexivity|].
  exact (sdhci_mode_agrees ready_device (fun l => l) (fun _ => 1) 1 (fun _ => 1%nat) memory memory nothing 0
    (ready_mmc (Z.lor DEV_CAP_HC DEV_CAP_HS)) ready_reads_back eq_refl eq_refl).
Defined.
