(* ===== verification/SdConst.v ===== *)
(** * Constants of SD cards and of their bus (devb/sdmmc/sdiodi)

    The names are the sources'. *)
From S2P Require Import Prelude.
Open Scope Z_scope.

(** ** include/sd.h *)
Definition SD_SWITCH_FUNC : Z := 6.
Definition SD_SF_MODE_SET : Z := 1.
Definition SD_SF_MODE_CHECK : Z := 0.
Definition SD_SF_GRP_BUS_SPD : Z := 0.
Definition SD_SF_GRP_CMD_EXT : Z := 1.
Definition SD_SF_GRP_DRV_STR : Z := 2.
Definition SD_SF_GRP_CUR_LMT : Z := 3.
Definition SD_SF_CUR_FCN : Z := 0xf.
Definition SD_SF_STATUS_SIZE : Z := 0x40.
Definition SD_LU_ERASE : Z := 8.
Definition SD_LU_UNLOCK : Z := 0.
Definition SD_READ_EXTR_SINGLE : Z := 0x30.
Definition SD_WRITE_EXTR_SINGLE : Z := 0x31.
Definition SD_EXTR_SIZE : Z := 0x200.
Definition SD_EXTR_MEM : Z := 0.
Definition SD_EXTR_MIO_MSK : Z := 0x80000000.
Definition SD_EXTR_MWM_MSK : Z := 0x4000000.
Definition SD_AC_SET_BUS_WIDTH : Z := 6.
Definition SD_BUS_WIDTH_1 : Z := 0.
Definition SD_BUS_WIDTH_4 : Z := 2.
Definition SD_AC_SD_STATUS : Z := 0xd.
Definition SD_STATUS_SIZE : Z := 0x40.
Definition SD_AC_SEND_SCR : Z := 0x33.
Definition SD_SCR_SIZE : Z := 8.
Definition SCR_BUS_WIDTH_4 : Z := 4.
Definition SCR_CMD48_49_SUP : Z := 4.
Definition SD_BUS_MODE_SDR12 : Z := 1.
Definition SD_BUS_MODE_SDR25 : Z := 2.
Definition SD_BUS_MODE_SDR50 : Z := 4.
Definition SD_BUS_MODE_SDR104 : Z := 8.
Definition SD_BUS_MODE_DDR50 : Z := 0x10.
Definition SD_BUS_MODE_MSK : Z := 0x1f.
Definition SD_CMD_SYS_EC : Z := 2.
Definition SD_CMD_SYS_ASSD : Z := 0x10.
Definition SD_DRV_TYPE_B : Z := 1.
Definition SD_DRV_TYPE_MSK : Z := 0xf.
Definition SD_CURR_LIMIT_MSK : Z := 0xf.
Definition SD_FCN_PG_SZ : Z := 0x200.
Definition SFC_PWR_MGNT : Z := 1.
Definition SFC_PERF_ENH : Z := 2.
Definition PWR_MGNT_STATUS : Z := 1.
Definition PWR_MGNT_STATUS_POFS : Z := 0x10.
Definition PWR_MGNT_STATUS_POFR : Z := 1.
Definition PWR_MGNT_SETTING : Z := 2.
Definition PWR_MGNT_SETTING_POFN : Z := 1.
Definition PERF_ENH_CACHE_SUP : Z := 4.
Definition PERF_ENH_CACHE_SUPPORTED : Z := 1.
Definition PERF_ENH_CACHE : Z := 0x104.
Definition PERF_ENH_CACHE_EN : Z := 1.
Definition PERF_ENH_CACHE_FLUSH : Z := 0x105.
Definition PERF_ENH_CACHE_FLUSH_START : Z := 1.

(** ** include/mmc.h *)
Definition MMC_LOCK_UNLOCK : Z := 0x2a.
Definition MMC_LU_PWD_SIZE : Z := 0x10.

(** ** include/sdiodi.h *)
Definition CCC_APP_SPEC : Z := 0x100.
Definition CCC_SWITCH : Z := 0x400.
Definition DEV_CAP_UHS : Z := 0x10.
Definition SDIO_POWER_OFF_SHORT : Z := 2.

(** ** internal.h *)
Definition DTR_MAX_SDR104 : Z := 208000000.
Definition DTR_MAX_SDR50 : Z := 100000000.
Definition DTR_MAX_DDR50 : Z := 50000000.
Definition DTR_MAX_SDR25 : Z := 50000000.
Definition DTR_MAX_SDR12 : Z := 25000000.

(** SD_BUS_MODE_UHS *)
Definition SD_BUS_MODE_UHS : Z := Z.lor SD_BUS_MODE_SDR50 (Z.lor SD_BUS_MODE_SDR104 SD_BUS_MODE_DDR50).
