(* ===== verification/SdBus.v ===== *)
(** * Bringing up an SD card: its switch functions and its bus (sdiodi/sd.c)

    The state of MmcBus.v with what the driver knows of an SD card, and a
    controller with the entries that only the bus of SD cards uses.  The
    events are in the list of MmcBus.v.  The bytes a read leaves in memory
    are a function of the commands so far. *)
From S2P Require Import Prelude Driver SdioReg SdioConst SimConst MmcConst SdConst Sdhci SdioCmd MmcBus.
Open Scope Z_scope.

(** ** The state *)

(** The entries that may be absent are options. *)
Class sd_entry (C : Type) := {
  entry_drv_type : Z -> M C errno;
  entry_driver_strength : option (Z -> Z -> M C Z);
  entry_preset : option (bool -> M C errno);
  hc_signal_voltage : C -> Z
}.

(** sd_switch_cap_t; its bus_mode is in [sdev]. *)
Record sd_switch_cap := Swcaps { sw_dtr_max_hs : Z; sw_cmd_sys : Z; sw_drv_type : Z; sw_curr_limit : Z }.
Record sdcard := Sdcard {
  d_scr : scr; raw_scr : list Z; d_sds : sds; swcaps : sd_switch_cap;
  pwr_mgnt_fcn_rsa : Z; perf_enh_fcn_rsa : Z; pwd : list Z
}.
Definition set_scr (r : scr) (l : list Z) (k : sdcard) : sdcard :=
  Sdcard r l (d_sds k) (swcaps k) (pwr_mgnt_fcn_rsa k) (perf_enh_fcn_rsa k) (pwd k).
Definition set_sds (r : sds) (k : sdcard) : sdcard :=
  Sdcard (d_scr k) (raw_scr k) r (swcaps k) (pwr_mgnt_fcn_rsa k) (perf_enh_fcn_rsa k) (pwd k).
Definition set_swcaps (w : sd_switch_cap) (k : sdcard) : sdcard :=
  Sdcard (d_scr k) (raw_scr k) (d_sds k) w (pwr_mgnt_fcn_rsa k) (perf_enh_fcn_rsa k) (pwd k).
Definition set_rsa (pwr perf : Z) (k : sdcard) : sdcard :=
  Sdcard (d_scr k) (raw_scr k) (d_sds k) (swcaps k) pwr perf (pwd k).
Definition set_pwd (l : list Z) (k : sdcard) : sdcard :=
  Sdcard (d_scr k) (raw_scr k) (d_sds k) (swcaps k) (pwr_mgnt_fcn_rsa k) (perf_enh_fcn_rsa k) l.
Definition set_sw_dtr (v : Z) (w : sd_switch_cap) : sd_switch_cap := Swcaps v (sw_cmd_sys w) (sw_drv_type w) (sw_curr_limit w).
Definition set_sw_sys (v : Z) (w : sd_switch_cap) : sd_switch_cap := Swcaps (sw_dtr_max_hs w) v (sw_drv_type w) (sw_curr_limit w).
Definition set_sw_uhs (drv curr : Z) (w : sd_switch_cap) : sd_switch_cap := Swcaps (sw_dtr_max_hs w) (sw_cmd_sys w) drv curr.
Definition set_bus_modes (v : Z) (d : sdev) : sdev :=
  Dev (dcaps d) (rca d) (block_length d) (pactive d) (csd_blksz d) (dev_ocr d) v (raw_cid d) (partition_time d) (raw_csd d).

Record sst (C : Type) := Sst { low : mst C; card : sdcard }.
Arguments Sst {C}. Arguments low {C}. Arguments card {C}.

(** Bytes of a buffer, and its first words. *)
Definition byte (l : list Z) (i : Z) : Z := default 0 (l !! Z.to_nat i).
Definition le_words (n : nat) (l : list Z) : list Z := map (fun i => le_value (take 4 (drop (4 * i) l))) (seq 0 n).

Section sd.
Context {C : Type} `{sdio_hc_entry C} `{bus_entry C} `{sd_entry C} (no_memory no_buffer : list issued -> bool).
Context (transferred : list issued -> list Z) (buffer : Z).

Definition low_ {A} (m : M (mst C) A) : M (sst C) A := fun s =>
  match m (low s) with None => None | Some (a, b) => Some (a, Sst b (card s)) end.
Definition upd_card (f : sdcard -> sdcard) : M (sst C) () := modify (fun s => Sst (low s) (f (card s))).
Definition upd_sw (f : sd_switch_cap -> sd_switch_cap) : M (sst C) () := upd_card (fun k => set_swcaps (f (swcaps k)) k).
Definition upd_modes (f : Z -> Z) : M (sst C) () := low_ (modify (upd_cmds (upd_dev (fun d => set_bus_modes (f (bus_modes d)) d)))).
Definition bus_mode : M (sst C) Z := gets (fun s => bus_modes (dev (cmds (low s)))).
Definition sw : M (sst C) sd_switch_cap := gets (fun s => swcaps (card s)).
Definition csd_ : M (sst C) csd := gets (fun s => m_csd (mdev (low s))).

(** ** base.c *)
Definition sdio_drv_type (t : Z) : M (mst C) errno := note (Driven t) (cmd_ (hc_call (entry_drv_type t))).
Definition sdio_preset (state : bool) : M (mst C) errno :=
  match entry_preset with None => mret EOK | Some f => cmd_ (hc_call (f state)) end.

(** ** Commands with data *)
Definition with_buffer {A} (e : A) (f : sdio_cmd_t -> M (mst C) A) : M (mst C) A :=
  o ← cmd_ (sdio_alloc_cmd no_memory); b ← gets (fun s => no_buffer (sent (cmds s)));
  match o with None => mret e | Some c => if (b : bool) then mret e else f c end.
Definition read_reg (flgs op a n : Z) : M (mst C) (errno * list Z) := with_buffer (ENOMEM, []) (fun c =>
  read_cmd no_memory transferred buffer (sdio_setup_cmd c (Z.lor (Z.lor SCF_CTYPE_ADTC SCF_RSP_R1) flgs) op a) n SDIO_TIME_DEFAULT).
Definition sd_app_send_scr : M (mst C) (errno * list Z) := read_reg SCF_APP_CMD SD_AC_SEND_SCR 0 SD_SCR_SIZE.
Definition sd_app_sd_status : M (mst C) (errno * list Z) := read_reg SCF_APP_CMD SD_AC_SD_STATUS 0 SD_STATUS_SIZE.

(** sd_switch: the other groups keep their functions (0xf).  The second
    result is the status that the card sends. *)
Definition switch_func_arg (mode grp val : Z) : Z :=
  Z.lor (Z.ldiff (Z.lor (u32 (Z.shiftl mode 31)) 0xffffff) (Z.shiftl 0xf (grp * 4))) (Z.shiftl val (grp * 4)).
Definition func_busy (l : list Z) (grp val : Z) : bool :=
  has (Z.lor (byte l (29 - grp * 2)) (Z.shiftl (byte l (28 - grp * 2)) 8)) (Z.shiftl 1 val).
Definition sd_switch (mode grp val : Z) : M (mst C) (errno * list Z) :=
  x ← read_reg 0 SD_SWITCH_FUNC (switch_func_arg mode grp val) SD_SF_STATUS_SIZE;
  let e := if bool_decide (fst x = EOK) && (mode =? SD_SF_MODE_SET) && func_busy (snd x) grp val then EBUSY else fst x in
  modify (fun s => Mst (cmds s) (mdev s) (done s ++ [Functioned mode grp val e (snd x)]));;
  mret (e, snd x).

(** ** What the card can do *)
Definition sd_read_switch : M (sst C) errno :=
  c ← csd_;
  if negb (has (ccc c) CCC_SWITCH) then mret EOK
  else
    x ← low_ (sd_switch SD_SF_MODE_CHECK SD_SF_GRP_BUS_SPD SD_SF_CUR_FCN);
    let '(status, ss) := x in
    if decide (status <> EOK) then mret status
    else
      k ← low_ hcaps; r ← gets (fun s => d_scr (card s));
      (if has (byte ss 13) 2 then
         upd_sw (set_sw_dtr 50000000);;
         if has k HC_CAP_HS then low_ (add_caps DEV_CAP_HS) else mret ()
       else mret ());;
      (if negb (sd_spec3 r =? 0) then
         upd_modes (fun _ => Z.land (byte ss 13) SD_BUS_MODE_MSK);;
         upd_sw (set_sw_uhs (Z.land (byte ss 9) SD_DRV_TYPE_MSK) (Z.land (byte ss 7) SD_CURR_LIMIT_MSK));;
         if has (Z.land (byte ss 13) SD_BUS_MODE_MSK) SD_BUS_MODE_UHS then low_ (add_caps DEV_CAP_UHS) else mret ()
       else mret ());;
      upd_sw (set_sw_sys (byte ss 11));;
      (if has (byte ss 11) SD_CMD_SYS_EC || has (byte ss 11) SD_CMD_SYS_ASSD then low_ (add_caps DEV_CAP_ASSD) else mret ());;
      mret status.

Definition sd_read_status : M (sst C) errno :=
  c ← csd_;
  if negb (has (ccc c) CCC_APP_SPEC) then mret EOK
  else
    x ← low_ sd_app_sd_status;
    if decide (fst x <> EOK) then mret (fst x)
    else upd_card (fun k => set_sds (sd_parse_status (le_words 16 (snd x)) (d_sds k)) k);; mret (fst x).

(** sd_app_send_scr leaves the SCR in dev->raw_scr. *)
Definition read_scr : M (sst C) errno :=
  x ← low_ sd_app_send_scr;
  if decide (fst x <> EOK) then mret (fst x)
  else
    d ← gets (fun s => dcaps (dev (cmds (low s))));
    let '(r, c, l) := sd_parse_scr (le_words 2 (snd x)) d in
    upd_card (set_scr r l);; low_ (upd_caps (fun _ => c));; mret EOK.
Definition sd_capabilities : M (sst C) errno :=
  read_scr !; sd_read_status !; sd_read_switch !;
  (c ← csd_; low_ (modify (upd_mdev (fun m => set_sizes (wp_size m) (u32 (sd_erase_grp_size c)) m)));; mret EOK).

(** ** The bus *)
Definition sd_switch_hs : M (mst C) errno :=
  x ← sd_switch SD_SF_MODE_SET SD_SF_GRP_BUS_SPD 1;
  mret (if decide (fst x = EOK) then if Z.land (byte (snd x) 16) 0xf =? 1 then EOK else EIO else fst x).

Definition sd_app_set_bus_width (width : Z) : M (mst C) errno :=
  note (Spread width) (cmd_ (simple_cmd no_memory (Z.lor (Z.lor SCF_CTYPE_AC SCF_APP_CMD) SCF_RSP_R1) SD_AC_SET_BUS_WIDTH width
    SDIO_TIME_DEFAULT RETRIES)).

(** The width in the numbers of the command; None for EINVAL. *)
Definition sd_width (k : Z) (r : scr) (width : Z) : option Z :=
  if width =? BUS_WIDTH_1 then Some SD_BUS_WIDTH_1
  else if (width =? BUS_WIDTH_4) && (has k HC_CAP_BW4 && has (sd_bus_widths r) SCR_BUS_WIDTH_4) then Some SD_BUS_WIDTH_4 else None.
Definition sd_set_bus_width (width : Z) : M (sst C) errno :=
  k ← low_ hcaps; r ← gets (fun s => d_scr (card s));
  match sd_width k r width with
  | None => mret EINVAL
  | Some w => low_ (sd_app_set_bus_width w !; (sdio_bus_width BUS_WIDTH_4;; mret EOK))
  end.

Definition sd_timing (idx : Z) : option Z :=
  [TIMING_SDR12; TIMING_SDR25; TIMING_SDR50; TIMING_SDR104; TIMING_DDR50] !! Z.to_nat idx.
Definition sd_dtr (idx : Z) : Z :=
  default 0 ([DTR_MAX_SDR12; DTR_MAX_SDR25; DTR_MAX_SDR50; DTR_MAX_SDR104; DTR_MAX_DDR50] !! Z.to_nat idx).
Definition HC_CAP_DRV_TYPES (c : Z) : Z := Z.land (Z.shiftr c 24) 0xf.
Definition HC_CAP_CURRENT (c : Z) : Z := Z.land (Z.shiftr c 20) 0xf.

Definition sd_set_drv_type (bus_spd drv_type : Z) : M (mst C) errno :=
  k ← hcaps;
  match entry_driver_strength with
  | None => mret EOK
  | Some f =>
      if HC_CAP_DRV_TYPES k =? 0 then mret EOK
      else
        match sd_timing (if bus_spd =? 0 then 0 else fls bus_spd - 1) with
        | None => mret EINVAL
        | Some t =>
            drv_type ← cmd_ (hc_call (f t (Z.lor drv_type SD_DRV_TYPE_B)));
            let driver_strength := fls drv_type - 1 in
            x ← sd_switch SD_SF_MODE_SET SD_SF_GRP_DRV_STR (driver_strength mod 256);
            if decide (fst x <> EOK) then mret (fst x)
            else if Z.land (byte (snd x) 15) 0xf =? driver_strength then sdio_drv_type drv_type;; mret EOK else mret EIO
        end
  end.

Definition sd_set_bus_speed_mode (bus_spd : Z) : M (mst C) errno :=
  if bus_spd =? 0 then mret EOK
  else
    let idx := fls bus_spd - 1 in
    match sd_timing idx with
    | None => mret EINVAL
    | Some t =>
        x ← sd_switch SD_SF_MODE_SET SD_SF_GRP_BUS_SPD idx;
        if decide (fst x <> EOK) then mret (fst x)
        else if Z.land (byte (snd x) 16) 0xf =? idx then sdio_timing t;; sdio_clock (sd_dtr idx);; mret EOK else mret EIO
    end.

(** The highest current that both sides have, for the modes that need it. *)
Definition current_index (k bus_spd curr_limit : Z) : Z :=
  let c := Z.land (HC_CAP_CURRENT k) curr_limit in
  if negb (c =? 0) && has bus_spd (Z.lor SD_BUS_MODE_SDR50 (Z.lor SD_BUS_MODE_SDR104 SD_BUS_MODE_DDR50)) then fls c - 1 else 0.
Definition sd_set_current_limit (bus_spd curr_limit : Z) : M (mst C) errno :=
  k ← hcaps;
  let idx := current_index k bus_spd curr_limit in
  x ← sd_switch SD_SF_MODE_SET SD_SF_GRP_CUR_LMT idx;
  mret (if decide (fst x = EOK) then if Z.land (Z.shiftr (byte (snd x) 15) 4) 0xf =? idx then EOK else EIO else fst x).

(** dev->rsettle is a delay. *)
Definition sd_init_assd : M (sst C) errno :=
  w ← sw;
  let idx := ffs (Z.land (sw_cmd_sys w) (Z.lor SD_CMD_SYS_EC SD_CMD_SYS_ASSD)) - 1 in
  x ← low_ (sd_switch SD_SF_MODE_SET SD_SF_GRP_CMD_EXT (idx mod 256));
  mret (if decide (fst x = EOK) then if Z.land (Z.shiftr (byte (snd x) 16) 4) 0xf =? idx then EOK else EIO else fst x).

Definition sd_select_bus_mode (k bus_mode : Z) : Z :=
  if has bus_mode SD_BUS_MODE_SDR104 && has k HC_CAP_SDR104 then SD_BUS_MODE_SDR104
  else if has bus_mode SD_BUS_MODE_DDR50 && has k HC_CAP_DDR50 then SD_BUS_MODE_DDR50
  else if has bus_mode SD_BUS_MODE_SDR50 && has k HC_CAP_SDR50 then SD_BUS_MODE_SDR50
  else if has bus_mode SD_BUS_MODE_SDR25 && has k HC_CAP_SDR25 then SD_BUS_MODE_SDR25 else SD_BUS_MODE_SDR12.

(** A failure of the tuning is only logged. *)
Definition sd_init_uhs : M (sst C) errno :=
  sd_set_bus_width BUS_WIDTH_4 !;
  (k ← low_ hcaps; b ← bus_mode; w ← sw;
   let m := sd_select_bus_mode k b in
   low_ (sd_set_drv_type m (sw_drv_type w)) !;
   low_ (sd_set_current_limit m (sw_curr_limit w)) !;
   low_ (sd_set_bus_speed_mode m) !;
   (low_ (sdio_preset true);; low_ (sdio_tune SD_SEND_TUNING_BLOCK);;
    low_ (upd_dflags (fun f => Z.lor f DEV_FLAG_UHS));; mret EOK)).

(** The cards at 3.3 V: HS where they have it. *)
Definition sd_init_33 : M (sst C) errno :=
  c ← low_ caps; s ← csd_;
  let hs := has c DEV_CAP_HS in
  (if hs then low_ sd_switch_hs !; (low_ (upd_dflags (fun f => Z.lor f DEV_FLAG_HS));; mret EOK) else mret EOK) !;
  (w ← sw; k ← low_ hcaps; r ← gets (fun s => d_scr (card s));
   (if has k HC_CAP_BW4 && has (sd_bus_widths r) SCR_BUS_WIDTH_4 then sd_set_bus_width BUS_WIDTH_4 else mret EOK) !;
   (low_ (sdio_timing (if hs then TIMING_HS else TIMING_LS));;
    low_ (sdio_clock (if hs then sw_dtr_max_hs w else dtr_max s));;
    low_ (cmd_ (_sdio_set_block_length no_memory SDIO_DFLT_BLKSZ)))).
Definition sd_init_bus : M (sst C) errno :=
  v ← gets (fun s => hc_signal_voltage (ctl (cmds (low s))));
  (if v =? SIGNAL_VOLTAGE_1_8 then sd_init_uhs else sd_init_33) !;
  (c ← low_ caps; if has c DEV_CAP_ASSD then sd_init_assd else mret EOK).

(** A mode or a part of the clock is given up. *)
Definition sd_slow_down : M (sst C) () :=
  f ← low_ flags; k ← low_ hcaps;
  if has f DEV_FLAG_UHS then
    low_ (upd_dflags (fun f => Z.ldiff f DEV_FLAG_UHS));; upd_modes (fun b => Z.ldiff b (sd_select_bus_mode k b))
  else if has f DEV_FLAG_HS then
    low_ (upd_dflags (fun f => Z.ldiff f DEV_FLAG_HS));;
    upd_sw (fun w => set_sw_dtr (Z.max DTR_MAX_HS26 (u32 (sw_dtr_max_hs w - DTR_HS_DEC))) w)
  else low_ (modify (upd_mdev (fun m => set_m_csd (set_dtr_max
         (Z.max DTR_MIN_LS (u32 (dtr_max (m_csd m) - u32 (dtr_max (m_csd m) + 9) / 10))) (m_csd m)) m))).
Definition sd_bus_error : M (sst C) errno := sd_slow_down;; sd_init_bus.

(** ** Locking *)

(** _sdio_lock_unlock; [time] is for an erase. The bytes that are written
    are the operation, the length and the password; a byte that makes their
    number even is whatever the memory holds. *)
Definition _sdio_lock_unlock (op : Z) (l : list Z) (time : Z) : M (mst C) errno :=
  let n := Z.of_nat (length l) in
  let len := u32 (if Z.odd n then n + 3 else n + 2) in
  with_buffer ENOMEM (fun c =>
    e ← cmd_ (_sdio_set_block_length no_memory len);
    e ← (if decide (e <> EOK) then mret e
         else
           let c := sdio_setup_cmd_io (sdio_setup_cmd c (Z.lor SCF_CTYPE_ADTC SCF_RSP_R1) MMC_LOCK_UNLOCK 0) SCF_DIR_OUT 1 len [Sge buffer len] in
           e ← note (Wrote (op mod 256 :: n mod 256 :: l))
                 (cmd_ (x ← send_cmd no_memory c (if has op SD_LU_ERASE then time else SDIO_TIME_DEFAULT) RETRIES; mret (fst x)));
           cmd_ (_sdio_set_block_length no_memory SDIO_DFLT_BLKSZ);; mret e);
    if decide (e <> EOK) then mret e
    else
      x ← cmd_ (_sdio_send_status no_memory (send_cmd no_memory) false);
      (if decide (fst x = EOK)
       then upd_dflags (fun f => if has (snd x) CDS_CARD_IS_LOCKED then Z.lor f DEV_FLAG_LOCKED else Z.ldiff f DEV_FLAG_LOCKED)
       else mret ());;
      mret (fst x)).

(** sdio_erase_timeout for all sectors, in an int. *)
Definition lock_time : M (sst C) Z :=
  c ← csd_; r ← gets (fun s => d_sds (card s)); mret (u32 (Z.max (sd_erase_timeout r (u32 (sectors c))) 1000)).

(** A password that does not fit into dev->pwd is written past it. *)
Definition sd_lock_unlock (action : Z) (l : list Z) : M (sst C) errno :=
  f0 ← low_ flags;
  (if decide (l = []) then mret () else if MMC_LU_PWD_SIZE <? Z.of_nat (length l) then crash else upd_card (set_pwd l));;
  t ← lock_time;
  status ← low_ (_sdio_lock_unlock action l t);
  f ← low_ flags;
  if has f DEV_FLAG_LOCKED then mret (if action =? SD_LU_UNLOCK then EACCES else status)
  else if has f0 DEV_FLAG_LOCKED then sd_capabilities !; sd_init_bus !; mret EOK
  else mret status.
Definition sd_unlock : M (sst C) errno :=
  f ← low_ flags; k ← gets card;
  if has f DEV_FLAG_LOCKED && negb (bool_decide (pwd k = []))
  then t ← lock_time; low_ (_sdio_lock_unlock SD_LU_UNLOCK (pwd k) t) else mret EOK.

(** ** Bringing up a card *)

(** The CSD and the CID of a card that was identified; they stay as they
    were where its selection failed, and nothing reads them then. *)
Definition new_card : M (sst C) () :=
  low_ (modify (fun s =>
    let d := dev (cmds s) in
    let c := match sd_parse_csd (raw_csd d) (dcaps d) with Some (c, _) => c | None => m_csd (mdev s) end in
    upd_mdev (fun m => set_m_cid (sd_parse_cid (raw_cid d)) (set_m_csd c m)) s)).

(** A card that is still at 1.8 V after a power cycle that was none. *)
Definition still_18 : M (sst C) () :=
  k ← low_ hcaps; v ← gets (fun s => hc_signal_voltage (ctl (cmds (low s))));
  if has k HC_CAP_SV_1_8V && negb (v =? SIGNAL_VOLTAGE_1_8) then
    e ← sd_read_switch; b ← bus_mode;
    if bool_decide (e = EOK) && has b SD_BUS_MODE_UHS then low_ (sdio_signal_voltage SIGNAL_VOLTAGE_1_8);; mret () else mret ()
  else mret ().

(** Without the delays; the only erratum of SD cards is one.  The fuel is
    that of [negotiate]. *)
Definition sd_init_device (fuel : nat) (ocr : Z) (again : bool) : M (sst C) errno :=
  low_ (cmd_ (sd_identify no_memory fuel ocr again)) !;
  ((if again then mret () else new_card);; sd_unlock) !;
  (f ← low_ flags;
   if has f DEV_FLAG_LOCKED then mret EOK
   else (if again then mret EOK else sd_capabilities) !; (still_18;; sd_init_bus)).

Definition sd_ident (fuel : nat) : M (sst C) errno :=
  low_ (modify (upd_cmds (upd_dev (set_rca 0))));;
  low_ (cmd_ (sdio_go_idle no_memory));;
  low_ (cmd_ (sd_send_if_cond no_memory SD_SIC_VHS_27_36V));;
  x ← low_ (cmd_ (sd_app_send_op_cond no_memory 0));
  if decide (fst x <> EOK) then mret (fst x)
  else
    low_ (cmd_ (sdio_select_voltage (snd x))) !;
    (d ← gets (fun s => dev_ocr (dev (cmds (low s)))); sd_init_device fuel d false).

(** ** Extension registers *)
Definition extr_arg (mio fno mw addr len_msk : Z) : Z :=
  Z.lor (Z.lor (Z.land mio SD_EXTR_MIO_MSK) (Z.shiftl (Z.land fno 0xf) 27))
    (Z.lor (Z.land mw SD_EXTR_MWM_MSK)
       (Z.lor (Z.shiftl (Z.land addr 0x1ffff) 9) (if mw =? 0 then Z.land (len_msk - 1) 0x1ff else Z.land len_msk 0xff))).
Definition extr_count (mw len_msk : Z) : nat := if mw =? 0 then Z.to_nat len_msk else 1.
Definition zero_page : list Z := replicate (Z.to_nat SD_EXTR_SIZE) 0.

(** [extr] is what is written; the second result is what was read. *)
Definition sd_rw_extr (dir_in : bool) (mio fno mw addr len_msk : Z) (extr : list Z) : M (mst C) (errno * list Z) :=
  with_buffer (ENOMEM, []) (fun c =>
    let n := extr_count mw len_msk in
    let c := sdio_setup_cmd c (Z.lor SCF_CTYPE_ADTC SCF_RSP_R1) (if dir_in then SD_READ_EXTR_SINGLE else SD_WRITE_EXTR_SINGLE)
               (extr_arg mio fno mw addr len_msk) in
    if dir_in then
      x ← read_cmd no_memory transferred buffer c SD_EXTR_SIZE SDIO_TIME_DEFAULT; mret (fst x, take n (snd x ++ zero_page))
    else
      let c := sdio_setup_cmd_io c SCF_DIR_OUT 1 SD_EXTR_SIZE [Sge buffer SD_EXTR_SIZE] in
      e ← note (Wrote (take (Z.to_nat SD_EXTR_SIZE) (take n extr ++ zero_page)))
            (cmd_ (x ← send_cmd no_memory c SDIO_TIME_DEFAULT 0; mret (fst x)));
      mret (e, [])).

Definition SD_FCN_EXT_FNO (rsa : Z) : Z := Z.land (Z.shiftr rsa 18) 0xf.
Definition SD_FCN_EXT_SADDR (rsa : Z) : Z := Z.land rsa 0x1ffff.
Definition sd_extr_wr (rsa reg wval : Z) : M (mst C) errno :=
  x ← sd_rw_extr false SD_EXTR_MEM (SD_FCN_EXT_FNO rsa) 0 (SD_FCN_EXT_SADDR rsa + reg) 1 [wval]; mret (fst x).
Definition sd_extr_rd (rsa reg : Z) : M (mst C) (errno * Z) :=
  x ← sd_rw_extr true SD_EXTR_MEM (SD_FCN_EXT_FNO rsa) 0 (SD_FCN_EXT_SADDR rsa + reg) 1 []; mret (fst x, byte (snd x) 0).

(** [for( timeout = 1000; timeout; timeout-- )] until the register is as wanted. *)
Fixpoint extr_poll (n : nat) (rsa reg : Z) (wanted : Z -> bool) : M (mst C) errno :=
  match n with
  | O => mret ETIMEDOUT
  | S n' =>
      x ← sd_extr_rd rsa reg;
      if bool_decide (fst x = EOK) && wanted (snd x) then mret EOK else extr_poll n' rsa reg wanted
  end.
Definition sd_pwroff_notify (op : Z) : M (sst C) errno :=
  k ← gets card;
  let rsa := pwr_mgnt_fcn_rsa k in
  if op <? SDIO_POWER_OFF_SHORT then mret EOK
  else low_ (sd_extr_wr rsa PWR_MGNT_SETTING PWR_MGNT_SETTING_POFN !;
             extr_poll 1000 rsa PWR_MGNT_STATUS (fun v => has v PWR_MGNT_STATUS_POFR)).
Definition sd_cache (op : Z) : M (sst C) errno :=
  k ← gets card;
  let rsa := perf_enh_fcn_rsa k in
  if op =? SDIO_CACHE_DISABLE then
    low_ (sd_extr_wr rsa PERF_ENH_CACHE 0 !; (upd_dflags (fun f => Z.ldiff f DEV_FLAG_WCE);; mret EOK))
  else if op =? SDIO_CACHE_ENABLE then
    low_ (sd_extr_wr rsa PERF_ENH_CACHE PERF_ENH_CACHE_EN !; (upd_dflags (fun f => Z.lor f DEV_FLAG_WCE);; mret EOK))
  else if op =? SDIO_CACHE_FLUSH then
    f ← low_ flags;
    if has f DEV_FLAG_WCE then
      low_ (sd_extr_wr rsa PERF_ENH_CACHE_FLUSH PERF_ENH_CACHE_FLUSH_START !;
            extr_poll 1000 rsa PERF_ENH_CACHE_FLUSH (fun v => negb (has v PERF_ENH_CACHE_FLUSH_START)))
    else mret EOK
  else mret EINVAL.

(** A field of the general information; None outside of its two pages. *)
Definition info (efb : list Z) (off n : Z) : M (sst C) Z :=
  if decide (Z.to_nat off + Z.to_nat n <= length efb)%nat
  then mret (le_value (take (Z.to_nat n) (drop (Z.to_nat off) efb))) else crash.
Definition FCN_EXT : Z := 48.

(** The extension at [off], and the ones after it. *)
Definition fcn_ext (rsa sfc : Z) (status : errno) : M (sst C) errno :=
  k ← gets card;
  if sfc =? SFC_PWR_MGNT then
    upd_card (set_rsa rsa (perf_enh_fcn_rsa k));;
    x ← low_ (sd_extr_rd rsa PWR_MGNT_STATUS);
    (if bool_decide (fst x = EOK) && has (snd x) PWR_MGNT_STATUS_POFS then low_ (add_caps DEV_CAP_PWROFF_NOTIFY) else mret ());;
    mret (fst x)
  else if sfc =? SFC_PERF_ENH then
    upd_card (set_rsa (pwr_mgnt_fcn_rsa k) rsa);;
    x ← low_ (sd_extr_rd rsa PERF_ENH_CACHE_SUP);
    (if bool_decide (fst x = EOK) && has (snd x) PERF_ENH_CACHE_SUPPORTED then low_ (add_caps DEV_CAP_CACHE) else mret ());;
    mret (fst x)
  else mret status.
Fixpoint fcn_exts (n : nat) (efb : list Z) (off : Z) (status : errno) : M (sst C) errno :=
  match n with
  | O => mret status
  | S n' =>
      sfc ← info efb off 2; rsa ← info efb (off + 44) 4; pne ← info efb (off + 40) 2;
      status ← fcn_ext rsa sfc status;
      if Z.of_nat (length efb) <? pne + FCN_EXT then mret status else fcn_exts n' efb pne status
  end.
Definition read_page (addr : Z) : M (sst C) (errno * list Z) :=
  low_ (sd_rw_extr true SD_EXTR_MEM 0 0 addr SD_FCN_PG_SZ []).
Definition sd_parse_extended_fcn : M (sst C) errno :=
  k ← gets card;
  if negb (has (cmd_support (d_scr k)) SCR_CMD48_49_SUP) then mret ENOTSUP
  else
    x ← read_page 0;
    if decide (fst x <> EOK) then mret (fst x)
    else
      y ← read_page SD_FCN_PG_SZ;
      let efb := snd x ++ (if decide (fst y = EOK) then snd y else zero_page) in
      n ← info efb 4 1;
      fcn_exts (Z.to_nat n) efb 16 (fst x).
End sd.
