(* ===== verification/SdStep.v ===== *)
(** * What the steps of SdBus.v do to the link

    Partial correctness: what holds when a command with data comes back,
    for every controller with the laws of its entries, the sdhci driver
    included; and that everything comes back when such commands do. *)
From S2P Require Import Prelude Driver SdioReg SdioConst SimConst MmcConst SdConst Sdhci SdioCmd SdioSend SdioCard MmcBus MmcPlan SdBus.
Open Scope Z_scope.

(** ** Laws of the entries for SD cards *)
Class sd_laws (C : Type) `{bus_laws C} `{sd_entry C} := {
  drv_type_calm t : calm (entry_drv_type t);
  strength_calm f t d : entry_driver_strength = Some f -> calm (f t d);
  preset_calm f b : entry_preset = Some f -> calm (f b);
  sd_tune_calm : calm (entry_tune SD_SEND_TUNING_BLOCK);
  voltage_flags v k : hc_signal_voltage (set_dev_flags v k) = hc_signal_voltage k
}.

Section quiet.
Context {C : Type} `{bus_laws C} (no_memory : list issued -> bool).
Implicit Types (c : sdio_cmd_t).

(** ** The commands leave the state of the driver alone *)
Definition quiet_rel (s s' : cst C) (tr : list issued) : Prop :=
  dev s' = dev s /\ hc_caps (ctl s') = hc_caps (ctl s) /\ modes_of (ctl s') = modes_of (ctl s) /\ sent s' = sent s ++ tr.
Definition quiet {A} (m : M (cst C) A) : Prop := forall s, wlp m s (fun _ s' => exists tr, quiet_rel s s' tr).

Lemma quiet_id s : quiet_rel s s [].
Proof. do 3 (split; [done|]). by rewrite app_nil_r. Qed.
Lemma quiet_then s s1 s2 l l' : quiet_rel s s1 l -> quiet_rel s1 s2 l' -> quiet_rel s s2 (l ++ l').
Proof. intros (A1 & A2 & A3 & A4) (B1 & B2 & B3 & B4). do 3 (split; [congruence|]). by rewrite B4, A4, app_assoc. Qed.
Lemma quiet_pure {A} (a : A) : quiet (mret a).
Proof. intros s. apply wlp_ret. exists []. apply quiet_id. Qed.
Lemma quiet_gets {A} (f : cst C -> A) : quiet (gets f).
Proof. intros s. apply wlp_gets. exists []. apply quiet_id. Qed.
Lemma quiet_crash {A} : quiet (crash (A:=A)).
Proof. by intros s a s'. Qed.
Lemma quiet_seq {A B} (m : M (cst C) A) (k : A -> M (cst C) B) : quiet m -> (forall a, quiet (k a)) -> quiet (x ← m; k x).
Proof.
  intros Hm Hk s. apply wlp_bind. eapply wlp_mono; [apply Hm|]. intros a s1 [l Hl].
  eapply wlp_mono; [apply Hk|]. intros b s2 [l' Hl']. exists (l ++ l'). by eapply quiet_then.
Qed.
Lemma quiet_alloc : quiet (sdio_alloc_cmd no_memory).
Proof. intros s a s' [= _ <-]. exists []. apply quiet_id. Qed.
Lemma quiet_tuning : quiet ask_tuning.
Proof.
  intros s. apply wlp_modify. exists []. split; [done|]. simpl. rewrite app_nil_r. destruct (_ && _); [|done].
  split; [apply caps_flags|]. split; [|done]. unfold modes_of. by rewrite flags_hc.
Qed.
Lemma issue_quiet c t s : wlp (sdio_issue c t) s (fun o s' => quiet_rel s s' [(c, fst o, snd o)] /\ same_cmd c (snd o)).
Proof.
  intros [e c'] s'. unfold sdio_issue. destruct (entry_cmd c t (ctl s)) as [[[e1 c1] k]|] eqn:E; [|done].
  intros [= -> -> <-]. split; [|by eapply cmd_same]. split; [done|]. split; [by eapply cmd_caps|]. split; [by eapply cmd_modes|done].
Qed.
Create HintDb quiet.
#[local] Hint Resolve quiet_pure quiet_gets quiet_crash quiet_alloc quiet_tuning : quiet.
Ltac quiet := repeat (first
  [ solve [auto 2 with quiet] | apply quiet_seq; [|intros ?]
  | match goal with
    | |- quiet (if ?b then _ else _) => destruct b
    | |- quiet (match ?x with _ => _ end) => destruct x
    end ]; cbv zeta).

(** ** Sending a command

    Not a reliable write, which takes capabilities away on the way. *)
Definition lasting c : Prop := has (cflags c) SCF_SBC_RLW = false.
Definition sent_ok c (e : errno) (tr : list issued) : Prop := e = EOK -> exists x, x ∈ tr /\ completed x /\ same_cmd c (cmd_of x).

Section sender.
Context (send : sdio_cmd_t -> Z -> nat -> M (cst C) (errno * sdio_cmd_t)) (Hs : forall c t n, lasting c -> quiet (send c t n)).
Lemma quiet_setup c f op a t n : has f SCF_SBC_RLW = false -> quiet (send (sdio_setup_cmd c f op a) t n).
Proof. intros Hf. by apply Hs. Qed.
Hint Extern 1 (quiet (send (sdio_setup_cmd _ _ _ _) _ _)) => apply quiet_setup; first [reflexivity|case_match; reflexivity] : quiet.
Lemma quiet_status hpi : quiet (_sdio_send_status no_memory send hpi).
Proof. unfold _sdio_send_status. quiet. Qed.
#[local] Hint Resolve quiet_status : quiet.
Lemma quiet_wait_loop n mask val r : quiet (wait_loop no_memory send n mask val r).
Proof. revert r. induction n; intros; cbn [wait_loop]; quiet. Qed.
#[local] Hint Resolve quiet_wait_loop : quiet.
Lemma quiet_wait mask val t : quiet (_sdio_wait_card_status no_memory send mask val t).
Proof. unfold _sdio_wait_card_status, _sdio_wait_card_rsp. quiet. Qed.
Lemma quiet_prelude c : quiet (send_prelude no_memory send c).
Proof. unfold send_prelude, sd_app_cmd, _sdio_set_block_count, with_cmd. quiet. Qed.

Definition outcome_ok c (o : outcome) (tr : list issued) : Prop :=
  match o with
  | Stop e c' => same_cmd c c' /\ sent_ok c e tr
  | Leave e c' => same_cmd c c' /\ e <> EOK
  | Again e c' => same_cmd c c' /\ e <> EOK
  end.
Lemma own_wlp c t s : wlp (send_own no_memory send c t) s (fun o s' => exists tr, quiet_rel s s' tr /\ outcome_ok c o tr).
Proof.
  unfold send_own. apply wlp_bind. eapply wlp_mono; [apply issue_quiet|]. intros [e c1] s1 [Hq Hc]. cbn [fst snd] in *.
  assert (forall o, outcome_ok c o [(c, e, c1)] -> wlp (mret o) s1 (fun o s' => exists tr, quiet_rel s s' tr /\ outcome_ok c o tr)) as Hret.
  { intros o Ho. apply wlp_ret. eauto. }
  destruct (decide (e <> EOK)) as [He|He]; [apply Hret; split; [done|by intros E]|]. apply dec_stable in He as ->.
  destruct (cstatus c1 =? CS_CARD_REMOVED); [by apply Hret|]. clear Hret. apply wlp_bind.
  set (x := (c, EOK, c1)) in *.
  apply (wlp_mono _ _ (fun _ s2 => exists tr, quiet_rel s s2 tr /\ x ∈ tr)).
  { destruct (_ =? CS_DATA_CRC_ERR); [|apply wlp_ret; exists [x]; split; [done|set_solver]]. eapply wlp_mono; [apply quiet_tuning|].
    intros _ s2 [l Hl]. exists ([x] ++ l). split; [by eapply quiet_then|set_solver]. }
  intros _ s2 (tr & Hq2 & Hx). cbv zeta.
  destruct (decide (cmd_result (cstatus c1) = EOK)) as [He|He].
  2:{ destruct (has _ CDS_ILLEGAL_COMMAND); apply wlp_ret; exists tr; (split; [done|]); [split; [done|by intros E]|done]. }
  assert (completed x) as Hd.
  { split; [done|]. revert He. unfold cmd_result, x. simpl. destruct (cstatus c1 =? CS_CMD_CMP) eqn:E; zbool; [done|].
    by destruct (_ =? CS_CMD_TO_ERR). }
  apply wlp_bind, wlp_gets. destruct (_ && _).
  - apply wlp_bind. eapply wlp_mono; [apply quiet_wait|]. intros w s3 [l Hl]. apply wlp_ret. exists (tr ++ l).
    split; [by eapply quiet_then|]. split; [done|]. intros _. exists x. split; [set_solver|by split].
  - apply wlp_ret. exists tr. split; [done|]. split; [done|]. intros _. by exists x.
Qed.
Lemma round_wlp c t s : wlp (send_round no_memory send c t) s (fun o s' => exists tr, quiet_rel s s' tr /\ outcome_ok c o tr).
Proof.
  unfold send_round. cbv zeta. apply wlp_bind. eapply wlp_mono; [apply quiet_prelude|]. intros e s1 [l Hl].
  destruct (decide (e <> EOK)); [apply wlp_ret; exists l; split; [done|]; split; [done|by intros E]|].
  eapply wlp_mono; [apply own_wlp|]. intros o s2 (tr & Hq & Ho). exists (l ++ tr). split; [by eapply quiet_then|].
  destruct o as [e2 c2|e2 c2|e2 c2]; [|done|done]. destruct Ho as [Hc Ho]. split; [done|]. intros E.
  destruct (Ho E) as (x & Hx & Hd & Hm). exists x. split; [set_solver|]. by split.
Qed.
Lemma loop_wlp n c0 : forall c t s, same_cmd c0 c -> wlp (send_loop no_memory send n c t) s (fun o s' =>
  exists tr, quiet_rel s s' tr /\ sent_ok c0 (fst (fst o)) tr).
Proof.
  induction n as [|n IH]; intros c t s Hc; cbn [send_loop]; apply wlp_bind; (eapply wlp_mono; [apply round_wlp|]);
    intros [e c1|e c1|e c1] s1 (tr & Hq & [Hm Ho]).
  1,2,3,4,5: apply wlp_ret; exists tr; (split; [done|]); try (by intros E); intros E; destruct (Ho E) as (x & Hx & Hd & Hm');
    exists x; (split; [done|]); (split; [done|]); by eapply same_cmd_trans.
  eapply wlp_mono; [apply IH; by eapply same_cmd_trans|]. intros o s2 (tr2 & Hq2 & Ho2). exists (tr ++ tr2).
  split; [by eapply quiet_then|]. intros E. destruct (Ho2 E) as (x & Hx & Hd). exists x. split; [set_solver|done].
Qed.
End sender.

Lemma level_wlp n c t r s : lasting c -> wlp (_sdio_send_cmd no_memory n c t r) s (fun o s' =>
  exists tr, quiet_rel s s' tr /\ sent_ok c (fst o) tr).
Proof.
  revert c t r s. induction n as [|n IH]; intros c t r s Hc; [by intros a s'|]. cbn [_sdio_send_cmd].
  apply wlp_bind, wlp_gets. unfold lasting in Hc. rewrite Hc. apply wlp_bind, wlp_ret, wlp_bind.
  eapply wlp_mono; [apply (loop_wlp _ ltac:(intros c' t' n' Hc'; intros s'; eapply wlp_mono; [by apply IH|]; intros o s2 (tr & Hq & _); by exists tr)), same_refl|].
  intros [[e c1] b] s1 (tr & Hq & Ho). destruct b; [by apply wlp_ret; exists tr|]. apply wlp_bind, wlp_ret, wlp_ret. by exists tr.
Qed.
Lemma quiet_send c t r : lasting c -> quiet (send_cmd no_memory c t r).
Proof. intros Hc s. eapply wlp_mono; [by apply level_wlp|]. intros o s' (tr & Hq & _). by exists tr. Qed.
Lemma quiet_simple f op a t r : has f SCF_SBC_RLW = false -> quiet (simple_cmd no_memory f op a t r).
Proof.
  intros Hf. apply quiet_seq; [apply quiet_alloc|]. intros [c|]; [|apply quiet_pure].
  apply quiet_seq; [by apply quiet_send|]. intros x. apply quiet_pure.
Qed.
Lemma send_wlp c t r s : lasting c -> wlp (send_cmd no_memory c t r) s (fun o s' => exists tr, quiet_rel s s' tr /\ sent_ok c (fst o) tr).
Proof. apply level_wlp. Qed.
End quiet.

(** ** What a step does *)
Section steps.
Context {C : Type} `{sd_laws C} (no_memory no_buffer : list issued -> bool).
Context (transferred : list issued -> list Z) (buffer : Z).

(** The list does not claim what the card did not complete, or what an
    obedient controller would not refuse. *)
Definition sd_backed (tr : list issued) (ev : bus_event) : Prop :=
  match ev with
  | Functioned mode grp val EOK _ => exists x, x ∈ tr /\ completed x /\ is_cmd SD_SWITCH_FUNC (switch_func_arg mode grp val) x
  | Spread w EOK => exists x, x ∈ tr /\ completed x /\ is_cmd SD_AC_SET_BUS_WIDTH w x
  | Timed _ _ | Widened _ _ | Clocked _ _ => heeded (C:=C) ev
  | _ => True
  end.

(** What the driver knows of the card but its flags, and of the controller. *)
Definition info_of (s : mst C) : Z * Z * Z := (dcaps (dev (cmds s)), bus_modes (dev (cmds s)), k_caps s).
Definition went (s s' : mst C) (l : list bus_event) : Prop :=
  mdev s' = mdev s /\ info_of s' = info_of s /\ done s' = done s ++ l /\
  exists tr, sent (cmds s') = sent (cmds s) ++ tr /\ Forall (sd_backed tr) l.
Definition walk (s s' : mst C) (l : list bus_event) : Prop := went s s' l /\ modes s' = modes s.

Lemma sd_backed_more tr tr' ev : (forall x, x ∈ tr -> x ∈ tr') -> sd_backed tr ev -> sd_backed tr' ev.
Proof.
  intros Hx. destruct ev as [| | | | | | |mode grp val [] ss|w []| |]; try done;
    intros (x & Hi & Hc); exists x; split; [by apply Hx|done|by apply Hx|done].
Qed.
Lemma went_id s : went s s [].
Proof. do 2 (split; [done|]). split; [by rewrite app_nil_r|]. exists []. by rewrite app_nil_r. Qed.
Lemma went_then s1 s2 s3 l l' : went s1 s2 l -> went s2 s3 l' -> went s1 s3 (l ++ l').
Proof.
  intros (A1 & A2 & A4 & tr & A5 & A6) (B1 & B2 & B4 & tr' & B5 & B6).
  split; [congruence|]. split; [congruence|]. split; [by rewrite B4, A4, app_assoc|].
  exists (tr ++ tr'). split; [by rewrite B5, A5, app_assoc|]. apply Forall_app. split.
  - eapply Forall_impl; [exact A6|]. intros ev. apply sd_backed_more. intros x Hx. apply elem_of_app. by left.
  - eapply Forall_impl; [exact B6|]. intros ev. apply sd_backed_more. intros x Hx. apply elem_of_app. by right.
Qed.
Lemma walk_refl s : walk s s [].
Proof. split; [apply went_id|done]. Qed.
Lemma walk_trans s1 s2 s3 l l' : walk s1 s2 l -> walk s2 s3 l' -> walk s1 s3 (l ++ l').
Proof. intros [A1 A2] [B1 B2]. split; [by eapply went_then|congruence]. Qed.

(** The steps of the controller, from MmcPlan.v. *)
Lemma prim_walk m ev s : prim m ev -> (forall e tr, backed tr (ev e) -> sd_backed tr (ev e)) -> wlp m s (fun e s' => walk s s' [ev e]).
Proof.
  intros Hm Hb. apply wlp_post. eapply post_mono; [apply Hm|]. intros e s' [(E1 & E2 & E3 & E4 & tr & E5 & E6) Hs].
  split; [|done]. split; [done|]. unfold info_of. rewrite E1, E3. split; [done|]. split; [done|]. exists tr.
  split; [done|]. apply Forall_cons in E6 as [E6 _]. constructor; [by apply Hb|constructor].
Qed.
Lemma timing_walk t s : wlp (sdio_timing t) s (fun e s' => walk s s' [Timed t e]).
Proof. by apply (prim_walk _ (Timed t)); [apply prim_timing|]. Qed.
Lemma width_walk w s : wlp (sdio_bus_width w) s (fun e s' => walk s s' [Widened w e]).
Proof. by apply (prim_walk _ (Widened w)); [apply prim_width|]. Qed.
Lemma clock_walk v s : wlp (sdio_clock v) s (fun e s' => walk s s' [Clocked v e]).
Proof. by apply (prim_walk _ (Clocked v)); [apply prim_clock|]. Qed.
Lemma voltage_walk v s : wlp (sdio_signal_voltage v) s (fun e s' => walk s s' [Powered v e]).
Proof. by apply (prim_walk _ (Powered v)); [apply prim_voltage|]. Qed.
Lemma drv_walk t s : wlp (sdio_drv_type t) s (fun e s' => walk s s' [Driven t e]).
Proof. apply (prim_walk _ (Driven t)); [|done]. by apply prim_call; [apply drv_type_calm|]. Qed.
Lemma tune_walk s : wlp (sdio_tune SD_SEND_TUNING_BLOCK) s (fun e s' => walk s s' [Tuned SD_SEND_TUNING_BLOCK e]).
Proof. apply (prim_walk _ (Tuned SD_SEND_TUNING_BLOCK)); [|done]. by apply prim_call; [apply sd_tune_calm|]. Qed.

(** An entry that is not noted. *)
Lemma call_walk {A} (m : M C A) s : calm m -> wlp (cmd_ (hc_call m)) s (fun _ s' => walk s s' []).
Proof.
  intros Hm. apply wlp_post. destruct (Hm (ctl (cmds s))) as (a & k & E & E1 & E2).
  exists a, (Mst (Cst k (dev (cmds s)) (sent (cmds s))) (mdev s) (done s)). split; [unfold cmd_, hc_call; by rewrite E|].
  split; [|exact E2]. split; [done|]. split; [unfold info_of, k_caps; simpl; by rewrite E1|]. split; [by rewrite app_nil_r|].
  exists []. by rewrite app_nil_r.
Qed.
Lemma preset_walk b s : wlp (sdio_preset b) s (fun _ s' => walk s s' []).
Proof.
  unfold sdio_preset. destruct entry_preset as [f|] eqn:E; [|apply wlp_ret, walk_refl]. by apply call_walk, (preset_calm f).
Qed.

(** Commands. *)
Lemma cmd_walk {A} (m : M (cst C) A) s (R : A -> list issued -> Prop) :
  wlp m (cmds s) (fun a c => exists tr, quiet_rel (cmds s) c tr /\ R a tr) ->
  wlp (cmd_ m) s (fun a s' => walk s s' [] /\ exists tr, sent (cmds s') = sent (cmds s) ++ tr /\ R a tr).
Proof.
  intros Hm a s'. unfold cmd_. destruct (m (cmds s)) as [[a1 c]|] eqn:E; [|done]. intros [= <- <-].
  destruct (Hm _ _ E) as (tr & (A1 & A2 & A3 & A4) & HR). split; [|by exists tr].
  split; [|exact A3]. split; [done|]. split; [unfold info_of, k_caps; simpl; by rewrite A1, A2|]. split; [by rewrite app_nil_r|].
  by exists tr.
Qed.
Lemma quiet_walk {A} (m : M (cst C) A) s : quiet m -> wlp (cmd_ m) s (fun _ s' => walk s s' []).
Proof.
  intros Hm. eapply wlp_mono; [apply (cmd_walk m s (fun _ _ => True))|by intros a s' [? _]].
  eapply wlp_mono; [apply Hm|]. intros a c (tr & Hq). by exists tr.
Qed.
Lemma buffer_walk {A} (e : A) (f : sdio_cmd_t -> M (mst C) A) s Q : wlp (f zero_cmd) s Q -> Q e s -> wlp (with_buffer no_memory no_buffer e f) s Q.
Proof.
  intros Hf He. apply wlp_bind. intros o s1 E1. unfold cmd_, sdio_alloc_cmd in E1. injection E1 as <- <-.
  apply wlp_bind, wlp_gets. replace (Mst (cmds s) (mdev s) (done s)) with s by (by destruct s). 
  destruct (no_memory _); [by apply wlp_ret|]. cbv beta iota. destruct (no_buffer _); [by apply wlp_ret|done].
Qed.
Lemma read_walk flgs op a n s : has flgs SCF_SBC_RLW = false ->
  wlp (read_reg no_memory no_buffer transferred buffer flgs op a n) s (fun x s' => walk s s' [] /\
    exists tr, sent (cmds s') = sent (cmds s) ++ tr /\ (fst x = EOK -> exists y, y ∈ tr /\ completed y /\ is_cmd op a y)).
Proof.
  intros Hf. apply buffer_walk.
  2:{ split; [apply walk_refl|]. exists []. by rewrite app_nil_r. }
  unfold read_cmd. apply wlp_bind. eapply wlp_mono.
  { apply (cmd_walk _ _ (fun x tr => fst x = EOK -> exists y, y ∈ tr /\ completed y /\ is_cmd op a y)).
    eapply wlp_mono; [apply send_wlp|].
    - unfold lasting. simpl. rewrite !has_or, Hf. reflexivity.
    - intros x c (tr & Hq & Hx). exists tr. split; [done|]. intros E. destruct (Hx E) as (y & Hy & Hc & (_ & E1 & E2 & _)).
      exists y. split; [done|]. split; [done|]. by split. }
  intros x s1 [Hw Hx]. apply wlp_bind, wlp_gets, wlp_ret. by split.
Qed.
Lemma walk_note s s' ev : walk s s' [] -> (exists tr, sent (cmds s') = sent (cmds s) ++ tr /\ sd_backed tr ev) ->
  walk s (Mst (cmds s') (mdev s') (done s' ++ [ev])) [ev].
Proof.
  intros [(A1 & A2 & A3 & _) A4] (tr & E & Hb). rewrite app_nil_r in A3. split; [|exact A4]. split; [done|]. split; [done|].
  split; [by rewrite A3|]. exists tr. split; [done|]. by constructor.
Qed.
Lemma switch_walk mode grp val s : wlp (sd_switch no_memory no_buffer transferred buffer mode grp val) s (fun x s' =>
  walk s s' [Functioned mode grp val (fst x) (snd x)]).
Proof.
  unfold sd_switch. apply wlp_bind. eapply wlp_mono; [by apply read_walk|]. intros [e l] s1 [Hw (tr & E & Hx)]. cbn [fst snd] in *.
  cbv zeta. apply wlp_bind, wlp_modify, wlp_ret. apply walk_note; [done|]. exists tr. split; [done|]. cbn [fst snd].
  destruct (bool_decide_reflect (e = EOK)) as [->|Hn]; [|by destruct e].
  cbn [andb]. destruct ((mode =? _) && _); [done|]. simpl. by apply Hx.
Qed.
Lemma spread_walk w s : wlp (sd_app_set_bus_width no_memory w) s (fun e s' => walk s s' [Spread w e]).
Proof.
  unfold sd_app_set_bus_width, note. apply wlp_bind. eapply wlp_mono.
  { apply (cmd_walk _ _ (fun e tr => e = EOK -> exists y, y ∈ tr /\ completed y /\ is_cmd SD_AC_SET_BUS_WIDTH w y)).
    unfold simple_cmd, with_cmd. apply wlp_bind. intros o c [= <- <-]. destruct (no_memory _).
    { apply wlp_ret. exists []. split; [apply quiet_id|done]. }
    apply wlp_bind. eapply wlp_mono; [by apply send_wlp|]. intros x c (tr & Hq & Hx). apply wlp_ret. exists tr. split; [done|].
    intros E. destruct (Hx E) as (y & Hy & Hc & (_ & E1 & E2 & _)). exists y. do 2 (split; [done|]). by split. }
  intros e s1 [Hw (tr & E & Hx)]. apply wlp_bind, wlp_modify, wlp_ret. apply walk_note; [done|]. exists tr. split; [done|].
  destruct e; try done. by apply Hx.
Qed.
End steps.
