(* ===== verification/SdLink.v ===== *)
(** * The link of an SD card: what its two sides are set to

    The state of both sides after a list of events, what it has to be in
    each mode, and that sd_init_bus reaches it. *)
From S2P Require Import Prelude Driver SdioReg SdioConst SimConst MmcConst SdConst Sdhci SdioCmd SdioSend SdioCard MmcBus MmcPlan MmcLink SdBus SdStep.
Open Scope Z_scope.

(** ** Both sides *)

(** What the card reports of a group of functions after a switch. *)
Definition reported (grp : Z) (l : list Z) : Z := Z.land (Z.shiftr (byte l (16 - grp / 2)) (4 * (grp mod 2))) 0xf.

Lemma reported_speed l : reported SD_SF_GRP_BUS_SPD l = Z.land (byte l 16) 0xf.
Proof. unfold reported. change (4 * (SD_SF_GRP_BUS_SPD mod 2)) with 0. by rewrite Z.shiftr_0_r. Qed.

(** The functions and the width of the card, and the timing, the width and the
    clock of the controller, as each side acknowledged them; unknown after a
    refusal. *)
Record sd_link := SdLink {
  c_speed : option Z; c_limit : option Z; c_width : option Z; h_timing : option Z; h_width : option Z; h_clk : option Z
}.
Definition sd_link_step (L : sd_link) (ev : bus_event) : sd_link :=
  match ev with
  | Functioned mode grp _ e l =>
      let f := if decide (e = EOK) then Some (reported grp l) else None in
      if negb (mode =? SD_SF_MODE_SET) then L
      else if grp =? SD_SF_GRP_BUS_SPD then SdLink f (c_limit L) (c_width L) (h_timing L) (h_width L) (h_clk L)
      else if grp =? SD_SF_GRP_CUR_LMT then SdLink (c_speed L) f (c_width L) (h_timing L) (h_width L) (h_clk L)
      else L
  | Spread w e => SdLink (c_speed L) (c_limit L) (known w e) (h_timing L) (h_width L) (h_clk L)
  | Timed t e => SdLink (c_speed L) (c_limit L) (c_width L) (known t e) (h_width L) (h_clk L)
  | Widened w e => SdLink (c_speed L) (c_limit L) (c_width L) (h_timing L) (known w e) (h_clk L)
  | Clocked c e => SdLink (c_speed L) (c_limit L) (c_width L) (h_timing L) (h_width L) (known c e)
  | _ => L
  end.
Definition sd_power_up : sd_link := SdLink None None None None None None.
Definition sd_link_of (l : list bus_event) : sd_link := foldl sd_link_step sd_power_up l.

(** ** The modes *)

(** A mode of UHS: its function, and the timing and the clock for it. *)
Definition uhs_modes : list (Z * (Z * Z * Z)) :=
  [(SD_BUS_MODE_SDR12, (0, TIMING_SDR12, 25000000)); (SD_BUS_MODE_SDR25, (1, TIMING_SDR25, 50000000));
   (SD_BUS_MODE_SDR50, (2, TIMING_SDR50, 100000000)); (SD_BUS_MODE_SDR104, (3, TIMING_SDR104, 208000000));
   (SD_BUS_MODE_DDR50, (4, TIMING_DDR50, 50000000))].

(** What the controller acknowledged; or it is not known, and a refusal that
    the code does not look at is among the events [l] of the call. *)
Definition sd_took (P : bus_event -> Prop) (l : list bus_event) (o : option Z) (v : Z) : Prop :=
  o = Some v \/ o = None /\ exists ev, ev ∈ l /\ P ev.
Definition four_bits (l : list bus_event) (L : sd_link) : Prop :=
  c_width L = Some SD_BUS_WIDTH_4 /\ sd_took refuses_setting l (h_width L) BUS_WIDTH_4.
Definition timed (l : list bus_event) (t c : Z) (L : sd_link) : Prop :=
  sd_took refuses_setting l (h_timing L) t /\ sd_took unclocked l (h_clk L) c.
Definition in_uhs (l : list bus_event) (m limit : Z) (L : sd_link) : Prop := exists f t c, (m, (f, t, c)) ∈ uhs_modes /\
  four_bits l L /\ c_limit L = Some limit /\ c_speed L = Some f /\ timed l t c L.
Definition in_sd_hs (l : list bus_event) (dtr : Z) (L : sd_link) : Prop := c_speed L = Some 1 /\ timed l TIMING_HS dtr L.
Definition in_sd_ls (l : list bus_event) (dtr : Z) (L : sd_link) : Prop := timed l TIMING_LS dtr L.

Lemma known_took (P : bus_event -> Prop) l v e ev : ev ∈ l -> (e <> EOK -> P ev) -> sd_took P l (known v e) v.
Proof. unfold sd_took, known. destruct (decide (e = EOK)); [by left|right]. split; [done|]. exists ev. auto. Qed.
Lemma took_within P l l' o v : l ⊆ l' -> sd_took P l o v -> sd_took P l' o v.
Proof. intros Hl [E|(E & ev & Hi & HP)]; [by left|right]. split; [done|]. exists ev. auto. Qed.
Lemma timed_within l l' t c L : l ⊆ l' -> timed l t c L -> timed l' t c L.
Proof. intros Hl [A1 A2]. split; by eapply took_within. Qed.
Lemma sd_link_app l l' : sd_link_of (l ++ l') = foldl sd_link_step (sd_link_of l) l'.
Proof. apply foldl_app. Qed.

(** The mode that is taken is the first of the list that both sides have,
    and SDR12 where there is none. *)
Definition sd_order : list (Z * Z) :=
  [(SD_BUS_MODE_SDR104, HC_CAP_SDR104); (SD_BUS_MODE_DDR50, HC_CAP_DDR50); (SD_BUS_MODE_SDR50, HC_CAP_SDR50);
   (SD_BUS_MODE_SDR25, HC_CAP_SDR25)].
Definition both_have (k b : Z) (x : Z * Z) : bool := has b (fst x) && has k (snd x).
Lemma select_first k b : sd_select_bus_mode k b = default SD_BUS_MODE_SDR12 (fst <$> List.find (both_have k b) sd_order).
Proof. unfold sd_select_bus_mode, both_have. simpl. by repeat destruct (_ && _). Qed.

(** How far down the list a choice is. *)
Definition rank (m : Z) : Z :=
  if m =? SD_BUS_MODE_SDR104 then 4 else if m =? SD_BUS_MODE_DDR50 then 3 else if m =? SD_BUS_MODE_SDR50 then 2
  else if m =? SD_BUS_MODE_SDR25 then 1 else 0.
Lemma select_cases k b : sd_select_bus_mode k b ∈ [SD_BUS_MODE_SDR104; SD_BUS_MODE_DDR50; SD_BUS_MODE_SDR50; SD_BUS_MODE_SDR25; SD_BUS_MODE_SDR12].
Proof. unfold sd_select_bus_mode. repeat destruct (_ && _); set_solver. Qed.
Lemma select_down k b : let m := sd_select_bus_mode k b in rank (sd_select_bus_mode k (Z.ldiff b m)) < rank m \/ m = SD_BUS_MODE_SDR12.
Proof.
  cbv zeta. set (m := sd_select_bus_mode k b). unfold sd_select_bus_mode at 1.
  change SD_BUS_MODE_SDR104 with (2 ^ 3) at 1. change SD_BUS_MODE_DDR50 with (2 ^ 4) at 1.
  change SD_BUS_MODE_SDR50 with (2 ^ 2) at 1. change SD_BUS_MODE_SDR25 with (2 ^ 1) at 1. rewrite !has_ldiff by done.
  unfold m, sd_select_bus_mode.
  change (2 ^ 3) with SD_BUS_MODE_SDR104. change (2 ^ 4) with SD_BUS_MODE_DDR50. change (2 ^ 2) with SD_BUS_MODE_SDR50.
  change (2 ^ 1) with SD_BUS_MODE_SDR25.
  destruct (has b SD_BUS_MODE_SDR104), (has k HC_CAP_SDR104), (has b SD_BUS_MODE_DDR50), (has k HC_CAP_DDR50),
    (has b SD_BUS_MODE_SDR50), (has k HC_CAP_SDR50), (has b SD_BUS_MODE_SDR25), (has k HC_CAP_SDR25); (by left) || (by right).
Qed.

Section link.
Context {C : Type} `{sd_laws C} (no_memory no_buffer : list issued -> bool).
Context (transferred : list issued -> list Z) (buffer : Z).
Implicit Types (L : sd_link).

Lemma wlp_check {S} (m k : M S errno) s (Q : errno -> S -> Prop) :
  wlp m s (fun e s1 => (e <> EOK -> Q e s1) /\ (e = EOK -> wlp k s1 Q)) -> wlp (m !; k) s Q.
Proof.
  intros Hm. apply wlp_bind. eapply wlp_mono; [exact Hm|]. intros e s1 [H1' H2']. destruct (decide (e <> EOK)) as [He|He].
  - apply wlp_ret. auto.
  - apply H2'. by apply dec_stable.
Qed.

(** ** The same with what is known of the card *)
Definition sd_went (s s' : sst C) (l : list bus_event) : Prop := card s' = card s /\ went (low s) (low s') l.
Definition sd_modes (s : sst C) : Z := modes (low s).
Lemma low_wlp {A} (m : M (mst C) A) s Q : wlp m (low s) (fun a b => Q a (Sst b (card s))) -> wlp (low_ m) s Q.
Proof. intros Hm a s'. unfold low_. destruct (m (low s)) as [[a1 b]|] eqn:E; [|done]. intros [= <- <-]. by apply Hm. Qed.
Lemma flag_went f (s : mst C) : wlp (upd_dflags (fun x => Z.lor x f)) s (fun _ s' => went s s' [] /\ modes s' = Z.lor (modes s) (Z.land f MODES)).
Proof.
  intros a s' [= <- <-]. split.
  - split; [done|]. split; [unfold info_of, k_caps; simpl; by rewrite caps_dev_flags|]. split; [by rewrite app_nil_r|].
    exists []. by rewrite app_nil_r.
  - unfold modes, modes_of. simpl. by rewrite flags_set, land_modes_lor.
Qed.
Lemma caps_went (s s' : mst C) l : went s s' l -> k_caps s' = k_caps s.
Proof. by intros (_ & [= _ _ ?] & _). Qed.

(** From [s] so far. *)
Definition sofar (s s1 : sst C) (l : list bus_event) : Prop := sd_went s s1 l /\ sd_modes s1 = sd_modes s.
Lemma sofar_low s s1 l b l' : sofar s s1 l -> walk (low s1) b l' -> sofar s (Sst b (card s1)) (l ++ l').
Proof. intros [[A1 A2] A3] [B1 B2]. split; [split; [done|by eapply went_then]|]. etrans; [exact B2|exact A3]. Qed.
Lemma sofar_info s s1 l : sofar s s1 l -> card s1 = card s /\ k_caps (low s1) = k_caps (low s) /\
  bus_modes (dev (cmds (low s1))) = bus_modes (dev (cmds (low s))) /\ dcaps (dev (cmds (low s1))) = dcaps (dev (cmds (low s))) /\
  mdev (low s1) = mdev (low s).
Proof. by intros [[A1 (A2 & [= A3 A4 A5] & _)] _]. Qed.
Lemma sofar_refl s : sofar s s [].
Proof. split; [split; [done|apply went_id]|done]. Qed.

(** ** The parts of sd_init_bus *)
Lemma hs_walk s : wlp (sd_switch_hs no_memory no_buffer transferred buffer) s (fun e s' => exists l, walk s s' l /\
  (e = EOK -> forall L, c_speed (foldl sd_link_step L l) = Some 1)).
Proof.
  apply wlp_bind. eapply wlp_mono; [apply switch_walk|]. intros [e l] s1 Hw. apply wlp_ret. eexists. split; [exact Hw|].
  cbn [fst snd]. destruct (decide (e = EOK)) as [->|Hn]; [|done]. destruct (_ =? 1) eqn:E; [|done]. zbool. intros _ L.
  change (Some (reported SD_SF_GRP_BUS_SPD l) = Some 1). by rewrite reported_speed, E.
Qed.
Lemma width_went s : wlp (sd_set_bus_width no_memory BUS_WIDTH_4) s (fun e s' => exists l, sd_went s s' l /\ sd_modes s' = sd_modes s /\
  forall L, let L' := foldl sd_link_step L l in (e = EOK -> four_bits l L') /\ c_speed L' = c_speed L /\ c_limit L' = c_limit L).
Proof.
  apply wlp_bind, low_wlp, wlp_gets, wlp_bind, wlp_gets. destruct (sd_width _ _ _) as [w|] eqn:Ew.
  2:{ apply wlp_ret. exists []. split; [split; [done|]; apply went_id|]. done. }
  assert (w = SD_BUS_WIDTH_4) as ->. { revert Ew. unfold sd_width. simpl. destruct (_ && _); by intros [= <-]. }
  apply low_wlp, wlp_check. eapply wlp_mono; [apply spread_walk|]. intros e s1 [Hw Hm]. split.
  - intros He. eexists. split; [split; [done|exact Hw]|]. split; [exact Hm|]. intros L. by split.
  - intros ->. apply wlp_bind. eapply wlp_mono; [apply width_walk|]. intros e s2 [Hw2 Hm2]. apply wlp_ret.
    eexists. split; [split; [done|]; exact (went_then _ _ _ _ _ Hw Hw2)|]. split; [by etrans|].
    intros L. split; [|done]. intros _. split; [done|]. eapply (known_took _ _ _ e (Widened BUS_WIDTH_4 e)); [set_solver|done].
Qed.
Lemma drv_walks m t s : wlp (sd_set_drv_type no_memory no_buffer transferred buffer m t) s (fun e s' => exists l, walk s s' l /\
  forall L, foldl sd_link_step L l = L).
Proof.
  apply wlp_bind, wlp_gets. assert (forall e, wlp (mret e) s (fun (e : errno) s' => exists l, walk s s' l /\ forall L, foldl sd_link_step L l = L)) as Hret.
  { intros e. apply wlp_ret. exists []. split; [apply walk_refl|done]. }
  destruct entry_driver_strength as [f|] eqn:Ef; [|apply Hret]. destruct (_ =? 0); [apply Hret|].
  destruct (sd_timing _) as [tm|]; [|apply Hret]. clear Hret. apply wlp_bind.
  eapply wlp_mono; [by eapply call_walk, strength_calm|]. intros d s1 Hw1. cbv zeta. apply wlp_bind.
  eapply wlp_mono; [apply switch_walk|]. intros [e l] s2 Hw2. cbn [fst snd]. pose proof (walk_trans _ _ _ _ _ Hw1 Hw2) as Hw.
  assert (forall L, foldl sd_link_step L [Functioned SD_SF_MODE_SET SD_SF_GRP_DRV_STR ((fls d - 1) mod 256) e l] = L) as HL by done.
  destruct (decide (e <> EOK)); [apply wlp_ret; eexists; split; [exact Hw|exact HL]|].
  destruct (_ =? fls d - 1); [|apply wlp_ret; eexists; split; [exact Hw|exact HL]].
  apply wlp_bind. eapply wlp_mono; [apply drv_walk|]. intros e3 s3 Hw3. apply wlp_ret. eexists.
  split; [exact (walk_trans _ _ _ _ _ Hw Hw3)|done].
Qed.
Lemma limit_walk m c s : wlp (sd_set_current_limit no_memory no_buffer transferred buffer m c) s (fun e s' => exists l, walk s s' l /\
  forall L, let L' := foldl sd_link_step L l in (c_width L' = c_width L /\ h_width L' = h_width L) /\ (e = EOK -> c_limit L' = Some (current_index (k_caps s) m c))).
Proof.
  apply wlp_bind, wlp_gets. cbv zeta. apply wlp_bind. eapply wlp_mono; [apply switch_walk|]. intros [e l] s1 Hw. apply wlp_ret.
  eexists. split; [exact Hw|]. cbn [fst snd]. intros L. split; [done|]. destruct (decide (e = EOK)) as [->|Hn]; [|done].
  destruct (_ =? current_index _ _ _) eqn:E; [|done]. zbool. intros _. exact (f_equal Some E).
Qed.
Lemma speed_gen m idx t s : m <> 0 -> fls m - 1 = idx -> sd_timing idx = Some t ->
  wlp (sd_set_bus_speed_mode no_memory no_buffer transferred buffer m) s (fun e s' => exists l, walk s s' l /\
    (e = EOK -> forall L, let L' := foldl sd_link_step L l in (c_width L' = c_width L /\ h_width L' = h_width L) /\ c_limit L' = c_limit L /\
       c_speed L' = Some (Z.land (idx) 0xf) /\ timed l t (sd_dtr idx) L')).
Proof.
  intros Hm <- Ht. unfold sd_set_bus_speed_mode. rewrite (proj2 (Z.eqb_neq _ _) Hm), Ht. cbv zeta. apply wlp_bind.
  eapply wlp_mono; [apply switch_walk|]. intros [e l] s1 Hw. cbn [fst snd].
  destruct (decide (e <> EOK)) as [Hn|Hn]; [apply wlp_ret; eexists; split; [exact Hw|done]|]. apply dec_stable in Hn as ->.
  destruct (_ =? fls m - 1) eqn:E; [|apply wlp_ret; eexists; split; [exact Hw|done]]. zbool.
  apply wlp_bind. eapply wlp_mono; [apply timing_walk|]. intros e2 s2 Hw2. apply wlp_bind.
  eapply wlp_mono; [apply clock_walk|]. intros e3 s3 Hw3. apply wlp_ret. eexists.
  split; [exact (walk_trans _ _ _ _ _ Hw (walk_trans _ _ _ _ _ Hw2 Hw3))|]. intros _ L.
  split; [done|]. split; [done|]. split; [|split].
  - change (Some (reported SD_SF_GRP_BUS_SPD l) = Some (Z.land (fls m - 1) 0xf)). rewrite reported_speed, E.
    rewrite <- E at 2. rewrite <- Z.land_assoc. by apply f_equal.
  - eapply (known_took _ _ _ e2 (Timed t e2)); [set_solver|done].
  - eapply (known_took _ _ _ e3 (Clocked (sd_dtr (fls m - 1)) e3)); [set_solver|done].
Qed.

Lemma speed_walk m s : m ∈ fst <$> uhs_modes ->
  wlp (sd_set_bus_speed_mode no_memory no_buffer transferred buffer m) s (fun e s' => exists l, walk s s' l /\
    (e = EOK -> forall L, let L' := foldl sd_link_step L l in (c_width L' = c_width L /\ h_width L' = h_width L) /\ c_limit L' = c_limit L /\
       exists f t c, (m, (f, t, c)) ∈ uhs_modes /\ c_speed L' = Some f /\ timed l t c L')).
Proof.
  intros Hm. apply list_elem_of_fmap in Hm as ([m' [[f t] c]] & -> & Hi).
  assert (m' <> 0 /\ sd_timing (fls m' - 1) = Some t /\ Z.land (fls m' - 1) 0xf = f /\ sd_dtr (fls m' - 1) = c) as (Hn & Ht & Hf & Hc).
  { unfold uhs_modes in Hi. repeat (apply elem_of_cons in Hi as [[= -> -> -> ->]|Hi]; [done|]). by apply not_elem_of_nil in Hi. }
  eapply wlp_mono; [exact (speed_gen m' _ t s Hn eq_refl Ht)|]. intros e s' (l & Hw & Hl). exists l. split; [done|].
  intros He L. destruct (Hl He L) as (A1 & A2 & A3 & A4). do 2 (split; [done|]). exists f, t, c.
  split; [done|]. rewrite A3, Hf. split; [done|]. by rewrite <- Hc.
Qed.
Lemma select_known k b : sd_select_bus_mode k b ∈ fst <$> uhs_modes.
Proof. unfold sd_select_bus_mode. repeat destruct (_ && _); set_solver. Qed.

Lemma assd_went s : wlp (sd_init_assd no_memory no_buffer transferred buffer) s (fun e s' => exists l, sd_went s s' l /\
  sd_modes s' = sd_modes s /\ forall L, foldl sd_link_step L l = L).
Proof.
  apply wlp_bind, wlp_gets. cbv zeta. apply wlp_bind, low_wlp. eapply wlp_mono; [apply switch_walk|]. intros x s1 [Hw Hm].
  apply wlp_ret. eexists. split; [split; [done|exact Hw]|]. by split.
Qed.

(** ** All of it *)
Definition limit_of (s : sst C) : Z :=
  let k := k_caps (low s) in
  current_index k (sd_select_bus_mode k (bus_modes (dev (cmds (low s))))) (sw_curr_limit (swcaps (card s))).
Definition uhs_mode (s : sst C) : Z := sd_select_bus_mode (k_caps (low s)) (bus_modes (dev (cmds (low s)))).
Ltac failed S := let He := fresh in let E := fresh in intros He; eexists; destruct S as [? ?]; split; [eassumption|];
  split; [intros _; assumption|intros E; destruct (He E)].
Lemma uhs_went s : wlp (sd_init_uhs no_memory no_buffer transferred buffer) s (fun e s' => exists l, sd_went s s' l /\
  (e <> EOK -> sd_modes s' = sd_modes s) /\
  (e = EOK -> sd_modes s' = Z.lor (sd_modes s) DEV_FLAG_UHS /\ forall L, in_uhs l (uhs_mode s) (limit_of s) (foldl sd_link_step L l))).
Proof.
  apply wlp_check. eapply wlp_mono; [apply width_went|]. intros e s1 (l1 & W1 & M1 & F1).
  assert (sofar s s1 l1) as S1 by by split. clear W1 M1. split.
  { failed S1. }
  intros ->. destruct (sofar_info _ _ _ S1) as (K1 & Ek & Eb & _). destruct s1 as [b1 k1]. simpl in K1, Ek, Eb. subst k1.
  apply wlp_bind, low_wlp, wlp_gets, wlp_bind, wlp_gets, wlp_bind, wlp_gets. cbv zeta. simpl.
  rewrite Eb. change (hc_caps (ctl (cmds b1))) with (k_caps b1). rewrite Ek. fold (uhs_mode s).
  apply wlp_check, low_wlp. eapply wlp_mono; [apply drv_walks|]. intros e b2 (l2 & W2 & F2).
  pose proof (sofar_low _ _ _ _ _ S1 W2) as S2. split.
  { failed S2. }
  intros ->. destruct (sofar_info _ _ _ S2) as (_ & Ek2 & _).
  apply wlp_check, low_wlp. eapply wlp_mono; [apply limit_walk|]. intros e b3 (l3 & W3 & F3).
  pose proof (sofar_low _ _ _ _ _ S2 W3) as S3. simpl in *. rewrite Ek2 in F3. split.
  { failed S3. }
  intros ->.
  apply wlp_check, low_wlp. eapply wlp_mono; [apply speed_walk, select_known|]. intros e b4 (l4 & W4 & F4).
  pose proof (sofar_low _ _ _ _ _ S3 W4) as S4. simpl in *. split.
  { failed S4. }
  intros ->. specialize (F4 eq_refl).
  apply wlp_bind, low_wlp. eapply wlp_mono; [apply preset_walk|]. intros e5 b5 W5. pose proof (sofar_low _ _ _ _ _ S4 W5) as S5. simpl in *.
  apply wlp_bind, low_wlp. eapply wlp_mono; [apply tune_walk|]. intros e6 b6 W6. pose proof (sofar_low _ _ _ _ _ S5 W6) as S6. simpl in *.
  apply wlp_bind, low_wlp. eapply wlp_mono; [apply flag_went|]. intros e7 b7 [W7 M7]. apply wlp_ret.
  destruct S6 as [[K6 W6'] M6]. eexists. split; [split; [exact K6|exact (went_then _ _ _ _ _ W6' W7)]|]. split; [done|]. intros _.
  split. { etrans; [exact M7|]. f_equal. exact M6. }
  intros L. rewrite !foldl_app, F2. simpl.
  destruct (F1 L) as (A1 & A2 & A3). destruct (F3 (foldl sd_link_step L l1)) as (B1 & B2).
  destruct (F4 (foldl sd_link_step (foldl sd_link_step L l1) l3)) as ((D1 & D1') & D2 & f & t & c & D3 & D4 & D5).
  destruct B1 as [B1 B1']. destruct (A1 eq_refl) as [A1' A1''].
  exists f, t, c. split; [done|]. split; [split; [by rewrite D1, B1|]|]; [rewrite D1', B1'; eapply took_within; [|exact A1'']; set_solver|].
  split; [rewrite D2; by apply B2|]. split; [done|]. eapply timed_within; [|exact D5]. set_solver.
Qed.

(** ** The cards at 3.3 V *)
Lemma block_walk n s : wlp (cmd_ (_sdio_set_block_length no_memory n)) s (fun _ s' => walk s s' []).
Proof.
  assert (wlp (_sdio_set_block_length no_memory n) (cmds s) (fun _ c => (exists tr, sent c = sent (cmds s) ++ tr) /\
    (dcaps (dev c), bus_modes (dev c), hc_caps (ctl c)) = info_of s /\ modes_of (ctl c) = modes s)) as Hm.
  { apply wlp_bind, wlp_gets, wlp_bind, wlp_gets.
    assert (forall e, wlp (mret e) (cmds s) (fun (_ : errno) c => (exists tr, sent c = sent (cmds s) ++ tr) /\
      (dcaps (dev c), bus_modes (dev c), hc_caps (ctl c)) = info_of s /\ modes_of (ctl c) = modes s)) as Hret.
    { intros e. apply wlp_ret. split; [|done]. exists []. by rewrite app_nil_r. }
    destruct (_ && _); [apply Hret|]. destruct (_ =? n); [apply Hret|]. clear Hret. apply wlp_bind.
    eapply wlp_mono; [by apply quiet_simple|]. intros e c (tr & A1 & A2 & A3 & A4). apply wlp_bind.
    destruct (decide (e = EOK)); [apply wlp_modify|apply wlp_ret]; apply wlp_ret; (split; [by exists tr|]); unfold info_of, k_caps;
      simpl; rewrite A1, A2; by split. }
  intros e s'. unfold cmd_. destruct (_sdio_set_block_length _ _ _) as [[e1 c]|] eqn:E; [|done]. intros [= <- <-].
  destruct (Hm _ _ E) as (Htr & Hi & Hmo). split; [|exact Hmo]. split; [done|]. split; [exact Hi|]. split; [by rewrite app_nil_r|].
  destruct Htr as [tr Htr]. by exists tr.
Qed.

Lemma slow_went (b : bool) t d s :
  wlp ((if b then sd_set_bus_width no_memory BUS_WIDTH_4 else mret EOK) !;
       (low_ (sdio_timing t);; low_ (sdio_clock d);; low_ (cmd_ (_sdio_set_block_length no_memory SDIO_DFLT_BLKSZ)))) s
    (fun e s' => exists l, sd_went s s' l /\ sd_modes s' = sd_modes s /\ forall L, let L' := foldl sd_link_step L l in
      c_speed L' = c_speed L /\ (e = EOK -> timed l t d L' /\ (b = true -> four_bits l L'))).
Proof.
  apply wlp_check. apply (wlp_mono _ _ (fun e s' => exists l, sofar s s' l /\ forall L, let L' := foldl sd_link_step L l in
    c_speed L' = c_speed L /\ (e = EOK -> b = true -> four_bits l L'))).
  { destruct b; [|apply wlp_ret; exists []; split; [apply sofar_refl|done]].
    eapply wlp_mono; [apply width_went|]. intros e s1 (l & W & M & F). exists l. split; [by split|].
    intros L. destruct (F L) as (A1 & A2 & A3). split; [exact A2|]. auto. }
  intros e s1 (l & S1 & F). split.
  { intros He. destruct S1. exists l. split; [done|]. split; [done|]. intros L. destruct (F L) as [A1 A2]. by split. }
  intros ->. destruct s1 as [b1 k1]. destruct (sofar_info _ _ _ S1) as (K1 & _). simpl in K1. subst k1.
  apply wlp_bind, low_wlp. eapply wlp_mono; [apply timing_walk|]. intros e2 b2 W2. pose proof (sofar_low _ _ _ _ _ S1 W2) as S2.
  apply wlp_bind, low_wlp. eapply wlp_mono; [apply clock_walk|]. intros e3 b3 W3. pose proof (sofar_low _ _ _ _ _ S2 W3) as S3.
  apply low_wlp. eapply wlp_mono; [apply block_walk|]. intros e4 b4 W4. pose proof (sofar_low _ _ _ _ _ S3 W4) as [W M].
  eexists. split; [exact W|]. split; [exact M|]. intros L. rewrite !foldl_app. destruct (F L) as [A1 A2]. simpl in *.
  split; [done|]. intros _. split; [split|].
  - eapply (known_took _ _ _ e2 (Timed t e2)); [set_solver|done].
  - eapply (known_took _ _ _ e3 (Clocked d e3)); [set_solver|done].
  - intros Hb. destruct (A2 eq_refl Hb) as [B1 B2]. split; [exact B1|]. eapply took_within; [|exact B2]. set_solver.
Qed.

(** Both sides have four bits. *)
Definition both_wide (s : sst C) : bool := has (k_caps (low s)) HC_CAP_BW4 && has (sd_bus_widths (d_scr (card s))) SCR_BUS_WIDTH_4.
Definition has_hs (s : sst C) : bool := has (dcaps (dev (cmds (low s)))) DEV_CAP_HS.
Definition at_33 (s : sst C) (e : errno) (s' : sst C) (l : list bus_event) L : Prop :=
  let wide := both_wide s = true -> four_bits l L in
  if has_hs s then
    sd_modes s' = sd_modes s /\ e <> EOK \/
    sd_modes s' = Z.lor (sd_modes s) DEV_FLAG_HS /\ c_speed L = Some 1 /\
      (e = EOK -> in_sd_hs l (sw_dtr_max_hs (swcaps (card s))) L /\ wide)
  else sd_modes s' = sd_modes s /\ (e = EOK -> in_sd_ls l (dtr_max (m_csd (mdev (low s)))) L /\ wide).
Lemma at_33_went s : wlp (sd_init_33 no_memory no_buffer transferred buffer) s (fun e s' => exists l, sd_went s s' l /\
  forall L, at_33 s e s' l (foldl sd_link_step L l)).
Proof.
  apply wlp_bind, low_wlp, wlp_gets, wlp_bind, wlp_gets. cbv zeta. fold (has_hs s). replace (Sst (low s) (card s)) with s by (by destruct s).
  unfold at_33. destruct (has_hs s) eqn:Eh.
  - apply wlp_check. apply (wlp_mono _ _ (fun e s' => exists l, sd_went s s' l /\ (e <> EOK -> sd_modes s' = sd_modes s) /\
      (e = EOK -> sd_modes s' = Z.lor (sd_modes s) DEV_FLAG_HS /\ forall L, c_speed (foldl sd_link_step L l) = Some 1))).
    { apply wlp_check, low_wlp. eapply wlp_mono; [apply hs_walk|]. intros e b1 (l & [W M] & F). split; [intros He|intros ->].
      - exists l. split; [by split|]. split; [done|]. by intros E.
      - apply wlp_bind, low_wlp. eapply wlp_mono; [apply flag_went|]. intros _ b2 [W2 M2]. apply wlp_ret. eexists.
        split; [split; [done|exact (went_then _ _ _ _ _ W W2)]|]. split; [done|]. intros _. split; [etrans; [exact M2|]; by f_equal|].
        intros L. rewrite app_nil_r. by apply F. }
    intros e s1 (l & W & F1 & F2). split; [intros He; exists l; split; [done|]; left; split; [by apply F1|done]|].
    intros ->. destruct (F2 eq_refl) as [M1 C1]. clear F1 F2. apply wlp_bind, wlp_gets, wlp_bind, low_wlp, wlp_gets, wlp_bind, wlp_gets.
    destruct s1 as [b1 k1]. destruct W as [K W]. simpl in *. subst k1. change (hc_caps (ctl (cmds b1))) with (k_caps b1).
    rewrite (caps_went _ _ _ W). fold (both_wide s). eapply wlp_mono; [apply slow_went|].
    intros e s2 (l2 & [K2 W2] & M2 & F2). eexists. split; [split; [exact K2|exact (went_then _ _ _ _ _ W W2)]|].
    intros L. rewrite foldl_app. destruct (F2 (foldl sd_link_step L l)) as [A1 A2]. right. split; [congruence|]. simpl in A1.
    split; [by rewrite A1|]. intros He. destruct (A2 He) as (B1 & B2). split.
    + split; [by rewrite A1|]. eapply timed_within; [|exact B1]. set_solver.
    + intros Hw. destruct (B2 Hw) as [B3 B4]. split; [exact B3|]. eapply took_within; [|exact B4]. set_solver.
  - apply wlp_check, wlp_ret. split; [done|]. intros _.
    apply wlp_bind, wlp_gets, wlp_bind, low_wlp, wlp_gets, wlp_bind, wlp_gets. replace (Sst (low s) (card s)) with s by (by destruct s).
    change (hc_caps (ctl (cmds (low s)))) with (k_caps (low s)). fold (both_wide s). eapply wlp_mono; [apply slow_went|].
    intros e s2 (l & W & M & F). exists l. split; [done|]. intros L. split; [done|]. intros He.
    destruct (F L) as [_ A]. exact (A He).
Qed.

(** ** All of sd_init_bus *)
Definition at_18 (s : sst C) : bool := hc_signal_voltage (ctl (cmds (low s))) =? SIGNAL_VOLTAGE_1_8.
Definition agreed (s : sst C) (e : errno) (s' : sst C) (l : list bus_event) L : Prop :=
  if at_18 s then
    sd_modes s' = sd_modes s /\ e <> EOK \/
    sd_modes s' = Z.lor (sd_modes s) DEV_FLAG_UHS /\ in_uhs l (uhs_mode s) (limit_of s) L
  else at_33 s e s' l L.
Lemma four_within l l' L : l ⊆ l' -> four_bits l L -> four_bits l' L.
Proof. intros Hl [A1 A2]. split; [done|]. by eapply took_within. Qed.
Lemma uhs_within l l' m n L : l ⊆ l' -> in_uhs l m n L -> in_uhs l' m n L.
Proof.
  intros Hl (f & t & c & A1 & A2 & A3 & A4 & A5). exists f, t, c. split; [done|]. split; [by eapply four_within|]. do 2 (split; [done|]).
  by eapply timed_within.
Qed.
Lemma agreed_more s e s1 e' s' l l' L : agreed s e s1 l L -> l ⊆ l' -> (e <> EOK -> e' = e) -> sd_modes s' = sd_modes s1 -> agreed s e' s' l' L.
Proof.
  unfold agreed, at_33. intros Ha Hl He ->. destruct (decide (e = EOK)) as [->|Hn].
  - destruct (at_18 s).
    { destruct Ha as [[_ Ha]|[A1 A2]]; [done|right]. split; [done|]. by eapply uhs_within. }
    destruct (has_hs s).
    + destruct Ha as [[_ Ha]|(A1 & A2 & A3)]; [done|right]. do 2 (split; [done|]). intros _. destruct (A3 eq_refl) as [[B1 B2] B3].
      split; [split; [done|by eapply timed_within]|]. intros Hw. by eapply four_within, B3.
    + destruct Ha as [A1 A2]. split; [done|]. intros _. destruct (A2 eq_refl) as [B1 B2]. split; [by eapply timed_within|].
      intros Hw. by eapply four_within, B2.
  - rewrite (He Hn). destruct (at_18 s).
    { destruct Ha as [Ha|[A1 A2]]; [by left|right]. split; [done|]. by eapply uhs_within. }
    destruct (has_hs s); [destruct Ha as [Ha|(A1 & A2 & _)]; [by left|right]|]; [do 2 (split; [done|]); done|].
    destruct Ha as [A1 _]. by split.
Qed.
Lemma init_went s : wlp (sd_init_bus no_memory no_buffer transferred buffer) s (fun e s' => exists l, sd_went s s' l /\
  forall L, agreed s e s' l (foldl sd_link_step L l)).
Proof.
  apply wlp_bind, wlp_gets. fold (at_18 s). apply wlp_check.
  set (m := if at_18 s then sd_init_uhs _ _ _ _ else sd_init_33 _ _ _ _).
  apply (wlp_mono m s (fun e s' => exists l, sd_went s s' l /\ forall L, agreed s e s' l (foldl sd_link_step L l))).
  { unfold m, agreed. destruct (at_18 s); [|apply at_33_went]. eapply wlp_mono; [apply uhs_went|].
    intros e s' (l & W & F1 & F2). exists l. split; [done|]. intros L. destruct (decide (e = EOK)) as [He|He]; [right|by left; auto].
    destruct (F2 He) as [M F]. by split. }
  intros e s1 (l & W & F). split; [intros He; by exists l|]. intros ->. destruct s1 as [b1 k1]. pose proof W as [K W1].
  apply wlp_bind, low_wlp, wlp_gets. destruct (has _ DEV_CAP_ASSD).
  - eapply wlp_mono; [apply assd_went|]. intros e s2 (l2 & [K2 W2] & M2 & F2). eexists. simpl in *.
    split; [split; [by etrans|exact (went_then _ _ _ _ _ W1 W2)]|]. intros L. rewrite foldl_app, F2.
    eapply agreed_more; [apply F|set_solver|done|exact M2].
  - apply wlp_ret. by exists l.
Qed.
End link.
