(* ===== verification/SdEnds.v ===== *)
(** * Bringing up the bus of an SD card ends

    Nothing that SdBus.v does for the bus gets stuck, for a controller that
    comes back from every command that reads one block into a buffer of its
    size. *)
From S2P Require Import Prelude Driver SdioReg SdioConst SimConst MmcConst SdConst Sdhci SdioCmd SdioSend SdioCard MmcBus MmcPlan MmcLink SdBus SdStep.
Open Scope Z_scope.

(** ** The law of reading *)
Definition one_block (c : sdio_cmd_t) : Prop :=
  has (cflags c) SCF_DIR_IN = true /\ blks c = 1 /\ 0 < blksz c <= SD_EXTR_SIZE /\ exists b, sgl c = [Sge b (blksz c)].
Class sd_reads (C : Type) `{sdio_hc_entry C} := {
  read_total c t k : one_block c -> length (rsp c) = 4%nat -> is_Some (entry_cmd c t k)
}.

Definition ends {S A} (m : M S A) : Prop := forall s, is_Some (m s).
Lemma post_ends {S A} (m : M S A) s Q : ends m -> wlp m s Q -> post m s Q.
Proof. intros Hm Hw. destruct (Hm s) as [[a s'] E]. exists a, s'. split; [done|by apply Hw]. Qed.
Lemma ends_post {S A} (m : M S A) (Q : S -> A -> S -> Prop) : (forall s, post m s (Q s)) -> ends m.
Proof. intros Hm s. destruct (Hm s) as (a & s' & -> & _). by eexists. Qed.
Lemma ends_ret {S A} (a : A) : ends (S:=S) (mret a).
Proof. by eexists. Qed.
Lemma ends_gets {S A} (f : S -> A) : ends (gets f).
Proof. by eexists. Qed.
Lemma ends_modify {S} (f : S -> S) : ends (modify f).
Proof. by eexists. Qed.
Lemma ends_bind {S A B} (m : M S A) (k : A -> M S B) : ends m -> (forall a, ends (k a)) -> ends (x ← m; k x).
Proof. intros Hm Hk s. destruct (Hm s) as [[a s1] E]. destruct (Hk a s1) as [[b s2] E2]. exists (b, s2). by rewrite (bind_eq _ _ _ _ _ E). Qed.
Lemma ends_check {S} (m k : M S errno) : ends m -> ends k -> ends (m !; k).
Proof. intros Hm Hk. apply ends_bind; [done|]. intros e. destruct (decide _); [apply ends_ret|done]. Qed.
Create HintDb ends.
#[export] Hint Resolve ends_ret ends_gets ends_modify : ends.
Ltac ends := repeat (first
  [ solve [auto 3 with ends]
  | match goal with
    | |- ends (ok_then _ _) => apply ends_check
    | |- ends (mbind _ _) => apply ends_bind; [|intros ?]
    | |- ends (if ?b then _ else _) => destruct b
    | |- ends (match ?x with _ => _ end) => destruct x eqn:?
    end ]; cbv zeta).

Section ends.
Context {C : Type} `{sd_laws C} `{!sd_reads C} (no_memory no_buffer : list issued -> bool).
Context (transferred : list issued -> list Z) (buffer : Z).

Lemma ends_cmd {A} (m : M (cst C) A) : ends m -> ends (cmd_ m).
Proof. intros Hm s. unfold cmd_. destruct (Hm (cmds s)) as [[a c] ->]. by eexists. Qed.
Lemma ends_low {A} (m : M (mst C) A) : ends m -> ends (low_ m).
Proof. intros Hm s. unfold low_. destruct (Hm (low s)) as [[a b] ->]. by eexists. Qed.
Lemma ends_call {A} (m : M C A) : calm m -> ends (cmd_ (hc_call m)).
Proof. intros Hm. apply ends_cmd. intros s. unfold hc_call. destruct (Hm (ctl s)) as (a & k & -> & _). by eexists. Qed.
Lemma ends_note ev m : ends m -> ends (note ev m (C:=C)).
Proof. intros Hm. unfold note. ends. Qed.
Lemma ends_prim m ev : prim m ev -> ends (m : M (mst C) errno).
Proof. intros Hm. eapply ends_post. intros s. apply Hm. Qed.
Lemma ends_send c t r : runs c -> ends (send_cmd no_memory c t r).
Proof. intros Hc. eapply ends_post. intros s. by apply send_cmd_post. Qed.
Lemma ends_simple f op a t r : has f SCF_DATA_MSK = false -> ends (simple_cmd no_memory f op a t r).
Proof.
  intros Hf. eapply ends_post. intros s. apply (with_cmd_ok no_memory _ _ (fun _ _ => True)); [done|]. apply post_bind.
  destruct (ends_send (sdio_setup_cmd zero_cmd f op a) t r (setup_zero_runs f op a Hf) s) as [[x s1] E].
  exists x, s1. split; [done|]. by apply post_ret.
Qed.
#[local] Hint Resolve ends_simple : ends.
Lemma block_runs c n : length (rsp c) = 4%nat -> 0 < n <= SD_EXTR_SIZE -> runs (sdio_setup_cmd_io c SCF_DIR_IN 1 n [Sge buffer n]).
Proof.
  intros Hl Hn c' t k (E1 & _ & _ & E2 & E3 & E4 & E5). simpl in *. apply read_total; [|congruence]. split.
  - rewrite E1, has_or. by rewrite orb_true_r.
  - split; [congruence|]. rewrite E4, E5. split; [done|]. by exists buffer.
Qed.
Lemma ends_read flgs op a n : 0 < n <= SD_EXTR_SIZE -> ends (read_reg no_memory no_buffer transferred buffer flgs op a n).
Proof.
  intros Hn s. unfold read_reg, with_buffer.
  assert (ends (read_cmd no_memory transferred buffer (sdio_setup_cmd zero_cmd (Z.lor (Z.lor SCF_CTYPE_ADTC SCF_RSP_R1) flgs) op a) n SDIO_TIME_DEFAULT)) as Hr.
  { unfold read_cmd. apply ends_bind; [by apply ends_cmd, ends_send, block_runs|]. intros x. ends. }
  rewrite (bind_eq _ _ _ (if no_memory (sent (cmds s)) then None else Some zero_cmd) (Mst (cmds s) (mdev s) (done s))) by done.
  rewrite (bind_eq _ _ _ _ _ (eq_refl (gets (fun s => no_buffer (sent (cmds s))) (Mst (cmds s) (mdev s) (done s))))).
  destruct (no_memory _); [by eexists|]. destruct (no_buffer _); [by eexists|]. apply Hr.
Qed.
Lemma ends_switch mode grp val : ends (sd_switch no_memory no_buffer transferred buffer mode grp val).
Proof. unfold sd_switch. apply ends_bind; [by apply ends_read|]. intros x. ends. Qed.
Lemma ends_timing t : ends (sdio_timing (C:=C) t).
Proof. eapply ends_prim, prim_timing. Qed.
Lemma ends_width w : ends (sdio_bus_width (C:=C) w).
Proof. eapply ends_prim, prim_width. Qed.
Lemma ends_clock v : ends (sdio_clock (C:=C) v).
Proof. eapply ends_prim, prim_clock. Qed.
Lemma ends_drv t : ends (sdio_drv_type (C:=C) t).
Proof. by apply ends_note, ends_call, drv_type_calm. Qed.
Lemma ends_tune : ends (sdio_tune (C:=C) SD_SEND_TUNING_BLOCK).
Proof. apply ends_note, ends_call, sd_tune_calm. Qed.
Lemma ends_preset b : ends (sdio_preset (C:=C) b).
Proof. unfold sdio_preset. destruct entry_preset eqn:E; [|apply ends_ret]. by eapply ends_call, preset_calm. Qed.
Lemma ends_dflags f : ends (upd_dflags (C:=C) f).
Proof. apply ends_cmd, ends_modify. Qed.
Lemma ends_block n : ends (_sdio_set_block_length no_memory n).
Proof. unfold _sdio_set_block_length. ends. Qed.
#[local] Hint Resolve ends_switch ends_timing ends_width ends_clock ends_drv ends_tune ends_preset ends_dflags ends_block ends_low ends_cmd : ends.
Lemma ends_spread w : ends (sd_app_set_bus_width no_memory w).
Proof. by apply ends_note, ends_cmd, ends_simple. Qed.
#[local] Hint Resolve ends_spread : ends.
Lemma ends_set_width w : ends (sd_set_bus_width no_memory w).
Proof. unfold sd_set_bus_width. unfold hcaps. ends. apply ends_low. ends. Qed.
Lemma ends_drv_type m t : ends (sd_set_drv_type no_memory no_buffer transferred buffer m t).
Proof.
  unfold sd_set_drv_type, hcaps. ends. by eapply ends_call, strength_calm.
Qed.
Lemma ends_limit m c : ends (sd_set_current_limit no_memory no_buffer transferred buffer m c).
Proof. unfold sd_set_current_limit, hcaps. ends. Qed.
Lemma ends_speed m : ends (sd_set_bus_speed_mode no_memory no_buffer transferred buffer m).
Proof. unfold sd_set_bus_speed_mode. ends. Qed.
Lemma ends_hs : ends (sd_switch_hs no_memory no_buffer transferred buffer).
Proof. unfold sd_switch_hs. ends. Qed.
#[local] Hint Resolve ends_set_width ends_drv_type ends_limit ends_speed ends_hs : ends.
Lemma ends_assd : ends (sd_init_assd no_memory no_buffer transferred buffer).
Proof. unfold sd_init_assd, sw. ends. Qed.
Lemma ends_uhs : ends (sd_init_uhs no_memory no_buffer transferred buffer).
Proof. unfold sd_init_uhs, sw, bus_mode, hcaps. ends. Qed.
Lemma ends_33 : ends (sd_init_33 no_memory no_buffer transferred buffer).
Proof. unfold sd_init_33, sw, csd_, caps, hcaps. ends. Qed.
#[local] Hint Resolve ends_assd ends_uhs ends_33 : ends.
Lemma ends_init : ends (sd_init_bus no_memory no_buffer transferred buffer).
Proof. unfold sd_init_bus, caps. ends. Qed.
Lemma ends_slow : ends (sd_slow_down (C:=C)).
Proof. unfold sd_slow_down, upd_modes, upd_sw, upd_card, flags, hcaps. ends. Qed.
End ends.
