(* ===== verification/SdCard.v ===== *)
(** * The extension registers and the lock of an SD card

    What the polls of a register find, that the list of extensions is read
    inside of its pages, and what the flag of a locked card tells. *)
From S2P Require Import Prelude Driver SdioReg SdioConst SimConst MmcConst SdConst Sdhci SdioCmd SdioSend SdioCard MmcBus MmcPlan MmcLink MmcMode SdBus SdStep SdLink SdEnds.
Open Scope Z_scope.

Section card.
Context {C : Type} `{sd_laws C} `{!sd_reads C} (no_memory no_buffer : list issued -> bool).
Context (transferred : list issued -> list Z) (buffer : Z).

(** ** Reading a register *)
Lemma ends_extr mio fno mw addr len l : ends (sd_rw_extr no_memory no_buffer transferred buffer true mio fno mw addr len l).
Proof.
  intros s. unfold sd_rw_extr, with_buffer.
  rewrite (bind_eq _ _ _ (if no_memory (sent (cmds s)) then None else Some zero_cmd) (Mst (cmds s) (mdev s) (done s))) by done.
  rewrite (bind_eq _ _ _ _ _ (eq_refl (gets (fun s => no_buffer (sent (cmds s))) (Mst (cmds s) (mdev s) (done s))))).
  destruct (no_memory _); [by eexists|]. destruct (no_buffer _); [by eexists|]. cbv zeta beta iota.
  apply ends_bind; [|intros x; ends]. unfold read_cmd. apply ends_bind; [by apply ends_cmd, ends_send, block_runs|]. intros x. ends.
Qed.
Lemma ends_rd rsa reg : ends (sd_extr_rd no_memory no_buffer transferred buffer rsa reg).
Proof. unfold sd_extr_rd. apply ends_bind; [apply ends_extr|]. intros x. ends. Qed.

(** A page has its length, whatever was read. *)
Lemma page_length addr s : wlp (read_page no_memory no_buffer transferred buffer addr) s (fun x _ =>
  fst x = EOK -> length (snd x) = Z.to_nat SD_FCN_PG_SZ).
Proof.
  unfold read_page. apply low_wlp. unfold sd_rw_extr. apply buffer_walk; [|done]. cbv zeta. cbv iota.
  apply wlp_bind. intros x s1 _. apply wlp_ret. intros _. cbn [snd].
  rewrite length_take, length_app. unfold zero_page. rewrite length_replicate. 
  change (extr_count 0 SD_FCN_PG_SZ) with (Z.to_nat SD_EXTR_SIZE). change (Z.to_nat SD_FCN_PG_SZ) with (Z.to_nat SD_EXTR_SIZE). lia.
Qed.

(** The polls: EOK means that the register was as wanted. *)
Lemma ends_poll n rsa reg w : ends (extr_poll no_memory no_buffer transferred buffer n rsa reg w).
Proof.
  induction n as [|n IH]; cbn [extr_poll]; [apply ends_ret|]. apply ends_bind; [apply ends_rd|]. intros x.
  destruct (_ && _); [apply ends_ret|apply IH].
Qed.
Definition saw (rsa reg : Z) (w : Z -> bool) (s' : mst C) : Prop := exists s1 v,
  sd_extr_rd no_memory no_buffer transferred buffer rsa reg s1 = Some ((EOK, v), s') /\ w v = true.
Lemma poll_saw n rsa reg w s : wlp (extr_poll no_memory no_buffer transferred buffer n rsa reg w) s (fun e s' =>
  e = EOK /\ saw rsa reg w s' \/ e = ETIMEDOUT).
Proof.
  revert s. induction n as [|n IH]; intros s; cbn [extr_poll]; [apply wlp_ret; by right|].
  apply wlp_bind. intros [e v] s1 E. cbn [fst snd]. destruct (bool_decide_reflect (e = EOK)) as [->|Hn]; [|apply IH]. cbn [andb].
  destruct (w v) eqn:Ew; [|apply IH]. apply wlp_ret. left. split; [done|]. by exists s, v.
Qed.

(** A notified power-off: the card said that it is ready. *)
Lemma pwroff_ready op s : SDIO_POWER_OFF_SHORT <= op ->
  wlp (sd_pwroff_notify no_memory no_buffer transferred buffer op) s (fun e s' => e = EOK ->
    saw (pwr_mgnt_fcn_rsa (card s)) PWR_MGNT_STATUS (fun v => has v PWR_MGNT_STATUS_POFR) (low s')).
Proof.
  intros Ho. apply wlp_bind, wlp_gets. cbv zeta. rewrite (proj2 (Z.ltb_ge _ _) Ho). apply low_wlp, wlp_check.
  intros e s1 _. split; [done|]. intros _. eapply wlp_mono; [apply poll_saw|]. by intros e2 s2 [[_ Hs]| ->].
Qed.

(** ** The lock

    After a successful command the flag is what the card answered to the
    request for its status. *)
Lemma lock_tells op l t s : wlp (_sdio_lock_unlock no_memory no_buffer buffer op l t) s (fun e s' => e = EOK -> exists tr x,
  sent (cmds s') = tr ++ [x] /\ completed x /\
  has (dev_flags (ctl (cmds s'))) DEV_FLAG_LOCKED = has (rsp0 (answer x)) CDS_CARD_IS_LOCKED).
Proof.
  unfold _sdio_lock_unlock. apply buffer_walk; [|done]. apply wlp_bind. intros e0 s0 _. apply wlp_bind. intros e s1 _.
  destruct (decide (e <> EOK)) as [He|He]; [by apply wlp_ret|]. clear He. apply wlp_bind. intros [e2 r] s2 E2.
  unfold cmd_ in E2. destruct (send_status_ok no_memory 1 false (cmds s1)) as ([e3 r3] & c & Eo & _ & polls & Es & _ & Hp).
  unfold send_cmd in E2. rewrite Eo in E2. injection E2 as <- <- <-. apply wlp_bind. cbn [fst snd] in *.
  destruct (decide (e3 = EOK)) as [->|Hn]; [|by apply wlp_ret, wlp_ret].
  destruct (Hp eq_refl) as (tr & x & -> & Hc & Hr). intros [] s3 [= <-]. apply wlp_ret. intros _.
  exists (sent (cmds s1) ++ tr), x. simpl. split; [by rewrite Es, <- app_assoc|]. split; [done|]. rewrite flags_set, Hr.
  destruct (has (rsp0 (answer x)) CDS_CARD_IS_LOCKED).
  - rewrite has_or. by rewrite orb_true_r.
  - apply has_gone. by rewrite Z.land_diag.
Qed.

(** ** The list of extensions

    Wherever the pointers of a card lead, no byte is read from outside of the
    two pages. *)
Definition in_pages (efb : list Z) (off : Z) : Prop := 48 <= Z.of_nat (length efb) /\ off + FCN_EXT <= Z.of_nat (length efb).
Lemma info_ends efb off n d : in_pages efb off -> 0 <= d -> 0 <= n -> d + n <= FCN_EXT -> ends (info (C:=C) efb (off + d) n).
Proof. unfold in_pages, FCN_EXT. intros [H1' H2'] Hd Hn Hl. unfold info. rewrite decide_True by lia. apply ends_ret. Qed.
Lemma ends_card f : ends (upd_card (C:=C) f).
Proof. apply ends_modify. Qed.
Lemma ends_caps v : ends (add_caps (C:=C) v).
Proof. unfold add_caps, upd_caps. apply ends_modify. Qed.
#[local] Hint Resolve ends_rd ends_card ends_caps ends_low : ends.
Lemma ends_ext rsa sfc e : ends (fcn_ext no_memory no_buffer transferred buffer rsa sfc e).
Proof. unfold fcn_ext. ends. Qed.
Lemma ends_exts n efb : forall off e, in_pages efb off -> ends (fcn_exts no_memory no_buffer transferred buffer n efb off e).
Proof.
  induction n as [|n IH]; intros off e Hp; cbn [fcn_exts]; [apply ends_ret|].
  apply ends_bind; [rewrite <- (Z.add_0_r off); by apply info_ends|]. intros sfc.
  apply ends_bind; [by apply info_ends|]. intros rsa. apply ends_bind; [by apply info_ends|]. intros pne.
  apply ends_bind; [apply ends_ext|]. intros e2. destruct (_ <? _) eqn:El; [apply ends_ret|]. zbool. apply IH.
  destruct Hp. by split.
Qed.
Lemma ends_page addr : ends (read_page no_memory no_buffer transferred buffer addr).
Proof. apply ends_low, ends_extr. Qed.
Lemma extensions_end s : post (sd_parse_extended_fcn no_memory no_buffer transferred buffer) s (fun _ _ => True).
Proof.
  apply post_bind, post_gets. destruct (negb _); [by apply post_ret|]. apply post_bind.
  eapply post_mono; [apply post_ends; [apply ends_page|apply page_length]|]. intros x s1 Hx.
  destruct (decide (fst x <> EOK)) as [Hn|Hn]; [by apply post_ret|]. apply dec_stable in Hn. specialize (Hx Hn).
  apply post_bind. eapply post_mono; [apply post_ends; [apply ends_page|apply page_length]|]. intros y s2 Hy. cbv zeta.
  set (efb := snd x ++ _). assert (length efb = 1024%nat) as Hl.
  { unfold efb. rewrite length_app, Hx. destruct (decide (fst y = EOK)) as [E|E]; [by rewrite (Hy E)|]. unfold zero_page. by rewrite length_replicate. }
  assert (in_pages efb 16) as Hp by (unfold in_pages, FCN_EXT; lia).
  assert (ends (n ← info efb 4 1; fcn_exts no_memory no_buffer transferred buffer (Z.to_nat n) efb 16 (fst x))) as He.
  { apply ends_bind; [|intros n; by apply ends_exts]. unfold info. rewrite decide_True by lia. apply ends_ret. }
  by apply post_ends.
Qed.
End card.
