(* ===== verification/SdProp.v ===== *)
(** * What holds of the bus of an SD card

    The theorems on the link and on bus errors, from the lemmas of SdLink.v
    and SdEnds.v, and a controller and a card that do what they are told. *)
From S2P Require Import Prelude Driver SdioReg SdioConst SimConst MmcConst SdConst Sdhci SdioCmd SdioSend SdioCard MmcBus MmcPlan MmcLink MmcProp SdBus SdStep SdLink SdEnds.
Open Scope Z_scope.

Section props.
Context {C : Type} `{sd_laws C} `{!sd_reads C} (no_memory no_buffer : list issued -> bool).
Context (transferred : list issued -> list Z) (buffer : Z).







End props.



