(* ===== verification/SdSdhci.v ===== *)
(** * The sdhci driver under the bus of an SD card

    The entries of Sdhci.v have the laws that SdStep.v asks of a controller,
    so what SdLink.v shows of the link holds at the driver whenever its
    commands with data come back. *)
From S2P Require Import Prelude Driver SdioReg SdioConst SimConst MmcConst SdConst Sdhci SdhciCtl SdioCmd SdioSend SdioCard SdhciEntry MmcBus MmcPlan MmcLink MmcMode MmcProp MmcSdhci SdBus SdStep SdLink.
Open Scope Z_scope.

Section sd.
Context (device : list event -> Z -> Z -> Z) (vtop_sg : list sge -> list sge) (errno_no : errno -> Z).
Context (fuel : nat) (irqs : Z -> nat).
#[local] Existing Instance sdhci_entry.
#[local] Existing Instance sdhci_bus.

(** The driver has no driver_strength. *)
#[local] Instance sdhci_sd : sd_entry st := {|
  entry_drv_type := sdhci_drv_type device; entry_driver_strength := None; entry_preset := Some (sdhci_preset device);
  hc_signal_voltage s := signal_voltage (bus s)
|}.

Lemma sdhci_sd_laws (HI : ie_reads_back device) :
  @sd_laws st _ (sdhci_is_controller device vtop_sg errno_no fuel irqs HI) _ (sdhci_bus_laws device vtop_sg errno_no fuel irqs HI) sdhci_sd.
Proof.
  split; try done.
  - intros t. apply calm_held; [unfold entry_drv_type; simpl; unfold sdhci_drv_type; keep|apply holds_stays].
    unfold entry_drv_type. simpl. unfold sdhci_drv_type. pose proof (stays_in device). pose proof stays_out. pose proof stays_set_bus. stay.
  - intros f b [= <-]. apply calm_held; [unfold sdhci_preset; keep|apply holds_stays].
    unfold sdhci_preset. pose proof (stays_in device). pose proof stays_out. stay.
  - apply calm_held; [apply tune_ends; by right|apply tune_holds].
Qed.

(** What sd_init_bus comes to at the driver, which refuses no timing and no
    width. *)
Lemma sdhci_sd_agrees no_memory no_buffer transferred buffer s : ie_reads_back device ->
  let H := sdhci_entry device vtop_sg errno_no fuel irqs in let B := sdhci_bus device vtop_sg errno_no fuel irqs in
  wlp (@sd_init_bus st H B sdhci_sd no_memory no_buffer transferred buffer) s (fun e s' =>
    exists l, done (low s') = done (low s) ++ l /\ @agreed st H sdhci_sd s e s' l (sd_link_of (done (low s'))) /\
      Forall (fun ev => ~ refuses_setting ev) l).
Proof.
  intros HI. cbv zeta. eapply wlp_mono; [exact (init_went (H4:=sdhci_sd_laws HI) _ _ _ _ s)|].
  intros e s' (l & (_ & _ & _ & E & tr & _ & Hf) & Ha). exists l. split; [done|]. split; [rewrite E, sd_link_app; apply Ha|].
  eapply Forall_impl; [exact Hf|]. intros ev Hb Hu. pose proof (sdhci_obedient device vtop_sg errno_no fuel irqs) as Ho.
  destruct ev; try done; exact (Hu (Hb Ho)).
Qed.
End sd.
