(* ===== verification/Ota.v ===== *)
(** * The over-the-air update client (src/ota/ota_client.cpp)

    The client keeps two images of the system, IFS_A and IFS_B, on the boot
    file system.  It downloads a new one over the image that config.txt does
    not name, checks it, makes config.txt name it, and asks for a reboot; the
    version is recorded only when the system has booted from it.

    The state has the client's configuration, the files, and a list of what
    was done to them with the files before each step, so that theorems can
    speak about a loss of power at any point; nothing reads the list.  What
    the outside answers (whether a file opens, how many bytes fit, the server,
    the clocks) is a function of the number of the question ([World]), and
    every such function is allowed. *)
From S2P Require Import Prelude Gpio.
From stdpp Require Import gmap.
Open Scope Z_scope.

(** ** Text: what the client uses of std::string and iostream *)
Definition NL : Ascii.ascii := Ascii.ascii_of_nat 10.
Definition nl : string := String NL "".

(** The characters of the sets of blanks in trim_inplace and verify_sha256. *)
Definition is_ws (c : Ascii.ascii) : bool :=
  let n := Ascii.nat_of_ascii c in (n =? 32)%nat || (n =? 9)%nat || (n =? 13)%nat || (n =? 10)%nat.

Fixpoint erase_front (s : string) : string :=
  match s with String c r => if is_ws c then erase_front r else s | "" => "" end.
Fixpoint erase_back (s : string) : string :=
  match s with
  | "" => ""
  | String c r => match erase_back r with "" => if is_ws c then "" else String c "" | r' => String c r' end
  end.
Definition trimmed (s : string) : string := erase_back (erase_front s).

(** find of one character, with the substrings before and after it. *)
Fixpoint cut (c : Ascii.ascii) (s : string) : option (string * string) :=
  match s with
  | "" => None
  | String d r => if decide (c = d) then Some ("", r) else '(a, b) ← cut c r; Some (String d a, b)
  end.

(** The part before the first blank: find_first_of and substr. *)
Fixpoint first_word (s : string) : string :=
  match s with String c r => if is_ws c then "" else String c (first_word r) | "" => "" end.

(** The lines that a loop of getline reads. *)
Fixpoint lines (s : string) : list string :=
  match s with
  | "" => []
  | String c r =>
      if decide (c = NL) then "" :: lines r
      else match lines r with [] => [String c ""] | l :: ls => String c l :: ls end
  end.
Definition unlines (l : list string) : string := foldr (fun x r => x +:+ nl +:+ r) "" l.

(** Skip spaces and tabs; then line.compare(i, len, p) == 0 and what follows. *)
Fixpoint skip_indent (s : string) : string :=
  match s with
  | String c r => if (Ascii.nat_of_ascii c =? 32)%nat || (Ascii.nat_of_ascii c =? 9)%nat then skip_indent r else s
  | "" => ""
  end.
Fixpoint after (p s : string) : option string :=
  match p, s with
  | "", _ => Some s
  | String a p', String b s' => if decide (a = b) then after p' s' else None
  | _, _ => None
  end.

(** std::stoi and std::stoll; None is the exception they throw. *)
Definition sto (max : Z) (s : string) : option Z :=
  '(neg, v, _) ← scan_number (String.list_ascii_of_string s);
  let n := if (neg : bool) then - v else v in
  if (- max - 1 <=? n) && (n <=? max) then Some n else None.
Definition stoi : string -> option Z := sto 2147483647.
Definition stoll : string -> option Z := sto 9223372036854775807.

(** A number as an output stream prints it; twenty digits hold 64 bits. *)
Fixpoint dec_digits (fuel : nat) (n : Z) (rest : chars) : chars :=
  match fuel with
  | O => rest
  | S k => if n <? 10 then digit_char n :: rest else dec_digits k (n / 10) (digit_char (n mod 10) :: rest)
  end.
Definition to_string (n : Z) : string :=
  let d v := String.string_of_list_ascii (dec_digits 20 v []) in if n <? 0 then "-" +:+ d (- n) else d n.

(** snprintf's "%02x" of each byte. *)
Definition hex_char (d : Z) : Ascii.ascii :=
  if d <? 10 then digit_char d else Ascii.ascii_of_nat (Z.to_nat (87 + d)).
Definition hex (bytes : list Z) : string :=
  foldr (fun b r => String (hex_char (b / 16)) (String (hex_char (b mod 16)) r)) "" bytes.

(** The loop of verify_sha256 that makes A to F lower case. *)
Fixpoint lower (s : string) : string :=
  match s with
  | "" => ""
  | String c r =>
      let n := Ascii.nat_of_ascii c in
      String (if (65 <=? n)%nat && (n <=? 70)%nat then Ascii.ascii_of_nat (n + 32) else c) (lower r)
  end.

(** ** Versions *)
Record Version := Ver { year : Z; week : Z; seq_ : Z; valid : bool }.
Definition no_version : Version := Ver 0 0 0 false.

Definition parse_version (v : string) : Version :=
  default no_version
    match cut "."%char v with
    | Some (y, r) =>
        match cut "."%char r with
        | None => None
        | Some (w, q) => y ← stoi y; w ← stoi w; q ← stoi q; Some (Ver y w q true)
        end
    | None => n ← stoi v; Some (Ver 0 0 n true)
    end.

Definition is_newer_version (server_v local_v : string) : bool :=
  let sv := parse_version server_v in
  let lv := parse_version local_v in
  if negb (valid sv) || negb (valid lv) then false
  else if negb (year sv =? year lv) then year lv <? year sv
  else if negb (week sv =? week lv) then week lv <? week sv
  else seq_ lv <? seq_ sv.

(** ** The configuration, and the kernel= line of config.txt *)
Record OTAConfig := Config {
  server_url : string; check_interval : Z; enabled : bool; boot_path : string;
  version_file : string; config_file : string; log_file : string; ota_config_path : string
}.
Definition IFS_A : string := "ifs-rpi5.bin".
Definition IFS_B : string := "ifs-rpi5_B.bin".
Definition MIN_IFS_SIZE : Z := 10485760.
Definition kRebootWitnessPath : string := "/tmp/ota_switch_witness".
Definition new_config_path : string := "/tmp/ota_config.new".
Definition pending_path (g : OTAConfig) : string := boot_path g +:+ "/ota_pending".
Definition image_path (g : OTAConfig) (ifs : string) : string := boot_path g +:+ "/" +:+ ifs.
Definition other_ifs (active : string) : string := if decide (active = IFS_A) then IFS_B else IFS_A.

Definition kernel_ifs_from_line (line : string) : string :=
  match after "kernel=" (skip_indent line) with
  | None => ""
  | Some r => let name := trimmed r in match cut "#"%char name with Some (a, _) => trimmed a | None => name end
  end.

(** The loops over the lines in get_active_ifs and set_active_ifs. *)
Definition kernel_of (text : string) : option string :=
  head (filter (fun n => n <> "") (kernel_ifs_from_line <$> lines text)).
Definition with_kernel (new_ifs text : string) : string :=
  let l := (fun x => if decide (kernel_ifs_from_line x = "") then x else "kernel=" +:+ new_ifs) <$> lines text in
  unlines (if decide (Forall (fun x => kernel_ifs_from_line x = "") (lines text)) then l ++ ["kernel=" +:+ new_ifs] else l).

Definition looks_like_ota_config (content : string) : bool :=
  existsb (fun line => bool_decide (is_Some (after "OTA_SERVER=" (skip_indent line)))) (lines content).

Record PendingInfo := Pending {
  expected_ifs : string; version : string; switch_uptime_sec : Z; switch_wall_sec : Z; witness_ok : bool; p_valid : bool
}.
Definition parse_pending (text : string) : PendingInfo :=
  let line i := trimmed (default "" (lines text !! i)) in
  Pending (line 0%nat) (line 1%nat) (default (-1) (stoll (line 2%nat))) (default 0 (stoll (line 3%nat)))
    (bool_decide (line 4%nat = "1")) (negb (bool_decide (line 0%nat = ""))).
Definition no_pending : PendingInfo := Pending "" "" (-1) 0 false false.
Definition pending_text (target_ifs version : string) (up wall : Z) (wit : bool) : string :=
  target_ifs +:+ nl +:+ version +:+ nl +:+ to_string up +:+ nl +:+ to_string wall +:+ nl +:+ (if wit then "1" else "0") +:+ nl.

(** ** Files, and what is done to them *)
Notation store := (gmap string string).

Inductive act :=
| Create (path : string)
| Fill (path content : string)
| Append (path text : string)
| Remove (path : string)
| Rename (from to : string)
| MakeDir (path : string)
| Command (cmd : string)
| Sleep (seconds : Z).

Definition apply_act (a : act) (f : store) : store :=
  match a with
  | Create p => <[p := ""]> f
  | Fill p c => <[p := c]> f
  | Append p t => <[p := default "" (f !! p) +:+ t]> f
  | Remove p => delete p f
  | Rename p q => match f !! p with Some c => <[q := c]> (delete p f) | None => f end
  | MakeDir _ | Command _ | Sleep _ => f
  end.

(** What curl_easy_init and curl_easy_perform give for a URL. *)
Record http := Http { handle : bool; curl_res : Z; http_code : Z; body : string }.
Definition http_ok (r : http) : bool := handle r && (curl_res r =? 0) && (200 <=? http_code r) && (http_code r <? 300).

(** The answers of the outside to the n-th question.  A file that can be
    written takes all that it is given (None) or a number of bytes. *)
Class World := {
  w_read : nat -> string -> bool;
  w_write : nat -> string -> option (option nat);
  w_sync : nat -> string -> bool;
  w_rename : nat -> bool;
  w_remove : nat -> bool;
  w_http : nat -> string -> http;
  w_free_kb : nat -> option Z;
  w_monotonic : nat -> option Z;
  w_time : nat -> Z;
  w_date : nat -> string;
  w_digest : nat -> bool;
  w_system : nat -> Z;
  w_mounts : nat -> option string
}.
(** OpenSSL's SHA-256. *)
Class Crypto := sha256 : string -> list Z.

Record client := Client { conf : OTAConfig; files : store; tick : nat; done_ : list (store * act) }.

Definition io (A : Type) : Type := client -> A * client.
#[export] Instance io_ret : MRet io := fun A a s => (a, s).
#[export] Instance io_bind : MBind io := fun A B k m s => let '(a, s') := m s in k a s'.

Section client.
Context `{World} `{Crypto}.

Definition get {A} (f : client -> A) : io A := fun s => (f s, s).
Definition ask {A} (q : nat -> A) : io A := fun s => (q (tick s), Client (conf s) (files s) (S (tick s)) (done_ s)).
Definition act_ (a : act) : io () :=
  fun s => ((), Client (conf s) (apply_act a (files s)) (tick s) (done_ s ++ [(files s, a)])).
Definition set_conf (g : OTAConfig) : io () := fun s => ((), Client g (files s) (tick s) (done_ s)).

(** std::ifstream, std::ofstream and the calls on paths. *)
Definition fits (room : option nat) (c : string) : string :=
  match room with None => c | Some k => String.substring 0 k c end.
Definition open_read (p : string) : io (option string) :=
  ok ← ask (fun n => w_read n p); f ← get files; mret (if (ok : bool) then f !! p else None).
Definition open_write (p : string) : io (option (option nat)) :=
  r ← ask (fun n => w_write n p);
  match r with Some room => act_ (Create p);; mret (Some room) | None => mret None end.
Definition write_file (p c : string) : io bool :=
  r ← open_write p;
  match r with Some room => act_ (Fill p (fits room c));; mret true | None => mret false end.

Definition fsync_path (path : string) : io bool :=
  ok ← ask (fun n => w_sync n path); f ← get files; mret (ok && bool_decide (is_Some (f !! path))).
Definition file_exists (path : string) : io bool := c ← open_read path; mret (bool_decide (is_Some c)).
Definition get_file_size (path : string) : io Z :=
  c ← open_read path; mret (match c with Some c => Z.of_nat (String.length c) | None => 0 end).
Definition remove_file (path : string) : io bool :=
  ok ← ask w_remove; f ← get files;
  if (ok : bool) && bool_decide (is_Some (f !! path)) then act_ (Remove path);; mret true else mret false.
Definition rename (a b : string) : io bool :=
  ok ← ask w_rename; f ← get files;
  if (ok : bool) && bool_decide (is_Some (f !! a)) then act_ (Rename a b);; mret true else mret false.
Definition read_file_content (path : string) : io string := c ← open_read path; mret (default "" c).
Definition mysleep (time_second : Z) : io () := act_ (Sleep time_second).
Definition system (cmd : string) : io Z := act_ (Command cmd);; ask w_system.

Definition log_msg (message : string) : io () :=
  time_str ← ask w_date; g ← get conf;
  r ← ask (fun n => w_write n (log_file g));
  match r with
  | Some room => act_ (Append (log_file g) (fits room ("[" +:+ time_str +:+ "] " +:+ message +:+ nl)))
  | None => mret ()
  end.

(** ** Reading and writing the configuration *)
Definition config_line (line : string) : io () :=
  match cut "="%char line with
  | None => mret ()
  | Some (k, v) =>
      let key := trimmed k in
      let value := trimmed v in
      g ← get conf;
      if decide (key = "OTA_SERVER") then set_conf (Config value (check_interval g) (enabled g) (boot_path g) (version_file g) (config_file g) (log_file g) (ota_config_path g))
      else if decide (key = "OTA_CHECK_INTERVAL") then
        match stoi value with
        | Some n =>
            if 0 <? n then set_conf (Config (server_url g) n (enabled g) (boot_path g) (version_file g) (config_file g) (log_file g) (ota_config_path g))
            else log_msg ("Ignoring non-positive OTA_CHECK_INTERVAL: " +:+ value)
        | None => log_msg ("Invalid OTA_CHECK_INTERVAL: " +:+ value)
        end
      else if decide (key = "OTA_ENABLED") then set_conf (Config (server_url g) (check_interval g) (bool_decide (value = "1")) (boot_path g) (version_file g) (config_file g) (log_file g) (ota_config_path g))
      else if decide (key = "BOOT_PATH") then set_conf (Config (server_url g) (check_interval g) (enabled g) value (value +:+ "/ota_version") (config_file g) (log_file g) (ota_config_path g))
      else if decide (key = "CONFIG_FILE") then set_conf (Config (server_url g) (check_interval g) (enabled g) (boot_path g) (version_file g) value (log_file g) (ota_config_path g))
      else if decide (key = "LOG_FILE") then set_conf (Config (server_url g) (check_interval g) (enabled g) (boot_path g) (version_file g) (config_file g) value (ota_config_path g))
      else mret ()
  end.
Definition skipped (line : string) : bool := match line with String "#" _ | "" => true | _ => false end.
Fixpoint config_lines (l : list string) : io () :=
  match l with
  | [] => mret ()
  | line :: l' => (if skipped line then mret () else config_line line);; config_lines l'
  end.
Definition read_config (config_path : string) : io bool :=
  file ← open_read config_path;
  match file with
  | None => log_msg ("Config file not found, using defaults: " +:+ config_path);; mret true
  | Some text => config_lines (lines text);; mret true
  end.

Definition get_version : io string :=
  g ← get conf; file ← open_read (version_file g);
  match file with
  | None => log_msg "Version file not found, using default 1";; mret "1"
  | Some text => let version := trimmed (default "" (head (lines text))) in mret (if decide (version = "") then "1" else version)
  end.

Definition write_version (version : string) : io bool :=
  g ← get conf; ok ← write_file (version_file g) (version +:+ nl);
  if (ok : bool) then
    synced ← fsync_path (version_file g);
    (if (synced : bool) then mret () else log_msg ("Warning: fsync failed for " +:+ version_file g));; mret true
  else log_msg ("Failed to write version file: " +:+ version_file g);; mret false.

Definition get_active_ifs : io (option string) :=
  g ← get conf; file ← open_read (config_file g);
  match file with
  | None => log_msg ("Config file not found: " +:+ config_file g);; mret None
  | Some text =>
      match kernel_of text with
      | Some name => mret (Some name)
      | None => log_msg ("No kernel= line in " +:+ config_file g);; mret None
      end
  end.

Definition restore_config_bak : io bool :=
  g ← get conf;
  let bak := config_file g +:+ ".bak" in
  there ← file_exists bak;
  if negb there then log_msg ("No config.bak to restore: " +:+ bak);; mret false
  else
    src ← open_read bak; dst ← open_write (config_file g);
    match src, dst with
    | Some text, Some room =>
        act_ (Fill (config_file g) (fits room text));; fsync_path (config_file g);;
        log_msg "Restored config.txt from bak";; mret true
    | _, _ => log_msg "Failed to restore config from bak";; mret false
    end.

(** The first block of set_active_ifs. *)
Definition backup_config : io () :=
  g ← get conf;
  let bak := config_file g +:+ ".bak" in
  src ← open_read (config_file g); dst ← open_write bak;
  match src, dst with
  | Some text, Some room => act_ (Fill bak (fits room text))
  | _, _ => log_msg "Warning: could not backup config.txt"
  end.

Definition set_active_ifs (new_ifs : string) : io bool :=
  log_msg ("Setting active IFS: " +:+ new_ifs);;
  backup_config;;
  g ← get conf;
  let tmp := config_file g +:+ ".tmp" in
  text ← read_file_content (config_file g);
  ok ← write_file tmp (with_kernel new_ifs text);
  if negb ok then log_msg ("Failed to write temp config: " +:+ tmp);; mret false
  else
    synced ← fsync_path tmp;
    if negb synced then
      log_msg "fsync failed for temp config, aborting update";; remove_file tmp;; restore_config_bak;; mret false
    else
      moved ← rename tmp (config_file g);
      if negb moved then
        log_msg "rename failed for config.txt, restoring bak";; remove_file tmp;; restore_config_bak;; mret false
      else mret true.

Definition request_reboot : io () :=
  log_msg "config.txt updated. System will reboot in 10 seconds.";; mysleep 10;; system "shutdown -v";; mret ().

(** ** The server *)
Definition curl_http_ok (r : http) (url : string) : io bool :=
  if (200 <=? http_code r) && (http_code r <? 300) then mret true
  else log_msg ("HTTP error " +:+ to_string (http_code r) +:+ " for " +:+ url);; mret false.

Definition curl_ok (r : http) (url : string) : io bool :=
  if curl_res r =? 0 then curl_http_ok r url else mret false.

Definition curl_get (url : string) : io (option string) :=
  r ← ask (fun n => w_http n url);
  if negb (handle r) then log_msg "Failed to initialize CURL";; mret None
  else
    ok ← curl_ok r url;
    (if curl_res r =? 0 then mret () else log_msg ("CURL error: " +:+ to_string (curl_res r)));;
    mret (if (ok : bool) then Some (body r) else None).

Definition download_file (url dest_file : string) : io bool :=
  log_msg ("Downloading IFS from: " +:+ url);;
  r ← ask (fun n => w_http n url);
  if negb (handle r) then log_msg "Failed to initialize CURL";; mret false
  else
    fp ← open_write dest_file;
    match fp with
    | None => log_msg ("Failed to open destination file: " +:+ dest_file);; mret false
    | Some room =>
        ok ← curl_ok r url;
        act_ (Fill dest_file (fits room (body r)));; fsync_path dest_file;;
        if negb ok then
          (if curl_res r =? 0 then mret () else log_msg ("Download failed: " +:+ to_string (curl_res r)));;
          remove_file dest_file;; mret false
        else log_msg ("Download completed: " +:+ dest_file);; mret true
    end.

(** ** Checking an image *)
Definition compute_sha256 (file_path : string) : io string :=
  fp ← open_read file_path;
  match fp with
  | None => mret ""
  | Some c => ok ← ask w_digest; mret (if (ok : bool) then hex (sha256 c) else "")
  end.

Definition sidecar_digest (remote : string) : string := lower (first_word (trimmed remote)).

Definition verify_sha256 (file_path sha256_url : string) : io bool :=
  log_msg ("Downloading SHA256: " +:+ sha256_url);;
  r ← curl_get sha256_url;
  match r with
  | None => log_msg "Failed to download SHA256 sidecar";; mret false
  | Some text =>
      let remote := sidecar_digest text in
      if negb (String.length remote =? 64)%nat then log_msg ("Invalid SHA256 from server: " +:+ remote);; mret false
      else
        actual ← compute_sha256 file_path;
        if decide (actual = "") then log_msg ("SHA256 computation failed for: " +:+ file_path);; mret false
        else if decide (actual = remote) then log_msg ("SHA256 OK: " +:+ actual);; mret true
        else log_msg ("SHA256 mismatch! expected=" +:+ remote +:+ " actual=" +:+ actual);; mret false
  end.

Definition verify_ifs (file_path : string) : io bool :=
  there ← file_exists file_path;
  if negb there then log_msg ("IFS file not found: " +:+ file_path);; mret false
  else
    n ← get_file_size file_path;
    if n <? MIN_IFS_SIZE then log_msg ("IFS file too small: " +:+ to_string n +:+ " bytes");; mret false
    else log_msg ("IFS verified: " +:+ file_path +:+ " (" +:+ to_string n +:+ " bytes)");; mret true.

(** ** The client's own configuration from the server *)
Definition set_config_path (p : string) : io () :=
  g ← get conf;
  set_conf (Config (server_url g) (check_interval g) (enabled g) (boot_path g) (version_file g) (config_file g) (log_file g) p).

(** The block that stores the new text: where it went. *)
Definition persist_config (path remote local : string) : io string :=
  dst ← open_write path;
  match dst with
  | None =>
      log_msg ("Cannot write " +:+ path +:+ ", using /tmp/ota_config");;
      write_file "/tmp/ota_config" remote;; mret "/tmp/ota_config"
  | Some room =>
      write_file (path +:+ ".bak") local;;
      act_ (Fill path (fits room remote));; mret path
  end.

(** What happens with a text that looks like a configuration. *)
Definition apply_config (remote : string) : io () :=
  g ← get conf;
  old ← read_file_content (ota_config_path g);
  if decide (remote = old) then mret ()
  else
    log_msg "Remote ota_config differs, applying update";;
    ok ← write_file new_config_path remote;
    if negb ok then log_msg "Failed to write temp config"
    else
      local ← read_file_content (ota_config_path g);
      persist ← persist_config (ota_config_path g) remote local;
      read_config new_config_path;; set_config_path persist;;
      g' ← get conf; log_msg ("ota_config reloaded. Server: " +:+ server_url g').

Definition check_and_update_config : io () :=
  g ← get conf;
  r ← curl_get (server_url g +:+ "/ota_config");
  match r with
  | None | Some "" => mret ()
  | Some remote =>
      if negb (looks_like_ota_config remote) then log_msg "Remote /ota_config rejected (missing OTA_SERVER=)"
      else apply_config remote
  end.

(** ** The pending update *)
Definition uptime_sec_now : io Z :=
  ts ← ask w_monotonic; match ts with Some sec => mret sec | None => ask w_time end.

Definition write_pending (target_ifs version : string) : io bool :=
  wit ← write_file kRebootWitnessPath (target_ifs +:+ " " +:+ version +:+ nl);
  (if (wit : bool) then mret () else log_msg ("Warning: cannot create reboot witness " +:+ kRebootWitnessPath +:+ "; will use clock checks"));;
  g ← get conf;
  let path := pending_path g in
  pf ← open_write path;
  match pf with
  | None => log_msg ("Failed to write pending: " +:+ path);; mret false
  | Some room =>
      up ← uptime_sec_now; wall ← ask w_time;
      act_ (Fill path (fits room (pending_text target_ifs version up wall wit)));;
      synced ← fsync_path path;
      (if (synced : bool) then mret () else log_msg ("Warning: fsync failed for " +:+ path));; mret true
  end.

Definition clear_pending : io () :=
  g ← get conf; remove_file (pending_path g);; remove_file kRebootWitnessPath;; mret ().

Definition read_pending : io PendingInfo :=
  g ← get conf; pf ← open_read (pending_path g);
  mret (match pf with Some text => parse_pending text | None => no_pending end).

Definition system_rebooted_since (p : PendingInfo) : io bool :=
  if witness_ok p then there ← file_exists kRebootWitnessPath; mret (negb there)
  else if (switch_uptime_sec p <? 0) || (switch_wall_sec p <=? 0) then mret true
  else
    u_now ← uptime_sec_now;
    if u_now <? switch_uptime_sec p then mret true
    else
      let boot_ts_then := switch_wall_sec p - switch_uptime_sec p in
      now ← ask w_time; mret (boot_ts_then + 5 <? now - u_now).

(** What both callers do when config.txt does not name the pending image. *)
Definition drop_pending (what why : string) (p : PendingInfo) : io () :=
  g ← get conf;
  let path := image_path g (expected_ifs p) in
  there ← file_exists path;
  (if (there : bool) then log_msg (what +:+ path);; remove_file path;; mret () else mret ());;
  clear_pending;; log_msg why.

Definition settle_pending_on_boot : io bool :=
  p ← read_pending;
  if negb (p_valid p) then mret true
  else
    active ← get_active_ifs;
    match active with
    | None => log_msg "Boot pending: cannot read active IFS, deferring settle";; mret false
    | Some active =>
        log_msg ("Boot pending: expected=" +:+ expected_ifs p +:+ " active=" +:+ active +:+
                 (if decide (version p = "") then "" else " version=" +:+ version p));;
        if decide (active = expected_ifs p) then
          rebooted ← system_rebooted_since p;
          if negb rebooted then log_msg "Pending awaits true cold start (no reboot evidence); NOT committing version";; mret false
          else
            ok ← (if decide (version p = "") then mret true else write_version (version p));
            if negb ok then log_msg "Commit version failed, will retry next boot";; mret false
            else
              (if decide (version p = "") then mret () else log_msg ("Version committed after cold start: " +:+ version p));;
              clear_pending;; log_msg ("OTA boot verified OK: " +:+ active);; mret true
        else drop_pending "Removing unused IFS after failed switch: " "Boot pending aborted, version unchanged" p;; mret true
    end.

(** The result, and out_need_reboot. *)
Definition pending_blocks_update : io (bool * bool) :=
  p ← read_pending;
  if negb (p_valid p) then mret (false, true)
  else
    active ← get_active_ifs;
    match active with
    | None => log_msg "Pending present but active IFS unreadable; blocking updates (not requesting reboot)";; mret (true, false)
    | Some active =>
        if decide (active = expected_ifs p) then
          log_msg ("Pending awaits reboot (kernel already " +:+ active +:+ "); NOT committing version until cold start");; mret (true, true)
        else drop_pending "Removing unused IFS: " "Stale pending cleared" p;; mret (false, true)
    end.

(** ** One update *)
Definition get_server_version : io string :=
  g ← get conf; r ← curl_get (server_url g +:+ "/version.txt");
  match r with
  | None => log_msg "Failed to check server version";; mret ""
  | Some response =>
      let response := trimmed response in
      if decide (response = "") then log_msg "Empty server version response";; mret "" else mret response
  end.

(** The number that df prints is a question; None: popen or fscanf failed. *)
Definition check_boot_space (required_bytes : Z) : io bool :=
  r ← ask w_free_kb;
  match r with
  | None => log_msg "check_boot_space: df returned invalid value";; mret false
  | Some free_kb =>
      if free_kb <=? 0 then log_msg "check_boot_space: df returned invalid value";; mret false
      else
        let required_kb := required_bytes / 1024 + 1024 in
        if free_kb <? required_kb then
          log_msg ("check_boot_space: only " +:+ to_string free_kb +:+ " KB free, need " +:+ to_string required_kb +:+ " KB");; mret false
        else log_msg ("check_boot_space: OK (" +:+ to_string free_kb +:+ " KB free)");; mret true
  end.

Definition abort_before_switch (why target_path : string) : io bool :=
  log_msg why;; remove_file target_path;; clear_pending;; mret false.

Definition image_url (g : OTAConfig) (server_version : string) : string :=
  server_url g +:+ "/ifs-rpi5_v" +:+ server_version +:+ ".bin".

(** From the verified image to the request for a reboot. *)
Definition switch_to (target server_version : string) : io bool :=
  g ← get conf;
  let target_path := image_path g target in
  ok ← write_pending target server_version;
  if negb ok then abort_before_switch "Failed to write pending marker" target_path
  else
    ok ← set_active_ifs target;
    if negb ok then abort_before_switch "Failed to update config.txt (restored if possible)" target_path
    else
      request_reboot;; mysleep 60;;
      there ← file_exists (pending_path g);
      (if (there : bool) then log_msg "Still running after reboot request; version NOT committed until next cold start" else mret ());;
      mret true.

Definition try_apply_update (server_version : string) : io bool :=
  space ← check_boot_space MIN_IFS_SIZE;
  if negb space then log_msg "Insufficient space on /var/boot, skipping update this cycle";; mret false
  else
    active ← get_active_ifs;
    match active with
    | None => log_msg "Cannot determine active IFS, skipping update this cycle";; mret false
    | Some active =>
        g ← get conf;
        let target := other_ifs active in
        let target_path := image_path g target in
        let url := image_url g server_version in
        log_msg ("New version " +:+ server_version +:+ ", target=" +:+ target);;
        log_msg ("Download URL: " +:+ url);;
        ok ← download_file url target_path;
        if negb ok then log_msg "Download failed, will retry later";; mret false
        else
          ok ← verify_sha256 target_path (url +:+ ".sha256");
          if negb ok then abort_before_switch "SHA256 verification failed" target_path
          else
            ok ← verify_ifs target_path;
            if negb ok then abort_before_switch "IFS size verification failed" target_path
            else switch_to target server_version
    end.

(** ** The main loop, by rounds *)
Definition nap : io () := g ← get conf; mysleep (check_interval g).

Definition ota_round : io () :=
  '(blocked, need_reboot) ← pending_blocks_update;
  if (blocked : bool) then
    (if (need_reboot : bool) then log_msg "Re-requesting reboot while pending...";; request_reboot
     else log_msg "Pending blocked on unreadable config; no reboot requested");;
    nap
  else
    check_and_update_config;;
    local ← get_version; server ← get_server_version;
    if decide (server = "") then nap
    else
      log_msg ("Local version: " +:+ local +:+ ", Server version: " +:+ server);;
      (if is_newer_version server local then try_apply_update server;; mret () else mret ());;
      nap.

Fixpoint ota_rounds (n : nat) : io () :=
  match n with O => mret () | S k => ota_round;; ota_rounds k end.

Definition ota_loop (rounds : nat) : io () :=
  g ← get conf;
  log_msg "OTA Client started";; log_msg ("Server: " +:+ server_url g);;
  log_msg ("Check interval: " +:+ to_string (check_interval g) +:+ "s");;
  if negb (enabled g) then log_msg "OTA is disabled in configuration"
  else settle_pending_on_boot;; ota_rounds rounds.

(** ** Mounting and main *)
(** The second field of a line, or what follows " on ". *)
Fixpoint find_str (p s : string) : option string :=
  match after p s with
  | Some r => Some r
  | None => match s with "" => None | String _ r => find_str p r end
  end.
Definition mount_line (mount_point line : string) : bool :=
  bool_decide (String.words line !! 1%nat = Some mount_point) ||
  match find_str (" on " +:+ mount_point) line with
  | Some "" => true
  | Some (String c _) => (Ascii.nat_of_ascii c =? 32)%nat || (Ascii.nat_of_ascii c =? 9)%nat
  | None => false
  end.
Definition scan (mount_point text : string) : bool := existsb (mount_line mount_point) (lines text).

Definition is_mounted (mount_point : string) : io bool :=
  proc ← open_read "/proc/mounts";
  if match proc with Some t => scan mount_point t | None => false end then mret true
  else
    system "mount > /tmp/mounts 2>/dev/null";;
    out ← ask w_mounts;
    match out with Some t => act_ (Fill "/tmp/mounts" t) | None => mret () end;;
    fallback ← open_read "/tmp/mounts";
    mret (match fallback with Some t => scan mount_point t | None => false end).

Definition ensure_boot_mounted : io bool :=
  act_ (MakeDir "/var/boot");; rc ← system "mount -t dos /dev/sd0t12 /var/boot"; mret (rc =? 0).

Fixpoint mount_tries (n : nat) (i : Z) : io bool :=
  match n with
  | O => mret false
  | S k =>
      log_msg ("Mounting /var/boot, attempt " +:+ to_string i +:+ "/5");;
      ok ← ensure_boot_mounted;
      if (ok : bool) then mret true else (if i <? 5 then mysleep 3 else mret ());; mount_tries k (i + 1)
  end.

Definition defaults : OTAConfig :=
  Config "http://192.168.50.148:8080" 300 true "/var/boot" "/var/boot/ota_version" "/var/boot/config.txt" "/tmp/ota_client.log" "/etc/ota_config".

(** The options: the configuration file, and whether -h ended the program. *)
Fixpoint parse_argv (argv : list string) (config_file : string) : option string :=
  match argv with
  | [] => Some config_file
  | a :: l =>
      if decide (a = "-h" \/ a = "--help") then None
      else if decide (a = "-c") then match l with f :: l' => parse_argv l' f | [] => Some config_file end
      else parse_argv l config_file
  end.

Definition main (argv : list string) (rounds : nat) : io Z :=
  set_conf defaults;;
  mounted ← is_mounted "/var/boot";
  up ← (if (mounted : bool) then mret true else mount_tries 5 1);
  if negb up then log_msg "Failed to mount /var/boot, exiting";; mret 1
  else
    match parse_argv argv "/etc/ota_config" with
    | None => mret 0
    | Some config_file =>
        set_config_path config_file;; read_config config_file;; ota_loop rounds;; log_msg "OTA Client exiting";; mret 0
    end.
End client.
