(* ===== verification/OtaText.v ===== *)
(** * The texts of the update client: round trips and the order of versions

    Lemmas on Ota.v: the lines of a file, the kernel= line, the pending
    record, and versions. *)
From S2P Require Import Prelude Gpio Ota.
From stdpp Require Import gmap.
Open Scope Z_scope.

Definition chars_of : string -> chars := String.list_ascii_of_string.
Definition no_nl (s : string) : Prop := NL ∉ chars_of s.

Lemma cons_app c (a b : string) : String c a +:+ b = String c (a +:+ b).
Proof. done. Qed.
Lemma nil_app (a : string) : "" +:+ a = a.
Proof. done. Qed.
Lemma app_empty (s : string) : s +:+ "" = s.
Proof. induction s as [|c s IH]; [done|]. by rewrite !cons_app, IH. Qed.
Lemma app_assoc_s (a b c : string) : (a +:+ b) +:+ c = a +:+ (b +:+ c).
Proof. induction a as [|x a IH]; [done|]. by rewrite !cons_app, IH. Qed.
Lemma chars_app a b : chars_of (a +:+ b) = chars_of a ++ chars_of b.
Proof. induction a as [|x a IH]; [done|]. rewrite cons_app. cbn. f_equal. exact IH. Qed.
Lemma no_nl_app a b : no_nl (a +:+ b) <-> no_nl a /\ no_nl b.
Proof. unfold no_nl. rewrite chars_app. set_solver. Qed.
Lemma no_nl_cons c s : no_nl (String c s) <-> c <> NL /\ no_nl s.
Proof. unfold no_nl. cbn. set_solver. Qed.

(** ** Lines *)
Lemma lines_line l r : no_nl l -> lines (l +:+ nl +:+ r) = l :: lines r.
Proof.
  induction l as [|c l IH]; intros Hl.
  - change (lines (String NL r) = "" :: lines r). cbn [lines]. by rewrite decide_True.
  - apply no_nl_cons in Hl as [Hc Hl]. rewrite cons_app. cbn [lines]. rewrite decide_False by done. by rewrite IH.
Qed.
Lemma lines_unlines l : Forall no_nl l -> lines (unlines l) = l.
Proof. induction 1 as [|x l Hx _ IH]; [done|]. cbn [unlines foldr]. fold (unlines l). rewrite lines_line by done. by f_equal. Qed.
Lemma lines_no_nl s : Forall no_nl (lines s).
Proof.
  induction s as [|c s IH]; [constructor|]. cbn [lines]. case_decide.
  - constructor; [apply not_elem_of_nil|done].
  - destruct (lines s) as [|x ls]; inversion IH; subst; repeat constructor; try done.
    + apply no_nl_cons. split; [done|apply not_elem_of_nil].
    + by apply no_nl_cons.
Qed.

(** A text that was cut short has the same lines, the last one cut short. *)
Lemma lines_cut k s i x : lines (String.substring 0 k s) !! i = Some x -> exists y, lines s !! i = Some (x +:+ y).
Proof.
  revert s i x. induction k as [|k IH]; intros s i x; [by destruct s|].
  destruct s as [|c s]; [done|]. cbn [String.substring lines]. case_decide as Ec.
  - destruct i as [|i]; cbn; [intros [= <-]; by exists ""|apply IH].
  - specialize (IH s). destruct (lines (String.substring 0 k s)) as [|z zs] eqn:E.
    + destruct i; [|done]. intros [= <-]. destruct (lines s) as [|y ys]; [by exists ""|]. by exists y.
    + destruct (IH 0%nat z eq_refl) as [y Hy]. destruct (lines s) as [|t ts] eqn:Es; [done|]. cbn in Hy. simplify_eq.
      destruct i as [|i]; cbn; [intros [= <-]; by exists y|]. intros Hx. by apply (IH (S i) x).
Qed.

(** ** Blanks *)
Definition word (s : string) : Prop := Forall (fun c => is_ws c = false) (chars_of s).
Lemma word_back s : word s -> erase_back s = s.
Proof.
  induction s as [|c s IH]; [done|]. intros Hs. inversion Hs as [|? ? Hc Hw]; subst. cbn [erase_back]. rewrite IH by exact Hw.
  rewrite Hc. by destruct s.
Qed.
Lemma word_trimmed s : word s -> trimmed s = s.
Proof.
  intros Hs. unfold trimmed. assert (erase_front s = s) as ->; [|by apply word_back].
  destruct s as [|c s]; [done|]. inversion Hs as [|? ? Hc]; subst. cbn [erase_front]. by rewrite Hc.
Qed.
Lemma erase_back_nonblank s : erase_back s <> "" -> exists c, is_ws c = false /\ c ∈ chars_of s.
Proof.
  induction s as [|c s IH]; [done|]. cbn [erase_back]. intros Hs. destruct (is_ws c) eqn:Ec; [|exists c; set_solver].
  destruct (erase_back s); [done|]. destruct IH as (d & Hd & Hi); [done|]. exists d. set_solver.
Qed.
Lemma erase_back_last c s : erase_back s <> "" -> erase_back (String c s) = String c (erase_back s).
Proof. intros Hs. cbn [erase_back]. by destruct (erase_back s). Qed.
Lemma erase_back_idem s : erase_back (erase_back s) = erase_back s.
Proof.
  induction s as [|c s IH]; [done|]. destruct (decide (erase_back s = "")) as [E|E].
  - cbn [erase_back]. rewrite E. destruct (is_ws c) eqn:Ec; [done|]. cbn. by rewrite Ec.
  - rewrite erase_back_last by done. rewrite erase_back_last by (by rewrite IH). by rewrite IH.
Qed.
Lemma front_back s : (forall c r, s = String c r -> is_ws c = false) -> erase_front (erase_back s) = erase_back s.
Proof.
  destruct s as [|c s]; [done|]. intros Hc. specialize (Hc c s eq_refl). cbn [erase_back].
  destruct (erase_back s); cbn [erase_front]; rewrite ?Hc; cbn; by rewrite ?Hc.
Qed.
Lemma erase_front_head s c r : erase_front s = String c r -> is_ws c = false.
Proof. induction s as [|d s IH]; cbn; [done|]. destruct (is_ws d) eqn:E; [done|]. by intros [= -> ->]. Qed.
Lemma trimmed_idem s : trimmed (trimmed s) = trimmed s.
Proof.
  unfold trimmed at 1. unfold trimmed at 1. rewrite front_back; [apply erase_back_idem|].
  intros c r. apply erase_front_head.
Qed.

(** ** The kernel= line *)

(** A name that a kernel= line can carry. *)
Definition ifs_name (n : string) : Prop := word n /\ n <> "" /\ "#"%char ∉ chars_of n.
#[export] Instance ifs_name_dec n : Decision (ifs_name n).
Proof. apply and_dec; [apply Forall_dec; intros; apply bool_eq_dec|apply and_dec; [apply not_dec, String.eq_dec|apply not_dec; apply _]]. Defined.

Lemma cut_none c s : c ∉ chars_of s -> cut c s = None.
Proof.
  induction s as [|d s IH]; [done|]. cbn. intros Hc. apply not_elem_of_cons in Hc as [Hd Hc]. rewrite decide_False by done.
  by rewrite IH.
Qed.
Lemma cut_app c a b : c ∉ chars_of a -> cut c (a +:+ String c b) = Some (a, b).
Proof.
  induction a as [|d a IH]; intros Hc; [rewrite nil_app; cbn [cut]; by rewrite decide_True|]. apply not_elem_of_cons in Hc as [Hd Hc].
  rewrite cons_app. cbn [cut]. rewrite decide_False by done. by rewrite IH.
Qed.
Lemma after_app p s : after p (p +:+ s) = Some s.
Proof. induction p as [|c p IH]; [by destruct s|]. rewrite cons_app. cbn [after]. by rewrite decide_True. Qed.
Lemma word_no_nl n : word n -> no_nl n.
Proof. intros Hw Hi. unfold word in Hw. rewrite Forall_forall in Hw. by apply Hw in Hi. Qed.

Lemma kernel_line n : ifs_name n -> kernel_ifs_from_line ("kernel=" +:+ n) = n.
Proof.
  intros (Hw & Hn & Hh). unfold kernel_ifs_from_line. change (skip_indent ("kernel=" +:+ n)) with ("kernel=" +:+ n).
  rewrite after_app, word_trimmed by done. by rewrite cut_none.
Qed.
Lemma kernel_line_no_nl n : ifs_name n -> no_nl ("kernel=" +:+ n).
Proof. intros (Hw & _ & _). apply no_nl_app. split; [|by apply word_no_nl]. unfold no_nl. by vm_compute; set_solver. Qed.

(** The text after set_active_ifs, line by line. *)
Definition retarget (n x : string) : string := if decide (kernel_ifs_from_line x = "") then x else "kernel=" +:+ n.
Lemma lines_with_kernel n text : ifs_name n -> lines (with_kernel n text) =
  (retarget n <$> lines text) ++ (if decide (Forall (fun x => kernel_ifs_from_line x = "") (lines text)) then ["kernel=" +:+ n] else []).
Proof.
  intros Hn. unfold with_kernel. rewrite lines_unlines; [by case_decide; [|rewrite app_nil_r]|].
  assert (Forall no_nl (retarget n <$> lines text)) as Hf.
  { apply Forall_fmap, (Forall_impl _ _ _ (lines_no_nl text)). intros x Hx. cbn. unfold retarget. case_decide; [done|by apply kernel_line_no_nl]. }
  case_decide; [|done]. apply Forall_app. split; [done|]. repeat constructor. by apply kernel_line_no_nl.
Qed.
Lemma retarget_kernel n x : ifs_name n -> kernel_ifs_from_line (retarget n x) = (if decide (kernel_ifs_from_line x = "") then "" else n).
Proof. intros Hn. unfold retarget. case_decide as E; [done|by apply kernel_line]. Qed.

Lemma kernel_filter n l : ifs_name n -> Forall (fun x => x = "" \/ x = n) l -> ~ Forall (fun x => x = "") l ->
  head (filter (fun x => x <> "") l) = Some n.
Proof.
  intros (_ & Hn & _). induction 1 as [|x l Hx Hl IH]; [intros Hf; by destruct Hf|]. intros Hf. rewrite filter_cons. case_decide as E.
  - cbn. f_equal. by destruct Hx.
  - apply IH. intros Hf'. apply Hf. constructor; [by destruct Hx|done].
Qed.

Lemma kernel_of_with n text : ifs_name n -> kernel_of (with_kernel n text) = Some n.
Proof.
  intros Hn. unfold kernel_of. rewrite lines_with_kernel by done. apply kernel_filter; [done| |].
  - rewrite fmap_app. apply Forall_app. split.
    + rewrite <- list_fmap_compose. apply Forall_fmap, Forall_true. intros x. cbn. rewrite retarget_kernel by done. case_decide; auto.
    + case_decide; [|constructor]. cbn [fmap list_fmap]. rewrite kernel_line by done. constructor; [by right|constructor].
  - rewrite fmap_app. intros Hf. apply Forall_app in Hf as [Hf Hl]. case_decide as E.
    + inversion Hl as [|? ? Hx]; subst. rewrite kernel_line in Hx by done. by destruct Hn as (_ & ? & _).
    + apply E. rewrite <- list_fmap_compose in Hf. apply Forall_fmap in Hf. eapply Forall_impl; [exact Hf|]. intros x. cbn.
      rewrite retarget_kernel by done. case_decide; [done|]. intros ->. by destruct Hn as (_ & ? & _).
Qed.

(** The settings other than kernel= stay, in their order. *)
Definition settings (text : string) : list string := filter (fun x => kernel_ifs_from_line x = "") (lines text).
Lemma settings_with n text : ifs_name n -> settings (with_kernel n text) = settings text.
Proof.
  intros Hn. unfold settings. rewrite lines_with_kernel by done. rewrite filter_app.
  assert (filter (fun x => kernel_ifs_from_line x = "") (retarget n <$> lines text) = filter (fun x => kernel_ifs_from_line x = "") (lines text)) as ->.
  { induction (lines text) as [|x l IH]; [done|]. rewrite fmap_cons, !filter_cons, retarget_kernel by done. unfold retarget at 1.
    destruct (decide (kernel_ifs_from_line x = "")) as [E|E].
    - rewrite !decide_True by done. by rewrite IH.
    - rewrite decide_False by (by destruct Hn as (_ & ? & _)). done. }
  rewrite <- (app_nil_r (filter _ (lines text))) at 2. f_equal. case_decide; [|done]. rewrite filter_cons, kernel_line by done.
  rewrite decide_False by (by destruct Hn as (_ & ? & _)). done.
Qed.

(** Switching again replaces the switch before. *)
Lemma lines_length_with n text : ifs_name n -> ~ Forall (fun x => kernel_ifs_from_line x = "") (lines (with_kernel n text)).
Proof.
  intros Hn Hf. pose proof (kernel_of_with n text Hn) as E. unfold kernel_of in E.
  assert (filter (fun x => x <> "") (kernel_ifs_from_line <$> lines (with_kernel n text)) = []) as E'; [|by rewrite E' in E].
  clear E. induction Hf as [|x l Hx _ IH]; [done|]. rewrite fmap_cons, filter_cons, decide_False by (by intros []). exact IH.
Qed.
Lemma retarget_twice a b x : ifs_name a -> retarget b (retarget a x) = retarget b x.
Proof.
  intros Ha. unfold retarget at 1. rewrite retarget_kernel by done. unfold retarget. destruct (decide (kernel_ifs_from_line x = "")) as [E|E].
  - by rewrite decide_True.
  - rewrite decide_False; [done|]. by destruct Ha as (_ & ? & _).
Qed.
Lemma retarget_same n x : ifs_name n -> retarget n (retarget n x) = retarget n x.
Proof. intros. by apply retarget_twice. Qed.
Lemma unlines_app a b : unlines (a ++ b) = unlines a +:+ unlines b.
Proof. induction a as [|x a IH]; [done|]. cbn. fold (unlines (a ++ b)) (unlines a). rewrite IH. by rewrite !app_assoc_s. Qed.
Lemma with_kernel_unlines n text : with_kernel n text = unlines
  ((retarget n <$> lines text) ++ (if decide (Forall (fun x => kernel_ifs_from_line x = "") (lines text)) then ["kernel=" +:+ n] else [])).
Proof. unfold with_kernel. case_decide; [done|]. by rewrite app_nil_r. Qed.
Lemma with_kernel_twice a b text : ifs_name a -> ifs_name b -> with_kernel b (with_kernel a text) = with_kernel b text.
Proof.
  intros Ha Hb. rewrite (with_kernel_unlines b (with_kernel a text)), decide_False by (by apply lines_length_with).
  rewrite app_nil_r, lines_with_kernel, with_kernel_unlines by done. f_equal. rewrite fmap_app. f_equal.
  - rewrite <- list_fmap_compose. apply list_fmap_ext. intros i x _. cbn. by apply retarget_twice.
  - case_decide; [|done]. cbn. unfold retarget. by rewrite kernel_line, decide_False by (done || by destruct Ha as (_ & ? & _)).
Qed.

(** ** Numbers *)
Lemma scan_dec k n rest : 0 <= n < 10 ^ Z.of_nat k -> (0 < k)%nat -> scan_digits 0 (dec_digits k n rest) = scan_digits n rest.
Proof.
  revert n rest. induction k as [|k IH]; intros n rest Hn Hk; [lia|]. cbn [dec_digits]. destruct (n <? 10) eqn:E; zbool.
  - cbn [scan_digits]. destruct (digit_char_spec n) as (-> & _); [lia|]. done.
  - rewrite Nat2Z.inj_succ, Z.pow_succ_r in Hn by lia. rewrite IH.
    + cbn [scan_digits]. destruct (digit_char_spec (n mod 10)) as (-> & _); [apply Z.mod_pos_bound; lia|].
      f_equal. pose proof (Z.div_mod n 10). lia.
    + split; [apply Z.div_pos; lia|]. apply Z.div_lt_upper_bound; lia.
    + destruct k; [cbn in Hn; lia|lia].
Qed.
Lemma dec_digits_head k n rest : 0 <= n -> (0 < k)%nat -> exists d r, dec_digits k n rest = digit_char d :: r /\ 0 <= d < 10.
Proof.
  revert n rest. induction k as [|k IH]; intros n rest Hn Hk; [lia|]. cbn [dec_digits]. destruct (n <? 10) eqn:E; zbool; [by exists n, rest|].
  destruct k as [|k]; [|apply IH; [by apply Z.div_pos|lia]]. cbn. exists (n mod 10), rest. split; [done|]. apply Z.mod_pos_bound. lia.
Qed.
Lemma scan_number_digits n : 0 <= n < 10 ^ 20 -> scan_number (dec_digits 20 n []) = Some (false, n, []).
Proof.
  intros Hn. pose proof (scan_dec 20 n [] Hn ltac:(lia)) as E. destruct (dec_digits_head 20 n []) as (d & r & Eh & Hd); [lia|lia|].
  destruct (digit_char_spec d Hd) as (D & Sp & M & P). unfold scan_number. rewrite Eh in *. cbn [skip_spaces].
  rewrite Sp, sign_of_other by done. by rewrite D, E.
Qed.
Lemma chars_of_list l : chars_of (String.string_of_list_ascii l) = l.
Proof. apply String.list_ascii_of_string_of_list_ascii. Qed.

Lemma sto_to_string max n : max < 10 ^ 20 -> - max - 1 <= n <= max -> - 10 ^ 20 < n -> sto max (to_string n) = Some n.
Proof.
  intros Hm Hn Hl. unfold sto, to_string. assert (forall v, - max - 1 <= v <= max -> (- max - 1 <=? v) && (v <=? max) = true) as Hr.
  { intros v Hv. apply andb_true_iff. split; apply Z.leb_le; lia. }
  destruct (n <? 0) eqn:E; zbool.
  - fold chars_of. rewrite chars_app, chars_of_list. cbn [chars_of String.list_ascii_of_string app].
    assert (scan_number ("-"%char :: dec_digits 20 (- n) []) = Some (true, - n, [])) as ->.
    { pose proof (scan_dec 20 (- n) [] ltac:(change (10 ^ Z.of_nat 20) with (10 ^ 20); lia) ltac:(lia)) as Es.
      destruct (dec_digits_head 20 (- n) []) as (d & r & Eh & Hd); [lia|lia|]. destruct (digit_char_spec d Hd) as (D & _).
      unfold scan_number. cbn [skip_spaces]. change (is_space "-"%char) with false. cbn [sign_of]. rewrite Eh in *. by rewrite D, Es. }
    cbn. rewrite Z.opp_involutive. by rewrite Hr.
  - fold chars_of. rewrite chars_of_list, scan_number_digits by lia. cbn. by rewrite Hr.
Qed.
Lemma stoi_to_string n : -2147483648 <= n < 2147483648 -> stoi (to_string n) = Some n.
Proof. intros. apply sto_to_string; lia. Qed.
Lemma stoll_to_string n : -9223372036854775808 <= n < 9223372036854775808 -> stoll (to_string n) = Some n.
Proof. intros. apply sto_to_string; lia. Qed.

Definition is_digit (c : Ascii.ascii) : Prop := exists d, 0 <= d < 10 /\ c = digit_char d.
Lemma dec_digits_all k n rest : 0 <= n -> Forall is_digit rest -> Forall is_digit (dec_digits k n rest).
Proof.
  revert n rest. induction k as [|k IH]; intros n rest Hn Hr; [done|]. cbn [dec_digits]. destruct (n <? 10) eqn:E; zbool.
  - constructor; [exists n; split; [lia|done]|done].
  - apply IH; [by apply Z.div_pos|]. constructor; [|done]. exists (n mod 10). split; [apply Z.mod_pos_bound; lia|done].
Qed.
Lemma digit_cases c (P : Ascii.ascii -> Prop) : is_digit c -> (forall n, (n < 10)%nat -> P (Ascii.ascii_of_nat (48 + n))) -> P c.
Proof. intros (d & Hd & ->) HP. apply HP. lia. Qed.
Lemma digit_not_ws c : is_digit c -> is_ws c = false.
Proof. intros Hc. apply (digit_cases c); [done|]. intros n Hn. do 10 (destruct n as [|n]; [done|]). lia. Qed.
Lemma to_string_chars n : Forall (fun c => is_digit c \/ c = "-"%char) (chars_of (to_string n)).
Proof.
  unfold to_string. assert (forall v, 0 <= v -> Forall (fun c => is_digit c \/ c = "-"%char) (dec_digits 20 v [])) as Hd.
  { intros v Hv. eapply Forall_impl; [apply dec_digits_all; [done|constructor]|]. auto. }
  destruct (n <? 0) eqn:E; zbool; rewrite ?chars_app, ?chars_of_list; [|by apply Hd].
  apply Forall_app. split; [|apply Hd; lia]. constructor; [by right|constructor].
Qed.
Lemma to_string_word n : word (to_string n).
Proof. eapply Forall_impl; [apply to_string_chars|]. intros c [Hc| ->]; [by apply digit_not_ws|done]. Qed.
Lemma to_string_no_dot n : "."%char ∉ chars_of (to_string n).
Proof.
  intros Hi. pose proof (to_string_chars n) as Hf. rewrite Forall_forall in Hf. destruct (Hf _ Hi) as [(d & Hd & E)|E]; [|done].
  revert E. apply (digit_cases (digit_char d)); [by exists d|]. intros m Hm. do 10 (destruct m as [|m]; [done|]). lia.
Qed.
Lemma no_nl_to_string n : no_nl (to_string n).
Proof. apply word_no_nl, to_string_word. Qed.

(** ** Versions *)
Definition version_text (y w q : Z) : string := to_string y +:+ "." +:+ to_string w +:+ "." +:+ to_string q.
Definition int32 (z : Z) : Prop := -2147483648 <= z < 2147483648.
Lemma parse_version_text y w q : int32 y -> int32 w -> int32 q -> parse_version (version_text y w q) = Ver y w q true.
Proof.
  intros Hy Hw Hq. unfold parse_version, version_text. rewrite !cons_app, !nil_app.
  rewrite cut_app by apply to_string_no_dot. rewrite cut_app by apply to_string_no_dot. by rewrite !stoi_to_string.
Qed.

Definition newer (a b : Version) : Prop :=
  valid a = true /\ valid b = true /\
  (year b < year a \/ year a = year b /\ (week b < week a \/ week a = week b /\ seq_ b < seq_ a)).
Lemma is_newer_spec a b : is_newer_version a b = true <-> newer (parse_version a) (parse_version b).
Proof.
  unfold is_newer_version, newer. destruct (parse_version a) as [ya wa qa va], (parse_version b) as [yb wb qb vb]. cbn.
  destruct va, vb; cbn; try (split; [done|naive_solver]).
  destruct (ya =? yb) eqn:Ey, (wa =? wb) eqn:Ew; cbn; zbool; rewrite Z.ltb_lt; split; intros; repeat split; lia.
Qed.

(** ** The pending record *)
Lemma lines_pending target v up wall (wit : bool) : no_nl target -> no_nl v ->
  lines (pending_text target v up wall wit) = [target; v; to_string up; to_string wall; if wit then "1" else "0"].
Proof.
  intros Ht Hv. unfold pending_text. rewrite !lines_line; try done; try apply no_nl_to_string.
  assert (no_nl (if wit then "1" else "0")) as Hw by (destruct wit; unfold no_nl; vm_compute; set_solver).
  rewrite <- (app_empty nl). by rewrite lines_line.
Qed.
Definition int64 (z : Z) : Prop := -9223372036854775808 <= z < 9223372036854775808.
#[local] Opaque to_string trimmed stoll.
Lemma parse_pending_text target v up wall wit : word target -> target <> "" -> no_nl v -> trimmed v = v -> int64 up -> int64 wall ->
  parse_pending (pending_text target v up wall wit) = Pending target v up wall wit true.
Proof.
  intros Ht Hn Hv Hvt Hu Hw. unfold parse_pending. rewrite lines_pending by (done || by apply word_no_nl). cbn.
  rewrite !(word_trimmed (to_string _)) by apply to_string_word. rewrite !stoll_to_string by done.
  rewrite (word_trimmed target), Hvt by done. cbn. rewrite (bool_decide_eq_false_2 (target = "")) by done.
  destruct wit; [rewrite (word_trimmed "1") by (by repeat constructor)|rewrite (word_trimmed "0") by (by repeat constructor)]; done.
Qed.

#[local] Transparent to_string trimmed stoll.
Lemma front_of_0 x y : x +:+ y = "0" -> trimmed x <> "1".
Proof.
  destruct x as [|c x]; [done|]. rewrite cons_app. intros [= -> E]. destruct x; [done|]. by rewrite cons_app in E.
Qed.

(** Without the witness no cut of the record claims one. *)
Lemma cut_pending_witness target v up wall room : no_nl target -> no_nl v ->
  witness_ok (parse_pending (fits room (pending_text target v up wall false))) = false.
Proof.
  intros Ht Hv. unfold parse_pending. cbn [witness_ok]. apply bool_decide_eq_false_2.
  destruct (lines (fits room _) !! 4%nat) as [x|] eqn:E; [|done]. cbn [default]. destruct room as [k|]; cbn [fits] in E.
  - apply lines_cut in E as [y E]. rewrite lines_pending in E by done. injection E as E. by apply (front_of_0 x y).
  - rewrite lines_pending in E by done. by injection E as <-.
Qed.
