(* ===== verification/OtaStep.v ===== *)
(** * What the update client does to the files (theorems on Ota.v)

    A relation between the states before and after a piece of code that says
    what every act on the way was allowed to be, and that all the code that
    only looks around, reports and keeps its own books touches none of the
    files that matter. *)
From S2P Require Import Prelude Gpio Ota OtaText.
From stdpp Require Import gmap.
Open Scope Z_scope.

(** ** Acts on the way *)
Definition touches (x : act) (p : string) : Prop :=
  match x with
  | Create q | Fill q _ | Append q _ | Remove q => p = q
  | Rename a b => p = a \/ p = b
  | MakeDir _ | Command _ | Sleep _ => False
  end.

Fixpoint chain (f : store) (l : list (store * act)) (f' : store) : Prop :=
  match l with [] => f' = f | (h, x) :: l' => h = f /\ chain (apply_act x f) l' f' end.

(** From [s] the client came to [s'], by acts that [Q] allows. *)
Definition went (Q : store -> act -> Prop) (s s' : client) : Prop :=
  exists l, done_ s' = done_ s ++ l /\ chain (files s) l (files s') /\ Forall (fun '(f, x) => Q f x) l.

Lemma chain_app f l m f' f'' : chain f l f' -> chain f' m f'' -> chain f (l ++ m) f''.
Proof. revert f. induction l as [|[h x] l IH]; intros f; cbn; [by intros ->|]. intros [-> Hl] Hm. split; [done|]. by apply IH. Qed.
Lemma went_refl Q s s' : done_ s' = done_ s -> files s' = files s -> went Q s s'.
Proof. intros Ed Ef. exists []. rewrite app_nil_r. by rewrite Ed, Ef. Qed.
Lemma went_trans Q s1 s2 s3 : went Q s1 s2 -> went Q s2 s3 -> went Q s1 s3.
Proof.
  intros (l & E1 & C1 & F1) (m & E2 & C2 & F2). exists (l ++ m). split_and!.
  - by rewrite E2, E1, app_assoc.
  - by eapply chain_app.
  - by apply Forall_app.
Qed.
Lemma went_mono (P Q : store -> act -> Prop) s s' : (forall f x, P f x -> Q f x) -> went P s s' -> went Q s s'.
Proof. intros H (l & E & C & F). exists l. split_and!; [done|done|]. eapply Forall_impl; [done|]. intros [f x]. apply H. Qed.
Lemma went_act Q x s : Q (files s) x -> went Q s (Client (conf s) (apply_act x (files s)) (tick s) (done_ s ++ [(files s, x)])).
Proof. intros Hx. exists [(files s, x)]. by repeat constructor. Qed.

Lemma apply_other x p f : ~ touches x p -> apply_act x f !! p = f !! p.
Proof.
  destruct x as [q|q c|q t|q|a b| | |]; cbn; intros H; try done.
  1-3: apply lookup_insert_ne; by intros ->.
  - apply lookup_delete_ne. by intros ->.
  - destruct (f !! a) eqn:E; [|done]. rewrite lookup_insert_ne by (intros ->; naive_solver). apply lookup_delete_ne. intros ->. naive_solver.
Qed.
Lemma chain_other p f l f' : chain f l f' -> Forall (fun '(_, x) => ~ touches x p) l -> f' !! p = f !! p.
Proof.
  revert f. induction l as [|[h x] l IH]; intros f; cbn; [by intros ->|]. intros [-> Hc] Hf. inversion Hf; subst.
  rewrite (IH _ Hc) by done. by apply apply_other.
Qed.
(** What [Q] keeps true is true at every moment. *)
Lemma chain_always (I : store -> Prop) f l f' : I f -> chain f l f' -> Forall (fun '(h, x) => I h -> I (apply_act x h)) l ->
  Forall (fun '(h, _) => I h) l /\ I f'.
Proof.
  revert f. induction l as [|[h x] l IH]; intros f Hf; cbn; [intros ->; by split|]. intros [-> Hc] Hl. inversion Hl; subst.
  destruct (IH _ ltac:(auto) Hc) as [? ?]; [done|]. split; [by constructor|done].
Qed.

(** ** The files that matter *)
Definition tmp_path (g : OTAConfig) : string := config_file g +:+ ".tmp".
Definition bak_path (g : OTAConfig) : string := config_file g +:+ ".bak".
Definition crucial (g : OTAConfig) : list string :=
  [config_file g; tmp_path g; image_path g IFS_A; image_path g IFS_B; pending_path g; version_file g; kRebootWitnessPath; new_config_path].
Definition apart (g : OTAConfig) : Prop :=
  NoDup (crucial g) /\ version_file g = boot_path g +:+ "/ota_version" /\
  bak_path g ∉ crucial g /\ "/tmp/ota_config" ∉ crucial g /\ "/tmp/ota_config.bak" ∉ crucial g /\ "/tmp/mounts" ∉ crucial g.

(** A text for the client's configuration that moves none of them. *)
Definition harmless_line (g : OTAConfig) (line : string) : Prop :=
  match cut "="%char line with
  | None => True
  | Some (k, v) =>
      (trimmed k = "BOOT_PATH" -> trimmed v = boot_path g) /\ (trimmed k = "CONFIG_FILE" -> trimmed v = config_file g) /\
      (trimmed k = "LOG_FILE" -> trimmed v ∉ crucial g)
  end.
Definition harmless (g : OTAConfig) (text : string) : Prop := Forall (harmless_line g) (lines text).

(** The configuration that is in use, when it started as [g]. *)
Record fits_in (g h : OTAConfig) : Prop := {
  fits_boot : boot_path h = boot_path g;
  fits_version : version_file h = version_file g;
  fits_config : config_file h = config_file g;
  fits_log : log_file h ∉ crucial g;
  fits_own : ota_config_path h ∉ crucial g;
  fits_own_bak : ota_config_path h +:+ ".bak" ∉ crucial g
}.

Definition still (g : OTAConfig) (_ : store) (x : act) : Prop := forall p, touches x p -> p ∉ crucial g.
Lemma still_same g s s' p : p ∈ crucial g -> went (still g) s s' -> files s' !! p = files s !! p.
Proof.
  intros Hp (l & _ & C & F). apply (chain_other _ _ _ _ C). eapply Forall_impl; [done|]. intros [f x] Hx Ht. by apply (Hx p).
Qed.

Create HintDb untouched.

Section quiet.
Context `{World} `{Crypto} (g : OTAConfig).

(** Code that touches none of them and stays with a fitting configuration. *)
Definition quiet {A} (m : io A) : Prop :=
  forall s a s', fits_in g (conf s) -> m s = (a, s') -> went (still g) s s' /\ fits_in g (conf s').

Lemma quiet_ret {A} (a : A) : quiet (mret a).
Proof. intros s b s' Hs [= <- <-]. split; [by apply went_refl|done]. Qed.
Lemma quiet_bind {A B} (m : io A) (k : A -> io B) : quiet m -> (forall a, quiet (k a)) -> quiet (x ← m; k x).
Proof.
  intros Hm Hk s b s' Hs. unfold mbind, io_bind. destruct (m s) as [a s1] eqn:E. intros E'.
  destruct (Hm _ _ _ Hs E) as [W1 F1]. destruct (Hk _ _ _ _ F1 E') as [W2 F2]. split; [by eapply went_trans|done].
Qed.
Lemma quiet_conf {B} (k : OTAConfig -> io B) : (forall h, fits_in g h -> quiet (k h)) -> quiet (h ← get conf; k h).
Proof. intros Hk s b s' Hs E. by apply (Hk (conf s) Hs s b). Qed.
Lemma quiet_get {A} (f : client -> A) : quiet (get f).
Proof. intros s b s' Hs [= <- <-]. split; [by apply went_refl|done]. Qed.
Lemma quiet_ask {A} (q : nat -> A) : quiet (ask q).
Proof. intros s b s' Hs [= <- <-]. split; [by apply went_refl|done]. Qed.
Lemma quiet_act x : (forall p, touches x p -> p ∉ crucial g) -> quiet (act_ x).
Proof. intros Hx s b s' Hs [= <- <-]. split; [by apply (went_act (still g))|done]. Qed.
Lemma quiet_set h : fits_in g h -> quiet (set_conf h).
Proof. intros Hh s b s' Hs [= <- <-]. split; [by apply went_refl|done]. Qed.
#[local] Hint Resolve quiet_ret quiet_get quiet_ask : untouched.

Ltac qstep :=
  match goal with
  | |- quiet (x ← get conf; _) => apply quiet_conf; intros ? ?
  | |- quiet (_ ← (_ ← _; _); _) => apply quiet_bind; [|intros ?]
  | |- quiet (_ ← _; _) => apply quiet_bind; [|intros ?]
  | |- quiet (if ?b then _ else _) => destruct b
  | |- quiet (match ?x with _ => _ end) => destruct x
  | |- quiet (act_ _) => apply quiet_act; cbn; intros ? ->; try assumption
  | |- _ => solve [auto with untouched]
  end.
Ltac quietly := repeat qstep.

Lemma quiet_log m : quiet (log_msg m).
Proof. unfold log_msg. quietly. by apply fits_log. Qed.
Lemma quiet_read p : quiet (open_read p).
Proof. unfold open_read. quietly. Qed.
Lemma quiet_write p : p ∉ crucial g -> quiet (open_write p).
Proof. intros Hp. unfold open_write. quietly. Qed.
Lemma quiet_put p c : p ∉ crucial g -> quiet (write_file p c).
Proof. intros Hp. unfold write_file. apply quiet_bind; [by apply quiet_write|]. intros r. quietly. Qed.
Lemma quiet_sync p : quiet (fsync_path p).
Proof. unfold fsync_path. quietly. Qed.
#[local] Hint Resolve quiet_log quiet_read quiet_sync : untouched.
Lemma quiet_exists p : quiet (file_exists p).
Proof. unfold file_exists. quietly. Qed.
Lemma quiet_size p : quiet (get_file_size p).
Proof. unfold get_file_size. quietly. Qed.
Lemma quiet_content p : quiet (read_file_content p).
Proof. unfold read_file_content. quietly. Qed.
Lemma quiet_sleep n : quiet (mysleep n).
Proof. apply quiet_act. by intros p []. Qed.
Lemma quiet_system c : quiet (system c).
Proof. unfold system. apply quiet_bind; [|intros; apply quiet_ask]. apply quiet_act. by intros p []. Qed.
#[local] Hint Resolve quiet_exists quiet_size quiet_content quiet_sleep quiet_system : untouched.

Lemma quiet_version : quiet get_version.
Proof. unfold get_version. quietly. Qed.
Lemma quiet_active : quiet get_active_ifs.
Proof. unfold get_active_ifs. quietly. Qed.
Lemma quiet_reboot : quiet request_reboot.
Proof. unfold request_reboot. quietly. Qed.
Lemma quiet_http_ok r u : quiet (curl_http_ok r u).
Proof. unfold curl_http_ok. quietly. Qed.
Lemma quiet_curl_ok r u : quiet (curl_ok r u).
Proof. unfold curl_ok. pose proof quiet_http_ok. quietly. Qed.
#[local] Hint Resolve quiet_version quiet_active quiet_reboot quiet_curl_ok : untouched.
Lemma quiet_curl u : quiet (curl_get u).
Proof. unfold curl_get. quietly. Qed.
Lemma quiet_digest p : quiet (compute_sha256 p).
Proof. unfold compute_sha256. quietly. Qed.
#[local] Hint Resolve quiet_curl quiet_digest : untouched.
Lemma quiet_sha p u : quiet (verify_sha256 p u).
Proof. unfold verify_sha256. quietly. Qed.
Lemma quiet_ifs p : quiet (verify_ifs p).
Proof. unfold verify_ifs. quietly. Qed.
Lemma quiet_uptime : quiet uptime_sec_now.
Proof. unfold uptime_sec_now. quietly. Qed.
Lemma quiet_pending : quiet read_pending.
Proof. unfold read_pending. quietly. Qed.
#[local] Hint Resolve quiet_sha quiet_ifs quiet_uptime quiet_pending : untouched.
Lemma quiet_rebooted p : quiet (system_rebooted_since p).
Proof. unfold system_rebooted_since. quietly. Qed.
Lemma quiet_server : quiet get_server_version.
Proof. unfold get_server_version. quietly. Qed.
Lemma quiet_space n : quiet (check_boot_space n).
Proof. unfold check_boot_space. quietly. Qed.
Lemma quiet_nap : quiet nap.
Proof. unfold nap. quietly. Qed.
Lemma quiet_backup : apart g -> quiet backup_config.
Proof.
  intros (_ & _ & Hb & _). unfold backup_config. apply quiet_conf. intros h Hh. pose proof (fits_config _ _ Hh) as Ec.
  unfold bak_path in Hb. rewrite <- Ec in Hb. apply quiet_bind; [apply quiet_read|]. intros src.
  apply quiet_bind; [by apply quiet_write|]. intros dst. quietly.
Qed.

(** ** The client's own configuration *)
Lemma fits_own_only h p : fits_in g h -> p ∉ crucial g -> p +:+ ".bak" ∉ crucial g ->
  fits_in g (Config (server_url h) (check_interval h) (enabled h) (boot_path h) (version_file h) (config_file h) (log_file h) p).
Proof. intros [] Hp Hb. by constructor. Qed.
Lemma quiet_path p : p ∉ crucial g -> p +:+ ".bak" ∉ crucial g -> quiet (set_config_path p).
Proof. intros Hp Hb. unfold set_config_path. apply quiet_conf. intros h Hh. by apply quiet_set, fits_own_only. Qed.

Lemma quiet_line line : apart g -> harmless_line g line -> quiet (config_line line).
Proof.
  intros (_ & Hv & _) Hl. unfold harmless_line in Hl. unfold config_line. destruct (cut _ line) as [[k v]|]; [|apply quiet_ret].
  destruct Hl as (Hb & Hc & Hf). cbv zeta. apply quiet_conf. intros h Hh.
  destruct Hh as [H1 H2 H3 H4 H5 H6]. repeat case_decide; quietly; apply quiet_set; constructor; cbn; auto.
  rewrite Hv. by rewrite Hb.
Qed.
Lemma quiet_lines l : apart g -> Forall (harmless_line g) l -> quiet (config_lines l).
Proof.
  intros Ha. induction 1 as [|x l Hx _ IH]; cbn [config_lines]; [apply quiet_ret|].
  apply quiet_bind; [|done]. destruct (skipped x); [apply quiet_ret|by apply quiet_line].
Qed.
(** Reading a configuration file, when what it holds is harmless. *)
Lemma read_config_still p s a s' : apart g -> (forall text, files s !! p = Some text -> harmless g text) ->
  fits_in g (conf s) -> read_config p s = (a, s') -> went (still g) s s' /\ fits_in g (conf s').
Proof.
  intros Ha Hp Hs. unfold read_config, mbind, io_bind. destruct (open_read p s) as [file s1] eqn:E.
  destruct (quiet_read p _ _ _ Hs E) as [W1 F1].
  assert (forall text, file = Some text -> files s !! p = Some text) as Hr.
  { revert E. unfold open_read, mbind, io_bind, ask, get, mret, io_ret. cbn. destruct (w_read _ p); by intros [= <- _]. }
  destruct file as [text|].
  - intros E'. assert (quiet (config_lines (lines text);; mret true)) as Hq.
    { apply quiet_bind; [|intros; apply quiet_ret]. by apply quiet_lines, Hp, Hr. }
    destruct (Hq _ _ _ F1 E') as [W2 F2]. split; [by eapply went_trans|done].
  - intros E'. assert (quiet (log_msg ("Config file not found, using defaults: " +:+ p);; mret true)) as Hq by quietly.
    destruct (Hq _ _ _ F1 E') as [W2 F2]. split; [by eapply went_trans|done].
Qed.
End quiet.
#[export] Hint Resolve quiet_ret quiet_get quiet_ask quiet_log quiet_read quiet_sync quiet_exists quiet_size quiet_content quiet_sleep
  quiet_system quiet_version quiet_active quiet_reboot quiet_curl_ok quiet_curl quiet_digest quiet_sha quiet_ifs quiet_uptime
  quiet_pending quiet_rebooted quiet_server quiet_space quiet_nap quiet_backup : untouched.
Ltac qstep :=
  match goal with
  | |- quiet _ (x ← get conf; _) => apply quiet_conf; intros ? ?
  | |- quiet _ (_ ← _; _) => apply quiet_bind; [|intros ?]
  | |- quiet _ (if ?b then _ else _) => destruct b
  | |- quiet _ (match ?x with _ => _ end) => destruct x
  | |- quiet _ (act_ _) => apply quiet_act; cbn; intros ? ->; try assumption
  | |- _ => solve [auto with untouched]
  end.
Ltac quietly := repeat qstep.
