(* ===== verification/OtaSafe.v ===== *)
(** * The update client is safe at every moment (theorems on Ota.v)

    An invariant of the files that holds between any two acts of the client,
    so also when it is killed or the power fails between them: config.txt
    names an image that can boot, and no record of a pending update can be
    taken for one that the system has booted. *)
From S2P Require Import Prelude Gpio Ota OtaText OtaStep.
From stdpp Require Import gmap.
Open Scope Z_scope.

Definition active_of (g : OTAConfig) (f : store) : option string := text ← f !! config_file g; kernel_of text.
Definition an_ifs (n : string) : Prop := n = IFS_A \/ n = IFS_B.

(** config.txt names one of the two images, and the image is a good one. *)
Definition bootable (g : OTAConfig) (OK : string -> Prop) (f : store) : Prop :=
  exists name c, active_of g f = Some name /\ an_ifs name /\ f !! image_path g name = Some c /\ OK c.

(** A pending record with a witness bit, and no witness: the system runs what
    config.txt names, if that is the image of the record. *)
Definition evident (g : OTAConfig) (running : string) (f : store) : Prop :=
  forall text, f !! pending_path g = Some text -> let p := parse_pending text in
  p_valid p = true -> witness_ok p = true -> f !! kRebootWitnessPath = None -> active_of g f = Some (expected_ifs p) -> running = expected_ifs p.

(** The record names an image, or the front of one if it was cut short. *)
Definition front_of_ifs (n : string) : Prop := exists y, an_ifs (n +:+ y).
Definition named (g : OTAConfig) (f : store) : Prop :=
  forall text, f !! pending_path g = Some text -> p_valid (parse_pending text) = true -> front_of_ifs (expected_ifs (parse_pending text)).

(** No file that matters has the name of a cut image. *)
Definition fronts_apart (g : OTAConfig) : Prop := forall n, front_of_ifs n -> image_path g n ∈ crucial g -> an_ifs n.

(** What the code relies on: the new config.txt is written and synced whole
    and moved into place, files can be removed, the witness can be opened if
    it is there; the server sends digests of good images only and a
    configuration that leaves the paths alone; curl takes no URL with a line
    break. *)
Record sound `{World} `{Crypto} (g : OTAConfig) (OK : string -> Prop) : Prop := {
  tmp_whole n k : w_write n (tmp_path g) <> Some (Some k);
  tmp_synced n : w_sync n (tmp_path g) = true;
  moves n : w_rename n = true;
  removes n : w_remove n = true;
  witness_opens n : w_read n kRebootWitnessPath = true;
  new_config_whole n k : w_write n new_config_path <> Some (Some k);
  server_harmless n u : looks_like_ota_config (body (w_http n u)) = true -> harmless g (body (w_http n u));
  vouched n u c : http_ok (w_http n u) = true -> hex (sha256 c) = sidecar_digest (body (w_http n u)) -> MIN_IFS_SIZE <= Z.of_nat (String.length c) -> OK c;
  url_checked n u : http_ok (w_http n u) = true -> no_nl u
}.

Section safe.
Context `{World} `{Crypto} (g : OTAConfig) (OK : string -> Prop) (running : string).

Definition inv (f : store) : Prop := bootable g OK f /\ evident g running f /\ named g f.

(** The version is written from the record of an update that config.txt
    names, and with a witness bit only if the system runs that update. *)
Definition commits (f : store) (x : act) : Prop := exists text, f !! pending_path g = Some text /\ let p := parse_pending text in
  p_valid p = true /\ active_of g f = Some (expected_ifs p) /\ (witness_ok p = true -> running = expected_ifs p) /\
  (forall c, x = Fill (version_file g) c -> exists room, c = fits room (version p +:+ nl)).
Definition spares_active (f : store) (x : act) : Prop := forall name, active_of g f = Some name -> ~ touches x (image_path g name).

(** What an act may be. *)
Definition step (f : store) (x : act) : Prop :=
  inv f -> inv (apply_act x f) /\ spares_active f x /\ (touches x (version_file g) -> commits f x).

(** ** The invariant and the files it is about *)
Definition core : list string := [config_file g; image_path g IFS_A; image_path g IFS_B; pending_path g; kRebootWitnessPath].

Lemma image_inj a b : image_path g a = image_path g b -> a = b.
Proof. unfold image_path. intros E. by apply (inj (String.append _)), (inj (String.append _)) in E. Qed.
Lemma image_core n : an_ifs n -> image_path g n ∈ core.
Proof. unfold core. intros [-> | ->]; set_solver. Qed.
Lemma core_crucial p : p ∈ core -> p ∈ crucial g.
Proof. unfold core, crucial. set_solver. Qed.

Lemma active_same f f' : f' !! config_file g = f !! config_file g -> active_of g f' = active_of g f.
Proof. unfold active_of. by intros ->. Qed.
Lemma inv_same f f' : (forall p, p ∈ core -> f' !! p = f !! p) -> inv f -> inv f'.
Proof.
  intros Hs ((name & c & Ea & Hn & Ei & Hc) & He & Hm).
  assert (active_of g f' = active_of g f) as E by (apply active_same, Hs; unfold core; set_solver).
  assert (f' !! pending_path g = f !! pending_path g) as Ep by (apply Hs; unfold core; set_solver).
  assert (f' !! kRebootWitnessPath = f !! kRebootWitnessPath) as Ew by (apply Hs; unfold core; set_solver).
  split_and!.
  - exists name, c. rewrite E. split_and!; try done. rewrite Hs; [done|by apply image_core].
  - intros text. rewrite Ep, E, Ew. apply He.
  - intros text. rewrite Ep. apply Hm.
Qed.

(** Acts on other files than those of the invariant and the version. *)
Lemma plain_step f x : (forall p, touches x p -> p ∉ core) -> ~ touches x (version_file g) -> step f x.
Proof.
  intros Hx Hv Hi. split_and!; [|intros name En Ht|done].
  - eapply inv_same; [|done]. intros p Hp. apply apply_other. intros Ht. by apply (Hx p).
  - destruct Hi as ((n & c & E & Hn & _) & _). assert (name = n) as -> by congruence. apply (Hx _ Ht). by apply image_core.
Qed.
Lemma still_step f x : still g f x -> step f x.
Proof.
  intros Hx. apply plain_step.
  - intros p Hp Hc. by apply (Hx p Hp), core_crucial.
  - intros Ht. apply (Hx _ Ht). unfold crucial. set_solver.
Qed.

(** ** Triples *)
Definition ready (s : client) : Prop := fits_in g (conf s) /\ inv (files s).
Definition triple {A} (P : store -> Prop) (m : io A) (R : A -> store -> Prop) : Prop :=
  forall s a s', ready s -> P (files s) -> m s = (a, s') -> went step s s' /\ ready s' /\ R a (files s').

(** A predicate that only looks at files that matter, apart from [l]. *)
Definition stable (l : list string) (P : store -> Prop) : Prop :=
  forall f f', (forall p, p ∈ crucial g -> p ∉ l -> f' !! p = f !! p) -> P f -> P f'.

Lemma went_inv s s' : went step s s' -> inv (files s) -> inv (files s').
Proof.
  intros (l & _ & C & F) Hi. apply (chain_always inv _ _ _ Hi C). eapply Forall_impl; [exact F|].
  intros [f x] Hx Hi'. by apply Hx.
Qed.
Lemma triple_ret {A} (P : store -> Prop) (a : A) (R : A -> store -> Prop) : (forall f, P f -> R a f) -> triple P (mret a) R.
Proof. intros HP s b s' Hs Hp [= <- <-]. split_and!; [by apply went_refl|done|auto]. Qed.
Lemma triple_bind {A B} P (m : io A) (k : A -> io B) R T : triple P m R -> (forall a, triple (R a) (k a) T) -> triple P (x ← m; k x) T.
Proof.
  intros Hm Hk s b s' Hs Hp. unfold mbind, io_bind. destruct (m s) as [a s1] eqn:E. intros E'.
  destruct (Hm _ _ _ Hs Hp E) as (W1 & S1 & R1). destruct (Hk _ _ _ _ S1 R1 E') as (W2 & S2 & R2).
  split_and!; [by eapply went_trans|done|done].
Qed.
Lemma triple_conseq {A} (P P' : store -> Prop) (m : io A) (R R' : A -> store -> Prop) :
  triple P m R -> (forall f, P' f -> P f) -> (forall a f, R a f -> R' a f) -> triple P' m R'.
Proof. intros Hm HP HR s a s' Hs Hp E. destruct (Hm s a s' Hs (HP _ Hp) E) as (W & S1 & R1). split_and!; auto. Qed.
Lemma triple_conf {B} P (k : OTAConfig -> io B) T : (forall h, fits_in g h -> triple P (k h) T) -> triple P (h ← get conf; k h) T.
Proof. intros Hk s b s' Hs Hp E. by apply (Hk (conf s) ltac:(apply Hs) s b). Qed.
Lemma triple_quiet {A} P (m : io A) : quiet g m -> stable [] P -> triple P m (fun _ f => P f).
Proof.
  intros Hm HP s a s' [Hs Hi] Hp E. destruct (Hm _ _ _ Hs E) as [W F].
  assert (went step s s') as W' by (eapply went_mono; [|exact W]; intros; by apply still_step).
  split_and!; [done|split; [done|by eapply went_inv]|]. eapply HP; [|exact Hp]. intros p Hc _. by apply (still_same g).
Qed.
Lemma triple_quiet_bind {A B} P (m : io A) (k : A -> io B) T : quiet g m -> stable [] P -> (forall a, triple P (k a) T) -> triple P (x ← m; k x) T.
Proof. intros Hm HP Hk. eapply triple_bind; [by apply triple_quiet|done]. Qed.
Lemma triple_act P x (R : () -> store -> Prop) : (forall f, inv f -> P f -> step f x /\ R () (apply_act x f)) -> triple P (act_ x) R.
Proof.
  intros Hx s a s' [Hs Hi] Hp [= <- <-]. destruct (Hx _ Hi Hp) as [Hst HR]. split_and!; [by apply (went_act step)| |done].
  split; [done|]. by apply Hst.
Qed.
Lemma triple_and {A} (P P' : store -> Prop) (m : io A) R R' : triple P m R -> triple P' m R' -> triple (fun f => P f /\ P' f) m (fun a f => R a f /\ R' a f).
Proof.
  intros Hm Hm' s a s' Hs [Hp Hp'] E. destruct (Hm _ _ _ Hs Hp E) as (W & S1 & R1). destruct (Hm' _ _ _ Hs Hp' E) as (_ & _ & R2).
  by split_and!.
Qed.
Lemma triple_if {A} P (b : bool) (m n : io A) R : (b = true -> triple P m R) -> (b = false -> triple P n R) -> triple P (if b then m else n) R.
Proof. destruct b; auto. Qed.
(** What a quiet function returns, where it does not change a file that matters. *)
Lemma triple_says {A} P (m : io A) (R : A -> store -> Prop) : quiet g m -> stable [] P -> (forall a, stable [] (R a)) ->
  (forall s a s', fits_in g (conf s) -> P (files s) -> m s = (a, s') -> R a (files s)) -> triple P m (fun a f => P f /\ R a f).
Proof.
  intros Hm HP HR Hsay s a s' Hs Hp E. destruct (triple_quiet P m Hm HP s a s' Hs Hp E) as (W & S1 & Hp').
  split_and!; [done|done|done|]. eapply HR; [|by eapply Hsay, E; [apply Hs|]]. intros p Hc _.
  destruct (Hm _ _ _ (proj1 Hs) E) as [W' _]. by apply (still_same g).
Qed.
End safe.
