(* ===== verification/OtaKeep.v ===== *)
(** * Every function of the update client keeps its files safe (theorems on Ota.v)

    Triples for the functions that touch the images, config.txt, the pending
    record or the version, and for the loop around them. *)
From S2P Require Import Prelude Gpio Ota OtaText OtaStep OtaSafe.
From stdpp Require Import gmap.
Open Scope Z_scope.

Section keep.
Context `{World} `{Crypto} (g : OTAConfig) (OK : string -> Prop) (running : string).
Context (Ha : apart g) (Hf : fronts_apart g) (Hw : sound g OK).
Notation inv := (inv g OK running).
Notation step := (step g OK running).
Notation triple := (triple g OK running).
Notation stable := (stable g).

Ltac different := destruct Ha as [Hd _]; unfold crucial in Hd; rewrite !NoDup_cons, !not_elem_of_cons in Hd; destruct_and!.

Lemma pending_fits h : fits_in g h -> pending_path h = pending_path g.
Proof. intros []. unfold pending_path. by rewrite fits_boot. Qed.
Lemma image_fits h n : fits_in g h -> image_path h n = image_path g n.
Proof. intros []. unfold image_path. by rewrite fits_boot. Qed.

Lemma stable_weaken l P : stable l P -> stable [] P.
Proof. intros HP f f' E. apply HP. intros p Hc _. apply E; [done|]. by apply not_elem_of_nil. Qed.
Lemma stable_and l P R : stable l P -> stable l R -> stable l (fun f => P f /\ R f).
Proof. intros HP HR f f' E [? ?]. split; [by eapply HP|by eapply HR]. Qed.
Lemma stable_const l (P : Prop) : stable l (fun _ => P).
Proof. intros f f' E. done. Qed.
Lemma stable_lookup l p v : p ∈ crucial g -> p ∉ l -> stable l (fun f => f !! p = v).
Proof. intros Hp Hl f f' E <-. by apply E. Qed.
Lemma stable_active l a : config_file g ∉ l -> stable l (fun f => active_of g f = a).
Proof. intros Hl f f' E <-. apply active_same, E; [unfold crucial; set_solver|done]. Qed.

(** ** Steps *)
Lemma books_step f x : (forall p, touches x p -> p = pending_path g \/ p = kRebootWitnessPath) ->
  (inv f -> evident g running (apply_act x f) /\ named g (apply_act x f)) -> step f x.
Proof.
  intros Hx He Hi. different. assert (forall p, p <> pending_path g -> p <> kRebootWitnessPath -> apply_act x f !! p = f !! p) as Hs.
  { intros p Hp Hq. apply apply_other. intros Ht. by destruct (Hx p Ht). }
  destruct (He Hi) as [He' Hn']. destruct Hi as ((n & c & En & Hn & Ec & Hc) & _ & _).
  assert (image_path g n <> pending_path g /\ image_path g n <> kRebootWitnessPath) as [? ?] by (destruct Hn as [-> | ->]; split; congruence).
  split_and!; try done.
  - split; [|done]. exists n, c. rewrite (active_same g f) by (apply Hs; congruence). by rewrite Hs.
  - intros name En' Ht. assert (name = n) as -> by congruence. by destruct (Hx _ Ht).
  - intros Ht. destruct (Hx _ Ht); congruence.
Qed.

Lemma image_step f x n : front_of_ifs n -> (forall p, touches x p -> p = image_path g n) -> (forall a, active_of g f = Some a -> a <> n) -> step f x.
Proof.
  intros Hn Hx Hna. destruct (decide (image_path g n ∈ crucial g)) as [Hc|Hc].
  - assert (an_ifs n) as Hi by by apply Hf. different.
    assert (forall p, p <> image_path g n -> apply_act x f !! p = f !! p) as Hs.
    { intros p Hp. apply apply_other. intros Ht. by apply Hp, Hx. }
    assert (config_file g <> image_path g n /\ pending_path g <> image_path g n /\ kRebootWitnessPath <> image_path g n /\ version_file g <> image_path g n) as (? & ? & ? & ?).
    { destruct Hi as [-> | ->]; split_and!; congruence. }
    intros ((m & c & Em & Hm & Ec & Hk) & He & Hna').
    assert (active_of g (apply_act x f) = active_of g f) as Ea by (by apply active_same, Hs).
    split; [split; [|split]|split].
    + exists m, c. rewrite Ea. split_and!; try done. rewrite Hs; [done|]. intros E. apply image_inj in E. by apply (Hna m).
    + intros text. rewrite !Hs, Ea by done. apply He.
    + intros text. rewrite Hs by done. apply Hna'.
    + intros name E Ht. apply Hx, image_inj in Ht. by apply (Hna name).
    + intros Ht. apply Hx in Ht. congruence.
  - assert (still g f x) as Hs by (intros p Ht; by rewrite (Hx p Ht)). exact (still_step _ _ _ _ _ Hs).
Qed.

(** ** Reading *)
Lemma open_read_is p s : open_read p s = (if w_read (tick s) p then files s !! p else None, Client (conf s) (files s) (S (tick s)) (done_ s)).
Proof. unfold open_read, mbind, io_bind, ask, get, mret, io_ret. cbn. by destruct (w_read _ p). Qed.
Ltac logged := unfold mbind, io_bind; destruct (log_msg _ _); intros [= <- _].
Lemma says_read P p : stable [] P -> p ∈ crucial g -> triple P (open_read p) (fun a f => P f /\ (forall c, a = Some c -> f !! p = Some c)).
Proof.
  intros HP Hp. apply triple_says; [apply quiet_read|done| |].
  - intros a f f' E Hr c Hc. rewrite E; [by apply Hr|done|by apply not_elem_of_nil].
  - intros s a s' _ _. rewrite open_read_is. intros [= <- _] c. by destruct (w_read _ p).
Qed.
Lemma says_active P : stable [] P -> triple P get_active_ifs (fun a f => P f /\ (forall n, a = Some n -> active_of g f = Some n)).
Proof.
  intros HP. apply triple_says; [apply quiet_active|done| |].
  - intros a f f' E Hr n Hn. rewrite <- (Hr n Hn). apply active_same, E; [unfold crucial; set_solver|by apply not_elem_of_nil].
  - intros s a s' Hs _. unfold get_active_ifs, mbind at 1, io_bind at 1, get. unfold mbind at 1, io_bind at 1.
    rewrite open_read_is, (fits_config _ _ Hs). unfold active_of. destruct (w_read _ _); [|by logged].
    destruct (files s !! config_file g) as [text|]; [|by logged]. cbn. destruct (kernel_of text); [by intros [= <- _]|by logged].
Qed.
Lemma says_pending P : stable [] P -> triple P read_pending (fun p f => P f /\ (p_valid p = true -> exists text, f !! pending_path g = Some text /\ p = parse_pending text)).
Proof.
  intros HP. apply triple_says; [apply quiet_pending|done| |].
  - intros a f f' E Hr Hv. rewrite E; [by apply Hr|unfold crucial; set_solver|by apply not_elem_of_nil].
  - intros s a s' Hs _. unfold read_pending, mbind at 1, io_bind at 1, get. unfold mbind at 1, io_bind at 1.
    rewrite open_read_is, (pending_fits _ Hs). cbn. destruct (w_read _ _); [|by intros [= <- _]].
    destruct (files s !! pending_path g) as [text|]; intros [= <- _]; [naive_solver|done].
Qed.
Lemma says_curl P u : stable [] P -> triple P (curl_get u) (fun r f => P f /\ (forall text, r = Some text -> exists n v, http_ok (w_http n v) = true /\ text = body (w_http n v))).
Proof.
  intros HP. apply triple_says; [apply quiet_curl|done|by intros; apply stable_const|].
  intros s a s' Hs _. unfold curl_get. unfold mbind at 1, io_bind at 1, ask. unfold http_ok, curl_ok, curl_http_ok.
  destruct (handle (w_http (tick s) u)) eqn:Eh; cbn [negb]; [|by logged].
  unfold mbind, io_bind. destruct (curl_res _ =? 0) eqn:Er.
  - destruct ((200 <=? _) && _) eqn:Ec; [|by destruct (log_msg _ _); intros [= <- _]]. cbn. intros [= <- _] text [= <-].
    exists (tick s), u. by rewrite Eh, Er, <- andb_assoc, Ec.
  - cbn. destruct (log_msg _ _). by intros [= <- _].
Qed.
Lemma says_digest P p : stable [] P -> p ∈ crucial g -> triple P (compute_sha256 p) (fun a f => P f /\ (a <> "" -> exists c, f !! p = Some c /\ a = hex (sha256 c))).
Proof.
  intros HP Hp. apply triple_says; [apply quiet_digest|done| |].
  - intros a f f' E Hr Hn. rewrite E; [by apply Hr|done|by apply not_elem_of_nil].
  - intros s a s' _ _. unfold compute_sha256. unfold mbind at 1, io_bind at 1. rewrite open_read_is.
    destruct (w_read _ p); [|by intros [= <- _]]. destruct (files s !! p) as [c|]; [|by intros [= <- _]].
    unfold mbind, io_bind, ask, mret, io_ret. cbn. destruct (w_digest _); intros [= <- _]; [|done]. intros _. by exists c.
Qed.

(** ** Writing *)
Lemma triple_remove P p R : (forall f, inv f -> P f -> is_Some (f !! p) -> step f (Remove p) /\ R true (delete p f)) ->
  (forall f, P f -> f !! p = None -> R false f) -> triple P (remove_file p) R.
Proof.
  intros Hy Hn s a s' [Hs Hi] Hp. unfold remove_file, mbind, io_bind, ask, get. cbn. rewrite (removes g OK Hw).
  destruct (files s !! p) as [c|] eqn:E; cbn; intros [= <- <-].
  - destruct (Hy _ Hi Hp) as [Hst HR]; [by rewrite E|]. split_and!; [by apply (went_act step)|split; [done|by apply Hst]|done].
  - split_and!; [by apply went_refl|done|by apply Hn].
Qed.
Lemma triple_open P p R : (forall f n room, w_write n p = Some room -> inv f -> P f -> step f (Create p) /\ R (Some room) (<[p := ""]> f)) ->
  (forall f, P f -> R None f) -> triple P (open_write p) R.
Proof.
  intros Hy Hn s a s' [Hs Hi] Hp. unfold open_write, mbind, io_bind, ask. cbn. destruct (w_write (tick s) p) as [room|] eqn:E.
  - intros [= <- <-]. destruct (Hy _ _ _ E Hi Hp) as [Hst HR]. split_and!; [by apply (went_act step)|split; [done|by apply Hst]|done].
  - intros [= <- <-]. split_and!; [by apply went_refl|done|by apply Hn].
Qed.
Lemma triple_write P p c R : (forall f n room, w_write n p = Some room -> inv f -> P f ->
    step f (Create p) /\ (inv (<[p := ""]> f) -> step (<[p := ""]> f) (Fill p (fits room c)) /\ R true (<[p := fits room c]> (<[p := ""]> f)))) ->
  (forall f, P f -> R false f) -> triple P (write_file p c) R.
Proof.
  intros Hy Hn. unfold write_file. eapply (triple_bind g OK running _ _ _ (fun r f => match r with
    | Some room => exists f0 n, w_write n p = Some room /\ f = <[p := ""]> f0 /\ inv f0 /\ P f0 | None => P f end)).
  - apply triple_open; [|done]. intros f n room E Hi Hp. split; [by apply (Hy f n room E Hi Hp)|]. by exists f, n.
  - intros [room|]; [|apply triple_ret, Hn]. eapply triple_bind; [|intros; apply triple_ret; exact (fun f => id)].
    apply (triple_act g OK running _ _ (fun _ f => R true f)). intros f Hi (f0 & n & E & -> & Hi0 & Hp). by apply (Hy f0 n room E Hi0 Hp).
Qed.
Lemma triple_log P m : stable [] P -> triple P (log_msg m) (fun _ f => P f).
Proof. intros HP. apply triple_quiet; [apply quiet_log|done]. Qed.

(** ** The pending record *)
Lemma evident_none f : f !! pending_path g = None -> evident g running f /\ named g f.
Proof. intros E. split; intros text; by rewrite E. Qed.
Lemma pending_crucial : pending_path g ∈ crucial g /\ kRebootWitnessPath ∈ crucial g /\ config_file g ∈ crucial g.
Proof. unfold crucial. set_solver. Qed.

Lemma triple_clear P : stable [pending_path g; kRebootWitnessPath] P -> triple P clear_pending (fun _ f => P f /\ f !! pending_path g = None).
Proof.
  intros HP. different. unfold clear_pending. apply triple_conf. intros h Hh. rewrite (pending_fits _ Hh).
  assert (forall p f, p = pending_path g \/ p = kRebootWitnessPath -> P f -> P (delete p f)) as Hdel.
  { intros p f Hp. apply HP. intros q _ Hq. apply lookup_delete_ne. intros ->. set_solver. }
  eapply triple_bind; [|intros; eapply triple_bind; [|intros; apply triple_ret; exact (fun f => id)]].
  - eapply (triple_remove P _ (fun _ f => P f /\ f !! pending_path g = None)); [|done]. intros f Hi Hp _.
    split; [|split; [by apply Hdel; [left|]|by apply lookup_delete_eq]]. apply books_step; [cbn; auto|]. intros _.
    apply evident_none, lookup_delete_eq.
  - apply triple_remove; [|done]. intros f Hi [Hp Hn] _.
    assert (delete kRebootWitnessPath f !! pending_path g = None) as E by (rewrite lookup_delete_ne; congruence).
    split; [|split; [by apply Hdel; [right|]|done]]. apply books_step; [cbn; auto|]. intros _. by apply evident_none.
Qed.

(** A witness bit has its witness. *)
Definition witnessed (f : store) : Prop :=
  forall text, f !! pending_path g = Some text -> witness_ok (parse_pending text) = true -> is_Some (f !! kRebootWitnessPath).
Lemma evident_witness f : is_Some (f !! kRebootWitnessPath) -> evident g running f.
Proof. intros [c E] text _ p _ _ En. congruence. Qed.
Lemma evident_witnessed f : witnessed f -> evident g running f.
Proof. intros Hk text Et p _ Hb En. destruct (Hk text Et Hb) as [c E]. congruence. Qed.

Lemma cut_front n v up wall wit room : an_ifs n -> no_nl v ->
  p_valid (parse_pending (fits room (pending_text n v up wall wit))) = true ->
  front_of_ifs (expected_ifs (parse_pending (fits room (pending_text n v up wall wit)))).
Proof.
  intros Hn Hv Hp. assert (word n /\ no_nl n) as [Hwd Hnl].
  { split; [|apply word_no_nl]; destruct Hn as [-> | ->]; repeat constructor. }
  unfold parse_pending in *. cbn [expected_ifs p_valid] in *.
  destruct (lines (fits room _) !! 0%nat) as [x|] eqn:E; [|done]. cbn [default] in *.
  assert (exists y, n = x +:+ y) as [y Ey].
  { destruct room as [k|]; cbn [fits] in E; [apply lines_cut in E as [y E]; exists y|exists ""]; rewrite lines_pending in E by done;
      injection E as E; [done|by rewrite app_empty]. }
  assert (word x) as Hx by (unfold word in *; rewrite Ey, chars_app, Forall_app in Hwd; tauto).
  unfold id. rewrite word_trimmed by done. exists y. by rewrite <- Ey.
Qed.

Lemma triple_write_pending P n v : stable [pending_path g; kRebootWitnessPath] P -> an_ifs n -> no_nl v ->
  triple P (write_pending n v) (fun ok f => P f /\ (ok = true -> witnessed f)).
Proof.
  intros HP Hn Hv. different. unfold write_pending.
  assert (no_nl n) as Hnl by (apply word_no_nl; destruct Hn as [-> | ->]; repeat constructor).
  assert (forall p c f, p = pending_path g \/ p = kRebootWitnessPath -> P f -> P (<[p := c]> f)) as Hins.
  { intros p c f Hp. apply HP. intros q _ Hq. apply lookup_insert_ne. intros ->. set_solver. }
  assert (forall f c, inv f -> evident g running (<[kRebootWitnessPath := c]> f) /\ named g (<[kRebootWitnessPath := c]> f)) as Hwit.
  { intros f c (_ & _ & Hm). split; [by apply evident_witness; rewrite lookup_insert_eq|]. intros text.
    rewrite lookup_insert_ne by congruence. apply Hm. }
  eapply (triple_bind g OK running _ _ _ (fun wit f => P f /\ (wit = true -> is_Some (f !! kRebootWitnessPath)))).
  { apply triple_write; [|done]. intros f k room _ Hi Hp. split; [apply books_step; [cbn; auto|]; intros _; by apply Hwit|].
    intros Hi'. split; [apply books_step; [cbn; auto|]; intros _; by apply Hwit|]. rewrite insert_insert_eq.
    split; [by apply Hins; [right|]|]. by rewrite lookup_insert_eq. }
  intros wit. assert (stable [pending_path g] (fun f => P f /\ (wit = true -> is_Some (f !! kRebootWitnessPath)))) as HS.
  { apply stable_and; [intros f f' E; apply HP; intros p Hp Hl; apply E; [done|set_solver]|].
    intros f f' E Hs Hb. rewrite E; [by apply Hs|apply pending_crucial|set_solver]. }
  assert (forall c f, (P f /\ (wit = true -> is_Some (f !! kRebootWitnessPath))) -> P (<[pending_path g := c]> f) /\ (wit = true -> is_Some (<[pending_path g := c]> f !! kRebootWitnessPath))) as Hkeep.
  { intros c f. apply HS. intros q _ Hq. apply lookup_insert_ne. intros <-. set_solver. }
  eapply (triple_quiet_bind g OK running); [destruct wit; auto with untouched|by eapply stable_weaken|]. intros _. apply triple_conf. intros h Hh.
  cbv zeta. rewrite (pending_fits _ Hh).
  eapply (triple_bind g OK running _ _ _ (fun _ f => P f /\ (wit = true -> is_Some (f !! kRebootWitnessPath)))).
  { apply triple_open; [|done]. intros f k room _ Hi Hp. split; [|by apply Hkeep]. apply books_step; [cbn; auto|].
    intros _. split; intros text; cbn [apply_act]; rewrite lookup_insert_eq; by intros [= <-]. }
  intros [room|]; [|eapply triple_quiet_bind; [auto with untouched|by eapply stable_weaken|]; intros _; apply triple_ret; intuition discriminate].
  do 2 (eapply triple_quiet_bind; [auto with untouched|by eapply stable_weaken|]; intros ?).
  eapply (triple_bind g OK running _ _ _ (fun _ f => P f /\ witnessed f)).
  { apply triple_act. intros f Hi Hp. assert (witnessed (<[pending_path g := fits room (pending_text n v a a0 wit)]> f)) as Hk.
    { intros text. rewrite lookup_insert_eq. intros [= <-] Hb. destruct wit; [by apply Hkeep|]. by rewrite cut_pending_witness in Hb. }
    split; [|split; [by apply Hkeep|done]]. apply books_step; [cbn; auto|]. intros _. split; [by apply evident_witnessed|].
    intros text. cbn [apply_act]. rewrite lookup_insert_eq. intros [= <-]. by apply cut_front. }
  intros _. assert (stable [] (fun f => P f /\ witnessed f)) as HK.
  { apply stable_and; [by eapply stable_weaken|]. intros f f' E Hk text. rewrite !E by (apply pending_crucial || by apply not_elem_of_nil). apply Hk. }
  eapply triple_quiet_bind; [auto with untouched|done|]. intros ok. eapply triple_quiet_bind; [destruct ok; auto with untouched|done|].
  intros _. apply triple_ret. naive_solver.
Qed.

(** ** The images *)
Ltac notin := rewrite ?not_elem_of_cons; repeat split; try congruence; apply not_elem_of_nil.
Ltac quiet_next P := eapply (triple_quiet_bind g OK running P); [auto with untouched|try done|intros ?].

(** Something else than the image [n] is active. *)
Definition inactive (n : string) (f : store) : Prop := exists a, active_of g f = Some a /\ a <> n.
Lemma stable_inactive l n : config_file g ∉ l -> stable l (inactive n).
Proof. intros Hl f f' E (a & Ea & Hn). exists a. split; [|done]. by eapply (stable_active l (Some a) Hl). Qed.
Lemma inactive_step f x n : front_of_ifs n -> (forall p, touches x p -> p = image_path g n) -> inactive n f -> step f x.
Proof. intros Hn Hx (a & Ea & Hna). eapply image_step; [done|done|]. intros b Eb. congruence. Qed.
Lemma inactive_image c n f : front_of_ifs n -> inactive n f -> image_path g n <> config_file g -> inactive n (<[image_path g n := c]> f).
Proof. intros Hn (a & Ea & Hna) Hc. exists a. split; [|done]. rewrite <- Ea. apply active_same. by apply lookup_insert_ne. Qed.
Lemma front_config n : front_of_ifs n -> image_path g n <> config_file g.
Proof.
  intros Hn E. assert (an_ifs n) as Hi by (apply Hf; [done|]; rewrite E; apply pending_crucial). different.
  destruct Hi as [-> | ->]; congruence.
Qed.
Lemma ifs_front n : an_ifs n -> front_of_ifs n.
Proof. intros Hn. exists "". by rewrite app_empty. Qed.
Lemma stable_image_insert l P n c f : stable l P -> image_path g n ∈ l -> P f -> P (<[image_path g n := c]> f).
Proof. intros HP Hl. apply HP. intros p _ Hp. apply lookup_insert_ne. intros <-. by apply Hp. Qed.
Lemma stable_image_delete l P n f : stable l P -> image_path g n ∈ l -> P f -> P (delete (image_path g n) f).
Proof. intros HP Hl. apply HP. intros p _ Hp. apply lookup_delete_ne. intros <-. by apply Hp. Qed.

Lemma triple_drop_image P n : stable [image_path g n] P -> front_of_ifs n -> (forall f, P f -> inactive n f) ->
  triple P (remove_file (image_path g n)) (fun _ f => P f).
Proof.
  intros HP Hn Hi. apply triple_remove; [|done]. intros f _ Hp _. split.
  - apply (inactive_step _ _ n); [done|by intros p ->|by apply Hi].
  - eapply stable_image_delete; [exact HP|set_solver|done].
Qed.

Lemma triple_drop what why p : front_of_ifs (expected_ifs p) ->
  triple (inactive (expected_ifs p)) (drop_pending what why p) (fun _ f => f !! pending_path g = None).
Proof.
  intros Hn. pose proof (front_config _ Hn) as Hc. unfold drop_pending. apply triple_conf. intros h Hh. cbv zeta. rewrite (image_fits _ _ Hh).
  assert (forall l, config_file g ∉ l -> stable l (inactive (expected_ifs p))) as Hst by (intros; by apply stable_inactive).
  different. quiet_next (inactive (expected_ifs p)); [by apply Hst, not_elem_of_nil|].
  eapply (triple_bind g OK running _ _ _ (fun _ f => inactive (expected_ifs p) f)).
  { apply triple_if; intros _; [|by apply triple_ret]. quiet_next (inactive (expected_ifs p)); [by apply Hst, not_elem_of_nil|].
    eapply triple_bind; [|intros; apply triple_ret; exact (fun f => id)].
    apply (triple_drop_image (inactive (expected_ifs p))); [apply Hst; notin|done|done]. }
  intros _. eapply triple_bind; [apply triple_clear, Hst; notin|]. intros [].
  eapply triple_conseq; [apply (triple_log (fun f => f !! pending_path g = None))| |].
  - apply stable_lookup; [apply pending_crucial|apply not_elem_of_nil].
  - by intros f [_ ?].
  - done.
Qed.

Lemma triple_abort why n : an_ifs n -> triple (inactive n) (abort_before_switch why (image_path g n)) (fun _ _ => True).
Proof.
  intros Hn. pose proof (front_config _ (ifs_front _ Hn)). different. unfold abort_before_switch.
  assert (forall l, config_file g ∉ l -> stable l (inactive n)) as Hst by (intros; by apply stable_inactive).
  quiet_next (inactive n); [by apply Hst, not_elem_of_nil|].
  eapply triple_bind; [apply (triple_drop_image (inactive n)); [apply Hst; notin|by apply ifs_front|done]|]. intros ?. cbv beta.
  eapply triple_bind; [apply triple_clear, Hst; notin|]. intros []. by apply triple_ret.
Qed.

Lemma curl_ok_http r u s ok s' : handle r = true -> curl_ok r u s = (ok, s') -> ok = http_ok r.
Proof.
  intros Eh. unfold curl_ok, curl_http_ok, http_ok. rewrite Eh. destruct (curl_res r =? 0); cbn; [|by intros [= <- _]].
  destruct ((200 <=? _) && _); [by intros [= <- _]|]. by logged.
Qed.
Lemma triple_curl_ok P r u : stable [] P -> handle r = true -> triple P (curl_ok r u) (fun ok f => P f /\ ok = http_ok r).
Proof.
  intros HP Eh. apply triple_says; [apply quiet_curl_ok|done|by intros; apply stable_const|].
  intros s a s' _ _. by apply curl_ok_http.
Qed.

Lemma triple_refuse P m (X : store -> Prop) : stable [] P -> triple P (log_msg m;; mret false) (fun ok f => P f /\ (ok = true -> X f)).
Proof. intros HP. quiet_next P. by apply triple_ret. Qed.

Lemma triple_download P url n : stable [image_path g n] P -> an_ifs n -> (forall f, P f -> inactive n f) ->
  triple P (download_file url (image_path g n)) (fun ok f => P f /\ (ok = true -> no_nl url)).
Proof.
  intros HP Hn Hi. pose proof (ifs_front _ Hn) as Hfr. assert (stable [] P) as HP' by by eapply stable_weaken.
  assert (forall x f, (forall p, touches x p -> p = image_path g n) -> P f -> step f x) as Hst by (intros; by eapply inactive_step; [| |apply Hi]).
  unfold download_file. quiet_next P.
  eapply (triple_bind g OK running _ _ _ (fun r f => P f /\ exists k, r = w_http k url)).
  { apply triple_says; [apply quiet_ask|done|by intros; apply stable_const|]. intros s r s' _ _ [= <- _]. by exists (tick s). }
  intros r. apply triple_if; [intros _; eapply triple_conseq; [by apply (triple_refuse P _ (fun _ => no_nl url))|naive_solver|done]|].
  intros Eh. apply negb_false_iff in Eh. eapply (triple_bind g OK running _ _ _ (fun _ f => P f /\ exists k, r = w_http k url)).
  { apply triple_open; [|done]. intros f k room _ _ [Hp Hr]. split; [apply Hst; [by intros p ->|done]|]. split; [|done].
    eapply stable_image_insert; [exact HP|set_solver|done]. }
  intros [room|]; [|eapply triple_conseq; [by apply (triple_refuse P _ (fun _ => no_nl url))|naive_solver|done]].
  eapply triple_bind; [apply triple_curl_ok; [apply stable_and; [done|apply stable_const]|done]|]. intros ok.
  set (P1 := fun f => P f /\ (ok = true -> no_nl url)).
  eapply (triple_bind g OK running _ _ _ (fun _ => P1)).
  { apply triple_act. intros f _ [[Hp [k ->]] Ho]. split; [apply Hst; [by intros p ->|done]|]. cbn [apply_act]. split.
    - eapply stable_image_insert; [exact HP|set_solver|done].
    - intros ->. by apply (url_checked g OK Hw k). }
  intros _. assert (stable [] P1) as HP1 by (apply stable_and; [done|apply stable_const]). quiet_next P1.
  apply triple_if; intros Eo; [|quiet_next P1; apply triple_ret; intros f [Hp Hu]; split; [done|]; intros _; apply Hu; by destruct ok].
  quiet_next P1; [by destruct (curl_res r =? 0); auto with untouched|].
  eapply triple_bind; [|intros; apply (triple_ret g OK running P); naive_solver].
  eapply triple_conseq; [by apply (triple_drop_image P n)|by intros f [? _]|done].
Qed.

(** ** Checking *)
Definition vouched_for (c : string) : Prop := exists n u, http_ok (w_http n u) = true /\ hex (sha256 c) = sidecar_digest (body (w_http n u)).
Lemma stable_content l p (X : string -> Prop) : p ∈ crucial g -> p ∉ l -> stable l (fun f => exists c, f !! p = Some c /\ X c).
Proof. intros Hp Hl f f' E (c & Ec & Hc). exists c. by rewrite E. Qed.
Lemma image_crucial n : an_ifs n -> image_path g n ∈ crucial g.
Proof. intros Hn. unfold crucial. destruct Hn as [-> | ->]; set_solver. Qed.

Lemma triple_sha P p u : stable [] P -> p ∈ crucial g ->
  triple P (verify_sha256 p u) (fun ok f => P f /\ (ok = true -> exists c, f !! p = Some c /\ vouched_for c)).
Proof.
  intros HP Hp. unfold verify_sha256. quiet_next P. eapply triple_bind; [by apply says_curl|].
  intros [text|]; [|eapply triple_conseq; [by apply (triple_refuse P)|by intros f []|exact (fun _ _ X => X)]].
  cbv zeta. set (P1 := fun f => P f /\ exists n v, http_ok (w_http n v) = true /\ text = body (w_http n v)).
  assert (stable [] P1) as HP1 by (apply stable_and; [done|apply stable_const]).
  assert (forall m X, triple P1 (log_msg m;; mret false) (fun ok f => P f /\ (ok = true -> X f))) as Hno.
  { intros m X. eapply triple_conseq; [by apply (triple_refuse P1)|done|]. intros ok f [[? _] ?]. done. }
  eapply (triple_conseq g OK running P1); [|intros f [? Hr]; split; [done|by apply Hr]|exact (fun _ _ X => X)].
  apply triple_if; intros _; [apply Hno|]. eapply triple_bind; [by apply says_digest|]. intros dg.
  case_decide as Ea; [eapply triple_conseq; [apply Hno|by intros f []|exact (fun _ _ X => X)]|].
  case_decide as Er; [|eapply triple_conseq; [apply Hno|by intros f []|exact (fun _ _ X => X)]].
  set (P2 := fun f => P1 f /\ (dg <> "" -> exists c, f !! p = Some c /\ dg = hex (sha256 c))).
  assert (stable [] P2) as HP2.
  { apply stable_and; [done|]. intros f f' E Hc. by rewrite E by (done || by apply not_elem_of_nil). }
  quiet_next P2. apply triple_ret. intros f [[Hp0 (n & v & Hn & ->)] Hc]. split; [done|]. intros _.
  destruct (Hc Ea) as (c & Ec & Eh). exists c. split; [done|]. exists n, v. split; [done|]. by rewrite <- Eh.
Qed.
Lemma triple_size P p : stable [] P -> p ∈ crucial g ->
  triple P (verify_ifs p) (fun ok f => P f /\ (ok = true -> exists c, f !! p = Some c /\ MIN_IFS_SIZE <= Z.of_nat (String.length c))).
Proof.
  intros HP Hp. unfold verify_ifs. quiet_next P. apply triple_if; intros _; [by apply (triple_refuse P)|].
  set (R := fun (n : Z) (f : store) => 0 < n -> exists c, f !! p = Some c /\ n = Z.of_nat (String.length c)).
  assert (forall n, stable [] (fun f => P f /\ R n f)) as HR.
  { intros n. apply stable_and; [done|]. intros f f' E Hc. unfold R. by rewrite E by (done || by apply not_elem_of_nil). }
  eapply (triple_bind g OK running _ _ _ (fun n f => P f /\ R n f)).
  { apply triple_says; [apply quiet_size|done| |].
    - intros n f f' E Hc. unfold R. by rewrite E by (done || by apply not_elem_of_nil).
    - intros s n s' _ _. unfold get_file_size, mbind at 1, io_bind at 1. rewrite open_read_is. intros [= <- _]. unfold R.
      destruct (w_read _ p); [|lia]. destruct (files s !! p) as [c|]; [|lia]. intros _. by exists c. }
  intros n. apply triple_if; intros En; zbool.
  - eapply triple_conseq; [by apply (triple_refuse P)|by intros f []|exact (fun _ _ X => X)].
  - quiet_next (fun f => P f /\ R n f). apply triple_ret. intros f [Hp0 Hr]. split; [done|]. intros _. unfold MIN_IFS_SIZE in *.
    destruct (Hr ltac:(lia)) as (c & Ec & ->). by exists c.
Qed.

(** ** The switch *)
Lemma ifs_names n : an_ifs n -> ifs_name n.
Proof. intros [-> | ->]; apply (bool_decide_unpack _); by vm_compute. Qed.
Lemma rename_step f n text c : an_ifs n -> f !! image_path g n = Some c -> OK c -> witnessed f -> f !! tmp_path g = Some (with_kernel n text) ->
  step f (Rename (tmp_path g) (config_file g)).
Proof.
  intros Hn Hc Hk Hwit Ht ((m & d & Em & Hm & _) & _ & Hnamed). pose proof (ifs_names _ Hn) as Hin. different.
  assert (forall p, p <> tmp_path g -> p <> config_file g -> apply_act (Rename (tmp_path g) (config_file g)) f !! p = f !! p) as Hs.
  { intros p H1p H2p. apply apply_other. cbn. tauto. }
  assert (image_path g n <> tmp_path g /\ image_path g n <> config_file g) as [? ?] by (destruct Hn as [-> | ->]; split; congruence).
  assert (image_path g m <> tmp_path g /\ image_path g m <> config_file g) as [? ?] by (destruct Hm as [-> | ->]; split; congruence).
  assert (active_of g (apply_act (Rename (tmp_path g) (config_file g)) f) = Some n) as Ea.
  { unfold active_of. cbn [apply_act]. rewrite Ht, lookup_insert_eq. cbn. by apply kernel_of_with. }
  split; [split; [|split]|split].
  - exists n, c. rewrite Ea, Hs by done. done.
  - apply evident_witnessed. intros tx. rewrite !Hs by congruence. apply Hwit.
  - intros tx. rewrite Hs by congruence. apply Hnamed.
  - intros a E. assert (a = m) as -> by congruence. cbn. tauto.
  - cbn. intuition congruence.
Qed.
Lemma triple_rename P n text : an_ifs n -> (forall f, P f -> (exists c, f !! image_path g n = Some c /\ OK c) /\ witnessed f /\ f !! tmp_path g = Some (with_kernel n text)) ->
  triple P (rename (tmp_path g) (config_file g)) (fun ok _ => ok = true).
Proof.
  intros Hn HP s a s' [Hs Hi] Hp. destruct (HP _ Hp) as ((c & Ec & Hc) & Hk & Ht).
  assert (step (files s) (Rename (tmp_path g) (config_file g))) as Hst by (by eapply rename_step).
  unfold rename, mbind, io_bind, ask, get. cbn [tick files fst snd]. rewrite (moves g OK Hw), bool_decide_eq_true_2 by (by rewrite Ht).
  intros [= <- <-]. split_and!; [|split; [done|by apply Hst]|done].
  exact (went_act step _ (Client (conf s) (files s) (S (tick s)) (done_ s)) Hst).
Qed.

Lemma plain f x p : (forall q, touches x q -> q = p) -> p ∉ core g -> p <> version_file g -> step f x.
Proof. intros Hx Hp Hv. apply plain_step; [by intros q Hq; rewrite (Hx q Hq)|]. intros Ht. by apply Hv, eq_sym, Hx. Qed.
Lemma triple_whole P p c : stable [p] P -> (forall n k, w_write n p <> Some (Some k)) -> p ∉ core g -> p <> version_file g ->
  triple P (write_file p c) (fun ok f => P f /\ (ok = true -> f !! p = Some c)).
Proof.
  intros HP Hn Hc Hv. apply triple_write; [|done]. intros f n room E _ Hp.
  assert (forall f0 d, P f0 -> P (<[p := d]> f0)) as Hins by (intros f0 d; apply HP; intros q _ Hq; apply lookup_insert_ne; intros <-; set_solver).
  split; [by apply (plain _ _ p); [intros q ->| |]|]. intros _. split; [by apply (plain _ _ p); [intros q ->| |]|].
  split; [by apply Hins, Hins|]. destruct room as [k|]; [by apply Hn in E|]. intros _. apply lookup_insert_eq.
Qed.

Lemma triple_set_active P n : stable [tmp_path g] P -> an_ifs n -> (forall f, P f -> (exists c, f !! image_path g n = Some c /\ OK c) /\ witnessed f) ->
  triple P (set_active_ifs n) (fun ok f => ok = false -> P f).
Proof.
  intros HP Hn Hg. assert (stable [] P) as HP' by by eapply stable_weaken. unfold set_active_ifs. quiet_next P. quiet_next P.
  apply triple_conf. intros h Hh. cbv zeta. rewrite (fits_config _ _ Hh). fold (tmp_path g). quiet_next P.
  assert (tmp_path g ∉ core g /\ tmp_path g <> version_file g /\ tmp_path g ∈ crucial g) as (? & ? & ?).
  { different. unfold core. split_and!; [notin|congruence|unfold crucial; set_solver]. }
  eapply triple_bind; [by apply (triple_whole P); [|apply (tmp_whole g OK Hw)| |]|]. intros ok.
  apply triple_if; intros Eo; [eapply triple_conseq; [by apply (triple_refuse P _ (fun _ => True))|by intros f []|by intros ? f []]|].
  apply negb_false_iff in Eo. subst ok. set (P1 := fun f => P f /\ (true = true -> f !! tmp_path g = Some (with_kernel n a1))).
  assert (stable [] P1) as HP1.
  { apply stable_and; [done|]. intros f f' E Ht _. rewrite E by (done || by apply not_elem_of_nil). by apply Ht. }
  eapply (triple_bind g OK running P1 _ _ (fun b f => P1 f /\ b = true)).
  { apply triple_says; [apply quiet_sync|done|by intros; apply stable_const|]. intros s b s' _ [_ Ht].
    unfold fsync_path, mbind, io_bind, ask, get, mret, io_ret. cbn. rewrite Ht, (tmp_synced g OK Hw) by done. by intros [= <- _]. }
  intros b. apply triple_if; intros Eb; [intros s ? ? _ [_ ->]; done|].
  eapply triple_bind; [apply (triple_rename _ n a1 Hn)|].
  - intros f [[Hp Ht] _]. destruct (Hg f Hp). split_and!; auto.
  - intros moved. apply triple_if; intros Em; [intros s ? ? _ ->; done|]. by apply triple_ret.
Qed.

Lemma triple_switch n v : an_ifs n -> no_nl v ->
  triple (fun f => inactive n f /\ exists c, f !! image_path g n = Some c /\ OK c) (switch_to n v) (fun _ _ => True).
Proof.
  intros Hn Hv. pose proof (image_crucial _ Hn) as Hic. set (P := fun f => inactive n f /\ exists c, f !! image_path g n = Some c /\ OK c).
  assert (forall l, config_file g ∉ l -> image_path g n ∉ l -> stable l P) as HP.
  { intros l Hl1 Hl2. apply stable_and; [by apply stable_inactive|by apply stable_content]. }
  assert (config_file g ∉ [pending_path g; kRebootWitnessPath] /\ image_path g n ∉ [pending_path g; kRebootWitnessPath] /\
    config_file g ∉ [tmp_path g] /\ image_path g n ∉ [tmp_path g] /\ pending_path g ∉ [tmp_path g] /\ kRebootWitnessPath ∉ [tmp_path g]) as (? & ? & ? & ? & ? & ?).
  { different. destruct Hn as [-> | ->]; split_and!; notin. }
  assert (forall f f', (forall p, p ∈ crucial g -> p ∉ [tmp_path g] -> f' !! p = f !! p) -> witnessed f -> witnessed f') as HK.
  { intros f f' E Hk text. rewrite !E by (done || apply pending_crucial). apply Hk. }
  unfold switch_to. apply triple_conf. intros h Hh. cbv zeta. rewrite (image_fits _ _ Hh), (pending_fits _ Hh).
  eapply triple_bind; [by apply (triple_write_pending P); [apply HP| |]|]. intros ok.
  apply triple_if; intros Eo; [eapply triple_conseq; [by apply (triple_abort _ n)|by intros f [[? _] _]|done]|]. apply negb_false_iff in Eo. subst ok.
  eapply (triple_conseq g OK running (fun f => P f /\ witnessed f)); [|naive_solver|done].
  eapply triple_bind; [apply (triple_set_active (fun f => P f /\ witnessed f) n); [|done|by intros f [[]]]|].
  { apply stable_and; [by apply HP|exact HK]. }
  intros ok. apply triple_if; intros Es.
  { apply negb_true_iff in Es. subst ok. eapply triple_conseq; [by apply triple_abort| |done]. intros f Hp. by destruct (Hp eq_refl) as [[] _]. }
  eapply (triple_conseq g OK running (fun _ => True) _ _ (fun _ _ => True)); [|done|done].
  assert (stable [] (fun _ : store => True)) as HT by done.
  do 3 (quiet_next (fun _ : store => True)). quiet_next (fun _ : store => True); [destruct a1; auto with untouched|].
  by apply triple_ret.
Qed.

Lemma other_inactive a : an_ifs (other_ifs a) /\ other_ifs a <> a.
Proof. unfold other_ifs. case_decide as E; subst; (split; [by (left + right)|done]) || (split; [by left|congruence]). Qed.
Lemma triple_apply v : triple (fun _ => True) (try_apply_update v) (fun _ _ => True).
Proof.
  assert (forall l, stable l (fun _ : store => True)) as HT by done.
  unfold try_apply_update. quiet_next (fun _ : store => True).
  apply triple_if; intros _; [eapply triple_conseq; [by apply (triple_refuse (fun _ => True) _ (fun _ => True))|done|done]|].
  eapply triple_bind; [by apply says_active|]. intros [active|].
  2: { eapply triple_conseq; [by apply (triple_refuse (fun _ => True) _ (fun _ => True))|done|done]. }
  apply triple_conf. intros h Hh. cbv zeta. rewrite (image_fits _ _ Hh). destruct (other_inactive active) as [Hn Hne].
  set (n := other_ifs active) in *. set (u := image_url h v).
  assert (forall l, config_file g ∉ l -> stable l (inactive n)) as HI by (intros; by apply stable_inactive).
  assert (stable [] (inactive n)) as HI0 by by apply HI, not_elem_of_nil.
  eapply (triple_conseq g OK running (inactive n) _ _ (fun _ _ => True)); [| |done].
  2: { intros f [_ Ea]. exists active. split; [by apply Ea|done]. }
  do 2 (quiet_next (inactive n)). eapply triple_bind; [apply (triple_download (inactive n) u n); [|done|done]|].
  { apply HI. pose proof (front_config _ (ifs_front _ Hn)). notin. }
  intros ok. apply triple_if; intros Eo.
  { eapply triple_conseq; [by apply (triple_refuse (inactive n) _ (fun _ => True))|by intros f []|done]. }
  apply negb_false_iff in Eo. subst ok. set (P := fun f => inactive n f /\ (true = true -> no_nl u)).
  assert (stable [] P) as HP by (apply stable_and; [done|apply stable_const]).
  pose proof (image_crucial _ Hn) as Hic. eapply triple_bind; [by apply (triple_sha P)|]. intros ok.
  apply triple_if; intros Eo; [eapply triple_conseq; [by apply (triple_abort _ n)|by intros f [[? _] _]|done]|]. apply negb_false_iff in Eo. subst ok.
  set (P1 := fun f => P f /\ (true = true -> exists c, f !! image_path g n = Some c /\ vouched_for c)).
  assert (stable [] P1) as HP1.
  { apply stable_and; [done|]. intros f f' E Hc Ht. destruct (Hc Ht) as (c & Ec & Hv). exists c. rewrite E; [done|done|by apply not_elem_of_nil]. }
  eapply triple_bind; [by apply (triple_size P1)|]. intros ok.
  apply triple_if; intros Eo; [eapply triple_conseq; [by apply (triple_abort _ n)|by intros f [[[? _] _] _]|done]|]. apply negb_false_iff in Eo. subst ok.
  destruct (decide (no_nl v)) as [Hv|Hv].
  - eapply triple_conseq; [by apply triple_switch| |done]. intros f [[[Hi _] Hc] Hz]. split; [done|].
    destruct (Hc eq_refl) as (c & Ec & (k & w & Hk & Hh')). destruct (Hz eq_refl) as (c' & Ec' & Hl). assert (c' = c) as -> by congruence.
    exists c. split; [done|]. by apply (vouched g OK Hw k w).
  - intros s ? s' _ [[[_ Hu] _] _]. exfalso. apply Hv. unfold u, image_url in Hu. specialize (Hu eq_refl).
    apply no_nl_app in Hu as [_ Hu]. apply no_nl_app in Hu as [_ Hu]. by apply no_nl_app in Hu as [Hu _].
Qed.

(** ** After a boot *)
Lemma triple_pre {A} (P P' : store -> Prop) (m : io A) R : triple P' m R -> (forall f, inv f -> P f -> P' f) -> triple P m R.
Proof. intros Hm HP s b s' Hs Hp. apply Hm; [done|]. apply HP; [apply Hs|done]. Qed.

Lemma triple_pure {A} (P : store -> Prop) (Q : Prop) (m : io A) R : (Q -> triple P m R) -> triple (fun f => P f /\ Q) m R.
Proof. intros Hm s b s' Hs [Hp Hq]. by apply Hm. Qed.

(** The record [p] is on the disk, and config.txt names its image. *)
Definition recorded (p : PendingInfo) (f : store) : Prop :=
  (exists text, f !! pending_path g = Some text /\ p = parse_pending text) /\ p_valid p = true /\ active_of g f = Some (expected_ifs p).
Lemma stable_recorded l p : config_file g ∉ l -> pending_path g ∉ l -> stable l (recorded p).
Proof.
  intros Hc Hp f f' E ((text & Et & Ep) & Hv & Ea). split_and!; [exists text; by rewrite E; [|apply pending_crucial|]|done|].
  rewrite <- Ea. apply active_same, E; [apply pending_crucial|done].
Qed.
Lemma says_rebooted P p : stable [] P ->
  triple P (system_rebooted_since p) (fun b f => P f /\ (b = true -> witness_ok p = true -> f !! kRebootWitnessPath = None)).
Proof.
  intros HP. apply triple_says; [apply quiet_rebooted|done| |].
  - intros b f f' E Hb. rewrite E; [done|apply pending_crucial|by apply not_elem_of_nil].
  - intros s b s' _ _. unfold system_rebooted_since. destruct (witness_ok p); [|done].
    unfold file_exists, mbind at 1, io_bind at 1. unfold mbind at 1, io_bind at 1. rewrite open_read_is, (witness_opens g OK Hw). cbn.
    intros [= <- _]. destruct (files s !! kRebootWitnessPath); [done|done].
Qed.

Lemma commit_step f p x : recorded p f -> (witness_ok p = true -> running = expected_ifs p) -> (forall q, touches x q -> q = version_file g) ->
  (forall c, x = Fill (version_file g) c -> exists room, c = fits room (version p +:+ nl)) -> step f x.
Proof.
  intros ((text & Et & Ep) & Hv & Ea) Hr Hx Hc Hi. different. assert (forall q, q <> version_file g -> apply_act x f !! q = f !! q) as Hs.
  { intros q Hq. apply apply_other. intros Ht. by apply Hq, Hx. }
  split; [|split].
  - eapply (inv_same g OK running f); [|done]. intros q Hq. apply Hs. intros ->. unfold core in Hq. set_solver.
  - intros name En Ht. destruct Hi as ((m & c & Em & Hm & _) & _). assert (name = m) as -> by congruence.
    apply Hx in Ht. destruct Hm as [-> | ->]; congruence.
  - intros _. exists text. cbv zeta. by subst p.
Qed.
Lemma triple_commit p : triple (fun f => recorded p f /\ (witness_ok p = true -> running = expected_ifs p)) (write_version (version p))
  (fun _ f => recorded p f).
Proof.
  different. set (P := fun f => recorded p f /\ (witness_ok p = true -> running = expected_ifs p)).
  assert (forall l, config_file g ∉ l -> pending_path g ∉ l -> stable l P) as HP.
  { intros l Hc Hp. apply stable_and; [by apply stable_recorded|apply stable_const]. }
  assert (stable [] P) as HP0 by (apply HP; apply not_elem_of_nil). assert (stable [version_file g] P) as HPv by (apply HP; notin).
  unfold write_version. apply triple_conf. intros h Hh. rewrite (fits_version _ _ Hh).
  eapply (triple_bind g OK running _ _ _ (fun _ => P)).
  { apply triple_write; [|done]. intros f n room _ _ Hp.
    assert (forall f0 d, P f0 -> P (<[version_file g := d]> f0)) as Hins.
    { intros f0 d. apply HPv. intros q _ Hq. apply lookup_insert_ne. intros <-. set_solver. }
    split; [apply (commit_step _ p); [apply Hp|apply Hp|by intros q ->|done]|]. intros _. split; [|by apply Hins, Hins].
    destruct (Hins f "" Hp) as [Hr Hb]. apply (commit_step _ p); [done|done|by intros q ->|]. intros c [= <-]. by exists room. }
  intros ok. apply triple_if; intros _; [|quiet_next P; apply triple_ret; by intros f []].
  quiet_next P. quiet_next P; [match goal with |- quiet _ (if ?b then _ else _) => destruct b end; auto with untouched|].
  apply triple_ret. by intros f [].
Qed.

Lemma recorded_inactive p a f : p_valid p = true -> inv f -> (p_valid p = true -> exists text, f !! pending_path g = Some text /\ p = parse_pending text) ->
  active_of g f = Some a -> a <> expected_ifs p -> inactive (expected_ifs p) f /\ front_of_ifs (expected_ifs p).
Proof.
  intros Hv (_ & _ & Hn) Hp Ea Hne. destruct (Hp Hv) as (text & Et & ->). split; [by exists a|]. by apply Hn.
Qed.
Lemma triple_drop_recorded what why p a : p_valid p = true -> a <> expected_ifs p ->
  triple (fun f => (p_valid p = true -> exists text, f !! pending_path g = Some text /\ p = parse_pending text) /\ active_of g f = Some a)
    (drop_pending what why p) (fun _ _ => True).
Proof.
  intros Hv Hne s b s' Hs [Hp Ea] E. destruct (recorded_inactive p a (files s) Hv ltac:(apply Hs) Hp Ea Hne) as [Hi Hn].
  by destruct (triple_drop what why p Hn s b s' Hs Hi E) as (? & ? & ?).
Qed.

(** Reading the record and config.txt, as settle and the main loop do. *)
Lemma triple_active_pending p : triple (fun f => p_valid p = true -> exists text, f !! pending_path g = Some text /\ p = parse_pending text) get_active_ifs
  (fun a f => (p_valid p = true -> exists text, f !! pending_path g = Some text /\ p = parse_pending text) /\ (forall n, a = Some n -> active_of g f = Some n)).
Proof. apply says_active. intros f f' E Hp Hv. rewrite E; [by apply Hp|apply pending_crucial|by apply not_elem_of_nil]. Qed.
Lemma stable_true l : stable l (fun _ : store => True).
Proof. done. Qed.
Lemma triple_end {A} (P : store -> Prop) (m : io A) : quiet g m -> triple P m (fun _ _ => True).
Proof. intros Hm. eapply triple_conseq; [apply (triple_quiet g OK running (fun _ => True)); [exact Hm|done]|done|done]. Qed.

Lemma triple_settle : triple (fun _ => True) settle_pending_on_boot (fun _ _ => True).
Proof.
  unfold settle_pending_on_boot. eapply triple_bind; [by apply says_pending|]. intros p.
  apply triple_if; intros Ev; [by apply triple_ret|]. apply negb_false_iff in Ev.
  eapply triple_bind; [eapply triple_conseq; [apply (triple_active_pending p)|by intros f []|exact (fun _ _ X => X)]|].
  intros [active|]; [|apply triple_end; quietly]. set (P := fun f => (p_valid p = true -> exists text, f !! pending_path g = Some text /\ p = parse_pending text) /\ active_of g f = Some active).
  eapply (triple_conseq g OK running P _ _ (fun _ _ => True)); [|intros f [Hp Ha']; split; [done|by apply Ha']|done].
  assert (stable [] P) as HP.
  { apply stable_and; [|apply stable_active, not_elem_of_nil]. intros f f' E Hp Hv. rewrite E; [by apply Hp|apply pending_crucial|by apply not_elem_of_nil]. }
  quiet_next P. case_decide as En.
  - subst active. eapply (triple_conseq g OK running (recorded p) _ _ (fun _ _ => True)); [|intros f [Hp Ea]; split_and!; auto|done].
    assert (stable [] (recorded p)) as HR by (apply stable_recorded; apply not_elem_of_nil).
    eapply triple_bind; [by apply (says_rebooted (recorded p) p)|].
    intros b. apply triple_if; intros Eb; [apply triple_end; quietly|]. apply negb_false_iff in Eb. subst b.
    eapply (triple_bind g OK running _ _ _ (fun _ => recorded p)).
    + case_decide; [apply triple_ret; by intros f []|]. eapply triple_pre; [apply triple_commit|]. intros f (_ & He & _) [Hr Hn]. split; [done|].
      intros Hwit. destruct Hr as ((text & Et & Ep) & Hv & Ea). subst p. apply (He text Et Hv Hwit); [by apply Hn|done].
    + intros ok. apply triple_if; intros _; [apply triple_end; quietly|].
      quiet_next (recorded p); [case_decide; auto with untouched|].
      eapply triple_bind; [eapply triple_conseq; [apply (triple_clear (fun _ => True)); done|done|exact (fun _ _ X => X)]|].
      intros ?. apply triple_end. quietly.
  - eapply triple_bind; [by apply triple_drop_recorded|]. intros ?. by apply triple_ret.
Qed.

Lemma triple_blocks : triple (fun _ => True) pending_blocks_update (fun _ _ => True).
Proof.
  unfold pending_blocks_update. eapply triple_bind; [by apply says_pending|]. intros p.
  apply triple_if; intros Ev; [by apply triple_ret|]. apply negb_false_iff in Ev.
  eapply triple_bind; [eapply triple_conseq; [apply (triple_active_pending p)|by intros f []|exact (fun _ _ X => X)]|].
  intros [active|]; [|apply triple_end; quietly]. case_decide as En; [apply triple_end; quietly|].
  eapply triple_bind; [eapply triple_conseq; [by apply (triple_drop_recorded _ _ p active)|intros f [Hp Ha']; split; [done|by apply Ha']|exact (fun _ _ X => X)]|].
  intros ?. by apply triple_ret.
Qed.

(** ** The client's own configuration *)
Lemma quiet_persist p remote local : p ∉ crucial g -> p +:+ ".bak" ∉ crucial g -> quiet g (persist_config p remote local).
Proof.
  intros Hp Hb. destruct Ha as (_ & _ & _ & Ht & _). unfold persist_config. apply quiet_bind; [by apply quiet_write|]. intros dst.
  destruct dst; quietly; by apply quiet_put.
Qed.
Lemma persist_where p remote local s a s' : persist_config p remote local s = (a, s') -> a = p \/ a = "/tmp/ota_config".
Proof.
  unfold persist_config. unfold mbind at 1, io_bind at 1. destruct (open_write p s) as [[room|] s1]; unfold mbind, io_bind.
  - destruct (write_file _ _ _), (act_ _ _). intros [= <- _]. by left.
  - destruct (log_msg _ _), (write_file _ _ _). intros [= <- _]. by right.
Qed.
Lemma triple_read_config p : triple (fun f => forall text, f !! p = Some text -> harmless g text) (read_config p) (fun _ _ => True).
Proof.
  intros s a s' [Hs Hi] Hp E. destruct (read_config_still g p s a s' Ha Hp Hs E) as [W F].
  assert (went step s s') as W' by (eapply went_mono; [|exact W]; intros; by apply still_step).
  split_and!; [done|split; [done|by eapply went_inv]|done].
Qed.
Lemma triple_where P p remote local : stable [] P -> p ∉ crucial g -> p +:+ ".bak" ∉ crucial g ->
  triple P (persist_config p remote local) (fun a f => P f /\ (a = p \/ a = "/tmp/ota_config")).
Proof.
  intros HP Hp Hb. apply triple_says; [by apply quiet_persist|done|by intros; apply stable_const|].
  intros s a s' _ _. apply persist_where.
Qed.
Lemma new_config_apart : new_config_path ∉ core g /\ new_config_path <> version_file g /\ new_config_path ∈ crucial g.
Proof. split_and!; [| |unfold crucial; rewrite !elem_of_cons; tauto]; clear -Ha; different; [unfold core; notin|done]. Qed.
Lemma triple_apply_config remote : triple (fun _ => harmless g remote) (apply_config remote) (fun _ _ => True).
Proof.
  unfold apply_config. apply triple_conf. intros h Hh. set (P0 := fun _ : store => harmless g remote).
  assert (forall l, stable l P0) as HP0 by by intros l f f' E.
  quiet_next P0. case_decide; [by apply triple_ret|]. quiet_next P0. destruct new_config_apart as (? & ? & ?).
  eapply triple_bind; [by apply (triple_whole P0); [|apply (new_config_whole g OK Hw)| |]|]. intros ok.
  apply triple_if; intros Eo; [apply triple_end; auto with untouched|]. apply negb_false_iff in Eo. subst ok.
  set (P := fun f => P0 f /\ (true = true -> f !! new_config_path = Some remote)).
  assert (stable [] P) as HP.
  { apply stable_and; [done|]. intros f f' E Ht. rewrite E by (done || by apply not_elem_of_nil). done. }
  destruct Hh as [_ _ _ Hlog Hown Hbak]. destruct Ha as (_ & _ & _ & Ht & Htb & _).
  quiet_next P. eapply triple_bind; [by apply (triple_where P)|]. intros persist.
  apply triple_pure. intros Hp. assert (persist ∉ crucial g /\ persist +:+ ".bak" ∉ crucial g) as [Hq Hqb] by (destruct Hp as [-> | ->]; done).
  eapply triple_bind; [eapply triple_conseq; [apply (triple_read_config new_config_path)| |exact (fun _ _ X => X)]|].
  - intros f [Hr Ef] text Et. rewrite Ef in Et by done. by injection Et as <-.
  - intros ?. eapply triple_bind; [by apply triple_end, quiet_path|]. intros ?. apply triple_end. quietly.
Qed.
Lemma triple_config : triple (fun _ => True) check_and_update_config (fun _ _ => True).
Proof.
  unfold check_and_update_config. apply triple_conf. intros h Hh. eapply triple_bind; [by apply says_curl|]. intros [remote|]; [|by apply triple_ret].
  destruct (looks_like_ota_config remote) eqn:El; destruct remote as [|c0 r0]; try (by apply triple_ret); cbn [negb];
    [|apply triple_end; auto with untouched].
  eapply triple_conseq; [apply triple_apply_config| |exact (fun _ _ X => X)]. intros f [_ Hr].
  destruct (Hr _ eq_refl) as (n & v & _ & E). rewrite E. apply (server_harmless g OK Hw). by rewrite <- E.
Qed.

(** ** The loop *)
Lemma triple_then {A B} (m : io A) (k : A -> io B) : triple (fun _ => True) m (fun _ _ => True) -> (forall a, triple (fun _ => True) (k a) (fun _ _ => True)) ->
  triple (fun _ => True) (x ← m; k x) (fun _ _ => True).
Proof. intros Hm Hk. eapply triple_bind; [exact Hm|exact Hk]. Qed.
Lemma triple_round : triple (fun _ => True) ota_round (fun _ _ => True).
Proof.
  unfold ota_round. apply triple_then; [apply triple_blocks|]. intros [blocked need].
  apply triple_if; intros _; [apply triple_end; quietly|].
  apply triple_then; [apply triple_config|]. intros ?. apply triple_then; [apply triple_end; quietly|]. intros local.
  apply triple_then; [apply triple_end; quietly|]. intros server. case_decide; [apply triple_end; quietly|].
  apply triple_then; [apply triple_end; quietly|]. intros ?. apply triple_then; [|intros ?; apply triple_end; quietly].
  apply triple_if; intros _; [|by apply triple_ret]. apply triple_then; [apply triple_apply|]. intros ?. by apply triple_ret.
Qed.
Lemma triple_rounds n : triple (fun _ => True) (ota_rounds n) (fun _ _ => True).
Proof. induction n as [|n IH]; cbn [ota_rounds]; [by apply triple_ret|]. by apply triple_then; [apply triple_round|]. Qed.
Lemma triple_loop n : triple (fun _ => True) (ota_loop n) (fun _ _ => True).
Proof.
  unfold ota_loop. apply triple_conf. intros h Hh. do 3 (apply triple_then; [apply triple_end; quietly|]; intros ?).
  apply triple_if; intros _; [apply triple_end; quietly|]. apply triple_then; [apply triple_settle|]. intros ?. apply triple_rounds.
Qed.

(** ** main *)
Lemma quiet_mounted p : quiet g (is_mounted p).
Proof.
  unfold is_mounted. apply quiet_bind; [auto with untouched|]. intros proc. destruct (match proc with Some t => _ | None => _ end); [quietly|].
  quietly. destruct Ha as (_ & _ & _ & _ & _ & Hm). done.
Qed.
Lemma quiet_ensure : quiet g ensure_boot_mounted.
Proof. apply quiet_bind; [apply quiet_act; by intros p []|]. intros ?. quietly. Qed.
Lemma quiet_tries n i : quiet g (mount_tries n i).
Proof.
  revert i. induction n as [|n IH]; intros i; cbn [mount_tries]; [quietly|].
  apply quiet_bind; [quietly|]. intros ?. apply quiet_bind; [apply quiet_ensure|]. intros ?. quietly; apply IH.
Qed.

(** Code that changes neither the configuration nor the file [p]. *)
Definition leaves (p : string) {A} (m : io A) : Prop :=
  forall s a s', conf s = defaults -> m s = (a, s') -> conf s' = defaults /\ files s' !! p = files s !! p.
Lemma leaves_bind p {A B} (m : io A) (k : A -> io B) : leaves p m -> (forall a, leaves p (k a)) -> leaves p (x ← m; k x).
Proof.
  intros Hm Hk s b s' Hs. unfold mbind, io_bind. destruct (m s) as [a s1] eqn:E. intros E'. destruct (Hm _ _ _ Hs E) as [C1 F1].
  destruct (Hk _ _ _ _ C1 E') as [C2 F2]. by rewrite F2, F1.
Qed.
Lemma leaves_ret p {A} (a : A) : leaves p (mret a).
Proof. by intros s b s' Hs [= _ <-]. Qed.
Lemma leaves_ask p {A} (q : nat -> A) : leaves p (ask q).
Proof. by intros s b s' Hs [= _ <-]. Qed.
Lemma leaves_act p x : ~ touches x p -> leaves p (act_ x).
Proof. intros Hx s b s' Hs [= _ <-]. split; [done|]. by apply apply_other. Qed.
Lemma leaves_read p q : leaves p (open_read q).
Proof. intros s b s' Hs. rewrite open_read_is. by intros [= _ <-]. Qed.
Lemma leaves_log p m : p <> log_file defaults -> leaves p (log_msg m).
Proof.
  intros Hp s b s' Hs. unfold log_msg, mbind, io_bind, ask, get. cbn. rewrite Hs. destruct (w_write _ _); intros [= _ <-]; [|done].
  split; [done|]. by apply lookup_insert_ne.
Qed.
Lemma leaves_system p c : leaves p (system c).
Proof. apply leaves_bind; [apply leaves_act; cbn; tauto|]. intros ?. apply leaves_ask. Qed.
Lemma leaves_mounted p q : p <> "/tmp/mounts" -> leaves p (is_mounted q).
Proof.
  intros Hp. unfold is_mounted. apply leaves_bind; [apply leaves_read|]. intros proc. destruct (match proc with Some t => _ | None => _ end); [apply leaves_ret|].
  apply leaves_bind; [apply leaves_system|]. intros ?. apply leaves_bind; [apply leaves_ask|]. intros out.
  apply leaves_bind; [destruct out; [apply leaves_act; cbn; tauto|apply leaves_ret]|]. intros ?. apply leaves_bind; [apply leaves_read|]. intros ?. apply leaves_ret.
Qed.
Lemma leaves_ensure p : leaves p ensure_boot_mounted.
Proof.
  apply leaves_bind; [apply leaves_act; cbn; tauto|]. intros ?. apply leaves_bind; [apply leaves_system|]. intros ?. apply leaves_ret.
Qed.
Lemma leaves_tries p k i : p <> log_file defaults -> leaves p (mount_tries k i).
Proof.
  intros Hp. revert i. induction k as [|k IH]; intros i; cbn [mount_tries]; [apply leaves_ret|].
  apply leaves_bind; [by apply leaves_log|]. intros ?. apply leaves_bind; [apply leaves_ensure|].
  intros ok. destruct ok; [apply leaves_ret|]. apply leaves_bind; [destruct (i <? 5); [apply leaves_act; cbn; tauto|apply leaves_ret]|]. intros ?. apply IH.
Qed.

(** The configuration file that the arguments name: not one of the client's
    other files, and harmless. *)
Definition own_config (argv : list string) (f : store) : Prop := forall p, parse_argv argv "/etc/ota_config" = Some p ->
  p ∉ crucial g /\ p +:+ ".bak" ∉ crucial g /\ p <> log_file defaults /\ p <> "/tmp/mounts" /\ (forall text, f !! p = Some text -> harmless g text).

Lemma main_safe argv n s a s' : fits_in g defaults -> inv (files s) -> own_config argv (files s) -> main argv n s = (a, s') ->
  went step s s' /\ inv (files s').
Proof.
  intros Hd Hi Hown. unfold main. set (s0 := Client defaults (files s) (tick s) (done_ s)).
  change ((set_conf defaults;; ?k) s) with (k s0). assert (ready g OK running s0) as Hr by done.
  assert (went step s s0) as W0 by by apply went_refl. set (T := fun _ : store => True).
  destruct (parse_argv argv "/etc/ota_config") as [p|] eqn:Ep; intros E.
  - destruct (Hown p Ep) as (Hp & Hb & Hl & Hm & Hh). revert E. unfold mbind at 1, io_bind at 1. destruct (is_mounted "/var/boot" s0) as [b1 s1] eqn:E1.
    destruct (triple_end T _ (quiet_mounted "/var/boot") s0 b1 s1 Hr I E1) as (W1 & R1 & _).
    destruct (leaves_mounted p "/var/boot" Hm s0 b1 s1 eq_refl E1) as [C1 F1].
    unfold mbind at 1, io_bind at 1. destruct ((if b1 then mret true else mount_tries 5 1) s1) as [up s2] eqn:E2.
    assert (quiet g (if b1 then mret true else mount_tries 5 1)) as Q2 by (destruct b1; [auto with untouched|apply quiet_tries]).
    destruct (triple_end T _ Q2 s1 up s2 R1 I E2) as (W2 & R2 & _).
    assert (leaves p (if b1 then mret true else mount_tries 5 1)) as L2 by (destruct b1; [apply leaves_ret|by apply leaves_tries]).
    destruct (L2 s1 up s2 C1 E2) as [C2 F2].
    assert (triple (fun f => forall text, f !! p = Some text -> harmless g text) (if negb up then log_msg "Failed to mount /var/boot, exiting";; mret 1
      else set_config_path p;; read_config p;; ota_loop n;; log_msg "OTA Client exiting";; mret 0) (fun _ _ => True)) as Ht.
    { apply triple_if; intros _; [apply triple_end; quietly|].
      eapply (triple_bind g OK running _ _ _ (fun _ f => forall text, f !! p = Some text -> harmless g text)).
      - intros t b t' Ht Hq Et. destruct (triple_end T _ (quiet_path g p Hp Hb) t b t' Ht I Et) as (? & ? & _). injection Et as <- <-. done.
      - intros ?. eapply triple_bind; [apply triple_read_config|]. intros ?. apply triple_then; [apply triple_loop|]. intros ?. apply triple_end. quietly. }
    intros E. destruct (Ht s2 a s' R2) as (W3 & [_ I3] & _); [rewrite F2, F1; exact Hh|exact E|].
    split; [|done]. apply (went_trans _ _ _ _ W0), (went_trans _ _ _ _ W1), (went_trans _ _ _ _ W2), W3.
  - assert (triple T (mounted ← is_mounted "/var/boot"; up ← (if (mounted : bool) then mret true else mount_tries 5 1);
      if negb up then log_msg "Failed to mount /var/boot, exiting";; mret 1 else mret 0) (fun _ _ => True)) as Ht.
    { apply triple_end, quiet_bind; [apply quiet_mounted|]. intros b1. apply quiet_bind; [destruct b1; [auto with untouched|apply quiet_tries]|]. intros ?. quietly. }
    destruct (Ht s0 a s' Hr I E) as (W & [_ I'] & _). split; [apply (went_trans _ _ _ _ W0), W|done].
Qed.
End keep.
