(* ===== verification/OtaBoot.v ===== *)
(** * The machine that the update client updates

    Sessions of the client, cut off at any moment by a kill or a loss of
    power, and boots, in any order; what holds at every moment of them; and
    the parts of the client that decide: versions, the record of a pending
    update, the kernel= line, and whether the system was rebooted. *)
From S2P Require Import Prelude Gpio Ota OtaText OtaStep OtaSafe OtaKeep.
From stdpp Require Import gmap.
Open Scope Z_scope.

(** The files, as a cut write leaves them, and the image that was booted.  A
    write that was reported to the program counts as on the disk, and a
    rename as atomic. *)
Record machine := Machine { disk : store; running : string }.

(** /tmp is in memory. *)
Definition in_tmp (p : string) : Prop := is_Some (after "/tmp/" p).
#[export] Instance in_tmp_dec p : Decision (in_tmp p) := _.
Definition clear_tmp (f : store) : store := filter (fun kv => ~ in_tmp kv.1) f.

(** What a session can leave: the files before an act, or after the last. *)
Definition moment (f : store) (s : client) : Prop := f = files s \/ exists x, (f, x) ∈ done_ s.
Definition started (f : store) : client := Client defaults f 0 [].

Inductive mstep `{Crypto} (OK : string -> Prop) : machine -> machine -> Prop :=
| Session (w : World) argv n m rc s f :
    sound defaults OK -> own_config defaults argv (disk m) -> main argv n (started (disk m)) = (rc, s) -> moment f s ->
    mstep OK m (Machine f (running m))
| Boot m name : active_of defaults (disk m) = Some name -> mstep OK m (Machine (clear_tmp (disk m)) name).

Definition good_start (OK : string -> Prop) (m : machine) : Prop :=
  bootable defaults OK (disk m) /\ disk m !! pending_path defaults = None.

(** ** The default paths *)
Lemma defaults_apart : apart defaults.
Proof. unfold apart. split_and!; try (apply (bool_decide_unpack _); by vm_compute). Qed.

Lemma front_cut x y s : x +:+ y = s -> x = String.substring 0 (String.length x) s.
Proof. intros <-. induction x as [|c x IH]; [by destruct y|]. rewrite cons_app. cbn. by f_equal. Qed.
Lemma length_app_s x y : String.length (x +:+ y) = (String.length x + String.length y)%nat.
Proof. induction x as [|c x IH]; [done|]. rewrite cons_app. cbn. by rewrite IH. Qed.
Lemma defaults_fronts : fronts_apart defaults.
Proof.
  assert (forall s n y, an_ifs s -> n +:+ y = s -> image_path defaults n ∈ crucial defaults -> an_ifs n) as Hs.
  { intros s n y Hs E Hc. pose proof (front_cut _ _ _ E) as En. assert (String.length n <= 14)%nat as Hl.
    { pose proof (f_equal String.length E) as El. rewrite length_app_s in El. destruct Hs as [-> | ->]; cbn in El; lia. }
    set (k := String.length n) in *. clearbody k. subst n. assert (bool_decide (image_path defaults (String.substring 0 k s) ∈ crucial defaults) = true) as Hb by by apply bool_decide_eq_true.
    destruct Hs as [-> | ->]; revert Hb; do 15 (destruct k as [|k]; [vm_compute; (discriminate || (by left) || (by right))|]); lia. }
  intros n [y Hy]. by apply (Hs (n +:+ y) n y).
Qed.
Lemma defaults_fit : fits_in defaults defaults.
Proof. constructor; try done; apply (bool_decide_unpack _); by vm_compute. Qed.

(** ** The invariant of the machine *)
Section machine.
Context `{Crypto} (OK : string -> Prop).
Definition safe (m : machine) : Prop := inv defaults OK (running m) (disk m).

Lemma boot_keeps p f : ~ in_tmp p -> clear_tmp f !! p = f !! p.
Proof.
  intros Hp. unfold clear_tmp. destruct (f !! p) as [c|] eqn:E.
  - by apply map_lookup_filter_Some.
  - apply map_lookup_filter_None. by left.
Qed.
Lemma boot_safe m name : safe m -> active_of defaults (disk m) = Some name -> safe (Machine (clear_tmp (disk m)) name).
Proof.
  intros ((n & c & En & Hn & Ec & Hc) & He & Hm) Ea.
  assert (forall p, p ∈ [config_file defaults; image_path defaults IFS_A; image_path defaults IFS_B; pending_path defaults] -> ~ in_tmp p) as Ht.
  { intros p Hp Hi. rewrite !elem_of_cons in Hp. destruct Hp as [-> |[-> |[-> |[-> |Hp]]]]; [by destruct Hi..|]. by apply not_elem_of_nil in Hp. }
  assert (active_of defaults (clear_tmp (disk m)) = active_of defaults (disk m)) as Eac by (apply active_same, boot_keeps, Ht; set_solver).
  assert (clear_tmp (disk m) !! pending_path defaults = disk m !! pending_path defaults) as Ep by (apply boot_keeps, Ht; set_solver).
  unfold safe, inv. cbn [disk OtaBoot.running]. split_and!.
  - exists n, c. rewrite Eac, boot_keeps; [done|]. apply Ht. destruct Hn as [-> | ->]; set_solver.
  - intros text _. cbv zeta. intros _ _ _. rewrite Eac. congruence.
  - intros text. rewrite Ep. apply Hm.
Qed.

(** A session, act by act. *)
Definition act_safe (run : string) (f : store) (x : act) : Prop :=
  inv defaults OK run f /\ spares_active defaults f x /\ (touches x (version_file defaults) -> commits defaults run f x).
Lemma session_safe `{World} argv n m rc s : sound defaults OK -> own_config defaults argv (disk m) -> safe m ->
  main argv n (started (disk m)) = (rc, s) -> Forall (fun '(f, x) => act_safe (running m) f x) (done_ s) /\ inv defaults OK (running m) (files s).
Proof.
  intros Hw Hown Hs E.
  destruct (main_safe defaults OK (running m) defaults_apart defaults_fronts Hw argv n (started (disk m)) rc s defaults_fit Hs Hown E) as [(l & Ed & C & F) Hi].
  cbn in Ed. subst l. split; [|done].
  destruct (chain_always (inv defaults OK (running m)) _ _ _ Hs C) as [Hall _].
  { eapply Forall_impl; [exact F|]. intros [f x] Hx Hf. by apply Hx. }
  apply Forall_forall. intros [f x] Hin. rewrite Forall_forall in Hall, F. specialize (Hall _ Hin). specialize (F _ Hin). cbn in *.
  destruct (F Hall) as (_ & ? & ?). by split_and!.
Qed.
Lemma mstep_safe m m' : safe m -> mstep OK m m' -> safe m'.
Proof.
  intros Hs Hst. revert Hs. destruct Hst as [w argv n m0 rc s f Hw Hown E Hm|m0 name Ea]; intros Hs; [|by apply boot_safe].
  destruct (session_safe argv n m0 rc s Hw Hown Hs E) as [Hall Hi]. destruct Hm as [-> |[x Hx]]; [done|].
  rewrite Forall_forall in Hall. by destruct (Hall _ Hx).
Qed.
Lemma start_safe m : good_start OK m -> safe m.
Proof. intros [Hb Hp]. split; [done|]. by apply evident_none. Qed.
Lemma reachable_safe m m' : good_start OK m -> rtc (mstep OK) m m' -> safe m'.
Proof. intros Hm Hr. apply start_safe in Hm. induction Hr as [|a b c Hab _ IH]; [done|]. by apply IH, mstep_safe with a. Qed.
End machine.
