(* ===== verification/OtaCycle.v ===== *)
(** * An update from the server to the booted system (theorems on Ota.v)

    What an update comes to when nothing fails: the files after it, and the
    version after the boot that follows. *)
From S2P Require Import Prelude Gpio Ota OtaText OtaStep OtaSafe OtaKeep OtaBoot.
From stdpp Require Import gmap.
Open Scope Z_scope.

(** Nothing fails, and the server has image [img] of version [v]. *)
Record calm `{World} `{Crypto} (g : OTAConfig) (v img : string) : Prop := {
  calm_read n p : w_read n p = true;
  calm_write n p : w_write n p = Some None;
  calm_sync n p : w_sync n p = true;
  calm_move n : w_rename n = true;
  calm_remove n : w_remove n = true;
  calm_digest n : w_digest n = true;
  calm_space n : exists kb, w_free_kb n = Some kb /\ 11264 <= kb;
  calm_image n : http_ok (w_http n (image_url g v)) = true /\ body (w_http n (image_url g v)) = img;
  calm_sidecar n : let r := w_http n (image_url g v +:+ ".sha256") in http_ok r = true /\ sidecar_digest (body r) = hex (sha256 img);
  calm_hash : length (sha256 img) = 32%nat;
  calm_size : MIN_IFS_SIZE <= Z.of_nat (String.length img);
  calm_clock n : (forall t, w_monotonic n = Some t -> int64 t) /\ int64 (w_time n)
}.

(** ** Total correctness, for code that ends as it should *)
Section does.
Context `{World} `{Crypto} (g : OTAConfig).
Definition does {A} (P : client -> Prop) (m : io A) (R : A -> client -> Prop) : Prop :=
  forall s a s', fits_in g (conf s) -> P s -> m s = (a, s') -> fits_in g (conf s') /\ R a s'.

(** Kept by acts on files that do not matter, when the configuration stays. *)
Definition stays (P : client -> Prop) : Prop := forall s s', went (still g) s s' -> conf s' = conf s -> P s -> P s'.

Lemma does_ret {A} (P : client -> Prop) (a : A) (R : A -> client -> Prop) : (forall s, P s -> R a s) -> does P (mret a) R.
Proof. intros HP s b s' Hs Hp [= <- <-]. auto. Qed.
Lemma does_bind {A B} P (m : io A) (k : A -> io B) R T : does P m R -> (forall a, does (R a) (k a) T) -> does P (x ← m; k x) T.
Proof.
  intros Hm Hk s b s' Hs Hp. unfold mbind, io_bind. destruct (m s) as [a s1] eqn:E. intros E'.
  destruct (Hm _ _ _ Hs Hp E) as [F R1]. by apply (Hk a s1 b s').
Qed.
Lemma does_conseq {A} (P P' : client -> Prop) (m : io A) (R R' : A -> client -> Prop) :
  does P m R -> (forall s, P' s -> P s) -> (forall a s, R a s -> R' a s) -> does P' m R'.
Proof. intros Hm HP HR s a s' Hs Hp E. destruct (Hm s a s' Hs (HP _ Hp) E). auto. Qed.
Lemma does_pure {A} (P : client -> Prop) (Q : Prop) (m : io A) (R : A -> client -> Prop) : (Q -> does P m R) -> does (fun s => P s /\ Q) m R.
Proof. intros Hm s a s' Hs [Hp Hq]. by apply Hm. Qed.
Lemma does_get {A B} P (f : client -> A) (k : A -> io B) T : (forall a, does (fun s => P s /\ f s = a) (k a) T) -> does P (x ← get f; k x) T.
Proof. intros Hk s b s' Hs Hp E. by apply (Hk (f s) s b s'). Qed.
Lemma does_act P x (R : () -> client -> Prop) :
  (forall s, P s -> R () (Client (conf s) (apply_act x (files s)) (tick s) (done_ s ++ [(files s, x)]))) -> does P (act_ x) R.
Proof. intros HR s a s' Hs Hp [= <- <-]. split; [done|]. by apply HR. Qed.

(** Quiet code that leaves the configuration alone and returns [v]. *)
Definition same_conf {A} (m : io A) : Prop := forall s a s', m s = (a, s') -> conf s' = conf s.
Lemma does_says {A} P (m : io A) (R : A -> Prop) : quiet g m -> same_conf m -> stays P ->
  (forall s a s', fits_in g (conf s) -> P s -> m s = (a, s') -> R a) -> does P m (fun a s => P s /\ R a).
Proof.
  intros Hm Hc HP HR s a s' Hs Hp E. destruct (Hm s a s' Hs E) as [W F]. split; [done|]. split; [|exact (HR s a s' Hs Hp E)].
  eapply HP; [done| |done]. by eapply Hc.
Qed.
Lemma does_quiet {A} P (m : io A) : quiet g m -> same_conf m -> stays P -> does P m (fun _ => P).
Proof. intros Hm Hc HP. eapply does_conseq; [exact (does_says P m (fun _ => True) Hm Hc HP (fun _ _ _ _ _ _ => I))|done|by intros ? s []]. Qed.
End does.

Create HintDb confs.
Lemma conf_ret {A} (a : A) : same_conf (mret a).
Proof. by intros s b s' [= _ <-]. Qed.
Lemma conf_bind {A B} (m : io A) (k : A -> io B) : same_conf m -> (forall a, same_conf (k a)) -> same_conf (x ← m; k x).
Proof.
  intros Hm Hk s b s'. unfold mbind, io_bind. destruct (m s) as [a s1] eqn:E. intros E'. etrans; [by eapply Hk|by eapply Hm].
Qed.
Lemma conf_get {A} (f : client -> A) : same_conf (get f).
Proof. by intros s b s' [= _ <-]. Qed.
Lemma conf_ask {A} (q : nat -> A) : same_conf (ask q).
Proof. by intros s b s' [= _ <-]. Qed.
Lemma conf_act x : same_conf (act_ x).
Proof. by intros s b s' [= _ <-]. Qed.
#[export] Hint Resolve conf_ret conf_get conf_ask conf_act : confs.
Ltac conf_step :=
  match goal with
  | |- same_conf (_ ← _; _) => apply conf_bind; [|intros ?]
  | |- same_conf (if ?b then _ else _) => destruct b
  | |- same_conf (match ?x with _ => _ end) => destruct x
  | |- _ => solve [auto with confs]
  end.
Ltac confs := repeat conf_step.

Section confs.
Context `{World} `{Crypto}.
Lemma conf_log m : same_conf (log_msg m).
Proof. unfold log_msg. confs. Qed.
Lemma conf_read p : same_conf (open_read p).
Proof. unfold open_read. confs. Qed.
Lemma conf_write p : same_conf (open_write p).
Proof. unfold open_write. confs. Qed.
Lemma conf_sync p : same_conf (fsync_path p).
Proof. unfold fsync_path. confs. Qed.
Lemma conf_remove p : same_conf (remove_file p).
Proof. unfold remove_file. confs. Qed.
#[local] Hint Resolve conf_log conf_read conf_write conf_sync conf_remove : confs.
Lemma conf_put p c : same_conf (write_file p c).
Proof. unfold write_file. confs. Qed.
Lemma conf_exists p : same_conf (file_exists p).
Proof. unfold file_exists. confs. Qed.
Lemma conf_size p : same_conf (get_file_size p).
Proof. unfold get_file_size. confs. Qed.
Lemma conf_content p : same_conf (read_file_content p).
Proof. unfold read_file_content. confs. Qed.
Lemma conf_system c : same_conf (system c).
Proof. unfold system. confs. Qed.
#[local] Hint Resolve conf_put conf_exists conf_size conf_content conf_system : confs.
Lemma conf_active : same_conf get_active_ifs.
Proof. unfold get_active_ifs. confs. Qed.
Lemma conf_version : same_conf get_version.
Proof. unfold get_version. confs. Qed.
Lemma conf_space n : same_conf (check_boot_space n).
Proof. unfold check_boot_space. confs. Qed.
Lemma conf_curl_ok r u : same_conf (curl_ok r u).
Proof. unfold curl_ok, curl_http_ok. confs. Qed.
#[local] Hint Resolve conf_curl_ok : confs.
Lemma conf_curl u : same_conf (curl_get u).
Proof. unfold curl_get. confs. Qed.
Lemma conf_digest p : same_conf (compute_sha256 p).
Proof. unfold compute_sha256. confs. Qed.
Lemma conf_backup : same_conf backup_config.
Proof. unfold backup_config. confs. Qed.
Lemma conf_uptime : same_conf uptime_sec_now.
Proof. unfold uptime_sec_now. confs. Qed.
Lemma conf_pending : same_conf read_pending.
Proof. unfold read_pending. confs. Qed.
Lemma conf_sleep n : same_conf (mysleep n).
Proof. unfold mysleep. confs. Qed.
End confs.
#[export] Hint Resolve conf_log conf_read conf_write conf_sync conf_remove conf_put conf_exists conf_size conf_content conf_system
  conf_active conf_version conf_space conf_curl_ok conf_curl conf_digest conf_backup conf_uptime conf_pending conf_sleep : confs.

(** ** The update *)
Section cycle.
Context `{World} `{Crypto} (g : OTAConfig) (v img text a : string).
Context (Ha : apart g) (Hc : calm g v img) (Hv : word v) (Hv0 : v <> "").
Context (Hk : kernel_of text = Some a).
Notation does := (does g).
Notation stays := (stays g).
Let n := other_ifs a.

Ltac different := destruct Ha as [Hd _]; unfold crucial in Hd; rewrite !NoDup_cons, !not_elem_of_cons in Hd; destruct_and!.

(** The files that matter are as [want] says. *)
Definition holds (want : list (string * option string)) (s : client) : Prop := conf s = g /\ Forall (fun '(p, c) => files s !! p = c) want.
Definition known (want : list (string * option string)) : Prop := Forall (fun '(p, _) => p ∈ crucial g) want.
Lemma stays_holds want : known want -> stays (holds want).
Proof.
  intros Hw s s' W Ec [E F]. split; [congruence|]. unfold known in Hw. rewrite Forall_forall in *. intros [p c] Hp.
  rewrite <- (F _ Hp). apply (still_same g); [|done]. by apply (Hw (p, c)).
Qed.

Lemma does_log P m : stays P -> does P (log_msg m) (fun _ => P).
Proof. intros HP. apply does_quiet; auto with untouched confs. Qed.
Lemma open_calm p s : open_read p s = (files s !! p, Client (conf s) (files s) (S (tick s)) (done_ s)).
Proof. rewrite open_read_is. by rewrite (calm_read g v img Hc). Qed.
Lemma does_read want p c : known want -> (p, c) ∈ want -> does (holds want) (open_read p) (fun r s => holds want s /\ r = c).
Proof.
  intros Hw Hp. apply does_says; [auto with untouched|auto with confs|by apply stays_holds|].
  intros s r s' _ [_ F]. rewrite open_calm. intros [= <- _]. rewrite Forall_forall in F. by apply (F (p, c)).
Qed.
Lemma does_exists want p c : known want -> (p, c) ∈ want -> does (holds want) (file_exists p) (fun b s => holds want s /\ b = bool_decide (is_Some c)).
Proof. intros Hw Hp. unfold file_exists. eapply does_bind; [by apply does_read|]. intros r. apply does_ret. by intros s [? ->]. Qed.
Lemma does_size want p c : known want -> (p, Some c) ∈ want -> does (holds want) (get_file_size p) (fun z s => holds want s /\ z = Z.of_nat (String.length c)).
Proof. intros Hw Hp. unfold get_file_size. eapply does_bind; [by apply does_read|]. intros r. apply does_ret. by intros s [? ->]. Qed.
Lemma does_sync want p c : known want -> (p, Some c) ∈ want -> does (holds want) (fsync_path p) (fun b s => holds want s /\ b = true).
Proof.
  intros Hw Hp. apply does_says; [auto with untouched|auto with confs|by apply stays_holds|]. intros s r s' _ [_ F].
  unfold fsync_path, mbind, io_bind, ask, get, mret, io_ret. cbn. rewrite Forall_forall in F. rewrite (F _ Hp), (calm_sync g v img Hc). by intros [= <- _].
Qed.
Lemma holds_insert (want want' : list (string * option string)) p c (f : store) : Forall (fun '(q, d) => f !! q = d) want ->
  Forall (fun '(q, d) => (q = p /\ d = Some c) \/ (q <> p /\ (q, d) ∈ want)) want' -> Forall (fun '(q, d) => <[p := c]> f !! q = d) want'.
Proof.
  intros Hf Hw. rewrite Forall_forall in *. intros [q d] Hq. destruct (Hw _ Hq) as [[-> ->]|[Hne Hin]]; [apply lookup_insert_eq|].
  rewrite lookup_insert_ne by done. by apply (Hf (q, d)).
Qed.
Lemma holds_delete (want : list (string * option string)) p (f : store) : Forall (fun '(q, d) => f !! q = d) want ->
  Forall (fun '(q, _) => q <> p) want -> Forall (fun '(q, d) => delete p f !! q = d) want.
Proof.
  rewrite !Forall_forall. intros Hf Hn [q d] Hq. rewrite lookup_delete_ne; [by apply (Hf (q, d))|]. intros E. by apply (Hn (q, d)).
Qed.
Lemma does_open want p : does (holds want) (open_write p) (fun r s => exists f, holds want (Client (conf s) f 0 []) /\ files s = <[p := ""]> f /\ r = Some None).
Proof.
  intros s r s' Hs Hp. unfold open_write, mbind, io_bind, ask, act_. cbn. rewrite (calm_write g v img Hc). cbn. intros [= <- <-].
  split; [done|]. by exists (files s).
Qed.
Lemma does_write want want' p c : Forall (fun '(q, d) => (q = p /\ d = Some c) \/ (q <> p /\ (q, d) ∈ want)) want' ->
  does (holds want) (write_file p c) (fun ok s => holds want' s /\ ok = true).
Proof.
  intros Hw. unfold write_file. eapply does_bind; [apply does_open|]. intros [room|].
  - eapply does_bind; [|intros; apply does_ret; exact (fun s H => H)]. apply does_act. intros s (f & [Ec F] & Ef & [= ->]). split; [|done].
    split; [done|]. cbn. rewrite Ef, insert_insert_eq. by eapply holds_insert.
  - intros s r s' _ (f & _ & _ & [=]).
Qed.

(** Quiet functions that return what the server and the files say. *)
Lemma does_space P : stays P -> does P (check_boot_space MIN_IFS_SIZE) (fun ok s => P s /\ ok = true).
Proof.
  intros HP. apply does_says; [auto with untouched|auto with confs|done|]. intros s r s' _ _.
  unfold check_boot_space. unfold mbind at 1, io_bind at 1, ask. destruct (calm_space g v img Hc (tick s)) as (kb & -> & Hkb).
  change (MIN_IFS_SIZE / 1024 + 1024) with 11264. rewrite (proj2 (Z.leb_gt kb 0)) by lia. cbv zeta. rewrite (proj2 (Z.ltb_ge kb 11264)) by lia.
  unfold mbind, io_bind. destruct (log_msg _ _). by intros [= <- _].
Qed.
Lemma does_active want : known want -> (config_file g, Some text) ∈ want -> does (holds want) get_active_ifs (fun r s => holds want s /\ r = Some a).
Proof.
  intros Hw Hp. apply does_says; [auto with untouched|auto with confs|by apply stays_holds|]. intros s r s' _ [Ec F].
  unfold get_active_ifs. unfold mbind at 1, io_bind at 1, get. unfold mbind at 1, io_bind at 1. rewrite open_calm, Ec.
  rewrite Forall_forall in F. rewrite (F _ Hp). cbv beta iota. rewrite Hk. by intros [= <- _].
Qed.
Lemma does_curl P u : stays P -> (forall k, http_ok (w_http k u) = true) -> does P (curl_get u) (fun r s => P s /\ exists k, r = Some (body (w_http k u))).
Proof.
  intros HP Hu. apply (does_says g P (curl_get u) (fun r => exists k, r = Some (body (w_http k u)))); [auto with untouched|auto with confs|done|].
  intros s r s' _ _. unfold curl_get. unfold mbind at 1, io_bind at 1, ask. specialize (Hu (tick s)). unfold http_ok in Hu.
  apply andb_true_iff in Hu as [Hu H3]. apply andb_true_iff in Hu as [Hu H2]. apply andb_true_iff in Hu as [H1 Hr].
  rewrite H1. unfold curl_ok, curl_http_ok. rewrite Hr, H2, H3. cbn. intros [= <- _]. by exists (tick s).
Qed.
Lemma does_digest want p c : known want -> (p, Some c) ∈ want -> does (holds want) (compute_sha256 p) (fun d s => holds want s /\ d = hex (sha256 c)).
Proof.
  intros Hw Hp. apply does_says; [auto with untouched|auto with confs|by apply stays_holds|]. intros s r s' _ [_ F].
  unfold compute_sha256. unfold mbind at 1, io_bind at 1. rewrite open_calm. rewrite Forall_forall in F. rewrite (F _ Hp).
  unfold mbind, io_bind, ask, mret, io_ret. rewrite (calm_digest g v img Hc). by intros [= <- _].
Qed.
Lemma hex_length l : String.length (hex l) = (2 * length l)%nat.
Proof. induction l as [|b l IH]; [done|]. cbn. fold (hex l). rewrite IH. lia. Qed.
Lemma does_sha want p : known want -> (p, Some img) ∈ want ->
  does (holds want) (verify_sha256 p (image_url g v +:+ ".sha256")) (fun ok s => holds want s /\ ok = true).
Proof.
  intros Hw Hp. pose proof (stays_holds _ Hw) as HS. unfold verify_sha256. eapply does_bind; [by apply does_log|]. intros ?.
  eapply does_bind; [apply does_curl; [done|]; intros k; by destruct (calm_sidecar g v img Hc k)|]. intros r.
  destruct r as [t|]; [|intros s r s' _ [_ [k [=]]]].
  assert (sidecar_digest t = hex (sha256 img) \/ sidecar_digest t <> hex (sha256 img)) as [Et|Et] by (destruct (decide (sidecar_digest t = hex (sha256 img))); auto).
  2: { intros s r s' _ [_ [k [= ->]]]. destruct (calm_sidecar g v img Hc k). contradiction. }
  cbv zeta. rewrite Et. rewrite hex_length, (calm_hash g v img Hc). cbn [negb Nat.eqb Nat.mul Nat.add].
  eapply does_bind; [eapply does_conseq; [by apply (does_digest want p img)|by intros s []|exact (fun _ _ X => X)]|]. intros d.
  apply does_pure. intros ->. rewrite decide_False.
  - rewrite decide_True by done. eapply does_bind; [by apply does_log|]. intros ?. by apply does_ret.
  - intros E. pose proof (hex_length (sha256 img)) as El. rewrite E, (calm_hash g v img Hc) in El. done.
Qed.
Lemma does_ifs want p : known want -> (p, Some img) ∈ want -> does (holds want) (verify_ifs p) (fun ok s => holds want s /\ ok = true).
Proof.
  intros Hw Hp. pose proof (stays_holds _ Hw) as HS. unfold verify_ifs. eapply does_bind; [by apply does_exists|]. intros b.
  destruct b; [|intros s r s' _ [_ [=]]]. cbn [negb]. eapply does_bind; [eapply does_conseq; [by apply (does_size want p img)|by intros s []|exact (fun _ _ X => X)]|].
  intros z. assert ((z <? MIN_IFS_SIZE) = true \/ (z <? MIN_IFS_SIZE) = false) as [Ez|Ez] by (destruct (z <? MIN_IFS_SIZE); auto); rewrite Ez.
  - intros s r s' _ [_ ->]. pose proof (calm_size g v img Hc). zbool. lia.
  - eapply does_bind; [eapply does_conseq; [by apply does_log|by intros s []|exact (fun _ _ X => X)]|]. intros ?. apply does_ret. auto.
Qed.

(** ** The files on the way *)
Context (Hia : an_ifs a) (ia ver : option string).

Lemma target_ne : let p := image_path g n in let q := image_path g a in
  (p <> q /\ p <> config_file g /\ p <> version_file g /\ p <> pending_path g /\ p <> kRebootWitnessPath /\ p <> tmp_path g) /\
  (q <> config_file g /\ q <> version_file g /\ q <> pending_path g /\ q <> kRebootWitnessPath /\ q <> tmp_path g) /\
  p ∈ crucial g /\ q ∈ crucial g.
Proof.
  different. cbv zeta. subst n. destruct Hia as [-> | ->]; cbn [other_ifs]; unfold other_ifs;
    [rewrite decide_True by done|rewrite decide_False by done]; repeat split; try congruence; unfold crucial; rewrite !elem_of_cons; tauto.
Qed.
Lemma paths_in : config_file g ∈ crucial g /\ version_file g ∈ crucial g /\ pending_path g ∈ crucial g /\ kRebootWitnessPath ∈ crucial g /\ tmp_path g ∈ crucial g.
Proof. unfold crucial. rewrite !elem_of_cons. tauto. Qed.

Definition rest : list (string * option string) := [(config_file g, Some text); (image_path g a, ia); (version_file g, ver)].
Definition loaded : list (string * option string) := (image_path g n, Some img) :: rest.
Definition books (up wall : Z) : list (string * option string) := (pending_path g, Some (pending_text n v up wall true)) :: loaded.
Definition switched (up wall : Z) : list (string * option string) :=
  [(config_file g, Some (with_kernel n text)); (pending_path g, Some (pending_text n v up wall true)); (image_path g n, Some img); (image_path g a, ia); (version_file g, ver)].

Ltac known := destruct paths_in as (? & ? & ? & ? & ?); pose proof target_ne as Ht; cbv zeta in Ht; destruct Ht as (_ & _ & ? & ?);
  unfold known, switched, books, loaded, rest; repeat (apply Forall_cons; split); try exact (List.Forall_nil _); assumption.
Lemma known_rest : known rest.
Proof. known. Qed.
Lemma known_loaded : known loaded.
Proof. known. Qed.
Lemma known_books up wall : known (books up wall).
Proof. known. Qed.
Lemma known_switched up wall : known (switched up wall).
Proof. known. Qed.
Ltac member := unfold switched, books, loaded, rest; rewrite !elem_of_cons; tauto.
Ltac wants := pose proof target_ne as Ht; cbv zeta in Ht; destruct Ht as ((? & ? & ? & ? & ? & ?) & (? & ? & ? & ? & ?) & _ & _); different;
  unfold switched, books, loaded, rest;
  repeat (apply Forall_cons; split); try exact (List.Forall_nil _); first [left; split; reflexivity | right; split; [congruence|member]].

Lemma does_download : does (holds rest) (download_file (image_url g v) (image_path g n)) (fun ok s => holds loaded s /\ ok = true).
Proof.
  unfold download_file. eapply does_bind; [apply does_log, stays_holds, known_rest|]. intros ?.
  eapply (does_bind g _ _ _ (fun r s => holds rest s /\ exists k, r = w_http k (image_url g v))).
  { apply (does_says g (holds rest) _ (fun r => exists k, r = w_http k (image_url g v))); [auto with untouched|auto with confs|apply stays_holds, known_rest|].
    intros s r s' _ _ [= <- _]. by exists (tick s). }
  intros r. apply does_pure. intros [k ->]. destruct (calm_image g v img Hc k) as [Hh Hb]. set (r := w_http k (image_url g v)) in *.
  assert (handle r = true) as Hhd by (unfold http_ok in Hh; by destruct (handle r)). rewrite Hhd. cbn [negb].
  assert (known [] /\ Forall (fun '(p, _) => p ∈ crucial g) rest) as [_ Hkr] by (split; [constructor|apply known_rest]).
  eapply (does_bind g _ _ _ (fun q s => holds rest s /\ q = Some None)).
  { eapply does_conseq; [apply (does_open rest)|done|]. intros q s (f & [Ec F] & Ef & ->). split; [|done]. split; [exact Ec|]. rewrite Ef.
    eapply holds_insert; [exact F|]. wants. }
  intros room. apply does_pure. intros ->. eapply (does_bind g _ _ _ (fun ok s => holds rest s /\ ok = true)).
  { apply does_says; [auto with untouched|auto with confs|apply stays_holds, known_rest|]. intros s ok s' _ _ E. by rewrite (curl_ok_http _ _ _ _ _ Hhd E). }
  intros ok. apply does_pure. intros ->. eapply (does_bind g _ _ _ (fun _ => holds loaded)).
  { apply does_act. intros s [Ec F]. split; [exact Ec|]. cbn [apply_act files fits]. rewrite Hb. eapply holds_insert; [exact F|]. wants. }
  intros ?. eapply does_bind; [by apply (does_sync loaded _ img); [apply known_loaded|member]|]. intros ?. apply does_pure. intros _. cbn [negb].
  eapply does_bind; [apply does_log, stays_holds, known_loaded|]. intros ?. by apply does_ret.
Qed.

Lemma does_uptime P : stays P -> does P uptime_sec_now (fun z s => P s /\ int64 z).
Proof.
  intros HP. apply does_says; [auto with untouched|auto with confs|done|]. intros s z s' _ _. unfold uptime_sec_now. unfold mbind, io_bind, ask.
  destruct (calm_clock g v img Hc (tick s)) as [Hm _]. destruct (w_monotonic (tick s)) as [t|] eqn:E; intros [= <- _]; [by apply Hm|].
  apply (calm_clock g v img Hc (S (tick s))).
Qed.
Lemma does_time P : stays P -> does P (ask w_time) (fun z s => P s /\ int64 z).
Proof.
  intros HP. apply does_says; [auto with untouched|auto with confs|done|]. intros s z s' _ _ [= <- _]. apply (calm_clock g v img Hc).
Qed.

Lemma does_conf {B} (P : client -> Prop) (k : OTAConfig -> io B) T : (forall s, P s -> conf s = g) -> does P (k g) T -> does P (h ← get conf; k h) T.
Proof. intros HP Hd s b s' Hs Hp. unfold mbind, io_bind, get. rewrite (HP s Hp). by apply Hd. Qed.
Lemma holds_conf want s : holds want s -> conf s = g.
Proof. by intros [? _]. Qed.

Lemma does_pending : does (holds loaded) (write_pending n v) (fun ok s => (exists up wall, int64 up /\ int64 wall /\ holds (books up wall) s) /\ ok = true).
Proof.
  pose proof (stays_holds _ known_loaded) as HS. unfold write_pending.
  eapply does_bind; [apply (does_write loaded loaded); wants|]. intros wit. apply does_pure. intros ->.
  eapply does_bind; [by apply (does_ret g _ _ (fun _ => holds loaded))|]. intros ?. apply does_conf; [apply holds_conf|]. cbv zeta.
  eapply (does_bind g _ _ _ (fun q s => holds loaded s /\ q = Some None)).
  { eapply does_conseq; [apply (does_open loaded)|done|]. intros q s (f & [Ec F] & Ef & ->). split; [|done]. split; [exact Ec|]. rewrite Ef.
    eapply holds_insert; [exact F|]. wants. }
  intros room. apply does_pure. intros ->. eapply does_bind; [by apply does_uptime|]. intros up. apply does_pure. intros Hu.
  eapply does_bind; [by apply does_time|]. intros wall. apply does_pure. intros Hwl. eapply (does_bind g _ _ _ (fun _ => holds (books up wall))).
  { apply does_act. intros s [Ec F]. split; [exact Ec|]. cbn [apply_act files fits]. eapply holds_insert; [exact F|]. wants. }
  intros ?. eapply does_bind; [apply (does_sync (books up wall) _ (pending_text n v up wall true)); [apply known_books|member]|].
  intros ok. apply does_pure. intros ->. eapply does_bind; [by apply (does_ret g _ _ (fun _ => holds (books up wall)))|]. intros ?.
  apply does_ret. intros s Hs. split; [|done]. by exists up, wall.
Qed.

Lemma does_set_active up wall : does (holds (books up wall)) (set_active_ifs n) (fun ok s => holds (switched up wall) s /\ ok = true).
Proof.
  pose proof (stays_holds _ (known_books up wall)) as HS. unfold set_active_ifs.
  eapply does_bind; [by apply does_log|]. intros ?. eapply does_bind; [by apply does_quiet; [apply quiet_backup|apply conf_backup|]|]. intros ?.
  apply does_conf; [apply holds_conf|]. cbv zeta. fold (tmp_path g).
  eapply (does_bind g _ _ _ (fun x s => holds (books up wall) s /\ x = text)).
  { unfold read_file_content. eapply does_bind; [apply (does_read (books up wall) _ (Some text)); [apply known_books|member]|]. intros r. apply does_pure. intros ->. by apply does_ret. }
  intros x. apply does_pure. intros ->.
  set (written := (tmp_path g, Some (with_kernel n text)) :: books up wall).
  eapply does_bind; [apply (does_write (books up wall) written); unfold written; wants|]. intros ok. apply does_pure. intros ->. cbn [negb].
  assert (known written) as Hkw by (constructor; [apply paths_in|apply known_books]).
  eapply does_bind; [apply (does_sync written _ (with_kernel n text)); [done|left]|]. intros ok. apply does_pure. intros ->. cbn [negb].
  eapply (does_bind g _ _ _ (fun ok s => holds (switched up wall) s /\ ok = true)); [|intros ok; apply does_pure; intros ->; by apply does_ret].
  intros s ok s' Hs [Ec F]. unfold rename, mbind, io_bind, ask, get. cbn [tick files fst snd].
  assert (files s !! tmp_path g = Some (with_kernel n text)) as Et by (inversion F; assumption).
  rewrite (calm_move g v img Hc), bool_decide_eq_true_2 by (by rewrite Et). cbn [andb]. unfold act_. cbn [apply_act files conf tick done_]. rewrite Et.
  intros [= <- <-]. split; [done|]. split; [|done]. split; [exact Ec|]. cbn [files]. eapply (holds_insert (books up wall)).
  - inversion F as [|? ? _ F']. subst. apply holds_delete; [exact F'|].
    pose proof target_ne as Ht; cbv zeta in Ht; destruct Ht as ((? & ? & ? & ? & ? & ?) & (? & ? & ? & ? & ?) & _ & _); different.
    unfold books, loaded, rest. repeat (apply Forall_cons; split); try exact (List.Forall_nil _); congruence.
  - wants.
Qed.

Definition asked (s : client) : Prop := exists f, (f, Command "shutdown -v") ∈ done_ s.
Lemma stays_asked P : stays P -> stays (fun s => P s /\ asked s).
Proof.
  intros HP s s' W Ec [Hp [f Hf]]. split; [by eapply HP|]. destruct W as (l & E & _). exists f. rewrite E. set_solver.
Qed.
Lemma does_reboot want : known want -> does (holds want) request_reboot (fun _ s => holds want s /\ asked s).
Proof.
  intros Hw. pose proof (stays_holds _ Hw) as HS. unfold request_reboot. eapply does_bind; [by apply does_log|]. intros ?.
  eapply does_bind; [apply does_quiet; auto with untouched confs|]. intros ?. eapply (does_bind g _ _ _ (fun _ s => holds want s /\ asked s)); [|intros; by apply does_ret].
  unfold system. eapply (does_bind g _ _ _ (fun _ s => holds want s /\ asked s)).
  - apply does_act. intros s Hp. split; [exact Hp|]. exists (files s). cbn. set_solver.
  - intros ?. apply does_quiet; [auto with untouched|auto with confs|by apply stays_asked].
Qed.

(** What an update leaves, and that it asked for the reboot. *)
Definition updated (s : client) : Prop := exists up wall, int64 up /\ int64 wall /\ holds (switched up wall) s /\ asked s.

Lemma does_switch : does (holds loaded) (switch_to n v) (fun ok s => updated s /\ ok = true).
Proof.
  unfold switch_to. apply does_conf; [apply holds_conf|]. cbv zeta. eapply does_bind; [apply does_pending|]. intros ok. apply does_pure. intros ->. cbn [negb].
  intros s b s' Hs (up & wall & Hu & Hwl & Hb). revert s b s' Hs Hb.
  change (does (holds (books up wall)) (ok ← set_active_ifs n; if negb ok then abort_before_switch "Failed to update config.txt (restored if possible)" (image_path g n)
    else request_reboot;; mysleep 60;; there ← file_exists (pending_path g);
      (if (there : bool) then log_msg "Still running after reboot request; version NOT committed until next cold start" else mret ());; mret true) (fun ok s => updated s /\ ok = true)).
  eapply does_bind; [apply does_set_active|]. intros ok. apply does_pure. intros ->. cbn [negb].
  pose proof (stays_asked _ (stays_holds _ (known_switched up wall))) as HS.
  eapply does_bind; [apply does_reboot, known_switched|]. intros ?. eapply does_bind; [apply does_quiet; [auto with untouched|auto with confs|exact HS]|]. intros ?.
  eapply does_bind; [apply does_quiet; [auto with untouched|auto with confs|exact HS]|]. intros there.
  eapply (does_bind g _ _ _ (fun _ s => holds (switched up wall) s /\ asked s)); [destruct there; [by apply does_log|by apply does_ret]|].
  intros ?. apply does_ret. intros s [Hh Hs]. split; [|done]. by exists up, wall.
Qed.

Lemma does_apply : does (holds rest) (try_apply_update v) (fun ok s => updated s /\ ok = true).
Proof.
  pose proof (stays_holds _ known_rest) as HS. unfold try_apply_update. eapply does_bind; [by apply does_space|]. intros ok. apply does_pure. intros ->. cbn [negb].
  eapply does_bind; [apply does_active; [apply known_rest|member]|]. intros r. apply does_pure. intros ->.
  apply does_conf; [apply holds_conf|]. cbv zeta. fold n. do 2 (eapply does_bind; [by apply does_log|]; intros ?).
  eapply does_bind; [apply does_download|]. intros ok. apply does_pure. intros ->. cbn [negb].
  eapply does_bind; [apply (does_sha loaded); [apply known_loaded|member]|]. intros ok. apply does_pure. intros ->. cbn [negb].
  eapply does_bind; [apply (does_ifs loaded); [apply known_loaded|member]|]. intros ok. apply does_pure. intros ->. cbn [negb].
  apply does_switch.
Qed.
End cycle.

(** ** After the boot *)
Section boot.
Context `{World} `{Crypto} (g : OTAConfig) (v img text n : string) (up wall : Z) (ver : option string).
Context (Ha : apart g) (Hc : calm g v img) (Hv : word v) (Hv0 : v <> "") (Hn : an_ifs n) (Hu : int64 up) (Hwl : int64 wall).
Notation does := (does g).
Notation stays := (stays g).
Notation holds := (holds g).
Notation known := (known g).

Ltac different := destruct Ha as [Hd _]; unfold crucial in Hd; rewrite !NoDup_cons, !not_elem_of_cons in Hd; destruct_and!.

Definition rebooted_files : list (string * option string) :=
  [(config_file g, Some (with_kernel n text)); (pending_path g, Some (pending_text n v up wall true)); (kRebootWitnessPath, None); (version_file g, ver); (image_path g n, Some img)].
Definition with_version : list (string * option string) :=
  [(config_file g, Some (with_kernel n text)); (pending_path g, Some (pending_text n v up wall true)); (kRebootWitnessPath, None); (version_file g, Some (v +:+ nl)); (image_path g n, Some img)].
Definition settled : list (string * option string) :=
  [(config_file g, Some (with_kernel n text)); (pending_path g, None); (version_file g, Some (v +:+ nl)); (image_path g n, Some img)].

Lemma known_files : known rebooted_files /\ known with_version /\ known settled.
Proof.
  assert (image_path g n ∈ crucial g) by (unfold crucial; destruct Hn as [-> | ->]; rewrite !elem_of_cons; tauto). destruct (paths_in g) as (? & ? & ? & ? & _).
  split_and!; unfold OtaCycle.known, rebooted_files, with_version, settled; repeat (apply Forall_cons; split); try exact (List.Forall_nil _); assumption.
Qed.
Lemma image_ne : image_path g n <> version_file g /\ image_path g n <> pending_path g /\ image_path g n <> kRebootWitnessPath.
Proof. different. destruct Hn as [-> | ->]; repeat split; congruence. Qed.
Ltac member := unfold rebooted_files, with_version, settled; rewrite !elem_of_cons; tauto.

Lemma says_record want : known want -> (pending_path g, Some (pending_text n v up wall true)) ∈ want ->
  does (holds want) read_pending (fun p s => holds want s /\ p = Pending n v up wall true true).
Proof.
  intros Hw Hp. unfold read_pending. apply does_conf; [apply holds_conf|]. eapply does_bind; [by apply (does_read g v img Hc)|].
  intros r. apply does_pure. intros ->. apply does_ret. intros s Hs. split; [done|]. destruct (ifs_names _ Hn) as (Hw1 & Hw2 & _).
  by apply parse_pending_text; [| |apply word_no_nl|apply word_trimmed| |].
Qed.
Lemma does_write_version : does (holds rebooted_files) (write_version v) (fun ok s => holds with_version s /\ ok = true).
Proof.
  destruct known_files as (Hk1 & Hk2 & _). pose proof image_ne as (? & ? & ?). unfold write_version. apply does_conf; [apply holds_conf|].
  eapply does_bind; [apply (does_write g v img Hc rebooted_files with_version)|].
  { different. unfold with_version. repeat (apply Forall_cons; split); try exact (List.Forall_nil _); first [left; split; reflexivity|right; split; [congruence|member]]. }
  intros ok. apply does_pure. intros ->. eapply does_bind; [apply (does_sync g v img Hc with_version _ (v +:+ nl)); [done|member]|].
  intros ok. apply does_pure. intros ->. eapply does_bind; [by apply (does_ret g _ _ (fun _ => holds with_version))|]. intros ?. by apply does_ret.
Qed.
Lemma remove_known want want' p c : known want -> (p, c) ∈ want -> Forall (fun '(q, d) => (q = p /\ d = None) \/ (q <> p /\ (q, d) ∈ want)) want' ->
  does (holds want) (remove_file p) (fun _ => holds want').
Proof.
  intros Hw Hp Hw' s b s' Hs [Ec F]. unfold remove_file, mbind, io_bind, ask, get. cbn [tick files fst snd]. rewrite (calm_remove g v img Hc).
  assert (Forall (fun '(q, d) => delete p (files s) !! q = d) want') as Hdel.
  { rewrite Forall_forall in *. intros [q d] Hq. destruct (Hw' _ Hq) as [[-> ->]|[Hne Hi]]; [apply lookup_delete_eq|].
    rewrite lookup_delete_ne by done. by apply (F (q, d)). }
  destruct (files s !! p) as [x|] eqn:E; cbn; intros [= <- <-]; (split; [done|]); split; try exact Ec; [done|].
  cbn [files]. rewrite delete_id in Hdel by done. done.
Qed.
Lemma does_clear : does (holds with_version) clear_pending (fun _ => holds settled).
Proof.
  destruct known_files as (_ & Hk2 & Hk3). pose proof image_ne as (? & ? & ?). unfold clear_pending. apply does_conf; [apply holds_conf|].
  set (mid := (kRebootWitnessPath, None) :: settled).
  assert (known mid) as Hkm by (constructor; [apply paths_in|done]).
  eapply does_bind; [eapply (remove_known with_version mid); [done|unfold with_version; right; left|]|].
  { different. unfold mid, settled. repeat (apply Forall_cons; split); try exact (List.Forall_nil _); first [left; split; reflexivity|right; split; [congruence|member]]. }
  intros ?. eapply does_bind; [eapply (remove_known mid settled); [done|left|]|intros; by apply does_ret].
  different. unfold settled. repeat (apply Forall_cons; split); try exact (List.Forall_nil _); (right; split; [congruence|unfold mid, settled; rewrite !elem_of_cons; tauto]).
Qed.

Lemma does_settle : does (holds rebooted_files) settle_pending_on_boot (fun ok s => holds settled s /\ ok = true).
Proof.
  destruct known_files as (Hk1 & Hk2 & Hk3). pose proof (stays_holds g _ Hk1) as HS1. pose proof (stays_holds g _ Hk2) as HS2.
  pose proof (stays_holds g _ Hk3) as HS3. unfold settle_pending_on_boot.
  eapply does_bind; [apply (says_record rebooted_files); [done|member]|]. intros p. apply does_pure. intros ->. cbn [p_valid negb].
  eapply does_bind; [apply (does_active g v img (with_kernel n text) n Hc (kernel_of_with n text (ifs_names n Hn)) rebooted_files); [done|member]|].
  intros r. apply does_pure. intros ->. cbn [expected_ifs version]. eapply does_bind; [by apply (does_log g)|]. intros ?.
  rewrite decide_True by done. unfold system_rebooted_since. cbn [witness_ok].
  eapply (does_bind g _ _ _ (fun b s => holds rebooted_files s /\ b = true)).
  { eapply does_bind; [apply (does_exists g v img Hc rebooted_files _ None); [done|member]|]. intros b. apply does_ret. by intros s [? ->]. }
  intros b. apply does_pure. intros ->. cbn [negb]. rewrite !decide_False by done.
  eapply does_bind; [apply does_write_version|]. intros ok. apply does_pure. intros ->. cbn [negb].
  eapply does_bind; [by apply (does_log g)|]. intros ?. eapply does_bind; [apply does_clear|]. intros ?.
  eapply does_bind; [by apply (does_log g)|]. intros ?. by apply does_ret.
Qed.
Lemma does_get_version : does (holds settled) get_version (fun r s => holds settled s /\ r = v).
Proof.
  destruct known_files as (_ & _ & Hk3). unfold get_version. apply does_conf; [apply holds_conf|].
  eapply does_bind; [apply (does_read g v img Hc settled _ (Some (v +:+ nl))); [done|member]|]. intros r. apply does_pure. intros ->.
  apply does_ret. intros s Hs. split; [done|]. rewrite <- (app_empty nl), lines_line by (by apply word_no_nl). cbn [head lines default from_option].
  unfold id. rewrite word_trimmed by done. by rewrite decide_False.
Qed.
End boot.
