(* ===== verification/OtaProp.v ===== *)
(** * The update client: its properties, and a world to try them in

    Theorems on Ota.v, from the lemmas of the files before; and runs that
    show where the client is not safe: unchecked writes, and the restoring of
    a configuration that was never changed. *)
From S2P Require Import Prelude Gpio Ota OtaText OtaStep OtaSafe OtaKeep OtaBoot OtaCycle.
From stdpp Require Import gmap.
Open Scope Z_scope.

(** ** A world where all goes well *)
#[local] Instance toy_hash : Crypto := fun _ => replicate 32 7.
Definition toy_digest : string := hex (replicate 32 7).
Definition ends_in (suffix u : string) : bool :=
  bool_decide (String.substring (String.length u - String.length suffix) (String.length suffix) u = suffix).
Definition serve (img u : string) : http :=
  if decide (no_nl u) then
    if ends_in ".sha256" u then Http true 0 200 toy_digest
    else if ends_in ".bin" u then Http true 0 200 img
    else if ends_in "/version.txt" u then Http true 0 200 "2026.30.1"
    else Http true 0 404 ""
  else Http true 3 0 "".
Definition fair (img : string) : World := {|
  w_read _ _ := true; w_write _ _ := Some None; w_sync _ _ := true; w_rename _ := true; w_remove _ := true;
  w_http _ := serve img; w_free_kb _ := Some 20000; w_monotonic n := Some (Z.min (Z.of_nat n) 100000); w_time n := 1000 + Z.min (Z.of_nat n) 100000;
  w_date _ := "2026-07-20 10:00:00"; w_digest _ := true; w_system _ := 0; w_mounts _ := Some "/dev/sd0t12 on /var/boot type dos"
|}.
Definition nonempty (c : string) : Prop := (0 < String.length c)%nat.
Definition config_text : string := "arm_64bit=1" +:+ nl +:+ "kernel=ifs-rpi5.bin" +:+ nl.
Definition first_disk : store :=
  <[config_file defaults := config_text]> (<[image_path defaults IFS_A := "image A"]> (<[version_file defaults := "2026.29.1" +:+ nl]> ∅)).
Definition first_machine : machine := Machine first_disk IFS_A.

Lemma serve_cases img u : http_ok (serve img u) = true ->
  no_nl u /\ (body (serve img u) = toy_digest \/ body (serve img u) = img \/ body (serve img u) = "2026.30.1").
Proof. unfold serve. case_decide; [|done]. destruct (ends_in ".sha256" u), (ends_in ".bin" u), (ends_in "/version.txt" u); cbn; auto; discriminate. Qed.
Lemma serve_harmless img u : looks_like_ota_config img = false -> looks_like_ota_config (body (serve img u)) = false.
Proof.
  intros Hi. unfold serve. case_decide; [|by vm_compute].
  destruct (ends_in ".sha256" u), (ends_in ".bin" u), (ends_in "/version.txt" u); try exact Hi; by vm_compute.
Qed.
Lemma fair_sound img : looks_like_ota_config img = false -> @sound (fair img) _ defaults nonempty.
Proof.
  intros Hi. constructor; try done.
  - intros n u. cbn. by rewrite serve_harmless.
  - intros n u c _ _ Hl. unfold nonempty, MIN_IFS_SIZE in *. lia.
  - intros n u Hu. by apply (serve_cases img).
Qed.
Lemma first_good : good_start nonempty first_machine.
Proof.
  split; [|by vm_compute]. exists IFS_A, "image A". split_and!; [by vm_compute|by left|by vm_compute|]. unfold nonempty. cbn. lia.
Qed.
Lemma no_config argv f : parse_argv argv "/etc/ota_config" = Some "/etc/ota_config" -> f !! "/etc/ota_config" = None -> own_config defaults argv f.
Proof.
  intros Ep Ef p. rewrite Ep. intros [= <-]. split_and!; try (apply (bool_decide_unpack _); by vm_compute). intros text. by rewrite Ef.
Qed.

(** ** Safety *)
Section theorems.
Context `{Crypto}.

(** C1 (an update can be cut off anywhere) Whatever sessions of the client ran
    before, in any world the client relies on ([sound]: the temporary file of
    config.txt is written and synced whole, renames and removals work, the
    server's digests vouch for good images), cut off at any moment, and
    whatever boots came between: at every act of a session config.txt names
    an image that can boot, and the act does not touch that image; and the
    version is only written from a valid record whose image config.txt names,
    and, if the record says that a witness was made, only when the system
    runs that image.  For a record that does not say so, one of the old
    format, written where the witness could not be, or cut short, it is not
    claimed that the update was booted: a cut one is committed without a boot
    ([cut_record_commits]). *)
Theorem update_acts_safe OK m0 m (w : World) argv n rc s f x :
  good_start OK m0 -> rtc (mstep OK) m0 m -> sound defaults OK -> own_config defaults argv (disk m) ->
  main argv n (started (disk m)) = (rc, s) -> (f, x) ∈ done_ s ->
  bootable defaults OK f /\ spares_active defaults f x /\ (touches x (version_file defaults) -> commits defaults (running m) f x).
Proof.
  intros Hg Hr Hw Hown E Hx. destruct (session_safe OK argv n m rc s Hw Hown (reachable_safe _ _ _ Hg Hr) E) as [Hall _].
  rewrite Forall_forall in Hall. by destruct (Hall _ Hx) as ((? & _) & ? & ?).
Qed.

(** C3 (a bootable system) After any sequence of sessions, cut off anywhere,
    and boots, config.txt names a good image; a valid record is for one of the
    two images, or names a front of one if it was cut short; and a record that
    says that a witness was made, with the witness gone, is for the image that
    runs, provided config.txt names the image of the record.  Without that
    proviso it is not so: a session that is cut off between the record and the
    new config.txt, and then a boot, leave the record of an image that never
    ran ([record_of_none]). *)
Theorem reachable_bootable OK m0 m : good_start OK m0 -> rtc (mstep OK) m0 m ->
  bootable defaults OK (disk m) /\ named defaults (disk m) /\ evident defaults (running m) (disk m).
Proof. intros Hg Hr. by destruct (reachable_safe _ _ _ Hg Hr) as (? & ? & ?). Qed.

(** C4 (an update arrives) When nothing fails, an update puts the server's
    image in the slot that does not run, makes config.txt name it with all
    other lines kept, leaves the other slot and asks for a reboot; the session
    after the boot records the version, and the client then has it. *)
Theorem update_cycle (w1 w2 : World) v img text a t f0 :
  @calm w1 _ defaults v img -> @calm w2 _ defaults v img -> word v -> v <> "" ->
  kernel_of text = Some a -> an_ifs a -> f0 !! config_file defaults = Some text ->
  let '(ok1, s1) := @try_apply_update w1 _ v (started f0) in
  let '(ok2, s2) := @settle_pending_on_boot w2 (Client defaults (clear_tmp (files s1)) t []) in
  ok1 = true /\ asked s1 /\ ok2 = true /\
  files s2 !! config_file defaults = Some (with_kernel (other_ifs a) text) /\ files s2 !! image_path defaults (other_ifs a) = Some img /\
  files s1 !! image_path defaults a = f0 !! image_path defaults a /\ files s1 !! version_file defaults = f0 !! version_file defaults /\
  files s2 !! pending_path defaults = None /\ fst (@get_version w2 s2) = v.
Proof.
  intros Hc1 Hc2 Hv Hv0 Hk Ha Et. destruct (@try_apply_update w1 _ v (started f0)) as [ok1 s1] eqn:E1.
  destruct (does_apply defaults v img text a defaults_apart Hc1 Hv Hv0 Hk Ha (f0 !! image_path defaults a) (f0 !! version_file defaults)
    (started f0) ok1 s1 defaults_fit) as [_ [(up & wall & Hu & Hw & [_ F1] & Hask) ->]]; [split; [done|by repeat constructor]|exact E1|].
  set (s1' := Client defaults (clear_tmp (files s1)) t []). destruct (@settle_pending_on_boot w2 s1') as [ok2 s2] eqn:E2.
  assert (an_ifs (other_ifs a)) as Hn by apply other_inactive.
  unfold switched in F1. rewrite !Forall_cons in F1. destruct F1 as (Fc & Fp & Fi & Fa & Fv & _).
  destruct (does_settle defaults v img text (other_ifs a) up wall (f0 !! version_file defaults) defaults_apart Hc2 Hv Hv0 Hn Hu Hw s1' ok2 s2 defaults_fit)
    as [F2 [[Ec2 S2] ->]]; [|exact E2|].
  { split; [done|]. cbn [files s1']. unfold rebooted_files. rewrite !Forall_cons. unfold s1'. cbn [files].
    split_and!; try (rewrite boot_keeps; [done|apply (bool_decide_unpack _); by vm_compute]).
    - apply map_lookup_filter_None. right. intros c _ Hn'. apply Hn'. by eexists.
    - constructor. }
  destruct (@get_version w2 s2) as [r s3] eqn:E3.
  destruct (does_get_version defaults v img text (other_ifs a) up wall None Hc2 Hv Hv0 Hn s2 r s3 F2 (conj Ec2 S2) E3) as [_ [_ ->]].
  unfold settled in S2. rewrite !Forall_cons in S2. destruct S2 as (Sc & Sp & Sv & Si & _). by split_and!.
Qed.

(** ** The parts that decide *)

(** C18 (switching the image) After set_active_ifs the first kernel= line, and
    every other one, names the image; all other lines are as they were, in
    their order; switching again replaces the switch. *)
Theorem switch_keeps_settings a b text : ifs_name a -> ifs_name b ->
  kernel_of (with_kernel a text) = Some a /\ settings (with_kernel a text) = settings text /\
  Forall (fun l => kernel_ifs_from_line l = "" \/ l = "kernel=" +:+ a) (lines (with_kernel a text)) /\
  with_kernel b (with_kernel a text) = with_kernel b text.
Proof.
  intros Ha Hb. split_and!; [by apply kernel_of_with|by apply settings_with| |by apply with_kernel_twice].
  rewrite lines_with_kernel by done. apply Forall_app. split.
  - apply Forall_fmap, Forall_true. intros l. cbn. unfold retarget. case_decide; auto.
  - case_decide; [|constructor]. constructor; [by right|constructor].
Qed.

(** "Newer" is a strict order, so no sequence of updates
    comes back to a version; on versions as the server writes them it is the
    order of year, week and number. *)
Theorem newer_order : (forall a, is_newer_version a a = false) /\
  (forall a b c, is_newer_version a b = true -> is_newer_version b c = true -> is_newer_version a c = true) /\
  (forall y w q y' w' q', int32 y -> int32 w -> int32 q -> int32 y' -> int32 w' -> int32 q' ->
    is_newer_version (version_text y w q) (version_text y' w' q') = true <-> y' < y \/ y = y' /\ (w' < w \/ w = w' /\ q' < q)).
Proof.
  split_and!.
  - intros a. apply not_true_iff_false. rewrite is_newer_spec. unfold newer. lia.
  - intros a b c. rewrite !is_newer_spec. unfold newer. intuition lia.
  - intros. rewrite is_newer_spec, !parse_version_text by done. unfold newer. cbn. intuition.
Qed.

(** The record that write_pending writes reads
    back as it was; cut short anywhere it names no other image than a front of
    the one it was for, and it never claims a witness that was not made. *)
Theorem pending_roundtrip n v up wall wit room : an_ifs n -> word v -> int64 up -> int64 wall ->
  parse_pending (pending_text n v up wall wit) = Pending n v up wall wit true /\
  let p := parse_pending (fits room (pending_text n v up wall wit)) in
  (p_valid p = true -> front_of_ifs (expected_ifs p)) /\ (wit = false -> witness_ok p = false).
Proof.
  intros Hn Hv Hu Hw. pose proof (word_no_nl _ Hv) as Hl. destruct (ifs_names _ Hn) as (Hn1 & Hn2 & _). split; [|cbv zeta; split].
  - by apply parse_pending_text; [| | |apply word_trimmed| |].
  - by apply cut_front.
  - intros ->. apply cut_pending_witness; [by apply word_no_nl|done].
Qed.

(** With a witness bit the answer is whether the
    witness is gone.  Without one, with clocks that agree (the wall clock
    minus the uptime is the time of the boot, within the step between two
    readings), the answer is no in the session of the switch and yes after a
    boot more than five seconds later than the one before. *)
Theorem reboot_detected (w : World) p s b1 b2 t1 : w_read (tick s) kRebootWitnessPath = true ->
  (forall k, exists u, w_monotonic k = Some u /\ u = w_time k - b2) -> (forall k, w_time k <= w_time (S k) <= w_time k + 5) ->
  switch_wall_sec p = t1 -> switch_uptime_sec p = t1 - b1 -> b1 <= t1 -> 0 < t1 ->
  let r := fst (system_rebooted_since p s) in
  (witness_ok p = true -> r = bool_decide (files s !! kRebootWitnessPath = None)) /\
  (witness_ok p = false -> b2 = b1 -> t1 <= w_time (tick s) -> r = false) /\
  (witness_ok p = false -> b1 + 5 < b2 -> r = true).
Proof.
  intros Hr Hm Ht Ew Eu Hb Hp. cbv zeta. unfold system_rebooted_since. destruct (witness_ok p).
  - split_and!; try done. intros _. unfold file_exists, mbind, io_bind. rewrite open_read_is, Hr. cbn.
    destruct (files s !! kRebootWitnessPath); by rewrite ?bool_decide_eq_true_2 by done.
  - split; [done|]. rewrite Eu, Ew. rewrite (proj2 (Z.ltb_ge _ _)), (proj2 (Z.leb_gt _ _)) by lia. cbn [orb].
    destruct (Hm (tick s)) as (u & Em & ->). unfold uptime_sec_now, mbind, io_bind, ask. cbn. rewrite Em. cbn. specialize (Ht (tick s)).
    destruct (_ <? _) eqn:E; zbool; cbn; split; intros; rewrite ?Z.ltb_ge, ?Z.ltb_lt; try done; lia.
Qed.
End theorems.

(** ** The theorems at concrete inputs *)
Definition example_run : client := snd (@main (fair "image B") _ [] 1 (started first_disk)).
Lemma first_own : own_config defaults [] first_disk.
Proof. by apply no_config. Qed.
Lemma example_main : @main (fair "image B") _ [] 1 (started first_disk) = (fst (@main (fair "image B") _ [] 1 (started first_disk)), example_run).
Proof. apply surjective_pairing. Qed.

Lemma example_act : is_Some (done_ example_run !! 12%nat).
Proof. apply lookup_lt_is_Some_2, Nat.ltb_lt. by vm_compute. Qed.

Lemma update_acts_safe_witness : match done_ example_run !! 12%nat with
  | Some (f, x) => bootable defaults nonempty f /\ spares_active defaults f x /\ (touches x (version_file defaults) -> commits defaults IFS_A f x)
  | None => False
  end.
Proof.
  destruct (done_ example_run !! 12%nat) as [[f x]|] eqn:E; [|by destruct example_act as [? E']; rewrite E in E'].
  exact (update_acts_safe nonempty first_machine first_machine (fair "image B") [] 1 _ example_run f x first_good (rtc_refl _ _)
    (fair_sound "image B" eq_refl) first_own example_main (list_elem_of_lookup_2 _ _ _ E)).
Defined.

(** A session is cut off after twelve acts, and the machine boots. *)
Definition cut_disk : store := match done_ example_run !! 12%nat with Some (f, _) => f | None => ∅ end.
Lemma cut_moment : moment cut_disk example_run.
Proof.
  right. unfold cut_disk. destruct (done_ example_run !! 12%nat) as [[f x]|] eqn:E; [|by destruct example_act as [? E']; rewrite E in E'].
  exists x. by apply (list_elem_of_lookup_2 _ 12%nat).
Qed.
Lemma cut_reachable : rtc (mstep nonempty) first_machine (Machine (clear_tmp cut_disk) IFS_A).
Proof.
  eapply rtc_l; [exact (Session nonempty (fair "image B") [] 1 first_machine _ example_run cut_disk (fair_sound "image B" eq_refl) first_own example_main cut_moment)|].
  apply rtc_once. apply (Boot nonempty (Machine cut_disk IFS_A)). by vm_compute.
Qed.
Lemma reachable_bootable_witness : bootable defaults nonempty (clear_tmp cut_disk) /\ named defaults (clear_tmp cut_disk) /\ evident defaults IFS_A (clear_tmp cut_disk).
Proof. exact (reachable_bootable nonempty first_machine (Machine (clear_tmp cut_disk) IFS_A) first_good cut_reachable). Defined.

Definition big : string := String.string_of_list_ascii (replicate (Z.to_nat 10485760) "i"%char).
Lemma length_of_list l : String.length (String.string_of_list_ascii l) = length l.
Proof. induction l as [|c l IH]; [done|]. cbn. by rewrite IH. Qed.
Lemma big_size : MIN_IFS_SIZE <= Z.of_nat (String.length big).
Proof. unfold big. rewrite length_of_list, length_replicate, Z2Nat.id by done. done. Qed.
Lemma fair_calm img : MIN_IFS_SIZE <= Z.of_nat (String.length img) -> @calm (fair img) _ defaults "2026.30.1" img.
Proof.
  intros Hs. constructor; try done.
  - intros n. by exists 20000.
  - intros n. cbn -[Z.min]. split; [intros t [= <-]|]; unfold int64; lia.
Qed.
Lemma update_cycle_witness : fst (@try_apply_update (fair big) _ "2026.30.1" (started first_disk)) = true.
Proof.
  pose proof (update_cycle (fair big) (fair big) "2026.30.1" big config_text IFS_A 0%nat first_disk (fair_calm big big_size) (fair_calm big big_size)
    ltac:(by repeat constructor) ltac:(done) eq_refl (or_introl eq_refl) eq_refl) as Hc.
  destruct (@try_apply_update (fair big) _ "2026.30.1" (started first_disk)) as [ok1 s1].
  destruct (@settle_pending_on_boot (fair big) _) as [ok2 s2]. exact (proj1 Hc).
Defined.

Lemma switch_keeps_settings_witness : kernel_of (with_kernel IFS_B config_text) = Some IFS_B /\ settings (with_kernel IFS_B config_text) = ["arm_64bit=1"].
Proof.
  destruct (switch_keeps_settings IFS_B IFS_A config_text (ifs_names _ (or_intror eq_refl)) (ifs_names _ (or_introl eq_refl))) as (Hk & Hs & _).
  split; [exact Hk|]. etrans; [exact Hs|]. by vm_compute.
Defined.
Lemma newer_order_witness : is_newer_version "2026.30.1" "2026.29.7" = true.
Proof. apply (proj2 (proj2 newer_order) 2026 30 1 2026 29 7); unfold int32; lia. Defined.
Lemma pending_roundtrip_witness : parse_pending (pending_text IFS_B "2026.30.1" 120 1753000000 true) = Pending IFS_B "2026.30.1" 120 1753000000 true true.
Proof.
  apply (pending_roundtrip IFS_B "2026.30.1" 120 1753000000 true None); [by right|by repeat constructor|unfold int64; lia|unfold int64; lia].
Defined.
Definition clock_record : PendingInfo := Pending IFS_B "2026.30.1" 10 510 false true.
Lemma reboot_detected_witness : fst (@system_rebooted_since (fair "") clock_record (started ∅)) = true.
Proof.
  apply (reboot_detected (fair "") clock_record (started ∅) 500 1000 510); try done.
  - intros k. exists (Z.min (Z.of_nat k) 100000). split; [done|]. cbn -[Z.min]. lia.
  - intros k. cbn -[Z.min Z.of_nat]. lia.
Defined.

(** ** Where it is not safe *)

(** Only the first [k] bytes of file [p] are written. *)
Definition short (p : string) (k : nat) (w : World) : World := {|
  w_read := w_read; w_write n q := if decide (q = p) then Some (Some k) else w_write n q; w_sync := w_sync; w_rename := w_rename; w_remove := w_remove;
  w_http := w_http; w_free_kb := w_free_kb; w_monotonic := w_monotonic; w_time := w_time; w_date := w_date; w_digest := w_digest;
  w_system := w_system; w_mounts := w_mounts |}.
(** File [p] can be opened only if [rd] and written only if [wr]; [sy]: fsync works. *)
Definition broken (p : string) (rd wr sy : bool) (w : World) : World := {|
  w_read n q := if decide (q = p) then rd else w_read n q; w_write n q := if decide (q = p) then (if wr then w_write n q else None) else w_write n q;
  w_sync n q := if decide (q = p) then sy else w_sync n q; w_rename := w_rename; w_remove := w_remove;
  w_http := w_http; w_free_kb := w_free_kb; w_monotonic := w_monotonic; w_time := w_time; w_date := w_date; w_digest := w_digest;
  w_system := w_system; w_mounts := w_mounts |}.

(** The disk is full: the new config.txt is cut short, fsync and rename
    succeed, and no kernel= line is left. *)
Lemma short_config_write : let r := @set_active_ifs (short (tmp_path defaults) 8 (fair "")) IFS_B (started first_disk) in
  fst r = true /\ files (snd r) !! config_file defaults = Some "arm_64bi" /\ active_of defaults (files (snd r)) = None.
Proof. by vm_compute. Qed.

(** The backup cannot be written and an old one names the other image; the
    new config.txt cannot be synced: the old backup is restored, and then the
    image that it names is removed. *)
Definition stale_disk : store := <[bak_path defaults := "kernel=ifs-rpi5_B.bin" +:+ nl]> (<[image_path defaults IFS_B := "image B"]> first_disk).
Lemma stale_backup : let s := snd (@switch_to (broken (bak_path defaults) true false true (broken (tmp_path defaults) true true false (fair ""))) IFS_B "2026.30.1" (started stale_disk)) in
  active_of defaults (files s) = Some IFS_B /\ files s !! image_path defaults IFS_B = None.
Proof. by vm_compute. Qed.

(** When the new config.txt cannot be synced, config.txt itself, which is as
    it was, is emptied and written again. *)
Lemma restore_empties : existsb (fun '(f, _) => bool_decide (f !! config_file defaults = Some ""))
  (done_ (snd (@set_active_ifs (broken (tmp_path defaults) true true false (fair "")) IFS_B (started first_disk)))) = true.
Proof. by vm_compute. Qed.

(** A switch is cut off between the record and the new config.txt, and the
    system boots: the record says that a witness was made, the witness is gone,
    and the image of the record is not the one that runs. *)
Lemma record_of_none : existsb (fun '(f, _) => let f' := clear_tmp f in
    match f' !! pending_path defaults with
    | Some text => let p := parse_pending text in p_valid p && witness_ok p && bool_decide (expected_ifs p = IFS_B)
    | None => false
    end && bool_decide (f' !! kRebootWitnessPath = None) && bool_decide (active_of defaults f' = Some IFS_A))
  (done_ (snd (@switch_to (fair "") IFS_B "2026.30.1" (started stale_disk)))) = true.
Proof. by vm_compute. Qed.

(** config.txt cannot be opened: all its settings are dropped. *)
Lemma settings_dropped : let r := @set_active_ifs (broken (config_file defaults) false true true (fair "")) IFS_B (started first_disk) in
  fst r = true /\ files (snd r) !! config_file defaults = Some ("kernel=ifs-rpi5_B.bin" +:+ nl).
Proof. by vm_compute. Qed.

(** A record that was cut short passes for one of the old format: the front of
    the version is committed with no reboot, the witness still there. *)
Definition cut_record_disk : store := <[pending_path defaults := "ifs-rpi5_B.bin" +:+ nl +:+ "2026."]> (<[kRebootWitnessPath := "x"]>
  (<[config_file defaults := "kernel=ifs-rpi5_B.bin" +:+ nl]> first_disk)).
Lemma cut_record_commits : let r := @settle_pending_on_boot (fair "") (started cut_record_disk) in
  fst r = true /\ files (snd r) !! version_file defaults = Some ("2026." +:+ nl).
Proof. by vm_compute. Qed.
(** And after it no version is newer. *)
Lemma cut_version_blocks v : is_newer_version v "2026." = false.
Proof. apply not_true_iff_false. rewrite is_newer_spec. intros (_ & Hv & _). by vm_compute in Hv. Qed.
